(* ===== verification/_CoqProject ===== *)
-Q . S2P
Prelude.v
Js.v
Numeric.v
Sha256.v
Hmac.v
Rows.v
Schema.v
Parties.v
RateLocks.v
PaymentWorkflow.v
PaymentSpec.v
PaymentRefinement.v
PaymentProps.v
PaymentDemo.v
ComplianceAlerts.v
ComplianceProps.v
OperationalAlerts.v
OperationalProps.v
Onboarding.v
OnboardingProps.v
Integrations.v
IntegrationsProps.v
Policies.v
PoliciesProps.v
TableSteps.v
Lifecycles.v
LifecycleProps.v
EvidencePacks.v
EvidenceProps.v
Readiness.v
SodMonitor.v
ReadinessProps.v
Lakehouse.v
LakehouseProps.v
Zod.v
Contracts.v
ServiceBridge.v
ContractsProps.v
ServiceBridgeProps.v
BridgeDemo.v
Access.v
AccessProps.v
AccessDemo.v
Rails.v
RailsProps.v
LedgerProjection.v
LedgerProjectionProps.v
KycDocuments.v
KycProps.v
Verification.v
VerificationProps.v
CustomerUseCase.v
CustomerUseCaseProps.v
Doubles.v
Treasury.v
TreasuryProps.v
Reporting.v
ReportingProps.v
ServiceHealth.v
ServiceHealthProps.v
Scheduled.v
ScheduledProps.v
Dossiers.v
DossiersProps.v
Identity.v
IdentityProps.v
Router.v
AccessMatrix.v
RouterProps.v
Queries.v
QueriesProps.v
KeycloakAdmin.v
KeycloakAdminProps.v
SodSchedule.v
Console.v
ConsoleControls.v
ConsoleProps.v
ConsoleState.v
ConsoleStateProps.v
ConsoleUpload.v
