(* ===== verification/Prelude.v ===== *)
(** * UmojaFlowOS control plane: verification library (root file)

    UmojaFlowOS is a cross-border payments operations platform for the
    corridors Nigeria, Kenya and South Africa. Its control plane, the TypeScript
    server under src/apps/control-plane/server, is the writer of a PostgreSQL
    database (src/database/postgresql) in which payment drafts, compliance work,
    provider integrations, onboarding and readiness evidence are kept. It moves
    no money: what it promises is that the record is right, that decisions are
    taken by the people who may take them, and that nothing recorded is later
    altered. This library models the handlers of that server over the tables of
    that database and proves those promises, or shows where they fail.

    ** How the program is modelled

    A request is given a context ([Identity.createContext]) and served by the
    router ([Router.serve]), which refuses it or calls a handler as that user. A
    handler opens a transaction, issues statements and commits, or rolls back and
    rethrows. [Prelude.Tx] is the state and error monad of the statements inside a
    transaction, [Prelude.Act] that of a whole handler, and [Prelude.transaction]
    is the bridge: a body that throws leaves the database as it was. The database
    is the record [Rows.db], with one finite map from row identifiers to rows per
    table, and an append-only list of activity events. [Schema.insert_row] checks
    the rules of a table (CHECK, primary key, UNIQUE, FOREIGN KEY) in PostgreSQL's
    order, so that a statement the database refuses is refused here. Where row
    locks make a transaction appear atomic, interleaving is the order of
    transactions in a run: a run is the reflexive transitive closure of a relation
    with one constructor per handler. Where they do not (grants of roles under
    READ COMMITTED in [Access], the evaluations of [Scheduled], the awaits of
    [Rails]), what others do in between is explicit.

    What the environment decides is an argument: the clocks of the server and of
    the database ([Schema.env]), fresh identifiers, the answers of webhooks,
    services, probes and the object store, the URL parser, [net.isIP], the process
    environment, the collation behind [localeCompare], the local calendar day of
    an instant, the tests of the zod library that are not in the sources. Nothing
    is assumed of these arguments unless a theorem says so; the two interfaces
    with laws, [Zod.ZodParser] and [Identity.SessionTokens], have instances.
    Identifiers are not assumed fresh, since a reused one is refused by the
    primary key. Integers are unbounded [Z] where the code keeps timestamps or
    [NUMERIC(30,12)] amounts, whose bounds are checked where PostgreSQL checks
    them ([Numeric]); JavaScript numbers are binary64 where the code computes with
    them ([Doubles], and [Js.round53] for sums). Strings are in the Latin-1 range
    without NUL, where UTF-16 units, which JavaScript counts, and code points,
    which PostgreSQL counts, are the same number; where the two counts meet,
    [admitted_inputs_meet_checks] compares them on any text ([Js.utf16_length],
    [Js.code_point_count]). JSON numbers are finite.

    ** Files

    Foundations:
    - [Prelude]: results and the two monads, the "respects a relation" calculus
      with which handlers are shown to refine contracts, queries over tables;
    - [Js]: JavaScript strings, dates, JSON, [EqDecision] for them;
    - [Numeric], [Doubles]: decimal text, rounding and overflow of
      [NUMERIC(30,12)]; binary64, [Number(text)] and [String(number)];
    - [Sha256], [Hmac]: the digest of texts and of bytes, HMAC and base64;
    - [Rows], [Schema]: enumerations and rows; constraints, statements, the log;
    - [TableSteps]: the contract "rows are inserted once and then only moved".

    Components, a file for the definitions and one for the theorems:
    - payments (paymentWorkflow.ts, and parties, screening and rate locks of
      postgres.ts): [Parties], [RateLocks], [PaymentWorkflow]; the abstract
      contract and invariant in [PaymentSpec]; the proof that every handler
      refines the contract in [PaymentRefinement]; [PaymentProps]; a worked run
      and two departures in [PaymentDemo];
    - compliance alerts, cases and filings (complianceAlerts.ts,
      complianceCaseWorkflow.ts, postgres.ts): [ComplianceAlerts],
      [ComplianceProps];
    - operational alerts (operationalAlerts.ts, _core/notification.ts):
      [OperationalAlerts], [OperationalProps];
    - counterparty onboarding (counterpartyOnboarding.ts, the triggers of
      0014_control_evidence_outbox.sql): [Onboarding], [OnboardingProps];
    - provider integrations (postgres.ts, providerHealthCheck.ts, the activation
      procedure of routers.ts): [Integrations], [IntegrationsProps];
    - policies and regulatory deadlines (postgres.ts): [Policies],
      [PoliciesProps];
    - operator and auditor lifecycles: [Lifecycles], [LifecycleProps];
    - the five evidence packs and their gates: [EvidencePacks], [EvidenceProps];
    - VASP readiness (vaspReadinessAssurance.ts) and its monitor
      (segregationOfDutiesMonitor.ts): [Readiness], [SodMonitor],
      [ReadinessProps], and the monitor's schedule in [SodSchedule];
    - dispatch of evidence to the lakehouse: [Lakehouse], [LakehouseProps];
    - service contracts (contracts/events.ts, contracts/services.ts) and the
      bridge (serviceBridge.ts): [Zod], [Contracts], [ContractsProps],
      [ServiceBridge], [ServiceBridgeProps], [BridgeDemo];
    - operator roles, directory and external stakeholders: [Access],
      [AccessProps], [AccessDemo];
    - rail failover (multiRailFailover.ts, yellowcardAdapter.ts): [Rails],
      [RailsProps];
    - signed ledger projections (internalLedgerProjection.ts):
      [LedgerProjection], [LedgerProjectionProps];
    - KYC documents, consents and document analysis: [KycDocuments], [KycProps],
      [Verification], [VerificationProps];
    - customer profiles and the use-case gate: [CustomerUseCase],
      [CustomerUseCaseProps];
    - treasury: liquidity positions, recommendations, spreads: [Treasury],
      [TreasuryProps];
    - legal entities, regulatory reports, risk assessments: [Reporting],
      [ReportingProps];
    - service health, its history, monitor and objectives: [ServiceHealth],
      [ServiceHealthProps];
    - scheduled work (scheduled/): [Scheduled], [ScheduledProps];
    - sandbox dossiers, supervisory, travel-rule, offshore and remittance
      readiness (cbnSandbox.ts, vaspReadiness.ts, imtoReadiness.ts): [Dossiers],
      [DossiersProps];
    - identity (keycloakIdentity.ts, keycloakFederation.ts, _core/oidc.ts,
      _core/context.ts): [Identity], [IdentityProps];
    - the router (routers.ts, _core/trpc.ts, _core/systemRouter.ts): [Router],
      [RouterProps], and in [AccessMatrix] the matrix of roles and procedures it
      is compared with, next to the documented one (docs/role-authority-matrix.md);
    - the accounts at the identity provider (keycloakAdmin.ts): [KeycloakAdmin],
      [KeycloakAdminProps];
    - the reads of the data layer (postgres.ts): [Queries], [QueriesProps];
    - the console (src/apps/control-plane/client/src): [Console] for what a role is
      offered, [ConsoleControls] for every control that writes, [ConsoleProps] for
      their comparison with router and handlers; [ConsoleState] and
      [ConsoleStateProps] for feedback, resends, charts and histories;
      [ConsoleUpload] for the upload form, composed with router, handlers and store.

    ** What the theorems show

    The record is right: [payments_invariant], [compliance_invariant],
    [phases_are_earned], [kyc_documents_verified], [use_case_gate_based],
    [reports_gated] and [readiness_not_overstated] are invariants of every run;
    [draft_order_exact], [order_transition_exact], [disposition_exact] and
    [deadline_evaluation_settles] are exact accounts of handlers, errors included;
    [reachable_register_is_clean] refines the readiness handlers to the monitor's
    rule; [ledger_balance_exact] is an equivalence of a check with its
    specification, [envelopes_round_trip] and [sign_in_round_trip] round trips;
    [dashboard_is_exact], [credential_trail_exact] and [cutover_ready_exact] say
    that what is shown is what is stored.

    Decisions are taken by those who may: [authority_is_recorded],
    [requests_are_authorised], [authority_is_granted], [deactivation_cuts_off],
    [dedicated_gates_owned], [steady_state_earned], [active_is_earned],
    [readiness_points_independent], [analysis_under_consent],
    [only_signed_projections_recorded] and [schedules_fail_closed].

    Numbers and loops behave: [target_amount_accurate], [recommendations_bounded]
    and [slo_is_evidenced] bound what is computed; [lock_retries_bounded] and
    [backlog_drains] say that loops end and get their work done;
    [bridge_fails_closed], [failover_is_safe] and [health_is_observed] say what
    happens when other parties fail, and [tokens_used_while_granted] that the
    service account's token is not used beyond its grant.

    Components fit together: [admitted_inputs_meet_checks] (router and tables),
    [accepted_payload_is_typed] (services and bridge), [schedules_fail_closed]
    (scheduler, deadlines and locks), [requests_are_authorised] (sign-in, roles
    and router, against the access matrix), [console_offers_what_is_granted] and
    [console_steps_are_taken] (console, router and handlers),
    [uploaded_file_is_recorded] (form, router, handlers and object store).

    Departures of the code from its comments or its purpose are theorems too,
    introduced by the word "Departure" and listed as findings in the manifest. Where
    a departure limits one of the properties above, the property says so: a bearer
    token may show an inherited name for a role and any class that mentions a factor
    ([authority_is_recorded]), a grant outside the snapshot of a deactivation
    survives it ([deactivation_cuts_off]), the payload of a validated order is not
    searched for authority ([bridge_fails_closed]), and nineteen pairs of a control
    and a role differ between console and router ([console_offers_what_is_granted]).

    ** Fuel and bounds

    Loops of the code run over the rows of a query or over a bounded number of
    attempts and recurse on those. Digits are printed with fuel: the binary length
    of a number bounds its decimal digits ([Numeric.int_text_fuel]); the search of
    [Doubles.shortest_from] tries seventeen digits, which [shortest_from_ok] shows
    to read back as the number whatever the fuel; SHA-256 runs over as many blocks
    as its padded input has words.

    ** Not modelled

    The generated protobuf SDK and the Go, Rust and Python services are other
    programs. Of the React client, what is drawn, the fields of the forms and the
    library of user-interface components. Within the server: signed URLs of the object
    store, tracing, static files and start-up are input and output without
    decisions of their own, as are the renamings of columns in the listings of
    postgres.ts. The manifest lists them part by part. *)

From Stdlib Require Export ZArith Lia Ascii.
From stdpp Require Export base gmap strings list option pretty sorting.

(** ** Results

    A handler of the control plane either resolves with a value or rejects
    with an [Error]. Errors raised by the TypeScript code carry their message;
    errors raised by PostgreSQL carry the violated rule. *)

Inductive pg_violation : Type :=
  | PrimaryKeyViolation (table : string)
  | UniqueViolation (constraint : string)
  | ForeignKeyViolation (constraint : string)
  | CheckViolation (constraint : string)
  | NotNullViolation (column : string)
  | NumericOverflow (column : string)
  | InvalidInput (type : string)
  | TriggerException (message : string).

Inductive error : Type :=
  | JsError (message : string)
  | PgError (violation : pg_violation).

Inductive res (A : Type) : Type :=
  | Ok (a : A)
  | Throw (e : error).
Arguments Ok {A} a.
Arguments Throw {A} e.

#[export] Instance pg_violation_eq_dec : EqDecision pg_violation.
Proof. solve_decision. Defined.
#[export] Instance error_eq_dec : EqDecision error.
Proof. solve_decision. Defined.

Definition is_ok {A} (r : res A) : bool :=
  match r with Ok _ => true | Throw _ => false end.

(** ** The transaction monad

    [Tx S A] is the body between [BEGIN] and [COMMIT]: it threads the tables
    and stops at the first rejection. [Act S A] is a whole handler: the state
    it leaves behind exists also when it rejects. [transaction] is the
    [try { BEGIN; body; COMMIT } catch { ROLLBACK; throw }] wrapper that every
    writing handler uses. *)

Definition Tx (S A : Type) : Type := S → res (A * S).
Definition Act (S A : Type) : Type := S → res A * S.

#[export] Instance tx_ret {S} : MRet (Tx S) := λ A a s, Ok (a, s).
#[export] Instance tx_bind {S} : MBind (Tx S) := λ A B k m s,
  match m s with
  | Ok (a, s') => k a s'
  | Throw e => Throw e
  end.

#[export] Instance act_ret {S} : MRet (Act S) := λ A a s, (Ok a, s).
#[export] Instance act_bind {S} : MBind (Act S) := λ A B k m s,
  match m s with
  | (Ok a, s') => k a s'
  | (Throw e, s') => (Throw e, s')
  end.

Section tx.
Context {S : Type}.

Definition throw {A} (e : error) : Tx S A := λ _, Throw e.
Definition throw_if (b : bool) (e : error) : Tx S unit :=
  λ s, if b then Throw e else Ok (tt, s).
Definition require {A} (o : option A) (e : error) : Tx S A :=
  λ s, match o with Some a => Ok (a, s) | None => Throw e end.
Definition gets {A} (f : S → A) : Tx S A := λ s, Ok (f s, s).
Definition modify (f : S → S) : Tx S unit := λ s, Ok (tt, f s).

Fixpoint for_each {A} (f : A → Tx S unit) (l : list A) : Tx S unit :=
  match l with
  | [] => mret tt
  | a :: l => _ ← f a; for_each f l
  end.

Definition transaction {A} (body : Tx S A) : Act S A := λ s,
  match body s with
  | Ok (a, s') => (Ok a, s')
  | Throw e => (Throw e, s)
  end.

Definition act_throw_if (b : bool) (e : error) : Act S unit :=
  λ s, if b then (Throw e, s) else (Ok tt, s).

Lemma tx_bind_ok {A B} (m : Tx S A) (k : A → Tx S B) s b s' :
  mbind k m s = Ok (b, s') ↔ ∃ a s1, m s = Ok (a, s1) ∧ k a s1 = Ok (b, s').
Proof.
  unfold mbind, tx_bind. split.
  - destruct (m s) as [[a s1]|e]; [eauto|done].
  - intros (a & s1 & -> & H). exact H.
Qed.

Lemma throw_if_ok b e s u s' :
  throw_if b e s = Ok (u, s') ↔ b = false ∧ s' = s.
Proof. unfold throw_if. destruct b, u; naive_solver. Qed.

Lemma require_ok {A} (o : option A) e s a s' :
  require o e s = Ok (a, s') ↔ o = Some a ∧ s' = s.
Proof. unfold require. destruct o; naive_solver. Qed.

Lemma gets_ok {A} (f : S → A) s a s' :
  gets f s = Ok (a, s') ↔ f s = a ∧ s' = s.
Proof. unfold gets. naive_solver. Qed.

Lemma modify_ok f s u s' : modify f s = Ok (u, s') ↔ s' = f s.
Proof. unfold modify. destruct u; naive_solver. Qed.

Lemma mret_ok {A} (a : A) s b s' :
  (mret a : Tx S A) s = Ok (b, s') ↔ b = a ∧ s' = s.
Proof. unfold mret, tx_ret. naive_solver. Qed.

Lemma throw_ok {A} e s (b : A) s' : throw e s = Ok (b, s') ↔ False.
Proof. unfold throw. naive_solver. Qed.

Lemma transaction_ok {A} (body : Tx S A) s a s' :
  transaction body s = (Ok a, s') ↔ body s = Ok (a, s').
Proof. unfold transaction. destruct (body s) as [[]|]; naive_solver. Qed.

(** A rejected transaction leaves no trace: [ROLLBACK]. *)
Lemma transaction_throw {A} (body : Tx S A) s e s' :
  transaction body s = (Throw e, s') ↔ body s = Throw e ∧ s' = s.
Proof. unfold transaction. destruct (body s) as [[]|]; naive_solver. Qed.

(** The same rules read forwards, to run a body whose guards are known. *)
Lemma tx_bind_run {A B} (m : Tx S A) (k : A → Tx S B) s a s1 r :
  m s = Ok (a, s1) → k a s1 = r → mbind k m s = r.
Proof. unfold mbind, tx_bind. by intros ->. Qed.
Lemma throw_if_run b e s : b = false → throw_if b e s = Ok (tt, s).
Proof. by intros ->. Qed.
Lemma require_run {A} (o : option A) e s a : o = Some a → require o e s = Ok (a, s).
Proof. by intros ->. Qed.
Lemma gets_run {A} (f : S → A) s : gets f s = Ok (f s, s).
Proof. done. Qed.
Lemma modify_run f s : modify f s = Ok (tt, f s).
Proof. done. Qed.
Lemma tx_throw_run {A B} (m : Tx S A) (k : A → Tx S B) s e :
  m s = Throw e → mbind k m s = Throw e.
Proof. unfold mbind, tx_bind. by intros ->. Qed.

Lemma act_throw_if_bind {A} b e (k : unit → Act S A) s :
  mbind k (act_throw_if b e) s = if b then (Throw e, s) else k tt s.
Proof. unfold mbind, act_bind, act_throw_if. by destruct b. Qed.
End tx.

Lemma act_bind_ok {S A B} (m : Act S A) (k : A → Act S B) s b s' :
  mbind k m s = (Ok b, s') → ∃ a s1, m s = (Ok a, s1) ∧ k a s1 = (Ok b, s').
Proof. unfold mbind, act_bind. destruct (m s) as [[a|e] s1]; [by eauto|done]. Qed.

(** A guard before the transaction either stops the handler or passes. *)
Lemma act_guard {S A} b e (k : unit → Act S A) s r s' : mbind k (act_throw_if b e) s = (r, s') →
  (b = true ∧ s' = s ∧ is_ok r = false) ∨ (b = false ∧ k tt s = (r, s')).
Proof. rewrite act_throw_if_bind. destruct b; [intros [= <- <-]; by left|by right]. Qed.

(** ** Frame rules

    [respects R m]: whatever [m] does when it succeeds is an [R] step. With a
    preorder [R] the judgement is closed under the monad's operations, so a
    table that a handler only reads, or a log it only appends to, is dealt
    with by [eauto with tx]. *)

Definition respects {S A} (R : relation S) (m : Tx S A) : Prop :=
  ∀ s a s', m s = Ok (a, s') → R s s'.

Definition act_respects {S A} (R : relation S) (m : Act S A) : Prop :=
  ∀ s, R s (m s).2.

Section respects.
Context {S : Type} (R : relation S) `{!PreOrder R}.

Lemma respects_ret {A} (a : A) : respects R (mret a).
Proof. intros s b s' [-> ->]%mret_ok. reflexivity. Qed.

Lemma respects_bind {A B} (m : Tx S A) (k : A → Tx S B) :
  respects R m → (∀ a, respects R (k a)) → respects R (mbind k m).
Proof.
  intros Hm Hk s b s' (a & s1 & H1 & H2)%tx_bind_ok.
  transitivity s1; [eapply Hm|eapply Hk]; done.
Qed.

Lemma respects_throw {A} e : respects R (throw e : Tx S A).
Proof. intros s a s' []%throw_ok. Qed.

Lemma respects_throw_if b e : respects R (throw_if b e).
Proof. intros s a s' [_ ->]%throw_if_ok. reflexivity. Qed.

Lemma respects_require {A} (o : option A) e : respects R (require o e).
Proof. intros s a s' [_ ->]%require_ok. reflexivity. Qed.

Lemma respects_gets {A} (f : S → A) : respects R (gets f).
Proof. intros s a s' [_ ->]%gets_ok. reflexivity. Qed.

Lemma respects_modify f : (∀ s, R s (f s)) → respects R (modify f).
Proof. intros Hf s a s' ->%modify_ok. apply Hf. Qed.

Lemma respects_if {A} (b : bool) (m1 m2 : Tx S A) :
  respects R m1 → respects R m2 → respects R (if b then m1 else m2).
Proof. by destruct b. Qed.

Lemma respects_match {A B} (o : option B) (m1 : B → Tx S A) (m2 : Tx S A) :
  (∀ b, respects R (m1 b)) → respects R m2 →
  respects R (match o with Some b => m1 b | None => m2 end).
Proof. by destruct o. Qed.

Lemma respects_for_each {A} (f : A → Tx S unit) l :
  (∀ a, respects R (f a)) → respects R (for_each f l).
Proof.
  intros Hf. induction l as [|a l IH]; simpl.
  - apply respects_ret.
  - by apply respects_bind.
Qed.
End respects.

Section act_respects.
Context {S : Type} (R : relation S) `{!Reflexive R}.

Lemma transaction_respects {A} (m : Tx S A) :
  respects R m → act_respects R (transaction m).
Proof.
  intros Hm s. unfold transaction.
  destruct (m s) as [[a s']|e] eqn:E; simpl; [by eapply Hm|reflexivity].
Qed.

Lemma act_throw_if_respects {A} b e (k : unit → Act S A) :
  (∀ u, act_respects R (k u)) → act_respects R (mbind k (act_throw_if b e)).
Proof.
  intros Hk s. rewrite act_throw_if_bind. destruct b; [reflexivity|apply Hk].
Qed.

Lemma act_bind_respects {A B} `{!Transitive R} (m : Act S A) (k : A → Act S B) :
  act_respects R m → (∀ a, act_respects R (k a)) → act_respects R (mbind k m).
Proof.
  intros Hm Hk s. unfold mbind, act_bind. specialize (Hm s).
  destruct (m s) as [[a|e] s']; simpl in *; [etransitivity; [done|apply Hk]|done].
Qed.
End act_respects.

Create HintDb tx.
#[export] Hint Resolve respects_ret respects_bind respects_throw respects_throw_if
  respects_require respects_gets respects_modify respects_if respects_match
  respects_for_each transaction_respects act_throw_if_respects : tx.

(** Inversion of a successful transaction body, one primitive at a time. *)
Ltac tx_step :=
  match goal with
  | H : mbind _ _ _ = Ok _ |- _ => apply tx_bind_ok in H as (? & ? & ? & H)
  | H : throw_if _ _ _ = Ok _ |- _ => apply throw_if_ok in H as [? ?]
  | H : require _ _ _ = Ok _ |- _ => apply require_ok in H as [? ?]
  | H : gets _ _ = Ok _ |- _ => apply gets_ok in H as [? ?]
  | H : modify _ _ = Ok _ |- _ => apply modify_ok in H
  | H : mret _ _ = Ok _ |- _ => apply mret_ok in H as [? ?]
  | H : throw _ _ = Ok _ |- _ => by apply throw_ok in H
  | H : transaction _ _ = (Ok _, _) |- _ => apply transaction_ok in H
  end.
Ltac tx_inv := repeat (tx_step; simplify_eq/=).

(** Execution of a body, statement by statement; [tx_run tac] discharges the
    guards with [tac]. *)
Ltac tx_run_step tac :=
  first [ eapply tx_bind_run; [apply gets_run|]
        | eapply tx_bind_run; [apply modify_run|]
        | eapply tx_bind_run; [apply require_run; tac|]
        | eapply tx_bind_run; [apply throw_if_run; tac|] ]; cbn beta iota zeta.

(** Boolean guards back to propositions. *)
Ltac unbool :=
  repeat match goal with
  | H : bool_decide _ = true |- _ => apply bool_decide_eq_true in H
  | H : bool_decide _ = false |- _ => apply bool_decide_eq_false in H
  | H : (_ && _)%bool = true |- _ => apply andb_true_iff in H as [? ?]
  | H : (_ || _)%bool = false |- _ => apply orb_false_iff in H as [? ?]
  | H : negb _ = true |- _ => apply negb_true_iff in H
  | H : negb _ = false |- _ => apply negb_false_iff in H
  end.

(** A guard that is known to pass. *)
Ltac solve_guard :=
  repeat match goal with
  | |- negb _ = false => apply negb_false_iff
  | |- negb _ = true => apply negb_true_iff
  | |- bool_decide _ = true => apply bool_decide_eq_true
  | |- bool_decide _ = false => apply bool_decide_eq_false
  | |- (_ || _)%bool = false => apply orb_false_iff; split
  | |- (_ <=? _)%Z = false => apply Z.leb_gt
  | |- (_ <=? _)%Z = true => apply Z.leb_le
  | |- (_ <? _)%Z = false => apply Z.ltb_ge
  | |- (_ <? _)%Z = true => apply Z.ltb_lt
  | |- (_ =? _)%Z = true => apply Z.eqb_eq
  | H : ?x = None |- ¬ is_Some ?x => rewrite H; apply is_Some_None
  end; first [done | congruence | lia].

(** ** Field update for the records that hold the tables

    [d <| proj ::= f |>] rebuilds the record with one projection mapped by
    [f]; the instance of [Setter] is computed from the record's [Eta]. *)

Class Eta (R : Type) := eta : R → R.
Class Setter {R T : Type} (proj : R → T) := set : (T → T) → R → R.
Arguments set {R T} proj {_} f r /.

Ltac solve_setter :=
  lazymatch goal with
  | |- @Setter ?R ?T ?proj =>
      let e := eval hnf in (@eta R _) in
      lazymatch eval pattern proj in e with
      | ?F _ => exact (λ f r, F (λ r', f (proj r')) r)
      end
  end.
#[export] Hint Extern 0 (Setter _) => solve_setter : typeclass_instances.

Declare Scope tables_scope.
Delimit Scope tables_scope with tables.
Notation "d <| p ::= f |>" := (set p f d)
  (at level 12, left associativity, p at level 9, f at level 200,
   format "d  <|  p  ::=  f  |>") : tables_scope.
Notation "d <| p := v |>" := (set p (λ _, v) d)
  (at level 12, left associativity, p at level 9, v at level 200,
   format "d  <|  p  :=  v  |>") : tables_scope.
#[global] Open Scope tables_scope.

(** ** Generic lemmas on finite maps and lists *)

(** The rows of a table that satisfy a [WHERE] clause. *)
Definition select {K A} `{Countable K} (p : K → A → bool) (t : gmap K A) : list (K * A) :=
  List.filter (λ r, p r.1 r.2) (map_to_list t).

Lemma elem_of_select {K A} `{Countable K} (p : K → A → bool) (t : gmap K A) k a :
  (k, a) ∈ select p t ↔ t !! k = Some a ∧ p k a = true.
Proof.
  unfold select. rewrite list_elem_of_In, filter_In, <-list_elem_of_In, elem_of_map_to_list.
  done.
Qed.

Lemma elem_of_List_filter {A} (p : A → bool) l x : x ∈ List.filter p l ↔ x ∈ l ∧ p x = true.
Proof. rewrite !list_elem_of_In. apply filter_In. Qed.

Lemma NoDup_select_fst {K A} `{Countable K} (p : K → A → bool) (t : gmap K A) :
  NoDup (select p t).*1.
Proof.
  unfold select. pose proof (NoDup_fst_map_to_list t) as Hd.
  induction (map_to_list t) as [|[k a] l IH]; [constructor|].
  simpl in Hd. apply NoDup_cons in Hd as [Hk Hd]. simpl. destruct (p k a); [|by apply IH].
  simpl. constructor; [|by apply IH]. intros Hin. apply Hk.
  apply list_elem_of_fmap in Hin as ([k' a'] & Hk' & Hin). simpl in Hk'. subst.
  apply list_elem_of_In, filter_In in Hin as [Hin _].
  apply list_elem_of_fmap. exists (k', a'). split; [done|]. by apply list_elem_of_In.
Qed.

#[export] Instance bool_filter_perm {A} (p : A → bool) : Proper ((≡ₚ) ==> (≡ₚ)) (List.filter p).
Proof.
  intros l l' Hl. induction Hl as [|x l l' _ IH|x y l|l1 l2 l3 _ IH1 _ IH2]; simpl.
  - done.
  - destruct (p x); by rewrite IH.
  - destruct (p x), (p y); try done. constructor.
  - by rewrite IH1.
Qed.

(** A selection that only one row satisfies. *)
Lemma select_unique {K A} `{Countable K} (p : K → A → bool) (t : gmap K A) k a :
  t !! k = Some a → p k a = true → (∀ j b, t !! j = Some b → p j b = true → j = k) → select p t = [(k, a)].
Proof.
  intros Hk Hp Hu. apply Permutation_singleton_r. apply NoDup_Permutation.
  - apply (NoDup_fmap_1 fst), NoDup_select_fst.
  - apply NoDup_singleton.
  - intros [j b]. rewrite elem_of_select, list_elem_of_singleton. split; [|by intros [= -> ->]].
    intros [Hj Hb]. assert (j = k) as -> by by eapply Hu. congruence.
Qed.

(** A row inserted into a table joins exactly the selections it satisfies. *)
Lemma select_insert {K A} `{Countable K} (p : K → A → bool) (t : gmap K A) k a :
  t !! k = None → select p (<[k := a]> t) ≡ₚ (if p k a then [(k, a)] else []) ++ select p t.
Proof.
  intros Hk. unfold select. rewrite (map_to_list_insert t k a Hk). simpl.
  by destruct (p k a).
Qed.

(** [SELECT EXISTS]. *)
Definition any {K A} `{Countable K} (p : K → A → bool) (t : gmap K A) : bool :=
  match select p t with [] => false | _ => true end.

Lemma any_true {K A} `{Countable K} (p : K → A → bool) (t : gmap K A) :
  any p t = true ↔ ∃ k a, t !! k = Some a ∧ p k a = true.
Proof.
  unfold any. split.
  - destruct (select p t) as [|[k a] l] eqn:E; [done|]. intros _.
    exists k, a. apply elem_of_select. rewrite E. left.
  - intros (k & a & Hk). apply elem_of_select in Hk.
    destruct (select p t); [by apply not_elem_of_nil in Hk|done].
Qed.

Lemma any_false {K A} `{Countable K} (p : K → A → bool) (t : gmap K A) :
  any p t = false ↔ ∀ k a, t !! k = Some a → p k a = false.
Proof.
  rewrite <-not_true_iff_false, any_true. split.
  - intros Hn k a Hk. apply not_true_iff_false. naive_solver.
  - intros Ha (k & a & Hk & Hp). apply Ha in Hk. congruence.
Qed.

(** [UPDATE … WHERE id = $1] on a row that is there. *)
Lemma alter_as_insert {K A} `{Countable K} (f : A → A) (t : gmap K A) i x :
  t !! i = Some x → alter f i t = <[i := f x]> t.
Proof.
  intros Hi. apply map_eq. intros j. destruct (decide (i = j)) as [<-|Hne].
  - by rewrite lookup_alter_eq, lookup_insert_eq, Hi.
  - by rewrite lookup_alter_ne, lookup_insert_ne.
Qed.

(** [ORDER BY key] and [ORDER BY key DESC]. SQL leaves the order of rows with
    equal keys open; the model fixes one. *)
Definition key_le {A} (key : A → Z) (x y : A) : Prop := (key x <= key y)%Z.
#[export] Instance key_le_dec {A} (key : A → Z) x y : Decision (key_le key x y).
Proof. unfold key_le. apply _. Defined.
#[export] Instance key_le_total {A} (key : A → Z) : Total (key_le key).
Proof. intros x y. unfold key_le. lia. Qed.
#[export] Instance key_le_trans {A} (key : A → Z) : Transitive (key_le key).
Proof. intros x y z. unfold key_le. lia. Qed.
Definition order_by {A} (key : A → Z) (l : list A) : list A := merge_sort (key_le key) l.
Definition order_by_desc {A} (key : A → Z) (l : list A) : list A := order_by (λ x, - key x)%Z l.

Lemma order_by_perm {A} (key : A → Z) l : order_by key l ≡ₚ l.
Proof. apply merge_sort_Permutation. Qed.
Lemma order_by_sorted {A} (key : A → Z) l : StronglySorted (key_le key) (order_by key l).
Proof. apply Sorted_StronglySorted; [apply _|]. apply Sorted_merge_sort, _. Qed.
