(* ===== verification/Js.v ===== *)
(** * JavaScript values the control plane works with

    Strings (a JavaScript string is a sequence of code units; the model keeps
    the Latin-1 range), dates (milliseconds since the epoch; PostgreSQL keeps
    microseconds), UUIDs (the 128-bit number behind the text) and JSON
    values. *)

From S2P Require Import Prelude.

Local Open Scope string_scope.
Local Open Scope Z_scope.

(** ** Strings *)

(** White space in the sense of [String.prototype.trim], Latin-1 range. *)
Definition is_space (c : ascii) : bool :=
  let n := nat_of_ascii c in
  ((9 <=? n)%nat && (n <=? 13)%nat) || (n =? 32)%nat || (n =? 160)%nat.

Fixpoint trim_start (s : string) : string :=
  match s with
  | String c r => if is_space c then trim_start r else s
  | EmptyString => ""
  end.

Fixpoint trim_end (s : string) : string :=
  match s with
  | EmptyString => ""
  | String c r =>
      match trim_end r with
      | EmptyString => if is_space c then "" else String c ""
      | r' => String c r'
      end
  end.

Definition trim (s : string) : string := trim_end (trim_start s).

(** PostgreSQL's [trim] strips blanks only, so it never strips more. *)
Fixpoint pg_trim_start (s : string) : string :=
  match s with
  | String " " r => pg_trim_start r
  | _ => s
  end.
Fixpoint pg_trim_end (s : string) : string :=
  match s with
  | EmptyString => ""
  | String c r =>
      match pg_trim_end r with
      | EmptyString => if bool_decide (c = " "%char) then "" else String c ""
      | r' => String c r'
      end
  end.
Definition pg_trim (s : string) : string := pg_trim_end (pg_trim_start s).

Definition js_length (s : string) : Z := Z.of_nat (String.length s).

(** Texts as code points. [length] counts UTF-16 units, two for a code point
    outside the Basic Multilingual Plane; PostgreSQL's [char_length] counts code
    points. The texts of the model are Latin-1, where the counts agree. *)
Definition code_units (c : Z) : Z := if c <? 65536 then 1 else 2.
Definition utf16_length (cs : list Z) : Z := fold_right (λ c n, code_units c + n) 0 cs.
Definition code_point_count (cs : list Z) : Z := Z.of_nat (length cs).
Fixpoint code_points (s : string) : list Z :=
  match s with EmptyString => [] | String c r => Z.of_nat (nat_of_ascii c) :: code_points r end.
Definition char_length (s : string) : Z := code_point_count (code_points s).

Lemma utf16_bounds cs : code_point_count cs <= utf16_length cs <= 2 * code_point_count cs.
Proof.
  unfold code_point_count. induction cs as [|c cs IH]; [done|]. cbn [utf16_length fold_right length] in *. fold (utf16_length cs).
  unfold code_units. destruct (c <? 65536); lia.
Qed.
Lemma utf16_bmp cs : Forall (λ c, c < 65536) cs → utf16_length cs = code_point_count cs.
Proof.
  unfold code_point_count. induction 1 as [|c cs Hc _ IH]; [done|]. cbn [utf16_length fold_right length]. fold (utf16_length cs).
  unfold code_units. apply Z.ltb_lt in Hc. rewrite Hc. lia.
Qed.
Lemma js_length_units s : js_length s = utf16_length (code_points s).
Proof.
  unfold js_length. induction s as [|c s IH]; [done|]. cbn [String.length code_points utf16_length fold_right]. fold (utf16_length (code_points s)).
  rewrite <- IH. unfold code_units. pose proof (nat_ascii_bounded c) as Hc. replace (Z.of_nat (nat_of_ascii c) <? 65536) with true by (symmetry; apply Z.ltb_lt; lia).
  lia.
Qed.
Lemma char_length_latin s : char_length s = js_length s.
Proof. unfold char_length, code_point_count, js_length. f_equal. induction s as [|c s IH]; [done|]. cbn. by rewrite IH. Qed.

Lemma trim_end_pg s : js_length (trim_end s) <= js_length (pg_trim_end s).
Proof.
  unfold js_length. induction s as [|c s IH]; [done|]. simpl.
  destruct (trim_end s) as [|c1 s1], (pg_trim_end s) as [|c2 s2]; simpl in *; try lia.
  - case_bool_decide as Hc; [by rewrite Hc|]. destruct (is_space c); simpl; lia.
  - destruct (is_space c); simpl; lia.
Qed.

Lemma trim_end_cons c s : js_length (trim_end s) <= js_length (trim_end (String c s)).
Proof. unfold js_length. simpl. destruct (trim_end s); simpl; lia. Qed.

(** A text that passes a length check of the code passes the same check of the
    schema. *)
Lemma trim_pg s : js_length (trim s) <= js_length (pg_trim s).
Proof.
  unfold trim, pg_trim. transitivity (js_length (trim_end (pg_trim_start s))); [|apply trim_end_pg].
  induction s as [|c s IH]; [done|].
  assert (∀ t, js_length (trim_end (trim_start t)) <= js_length (trim_end t)) as Hts.
  { induction t as [|c' t IHt]; [done|]. simpl trim_start. destruct (is_space c'); [|lia].
    pose proof (trim_end_cons c' t). lia. }
  destruct (decide (c = " "%char)) as [->|Hc]; [done|].
  replace (pg_trim_start (String c s)) with (String c s); [apply Hts|].
  destruct c as [[] [] [] [] [] [] [] []]; done.
Qed.

(** Truthiness of a string and of a nullable string. *)
Definition truthy (s : string) : bool := negb (bool_decide (s = "")).
Definition truthy_opt (o : option string) : bool :=
  match o with Some s => truthy s | None => false end.

Definition to_lower_char (c : ascii) : ascii :=
  let n := nat_of_ascii c in
  if ((65 <=? n) && (n <=? 90))%nat || ((192 <=? n) && (n <=? 222) && negb (n =? 215))%nat
  then ascii_of_nat (n + 32) else c.

Fixpoint toLowerCase (s : string) : string :=
  match s with
  | EmptyString => ""
  | String c r => String (to_lower_char c) (toLowerCase r)
  end.

Definition to_upper_char (c : ascii) : ascii :=
  let n := nat_of_ascii c in
  if ((97 <=? n) && (n <=? 122))%nat then ascii_of_nat (n - 32) else c.

(** [toUpperCase] on ASCII text. *)
Fixpoint toUpperCase (s : string) : string :=
  match s with
  | EmptyString => ""
  | String c r => String (to_upper_char c) (toUpperCase r)
  end.

Fixpoint startsWith (s p : string) : bool :=
  match p, s with
  | EmptyString, _ => true
  | String a p', String b s' => bool_decide (a = b) && startsWith s' p'
  | String _ _, EmptyString => false
  end.

(** [xs.includes(x)]. *)
Definition includes {A} `{EqDecision A} (xs : list A) (x : A) : bool := bool_decide (x ∈ xs).

Lemma includes_true {A} `{EqDecision A} (xs : list A) x : includes xs x = true ↔ x ∈ xs.
Proof. apply bool_decide_eq_true. Qed.

Definition is_digit (c : ascii) : bool :=
  let n := nat_of_ascii c in (48 <=? n)%nat && (n <=? 57)%nat.

Fixpoint all_chars (p : ascii → bool) (s : string) : bool :=
  match s with
  | EmptyString => true
  | String c r => p c && all_chars p r
  end.

(** A lower-case hexadecimal SHA-256 digest, [/^[a-f0-9]{64}$/]. *)
Definition is_hex_char (c : ascii) : bool :=
  let n := nat_of_ascii c in is_digit c || ((97 <=? n)%nat && (n <=? 102)%nat).
Definition is_sha256_hex (s : string) : bool :=
  (String.length s =? 64)%nat && all_chars is_hex_char s.

(** ** Dates *)

(** A [timestamptz] (microseconds) read by the driver as a [Date]
    (milliseconds), and a [Date] written to a [timestamptz]. *)
Definition js_of_pg (t : Z) : Z := t / 1000.
Definition pg_of_js (d : Z) : Z := d * 1000.

Lemma js_of_pg_of_js d : js_of_pg (pg_of_js d) = d.
Proof. unfold js_of_pg, pg_of_js. rewrite Z.div_mul; lia. Qed.

(** The driver truncates: a stored instant is after a [Date] exactly when its
    truncation is not before it. *)
Lemma js_of_pg_le t d : js_of_pg t <= d ↔ t < (d + 1) * 1000.
Proof.
  unfold js_of_pg. split; intros H.
  - pose proof (Z.mod_pos_bound t 1000). pose proof (Z.div_mod t 1000). lia.
  - apply Z.lt_succ_r, Z.div_lt_upper_bound; lia.
Qed.

Definition pad_to (n : nat) (s : string) : string :=
  (fix go (k : nat) := match k with O => s | S k => String "0" (go k) end)
    (n - String.length s)%nat.

(** Proleptic Gregorian date of a day number counted from 1970-01-01. *)
Definition civil_from_days (days : Z) : Z * Z * Z :=
  let z := days + 719468 in
  let era := z / 146097 in
  let doe := z - era * 146097 in
  let yoe := (doe - doe / 1460 + doe / 36524 - doe / 146096) / 365 in
  let doy := doe - (365 * yoe + yoe / 4 - yoe / 100) in
  let mp := (5 * doy + 2) / 153 in
  let d := doy - (153 * mp + 2) / 5 + 1 in
  let m := if mp <? 10 then mp + 3 else mp - 9 in
  let y := yoe + era * 400 + (if m <=? 2 then 1 else 0) in
  (y, m, d).

Definition pad_year (y : Z) : string :=
  if (0 <=? y) && (y <=? 9999) then pad_to 4 (pretty y)
  else if 0 <=? y then "+" +:+ pad_to 6 (pretty y)
  else "-" +:+ pad_to 6 (pretty (- y)).

Definition toISOString (ms : Z) : string :=
  let days := ms / 86400000 in
  let r := ms mod 86400000 in
  let '(y, m, d) := civil_from_days days in
  pad_year y +:+ "-" +:+ pad_to 2 (pretty m) +:+ "-" +:+ pad_to 2 (pretty d) +:+ "T"
  +:+ pad_to 2 (pretty (r / 3600000)) +:+ ":" +:+ pad_to 2 (pretty (r / 60000 mod 60)) +:+ ":"
  +:+ pad_to 2 (pretty (r / 1000 mod 60)) +:+ "." +:+ pad_to 3 (pretty (r mod 1000)) +:+ "Z".

Example toISOString_epoch : toISOString 0 = "1970-01-01T00:00:00.000Z".
Proof. vm_compute. reflexivity. Qed.
Example toISOString_leap : toISOString 1709164799999 = "2024-02-28T23:59:59.999Z".
Proof. vm_compute. reflexivity. Qed.

(** ** Numbers

    A number that holds an integer is a binary64 value: 53 significant bits,
    sums rounded to the nearest, ties to even. (Sums of integers the code adds
    stay far below the largest double.) *)
Definition round53 (z : Z) : Z :=
  let m := Z.abs z in
  if m <=? 2 ^ 53 then z
  else
    let unit := 2 ^ (Z.log2 m - 52) in
    let q := m / unit in
    let r := m mod unit in
    let q' := if 2 * r <? unit then q else if unit <? 2 * r then q + 1 else if Z.even q then q else q + 1 in
    Z.sgn z * (q' * unit).
Definition js_add (x y : Z) : Z := round53 (x + y).
Definition js_sub (x y : Z) : Z := round53 (x - y).

Lemma round53_exact z : Z.abs z <= 2 ^ 53 → round53 z = z.
Proof. intros H. unfold round53. by rewrite (proj2 (Z.leb_le _ _) H). Qed.
Example round53_tie : js_add (2 ^ 53) 1 = 2 ^ 53.
Proof. reflexivity. Qed.
Example round53_up : js_add (2 ^ 54 - 2) 1 = 2 ^ 54.
Proof. reflexivity. Qed.

(** ** UUIDs *)

(** A UUID is the positive number behind its text; the text is never empty, so
    a nullable UUID column is truthy exactly when it is not [NULL]. *)
Abbreviation uuid := positive (only parsing).

Definition hex_digit (n : Z) : ascii :=
  ascii_of_nat (Z.to_nat (if n <? 10 then n + 48 else n + 87)).
Fixpoint hex_digits (k : nat) (n : Z) (acc : string) : string :=
  match k with
  | O => acc
  | S k => hex_digits k (n / 16) (String (hex_digit (n mod 16)) acc)
  end.
Definition uuid_text (u : uuid) : string :=
  let n := Zpos u in
  hex_digits 8 (n / 2 ^ 96) "" +:+ "-" +:+ hex_digits 4 (n / 2 ^ 80) "" +:+ "-"
  +:+ hex_digits 4 (n / 2 ^ 64) "" +:+ "-" +:+ hex_digits 4 (n / 2 ^ 48) "" +:+ "-"
  +:+ hex_digits 12 n "".

Example uuid_text_one : uuid_text 255%positive = "00000000-0000-0000-0000-0000000000ff".
Proof. vm_compute. reflexivity. Qed.

(** ** JSON values

    A finite double is an integer ([JNum]) or a dyadic fraction [m / 2^e]
    ([JFrac]). Objects keep their entries in order, as [Object.entries]
    lists them. *)
Inductive json : Type :=
  | JNull
  | JBool (b : bool)
  | JNum (n : Z)
  | JFrac (m : Z) (e : positive)
  | JStr (s : string)
  | JArr (xs : list json)
  | JObj (kvs : list (string * json)).

Definition JUuid (u : uuid) : json := JStr (uuid_text u).
Definition JDate (ms : Z) : json := JStr (toISOString ms).
Definition JOpt {A} (f : A → json) (o : option A) : json :=
  match o with Some a => f a | None => JNull end.

(** JavaScript truthiness of a parsed value. *)
Definition json_truthy (j : json) : bool :=
  match j with
  | JNull => false
  | JBool b => b
  | JNum n => negb (n =? 0)
  | JFrac _ _ => true
  | JStr s => truthy s
  | JArr _ | JObj _ => true
  end.

(** Induction on JSON values that reaches into arrays and objects. *)
Section json_ind.
Context (P : json → Prop).
Context (Hnull : P JNull) (Hbool : ∀ b, P (JBool b)) (Hnum : ∀ n, P (JNum n))
  (Hfrac : ∀ m e, P (JFrac m e)) (Hstr : ∀ s, P (JStr s))
  (Harr : ∀ xs, Forall P xs → P (JArr xs))
  (Hobj : ∀ kvs, Forall (λ kv, P kv.2) kvs → P (JObj kvs)).

Fixpoint json_deep_ind (j : json) : P j :=
  match j with
  | JNull => Hnull
  | JBool b => Hbool b
  | JNum n => Hnum n
  | JFrac m e => Hfrac m e
  | JStr s => Hstr s
  | JArr xs =>
      Harr xs ((fix go (l : list json) : Forall P l :=
        match l with
        | [] => @List.Forall_nil _ P
        | x :: l => @List.Forall_cons _ P x l (json_deep_ind x) (go l)
        end) xs)
  | JObj kvs =>
      Hobj kvs ((fix go (l : list (string * json)) : Forall (λ kv, P kv.2) l :=
        match l with
        | [] => @List.Forall_nil _ (λ kv, P kv.2)
        | x :: l => @List.Forall_cons _ (λ kv, P kv.2) x l (json_deep_ind x.2) (go l)
        end) kvs)
  end.
End json_ind.

(** ** Lookup tables

    [const t: Record<string, string[]> = {...}] and
    [t[from]?.includes(to)]. *)
Fixpoint record_get {A} (t : list (string * A)) (k : string) : option A :=
  match t with
  | [] => None
  | (k', v) :: t => if bool_decide (k = k') then Some v else record_get t k
  end.
Definition table_allows (t : list (string * list string)) (from to : string) : bool :=
  match record_get t from with Some l => includes l to | None => false end.

(** ** Searching and splitting *)

(** [s.replace(/\/$/, "")]. *)
Fixpoint strip_slash (s : string) : string :=
  match s with
  | EmptyString => ""
  | String "/" EmptyString => ""
  | String c r => String c (strip_slash r)
  end.

(** [s.includes(sub)] on strings. *)
Fixpoint js_includes (s sub : string) : bool :=
  startsWith s sub || match s with EmptyString => false | String _ r => js_includes r sub end.

(** [s.split(sep)] for a one-character separator. *)
Fixpoint split_on (sep : ascii) (s : string) : list string :=
  match s with
  | EmptyString => [""]
  | String c r =>
      if bool_decide (c = sep) then "" :: split_on sep r
      else match split_on sep r with
           | [] => [String c ""]
           | x :: xs => String c x :: xs
           end
  end.

(** The longest prefix of characters in a class, and the rest. *)
Fixpoint span_chars (p : ascii → bool) (s : string) : nat * string :=
  match s with
  | EmptyString => (0%nat, "")
  | String c r => if p c then let '(n, rest) := span_chars p r in (S n, rest) else (0%nat, s)
  end.

Definition is_upper (c : ascii) : bool := let n := nat_of_ascii c in (65 <=? n)%nat && (n <=? 90)%nat.
Definition is_lower (c : ascii) : bool := let n := nat_of_ascii c in (97 <=? n)%nat && (n <=? 122)%nat.
Definition is_alnum (c : ascii) : bool := is_upper c || is_lower c || is_digit c.
