(* ===== verification/Numeric.v ===== *)
(** * PostgreSQL [numeric] amounts and their decimal text

    Money columns are [NUMERIC(30, 12)]: thirty digits of which twelve are
    decimals. A value is kept as the integer number of [10^-12] units. *)

From S2P Require Import Prelude Js.

Local Open Scope string_scope.
Local Open Scope Z_scope.

Definition numeric_scale : Z := 10 ^ 12.

(** [NUMERIC(30, 12)] accepts a value when its integer part has at most
    eighteen digits. *)
Definition fits_numeric_30_12 (v : Z) : bool := Z.abs v <? 10 ^ 30.

(** [round(x, k)] rounds half away from zero. *)
Definition round_half_away (n d : Z) : Z :=
  Z.sgn n * ((2 * Z.abs n + d) / (2 * d)).

(** [round($1::numeric * $2::numeric, 8)] for two amounts of scale 12: the
    exact product has scale 24; the result is in units of [10^-8]. *)
Definition mul_round8 (a b : Z) : Z := round_half_away (a * b) (10 ^ 16).

(** A scale-8 result stored in a [NUMERIC(30, 12)] column. *)
Definition scale12_of_scale8 (v : Z) : Z := v * 10 ^ 4.

Lemma round_half_away_error n d : 0 < d → 2 * Z.abs (round_half_away n d * d - n) <= d.
Proof.
  intros Hd. unfold round_half_away.
  pose proof (Z.div_mod (2 * Z.abs n + d) (2 * d)) as Hq.
  pose proof (Z.mod_pos_bound (2 * Z.abs n + d) (2 * d)) as Hr.
  destruct (Z.sgn_spec n) as [[? ->]|[[? ->]|[? ->]]]; nia.
Qed.

Lemma round_half_away_nonneg n d : 0 <= n → 0 < d → 0 <= round_half_away n d.
Proof.
  intros Hn Hd. unfold round_half_away.
  pose proof (Z.div_pos (2 * Z.abs n + d) (2 * d)). pose proof (Z.sgn_nonneg n). nia.
Qed.

(** ** Decimal text *)

Definition digit_char (n : Z) : ascii := ascii_of_nat (Z.to_nat (n + 48)).
Definition char_digit (c : ascii) : Z := Z.of_nat (nat_of_ascii c) - 48.

Fixpoint digits_value (acc : Z) (s : string) : Z :=
  match s with
  | EmptyString => acc
  | String c r => digits_value (acc * 10 + char_digit c) r
  end.

(** The integer part: no leading zeros, at least one digit. *)
Fixpoint int_digits (fuel : nat) (n : Z) (acc : string) : string :=
  match fuel with
  | O => acc
  | S f =>
      let acc := String (digit_char (n mod 10)) acc in
      if n / 10 =? 0 then acc else int_digits f (n / 10) acc
  end.
Definition int_text (n : Z) : string := int_digits (S (Z.to_nat (Z.log2 n))) n "".

(** The fraction: exactly [k] digits. *)
Fixpoint frac_digits (k : nat) (n : Z) (acc : string) : string :=
  match k with
  | O => acc
  | S k => frac_digits k (n / 10) (String (digit_char (n mod 10)) acc)
  end.

(** [v::text] of a non-negative numeric of scale [k]. *)
Definition numeric_text (k : nat) (v : Z) : string :=
  (if v <? 0 then "-" else "") +:+
  int_text (Z.abs v / 10 ^ Z.of_nat k) +:+ "." +:+ frac_digits k (Z.abs v mod 10 ^ Z.of_nat k) "".

Fixpoint split_dot (s : string) : string * option string :=
  match s with
  | EmptyString => ("", None)
  | String c r =>
      if bool_decide (c = "."%char) then ("", Some r)
      else let '(a, b) := split_dot r in (String c a, b)
  end.

(** The amount pattern [/^\d+(\.\d{1,12})?$/]. *)
Definition is_amount_text (s : string) : bool :=
  let '(i, f) := split_dot s in
  (1 <=? String.length i)%nat && all_chars is_digit i &&
  match f with
  | None => true
  | Some f => (1 <=? String.length f)%nat && (String.length f <=? 12)%nat && all_chars is_digit f
  end.

(** [s::numeric] in units of [10^-12], for a text with at most twelve
    decimals. *)
Definition numeric_of_text (s : string) : Z :=
  let '(i, f) := split_dot s in
  digits_value 0 i * numeric_scale +
  match f with
  | None => 0
  | Some f => digits_value 0 f * 10 ^ (12 - Z.of_nat (String.length f))
  end.

Example numeric_of_text_ex : numeric_of_text "1650.25" = 1650250000000000.
Proof. vm_compute. reflexivity. Qed.
Example numeric_text_ex : numeric_text 8 165025000000 = "1650.25000000".
Proof. vm_compute. reflexivity. Qed.

(** ** Printing and parsing *)

Lemma digit_char_value n : 0 <= n < 10 → char_digit (digit_char n) = n.
Proof.
  intros Hn. unfold char_digit, digit_char. rewrite nat_ascii_embedding; lia.
Qed.

Lemma digit_char_is_digit n : 0 <= n < 10 → is_digit (digit_char n) = true.
Proof.
  intros Hn. unfold is_digit, digit_char. rewrite nat_ascii_embedding by lia.
  apply andb_true_iff. split; apply Nat.leb_le; lia.
Qed.

Lemma mod10_range n : 0 <= n mod 10 < 10.
Proof. apply Z.mod_pos_bound. lia. Qed.
#[local] Hint Resolve mod10_range : core.

Lemma is_digit_range c : is_digit c = true → 0 <= char_digit c < 10.
Proof.
  unfold is_digit, char_digit. rewrite andb_true_iff, !Nat.leb_le. lia.
Qed.

Lemma digits_value_shift s acc :
  digits_value acc s = acc * 10 ^ Z.of_nat (String.length s) + digits_value 0 s.
Proof.
  revert acc. induction s as [|c s IH]; intros acc; cbn [digits_value String.length];
    [simpl; lia|].
  rewrite IH, (IH (0 * 10 + char_digit c)).
  rewrite Nat2Z.inj_succ, Z.pow_succ_r by lia. lia.
Qed.

Lemma digits_value_nonneg s acc :
  0 <= acc → all_chars is_digit s = true → 0 <= digits_value acc s.
Proof.
  revert acc. induction s as [|c s IH]; intros acc Ha; simpl; [lia|].
  rewrite andb_true_iff. intros [Hc%is_digit_range Hs]. apply IH; [lia|done].
Qed.

Lemma int_digits_spec f n acc :
  0 <= n < 10 ^ Z.of_nat f → f ≠ O →
  digits_value 0 (int_digits f n acc) =
    n * 10 ^ Z.of_nat (String.length acc) + digits_value 0 acc ∧
  (all_chars is_digit acc = true → all_chars is_digit (int_digits f n acc) = true).
Proof.
  revert n acc. induction f as [|f IH]; intros n acc Hn Hf; [done|].
  cbn [int_digits]. rewrite Nat2Z.inj_succ, Z.pow_succ_r in Hn by lia.
  assert (Hv : digits_value 0 (String (digit_char (n mod 10)) acc) =
    n mod 10 * 10 ^ Z.of_nat (String.length acc) + digits_value 0 acc).
  { simpl. rewrite digit_char_value by auto. by rewrite digits_value_shift. }
  destruct (Z.eqb_spec (n / 10) 0) as [Hz|Hz].
  - rewrite Hv. split; [|simpl; by rewrite digit_char_is_digit by auto].
    pose proof (Z.div_mod n 10). f_equal. lia.
  - assert (f ≠ O) by (intros ->; apply Hz, Z.div_small; simpl in Hn; lia).
    destruct (IH (n / 10) (String (digit_char (n mod 10)) acc)) as [IHv IHd]; [|done|].
    { split; [apply Z.div_pos|apply Z.div_lt_upper_bound]; lia. }
    rewrite IHv, Hv. simpl String.length. rewrite Nat2Z.inj_succ, Z.pow_succ_r by lia.
    split; [pose proof (Z.div_mod n 10); nia|].
    intros Ha. apply IHd. simpl. by rewrite digit_char_is_digit by auto.
Qed.

Lemma int_digits_length f n acc :
  (String.length acc <= String.length (int_digits f n acc))%nat ∧
  (f ≠ O → String.length acc < String.length (int_digits f n acc))%nat.
Proof.
  revert n acc. induction f as [|f IH]; intros n acc; cbn [int_digits]; [split; [lia|done]|].
  destruct (n / 10 =? 0); [simpl; lia|].
  destruct (IH (n / 10) (String (digit_char (n mod 10)) acc)). simpl in *. lia.
Qed.

Lemma int_text_fuel n : 0 <= n → n < 10 ^ Z.of_nat (S (Z.to_nat (Z.log2 n))).
Proof.
  intros Hn. rewrite Nat2Z.inj_succ, Z2Nat.id by apply Z.log2_nonneg.
  destruct (Z.eq_dec n 0) as [->|Hz]; [by vm_compute|].
  eapply Z.lt_le_trans; [apply (Z.log2_spec n); lia|].
  apply Z.pow_le_mono_l. lia.
Qed.

Lemma int_text_spec n : 0 <= n →
  digits_value 0 (int_text n) = n ∧ all_chars is_digit (int_text n) = true.
Proof.
  intros Hn. destruct (int_digits_spec (S (Z.to_nat (Z.log2 n))) n "") as [H1 H2];
    [split; [done|by apply int_text_fuel]|done|].
  split; [unfold int_text; rewrite H1; simpl; lia|by apply H2].
Qed.

Lemma frac_digits_spec k n acc :
  0 <= n →
  digits_value 0 (frac_digits k n acc) =
    n mod 10 ^ Z.of_nat k * 10 ^ Z.of_nat (String.length acc) + digits_value 0 acc ∧
  String.length (frac_digits k n acc) = (k + String.length acc)%nat ∧
  (all_chars is_digit acc = true → all_chars is_digit (frac_digits k n acc) = true).
Proof.
  revert n acc. induction k as [|k IH]; intros n acc Hn; cbn [frac_digits].
  - simpl. rewrite Z.mod_1_r. split_and!; [lia|done|done].
  - destruct (IH (n / 10) (String (digit_char (n mod 10)) acc)) as (IHv & IHl & IHd);
      [apply Z.div_pos; lia|].
    rewrite IHv, IHl. cbn [digits_value String.length]. rewrite digit_char_value by auto.
    rewrite (digits_value_shift acc (0 * 10 + n mod 10)).
    split_and!; [|lia|intros Ha; apply IHd; simpl; by rewrite digit_char_is_digit by auto].
    rewrite !Nat2Z.inj_succ, !Z.pow_succ_r by lia.
    rewrite (Z.rem_mul_r n 10 (10 ^ Z.of_nat k)) by lia. lia.
Qed.

Lemma split_dot_app i f :
  all_chars is_digit i = true → split_dot (i +:+ "." +:+ f) = (i, Some f).
Proof.
  induction i as [|c i IH]; [done|]. simpl. rewrite andb_true_iff. intros [Hc Hi].
  rewrite bool_decide_eq_false_2 by (intros ->; done). by rewrite IH.
Qed.

(** Printing with [k <= 12] decimals and parsing back gives the value, in the
    units of the money columns. *)
Lemma numeric_text_parse k v : (1 <= k <= 12)%nat → 0 <= v →
  numeric_of_text (numeric_text k v) = v * 10 ^ (12 - Z.of_nat k) ∧
  is_amount_text (numeric_text k v) = true.
Proof.
  intros Hk Hv. unfold numeric_text, numeric_of_text, is_amount_text.
  rewrite (proj2 (Z.ltb_ge v 0)), Z.abs_eq by lia.
  set (p := 10 ^ Z.of_nat k). assert (0 < p) by (apply Z.pow_pos_nonneg; lia).
  destruct (int_text_spec (v / p)) as [Hi1 Hi2]; [apply Z.div_pos; lia|].
  destruct (frac_digits_spec k (v mod p) "") as (Hf1 & Hf2 & Hf3); [apply Z.mod_pos_bound; lia|].
  change ("" +:+ ?x) with x. rewrite split_dot_app by done. split.
  - rewrite Hi1, Hf1, Hf2. simpl String.length. rewrite Nat.add_0_r. simpl (digits_value 0 "").
    fold p. rewrite Z.mod_mod by lia.
    assert (Hs : numeric_scale = p * 10 ^ (12 - Z.of_nat k)).
    { unfold numeric_scale, p. rewrite <-Z.pow_add_r by lia. f_equal. lia. }
    rewrite Hs. pose proof (Z.div_mod v p). nia.
  - rewrite Hi2, Hf2, Hf3 by done. simpl String.length. rewrite andb_true_r, andb_true_iff.
    split; [|rewrite !andb_true_iff, !Nat.leb_le; lia].
    apply Nat.leb_le.
    by apply (int_digits_length (S (Z.to_nat (Z.log2 (v / p)))) (v / p) "").
Qed.

(** Non-negative amounts of the same scale with the same text are equal: a
    comparison of texts, as in [targetAmount === "0.00000000"], is a
    comparison of amounts. *)
Lemma numeric_text_inj k v w : (1 <= k <= 12)%nat → 0 <= v → 0 <= w →
  numeric_text k v = numeric_text k w → v = w.
Proof.
  intros Hk Hv Hw E.
  destruct (numeric_text_parse k v) as [Hpv _]; [done..|].
  destruct (numeric_text_parse k w) as [Hpw _]; [done..|].
  rewrite E, Hpw in Hpv. assert (0 < 10 ^ (12 - Z.of_nat k)) by (apply Z.pow_pos_nonneg; lia).
  nia.
Qed.

Lemma numeric_text_zero v : 0 <= v → numeric_text 8 v = "0.00000000" ↔ v = 0.
Proof.
  intros Hv. change "0.00000000" with (numeric_text 8 0). split; [|by intros ->].
  apply numeric_text_inj; lia.
Qed.

Lemma numeric_of_text_nonneg s : is_amount_text s = true → 0 <= numeric_of_text s.
Proof.
  unfold is_amount_text, numeric_of_text, numeric_scale.
  destruct (split_dot s) as [i [f|]]; rewrite !andb_true_iff; intros; destruct_and!;
    assert (0 <= digits_value 0 i) by (by apply digits_value_nonneg); [|lia].
  assert (0 <= digits_value 0 f) by (by apply digits_value_nonneg).
  assert (0 <= 10 ^ (12 - Z.of_nat (String.length f))) by (apply Z.pow_nonneg; lia). nia.
Qed.

(** ** Positive decimals without leading zeros: [/^[1-9][0-9]*$/] *)

Definition positive_decimal (s : string) : bool :=
  match s with
  | EmptyString => false
  | String c r => is_digit c && negb (bool_decide (c = "0"%char)) && all_chars is_digit r
  end.

Lemma digits_value_bound s : all_chars is_digit s = true → 0 <= digits_value 0 s < 10 ^ Z.of_nat (String.length s).
Proof.
  induction s as [|c s IH]; cbn [digits_value all_chars String.length]; [simpl; lia|].
  intros [Hc%is_digit_range Hs]%andb_true_iff. specialize (IH Hs).
  rewrite digits_value_shift, Nat2Z.inj_succ, Z.pow_succ_r by lia. nia.
Qed.

Lemma char_digit_inj c e : char_digit c = char_digit e → c = e.
Proof.
  unfold char_digit. intros H. rewrite <-(ascii_nat_embedding c), <-(ascii_nat_embedding e). f_equal. lia.
Qed.

Lemma digits_value_inj s t :
  String.length s = String.length t → all_chars is_digit s = true → all_chars is_digit t = true →
  digits_value 0 s = digits_value 0 t → s = t.
Proof.
  revert t. induction s as [|c s IH]; intros [|e t]; try done. cbn [digits_value all_chars String.length].
  intros [= Hl] [Hc%is_digit_range Hs]%andb_true_iff [He%is_digit_range Ht]%andb_true_iff.
  rewrite (digits_value_shift s), (digits_value_shift t), Hl. intros Hv.
  pose proof (digits_value_bound s Hs) as Bs. pose proof (digits_value_bound t Ht) as Bt. rewrite Hl in Bs.
  assert (char_digit c = char_digit e) as Hce by nia. apply char_digit_inj in Hce as ->.
  f_equal. apply IH; [done..|]. nia.
Qed.

Lemma positive_decimal_bounds s : positive_decimal s = true →
  all_chars is_digit s = true ∧ 10 ^ (Z.of_nat (String.length s) - 1) <= digits_value 0 s < 10 ^ Z.of_nat (String.length s).
Proof.
  destruct s as [|c s]; [done|]. cbn [positive_decimal]. intros H. unbool.
  match goal with H : is_digit c = true |- _ => rename H into Hc end.
  match goal with H : all_chars _ s = true |- _ => rename H into Hs end.
  match goal with H : c ≠ _ |- _ => rename H into Hne end.
  assert (all_chars is_digit (String c s) = true) as Hd by (cbn [all_chars]; by rewrite Hc, Hs).
  split; [done|]. split; [|by apply digits_value_bound]. cbn [digits_value String.length].
  rewrite digits_value_shift. pose proof (digits_value_bound s Hs). pose proof (is_digit_range c Hc).
  assert (char_digit c ≠ 0) by (intros Hzero; apply Hne, char_digit_inj; by rewrite Hzero).
  replace (Z.of_nat (S (String.length s)) - 1) with (Z.of_nat (String.length s)) by lia. nia.
Qed.

Lemma positive_decimal_inj s t :
  positive_decimal s = true → positive_decimal t = true → digits_value 0 s = digits_value 0 t → s = t.
Proof.
  intros [Hs Bs]%positive_decimal_bounds [Ht Bt]%positive_decimal_bounds Hv. apply digits_value_inj; try done.
  rewrite Hv in Bs. set (m := Z.of_nat (String.length s)) in *. set (n := Z.of_nat (String.length t)) in *.
  assert (m = n); [|lia]. destruct (Z.lt_trichotomy m n) as [Hlt|[?|Hlt]]; [exfalso|done|exfalso].
  - assert (10 ^ m <= 10 ^ (n - 1)) by (apply Z.pow_le_mono_r; lia). lia.
  - assert (10 ^ n <= 10 ^ (m - 1)) by (apply Z.pow_le_mono_r; lia). lia.
Qed.

Lemma int_digits_head f n acc : 0 < n < 10 ^ Z.of_nat f → f ≠ O →
  ∃ c r, int_digits f n acc = String c r ∧ c ≠ "0"%char.
Proof.
  revert n acc. induction f as [|f IH]; intros n acc Hn Hf; [done|].
  cbn [int_digits]. rewrite Nat2Z.inj_succ, Z.pow_succ_r in Hn by lia.
  destruct (Z.eqb_spec (n / 10) 0) as [Hz|Hz].
  - eexists _, _. split; [done|]. intros Hc%(f_equal char_digit).
    rewrite digit_char_value in Hc by apply mod10_range. change (char_digit "0") with 0 in Hc.
    pose proof (Z.div_mod n 10). lia.
  - assert (f ≠ O) by (intros ->; apply Hz, Z.div_small; simpl in Hn; lia).
    apply IH; [|done]. pose proof (Z.div_pos n 10). split; [lia|apply Z.div_lt_upper_bound; lia].
Qed.

(** Such a text is the text of its value. *)
Lemma positive_decimal_text s :
  positive_decimal s = true → 0 < digits_value 0 s ∧ int_text (digits_value 0 s) = s.
Proof.
  intros Hs. destruct (positive_decimal_bounds s Hs) as [Hd [Hb _]].
  assert (0 < digits_value 0 s) as Hpos.
  { destruct s; [done|]. cbn [String.length] in Hb.
    replace (Z.of_nat (S (String.length s)) - 1) with (Z.of_nat (String.length s)) in Hb by lia.
    pose proof (Z.pow_pos_nonneg 10 (Z.of_nat (String.length s))). lia. }
  split; [done|]. set (v := digits_value 0 s) in *.
  destruct (int_text_spec v) as [Hv Hdig]; [lia|]. symmetry. apply positive_decimal_inj; [done| |by rewrite Hv].
  destruct (int_digits_head (S (Z.to_nat (Z.log2 v))) v "") as (c & r & Heq & Hc);
    [split; [done|apply int_text_fuel; lia]|done|].
  unfold int_text in *. rewrite Heq in *. cbn [all_chars positive_decimal] in *.
  apply andb_true_iff in Hdig as [-> ->]. by rewrite bool_decide_eq_false_2.
Qed.
