(* ===== verification/Sha256.v ===== *)
(** * SHA-256, as [createHash("sha256").update(text).digest("hex")] computes it

    32-bit words are integers reduced modulo 2^32; the text is hashed in its
    UTF-8 encoding. The control plane uses the digest as the idempotency key of
    an alert and as the fingerprint of evidence. *)

From S2P Require Import Prelude Js.

Local Open Scope string_scope.
Local Open Scope Z_scope.

Definition w32 (x : Z) : Z := x mod 2 ^ 32.
Definition rotr (n x : Z) : Z := Z.lor (Z.shiftr x n) (w32 (Z.shiftl x (32 - n))).
Definition not32 (x : Z) : Z := Z.lxor x (2 ^ 32 - 1).

Definition ch (x y z : Z) : Z := Z.lxor (Z.land x y) (Z.land (not32 x) z).
Definition maj (x y z : Z) : Z := Z.lxor (Z.land x y) (Z.lxor (Z.land x z) (Z.land y z)).
Definition big_sigma0 (x : Z) : Z := Z.lxor (rotr 2 x) (Z.lxor (rotr 13 x) (rotr 22 x)).
Definition big_sigma1 (x : Z) : Z := Z.lxor (rotr 6 x) (Z.lxor (rotr 11 x) (rotr 25 x)).
Definition small_sigma0 (x : Z) : Z := Z.lxor (rotr 7 x) (Z.lxor (rotr 18 x) (Z.shiftr x 3)).
Definition small_sigma1 (x : Z) : Z := Z.lxor (rotr 17 x) (Z.lxor (rotr 19 x) (Z.shiftr x 10)).

(** The constants are the first 32 bits of the fractional parts of the cube
    roots of the first 64 primes, and the initial state those of the square
    roots of the first eight, computed here from that definition. *)
Definition is_prime (n : Z) : bool :=
  (1 <? n) && forallb (λ k, negb (n mod k =? 0)) (seqZ 2 (n - 2)).
Definition primes_below (n : Z) : list Z := List.filter is_prime (seqZ 0 n).

(** The largest [r] below 2^[k] with [r^3 <= n], found bit by bit. *)
Fixpoint cube_root (k : nat) (r n : Z) : Z :=
  match k with
  | O => r
  | S k =>
      let t := r + 2 ^ Z.of_nat k in
      cube_root k (if t ^ 3 <=? n then t else r) n
  end.

Definition round_constants : list Z :=
  Eval vm_compute in (λ p, w32 (cube_root 40 0 (p * 2 ^ 96))) <$> primes_below 312.
Definition square_root_constants : list Z :=
  Eval vm_compute in (λ p, w32 (Z.sqrt (p * 2 ^ 64))) <$> primes_below 20.

(** UTF-8 of a text of the Latin-1 range. *)
Fixpoint utf8_bytes (s : string) : list Z :=
  match s with
  | EmptyString => []
  | String c r =>
      let n := Z.of_nat (nat_of_ascii c) in
      if n <? 128 then n :: utf8_bytes r
      else (192 + n / 64) :: (128 + n mod 64) :: utf8_bytes r
  end.

Definition be_bytes (k : nat) (x : Z) : list Z :=
  (λ i, Z.shiftr x (8 * Z.of_nat i) mod 256) <$> rev (seq 0 k).

Definition pad (bs : list Z) : list Z :=
  let n := length bs in
  let zeros := Z.to_nat ((55 - Z.of_nat n) mod 64) in
  (bs ++ 128 :: replicate zeros 0 ++ be_bytes 8 (8 * Z.of_nat n))%list.

Fixpoint words_of_bytes (bs : list Z) : list Z :=
  match bs with
  | a :: b :: c :: d :: r => (a * 2 ^ 24 + b * 2 ^ 16 + c * 2 ^ 8 + d) :: words_of_bytes r
  | _ => []
  end.

(** The message schedule, kept newest first: the next word is computed from
    the words 2, 7, 15 and 16 places back. *)
Definition schedule_next (w : list Z) : Z :=
  w32 (small_sigma1 (nth 1 w 0) + nth 6 w 0 + small_sigma0 (nth 14 w 0) + nth 15 w 0).
Definition schedule (block : list Z) : list Z :=
  rev (Nat.iter 48 (λ w, schedule_next w :: w) (rev block)).

Record hash_state : Type := mk_hash_state { ha : Z; hb : Z; hc : Z; hd : Z; he : Z; hf : Z; hg : Z; hh : Z }.

Definition hash_round (s : hash_state) (kw : Z * Z) : hash_state :=
  let t1 := hh s + big_sigma1 (he s) + ch (he s) (hf s) (hg s) + kw.1 + kw.2 in
  let t2 := big_sigma0 (ha s) + maj (ha s) (hb s) (hc s) in
  mk_hash_state (w32 (t1 + t2)) (ha s) (hb s) (hc s) (w32 (hd s + t1)) (he s) (hf s) (hg s).

Definition compress (s : hash_state) (block : list Z) : hash_state :=
  let r := foldl hash_round s (zip round_constants (schedule block)) in
  mk_hash_state (w32 (ha s + ha r)) (w32 (hb s + hb r)) (w32 (hc s + hc r)) (w32 (hd s + hd r))
    (w32 (he s + he r)) (w32 (hf s + hf r)) (w32 (hg s + hg r)) (w32 (hh s + hh r)).

Fixpoint blocks (fuel : nat) (ws : list Z) : list (list Z) :=
  match fuel, ws with
  | S f, _ :: _ => take 16 ws :: blocks f (drop 16 ws)
  | _, _ => []
  end.

Definition initial_state : hash_state :=
  match square_root_constants with
  | [a; b; c; d; e; f; g; h] => mk_hash_state a b c d e f g h
  | _ => mk_hash_state 0 0 0 0 0 0 0 0
  end.

Definition sha256_of_bytes (bs : list Z) : hash_state :=
  let ws := words_of_bytes (pad bs) in
  foldl compress initial_state (blocks (length ws) ws).
Definition sha256_state (s : string) : hash_state := sha256_of_bytes (utf8_bytes s).

(** [digest("hex")]. *)
Definition sha256 (s : string) : string :=
  let r := sha256_state s in
  hex_digits 8 (ha r) "" +:+ hex_digits 8 (hb r) "" +:+ hex_digits 8 (hc r) "" +:+ hex_digits 8 (hd r) ""
  +:+ hex_digits 8 (he r) "" +:+ hex_digits 8 (hf r) "" +:+ hex_digits 8 (hg r) "" +:+ hex_digits 8 (hh r) "".

(** The published test vectors. *)
Example sha256_empty :
  sha256 "" = "e3b0c44298fc1c149afbf4c8996fb92427ae41e4649b934ca495991b7852b855".
Proof. vm_compute. reflexivity. Qed.
Example sha256_abc :
  sha256 "abc" = "ba7816bf8f01cfea414140de5dae2223b00361a396177a9cb410ff61f20015ad".
Proof. vm_compute. reflexivity. Qed.
Example sha256_two_blocks :
  sha256 "abcdbcdecdefdefgefghfghighijhijkijkljklmklmnlmnomnopnopq" =
    "248d6a61d20638b8e5c026930c3e6039a33ce45964ff2167f6ecedd419db06c1".
Proof. vm_compute. reflexivity. Qed.

(** ** The digest is always 64 lower-case hexadecimal characters *)

Lemma hex_digit_is_hex n : 0 <= n < 16 → is_hex_char (hex_digit n) = true.
Proof.
  intros Hn. assert (n ∈ seqZ 0 16) as Hin by (apply elem_of_seqZ; lia).
  apply (proj1 (Forall_forall (λ n, is_hex_char (hex_digit n) = true) (seqZ 0 16))); [|done].
  by repeat constructor.
Qed.

Lemma hex_digits_spec k n acc :
  all_chars is_hex_char acc = true →
  all_chars is_hex_char (hex_digits k n acc) = true ∧
  String.length (hex_digits k n acc) = (k + String.length acc)%nat.
Proof.
  revert n acc. induction k as [|k IH]; intros n acc Ha; simpl; [done|].
  destruct (IH (n / 16) (String (hex_digit (n mod 16)) acc)) as [H1 H2].
  { simpl. rewrite Ha, andb_true_r. apply hex_digit_is_hex, Z.mod_pos_bound. lia. }
  split; [done|]. rewrite H2. simpl. lia.
Qed.

Lemma all_chars_app p s t : all_chars p (s +:+ t) = all_chars p s && all_chars p t.
Proof. induction s as [|c s IH]; simpl; [done|]. by rewrite IH, andb_assoc. Qed.

Lemma string_length_app s t : String.length (s +:+ t) = (String.length s + String.length t)%nat.
Proof. induction s as [|c s IH]; simpl; [done|]. by rewrite IH. Qed.

Lemma sha256_is_hex s : is_sha256_hex (sha256 s) = true.
Proof.
  unfold is_sha256_hex, sha256. generalize (sha256_state s). intros r.
  rewrite !all_chars_app, !string_length_app.
  rewrite !(λ n, proj1 (hex_digits_spec 8 n "" eq_refl)), !(λ n, proj2 (hex_digits_spec 8 n "" eq_refl)).
  done.
Qed.
