(* ===== verification/Hmac.v ===== *)
(** * Bytes, HMAC and base64

    What node:crypto and Buffer provide to the control plane beyond a digest of
    text: the digest of bytes, HMAC-SHA-256 (RFC 2104) and base64 with its
    lenient decoder. A byte is a [Z] in [0, 256). *)

From S2P Require Import Prelude Js Sha256.

Local Open Scope string_scope.
Local Open Scope Z_scope.

Abbreviation bytes := (list Z).
Definition is_byte (b : Z) : Prop := 0 <= b < 256.

(** [createHash("sha256").update(bs).digest()]. *)
Definition sha256_bytes (bs : bytes) : bytes :=
  let r := sha256_of_bytes bs in
  flat_map (be_bytes 4) [ha r; hb r; hc r; hd r; he r; hf r; hg r; hh r].

(** [createHash("sha256").update(bs).digest("hex")]. *)
Definition sha256_hex (bs : bytes) : string :=
  let r := sha256_of_bytes bs in
  hex_digits 8 (ha r) "" +:+ hex_digits 8 (hb r) "" +:+ hex_digits 8 (hc r) "" +:+ hex_digits 8 (hd r) ""
  +:+ hex_digits 8 (he r) "" +:+ hex_digits 8 (hf r) "" +:+ hex_digits 8 (hg r) "" +:+ hex_digits 8 (hh r) "".
Lemma sha256_hex_text s : sha256_hex (utf8_bytes s) = sha256 s.
Proof. done. Qed.

(** [createHmac("sha256", key).update(message).digest()]. *)
Definition block_key (key : bytes) : bytes :=
  let k := if (64 <? length key)%nat then sha256_bytes key else key in
  (k ++ replicate (64 - length k) 0)%list.
Definition hmac_sha256 (key message : bytes) : bytes :=
  let k := block_key key in
  sha256_bytes ((Z.lxor 92 <$> k) ++ sha256_bytes ((Z.lxor 54 <$> k) ++ message))%list.

Definition hex_bytes (bs : bytes) : string := foldr (λ b s, hex_digits 2 b "" +:+ s) "" bs.

(** RFC 4231, test case 2. *)
Example hmac_jefe :
  hex_bytes (hmac_sha256 (utf8_bytes "Jefe") (utf8_bytes "what do ya want for nothing?")) =
    "5bdcc146bf60754e6a042426089575c75a003f089d2739839dec58b964ec3843".
Proof. vm_compute. reflexivity. Qed.

Lemma be_bytes_range k x : Forall is_byte (be_bytes k x).
Proof. apply Forall_fmap, Forall_true. intros i. apply Z.mod_pos_bound. lia. Qed.
Lemma sha256_bytes_range bs : Forall is_byte (sha256_bytes bs) ∧ length (sha256_bytes bs) = 32%nat.
Proof.
  split; [|done]. unfold sha256_bytes. generalize (sha256_of_bytes bs) as r. intros r.
  induction [ha r; hb r; hc r; hd r; he r; hf r; hg r; hh r] as [|x l IH]; [by apply Forall_nil|].
  cbn [flat_map]. apply Forall_app. split; [apply be_bytes_range|done].
Qed.

(** ** Base64 *)

Definition alphabet : string := "ABCDEFGHIJKLMNOPQRSTUVWXYZabcdefghijklmnopqrstuvwxyz0123456789+/".
Definition sextet_char (n : Z) : ascii := default "="%char (String.get (Z.to_nat n) alphabet).
(** The URL alphabet is accepted too; anything else has no value. *)
Definition char_sextet (c : ascii) : option Z :=
  let n := Z.of_nat (nat_of_ascii c) in
  if (65 <=? n) && (n <=? 90) then Some (n - 65)
  else if (97 <=? n) && (n <=? 122) then Some (n - 71)
  else if (48 <=? n) && (n <=? 57) then Some (n + 4)
  else if (n =? 43) || (n =? 45) then Some 62
  else if (n =? 47) || (n =? 95) then Some 63
  else None.

Fixpoint base64 (bs : bytes) : string :=
  match bs with
  | a :: b :: c :: r =>
      String (sextet_char (a / 4)) (String (sextet_char (a mod 4 * 16 + b / 16))
        (String (sextet_char (b mod 16 * 4 + c / 64)) (String (sextet_char (c mod 64)) (base64 r))))
  | [a; b] =>
      String (sextet_char (a / 4)) (String (sextet_char (a mod 4 * 16 + b / 16))
        (String (sextet_char (b mod 16 * 4)) "="))
  | [a] => String (sextet_char (a / 4)) (String (sextet_char (a mod 4 * 16)) "==")
  | [] => ""
  end.

(** [Buffer.from(s, "base64")]: characters without a value are skipped, a last
    incomplete group yields its complete bytes. *)
Fixpoint sextets (s : string) : list Z :=
  match s with
  | EmptyString => []
  | String c r => match char_sextet c with Some n => n :: sextets r | None => sextets r end
  end.
Fixpoint join_sextets (l : list Z) : bytes :=
  match l with
  | w :: x :: y :: z :: r =>
      (w * 4 + x / 16) :: (x mod 16 * 16 + y / 4) :: (y mod 4 * 64 + z) :: join_sextets r
  | [w; x; y] => [w * 4 + x / 16; x mod 16 * 16 + y / 4]
  | [w; x] => [w * 4 + x / 16]
  | _ => []
  end.
Definition from_base64 (s : string) : bytes := join_sextets (sextets s).

Example base64_foobar : base64 (utf8_bytes "fooba") = "Zm9vYmE=".
Proof. reflexivity. Qed.

Lemma char_sextet_char n : 0 <= n < 64 → char_sextet (sextet_char n) = Some n.
Proof.
  intros Hn. assert (Forall (λ k, char_sextet (sextet_char k) = Some k) (seqZ 0 64)) as H
    by (apply (bool_decide_unpack _); vm_compute; exact I).
  rewrite Forall_forall in H. apply H, elem_of_seqZ. lia.
Qed.
Lemma sextets_char n s : 0 <= n < 64 → sextets (String (sextet_char n) s) = n :: sextets s.
Proof. intros Hn. cbn [sextets]. by rewrite char_sextet_char. Qed.

(** Decoding inverts encoding. *)
Lemma base64_round_trip bs : Forall is_byte bs → from_base64 (base64 bs) = bs.
Proof.
  unfold from_base64. remember (length bs) as n eqn:Hn. revert bs Hn. induction n as [n IH] using lt_wf_ind.
  intros bs -> Hb. destruct bs as [|a [|b [|c r]]]; [done|..];
    repeat match goal with H : Forall _ (_ :: _) |- _ => apply Forall_cons in H as [? H] end;
    unfold is_byte in *; cbn [base64];
    repeat rewrite sextets_char by (Z.to_euclidean_division_equations; lia).
  - cbn. f_equal. Z.to_euclidean_division_equations; lia.
  - cbn. f_equal; [|f_equal]; Z.to_euclidean_division_equations; lia.
  - cbn [join_sextets]. f_equal; [|f_equal; [|f_equal; [|eapply IH; [|done|done]; simpl; lia]]];
      Z.to_euclidean_division_equations; lia.
Qed.
