(* ===== verification/Rows.v ===== *)
(** * The PostgreSQL tables of the control plane

    One [Record] per table with the columns the TypeScript handlers read or
    write, one [Inductive] per PostgreSQL enum (src/database/postgresql), and
    the record [db] of all tables. [NUMERIC(30,12)] columns hold the amount
    times 10^12, [timestamptz] columns microseconds, [date] columns a day
    number. *)

From S2P Require Import Prelude Js Numeric.

Local Open Scope string_scope.
Local Open Scope Z_scope.

(** ** Enums and their text *)

(** [x::text] and [$1::the_enum]. *)
Class PgEnum (A : Type) := {
  pg_values : list A;
  pg_text : A → string;
  pg_values_complete a : a ∈ pg_values;
  pg_text_inj : Inj (=) (=) pg_text
}.
#[export] Existing Instance pg_text_inj.
Arguments pg_values A {_}.

Definition of_text {A} `{PgEnum A} (s : string) : option A :=
  List.find (λ a, bool_decide (pg_text a = s)) (pg_values A).

Lemma of_text_Some {A} `{PgEnum A} s (a : A) : of_text s = Some a ↔ pg_text a = s.
Proof.
  unfold of_text. split.
  - intros [_ Hp]%find_some. by apply bool_decide_eq_true in Hp.
  - intros <-. destruct (List.find _ _) as [b|] eqn:E.
    + apply find_some in E as [_ E%bool_decide_eq_true]. by apply (inj pg_text) in E as ->.
    + pose proof (find_none _ _ E a (proj1 (list_elem_of_In _ _) (pg_values_complete a))) as Hn.
      by apply bool_decide_eq_false in Hn.
Qed.

Lemma of_text_pg_text {A} `{PgEnum A} (a : A) : of_text (pg_text a) = Some a.
Proof. by apply of_text_Some. Qed.

#[export] Instance pg_enum_eq_dec {A} `{PgEnum A} : EqDecision A | 50.
Proof.
  intros a b. destruct (decide (pg_text a = pg_text b)) as [E|E].
  - left. by apply (inj pg_text).
  - right. congruence.
Defined.

#[export] Instance pg_enum_countable {A} `{PgEnum A} : Countable A | 50 :=
  inj_countable pg_text of_text of_text_pg_text.

Ltac pg_enum vs text :=
  refine {| pg_values := vs; pg_text := text |};
  [ intros []; repeat constructor | intros [] []; simpl; intros ?; simplify_eq; reflexivity ].

(** [operating_role]: the roles an actor of the control plane can have (the trade
    roles of migration 0032 belong to another application). *)
Inductive operating_role : Type :=
  | RoleAdmin
  | RoleComplianceOfficer
  | RoleTreasuryOperator
  | RoleAuditor
  | RoleProviderContact
  | RoleCbnLiaison
  | RoleSystemMonitor.
Definition operating_role_text (x : operating_role) : string :=
  match x with
  | RoleAdmin => "admin"
  | RoleComplianceOfficer => "compliance_officer"
  | RoleTreasuryOperator => "treasury_operator"
  | RoleAuditor => "auditor"
  | RoleProviderContact => "provider_contact"
  | RoleCbnLiaison => "cbn_liaison"
  | RoleSystemMonitor => "system_monitor"
  end.
#[export] Instance operating_role_enum : PgEnum operating_role.
Proof.
  pg_enum [RoleAdmin; RoleComplianceOfficer; RoleTreasuryOperator; RoleAuditor; RoleProviderContact; RoleCbnLiaison; RoleSystemMonitor] operating_role_text.
Defined.

Inductive corridor_code : Type :=
  | NIGERIA_NGN
  | KENYA_KES
  | SOUTH_AFRICA_ZAR.
Definition corridor_code_text (x : corridor_code) : string :=
  match x with
  | NIGERIA_NGN => "NIGERIA_NGN"
  | KENYA_KES => "KENYA_KES"
  | SOUTH_AFRICA_ZAR => "SOUTH_AFRICA_ZAR"
  end.
#[export] Instance corridor_code_enum : PgEnum corridor_code.
Proof.
  pg_enum [NIGERIA_NGN; KENYA_KES; SOUTH_AFRICA_ZAR] corridor_code_text.
Defined.

(** The [CHECK] on the asset and currency columns. *)
Inductive asset : Type :=
  | NGN
  | KES
  | ZAR
  | USD
  | USDC
  | USDT.
Definition asset_text (x : asset) : string :=
  match x with
  | NGN => "NGN"
  | KES => "KES"
  | ZAR => "ZAR"
  | USD => "USD"
  | USDC => "USDC"
  | USDT => "USDT"
  end.
#[export] Instance asset_enum : PgEnum asset.
Proof.
  pg_enum [NGN; KES; ZAR; USD; USDC; USDT] asset_text.
Defined.

Inductive authorization_status : Type :=
  | AuthPendingReview
  | AuthVerified
  | AuthExpired
  | AuthSuspended
  | AuthRejected.
Definition authorization_status_text (x : authorization_status) : string :=
  match x with
  | AuthPendingReview => "pending_review"
  | AuthVerified => "verified"
  | AuthExpired => "expired"
  | AuthSuspended => "suspended"
  | AuthRejected => "rejected"
  end.
#[export] Instance authorization_status_enum : PgEnum authorization_status.
Proof.
  pg_enum [AuthPendingReview; AuthVerified; AuthExpired; AuthSuspended; AuthRejected] authorization_status_text.
Defined.

Inductive payment_status : Type :=
  | PayDraft
  | PayPendingPolicyDecision
  | PayBlocked
  | PayManualReview
  | PayApproved
  | PayExecuting
  | PayPartiallyCompleted
  | PayCompleted
  | PayFailed
  | PayCancelled.
Definition payment_status_text (x : payment_status) : string :=
  match x with
  | PayDraft => "draft"
  | PayPendingPolicyDecision => "pending_policy_decision"
  | PayBlocked => "blocked"
  | PayManualReview => "manual_review"
  | PayApproved => "approved"
  | PayExecuting => "executing"
  | PayPartiallyCompleted => "partially_completed"
  | PayCompleted => "completed"
  | PayFailed => "failed"
  | PayCancelled => "cancelled"
  end.
#[export] Instance payment_status_enum : PgEnum payment_status.
Proof.
  pg_enum [PayDraft; PayPendingPolicyDecision; PayBlocked; PayManualReview; PayApproved; PayExecuting; PayPartiallyCompleted; PayCompleted; PayFailed; PayCancelled] payment_status_text.
Defined.

Inductive screening_state : Type :=
  | ScrNotRun
  | ScrClear
  | ScrPotentialMatch
  | ScrConfirmedMatch
  | ScrSourceUnavailable.
Definition screening_state_text (x : screening_state) : string :=
  match x with
  | ScrNotRun => "not_run"
  | ScrClear => "clear"
  | ScrPotentialMatch => "potential_match"
  | ScrConfirmedMatch => "confirmed_match"
  | ScrSourceUnavailable => "source_unavailable"
  end.
#[export] Instance screening_state_enum : PgEnum screening_state.
Proof.
  pg_enum [ScrNotRun; ScrClear; ScrPotentialMatch; ScrConfirmedMatch; ScrSourceUnavailable] screening_state_text.
Defined.

Inductive case_status : Type :=
  | CaseOpen
  | CaseUnderReview
  | CaseCleared
  | CaseEscalated
  | CaseReported
  | CaseClosed.
Definition case_status_text (x : case_status) : string :=
  match x with
  | CaseOpen => "open"
  | CaseUnderReview => "under_review"
  | CaseCleared => "cleared"
  | CaseEscalated => "escalated"
  | CaseReported => "reported"
  | CaseClosed => "closed"
  end.
#[export] Instance case_status_enum : PgEnum case_status.
Proof.
  pg_enum [CaseOpen; CaseUnderReview; CaseCleared; CaseEscalated; CaseReported; CaseClosed] case_status_text.
Defined.

Inductive integration_state : Type :=
  | IntUnconfigured
  | IntCredentialPending
  | IntVerificationPending
  | IntActive
  | IntSuspended
  | IntFailed.
Definition integration_state_text (x : integration_state) : string :=
  match x with
  | IntUnconfigured => "unconfigured"
  | IntCredentialPending => "credential_pending"
  | IntVerificationPending => "verification_pending"
  | IntActive => "active"
  | IntSuspended => "suspended"
  | IntFailed => "failed"
  end.
#[export] Instance integration_state_enum : PgEnum integration_state.
Proof.
  pg_enum [IntUnconfigured; IntCredentialPending; IntVerificationPending; IntActive; IntSuspended; IntFailed] integration_state_text.
Defined.

Inductive rate_lock_status : Type :=
  | LockLocked
  | LockExpired
  | LockCancelled.
Definition rate_lock_status_text (x : rate_lock_status) : string :=
  match x with
  | LockLocked => "locked"
  | LockExpired => "expired"
  | LockCancelled => "cancelled"
  end.
#[export] Instance rate_lock_status_enum : PgEnum rate_lock_status.
Proof.
  pg_enum [LockLocked; LockExpired; LockCancelled] rate_lock_status_text.
Defined.

(** The [CHECK] on [payment_legs.leg_kind]. *)
Inductive leg_kind : Type :=
  | LegCollection
  | LegFx
  | LegStablecoinSettlement
  | LegPayout
  | LegReversal.
Definition leg_kind_text (x : leg_kind) : string :=
  match x with
  | LegCollection => "collection"
  | LegFx => "fx"
  | LegStablecoinSettlement => "stablecoin_settlement"
  | LegPayout => "payout"
  | LegReversal => "reversal"
  end.
#[export] Instance leg_kind_enum : PgEnum leg_kind.
Proof.
  pg_enum [LegCollection; LegFx; LegStablecoinSettlement; LegPayout; LegReversal] leg_kind_text.
Defined.

Inductive compliance_alert_state : Type :=
  | AlertOpen
  | AlertAcknowledged
  | AlertEscalated
  | AlertDismissed.
Definition compliance_alert_state_text (x : compliance_alert_state) : string :=
  match x with
  | AlertOpen => "open"
  | AlertAcknowledged => "acknowledged"
  | AlertEscalated => "escalated"
  | AlertDismissed => "dismissed"
  end.
#[export] Instance compliance_alert_state_enum : PgEnum compliance_alert_state.
Proof.
  pg_enum [AlertOpen; AlertAcknowledged; AlertEscalated; AlertDismissed] compliance_alert_state_text.
Defined.

(** The [CHECK] on the severity columns. *)
Inductive alert_severity : Type :=
  | SevLow
  | SevMedium
  | SevHigh
  | SevCritical.
Definition alert_severity_text (x : alert_severity) : string :=
  match x with
  | SevLow => "low"
  | SevMedium => "medium"
  | SevHigh => "high"
  | SevCritical => "critical"
  end.
#[export] Instance alert_severity_enum : PgEnum alert_severity.
Proof.
  pg_enum [SevLow; SevMedium; SevHigh; SevCritical] alert_severity_text.
Defined.

(** The [CHECK] on [alert_policies.alert_type] and [compliance_alerts.alert_type]
    after migration 0041. *)
Inductive alert_type : Type :=
  | AltLiquidityThreshold
  | AltPaymentFailure
  | AltComplianceFlag
  | AltRegulatoryDeadline
  | AltSegregationOfDuties.
Definition alert_type_text (x : alert_type) : string :=
  match x with
  | AltLiquidityThreshold => "liquidity_threshold"
  | AltPaymentFailure => "payment_failure"
  | AltComplianceFlag => "compliance_flag"
  | AltRegulatoryDeadline => "regulatory_deadline"
  | AltSegregationOfDuties => "segregation_of_duties"
  end.
#[export] Instance alert_type_enum : PgEnum alert_type.
Proof.
  pg_enum [AltLiquidityThreshold; AltPaymentFailure; AltComplianceFlag; AltRegulatoryDeadline; AltSegregationOfDuties] alert_type_text.
Defined.

(** The [CHECK] on [compliance_cases.case_type]. *)
Inductive case_type : Type :=
  | CtKyc
  | CtSanctions
  | CtTransactionMonitoring
  | CtTravelRule
  | CtCounterparty
  | CtSarStr.
Definition case_type_text (x : case_type) : string :=
  match x with
  | CtKyc => "kyc"
  | CtSanctions => "sanctions"
  | CtTransactionMonitoring => "transaction_monitoring"
  | CtTravelRule => "travel_rule"
  | CtCounterparty => "counterparty"
  | CtSarStr => "sar_str"
  end.
#[export] Instance case_type_enum : PgEnum case_type.
Proof.
  pg_enum [CtKyc; CtSanctions; CtTransactionMonitoring; CtTravelRule; CtCounterparty; CtSarStr] case_type_text.
Defined.

Inductive sar_str_filing_status : Type :=
  | FilingDraft
  | FilingUnderReview
  | FilingApprovedForSubmission
  | FilingPendingSubmission
  | FilingSubmitted
  | FilingSubmissionUnavailable
  | FilingRejected.
Definition sar_str_filing_status_text (x : sar_str_filing_status) : string :=
  match x with
  | FilingDraft => "draft"
  | FilingUnderReview => "under_review"
  | FilingApprovedForSubmission => "approved_for_submission"
  | FilingPendingSubmission => "pending_submission"
  | FilingSubmitted => "submitted"
  | FilingSubmissionUnavailable => "submission_unavailable"
  | FilingRejected => "rejected"
  end.
#[export] Instance sar_str_filing_status_enum : PgEnum sar_str_filing_status.
Proof.
  pg_enum [FilingDraft; FilingUnderReview; FilingApprovedForSubmission; FilingPendingSubmission; FilingSubmitted; FilingSubmissionUnavailable; FilingRejected] sar_str_filing_status_text.
Defined.

Inductive regulatory_deadline_status : Type :=
  | DeadlineOpen
  | DeadlineAcknowledged
  | DeadlineCompleted
  | DeadlineCancelled.
Definition regulatory_deadline_status_text (x : regulatory_deadline_status) : string :=
  match x with
  | DeadlineOpen => "open"
  | DeadlineAcknowledged => "acknowledged"
  | DeadlineCompleted => "completed"
  | DeadlineCancelled => "cancelled"
  end.
#[export] Instance regulatory_deadline_status_enum : PgEnum regulatory_deadline_status.
Proof.
  pg_enum [DeadlineOpen; DeadlineAcknowledged; DeadlineCompleted; DeadlineCancelled] regulatory_deadline_status_text.
Defined.

Inductive onboarding_stage : Type :=
  | StageLegalOnboarding
  | StageTechnicalReadiness
  | StagePilot
  | StageSteadyState
  | StageRecertificationDue
  | StageBlocked.
Definition onboarding_stage_text (x : onboarding_stage) : string :=
  match x with
  | StageLegalOnboarding => "legal_onboarding"
  | StageTechnicalReadiness => "technical_readiness"
  | StagePilot => "pilot"
  | StageSteadyState => "steady_state"
  | StageRecertificationDue => "recertification_due"
  | StageBlocked => "blocked"
  end.
#[export] Instance onboarding_stage_enum : PgEnum onboarding_stage.
Proof.
  pg_enum [StageLegalOnboarding; StageTechnicalReadiness; StagePilot; StageSteadyState; StageRecertificationDue; StageBlocked] onboarding_stage_text.
Defined.

Inductive onboarding_gate : Type :=
  | GateLegal
  | GateTechnical
  | GatePilot.
Definition onboarding_gate_text (x : onboarding_gate) : string :=
  match x with
  | GateLegal => "legal"
  | GateTechnical => "technical"
  | GatePilot => "pilot"
  end.
#[export] Instance onboarding_gate_enum : PgEnum onboarding_gate.
Proof.
  pg_enum [GateLegal; GateTechnical; GatePilot] onboarding_gate_text.
Defined.

Inductive onboarding_decision : Type :=
  | DecApproved
  | DecBlocked.
Definition onboarding_decision_text (x : onboarding_decision) : string :=
  match x with
  | DecApproved => "approved"
  | DecBlocked => "blocked"
  end.
#[export] Instance onboarding_decision_enum : PgEnum onboarding_decision.
Proof.
  pg_enum [DecApproved; DecBlocked] onboarding_decision_text.
Defined.

Inductive operator_onboarding_phase : Type :=
  | OpRoleAccessRequest
  | OpLmsEnrolment
  | OpShadowPeriod
  | OpSteadyState.
Definition operator_onboarding_phase_text (x : operator_onboarding_phase) : string :=
  match x with
  | OpRoleAccessRequest => "role_access_request"
  | OpLmsEnrolment => "lms_enrolment"
  | OpShadowPeriod => "shadow_period"
  | OpSteadyState => "steady_state"
  end.
#[export] Instance operator_onboarding_phase_enum : PgEnum operator_onboarding_phase.
Proof.
  pg_enum [OpRoleAccessRequest; OpLmsEnrolment; OpShadowPeriod; OpSteadyState] operator_onboarding_phase_text.
Defined.

Inductive auditor_engagement_phase : Type :=
  | AudEngagementLetter
  | AudAccessProvisioning
  | AudAuditFieldwork
  | AudAnnualReview.
Definition auditor_engagement_phase_text (x : auditor_engagement_phase) : string :=
  match x with
  | AudEngagementLetter => "engagement_letter"
  | AudAccessProvisioning => "access_provisioning"
  | AudAuditFieldwork => "audit_fieldwork"
  | AudAnnualReview => "annual_review"
  end.
#[export] Instance auditor_engagement_phase_enum : PgEnum auditor_engagement_phase.
Proof.
  pg_enum [AudEngagementLetter; AudAccessProvisioning; AudAuditFieldwork; AudAnnualReview] auditor_engagement_phase_text.
Defined.

(** [vasp_readiness_assurance_area]. *)
Inductive assurance_area : Type :=
  | AreaControlledLiveTest
  | AreaGovernanceLegalOwnership
  | AreaAmlCftCpfOperations
  | AreaCustomerAssetSafeguarding
  | AreaCybersecurityResilience
  | AreaConsumerIncidentReporting.
Definition assurance_area_text (x : assurance_area) : string :=
  match x with
  | AreaControlledLiveTest => "controlled_live_test"
  | AreaGovernanceLegalOwnership => "governance_legal_ownership"
  | AreaAmlCftCpfOperations => "aml_cft_cpf_operations"
  | AreaCustomerAssetSafeguarding => "customer_asset_safeguarding"
  | AreaCybersecurityResilience => "cybersecurity_resilience"
  | AreaConsumerIncidentReporting => "consumer_incident_reporting"
  end.
#[export] Instance assurance_area_enum : PgEnum assurance_area.
Proof.
  pg_enum [AreaControlledLiveTest; AreaGovernanceLegalOwnership; AreaAmlCftCpfOperations; AreaCustomerAssetSafeguarding; AreaCybersecurityResilience; AreaConsumerIncidentReporting] assurance_area_text.
Defined.

(** [vasp_readiness_assurance_status]. *)
Inductive assurance_status : Type :=
  | RaOpen
  | RaEvidenceRecorded
  | RaExternallyVerified
  | RaRejected.
Definition assurance_status_text (x : assurance_status) : string :=
  match x with
  | RaOpen => "open"
  | RaEvidenceRecorded => "evidence_recorded"
  | RaExternallyVerified => "externally_verified"
  | RaRejected => "rejected"
  end.
#[export] Instance assurance_status_enum : PgEnum assurance_status.
Proof.
  pg_enum [RaOpen; RaEvidenceRecorded; RaExternallyVerified; RaRejected] assurance_status_text.
Defined.

(** [segregation_of_duties_evaluation_state]. *)
Inductive sod_state : Type :=
  | SodClean
  | SodExceptionsDetected
  | SodIndeterminate.
Definition sod_state_text (x : sod_state) : string :=
  match x with
  | SodClean => "clean"
  | SodExceptionsDetected => "exceptions_detected"
  | SodIndeterminate => "indeterminate"
  end.
#[export] Instance sod_state_enum : PgEnum sod_state.
Proof.
  pg_enum [SodClean; SodExceptionsDetected; SodIndeterminate] sod_state_text.
Defined.

(** The five counterparty chapters with an evidence pack and gates of their own;
    each has its archetype column, its evidence table and its decision table. *)
Inductive evidence_domain : Type :=
  | DomLp
  | DomBank
  | DomPsp
  | DomIssuer
  | DomVendor.
Definition evidence_domain_text (x : evidence_domain) : string :=
  match x with
  | DomLp => "lp"
  | DomBank => "bank"
  | DomPsp => "psp"
  | DomIssuer => "stablecoin_issuer"
  | DomVendor => "compliance_vendor"
  end.
#[export] Instance evidence_domain_enum : PgEnum evidence_domain.
Proof.
  pg_enum [DomLp; DomBank; DomPsp; DomIssuer; DomVendor] evidence_domain_text.
Defined.

Inductive customer_archetype : Type :=
  | ArchImporter
  | ArchExporter
  | ArchIntercompanyRebalancing
  | ArchPayrollOperator.
Definition customer_archetype_text (x : customer_archetype) : string :=
  match x with
  | ArchImporter => "importer"
  | ArchExporter => "exporter"
  | ArchIntercompanyRebalancing => "intercompany_rebalancing"
  | ArchPayrollOperator => "payroll_operator"
  end.
#[export] Instance customer_archetype_enum : PgEnum customer_archetype.
Proof.
  pg_enum [ArchImporter; ArchExporter; ArchIntercompanyRebalancing; ArchPayrollOperator] customer_archetype_text.
Defined.

Inductive customer_tier : Type :=
  | TierSmb
  | TierMid
  | TierEnterprise.
Definition customer_tier_text (x : customer_tier) : string :=
  match x with
  | TierSmb => "smb"
  | TierMid => "mid"
  | TierEnterprise => "enterprise"
  end.
#[export] Instance customer_tier_enum : PgEnum customer_tier.
Proof.
  pg_enum [TierSmb; TierMid; TierEnterprise] customer_tier_text.
Defined.

(** [external_stakeholder_assignment_status]. *)
Inductive external_assignment_status : Type :=
  | EsAssigned
  | EsSuspended.
Definition external_assignment_status_text (x : external_assignment_status) : string :=
  match x with
  | EsAssigned => "assigned"
  | EsSuspended => "suspended"
  end.
#[export] Instance external_assignment_status_enum : PgEnum external_assignment_status.
Proof.
  pg_enum [EsAssigned; EsSuspended] external_assignment_status_text.
Defined.

(** [external_stakeholder_evidence_category]. *)
Inductive external_evidence_category : Type :=
  | ExtProviderLicensing
  | ExtProductEntitlement
  | ExtTechnicalEndpoint
  | ExtCallbackConfiguration
  | ExtOperatingRunbook
  | ExtApplicationCorrespondence
  | ExtReviewRequest
  | ExtReviewResponse.
Definition external_evidence_category_text (x : external_evidence_category) : string :=
  match x with
  | ExtProviderLicensing => "provider_licensing"
  | ExtProductEntitlement => "product_entitlement"
  | ExtTechnicalEndpoint => "technical_endpoint"
  | ExtCallbackConfiguration => "callback_configuration"
  | ExtOperatingRunbook => "operating_runbook"
  | ExtApplicationCorrespondence => "application_correspondence"
  | ExtReviewRequest => "review_request"
  | ExtReviewResponse => "review_response"
  end.
#[export] Instance external_evidence_category_enum : PgEnum external_evidence_category.
Proof.
  pg_enum [ExtProviderLicensing; ExtProductEntitlement; ExtTechnicalEndpoint; ExtCallbackConfiguration; ExtOperatingRunbook; ExtApplicationCorrespondence; ExtReviewRequest; ExtReviewResponse] external_evidence_category_text.
Defined.

(** [verification_consent_scope]. *)
Inductive consent_scope : Type :=
  | ScopeKyc
  | ScopeKyb.
Definition consent_scope_text (x : consent_scope) : string :=
  match x with
  | ScopeKyc => "kyc"
  | ScopeKyb => "kyb"
  end.
#[export] Instance consent_scope_enum : PgEnum consent_scope.
Proof.
  pg_enum [ScopeKyc; ScopeKyb] consent_scope_text.
Defined.

Inductive analysis_job_state : Type :=
  | JobQueued
  | JobRunning
  | JobReviewRequired
  | JobUnavailable
  | JobFailed.
Definition analysis_job_state_text (x : analysis_job_state) : string :=
  match x with
  | JobQueued => "queued"
  | JobRunning => "running"
  | JobReviewRequired => "review_required"
  | JobUnavailable => "unavailable"
  | JobFailed => "failed"
  end.
#[export] Instance analysis_job_state_enum : PgEnum analysis_job_state.
Proof.
  pg_enum [JobQueued; JobRunning; JobReviewRequired; JobUnavailable; JobFailed] analysis_job_state_text.
Defined.

Inductive analysis_evidence_kind : Type :=
  | EkOcr
  | EkDocumentStructure
  | EkVisualConsistency
  | EkPresentationAttackRisk
  | EkEngineUnavailable.
Definition analysis_evidence_kind_text (x : analysis_evidence_kind) : string :=
  match x with
  | EkOcr => "ocr"
  | EkDocumentStructure => "document_structure"
  | EkVisualConsistency => "visual_consistency"
  | EkPresentationAttackRisk => "presentation_attack_risk"
  | EkEngineUnavailable => "engine_unavailable"
  end.
#[export] Instance analysis_evidence_kind_enum : PgEnum analysis_evidence_kind.
Proof.
  pg_enum [EkOcr; EkDocumentStructure; EkVisualConsistency; EkPresentationAttackRisk; EkEngineUnavailable] analysis_evidence_kind_text.
Defined.

Inductive reviewer_disposition : Type :=
  | RvApproved
  | RvRejected
  | RvNeedsInformation
  | RvEscalated.
Definition reviewer_disposition_text (x : reviewer_disposition) : string :=
  match x with
  | RvApproved => "approved"
  | RvRejected => "rejected"
  | RvNeedsInformation => "needs_information"
  | RvEscalated => "escalated"
  end.
#[export] Instance reviewer_disposition_enum : PgEnum reviewer_disposition.
Proof.
  pg_enum [RvApproved; RvRejected; RvNeedsInformation; RvEscalated] reviewer_disposition_text.
Defined.

Inductive kyc_document_type : Type :=
  | DocRegistrationCertificate
  | DocIdentityDocument
  | DocProofOfAddress
  | DocBeneficialOwnership
  | DocSourceOfFunds
  | DocOther
  | DocNgNinReference
  | DocNgCacRegistration
  | DocNgTaxIdentifier
  | DocNgDirectorIdentity
  | DocKeNationalIdOrPassport
  | DocKeBusinessRegistrationOrCr12
  | DocKeKraPin
  | DocKeBeneficialOwnership
  | DocZaCipcRegistration
  | DocZaSarsTaxReference
  | DocZaDirectorIdentity.
Definition kyc_document_type_text (x : kyc_document_type) : string :=
  match x with
  | DocRegistrationCertificate => "registration_certificate"
  | DocIdentityDocument => "identity_document"
  | DocProofOfAddress => "proof_of_address"
  | DocBeneficialOwnership => "beneficial_ownership"
  | DocSourceOfFunds => "source_of_funds"
  | DocOther => "other"
  | DocNgNinReference => "ng_nin_reference"
  | DocNgCacRegistration => "ng_cac_registration"
  | DocNgTaxIdentifier => "ng_tax_identifier"
  | DocNgDirectorIdentity => "ng_director_identity"
  | DocKeNationalIdOrPassport => "ke_national_id_or_passport"
  | DocKeBusinessRegistrationOrCr12 => "ke_business_registration_or_cr12"
  | DocKeKraPin => "ke_kra_pin"
  | DocKeBeneficialOwnership => "ke_beneficial_ownership"
  | DocZaCipcRegistration => "za_cipc_registration"
  | DocZaSarsTaxReference => "za_sars_tax_reference"
  | DocZaDirectorIdentity => "za_director_identity"
  end.
#[export] Instance kyc_document_type_enum : PgEnum kyc_document_type.
Proof.
  pg_enum [DocRegistrationCertificate; DocIdentityDocument; DocProofOfAddress; DocBeneficialOwnership; DocSourceOfFunds; DocOther; DocNgNinReference; DocNgCacRegistration; DocNgTaxIdentifier; DocNgDirectorIdentity; DocKeNationalIdOrPassport; DocKeBusinessRegistrationOrCr12; DocKeKraPin; DocKeBeneficialOwnership; DocZaCipcRegistration; DocZaSarsTaxReference; DocZaDirectorIdentity] kyc_document_type_text.
Defined.

Inductive kyc_review_status : Type :=
  | KycSubmitted
  | KycUnderReview
  | KycApproved
  | KycRejected
  | KycExpired.
Definition kyc_review_status_text (x : kyc_review_status) : string :=
  match x with
  | KycSubmitted => "submitted"
  | KycUnderReview => "under_review"
  | KycApproved => "approved"
  | KycRejected => "rejected"
  | KycExpired => "expired"
  end.
#[export] Instance kyc_review_status_enum : PgEnum kyc_review_status.
Proof.
  pg_enum [KycSubmitted; KycUnderReview; KycApproved; KycRejected; KycExpired] kyc_review_status_text.
Defined.

Inductive report_status : Type :=
  | RepDraft
  | RepUnderReview
  | RepApproved
  | RepValidated
  | RepPendingSubmission
  | RepSubmitted
  | RepRejected
  | RepSubmissionUnavailable.
Definition report_status_text (x : report_status) : string :=
  match x with
  | RepDraft => "draft"
  | RepUnderReview => "under_review"
  | RepApproved => "approved"
  | RepValidated => "validated"
  | RepPendingSubmission => "pending_submission"
  | RepSubmitted => "submitted"
  | RepRejected => "rejected"
  | RepSubmissionUnavailable => "submission_unavailable"
  end.
#[export] Instance report_status_enum : PgEnum report_status.
Proof.
  pg_enum [RepDraft; RepUnderReview; RepApproved; RepValidated; RepPendingSubmission; RepSubmitted; RepRejected; RepSubmissionUnavailable] report_status_text.
Defined.

Inductive counterparty_risk_level : Type :=
  | RiskLow
  | RiskMedium
  | RiskHigh
  | RiskCritical.
Definition counterparty_risk_level_text (x : counterparty_risk_level) : string :=
  match x with
  | RiskLow => "low"
  | RiskMedium => "medium"
  | RiskHigh => "high"
  | RiskCritical => "critical"
  end.
#[export] Instance counterparty_risk_level_enum : PgEnum counterparty_risk_level.
Proof.
  pg_enum [RiskLow; RiskMedium; RiskHigh; RiskCritical] counterparty_risk_level_text.
Defined.

Inductive counterparty_review_status : Type :=
  | RvwCurrent
  | RvwDue
  | RvwOverdue
  | RvwEscalated.
Definition counterparty_review_status_text (x : counterparty_review_status) : string :=
  match x with
  | RvwCurrent => "current"
  | RvwDue => "due"
  | RvwOverdue => "overdue"
  | RvwEscalated => "escalated"
  end.
#[export] Instance counterparty_review_status_enum : PgEnum counterparty_review_status.
Proof.
  pg_enum [RvwCurrent; RvwDue; RvwOverdue; RvwEscalated] counterparty_review_status_text.
Defined.

(** [treasury_recommendation_status]. *)
Inductive recommendation_status : Type :=
  | RecProposed
  | RecApproved
  | RecRejected
  | RecExpired
  | RecSuperseded.
Definition recommendation_status_text (x : recommendation_status) : string :=
  match x with
  | RecProposed => "proposed"
  | RecApproved => "approved"
  | RecRejected => "rejected"
  | RecExpired => "expired"
  | RecSuperseded => "superseded"
  end.
#[export] Instance recommendation_status_enum : PgEnum recommendation_status.
Proof.
  pg_enum [RecProposed; RecApproved; RecRejected; RecExpired; RecSuperseded] recommendation_status_text.
Defined.

(** ** Rows *)

(** The [{ openId, role }] of the caller. *)
Record actor : Type := mk_actor {
  a_openId : string;
  a_role : operating_role
}.
#[export] Instance actor_eta : Eta actor := λ r,
  mk_actor (a_openId r) (a_role r).

(** [activity_events], without the columns no handler writes; the correlation
    identifier is [None] where the handler leaves it to the column's default, a
    fresh one. *)
Record activity_event : Type := mk_activity_event {
  ev_actor_subject : string;
  ev_actor_role : operating_role;
  ev_action : string;
  ev_object_type : string;
  ev_object_id : option uuid;
  ev_occurred_at : Z;
  ev_metadata : json;
  ev_correlation_id : option uuid
}.
#[export] Instance activity_event_eta : Eta activity_event := λ r,
  mk_activity_event (ev_actor_subject r) (ev_actor_role r) (ev_action r) (ev_object_type r)
    (ev_object_id r) (ev_occurred_at r) (ev_metadata r) (ev_correlation_id r).

Record customer : Type := mk_customer {
  cust_legal_name : string;
  cust_registration_identifier : string;
  cust_kyc_status : case_status;
  cust_created_at : Z;
  cust_archetype : option customer_archetype;
  cust_tier : option customer_tier;
  cust_country : option corridor_code;
  cust_use_case_narrative : option string
}.
#[export] Instance customer_eta : Eta customer := λ r,
  mk_customer (cust_legal_name r) (cust_registration_identifier r) (cust_kyc_status r) (cust_created_at r)
    (cust_archetype r) (cust_tier r) (cust_country r) (cust_use_case_narrative r).

Record beneficiary : Type := mk_beneficiary {
  ben_customer_id : uuid;
  ben_legal_name : string;
  ben_country_code : string;
  ben_bank_or_wallet_reference : string;
  ben_screening_state : screening_state;
  ben_created_at : Z
}.
#[export] Instance beneficiary_eta : Eta beneficiary := λ r,
  mk_beneficiary (ben_customer_id r) (ben_legal_name r) (ben_country_code r) (ben_bank_or_wallet_reference r)
    (ben_screening_state r) (ben_created_at r).

(** [counterparties]; the five nullable archetype columns are one finite map. *)
Record counterparty : Type := mk_counterparty {
  cp_legal_name : string;
  cp_counterparty_type : string;
  cp_jurisdiction : string;
  cp_created_at : Z;
  cp_archetypes : gmap evidence_domain string
}.
#[export] Instance counterparty_eta : Eta counterparty := λ r,
  mk_counterparty (cp_legal_name r) (cp_counterparty_type r) (cp_jurisdiction r) (cp_created_at r)
    (cp_archetypes r).

Record counterparty_authorization : Type := mk_counterparty_authorization {
  cpa_counterparty_id : uuid;
  cpa_regulator : string;
  cpa_licence_reference : string;
  cpa_scope_description : string;
  cpa_evidence_uri : string;
  cpa_valid_from : Z;
  cpa_valid_to : option Z;
  cpa_status : authorization_status;
  cpa_verified_by : option string;
  cpa_verified_at : option Z
}.
#[export] Instance counterparty_authorization_eta : Eta counterparty_authorization := λ r,
  mk_counterparty_authorization (cpa_counterparty_id r) (cpa_regulator r) (cpa_licence_reference r) (cpa_scope_description r)
    (cpa_evidence_uri r) (cpa_valid_from r) (cpa_valid_to r) (cpa_status r)
    (cpa_verified_by r) (cpa_verified_at r).

Record integration_connection : Type := mk_integration_connection {
  ic_counterparty_id : uuid;
  ic_category : string;
  ic_environment : string;
  ic_documentation_url : string;
  ic_secret_reference : option string;
  ic_state : integration_state;
  ic_last_health_checked_at : option Z;
  ic_last_health_result : option json;
  ic_created_at : Z
}.
#[export] Instance integration_connection_eta : Eta integration_connection := λ r,
  mk_integration_connection (ic_counterparty_id r) (ic_category r) (ic_environment r) (ic_documentation_url r)
    (ic_secret_reference r) (ic_state r) (ic_last_health_checked_at r) (ic_last_health_result r)
    (ic_created_at r).

Record market_observation : Type := mk_market_observation {
  mo_integration_connection_id : uuid;
  mo_base_asset : asset;
  mo_quote_asset : asset;
  mo_rate : Z;
  mo_observed_at : Z;
  mo_source_reference : string
}.
#[export] Instance market_observation_eta : Eta market_observation := λ r,
  mk_market_observation (mo_integration_connection_id r) (mo_base_asset r) (mo_quote_asset r) (mo_rate r)
    (mo_observed_at r) (mo_source_reference r).

Record payment_order : Type := mk_payment_order {
  po_idempotency_key : string;
  po_customer_id : uuid;
  po_beneficiary_id : uuid;
  po_corridor : corridor_code;
  po_source_currency : asset;
  po_source_amount : Z;
  po_target_currency : asset;
  po_target_amount : option Z;
  po_status : payment_status;
  po_policy_decision_id : option uuid;
  po_provider_finality_reference : option string;
  po_created_by : string;
  po_created_at : Z;
  po_updated_at : Z
}.
#[export] Instance payment_order_eta : Eta payment_order := λ r,
  mk_payment_order (po_idempotency_key r) (po_customer_id r) (po_beneficiary_id r) (po_corridor r)
    (po_source_currency r) (po_source_amount r) (po_target_currency r) (po_target_amount r)
    (po_status r) (po_policy_decision_id r) (po_provider_finality_reference r) (po_created_by r)
    (po_created_at r) (po_updated_at r).

Record payment_leg : Type := mk_payment_leg {
  pl_payment_order_id : uuid;
  pl_sequence_number : Z;
  pl_leg_kind : leg_kind;
  pl_counterparty_id : option uuid;
  pl_status : payment_status;
  pl_provider_instruction_reference : option string;
  pl_provider_finality_reference : option string
}.
#[export] Instance payment_leg_eta : Eta payment_leg := λ r,
  mk_payment_leg (pl_payment_order_id r) (pl_sequence_number r) (pl_leg_kind r) (pl_counterparty_id r)
    (pl_status r) (pl_provider_instruction_reference r) (pl_provider_finality_reference r).

Record rate_lock : Type := mk_rate_lock {
  rl_market_observation_id : uuid;
  rl_payment_order_id : option uuid;
  rl_corridor : corridor_code;
  rl_base_asset : asset;
  rl_quote_asset : asset;
  rl_locked_rate : Z;
  rl_status : rate_lock_status;
  rl_expires_at : Z;
  rl_created_by : string;
  rl_created_at : Z
}.
#[export] Instance rate_lock_eta : Eta rate_lock := λ r,
  mk_rate_lock (rl_market_observation_id r) (rl_payment_order_id r) (rl_corridor r) (rl_base_asset r)
    (rl_quote_asset r) (rl_locked_rate r) (rl_status r) (rl_expires_at r)
    (rl_created_by r) (rl_created_at r).

Record aml_screening_check : Type := mk_aml_screening_check {
  aml_beneficiary_id : option uuid;
  aml_integration_connection_id : uuid;
  aml_correlation_id : string;
  aml_screening_scope : string;
  aml_screening_state : screening_state;
  aml_provider_reference : string;
  aml_source_version : string;
  aml_evidence_sha256 : string;
  aml_screened_at : Z;
  aml_recorded_at : Z
}.
#[export] Instance aml_screening_check_eta : Eta aml_screening_check := λ r,
  mk_aml_screening_check (aml_beneficiary_id r) (aml_integration_connection_id r) (aml_correlation_id r) (aml_screening_scope r)
    (aml_screening_state r) (aml_provider_reference r) (aml_source_version r) (aml_evidence_sha256 r)
    (aml_screened_at r) (aml_recorded_at r).

Record alert_policy : Type := mk_alert_policy {
  ap_alert_type : alert_type;
  ap_corridor : option corridor_code;
  ap_threshold : json;
  ap_enabled : bool;
  ap_created_by : string;
  ap_created_at : Z
}.
#[export] Instance alert_policy_eta : Eta alert_policy := λ r,
  mk_alert_policy (ap_alert_type r) (ap_corridor r) (ap_threshold r) (ap_enabled r)
    (ap_created_by r) (ap_created_at r).

Record compliance_case : Type := mk_compliance_case {
  cc_payment_order_id : option uuid;
  cc_customer_id : option uuid;
  cc_case_type : case_type;
  cc_status : case_status;
  cc_severity : alert_severity;
  cc_source_reference : string;
  cc_decision_reason : option string;
  cc_opened_at : Z;
  cc_closed_at : option Z
}.
#[export] Instance compliance_case_eta : Eta compliance_case := λ r,
  mk_compliance_case (cc_payment_order_id r) (cc_customer_id r) (cc_case_type r) (cc_status r)
    (cc_severity r) (cc_source_reference r) (cc_decision_reason r) (cc_opened_at r)
    (cc_closed_at r).

Record compliance_alert : Type := mk_compliance_alert {
  ca_alert_policy_id : uuid;
  ca_alert_type : alert_type;
  ca_corridor : option corridor_code;
  ca_severity : alert_severity;
  ca_state : compliance_alert_state;
  ca_source_reference : string;
  ca_evidence : json;
  ca_detected_at : Z;
  ca_payment_order_id : option uuid;
  ca_customer_id : option uuid;
  ca_counterparty_id : option uuid;
  ca_acknowledged_by : option string;
  ca_acknowledged_by_role : option operating_role;
  ca_acknowledged_at : option Z;
  ca_acknowledgement_note : option string;
  ca_escalated_case_id : option uuid;
  ca_escalated_by : option string;
  ca_escalated_by_role : option operating_role;
  ca_escalated_at : option Z;
  ca_dismissed_by : option string;
  ca_dismissed_by_role : option operating_role;
  ca_dismissed_at : option Z;
  ca_dismissal_reason : option string;
  ca_created_at : Z
}.
#[export] Instance compliance_alert_eta : Eta compliance_alert := λ r,
  mk_compliance_alert (ca_alert_policy_id r) (ca_alert_type r) (ca_corridor r) (ca_severity r)
    (ca_state r) (ca_source_reference r) (ca_evidence r) (ca_detected_at r)
    (ca_payment_order_id r) (ca_customer_id r) (ca_counterparty_id r) (ca_acknowledged_by r)
    (ca_acknowledged_by_role r) (ca_acknowledged_at r) (ca_acknowledgement_note r) (ca_escalated_case_id r)
    (ca_escalated_by r) (ca_escalated_by_role r) (ca_escalated_at r) (ca_dismissed_by r)
    (ca_dismissed_by_role r) (ca_dismissed_at r) (ca_dismissal_reason r) (ca_created_at r).

Record sar_str_filing : Type := mk_sar_str_filing {
  ssf_compliance_case_id : uuid;
  ssf_corridor : corridor_code;
  ssf_filing_type : string;
  ssf_filing_authority : string;
  ssf_source_reference : string;
  ssf_status : sar_str_filing_status;
  ssf_submission_reference : option string;
  ssf_created_by : string;
  ssf_created_at : Z;
  ssf_updated_at : Z
}.
#[export] Instance sar_str_filing_eta : Eta sar_str_filing := λ r,
  mk_sar_str_filing (ssf_compliance_case_id r) (ssf_corridor r) (ssf_filing_type r) (ssf_filing_authority r)
    (ssf_source_reference r) (ssf_status r) (ssf_submission_reference r) (ssf_created_by r)
    (ssf_created_at r) (ssf_updated_at r).

Record regulatory_deadline : Type := mk_regulatory_deadline {
  rd_regulator : string;
  rd_corridor : corridor_code;
  rd_title : string;
  rd_due_at : Z;
  rd_source_reference : string;
  rd_status : regulatory_deadline_status;
  rd_last_reminded_at : option Z;
  rd_created_by : string;
  rd_created_at : Z
}.
#[export] Instance regulatory_deadline_eta : Eta regulatory_deadline := λ r,
  mk_regulatory_deadline (rd_regulator r) (rd_corridor r) (rd_title r) (rd_due_at r)
    (rd_source_reference r) (rd_status r) (rd_last_reminded_at r) (rd_created_by r)
    (rd_created_at r).

(** [treasury_buffer_policies]; the percentages are [NUMERIC(8,6)], scaled by 10^6. *)
Record treasury_buffer_policy : Type := mk_treasury_buffer_policy {
  tbp_corridor : corridor_code;
  tbp_currency : string;
  tbp_policy_version : string;
  tbp_approved_daily_outflow : Z;
  tbp_minimum_buffer_pct : Z;
  tbp_target_buffer_pct : Z;
  tbp_amber_buffer_pct : Z;
  tbp_max_recommendation_pct_of_target : Z;
  tbp_permitted_account_kinds : list string;
  tbp_effective_from : Z;
  tbp_effective_to : option Z
}.
#[export] Instance treasury_buffer_policy_eta : Eta treasury_buffer_policy := λ r,
  mk_treasury_buffer_policy (tbp_corridor r) (tbp_currency r) (tbp_policy_version r) (tbp_approved_daily_outflow r)
    (tbp_minimum_buffer_pct r) (tbp_target_buffer_pct r) (tbp_amber_buffer_pct r) (tbp_max_recommendation_pct_of_target r)
    (tbp_permitted_account_kinds r) (tbp_effective_from r) (tbp_effective_to r).

Record liquidity_position : Type := mk_liquidity_position {
  lp_corridor : corridor_code;
  lp_currency : string;
  lp_account_kind : string;
  lp_account_reference : string;
  lp_available_amount : Z;
  lp_reserved_amount : Z;
  lp_source_reference : string;
  lp_reconciled_at : Z;
  lp_recorded_by : string
}.
#[export] Instance liquidity_position_eta : Eta liquidity_position := λ r,
  mk_liquidity_position (lp_corridor r) (lp_currency r) (lp_account_kind r) (lp_account_reference r)
    (lp_available_amount r) (lp_reserved_amount r) (lp_source_reference r) (lp_reconciled_at r)
    (lp_recorded_by r).

(** [notification_deliveries]: like the activity log, evidence that is only
    appended and never looked up by its identifier. *)
Record notification_delivery : Type := mk_notification_delivery {
  nd_alert_policy_id : option uuid;
  nd_alert_type : alert_type;
  nd_delivery_state : string;
  nd_destination : string;
  nd_correlation_id : uuid;
  nd_payload_hash : string;
  nd_created_at : Z
}.
#[export] Instance notification_delivery_eta : Eta notification_delivery := λ r,
  mk_notification_delivery (nd_alert_policy_id r) (nd_alert_type r) (nd_delivery_state r) (nd_destination r)
    (nd_correlation_id r) (nd_payload_hash r) (nd_created_at r).

Record counterparty_onboarding : Type := mk_counterparty_onboarding {
  ob_counterparty_id : uuid;
  ob_country_overlays : list corridor_code;
  ob_stage : onboarding_stage;
  ob_cycle_number : Z;
  ob_legal_evidence_uri : string;
  ob_technical_evidence_uri : option string;
  ob_pilot_evidence_uri : option string;
  ob_recertification_due_at : option Z;
  ob_current_reason : option string;
  ob_created_by : string;
  ob_created_at : Z;
  ob_updated_at : Z
}.
#[export] Instance counterparty_onboarding_eta : Eta counterparty_onboarding := λ r,
  mk_counterparty_onboarding (ob_counterparty_id r) (ob_country_overlays r) (ob_stage r) (ob_cycle_number r)
    (ob_legal_evidence_uri r) (ob_technical_evidence_uri r) (ob_pilot_evidence_uri r) (ob_recertification_due_at r)
    (ob_current_reason r) (ob_created_by r) (ob_created_at r) (ob_updated_at r).

(** [counterparty_onboarding_gate_decisions]. *)
Record gate_decision : Type := mk_gate_decision {
  gd_onboarding_id : uuid;
  gd_cycle_number : Z;
  gd_gate : onboarding_gate;
  gd_decision : onboarding_decision;
  gd_evidence_uri : string;
  gd_rationale : string;
  gd_decided_by : string;
  gd_decided_role : operating_role;
  gd_decided_at : Z
}.
#[export] Instance gate_decision_eta : Eta gate_decision := λ r,
  mk_gate_decision (gd_onboarding_id r) (gd_cycle_number r) (gd_gate r) (gd_decision r)
    (gd_evidence_uri r) (gd_rationale r) (gd_decided_by r) (gd_decided_role r)
    (gd_decided_at r).

(** [control_evidence_outbox]; [ox_delivered] is [delivery_state = 'delivered']. *)
Record outbox_row : Type := mk_outbox_row {
  ox_event_type : string;
  ox_correlation_sha256 : string;
  ox_observed_at : Z;
  ox_outcome : string;
  ox_corridor : option corridor_code;
  ox_payload : json;
  ox_delivered : bool;
  ox_delivery_attempts : Z;
  ox_last_delivery_error : option string;
  ox_delivered_at : option Z;
  ox_created_at : Z
}.
#[export] Instance outbox_row_eta : Eta outbox_row := λ r,
  mk_outbox_row (ox_event_type r) (ox_correlation_sha256 r) (ox_observed_at r) (ox_outcome r)
    (ox_corridor r) (ox_payload r) (ox_delivered r) (ox_delivery_attempts r)
    (ox_last_delivery_error r) (ox_delivered_at r) (ox_created_at r).

Record corridor_policy : Type := mk_corridor_policy {
  cpol_corridor : corridor_code;
  cpol_regulator : string;
  cpol_policy_version : string;
  cpol_effective_from : Z;
  cpol_effective_to : option Z;
  cpol_requires_travel_rule : bool;
  cpol_requires_authorised_fx_intermediary : bool;
  cpol_activation_status : authorization_status;
  cpol_policy_document_uri : string;
  cpol_created_by : string;
  cpol_created_at : Z
}.
#[export] Instance corridor_policy_eta : Eta corridor_policy := λ r,
  mk_corridor_policy (cpol_corridor r) (cpol_regulator r) (cpol_policy_version r) (cpol_effective_from r)
    (cpol_effective_to r) (cpol_requires_travel_rule r) (cpol_requires_authorised_fx_intermediary r) (cpol_activation_status r)
    (cpol_policy_document_uri r) (cpol_created_by r) (cpol_created_at r).

Record operator_onboarding_record : Type := mk_operator_onboarding_record {
  oor_subject : string;
  oor_phase : operator_onboarding_phase;
  oor_sod_matrix_reviewed : bool;
  oor_sod_matrix_reviewed_by : option string;
  oor_sod_matrix_reviewed_at : option Z;
  oor_sod_matrix_note : option string;
  oor_lms_cert_reference : option string;
  oor_lms_cert_assigned_at : option Z;
  oor_shadow_period_supervised_by : option string;
  oor_shadow_period_started_at : option Z;
  oor_shadow_period_ended_at : option Z;
  oor_steady_state_activated_at : option Z;
  oor_next_recert_due_at : option Z;
  oor_created_by : string;
  oor_created_at : Z
}.
#[export] Instance operator_onboarding_record_eta : Eta operator_onboarding_record := λ r,
  mk_operator_onboarding_record (oor_subject r) (oor_phase r) (oor_sod_matrix_reviewed r) (oor_sod_matrix_reviewed_by r)
    (oor_sod_matrix_reviewed_at r) (oor_sod_matrix_note r) (oor_lms_cert_reference r) (oor_lms_cert_assigned_at r)
    (oor_shadow_period_supervised_by r) (oor_shadow_period_started_at r) (oor_shadow_period_ended_at r) (oor_steady_state_activated_at r)
    (oor_next_recert_due_at r) (oor_created_by r) (oor_created_at r).

Record auditor_engagement_record : Type := mk_auditor_engagement_record {
  aer_auditor_firm_name : string;
  aer_engagement_reference : string;
  aer_phase : auditor_engagement_phase;
  aer_engagement_letter_uri : option string;
  aer_engagement_letter_signed_at : option Z;
  aer_scope_note : option string;
  aer_auditor_subject : option string;
  aer_access_provisioned_at : option Z;
  aer_access_provisioned_by : option string;
  aer_fieldwork_note : option string;
  aer_fieldwork_started_at : option Z;
  aer_fieldwork_completed_at : option Z;
  aer_last_annual_review_at : option Z;
  aer_next_annual_review_due_at : option Z;
  aer_created_by : string;
  aer_created_at : Z
}.
#[export] Instance auditor_engagement_record_eta : Eta auditor_engagement_record := λ r,
  mk_auditor_engagement_record (aer_auditor_firm_name r) (aer_engagement_reference r) (aer_phase r) (aer_engagement_letter_uri r)
    (aer_engagement_letter_signed_at r) (aer_scope_note r) (aer_auditor_subject r) (aer_access_provisioned_at r)
    (aer_access_provisioned_by r) (aer_fieldwork_note r) (aer_fieldwork_started_at r) (aer_fieldwork_completed_at r)
    (aer_last_annual_review_at r) (aer_next_annual_review_due_at r) (aer_created_by r) (aer_created_at r).

(** [cbn_sandbox_dossiers]. *)
Record cbn_sandbox_dossier : Type := mk_cbn_sandbox_dossier {
  csd_legal_entity_id : uuid;
  csd_track : string;
  csd_product_name : string;
  csd_product_summary : string;
  csd_created_by : string;
  csd_status : string;
  csd_external_submission_reference : option string;
  csd_created_at : Z;
  csd_updated_at : Z
}.
#[export] Instance cbn_sandbox_dossier_eta : Eta cbn_sandbox_dossier := λ r,
  mk_cbn_sandbox_dossier (csd_legal_entity_id r) (csd_track r) (csd_product_name r) (csd_product_summary r)
    (csd_created_by r) (csd_status r) (csd_external_submission_reference r) (csd_created_at r)
    (csd_updated_at r).

(** [vasp_readiness_assurance_items]. *)
Record assurance_item : Type := mk_assurance_item {
  ra_dossier_id : uuid;
  ra_area : assurance_area;
  ra_max_points : Z;
  ra_required_evidence : string;
  ra_accountable_owner_role : string;
  ra_status : assurance_status;
  ra_evidence_uri : option string;
  ra_evidence_sha256 : option string;
  ra_evidence_recorded_by : option string;
  ra_evidence_recorded_at : option Z;
  ra_external_verifier : option string;
  ra_external_attestation_uri : option string;
  ra_external_attestation_sha256 : option string;
  ra_verified_by : option string;
  ra_verified_at : option Z;
  ra_verification_rationale : option string;
  ra_rejection_rationale : option string;
  ra_created_at : Z;
  ra_updated_at : Z
}.
#[export] Instance assurance_item_eta : Eta assurance_item := λ r,
  mk_assurance_item (ra_dossier_id r) (ra_area r) (ra_max_points r) (ra_required_evidence r)
    (ra_accountable_owner_role r) (ra_status r) (ra_evidence_uri r) (ra_evidence_sha256 r)
    (ra_evidence_recorded_by r) (ra_evidence_recorded_at r) (ra_external_verifier r) (ra_external_attestation_uri r)
    (ra_external_attestation_sha256 r) (ra_verified_by r) (ra_verified_at r) (ra_verification_rationale r)
    (ra_rejection_rationale r) (ra_created_at r) (ra_updated_at r).

(** [segregation_of_duties_evaluation_runs]. *)
Record sod_evaluation_run : Type := mk_sod_evaluation_run {
  sod_correlation_id : uuid;
  sod_evaluator_subject : string;
  sod_evaluator_role : operating_role;
  sod_query_version : string;
  sod_evaluation_state : sod_state;
  sod_exception_count : Z;
  sod_exception_digest : option string;
  sod_error_summary : option string;
  sod_evaluated_at : Z
}.
#[export] Instance sod_evaluation_run_eta : Eta sod_evaluation_run := λ r,
  mk_sod_evaluation_run (sod_correlation_id r) (sod_evaluator_subject r) (sod_evaluator_role r) (sod_query_version r)
    (sod_evaluation_state r) (sod_exception_count r) (sod_exception_digest r) (sod_error_summary r)
    (sod_evaluated_at r).

(** A row of one of the five evidence-pack tables. *)
Record evidence_item : Type := mk_evidence_item {
  ei_counterparty_id : uuid;
  ei_evidence_type : string;
  ei_evidence_uri : string;
  ei_note : option string;
  ei_recorded_by : string;
  ei_recorded_at : Z
}.
#[export] Instance evidence_item_eta : Eta evidence_item := λ r,
  mk_evidence_item (ei_counterparty_id r) (ei_evidence_type r) (ei_evidence_uri r) (ei_note r)
    (ei_recorded_by r) (ei_recorded_at r).

(** A row of one of the five dedicated gate-decision tables; the liquidity
    provider and banking tables have a single gate and no gate column. *)
Record dedicated_decision : Type := mk_dedicated_decision {
  dd_onboarding_id : uuid;
  dd_cycle_number : Z;
  dd_gate : string;
  dd_decision : onboarding_decision;
  dd_rationale : string;
  dd_decided_by : string;
  dd_decided_role : operating_role;
  dd_decided_at : Z
}.
#[export] Instance dedicated_decision_eta : Eta dedicated_decision := λ r,
  mk_dedicated_decision (dd_onboarding_id r) (dd_cycle_number r) (dd_gate r) (dd_decision r)
    (dd_rationale r) (dd_decided_by r) (dd_decided_role r) (dd_decided_at r).

Record user_role_assignment : Type := mk_user_role_assignment {
  ura_user_subject : string;
  ura_role : operating_role;
  ura_assigned_by : string;
  ura_assigned_at : Z;
  ura_revoked_at : option Z
}.
#[export] Instance user_role_assignment_eta : Eta user_role_assignment := λ r,
  mk_user_role_assignment (ura_user_subject r) (ura_role r) (ura_assigned_by r) (ura_assigned_at r)
    (ura_revoked_at r).

(** [operator_role_assignments], whose primary key is the subject. *)
Record operator_role_assignment : Type := mk_operator_role_assignment {
  ora_role : operating_role;
  ora_status : external_assignment_status;
  ora_assigned_by : string;
  ora_assigned_at : Z;
  ora_suspended_at : option Z
}.
#[export] Instance operator_role_assignment_eta : Eta operator_role_assignment := λ r,
  mk_operator_role_assignment (ora_role r) (ora_status r) (ora_assigned_by r) (ora_assigned_at r)
    (ora_suspended_at r).

Record external_assignment : Type := mk_external_assignment {
  esa_stakeholder_role : operating_role;
  esa_stakeholder_subject : string;
  esa_counterparty_id : option uuid;
  esa_dossier_id : option uuid;
  esa_status : external_assignment_status;
  esa_assigned_by : string;
  esa_assigned_at : Z;
  esa_suspended_at : option Z
}.
#[export] Instance external_assignment_eta : Eta external_assignment := λ r,
  mk_external_assignment (esa_stakeholder_role r) (esa_stakeholder_subject r) (esa_counterparty_id r) (esa_dossier_id r)
    (esa_status r) (esa_assigned_by r) (esa_assigned_at r) (esa_suspended_at r).

Record external_evidence : Type := mk_external_evidence {
  ese_assignment_id : uuid;
  ese_category : external_evidence_category;
  ese_evidence_uri : string;
  ese_evidence_sha256 : string;
  ese_recorded_by : string;
  ese_recorded_at : Z
}.
#[export] Instance external_evidence_eta : Eta external_evidence := λ r,
  mk_external_evidence (ese_assignment_id r) (ese_category r) (ese_evidence_uri r) (ese_evidence_sha256 r)
    (ese_recorded_by r) (ese_recorded_at r).

(** [operator_access_requests], whose primary key is the subject. *)
Record access_request : Type := mk_access_request {
  oar_name : option string;
  oar_email : option string;
  oar_first_seen_at : Z;
  oar_last_seen_at : Z;
  oar_resolved_at : option Z;
  oar_resolved_by : option string
}.
#[export] Instance access_request_eta : Eta access_request := λ r,
  mk_access_request (oar_name r) (oar_email r) (oar_first_seen_at r) (oar_last_seen_at r)
    (oar_resolved_at r) (oar_resolved_by r).

Record kyc_document : Type := mk_kyc_document {
  kd_customer_id : uuid;
  kd_document_type : kyc_document_type;
  kd_storage_key : string;
  kd_storage_url : string;
  kd_original_filename : string;
  kd_mime_type : string;
  kd_size_bytes : Z;
  kd_review_status : kyc_review_status;
  kd_review_note : option string;
  kd_reviewed_by : option string;
  kd_reviewed_at : option Z;
  kd_uploaded_by : string;
  kd_uploaded_at : Z
}.
#[export] Instance kyc_document_eta : Eta kyc_document := λ r,
  mk_kyc_document (kd_customer_id r) (kd_document_type r) (kd_storage_key r) (kd_storage_url r)
    (kd_original_filename r) (kd_mime_type r) (kd_size_bytes r) (kd_review_status r)
    (kd_review_note r) (kd_reviewed_by r) (kd_reviewed_at r) (kd_uploaded_by r)
    (kd_uploaded_at r).

Record upload_intent : Type := mk_upload_intent {
  ui_customer_id : uuid;
  ui_document_type : kyc_document_type;
  ui_original_filename : string;
  ui_mime_type : string;
  ui_size_bytes : Z;
  ui_content_sha256 : string;
  ui_storage_key : string;
  ui_uploaded_by : string;
  ui_expires_at : Z;
  ui_finalized_at : option Z;
  ui_created_at : Z
}.
#[export] Instance upload_intent_eta : Eta upload_intent := λ r,
  mk_upload_intent (ui_customer_id r) (ui_document_type r) (ui_original_filename r) (ui_mime_type r)
    (ui_size_bytes r) (ui_content_sha256 r) (ui_storage_key r) (ui_uploaded_by r)
    (ui_expires_at r) (ui_finalized_at r) (ui_created_at r).

Record verification_consent : Type := mk_verification_consent {
  vc_scope : consent_scope;
  vc_subject_reference : string;
  vc_consent_version : string;
  vc_purpose : string;
  vc_granted_at : Z;
  vc_revoked_at : option Z;
  vc_expires_at : option Z;
  vc_captured_by : string;
  vc_created_at : Z
}.
#[export] Instance verification_consent_eta : Eta verification_consent := λ r,
  mk_verification_consent (vc_scope r) (vc_subject_reference r) (vc_consent_version r) (vc_purpose r)
    (vc_granted_at r) (vc_revoked_at r) (vc_expires_at r) (vc_captured_by r)
    (vc_created_at r).

Record analysis_job : Type := mk_analysis_job {
  daj_consent_id : uuid;
  daj_kyc_document_id : option uuid;
  daj_case_kind : consent_scope;
  daj_document_class : string;
  daj_source_sha256 : string;
  daj_source_uri : string;
  daj_mime_type : string;
  daj_state : analysis_job_state;
  daj_selected_model_tag : option string;
  daj_selected_model_digest : option string;
  daj_selected_model_role : option string;
  daj_submitted_by : string;
  daj_submitted_at : Z;
  daj_completed_at : option Z
}.
#[export] Instance analysis_job_eta : Eta analysis_job := λ r,
  mk_analysis_job (daj_consent_id r) (daj_kyc_document_id r) (daj_case_kind r) (daj_document_class r)
    (daj_source_sha256 r) (daj_source_uri r) (daj_mime_type r) (daj_state r)
    (daj_selected_model_tag r) (daj_selected_model_digest r) (daj_selected_model_role r) (daj_submitted_by r)
    (daj_submitted_at r) (daj_completed_at r).

Record analysis_evidence : Type := mk_analysis_evidence {
  dae_analysis_job_id : uuid;
  dae_kind : analysis_evidence_kind;
  dae_disposition : string;
  dae_engine_name : string;
  dae_engine_version : string;
  dae_model_tag : option string;
  dae_model_digest : option string;
  dae_prompt_policy_version : option string;
  dae_evidence_sha256 : option string;
  dae_signals : json;
  dae_limitations : json;
  dae_created_at : Z
}.
#[export] Instance analysis_evidence_eta : Eta analysis_evidence := λ r,
  mk_analysis_evidence (dae_analysis_job_id r) (dae_kind r) (dae_disposition r) (dae_engine_name r)
    (dae_engine_version r) (dae_model_tag r) (dae_model_digest r) (dae_prompt_policy_version r)
    (dae_evidence_sha256 r) (dae_signals r) (dae_limitations r) (dae_created_at r).

Record reviewer_decision : Type := mk_reviewer_decision {
  vrd_analysis_job_id : uuid;
  vrd_disposition : reviewer_disposition;
  vrd_rationale : string;
  vrd_decided_by : string;
  vrd_decided_at : Z
}.
#[export] Instance reviewer_decision_eta : Eta reviewer_decision := λ r,
  mk_reviewer_decision (vrd_analysis_job_id r) (vrd_disposition r) (vrd_rationale r) (vrd_decided_by r)
    (vrd_decided_at r).

Record destination_counterparty : Type := mk_destination_counterparty {
  cdc_customer_id : uuid;
  cdc_counterparty_name : string;
  cdc_destination_jurisdiction : string;
  cdc_invoice_reference : option string;
  cdc_created_by : string;
  cdc_created_at : Z
}.
#[export] Instance destination_counterparty_eta : Eta destination_counterparty := λ r,
  mk_destination_counterparty (cdc_customer_id r) (cdc_counterparty_name r) (cdc_destination_jurisdiction r) (cdc_invoice_reference r)
    (cdc_created_by r) (cdc_created_at r).

(** [customer_use_case_gate_decisions]; [customer_gate_decision] has the values of [onboarding_decision]. *)
Record use_case_decision : Type := mk_use_case_decision {
  ucd_customer_id : uuid;
  ucd_decision : onboarding_decision;
  ucd_rationale : string;
  ucd_decided_by : string;
  ucd_decided_role : operating_role;
  ucd_decided_at : Z
}.
#[export] Instance use_case_decision_eta : Eta use_case_decision := λ r,
  mk_use_case_decision (ucd_customer_id r) (ucd_decision r) (ucd_rationale r) (ucd_decided_by r)
    (ucd_decided_role r) (ucd_decided_at r).

Record account_binding : Type := mk_account_binding {
  lab_account_reference : string;
  lab_tigerbeetle_account_id : Z;
  lab_account_kind : string;
  lab_currency : asset;
  lab_evidence_uri : string;
  lab_evidence_sha256 : string;
  lab_created_by : string;
  lab_created_at : Z
}.
#[export] Instance account_binding_eta : Eta account_binding := λ r,
  mk_account_binding (lab_account_reference r) (lab_tigerbeetle_account_id r) (lab_account_kind r) (lab_currency r)
    (lab_evidence_uri r) (lab_evidence_sha256 r) (lab_created_by r) (lab_created_at r).

Record transfer_fact : Type := mk_transfer_fact {
  ttf_tigerbeetle_transfer_id : Z;
  ttf_correlation_id : string;
  ttf_currency : asset;
  ttf_amount_minor : Z;
  ttf_debit_account_id : Z;
  ttf_credit_account_id : Z;
  ttf_posted_at : Z;
  ttf_evidence_sha256 : string;
  ttf_projected_at : Z;
  ttf_reconciliation_state : string;
  ttf_reconciliation_reference : option string
}.
#[export] Instance transfer_fact_eta : Eta transfer_fact := λ r,
  mk_transfer_fact (ttf_tigerbeetle_transfer_id r) (ttf_correlation_id r) (ttf_currency r) (ttf_amount_minor r)
    (ttf_debit_account_id r) (ttf_credit_account_id r) (ttf_posted_at r) (ttf_evidence_sha256 r)
    (ttf_projected_at r) (ttf_reconciliation_state r) (ttf_reconciliation_reference r).

Record legal_entity : Type := mk_legal_entity {
  le_legal_name : string;
  le_jurisdiction : string;
  le_registration_identifier : string;
  le_created_at : Z
}.
#[export] Instance legal_entity_eta : Eta legal_entity := λ r,
  mk_legal_entity (le_legal_name r) (le_jurisdiction r) (le_registration_identifier r) (le_created_at r).

(** [regulatory_reports]; the period is in days. *)
Record regulatory_report : Type := mk_regulatory_report {
  rr_regulator : string;
  rr_corridor : corridor_code;
  rr_report_type : string;
  rr_period_start : Z;
  rr_period_end : Z;
  rr_legal_entity_id : uuid;
  rr_status : report_status;
  rr_artifact_uri : option string;
  rr_evidence_manifest : option json;
  rr_submission_reference : option string;
  rr_created_at : Z;
  rr_reviewed_by : option string;
  rr_reviewed_at : option Z;
  rr_approved_by : option string;
  rr_approved_at : option Z;
  rr_status_reason : option string
}.
#[export] Instance regulatory_report_eta : Eta regulatory_report := λ r,
  mk_regulatory_report (rr_regulator r) (rr_corridor r) (rr_report_type r) (rr_period_start r)
    (rr_period_end r) (rr_legal_entity_id r) (rr_status r) (rr_artifact_uri r)
    (rr_evidence_manifest r) (rr_submission_reference r) (rr_created_at r) (rr_reviewed_by r)
    (rr_reviewed_at r) (rr_approved_by r) (rr_approved_at r) (rr_status_reason r).

(** [counterparty_risk_assessments]; the score is [NUMERIC(5,2)], scaled by 100. *)
Record risk_assessment : Type := mk_risk_assessment {
  cra_counterparty_id : uuid;
  cra_risk_level : counterparty_risk_level;
  cra_risk_score : Z;
  cra_risk_factors : json;
  cra_evidence_manifest : json;
  cra_assessed_at : Z;
  cra_next_review_at : Z;
  cra_assessed_by : string;
  cra_review_status : counterparty_review_status;
  cra_escalation_reason : option string;
  cra_escalated_by : option string;
  cra_escalated_at : option Z;
  cra_created_at : Z
}.
#[export] Instance risk_assessment_eta : Eta risk_assessment := λ r,
  mk_risk_assessment (cra_counterparty_id r) (cra_risk_level r) (cra_risk_score r) (cra_risk_factors r)
    (cra_evidence_manifest r) (cra_assessed_at r) (cra_next_review_at r) (cra_assessed_by r)
    (cra_review_status r) (cra_escalation_reason r) (cra_escalated_by r) (cra_escalated_at r)
    (cra_created_at r).

(** [treasury_rebalancing_recommendations]. *)
Record treasury_recommendation : Type := mk_treasury_recommendation {
  trr_buffer_policy_id : uuid;
  trr_corridor : corridor_code;
  trr_currency : string;
  trr_reconciled_available_balance : Z;
  trr_reconciled_at : Z;
  trr_balance_source_reference : string;
  trr_verified_near_term_funding_gap : Z;
  trr_funding_gap_source_reference : string;
  trr_minimum_buffer_amount : Z;
  trr_target_buffer_amount : Z;
  trr_computed_recommendation_amount : Z;
  trr_calculation_evidence : json;
  trr_status : recommendation_status;
  trr_proposed_by : string;
  trr_proposed_at : Z;
  trr_decided_by : option string;
  trr_decided_at : option Z;
  trr_decision_reason : option string;
  trr_expires_at : Z
}.
#[export] Instance treasury_recommendation_eta : Eta treasury_recommendation := λ r,
  mk_treasury_recommendation (trr_buffer_policy_id r) (trr_corridor r) (trr_currency r) (trr_reconciled_available_balance r)
    (trr_reconciled_at r) (trr_balance_source_reference r) (trr_verified_near_term_funding_gap r) (trr_funding_gap_source_reference r)
    (trr_minimum_buffer_amount r) (trr_target_buffer_amount r) (trr_computed_recommendation_amount r) (trr_calculation_evidence r)
    (trr_status r) (trr_proposed_by r) (trr_proposed_at r) (trr_decided_by r)
    (trr_decided_at r) (trr_decision_reason r) (trr_expires_at r).

Record health_sample : Type := mk_health_sample {
  shs_service : string;
  shs_language : string;
  shs_status : string;
  shs_latency_ms : option Z;
  shs_uptime_seconds : option Z;
  shs_counters : json;
  shs_posture : json;
  shs_reason : option string;
  shs_collected_at : Z;
  shs_service_observed_at : option Z
}.
#[export] Instance health_sample_eta : Eta health_sample := λ r,
  mk_health_sample (shs_service r) (shs_language r) (shs_status r) (shs_latency_ms r)
    (shs_uptime_seconds r) (shs_counters r) (shs_posture r) (shs_reason r)
    (shs_collected_at r) (shs_service_observed_at r).

Record scheduled_job : Type := mk_scheduled_job {
  sj_purpose : string;
  sj_schedule_cron_task_uid : option string;
  sj_cron_expression : string;
  sj_enabled : bool;
  sj_last_executed_at : option Z;
  sj_created_by : string;
  sj_created_at : Z
}.
#[export] Instance scheduled_job_eta : Eta scheduled_job := λ r,
  mk_scheduled_job (sj_purpose r) (sj_schedule_cron_task_uid r) (sj_cron_expression r) (sj_enabled r)
    (sj_last_executed_at r) (sj_created_by r) (sj_created_at r).

Record test_plan : Type := mk_test_plan {
  ctp_dossier_id : uuid;
  ctp_status : string;
  ctp_permitted_use : string;
  ctp_user_category : string;
  ctp_max_transactions : Z;
  ctp_max_aggregate_exposure : Z;
  ctp_starts_at : Z;
  ctp_ends_at : Z;
  ctp_success_metrics_uri : string;
  ctp_wind_down_uri : string;
  ctp_documented_by : string;
  ctp_documented_at : Z
}.
#[export] Instance test_plan_eta : Eta test_plan := λ r,
  mk_test_plan (ctp_dossier_id r) (ctp_status r) (ctp_permitted_use r) (ctp_user_category r)
    (ctp_max_transactions r) (ctp_max_aggregate_exposure r) (ctp_starts_at r) (ctp_ends_at r)
    (ctp_success_metrics_uri r) (ctp_wind_down_uri r) (ctp_documented_by r) (ctp_documented_at r).

(** [cbn_sandbox_consumer_records], without the columns of a resolution, which no
    handler writes. *)
Record consumer_record : Type := mk_consumer_record {
  ccr_dossier_id : uuid;
  ccr_customer_id : uuid;
  ccr_record_kind : string;
  ccr_disclosure_version : option string;
  ccr_evidence_uri : string;
  ccr_details : string;
  ccr_status : string;
  ccr_recorded_by : string;
  ccr_recorded_at : Z
}.
#[export] Instance consumer_record_eta : Eta consumer_record := λ r,
  mk_consumer_record (ccr_dossier_id r) (ccr_customer_id r) (ccr_record_kind r) (ccr_disclosure_version r)
    (ccr_evidence_uri r) (ccr_details r) (ccr_status r) (ccr_recorded_by r)
    (ccr_recorded_at r).

Record sandbox_incident : Type := mk_sandbox_incident {
  csi_dossier_id : uuid;
  csi_kind : string;
  csi_severity : string;
  csi_occurred_at : Z;
  csi_detected_at : Z;
  csi_evidence_uri : string;
  csi_summary : string;
  csi_notification_status : string;
  csi_submission_reference : option string;
  csi_recorded_by : string;
  csi_recorded_at : Z
}.
#[export] Instance sandbox_incident_eta : Eta sandbox_incident := λ r,
  mk_sandbox_incident (csi_dossier_id r) (csi_kind r) (csi_severity r) (csi_occurred_at r)
    (csi_detected_at r) (csi_evidence_uri r) (csi_summary r) (csi_notification_status r)
    (csi_submission_reference r) (csi_recorded_by r) (csi_recorded_at r).

Record reporting_pack : Type := mk_reporting_pack {
  crp_dossier_id : uuid;
  crp_period_start : Z;
  crp_period_end : Z;
  crp_artifact_uri : string;
  crp_artifact_sha256 : string;
  crp_submission_status : string;
  crp_submission_reference : option string;
  crp_created_by : string;
  crp_created_at : Z
}.
#[export] Instance reporting_pack_eta : Eta reporting_pack := λ r,
  mk_reporting_pack (crp_dossier_id r) (crp_period_start r) (crp_period_end r) (crp_artifact_uri r)
    (crp_artifact_sha256 r) (crp_submission_status r) (crp_submission_reference r) (crp_created_by r)
    (crp_created_at r).

Record regulatory_profile : Type := mk_regulatory_profile {
  vrp_dossier_id : uuid;
  vrp_supervisory_path : string;
  vrp_operational_model_summary : string;
  vrp_recorded_by : string;
  vrp_recorded_at : Z
}.
#[export] Instance regulatory_profile_eta : Eta regulatory_profile := λ r,
  mk_regulatory_profile (vrp_dossier_id r) (vrp_supervisory_path r) (vrp_operational_model_summary r) (vrp_recorded_by r)
    (vrp_recorded_at r).

Record offshore_profile : Type := mk_offshore_profile {
  vop_dossier_id : uuid;
  vop_counterparty_id : uuid;
  vop_home_jurisdiction : string;
  vop_exposure_tier : string;
  vop_operating_summary : string;
  vop_recorded_by : string;
  vop_recorded_at : Z
}.
#[export] Instance offshore_profile_eta : Eta offshore_profile := λ r,
  mk_offshore_profile (vop_dossier_id r) (vop_counterparty_id r) (vop_home_jurisdiction r) (vop_exposure_tier r)
    (vop_operating_summary r) (vop_recorded_by r) (vop_recorded_at r).

Record imto_profile : Type := mk_imto_profile {
  imp_legal_entity_id : uuid;
  imp_operating_model_summary : string;
  imp_recorded_by : string;
  imp_recorded_at : Z
}.
#[export] Instance imto_profile_eta : Eta imto_profile := λ r,
  mk_imto_profile (imp_legal_entity_id r) (imp_operating_model_summary r) (imp_recorded_by r) (imp_recorded_at r).

(** The five readiness registers; each has a table of evidence items, and all but
    the supervisory one a table of assessments. *)
Inductive readiness_register : Type :=
  | RegSandbox
  | RegSupervisory
  | RegTravelRule
  | RegOffshore
  | RegImto.
Definition readiness_register_text (x : readiness_register) : string :=
  match x with
  | RegSandbox => "cbn_sandbox"
  | RegSupervisory => "vasp_regulatory"
  | RegTravelRule => "vasp_travel_rule"
  | RegOffshore => "vasp_offshore_counterparty"
  | RegImto => "imto_readiness"
  end.
#[export] Instance readiness_register_enum : PgEnum readiness_register.
Proof.
  pg_enum [RegSandbox; RegSupervisory; RegTravelRule; RegOffshore; RegImto] readiness_register_text.
Defined.

(** A row of one of the evidence-item tables; the subject is a dossier or a
    profile, and a travel-rule route names a counterparty too. *)
Record readiness_item : Type := mk_readiness_item {
  rit_subject : uuid;
  rit_counterparty : option uuid;
  rit_category : string;
  rit_evidence_uri : string;
  rit_evidence_sha256 : string;
  rit_recorded_by : string;
  rit_recorded_at : Z
}.
#[export] Instance readiness_item_eta : Eta readiness_item := λ r,
  mk_readiness_item (rit_subject r) (rit_counterparty r) (rit_category r) (rit_evidence_uri r)
    (rit_evidence_sha256 r) (rit_recorded_by r) (rit_recorded_at r).

(** A row of one of the assessment tables. The columns that must be FALSE and are
    never written are left out; only the sandbox table has codes and a plan. *)
Record readiness_assessment : Type := mk_readiness_assessment {
  ras_subject : uuid;
  ras_counterparty : option uuid;
  ras_required_categories : list string;
  ras_recorded_categories : list string;
  ras_missing_categories : list string;
  ras_inconsistency_codes : list string;
  ras_documented_test_plan : bool;
  ras_outcome : string;
  ras_reviewer_rationale : string;
  ras_assessed_by : string;
  ras_assessed_at : Z
}.
#[export] Instance readiness_assessment_eta : Eta readiness_assessment := λ r,
  mk_readiness_assessment (ras_subject r) (ras_counterparty r) (ras_required_categories r) (ras_recorded_categories r)
    (ras_missing_categories r) (ras_inconsistency_codes r) (ras_documented_test_plan r) (ras_outcome r)
    (ras_reviewer_rationale r) (ras_assessed_by r) (ras_assessed_at r).

(** The tables of access, document intelligence, the ledger projection,
    reporting, service health, schedules and dossiers, grouped in a record of their own. *)
Record more_tables : Type := mk_more_tables {
  more_user_role_assignments : gmap uuid user_role_assignment;
  more_operator_role_assignments : gmap string operator_role_assignment;
  more_external_stakeholder_assignments : gmap uuid external_assignment;
  more_external_stakeholder_evidence : gmap uuid external_evidence;
  more_operator_access_requests : gmap string access_request;
  more_kyc_documents : gmap uuid kyc_document;
  more_kyc_document_upload_intents : gmap uuid upload_intent;
  more_verification_consents : gmap uuid verification_consent;
  more_document_analysis_jobs : gmap uuid analysis_job;
  more_document_analysis_evidence : gmap uuid analysis_evidence;
  more_verification_reviewer_decisions : gmap uuid reviewer_decision;
  more_customer_destination_counterparties : gmap uuid destination_counterparty;
  more_customer_use_case_gate_decisions : gmap uuid use_case_decision;
  more_ledger_account_bindings : gmap uuid account_binding;
  more_tigerbeetle_transfer_facts : gmap uuid transfer_fact;
  more_legal_entities : gmap uuid legal_entity;
  more_regulatory_reports : gmap uuid regulatory_report;
  more_counterparty_risk_assessments : gmap uuid risk_assessment;
  more_treasury_recommendations : gmap uuid treasury_recommendation;
  more_service_health_samples : gmap uuid health_sample;
  more_scheduled_jobs : gmap uuid scheduled_job;
  more_cbn_sandbox_test_plans : gmap uuid test_plan;
  more_cbn_sandbox_consumer_records : gmap uuid consumer_record;
  more_cbn_sandbox_incidents : gmap uuid sandbox_incident;
  more_cbn_sandbox_reporting_packs : gmap uuid reporting_pack;
  more_vasp_regulatory_profiles : gmap uuid regulatory_profile;
  more_vasp_offshore_counterparty_profiles : gmap uuid offshore_profile;
  more_imto_readiness_profiles : gmap uuid imto_profile;
  more_readiness_item_tables : gmap readiness_register (gmap uuid readiness_item);
  more_readiness_assessment_tables : gmap readiness_register (gmap uuid readiness_assessment)
}.
#[export] Instance more_tables_eta : Eta more_tables := λ m,
  mk_more_tables (more_user_role_assignments m) (more_operator_role_assignments m)
    (more_external_stakeholder_assignments m) (more_external_stakeholder_evidence m)
    (more_operator_access_requests m) (more_kyc_documents m)
    (more_kyc_document_upload_intents m) (more_verification_consents m)
    (more_document_analysis_jobs m) (more_document_analysis_evidence m)
    (more_verification_reviewer_decisions m) (more_customer_destination_counterparties m)
    (more_customer_use_case_gate_decisions m) (more_ledger_account_bindings m)
    (more_tigerbeetle_transfer_facts m) (more_legal_entities m)
    (more_regulatory_reports m) (more_counterparty_risk_assessments m)
    (more_treasury_recommendations m) (more_service_health_samples m)
    (more_scheduled_jobs m) (more_cbn_sandbox_test_plans m)
    (more_cbn_sandbox_consumer_records m) (more_cbn_sandbox_incidents m)
    (more_cbn_sandbox_reporting_packs m) (more_vasp_regulatory_profiles m)
    (more_vasp_offshore_counterparty_profiles m) (more_imto_readiness_profiles m)
    (more_readiness_item_tables m) (more_readiness_assessment_tables m).

(** ** The database *)

Record db : Type := mk_db {
  activity_events : list activity_event;
  notification_deliveries : list notification_delivery;
  customers : gmap uuid customer;
  beneficiaries : gmap uuid beneficiary;
  counterparties : gmap uuid counterparty;
  counterparty_authorizations : gmap uuid counterparty_authorization;
  integration_connections : gmap uuid integration_connection;
  market_observations : gmap uuid market_observation;
  payment_orders : gmap uuid payment_order;
  payment_legs : gmap uuid payment_leg;
  rate_locks : gmap uuid rate_lock;
  aml_screening_checks : gmap uuid aml_screening_check;
  alert_policies : gmap uuid alert_policy;
  compliance_cases : gmap uuid compliance_case;
  compliance_alerts : gmap uuid compliance_alert;
  sar_str_filings : gmap uuid sar_str_filing;
  regulatory_deadlines : gmap uuid regulatory_deadline;
  treasury_buffer_policies : gmap uuid treasury_buffer_policy;
  liquidity_positions : gmap uuid liquidity_position;
  counterparty_onboardings : gmap uuid counterparty_onboarding;
  gate_decisions : gmap uuid gate_decision;
  control_evidence_outbox : gmap uuid outbox_row;
  corridor_policies : gmap uuid corridor_policy;
  operator_onboarding_records : gmap uuid operator_onboarding_record;
  auditor_engagement_records : gmap uuid auditor_engagement_record;
  cbn_sandbox_dossiers : gmap uuid cbn_sandbox_dossier;
  assurance_items : gmap uuid assurance_item;
  sod_evaluation_runs : gmap uuid sod_evaluation_run;
  evidence_tables : gmap evidence_domain (gmap uuid evidence_item);
  decision_tables : gmap evidence_domain (gmap uuid dedicated_decision);
  more : more_tables
}.
#[export] Instance db_eta : Eta db := λ d,
  mk_db (activity_events d) (notification_deliveries d) (customers d)
    (beneficiaries d) (counterparties d) (counterparty_authorizations d)
    (integration_connections d) (market_observations d) (payment_orders d)
    (payment_legs d) (rate_locks d) (aml_screening_checks d)
    (alert_policies d) (compliance_cases d) (compliance_alerts d)
    (sar_str_filings d) (regulatory_deadlines d) (treasury_buffer_policies d)
    (liquidity_positions d) (counterparty_onboardings d) (gate_decisions d)
    (control_evidence_outbox d) (corridor_policies d) (operator_onboarding_records d)
    (auditor_engagement_records d) (cbn_sandbox_dossiers d) (assurance_items d)
    (sod_evaluation_runs d) (evidence_tables d) (decision_tables d)
    (more d).

Definition empty_db : db := mk_db [] [] ∅ ∅ ∅ ∅ ∅ ∅ ∅ ∅ ∅ ∅ ∅ ∅ ∅ ∅ ∅ ∅ ∅ ∅ ∅ ∅ ∅ ∅ ∅ ∅ ∅ ∅ ∅ ∅
  (mk_more_tables ∅ ∅ ∅ ∅ ∅ ∅ ∅ ∅ ∅ ∅ ∅ ∅ ∅ ∅ ∅ ∅ ∅ ∅ ∅ ∅ ∅ ∅ ∅ ∅ ∅ ∅ ∅ ∅ ∅ ∅).

(** The grouped tables as tables of the database. *)
Definition user_role_assignments (d : db) : gmap uuid user_role_assignment := more_user_role_assignments (more d).
#[export] Instance user_role_assignments_setter : Setter user_role_assignments := λ f d, d <| more ::= set more_user_role_assignments f |>.
Definition operator_role_assignments (d : db) : gmap string operator_role_assignment := more_operator_role_assignments (more d).
#[export] Instance operator_role_assignments_setter : Setter operator_role_assignments := λ f d, d <| more ::= set more_operator_role_assignments f |>.
Definition external_stakeholder_assignments (d : db) : gmap uuid external_assignment := more_external_stakeholder_assignments (more d).
#[export] Instance external_stakeholder_assignments_setter : Setter external_stakeholder_assignments := λ f d, d <| more ::= set more_external_stakeholder_assignments f |>.
Definition external_stakeholder_evidence (d : db) : gmap uuid external_evidence := more_external_stakeholder_evidence (more d).
#[export] Instance external_stakeholder_evidence_setter : Setter external_stakeholder_evidence := λ f d, d <| more ::= set more_external_stakeholder_evidence f |>.
Definition operator_access_requests (d : db) : gmap string access_request := more_operator_access_requests (more d).
#[export] Instance operator_access_requests_setter : Setter operator_access_requests := λ f d, d <| more ::= set more_operator_access_requests f |>.
Definition kyc_documents (d : db) : gmap uuid kyc_document := more_kyc_documents (more d).
#[export] Instance kyc_documents_setter : Setter kyc_documents := λ f d, d <| more ::= set more_kyc_documents f |>.
Definition kyc_document_upload_intents (d : db) : gmap uuid upload_intent := more_kyc_document_upload_intents (more d).
#[export] Instance kyc_document_upload_intents_setter : Setter kyc_document_upload_intents := λ f d, d <| more ::= set more_kyc_document_upload_intents f |>.
Definition verification_consents (d : db) : gmap uuid verification_consent := more_verification_consents (more d).
#[export] Instance verification_consents_setter : Setter verification_consents := λ f d, d <| more ::= set more_verification_consents f |>.
Definition document_analysis_jobs (d : db) : gmap uuid analysis_job := more_document_analysis_jobs (more d).
#[export] Instance document_analysis_jobs_setter : Setter document_analysis_jobs := λ f d, d <| more ::= set more_document_analysis_jobs f |>.
Definition document_analysis_evidence (d : db) : gmap uuid analysis_evidence := more_document_analysis_evidence (more d).
#[export] Instance document_analysis_evidence_setter : Setter document_analysis_evidence := λ f d, d <| more ::= set more_document_analysis_evidence f |>.
Definition verification_reviewer_decisions (d : db) : gmap uuid reviewer_decision := more_verification_reviewer_decisions (more d).
#[export] Instance verification_reviewer_decisions_setter : Setter verification_reviewer_decisions := λ f d, d <| more ::= set more_verification_reviewer_decisions f |>.
Definition customer_destination_counterparties (d : db) : gmap uuid destination_counterparty := more_customer_destination_counterparties (more d).
#[export] Instance customer_destination_counterparties_setter : Setter customer_destination_counterparties := λ f d, d <| more ::= set more_customer_destination_counterparties f |>.
Definition customer_use_case_gate_decisions (d : db) : gmap uuid use_case_decision := more_customer_use_case_gate_decisions (more d).
#[export] Instance customer_use_case_gate_decisions_setter : Setter customer_use_case_gate_decisions := λ f d, d <| more ::= set more_customer_use_case_gate_decisions f |>.
Definition ledger_account_bindings (d : db) : gmap uuid account_binding := more_ledger_account_bindings (more d).
#[export] Instance ledger_account_bindings_setter : Setter ledger_account_bindings := λ f d, d <| more ::= set more_ledger_account_bindings f |>.
Definition tigerbeetle_transfer_facts (d : db) : gmap uuid transfer_fact := more_tigerbeetle_transfer_facts (more d).
#[export] Instance tigerbeetle_transfer_facts_setter : Setter tigerbeetle_transfer_facts := λ f d, d <| more ::= set more_tigerbeetle_transfer_facts f |>.
Definition legal_entities (d : db) : gmap uuid legal_entity := more_legal_entities (more d).
#[export] Instance legal_entities_setter : Setter legal_entities := λ f d, d <| more ::= set more_legal_entities f |>.
Definition regulatory_reports (d : db) : gmap uuid regulatory_report := more_regulatory_reports (more d).
#[export] Instance regulatory_reports_setter : Setter regulatory_reports := λ f d, d <| more ::= set more_regulatory_reports f |>.
Definition counterparty_risk_assessments (d : db) : gmap uuid risk_assessment := more_counterparty_risk_assessments (more d).
#[export] Instance counterparty_risk_assessments_setter : Setter counterparty_risk_assessments := λ f d, d <| more ::= set more_counterparty_risk_assessments f |>.
Definition treasury_recommendations (d : db) : gmap uuid treasury_recommendation := more_treasury_recommendations (more d).
#[export] Instance treasury_recommendations_setter : Setter treasury_recommendations := λ f d, d <| more ::= set more_treasury_recommendations f |>.
Definition service_health_samples (d : db) : gmap uuid health_sample := more_service_health_samples (more d).
#[export] Instance service_health_samples_setter : Setter service_health_samples := λ f d, d <| more ::= set more_service_health_samples f |>.
Definition scheduled_jobs (d : db) : gmap uuid scheduled_job := more_scheduled_jobs (more d).
#[export] Instance scheduled_jobs_setter : Setter scheduled_jobs := λ f d, d <| more ::= set more_scheduled_jobs f |>.
Definition cbn_sandbox_test_plans (d : db) : gmap uuid test_plan := more_cbn_sandbox_test_plans (more d).
#[export] Instance cbn_sandbox_test_plans_setter : Setter cbn_sandbox_test_plans := λ f d, d <| more ::= set more_cbn_sandbox_test_plans f |>.
Definition cbn_sandbox_consumer_records (d : db) : gmap uuid consumer_record := more_cbn_sandbox_consumer_records (more d).
#[export] Instance cbn_sandbox_consumer_records_setter : Setter cbn_sandbox_consumer_records := λ f d, d <| more ::= set more_cbn_sandbox_consumer_records f |>.
Definition cbn_sandbox_incidents (d : db) : gmap uuid sandbox_incident := more_cbn_sandbox_incidents (more d).
#[export] Instance cbn_sandbox_incidents_setter : Setter cbn_sandbox_incidents := λ f d, d <| more ::= set more_cbn_sandbox_incidents f |>.
Definition cbn_sandbox_reporting_packs (d : db) : gmap uuid reporting_pack := more_cbn_sandbox_reporting_packs (more d).
#[export] Instance cbn_sandbox_reporting_packs_setter : Setter cbn_sandbox_reporting_packs := λ f d, d <| more ::= set more_cbn_sandbox_reporting_packs f |>.
Definition vasp_regulatory_profiles (d : db) : gmap uuid regulatory_profile := more_vasp_regulatory_profiles (more d).
#[export] Instance vasp_regulatory_profiles_setter : Setter vasp_regulatory_profiles := λ f d, d <| more ::= set more_vasp_regulatory_profiles f |>.
Definition vasp_offshore_counterparty_profiles (d : db) : gmap uuid offshore_profile := more_vasp_offshore_counterparty_profiles (more d).
#[export] Instance vasp_offshore_counterparty_profiles_setter : Setter vasp_offshore_counterparty_profiles := λ f d, d <| more ::= set more_vasp_offshore_counterparty_profiles f |>.
Definition imto_readiness_profiles (d : db) : gmap uuid imto_profile := more_imto_readiness_profiles (more d).
#[export] Instance imto_readiness_profiles_setter : Setter imto_readiness_profiles := λ f d, d <| more ::= set more_imto_readiness_profiles f |>.
Definition readiness_item_tables (d : db) : gmap readiness_register (gmap uuid readiness_item) := more_readiness_item_tables (more d).
#[export] Instance readiness_item_tables_setter : Setter readiness_item_tables := λ f d, d <| more ::= set more_readiness_item_tables f |>.
Definition readiness_assessment_tables (d : db) : gmap readiness_register (gmap uuid readiness_assessment) := more_readiness_assessment_tables (more d).
#[export] Instance readiness_assessment_tables_setter : Setter readiness_assessment_tables := λ f d, d <| more ::= set more_readiness_assessment_tables f |>.
