(* ===== verification/Schema.v ===== *)
(** * Statements and constraints of the control plane's tables

    The statements the handlers issue, and the rules of the schema
    (src/database/postgresql) that an [INSERT] is checked against: [CHECK]
    constraints, primary keys, [UNIQUE] constraints and foreign keys, in the
    order PostgreSQL applies them. A transaction is executed as a whole: the row
    locks ([FOR UPDATE], [FOR KEY SHARE]) are what makes this order of
    transactions exist, so they have no counterpart here. *)

From S2P Require Import Prelude Js Numeric Rows.

Local Open Scope string_scope.
Local Open Scope Z_scope.

#[global] Arguments pg_text {_ _} _ : simpl never.

(** What a transaction sees of the world: the application clock
    ([new Date()], milliseconds), the transaction timestamp ([now()],
    microseconds) and [current_date] (a day number in the session's zone). *)
Record env : Type := mk_env {
  app_now : Z;
  db_now : Z;
  current_date : Z
}.

(** ** Statements *)

(** The rules of a table: [CHECK]s, [UNIQUE]s (against the other rows) and
    foreign keys; each entry pairs the condition with what its violation
    raises. *)
Record table_rules (R : Type) : Type := {
  checks : R → list (bool * pg_violation);
  uniques : gmap uuid R → R → list (bool * pg_violation);
  references : db → R → list (bool * pg_violation)
}.
Arguments checks {R}. Arguments uniques {R}. Arguments references {R}.

Fixpoint enforce (rs : list (bool * pg_violation)) : Tx db unit :=
  match rs with
  | [] => mret tt
  | (b, v) :: rs => _ ← throw_if (negb b) (PgError v); enforce rs
  end.

Lemma enforce_ok rs d u d' :
  enforce rs d = Ok (u, d') ↔ Forall (λ r, r.1 = true) rs ∧ d' = d.
Proof.
  revert d. induction rs as [|[b v] rs IH]; intros d; cbn [enforce].
  - rewrite mret_ok. destruct u. naive_solver.
  - rewrite tx_bind_ok, Forall_cons. simpl. split.
    + intros (? & ? & [Hb ->]%throw_if_ok & [? ->]%IH). by apply negb_false_iff in Hb.
    + intros [[-> ?] ->]. exists tt, d. by rewrite throw_if_ok, IH.
Qed.

Lemma enforce_true rs d : Forall (λ r, r.1 = true) rs → enforce rs d = Ok (tt, d).
Proof. intros. by apply enforce_ok. Qed.

Section statements.
Context {R : Type} (tbl : db → gmap uuid R) `{!Setter tbl}.

(** [SELECT … WHERE id = $1]. *)
Definition select_by_id (id : uuid) : Tx db (option R) := gets (λ d, tbl d !! id).

(** [INSERT INTO tbl … VALUES row]. *)
Definition insert_row (name : string) (rules : table_rules R) (id : uuid) (row : R) : Tx db unit :=
  _ ← enforce (checks rules row);
  d ← gets (λ d, d);
  _ ← throw_if (bool_decide (is_Some (tbl d !! id))) (PgError (PrimaryKeyViolation name));
  _ ← enforce (uniques rules (tbl d) row);
  _ ← modify (set tbl (<[id := row]>));
  d' ← gets (λ d, d);
  enforce (references rules d' row).

(** [UPDATE tbl SET … WHERE id = $1], on columns that no rule mentions. *)
Definition update_row (id : uuid) (f : R → R) : Tx db unit := modify (set tbl (alter f id)).

Lemma insert_row_ok name rules id row d u d' :
  insert_row name rules id row d = Ok (u, d') ↔
  Forall (λ r, r.1 = true) (checks rules row) ∧ tbl d !! id = None ∧
  Forall (λ r, r.1 = true) (uniques rules (tbl d) row) ∧
  Forall (λ r, r.1 = true) (references rules d' row) ∧
  d' = set tbl (<[id := row]>) d.
Proof.
  unfold insert_row. split.
  - intros H. tx_inv. repeat match goal with H : enforce _ _ = Ok _ |- _ =>
      apply enforce_ok in H as [? ?]; simplify_eq end.
    unbool. split_and!; auto. by apply eq_None_not_Some.
  - intros (Hc & Hn & Hu & Hr & ->). destruct u.
    unfold mbind, tx_bind, gets, throw_if, modify.
    rewrite (enforce_true (checks rules row)) by done.
    rewrite bool_decide_eq_false_2 by (rewrite Hn; apply is_Some_None).
    rewrite (enforce_true (uniques rules _ row)) by done. by apply enforce_true.
Qed.
End statements.

(** [INSERT … ON CONFLICT (…) DO NOTHING RETURNING id]: [clash] finds a row with
    the same key. *)
Definition insert_or_nothing {R} (tbl : db → gmap uuid R) `{!Setter tbl} (name : string) (rules : table_rules R)
    (clash : R → bool) (id : uuid) (row : R) : Tx db (option uuid) :=
  _ ← enforce (checks rules row);
  taken ← gets (λ d, any (λ _ x, clash x) (tbl d));
  if (taken : bool) then mret None
  else _ ← insert_row tbl name rules id row; mret (Some id).

Lemma insert_or_nothing_ok {R} (tbl : db → gmap uuid R) `{!Setter tbl} name rules clash id row d o d' :
  insert_or_nothing tbl name rules clash id row d = Ok (o, d') →
  Forall (λ r, r.1 = true) (checks rules row) ∧
  ((o = None ∧ d' = d ∧ any (λ _ x, clash x) (tbl d) = true) ∨
   (o = Some id ∧ insert_row tbl name rules id row d = Ok (tt, d') ∧ any (λ _ x, clash x) (tbl d) = false)).
Proof.
  unfold insert_or_nothing. intros H. apply tx_bind_ok in H as ([] & d1 & [Hc ->]%enforce_ok & H).
  split; [done|]. apply tx_bind_ok in H as (b & d2 & [<- ->]%gets_ok & H).
  destruct (any _ _); tx_inv; [by left|right]. by match goal with u : unit |- _ => destruct u end.
Qed.

(** [INSERT INTO activity_events]: the log only grows at its end. *)
Definition insert_activity (E : env) (a : actor) (action object_type : string)
    (object_id : option uuid) (metadata : json) : Tx db unit :=
  modify (set activity_events (λ l, (l ++
    [mk_activity_event (a_openId a) (a_role a) action object_type object_id (db_now E) metadata None])%list)).

(** The same with the correlation identifier given. *)
Definition insert_correlated_activity (E : env) (a : actor) (action object_type : string)
    (object_id : option uuid) (correlation : uuid) (metadata : json) : Tx db unit :=
  modify (set activity_events (λ l, (l ++
    [mk_activity_event (a_openId a) (a_role a) action object_type object_id (db_now E) metadata
       (Some correlation)])%list)).

(** Inversion of a successful statement. *)
Ltac rules_inv :=
  repeat match goal with
  | H : Forall _ (_ _ _) |- _ => progress simpl in H
  | H : Forall _ (_ _ _ _) |- _ => progress simpl in H
  | H : Forall _ (_ :: _) |- _ => apply Forall_cons in H as [? H]; simpl in *
  | H : Forall _ [] |- _ => clear H
  end.
Ltac db_step :=
  first
  [ tx_step
  | match goal with
    | H : insert_row _ _ _ _ _ _ = Ok _ |- _ => apply insert_row_ok in H as (? & ? & ? & ? & ?)
    | H : enforce _ _ = Ok _ |- _ => apply enforce_ok in H as [? ?]
    | H : select_by_id _ _ _ = Ok _ |- _ => unfold select_by_id in H
    | H : update_row _ _ _ _ = Ok _ |- _ => unfold update_row in H
    | H : (match ?x with (_, _) => _ end) _ = Ok _ |- _ => destruct x
    | H : (match ?x with Some _ => _ | None => _ end) _ = Ok _ |- _ => destruct x eqn:?
    | H : insert_activity _ _ _ _ _ _ _ = Ok _ |- _ => unfold insert_activity in H
    | H : insert_correlated_activity _ _ _ _ _ _ _ _ = Ok _ |- _ => unfold insert_correlated_activity in H
    end ].
Ltac db_inv := cbv zeta in *; repeat (db_step; simplify_eq/=); rules_inv; unbool.

(** A database keeps the past: the log of [d] is a prefix of the log of [d']. *)
Definition log_extends (d d' : db) : Prop := activity_events d `prefix_of` activity_events d'.
#[export] Instance log_extends_preorder : PreOrder log_extends.
Proof. split; unfold log_extends; [intros d; reflexivity | intros a b c; apply transitivity]. Qed.

Definition in_list (xs : list string) (s : string) : bool := bool_decide (s ∈ xs).

(** ** Rules of the tables *)

Definition fk {R} (tbl : db → gmap uuid R) (name : string) (d : db) (id : uuid) : bool * pg_violation :=
  (bool_decide (is_Some (tbl d !! id)), ForeignKeyViolation name).
Definition fk_opt {R} (tbl : db → gmap uuid R) (name : string) (d : db) (id : option uuid) : bool * pg_violation :=
  match id with Some id => fk tbl name d id | None => (true, ForeignKeyViolation name) end.
Definition unique {R} (same : R → bool) (name : string) (t : gmap uuid R) : bool * pg_violation :=
  (negb (any (λ _ r, same r) t), UniqueViolation name).

Definition rules_customers : table_rules customer := {|
  checks _ := [];
  uniques t r := [unique (λ x, bool_decide (cust_legal_name x = cust_legal_name r) &&
      bool_decide (cust_registration_identifier x = cust_registration_identifier r))
    "customers_legal_name_registration_identifier_key" t];
  references _ _ := [] |}.

Definition rules_beneficiaries : table_rules beneficiary := {|
  checks r := [(js_length (ben_country_code r) <=? 2, InvalidInput "character(2)")];
  uniques t r := [unique (λ x, bool_decide (ben_customer_id x = ben_customer_id r) &&
      bool_decide (ben_legal_name x = ben_legal_name r) &&
      bool_decide (ben_bank_or_wallet_reference x = ben_bank_or_wallet_reference r))
    "beneficiaries_customer_id_legal_name_bank_or_wallet_referen_key" t];
  references d r := [fk customers "beneficiaries_customer_id_fkey" d (ben_customer_id r)] |}.

Definition counterparty_types : list string :=
  ["licensed_psp"; "correspondent_bank"; "stablecoin_provider"; "fx_liquidity_provider";
   "custody_provider"; "kyc_provider"; "sanctions_provider"; "chain_analytics_provider";
   "notification_provider"; "regulatory_submission_provider"].

Definition rules_counterparties : table_rules counterparty := {|
  checks r := [(in_list counterparty_types (cp_counterparty_type r),
    CheckViolation "counterparties_counterparty_type_check")];
  uniques t r := [unique (λ x, bool_decide (cp_legal_name x = cp_legal_name r) &&
      bool_decide (cp_counterparty_type x = cp_counterparty_type r) &&
      bool_decide (cp_jurisdiction x = cp_jurisdiction r))
    "counterparties_legal_name_counterparty_type_jurisdiction_key" t];
  references _ _ := [] |}.

Definition rules_counterparty_authorizations : table_rules counterparty_authorization := {|
  checks _ := [];
  uniques t r := [unique (λ x, bool_decide (cpa_counterparty_id x = cpa_counterparty_id r) &&
      bool_decide (cpa_regulator x = cpa_regulator r) &&
      bool_decide (cpa_licence_reference x = cpa_licence_reference r))
    "counterparty_authorizations_counterparty_id_regulator_licen_key" t];
  references d r := [fk counterparties "counterparty_authorizations_counterparty_id_fkey" d
    (cpa_counterparty_id r)] |}.

Definition integration_categories : list string :=
  ["payment_rail"; "fx_rate"; "stablecoin_market_data"; "kyc_kyb"; "sanctions";
   "chain_analytics"; "notification"; "regulatory_submission"].

Definition rules_integration_connections : table_rules integration_connection := {|
  checks r := [(in_list integration_categories (ic_category r),
      CheckViolation "integration_connections_category_check");
    (in_list ["sandbox"; "production"] (ic_environment r),
      CheckViolation "integration_connections_environment_check")];
  uniques t r := [unique (λ x, bool_decide (ic_counterparty_id x = ic_counterparty_id r) &&
      bool_decide (ic_category x = ic_category r) &&
      bool_decide (ic_environment x = ic_environment r))
    "integration_connections_counterparty_id_category_environmen_key" t];
  references d r := [fk counterparties "integration_connections_counterparty_id_fkey" d
    (ic_counterparty_id r)] |}.

Definition rules_market_observations : table_rules market_observation := {|
  checks r := [(fits_numeric_30_12 (mo_rate r), NumericOverflow "rate");
    (0 <? mo_rate r, CheckViolation "market_observations_rate_check");
    (negb (bool_decide (mo_base_asset r = mo_quote_asset r)),
      CheckViolation "market_observations_check")];
  uniques _ _ := [];
  references d r := [fk integration_connections "market_observations_integration_connection_id_fkey" d
    (mo_integration_connection_id r)] |}.

Definition rules_rate_locks : table_rules rate_lock := {|
  checks r := [(fits_numeric_30_12 (rl_locked_rate r), NumericOverflow "locked_rate");
    (0 <? rl_locked_rate r, CheckViolation "rate_locks_locked_rate_check");
    (negb (bool_decide (rl_base_asset r = rl_quote_asset r)), CheckViolation "rate_locks_check")];
  uniques _ _ := [];
  references d r := [
    fk market_observations "rate_locks_market_observation_id_fkey" d (rl_market_observation_id r);
    fk_opt payment_orders "rate_locks_payment_order_id_fkey" d (rl_payment_order_id r)] |}.

Definition rules_payment_orders : table_rules payment_order := {|
  checks r := [(fits_numeric_30_12 (po_source_amount r), NumericOverflow "source_amount");
    (match po_target_amount r with Some v => fits_numeric_30_12 v | None => true end,
      NumericOverflow "target_amount");
    (0 <? po_source_amount r, CheckViolation "payment_orders_source_amount_check")];
  uniques t r := [unique (λ x, bool_decide (po_idempotency_key x = po_idempotency_key r))
    "payment_orders_idempotency_key_key" t];
  references d r := [
    fk customers "payment_orders_customer_id_fkey" d (po_customer_id r);
    fk beneficiaries "payment_orders_beneficiary_id_fkey" d (po_beneficiary_id r)] |}.

Definition rules_payment_legs : table_rules payment_leg := {|
  checks r := [(pl_sequence_number r <=? 2147483647, InvalidInput "integer");
    (0 <? pl_sequence_number r, CheckViolation "payment_legs_sequence_number_check")];
  uniques t r := [unique (λ x, bool_decide (pl_payment_order_id x = pl_payment_order_id r) &&
      bool_decide (pl_sequence_number x = pl_sequence_number r))
    "payment_legs_payment_order_id_sequence_number_key" t];
  references d r := [
    fk payment_orders "payment_legs_payment_order_id_fkey" d (pl_payment_order_id r);
    fk_opt counterparties "payment_legs_counterparty_id_fkey" d (pl_counterparty_id r)] |}.

Definition rules_aml_screening_checks : table_rules aml_screening_check := {|
  checks r := [(in_list ["beneficiary"; "customer"; "payment"; "counterparty"] (aml_screening_scope r),
      CheckViolation "aml_screening_checks_screening_scope_check");
    (is_sha256_hex (aml_evidence_sha256 r), CheckViolation "aml_screening_checks_evidence_sha256_check")];
  uniques t r := [unique (λ x,
      bool_decide (aml_integration_connection_id x = aml_integration_connection_id r) &&
      bool_decide (aml_provider_reference x = aml_provider_reference r))
    "aml_screening_checks_integration_connection_id_provider_ref_key" t];
  references d r := [
    fk_opt beneficiaries "aml_screening_checks_beneficiary_id_fkey" d (aml_beneficiary_id r);
    fk integration_connections "aml_screening_checks_integration_connection_id_fkey" d
      (aml_integration_connection_id r)] |}.

Definition rules_alert_policies : table_rules alert_policy := {|
  checks _ := []; uniques _ _ := []; references _ _ := [] |}.

Definition rules_compliance_cases : table_rules compliance_case := {|
  checks _ := [];
  uniques _ _ := [];
  references d r := [
    fk_opt payment_orders "compliance_cases_payment_order_id_fkey" d (cc_payment_order_id r);
    fk_opt customers "compliance_cases_customer_id_fkey" d (cc_customer_id r)] |}.

Definition some_text (o : option string) : bool :=
  match o with Some s => 8 <=? js_length (pg_trim s) | None => false end.
Definition is_some {A} (o : option A) : bool := bool_decide (is_Some o).

(** The state integrity constraints of [compliance_alerts]. *)
Definition alert_complete (r : compliance_alert) : bool :=
  match ca_state r with
  | AlertOpen => true
  | AlertAcknowledged => is_some (ca_acknowledged_by r) && is_some (ca_acknowledged_by_role r) &&
      is_some (ca_acknowledged_at r) && some_text (ca_acknowledgement_note r)
  | AlertEscalated => is_some (ca_escalated_case_id r) && is_some (ca_escalated_by r) &&
      is_some (ca_escalated_by_role r) && is_some (ca_escalated_at r)
  | AlertDismissed => is_some (ca_dismissed_by r) && is_some (ca_dismissed_by_role r) &&
      is_some (ca_dismissed_at r) && some_text (ca_dismissal_reason r)
  end.

Definition rules_compliance_alerts : table_rules compliance_alert := {|
  checks r := [(8 <=? js_length (pg_trim (ca_source_reference r)),
      CheckViolation "compliance_alerts_source_reference_check");
    (alert_complete r, CheckViolation "compliance_alerts_complete")];
  uniques t r := [unique (λ x, bool_decide (ca_alert_policy_id x = ca_alert_policy_id r) &&
      bool_decide (ca_source_reference x = ca_source_reference r))
    "compliance_alerts_alert_policy_id_source_reference_key" t];
  references d r := [
    fk alert_policies "compliance_alerts_alert_policy_id_fkey" d (ca_alert_policy_id r);
    fk_opt payment_orders "compliance_alerts_payment_order_id_fkey" d (ca_payment_order_id r);
    fk_opt customers "compliance_alerts_customer_id_fkey" d (ca_customer_id r);
    fk_opt counterparties "compliance_alerts_counterparty_id_fkey" d (ca_counterparty_id r);
    fk_opt compliance_cases "compliance_alerts_escalated_case_id_fkey" d (ca_escalated_case_id r)] |}.

Definition rules_sar_str_filings : table_rules sar_str_filing := {|
  checks r := [(in_list ["sar"; "str"] (ssf_filing_type r), InvalidInput "sar_str_filing_type")];
  uniques _ _ := [];
  references d r := [fk compliance_cases "sar_str_filings_compliance_case_id_fkey" d
    (ssf_compliance_case_id r)] |}.

Definition rules_regulatory_deadlines : table_rules regulatory_deadline := {|
  checks r := [(in_list ["CBN"; "CBK"; "SARB"] (rd_regulator r),
    CheckViolation "regulatory_deadlines_regulator_check")];
  uniques _ _ := []; references _ _ := [] |}.

(** The [CHECK] on [notification_deliveries.alert_type] (0002, never extended
    by 0041): four of the five alert types. *)
Definition delivery_type_ok (t : alert_type) : bool :=
  match t with AltSegregationOfDuties => false | _ => true end.

(** [INSERT INTO notification_deliveries]; the policy is a row the same
    transaction has read. *)
Definition insert_delivery (r : notification_delivery) : Tx db unit :=
  _ ← throw_if (negb (delivery_type_ok (nd_alert_type r)))
    (PgError (CheckViolation "notification_deliveries_alert_type_check"));
  modify (set notification_deliveries (λ l, (l ++ [r])%list)).

(** [UPDATE … WHERE id = $1] with the row constraints of the table. *)
Definition update_checked {R} (tbl : db → gmap uuid R) `{!Setter tbl} (rules : table_rules R)
    (id : uuid) (f : R → R) : Tx db unit :=
  d ← gets (λ d, d);
  match tbl d !! id with
  | Some r =>
      _ ← enforce (checks rules (f r));
      _ ← modify (set tbl (<[id := f r]>));
      d' ← gets (λ d, d);
      enforce (references rules d' (f r))
  | None => mret tt
  end.

Lemma update_checked_ok {R} (tbl : db → gmap uuid R) `{!Setter tbl} rules id f r d u d' :
  tbl d !! id = Some r →
  update_checked tbl rules id f d = Ok (u, d') ↔
  Forall (λ r, r.1 = true) (checks rules (f r)) ∧
  Forall (λ r, r.1 = true) (references rules d' (f r)) ∧ d' = set tbl (<[id := f r]>) d.
Proof.
  intros Hr. unfold update_checked. split.
  - intros Hu. apply tx_bind_ok in Hu as (d1 & d2 & [<- ->]%gets_ok & Hu). rewrite Hr in Hu.
    db_inv. done.
  - intros (Hc & Hf & ->). destruct u. eapply tx_bind_run; [apply gets_run|]. cbv beta. rewrite Hr.
    eapply tx_bind_run; [by apply enforce_true|]. eapply tx_bind_run; [apply modify_run|].
    eapply tx_bind_run; [apply gets_run|]. by apply enforce_true.
Qed.

(** The two array constraints are what [requireDistinctOverlays] ensures. *)
Definition rules_counterparty_onboardings : table_rules counterparty_onboarding := {|
  checks r := [(0 <? ob_cycle_number r, CheckViolation "counterparty_onboardings_cycle_number_check");
    ((1 <=? length (ob_country_overlays r))%nat && (length (ob_country_overlays r) <=? 3)%nat,
      CheckViolation "counterparty_onboardings_country_overlays_check")];
  uniques t r := [unique (λ x, bool_decide (ob_counterparty_id x = ob_counterparty_id r))
    "counterparty_onboardings_counterparty_id_key" t];
  references d r := [fk counterparties "counterparty_onboardings_counterparty_id_fkey" d
    (ob_counterparty_id r)] |}.

Definition rules_gate_decisions : table_rules gate_decision := {|
  checks r := [(0 <? gd_cycle_number r, CheckViolation "counterparty_onboarding_gate_decisions_cycle_number_check")];
  uniques t r := [unique (λ x, bool_decide (gd_onboarding_id x = gd_onboarding_id r) &&
      bool_decide (gd_cycle_number x = gd_cycle_number r) && bool_decide (gd_gate x = gd_gate r) &&
      bool_decide (gd_decided_role x = gd_decided_role r))
    "counterparty_onboarding_gate_decisions_key" t];
  references d r := [fk counterparty_onboardings "counterparty_onboarding_gate_decisions_onboarding_id_fkey" d
    (gd_onboarding_id r)] |}.

(** [INSERT INTO control_evidence_outbox … ON CONFLICT (event_type,
    correlation_sha256) DO NOTHING], as the triggers of 0014 issue it. *)
Definition enqueue_evidence (id : uuid) (r : outbox_row) : Tx db unit :=
  d ← gets (λ d, d);
  if any (λ _ x, bool_decide (ox_event_type x = ox_event_type r) &&
                 bool_decide (ox_correlation_sha256 x = ox_correlation_sha256 r)) (control_evidence_outbox d)
  then mret tt
  else
    _ ← throw_if (bool_decide (is_Some (control_evidence_outbox d !! id)))
      (PgError (PrimaryKeyViolation "control_evidence_outbox"));
    modify (set control_evidence_outbox (<[id := r]>)).

(** ** Policies, lifecycles, assurance and dedicated evidence *)

Definition rules_corridor_policies : table_rules corridor_policy := {|
  checks r := [(in_list ["CBN"; "CBK"; "SARB"] (cpol_regulator r),
    CheckViolation "corridor_policies_regulator_check")];
  uniques t r := [unique (λ x, bool_decide (cpol_corridor x = cpol_corridor r) &&
      bool_decide (cpol_policy_version x = cpol_policy_version r))
    "corridor_policies_corridor_policy_version_key" t];
  references _ _ := [] |}.

(** A table without constraints beyond its primary key. *)
Definition no_rules {R} : table_rules R := {| checks _ := []; uniques _ _ := []; references _ _ := [] |}.

Definition is_none {A} (o : option A) : bool := negb (is_some o).
Definition https_opt (o : option string) : bool :=
  match o with None => true | Some s => startsWith s "https://" end.
Definition digest_opt (o : option string) : bool :=
  match o with None => true | Some s => is_sha256_hex s end.

(** The state [CHECK] of [vasp_readiness_assurance_items]. *)
Definition assurance_complete (r : assurance_item) : bool :=
  match ra_status r with
  | RaOpen => is_none (ra_evidence_uri r) && is_none (ra_evidence_sha256 r) &&
      is_none (ra_evidence_recorded_by r) && is_none (ra_evidence_recorded_at r) &&
      is_none (ra_external_verifier r) && is_none (ra_external_attestation_uri r) &&
      is_none (ra_external_attestation_sha256 r) && is_none (ra_verified_by r) &&
      is_none (ra_verified_at r) && is_none (ra_verification_rationale r) && is_none (ra_rejection_rationale r)
  | RaEvidenceRecorded => is_some (ra_evidence_uri r) && is_some (ra_evidence_sha256 r) &&
      is_some (ra_evidence_recorded_by r) && is_some (ra_evidence_recorded_at r) &&
      is_none (ra_external_verifier r) && is_none (ra_external_attestation_uri r) &&
      is_none (ra_external_attestation_sha256 r) && is_none (ra_verified_by r) &&
      is_none (ra_verified_at r) && is_none (ra_verification_rationale r) && is_none (ra_rejection_rationale r)
  | RaExternallyVerified => is_some (ra_evidence_uri r) && is_some (ra_evidence_sha256 r) &&
      is_some (ra_evidence_recorded_by r) && is_some (ra_evidence_recorded_at r) &&
      is_some (ra_external_verifier r) && is_some (ra_external_attestation_uri r) &&
      is_some (ra_external_attestation_sha256 r) && is_some (ra_verified_by r) &&
      is_some (ra_verified_at r) && is_some (ra_verification_rationale r) && is_none (ra_rejection_rationale r) &&
      negb (bool_decide (ra_verified_by r = ra_evidence_recorded_by r))
  | RaRejected => is_some (ra_evidence_uri r) && is_some (ra_evidence_sha256 r) &&
      is_some (ra_evidence_recorded_by r) && is_some (ra_evidence_recorded_at r) &&
      is_some (ra_rejection_rationale r)
  end.

Definition rules_assurance_items : table_rules assurance_item := {|
  checks r := [
    (bool_decide (ra_max_points r ∈ [6; 7; 8; 10; 13; 14]%Z), CheckViolation "vasp_readiness_assurance_items_max_points_check");
    (30 <=? js_length (pg_trim (ra_required_evidence r)), CheckViolation "vasp_readiness_assurance_items_required_evidence_check");
    (3 <=? js_length (pg_trim (ra_accountable_owner_role r)),
      CheckViolation "vasp_readiness_assurance_items_accountable_owner_role_check");
    (https_opt (ra_evidence_uri r), CheckViolation "vasp_readiness_assurance_items_evidence_uri_check");
    (digest_opt (ra_evidence_sha256 r), CheckViolation "vasp_readiness_assurance_items_evidence_sha256_check");
    (https_opt (ra_external_attestation_uri r),
      CheckViolation "vasp_readiness_assurance_items_external_attestation_uri_check");
    (digest_opt (ra_external_attestation_sha256 r),
      CheckViolation "vasp_readiness_assurance_items_external_attestation_sha256_check");
    (assurance_complete r, CheckViolation "vasp_readiness_assurance_items_check")];
  uniques t r := [unique (λ x, bool_decide (ra_dossier_id x = ra_dossier_id r) &&
      bool_decide (ra_area x = ra_area r)) "vasp_readiness_assurance_items_dossier_id_area_key" t];
  references d r := [fk cbn_sandbox_dossiers "vasp_readiness_assurance_items_dossier_id_fkey" d
    (ra_dossier_id r)] |}.

Definition sod_run_complete (r : sod_evaluation_run) : bool :=
  match sod_evaluation_state r with
  | SodClean => (sod_exception_count r =? 0) && is_some (sod_exception_digest r) && is_none (sod_error_summary r)
  | SodExceptionsDetected =>
      (0 <? sod_exception_count r) && is_some (sod_exception_digest r) && is_none (sod_error_summary r)
  | SodIndeterminate => (sod_exception_count r =? 0) && is_none (sod_exception_digest r) &&
      match sod_error_summary r with Some s => 8 <=? js_length (pg_trim s) | None => false end
  end.

Definition rules_sod_evaluation_runs : table_rules sod_evaluation_run := {|
  checks r := [
    (3 <=? js_length (pg_trim (sod_query_version r)), CheckViolation "segregation_of_duties_evaluation_runs_query_version_check");
    (0 <=? sod_exception_count r, CheckViolation "segregation_of_duties_evaluation_runs_exception_count_check");
    (digest_opt (sod_exception_digest r), CheckViolation "segregation_of_duties_evaluation_run_exception_digest_check");
    (sod_run_complete r, CheckViolation "segregation_of_duties_evaluation_runs_check")];
  uniques t r := [unique (λ x, bool_decide (sod_correlation_id x = sod_correlation_id r))
    "segregation_of_duties_evaluation_runs_correlation_id_key" t];
  references _ _ := [] |}.

(** The evidence and the decision table of a chapter. *)
Definition evidence_items (D : evidence_domain) (d : db) : gmap uuid evidence_item :=
  default ∅ (evidence_tables d !! D).
Definition dedicated_decisions (D : evidence_domain) (d : db) : gmap uuid dedicated_decision :=
  default ∅ (decision_tables d !! D).
#[export] Instance evidence_items_setter D : Setter (evidence_items D) := λ f d,
  d <| evidence_tables ::= <[D := f (evidence_items D d)]> |>.
#[export] Instance dedicated_decisions_setter D : Setter (dedicated_decisions D) := λ f d,
  d <| decision_tables ::= <[D := f (dedicated_decisions D d)]> |>.

Definition rules_evidence_items : table_rules evidence_item := {|
  checks _ := []; uniques _ _ := [];
  references d r := [fk counterparties "evidence_items_counterparty_id_fkey" d (ei_counterparty_id r)] |}.
Definition rules_dedicated_decisions : table_rules dedicated_decision := {|
  checks r := [(0 <? dd_cycle_number r, CheckViolation "gate_decisions_cycle_number_check")]; uniques _ _ := [];
  references d r := [fk counterparty_onboardings "gate_decisions_onboarding_id_fkey" d (dd_onboarding_id r)] |}.
