(* ===== verification/Parties.v ===== *)
(** * Customers, beneficiaries, screening evidence and counterparties

    The handlers of src/apps/control-plane/server/postgres.ts that create the
    parties of a payment, record AML screening evidence about a beneficiary
    and carry a counterparty's licence authorisation through its lifecycle. *)

From S2P Require Import Prelude Js Numeric Rows Schema.

Local Open Scope string_scope.
Local Open Scope Z_scope.

(** ** Customers and beneficiaries *)

Record create_customer_input : Type := mk_create_customer_input {
  cci_legalName : string;
  cci_registrationIdentifier : string
}.

Definition createPostgresCustomer (E : env) (a : actor) (new_id : uuid)
    (input : create_customer_input) : Act db (uuid * customer) :=
  transaction (
    let row := mk_customer (cci_legalName input) (cci_registrationIdentifier input) CaseOpen (db_now E) None None None None in
    _ ← insert_row customers "customers" rules_customers new_id row;
    _ ← insert_activity E a "customer.created" "customer" (Some new_id)
      (JObj [("legalName", JStr (cci_legalName input));
             ("registrationIdentifier", JStr (cci_registrationIdentifier input));
             ("source", JStr "postgres-control-plane")]);
    mret (new_id, row)).

Record create_beneficiary_input : Type := mk_create_beneficiary_input {
  cbi_customerId : uuid;
  cbi_legalName : string;
  cbi_countryCode : string;
  cbi_bankOrWalletReference : string
}.

Definition createPostgresBeneficiary (E : env) (a : actor) (new_id : uuid)
    (input : create_beneficiary_input) : Act db (uuid * beneficiary) :=
  transaction (
    customer ← select_by_id customers (cbi_customerId input);
    _ ← require customer
      (JsError "A canonical customer record is required before creating a beneficiary");
    let row := mk_beneficiary (cbi_customerId input) (cbi_legalName input) (cbi_countryCode input)
      (cbi_bankOrWalletReference input) ScrNotRun (db_now E) in
    _ ← insert_row beneficiaries "beneficiaries" rules_beneficiaries new_id row;
    _ ← insert_activity E a "beneficiary.created" "beneficiary" (Some new_id)
      (JObj [("customerId", JUuid (cbi_customerId input));
             ("countryCode", JStr (cbi_countryCode input));
             ("source", JStr "postgres-control-plane")]);
    mret (new_id, row)).

(** ** Screening *)

Record screening_input : Type := mk_screening_input {
  sci_beneficiaryId : uuid;
  sci_integrationConnectionId : uuid;
  sci_correlationId : string;
  sci_screeningState : screening_state;
  sci_providerReference : string;
  sci_sourceVersion : string;
  sci_evidenceSha256 : string;
  sci_screenedAt : Z
}.

(** [SELECT screened_at … ORDER BY screened_at DESC, recorded_at DESC LIMIT 1]:
    only the instant is read, so it is the greatest one. *)
Definition latest_screening (t : gmap uuid aml_screening_check) (ben : uuid) : option Z :=
  match select (λ _ c, bool_decide (aml_beneficiary_id c = Some ben)) t with
  | [] => None
  | (_, c) :: l => Some (foldr (λ r m, Z.max (aml_screened_at r.2) m) (aml_screened_at c) l)
  end.

Definition screening_integration_ok (ic : integration_connection) : bool :=
  bool_decide (ic_state ic = IntActive) && in_list ["sanctions"; "kyc_kyb"] (ic_category ic).

Definition recordPostgresBeneficiaryScreening (E : env) (a : actor) (new_id : uuid)
    (input : screening_input) : Act db (uuid * uuid * screening_state) :=
  transaction (
    beneficiary ← select_by_id beneficiaries (sci_beneficiaryId input);
    _ ← require beneficiary
      (JsError "A canonical beneficiary record is required before recording screening");
    integration ← gets (λ d,
      ic ← integration_connections d !! sci_integrationConnectionId input;
      guard (screening_integration_ok ic);; Some ic);
    _ ← require integration
      (JsError "An active sanctions or KYC/KYB integration is required before recording beneficiary screening");
    latest ← gets (λ d, latest_screening (aml_screening_checks d) (sci_beneficiaryId input));
    _ ← throw_if (match latest with Some t => sci_screenedAt input <? js_of_pg t | None => false end)
      (JsError "Stale beneficiary screening evidence cannot replace a newer screening decision");
    _ ← insert_row aml_screening_checks "aml_screening_checks" rules_aml_screening_checks new_id
      (mk_aml_screening_check (Some (sci_beneficiaryId input)) (sci_integrationConnectionId input)
        (sci_correlationId input) "beneficiary" (sci_screeningState input)
        (sci_providerReference input) (sci_sourceVersion input) (sci_evidenceSha256 input)
        (pg_of_js (sci_screenedAt input)) (db_now E));
    _ ← update_row beneficiaries (sci_beneficiaryId input)
      (λ b, b <| ben_screening_state := sci_screeningState input |>);
    _ ← insert_activity E a "beneficiary.screening_recorded" "beneficiary"
      (Some (sci_beneficiaryId input))
      (JObj [("screeningCheckId", JUuid new_id);
             ("integrationConnectionId", JUuid (sci_integrationConnectionId input));
             ("correlationId", JStr (sci_correlationId input));
             ("screeningState", JStr (pg_text (sci_screeningState input)));
             ("providerReference", JStr (sci_providerReference input));
             ("sourceVersion", JStr (sci_sourceVersion input));
             ("evidenceSha256", JStr (sci_evidenceSha256 input));
             ("screenedAt", JDate (sci_screenedAt input));
             ("source", JStr "postgres-control-plane")]);
    mret (new_id, sci_beneficiaryId input, sci_screeningState input)).

(** ** Counterparties and their authorisations *)

Record create_counterparty_input : Type := mk_create_counterparty_input {
  cpi_legalName : string;
  cpi_counterpartyType : string;
  cpi_jurisdiction : string
}.

Definition createPostgresCounterparty (E : env) (a : actor) (new_id : uuid)
    (input : create_counterparty_input) : Act db (uuid * counterparty) :=
  transaction (
    let row := mk_counterparty (cpi_legalName input) (cpi_counterpartyType input)
      (cpi_jurisdiction input) (db_now E) ∅ in
    _ ← insert_row counterparties "counterparties" rules_counterparties new_id row;
    _ ← insert_activity E a "counterparty.created" "counterparty" (Some new_id)
      (JObj [("legalName", JStr (cpi_legalName input));
             ("counterpartyType", JStr (cpi_counterpartyType input));
             ("jurisdiction", JStr (cpi_jurisdiction input));
             ("source", JStr "postgres-control-plane")]);
    mret (new_id, row)).

Record create_authorization_input : Type := mk_create_authorization_input {
  cai_counterpartyId : uuid;
  cai_regulator : string;
  cai_licenceReference : string;
  cai_scopeDescription : string;
  cai_evidenceUri : string;
  cai_validFrom : Z;
  cai_validTo : option Z;
  cai_status : string
}.

(** [validFrom] and [validTo] are given as the day the driver writes for the
    [Date] (it depends on the zone of the process). *)
Definition createPostgresCounterpartyAuthorization (E : env) (a : actor) (new_id : uuid)
    (input : create_authorization_input) : Act db (uuid * counterparty_authorization) :=
  transaction (
    status ← require (of_text (cai_status input)) (PgError (InvalidInput "authorization_status"));
    let row := mk_counterparty_authorization (cai_counterpartyId input) (cai_regulator input)
      (cai_licenceReference input) (cai_scopeDescription input) (cai_evidenceUri input)
      (cai_validFrom input) (cai_validTo input) status None None in
    _ ← insert_row counterparty_authorizations "counterparty_authorizations"
      rules_counterparty_authorizations new_id row;
    _ ← insert_activity E a "counterparty_authorization.created" "counterparty_authorization" (Some new_id)
      (JObj [("counterpartyId", JUuid (cai_counterpartyId input));
             ("regulator", JStr (cai_regulator input));
             ("licenceReference", JStr (cai_licenceReference input));
             ("status", JStr (pg_text status));
             ("source", JStr "postgres-control-plane")]);
    mret (new_id, row)).

(** The [allowed] table of [transitionPostgresCounterpartyAuthorization]. *)
Definition authorizationTransitions : list (string * list string) :=
  [("pending_review", ["verified"; "rejected"; "suspended"]);
   ("verified", ["expired"; "suspended"]);
   ("suspended", ["pending_review"; "rejected"]);
   ("expired", ["pending_review"]);
   ("rejected", ["pending_review"])].

Definition transitionPostgresCounterpartyAuthorization (E : env) (a : actor)
    (authorizationId : uuid) (status : authorization_status) : Act db (uuid * authorization_status) :=
  transaction (
    current ← select_by_id counterparty_authorizations authorizationId;
    existing ← require current (JsError "PostgreSQL counterparty authorization was not found");
    _ ← throw_if (negb (table_allows authorizationTransitions (pg_text (cpa_status existing)) (pg_text status)))
      (JsError "invalid counterparty authorization lifecycle transition");
    _ ← update_row counterparty_authorizations authorizationId (λ r,
      let r := r <| cpa_status := status |> in
      if bool_decide (status = AuthVerified)
      then r <| cpa_verified_by := Some (a_openId a) |> <| cpa_verified_at := Some (db_now E) |>
      else r);
    _ ← insert_activity E a "counterparty_authorization.transitioned" "counterparty_authorization"
      (Some authorizationId)
      (JObj [("from", JStr (pg_text (cpa_status existing))); ("to", JStr (pg_text status));
             ("source", JStr "postgres-control-plane")]);
    mret (authorizationId, status)).

(** The rows that make a counterparty authorised today, as
    [createPostgresPaymentLeg] counts them. *)
Definition authorization_current (today : Z) (cp : uuid) (r : counterparty_authorization) : bool :=
  bool_decide (cpa_counterparty_id r = cp) && bool_decide (cpa_status r = AuthVerified) &&
  (cpa_valid_from r <=? today) &&
  match cpa_valid_to r with Some t => today <=? t | None => true end.
