(* ===== verification/RateLocks.v ===== *)
(** * Rate locks as src/apps/control-plane/server/postgres.ts creates and cancels them

    A rate lock copies the pair and the rate of a recorded market observation.
    This module also holds the cancellation the router exposes; the guarded
    cancellation of the payment workflow is in [PaymentWorkflow]. *)

From S2P Require Import Prelude Js Numeric Rows Schema.

Local Open Scope string_scope.
Local Open Scope Z_scope.

Module Postgres.

(** [recordActivity] of postgres.ts: the metadata is stored as given. *)
Definition recordActivity (E : env) (a : actor) (action objectType : string) (objectId : uuid)
    (metadata : list (string * json)) : Tx db unit :=
  insert_activity E a action objectType (Some objectId) (JObj metadata).

Record create_rate_lock_input : Type := mk_create_rate_lock_input {
  crl_marketObservationId : uuid;
  crl_corridor : corridor_code;
  crl_expiresAt : Z
}.

Definition createPostgresRateLock (E : env) (a : actor) (new_id : uuid)
    (input : create_rate_lock_input) : Act db (uuid * string * rate_lock_status) :=
  transaction (
    observation ← select_by_id market_observations (crl_marketObservationId input);
    source ← require observation
      (JsError "rate lock requires an existing canonical market observation");
    _ ← throw_if (crl_expiresAt input <=? app_now E)
      (JsError "rate lock expiry must be in the future");
    _ ← insert_row rate_locks "rate_locks" rules_rate_locks new_id
      (mk_rate_lock (crl_marketObservationId input) None (crl_corridor input)
        (mo_base_asset source) (mo_quote_asset source) (mo_rate source) LockLocked
        (pg_of_js (crl_expiresAt input)) (a_openId a) (db_now E));
    _ ← recordActivity E a "rate_lock.created" "rate_lock" new_id
      [("marketObservationId", JUuid (crl_marketObservationId input));
       ("corridor", JStr (pg_text (crl_corridor input)));
       ("lockedRate", JStr (numeric_text 12 (mo_rate source)));
       ("derivedFromObservationAt", JDate (js_of_pg (mo_observed_at source)));
       ("executionEnabled", JBool false)];
    mret (new_id, numeric_text 12 (mo_rate source), LockLocked)).

(** The cancellation behind the router's [cancelRateLock]. *)
Definition cancelPostgresRateLock (E : env) (a : actor) (rateLockId : uuid) :
    Act db (uuid * rate_lock_status) :=
  transaction (
    current ← select_by_id rate_locks rateLockId;
    existing ← require current (JsError "rate lock was not found");
    _ ← throw_if (negb (bool_decide (rl_status existing = LockLocked)))
      (JsError "only a locked rate lock can be cancelled");
    _ ← update_row rate_locks rateLockId (λ l, l <| rl_status := LockCancelled |>);
    _ ← recordActivity E a "rate_lock.cancelled" "rate_lock" rateLockId
      [("from", JStr (pg_text (rl_status existing))); ("to", JStr (pg_text LockCancelled))];
    mret (rateLockId, LockCancelled)).

End Postgres.
