(* ===== verification/PaymentWorkflow.v ===== *)
(** * Payment orders, payment legs and the life of a rate lock

    src/apps/control-plane/server/paymentWorkflow.ts, one definition per
    function. Identifiers that [gen_random_uuid()] supplies are arguments; a
    supplied identifier that exists already is a primary key violation. *)

From S2P Require Import Prelude Js Numeric Rows Schema Parties.

Local Open Scope string_scope.
Local Open Scope Z_scope.

Definition assertBeneficiaryScreeningClear (screeningState : string) : Tx db unit :=
  throw_if (negb (bool_decide (screeningState = "clear")))
    (JsError ("Beneficiary screening must be clear before drafting a payment order; current state is "
      +:+ screeningState)).

(** [{ ...metadata, source: "postgres-control-plane" }]. *)
Definition recordEvent (E : env) (a : actor) (action objectType : string) (objectId : uuid)
    (metadata : list (string * json)) : Tx db unit :=
  insert_activity E a action objectType (Some objectId)
    (JObj (metadata ++ [("source", JStr "postgres-control-plane")])%list).

(** ** Rate locks *)

Definition lock_elapsed (now : Z) (l : rate_lock) : bool :=
  bool_decide (rl_status l = LockLocked) && (rl_expires_at l <=? now).

Definition expire_lock (now : Z) (l : rate_lock) : rate_lock :=
  if lock_elapsed now l then l <| rl_status := LockExpired |> else l.

Definition expirePostgresRateLocks (E : env) (a : actor) : Act db (Z * list uuid) :=
  transaction (
    rows ← gets (λ d, select (λ _ l, lock_elapsed (db_now E) l) (rate_locks d));
    _ ← modify (set rate_locks (fmap (expire_lock (db_now E))));
    _ ← for_each (λ row,
      recordEvent E a "rate_lock.expired" "rate_lock" row.1
        [("from", JStr "locked"); ("to", JStr "expired");
         ("expiresAt", JDate (js_of_pg (rl_expires_at row.2)));
         ("reason", JStr "expiry_elapsed")]) rows;
    mret (Z.of_nat (length rows), rows.*1)).

Definition cancelPostgresRateLock (E : env) (a : actor) (rateLockId : uuid) (reason : string) :
    Act db (uuid * rate_lock_status) :=
  _ ← act_throw_if (js_length (trim reason) <? 10)
    (JsError "A substantive cancellation reason is required");
  transaction (
    current ← select_by_id rate_locks rateLockId;
    lock ← require current (JsError "Rate lock was not found");
    _ ← throw_if (negb (bool_decide (rl_status lock = LockLocked)))
      (JsError ("Only a live rate lock may be cancelled; this lock is " +:+ pg_text (rl_status lock)));
    consuming ← select_by_id rate_locks rateLockId;
    _ ← throw_if (bool_decide (is_Some (consuming ≫= rl_payment_order_id)))
      (JsError "Rate lock is bound to a payment order and may not be cancelled");
    _ ← update_row rate_locks rateLockId (λ l, l <| rl_status := LockCancelled |>);
    _ ← recordEvent E a "rate_lock.cancelled" "rate_lock" rateLockId
      [("from", JStr "locked"); ("to", JStr "cancelled");
       ("expiresAt", JDate (js_of_pg (rl_expires_at lock))); ("reason", JStr reason)];
    mret (rateLockId, LockCancelled)).

(** ** Drafting an order *)

Record create_order_input : Type := mk_create_order_input {
  coi_idempotencyKey : string;
  coi_customerId : uuid;
  coi_beneficiaryId : uuid;
  coi_rateLockId : uuid;
  coi_sourceAmount : string
}.

(** The object the handler resolves with; [boundLockId] is a property of a
    replay only. *)
Record create_order_result : Type := mk_create_order_result {
  cor_id : uuid;
  cor_status : payment_status;
  cor_targetAmount : option string;
  cor_boundLockId : option (option uuid);
  cor_rateLockId : uuid;
  cor_lockedRate : string;
  cor_idempotentReplay : bool
}.

(** [SELECT … FROM payment_orders o WHERE o.idempotency_key = $1]. *)
Definition order_by_key (d : db) (key : string) : option (uuid * payment_order) :=
  head (select (λ _ o, bool_decide (po_idempotency_key o = key)) (payment_orders d)).

(** [SELECT rl.id FROM rate_locks rl WHERE rl.payment_order_id = o.id LIMIT 1]. *)
Definition bound_lock (d : db) (order : uuid) : option uuid :=
  fst <$> head (select (λ _ l, bool_decide (rl_payment_order_id l = Some order)) (rate_locks d)).

(** [INSERT INTO payment_orders … ON CONFLICT (idempotency_key) DO NOTHING
    RETURNING id]. *)
Definition insert_order_on_conflict (id : uuid) (row : payment_order) : Tx db (option uuid) :=
  _ ← enforce (checks rules_payment_orders row);
  d ← gets (λ d, d);
  match order_by_key d (po_idempotency_key row) with
  | Some _ => mret None
  | None => _ ← insert_row payment_orders "payment_orders" rules_payment_orders id row; mret (Some id)
  end.

Definition replay_order (input : create_order_input) (lock : rate_lock) : Tx db create_order_result :=
  existing ← gets (λ d, r ← order_by_key d (coi_idempotencyKey input);
                        Some (r, bound_lock d r.1));
  replay ← require existing (JsError "Payment order insert did not return a record");
  let '((id, o), boundLockId) := replay in
  _ ← throw_if (match boundLockId with
                | Some l => negb (bool_decide (l = coi_rateLockId input)) | None => false end)
    (JsError "Idempotency key already refers to an order backed by a different rate lock");
  mret (mk_create_order_result id (po_status o) (numeric_text 12 <$> po_target_amount o)
    (Some boundLockId) (coi_rateLockId input) (numeric_text 12 (rl_locked_rate lock)) true).

(** [UPDATE rate_locks SET payment_order_id=$1 WHERE id=$2 AND payment_order_id
    IS NULL] with its [rowCount]. *)
Definition consume_lock (order lockId : uuid) : Tx db Z :=
  d ← gets (λ d, d);
  match rate_locks d !! lockId with
  | Some (mk_rate_lock _ None _ _ _ _ _ _ _ _) =>
      _ ← update_row rate_locks lockId (λ l, l <| rl_payment_order_id := Some order |>); mret 1
  | _ => mret 0
  end.

Definition target_amount_of (sourceAmount : string) (lock : rate_lock) : Z :=
  mul_round8 (numeric_of_text sourceAmount) (rl_locked_rate lock).

Definition createPostgresPaymentOrder (E : env) (a : actor) (new_id : uuid)
    (input : create_order_input) : Act db create_order_result :=
  _ ← act_throw_if (negb (is_amount_text (coi_sourceAmount input)) ||
                    bool_decide (coi_sourceAmount input = "0"))
    (JsError "A positive source amount is required");
  transaction (
    lockResult ← select_by_id rate_locks (coi_rateLockId input);
    lock ← require lockResult
      (JsError "A canonical rate lock is required before drafting a payment order");
    _ ← throw_if (negb (bool_decide (rl_status lock = LockLocked)))
      (JsError "Rate lock is not live; payment drafting fails closed");
    _ ← throw_if (js_of_pg (rl_expires_at lock) <=? app_now E)
      (JsError "Rate lock has expired; payment drafting fails closed");
    _ ← throw_if (bool_decide (is_Some (rl_payment_order_id lock)))
      (JsError "Rate lock has already been consumed by a payment order; reuse fails closed");
    beneficiary ← select_by_id beneficiaries (coi_beneficiaryId input);
    target ← require beneficiary (JsError "A canonical beneficiary record is required");
    _ ← throw_if (negb (bool_decide (ben_customer_id target = coi_customerId input)))
      (JsError "Beneficiary does not belong to the specified customer");
    _ ← assertBeneficiaryScreeningClear (pg_text (ben_screening_state target));
    let targetAmount := target_amount_of (coi_sourceAmount input) lock in
    let targetText := numeric_text 8 targetAmount in
    _ ← throw_if (bool_decide (targetText = "0.00000000"))
      (JsError "Locked rate is unusable; payment drafting fails closed");
    inserted ← insert_order_on_conflict new_id
      (mk_payment_order (coi_idempotencyKey input) (coi_customerId input) (coi_beneficiaryId input)
        (rl_corridor lock) (rl_base_asset lock) (numeric_of_text (coi_sourceAmount input))
        (rl_quote_asset lock) (Some (scale12_of_scale8 targetAmount)) PayDraft None None
        (a_openId a) (db_now E) (db_now E));
    match inserted with
    | None => replay_order input lock
    | Some order =>
        _ ← recordEvent E a "payment_order.drafted" "payment_order" order
          [("rateLockId", JUuid (coi_rateLockId input));
           ("lockedRate", JStr (numeric_text 12 (rl_locked_rate lock)));
           ("corridor", JStr (pg_text (rl_corridor lock)));
           ("sourceAmount", JStr (coi_sourceAmount input));
           ("targetAmount", JStr targetText);
           ("derivation", JStr "target_amount = source_amount * locked_rate")];
        consumed ← consume_lock order (coi_rateLockId input);
        _ ← throw_if (negb (consumed =? 1))
          (JsError "Rate lock consumption could not be recorded; payment drafting fails closed");
        _ ← recordEvent E a "rate_lock.consumed" "rate_lock" (coi_rateLockId input)
          [("paymentOrderId", JUuid order);
           ("lockedRate", JStr (numeric_text 12 (rl_locked_rate lock)))];
        mret (mk_create_order_result order PayDraft
          (Some (numeric_text 12 (scale12_of_scale8 targetAmount))) None
          (coi_rateLockId input) (numeric_text 12 (rl_locked_rate lock)) false)
    end).

(** ** Legs *)

Record create_leg_input : Type := mk_create_leg_input {
  cli_paymentOrderId : uuid;
  cli_sequenceNumber : Z;
  cli_legKind : string;
  cli_counterpartyId : uuid
}.

(** [sequenceNumber] is an integer here, so [Number.isInteger] holds. *)
Definition createPostgresPaymentLeg (E : env) (a : actor) (new_id : uuid)
    (input : create_leg_input) : Act db (uuid * payment_status * Z) :=
  _ ← act_throw_if (cli_sequenceNumber input <? 1)
    (JsError "Leg sequence number must be a positive integer");
  transaction (
    orderResult ← select_by_id payment_orders (cli_paymentOrderId input);
    order ← require orderResult
      (JsError "A canonical payment order is required before adding a leg");
    _ ← throw_if (negb (bool_decide (po_status order = PayDraft)))
      (JsError "Legs may only be added while the order is in draft");
    authorised ← gets (λ d, length (select (λ _ r,
      authorization_current (current_date E) (cli_counterpartyId input) r)
      (counterparty_authorizations d)));
    _ ← throw_if (authorised =? 0)%nat
      (JsError "Counterparty has no currently verified licence authorisation; leg creation fails closed");
    legKind ← require (of_text (cli_legKind input))
      (PgError (CheckViolation "payment_legs_leg_kind_check"));
    _ ← insert_row payment_legs "payment_legs" rules_payment_legs new_id
      (mk_payment_leg (cli_paymentOrderId input) (cli_sequenceNumber input) legKind
        (Some (cli_counterpartyId input)) PayDraft None None);
    _ ← recordEvent E a "payment_leg.drafted" "payment_leg" new_id
      [("paymentOrderId", JUuid (cli_paymentOrderId input));
       ("sequenceNumber", JNum (cli_sequenceNumber input));
       ("legKind", JStr (cli_legKind input));
       ("counterpartyId", JUuid (cli_counterpartyId input))];
    mret (new_id, PayDraft, cli_sequenceNumber input)).

(** ** Lifecycle transitions *)

Definition internalOrderTransitions : list (string * list string) :=
  [("draft", ["pending_policy_decision"; "cancelled"]);
   ("pending_policy_decision", ["blocked"; "manual_review"; "approved"; "cancelled"]);
   ("manual_review", ["blocked"; "approved"; "cancelled"]);
   ("blocked", ["manual_review"; "cancelled"]);
   ("approved", ["cancelled"])].

Definition providerDependentOrderStates : list string :=
  ["executing"; "partially_completed"; "completed"; "failed"].

Definition transitionPostgresPaymentOrder (E : env) (a : actor) (paymentOrderId : uuid)
    (status reason : string) : Act db (uuid * payment_status) :=
  _ ← act_throw_if (includes providerDependentOrderStates status)
    (JsError "Execution states require a verified provider finality reference from an authorised provider integration; this transition fails closed");
  _ ← act_throw_if (js_length (trim reason) <? 10)
    (JsError "A substantive transition reason is required");
  transaction (
    current ← select_by_id payment_orders paymentOrderId;
    order ← require current (JsError "Payment order was not found");
    _ ← throw_if (negb (table_allows internalOrderTransitions (pg_text (po_status order)) status))
      (JsError "invalid payment order lifecycle transition");
    _ ← throw_if (bool_decide (status = "approved") && bool_decide (po_policy_decision_id order = None))
      (JsError "A recorded policy decision is required before an order may be approved");
    new ← require (of_text status) (PgError (InvalidInput "payment_status"));
    _ ← update_row payment_orders paymentOrderId
      (λ o, o <| po_status := new |> <| po_updated_at := db_now E |>);
    _ ← recordEvent E a ("payment_order." +:+ status) "payment_order" paymentOrderId
      [("from", JStr (pg_text (po_status order))); ("to", JStr status); ("reason", JStr reason)];
    mret (paymentOrderId, new)).

Definition internalLegTransitions : list (string * list string) :=
  [("draft", ["pending_policy_decision"; "cancelled"]);
   ("pending_policy_decision", ["blocked"; "manual_review"; "approved"; "cancelled"]);
   ("manual_review", ["blocked"; "approved"; "cancelled"]);
   ("blocked", ["manual_review"; "cancelled"]);
   ("approved", ["cancelled"])].

Definition allowedInternalLegTransitions (status : string) : list string :=
  default [] (record_get internalLegTransitions status).

Definition transitionPostgresPaymentLeg (E : env) (a : actor) (paymentLegId : uuid)
    (status reason : string) : Act db (uuid * payment_status) :=
  _ ← act_throw_if (includes providerDependentOrderStates status)
    (JsError "Leg execution states require a verified provider instruction or finality reference from an authorised provider integration; this transition fails closed");
  _ ← act_throw_if (js_length (trim reason) <? 10)
    (JsError "A substantive transition reason is required");
  transaction (
    current ← gets (λ d, l ← payment_legs d !! paymentLegId;
                         o ← payment_orders d !! pl_payment_order_id l; Some (l, o));
    row ← require current (JsError "Payment leg was not found");
    let '(leg, order) := row in
    _ ← throw_if (negb (table_allows internalLegTransitions (pg_text (pl_status leg)) status))
      (JsError "invalid payment leg lifecycle transition");
    _ ← throw_if (bool_decide (status = "approved") && negb (bool_decide (po_status order = PayApproved)))
      (JsError "A leg may only be approved after its payment order is approved");
    new ← require (of_text status) (PgError (InvalidInput "payment_status"));
    _ ← update_row payment_legs paymentLegId (λ l, l <| pl_status := new |>);
    _ ← recordEvent E a ("payment_leg." +:+ status) "payment_leg" paymentLegId
      [("from", JStr (pg_text (pl_status leg))); ("to", JStr status);
       ("paymentOrderId", JUuid (pl_payment_order_id leg));
       ("orderStatus", JStr (pg_text (po_status order))); ("reason", JStr reason)];
    mret (paymentLegId, new)).
