(* ===== verification/PaymentSpec.v ===== *)
(** * What the payment workflow promises, and that it keeps the promise

    [payment_step] is the abstract contract of the component: the only ways in
    which the order, leg and lock tables may change. Every handler is shown to
    refine it, and the invariant [payments_ok] is proved on the contract. *)

From S2P Require Import Prelude Js Numeric Rows Schema Parties RateLocks PaymentWorkflow.

Local Open Scope string_scope.
Local Open Scope Z_scope.

(** ** The contract *)

Definition provider_dependent (s : payment_status) : bool :=
  includes providerDependentOrderStates (pg_text s).

(** The order [p] carries exactly what the lock [l] determines. *)
Record backs (l : rate_lock) (p : payment_order) : Prop := {
  backs_corridor : po_corridor p = rl_corridor l;
  backs_source : po_source_currency p = rl_base_asset l;
  backs_target : po_target_currency p = rl_quote_asset l;
  backs_amount : po_target_amount p =
    Some (scale12_of_scale8 (mul_round8 (po_source_amount p) (rl_locked_rate l)));
  backs_positive : 0 < mul_round8 (po_source_amount p) (rl_locked_rate l)
}.

(** The columns of an order that the schema declares immutable
    (0037_payment_identity_immutability.sql), and the policy decision, which no
    handler writes. *)
Definition same_identity (p q : payment_order) : Prop :=
  po_idempotency_key p = po_idempotency_key q ∧ po_customer_id p = po_customer_id q ∧
  po_beneficiary_id p = po_beneficiary_id q ∧ po_corridor p = po_corridor q ∧
  po_source_currency p = po_source_currency q ∧ po_source_amount p = po_source_amount q ∧
  po_target_currency p = po_target_currency q ∧ po_target_amount p = po_target_amount q ∧
  po_created_by p = po_created_by q ∧ po_created_at p = po_created_at q ∧
  po_policy_decision_id p = po_policy_decision_id q ∧
  po_provider_finality_reference p = po_provider_finality_reference q.

(** A lock changes its status and, once, its order; the terms never change. *)
Definition same_terms (l m : rate_lock) : Prop :=
  rl_market_observation_id l = rl_market_observation_id m ∧ rl_corridor l = rl_corridor m ∧
  rl_base_asset l = rl_base_asset m ∧ rl_quote_asset l = rl_quote_asset m ∧
  rl_locked_rate l = rl_locked_rate m ∧ rl_expires_at l = rl_expires_at m.

(** Reference data only grows; a beneficiary keeps its customer. *)
Definition reference_grows (d d' : db) : Prop :=
  market_observations d ⊆ market_observations d' ∧
  (∀ i b, beneficiaries d !! i = Some b →
     ∃ b', beneficiaries d' !! i = Some b' ∧ ben_customer_id b' = ben_customer_id b).

Definition same_locks (d d' : db) := rate_locks d' = rate_locks d.
Definition same_orders (d d' : db) := payment_orders d' = payment_orders d.
Definition same_legs (d d' : db) := payment_legs d' = payment_legs d.

Inductive payment_step (d d' : db) : Prop :=
  | ps_elsewhere :
      same_locks d d' → same_orders d d' → same_legs d d' → payment_step d d'
  | ps_lock_created i l m :
      rate_locks d !! i = None → rate_locks d' = <[i := l]> (rate_locks d) →
      rl_payment_order_id l = None → rl_status l = LockLocked →
      market_observations d !! rl_market_observation_id l = Some m →
      mo_base_asset m = rl_base_asset l → mo_quote_asset m = rl_quote_asset l →
      mo_rate m = rl_locked_rate l → 0 < rl_locked_rate l →
      same_orders d d' → same_legs d d' → payment_step d d'
  | ps_locks_restated (f : rate_lock → rate_lock) :
      rate_locks d' = f <$> rate_locks d →
      (∀ l, same_terms l (f l) ∧ rl_payment_order_id (f l) = rl_payment_order_id l) →
      (∀ l, rl_status (f l) ≠ rl_status l → rl_status l = LockLocked) →
      same_orders d d' → same_legs d d' → payment_step d d'
  | ps_lock_closed i l s :
      rate_locks d !! i = Some l → rl_status l = LockLocked →
      rate_locks d' = <[i := l <| rl_status := s |>]> (rate_locks d) →
      same_orders d d' → same_legs d d' → payment_step d d'
  | ps_order_drafted i l o p b :
      rate_locks d !! i = Some l → rl_status l = LockLocked → rl_payment_order_id l = None →
      payment_orders d !! o = None → payment_orders d' = <[o := p]> (payment_orders d) →
      rate_locks d' = <[i := l <| rl_payment_order_id := Some o |>]> (rate_locks d) →
      backs l p → 0 < po_source_amount p → po_status p = PayDraft → po_policy_decision_id p = None →
      (∀ o' p', payment_orders d !! o' = Some p' → po_idempotency_key p' ≠ po_idempotency_key p) →
      beneficiaries d !! po_beneficiary_id p = Some b → ben_customer_id b = po_customer_id p →
      ben_screening_state b = ScrClear →
      same_legs d d' → payment_step d d'
  | ps_order_moved o p p' :
      payment_orders d !! o = Some p → payment_orders d' = <[o := p']> (payment_orders d) →
      same_identity p p' →
      table_allows internalOrderTransitions (pg_text (po_status p)) (pg_text (po_status p')) = true →
      (po_status p' = PayApproved → is_Some (po_policy_decision_id p)) →
      same_locks d d' → same_legs d d' → payment_step d d'
  | ps_leg_drafted i g o p :
      payment_legs d !! i = None → payment_legs d' = <[i := g]> (payment_legs d) →
      pl_payment_order_id g = o → payment_orders d !! o = Some p → po_status p = PayDraft →
      pl_status g = PayDraft → 0 < pl_sequence_number g →
      (∀ j h, payment_legs d !! j = Some h → pl_payment_order_id h = o →
        pl_sequence_number h ≠ pl_sequence_number g) →
      same_locks d d' → same_orders d d' → payment_step d d'
  | ps_leg_moved i g p s :
      payment_legs d !! i = Some g → payment_orders d !! pl_payment_order_id g = Some p →
      payment_legs d' = <[i := g <| pl_status := s |>]> (payment_legs d) →
      table_allows internalLegTransitions (pg_text (pl_status g)) (pg_text s) = true →
      (s = PayApproved → po_status p = PayApproved) →
      same_locks d d' → same_orders d d' → payment_step d d'.

(** The contract of one transaction: a payment step that forgets neither
    reference data nor the log. *)
Record payment_contract (d d' : db) : Prop := {
  pc_step : payment_step d d';
  pc_reference : reference_grows d d';
  pc_log : log_extends d d'
}.

(** ** The invariant *)

Record payments_ok (d : db) : Prop := {
  ok_lock_terms i l : rate_locks d !! i = Some l →
    0 < rl_locked_rate l ∧ ∃ m, market_observations d !! rl_market_observation_id l = Some m ∧
      mo_base_asset m = rl_base_asset l ∧ mo_quote_asset m = rl_quote_asset l ∧
      mo_rate m = rl_locked_rate l;
  ok_bound i l o : rate_locks d !! i = Some l → rl_payment_order_id l = Some o →
    ∃ p, payment_orders d !! o = Some p ∧ backs l p;
  ok_bound_once i j l m o : rate_locks d !! i = Some l → rate_locks d !! j = Some m →
    rl_payment_order_id l = Some o → rl_payment_order_id m = Some o → i = j;
  ok_backed o p : payment_orders d !! o = Some p →
    ∃ i l, rate_locks d !! i = Some l ∧ rl_payment_order_id l = Some o;
  ok_key_once o o' p p' : payment_orders d !! o = Some p → payment_orders d !! o' = Some p' →
    po_idempotency_key p = po_idempotency_key p' → o = o';
  ok_order o p : payment_orders d !! o = Some p →
    0 < po_source_amount p ∧ provider_dependent (po_status p) = false ∧
    (po_status p = PayApproved → is_Some (po_policy_decision_id p)) ∧
    ∃ b, beneficiaries d !! po_beneficiary_id p = Some b ∧ ben_customer_id b = po_customer_id p;
  ok_leg i g : payment_legs d !! i = Some g →
    0 < pl_sequence_number g ∧ provider_dependent (pl_status g) = false ∧
    is_Some (payment_orders d !! pl_payment_order_id g);
  ok_leg_once i j g h : payment_legs d !! i = Some g → payment_legs d !! j = Some h →
    pl_payment_order_id g = pl_payment_order_id h →
    pl_sequence_number g = pl_sequence_number h → i = j
}.

(** ** The invariant holds on the contract *)

Lemma table_allows_internal (t : list (string * list string)) (from to : string) :
  Forall (λ e, Forall (λ s, includes providerDependentOrderStates s = false) e.2) t →
  table_allows t from to = true → includes providerDependentOrderStates to = false.
Proof.
  unfold table_allows. intros Ht. induction Ht as [|[k l] t Hl Ht IH]; simpl; [done|].
  destruct (bool_decide (from = k)); [|done]. intros Hin. simpl in Hl.
  apply bool_decide_eq_true in Hin. by eapply (proj1 (Forall_forall _ _)) in Hl; [|exact Hin].
Qed.

Lemma order_table_internal :
  Forall (λ e, Forall (λ s, includes providerDependentOrderStates s = false) e.2) internalOrderTransitions.
Proof. repeat constructor. Qed.
Lemma leg_table_internal :
  Forall (λ e, Forall (λ s, includes providerDependentOrderStates s = false) e.2) internalLegTransitions.
Proof. exact order_table_internal. Qed.

Lemma backs_terms l m p : same_terms l m → backs l p → backs m p.
Proof.
  intros (_ & H1 & H2 & H3 & H4 & _) []. split; rewrite <-?H1, <-?H2, <-?H3, <-?H4; done.
Qed.

Lemma backs_identity l p q : same_identity p q → backs l p → backs l q.
Proof.
  intros (_ & _ & _ & H1 & H2 & H3 & H4 & H5 & _) [].
  split; rewrite <-?H1, <-?H2, <-?H3, <-?H4, <-?H5; done.
Qed.

Lemma terms_status l s : same_terms l (l <| rl_status := s |>).
Proof. by repeat split. Qed.
Lemma terms_order l o : same_terms l (l <| rl_payment_order_id := o |>).
Proof. by repeat split. Qed.
Lemma same_terms_refl l : same_terms l l.
Proof. by repeat split. Qed.
Lemma same_identity_refl p : same_identity p p.
Proof. by repeat split. Qed.
#[local] Hint Resolve terms_status terms_order same_terms_refl same_identity_refl : core.

(** Case analysis on the row a lookup in an updated table finds. *)
Ltac row_cases :=
  repeat match goal with
  | E : ?t ?d' = <[_ := _]> _, H : ?t ?d' !! _ = Some _ |- _ =>
      rewrite E in H; apply lookup_insert_Some in H as [[? ?]|[? ?]]; simplify_eq/=
  | E : ?t ?d' = _ <$> _, H : ?t ?d' !! _ = Some _ |- _ =>
      rewrite E in H; apply lookup_fmap_Some in H as (? & ? & ?); simplify_eq/=
  | E : ?t ?d' = ?t ?d, H : ?t ?d' !! _ = Some _ |- _ => rewrite E in H
  end.

Section preservation.
Context (d d' : db) (Hok : payments_ok d) (Href : reference_grows d d').

(** The parts of the invariant that mention one table only move with it. *)
Lemma lock_terms_grow l m :
  market_observations d !! rl_market_observation_id l = Some m →
  market_observations d' !! rl_market_observation_id l = Some m.
Proof. destruct Href as [Ho _]. intros. by eapply lookup_weaken. Qed.

Lemma ok_lock_terms_transfer :
  (∀ i l', rate_locks d' !! i = Some l' →
     ∃ l, rate_locks d !! i = Some l ∧ same_terms l l') →
  ∀ i l, rate_locks d' !! i = Some l →
    0 < rl_locked_rate l ∧ ∃ m, market_observations d' !! rl_market_observation_id l = Some m ∧
      mo_base_asset m = rl_base_asset l ∧ mo_quote_asset m = rl_quote_asset l ∧
      mo_rate m = rl_locked_rate l.
Proof.
  intros Ht i l' (l & Hl & H1 & _ & H2 & H3 & H4 & _)%Ht.
  destruct (ok_lock_terms _ Hok i l Hl) as (Hr & m & Hm & ? & ? & ?).
  apply lock_terms_grow in Hm. rewrite <-H1, <-H2, <-H3, <-H4. eauto 10.
Qed.

Lemma ok_order_transfer :
  (∀ o p', payment_orders d' !! o = Some p' →
     ∃ p, payment_orders d !! o = Some p ∧ same_identity p p' ∧
       provider_dependent (po_status p') = false ∧
       (po_status p' = PayApproved → is_Some (po_policy_decision_id p))) →
  ∀ o p, payment_orders d' !! o = Some p →
    0 < po_source_amount p ∧ provider_dependent (po_status p) = false ∧
    (po_status p = PayApproved → is_Some (po_policy_decision_id p)) ∧
    ∃ b, beneficiaries d' !! po_beneficiary_id p = Some b ∧ ben_customer_id b = po_customer_id p.
Proof.
  intros Ht o p' (p & Hp & Hid & Hs & Ha)%Ht.
  destruct (ok_order _ Hok o p Hp) as (H1 & _ & _ & b & Hb & Hc).
  destruct Hid as (_ & E1 & E2 & _ & _ & E3 & _ & _ & _ & _ & E4 & _).
  destruct Href as [_ Hbs]. destruct (Hbs _ _ Hb) as (b' & Hb' & Hc').
  rewrite <-E1, <-E2, <-E3, <-E4. split_and!; eauto. exists b'. split; congruence.
Qed.

Lemma ok_order_same : same_orders d d' →
  ∀ o p, payment_orders d' !! o = Some p →
    0 < po_source_amount p ∧ provider_dependent (po_status p) = false ∧
    (po_status p = PayApproved → is_Some (po_policy_decision_id p)) ∧
    ∃ b, beneficiaries d' !! po_beneficiary_id p = Some b ∧ ben_customer_id b = po_customer_id p.
Proof.
  intros Hs. apply ok_order_transfer. intros o p Hp. rewrite Hs in Hp.
  destruct (ok_order _ Hok o p Hp) as (_ & ? & ? & _). eauto.
Qed.
End preservation.

Ltac keep_ok Hok :=
  unfold same_locks, same_orders, same_legs in *; intros; row_cases;
  try solve [eapply (ok_bound _ Hok); eauto | eapply (ok_bound_once _ Hok); eauto
            | eapply (ok_backed _ Hok); eauto | eapply (ok_key_once _ Hok); eauto
            | eapply (ok_leg _ Hok); eauto | eapply (ok_leg_once _ Hok); eauto].

Lemma elsewhere_ok d d' : payments_ok d → reference_grows d d' →
  same_locks d d' → same_orders d d' → same_legs d d' → payments_ok d'.
Proof.
  intros Hok Href HL HO HG. split; try (eapply ok_order_same; eauto).
  1: { eapply ok_lock_terms_transfer; eauto. intros i l Hl. rewrite HL in Hl. eauto. }
  all: keep_ok Hok.
  all: rewrite ?HL, ?HO, ?HG.
  all: keep_ok Hok.
Qed.

Lemma locks_restated_ok d d' : payments_ok d → reference_grows d d' →
  (∀ i l', rate_locks d' !! i = Some l' → ∃ l, rate_locks d !! i = Some l ∧ same_terms l l' ∧
     rl_payment_order_id l' = rl_payment_order_id l) →
  (∀ i l, rate_locks d !! i = Some l → ∃ l', rate_locks d' !! i = Some l' ∧
     rl_payment_order_id l' = rl_payment_order_id l) →
  same_orders d d' → same_legs d d' → payments_ok d'.
Proof.
  intros Hok Href Hback Hfwd HO HG. split; try (eapply ok_order_same; eauto; fail).
  - eapply ok_lock_terms_transfer; eauto. intros i l (m & ? & ? & _)%Hback. eauto.
  - intros i l' o (l & Hl & Ht & Eo)%Hback Ho. rewrite Eo in Ho. rewrite HO.
    destruct (ok_bound _ Hok i l o Hl Ho) as (p & ? & ?). eauto using backs_terms.
  - intros i j l m o (l1 & ? & _ & E1)%Hback (m1 & ? & _ & E2)%Hback ? ?.
    by eapply (ok_bound_once _ Hok i j l1 m1 o); try congruence.
  - intros o p. rewrite HO. intros (i & l & Hl & Hb)%(ok_backed _ Hok).
    apply Hfwd in Hl as (l' & ? & ?). exists i, l'. split; congruence.
  - keep_ok Hok.
  - intros i g. rewrite HG, HO. apply (ok_leg _ Hok).
  - keep_ok Hok.
Qed.

Lemma lock_created_ok d d' i l m : payments_ok d → reference_grows d d' →
  rate_locks d !! i = None → rate_locks d' = <[i := l]> (rate_locks d) →
  rl_payment_order_id l = None → market_observations d !! rl_market_observation_id l = Some m →
  mo_base_asset m = rl_base_asset l → mo_quote_asset m = rl_quote_asset l →
  mo_rate m = rl_locked_rate l → 0 < rl_locked_rate l →
  same_orders d d' → same_legs d d' → payments_ok d'.
Proof.
  intros Hok Href Hi HL Hn Hm E1 E2 E3 Hr HO HG.
  split; try (eapply ok_order_same; eauto; fail).
  - intros j l' Hj. rewrite HL in Hj. apply lookup_insert_Some in Hj as [[-> <-]|[_ Hj]].
    + apply (lock_terms_grow _ _ Href) in Hm. eauto 10.
    + destruct (ok_lock_terms _ Hok j l' Hj) as (? & m' & Hm' & ?).
      apply (lock_terms_grow _ _ Href) in Hm'. eauto 10.
  - intros j l' o Hj Ho. rewrite HO. keep_ok Hok.
  - keep_ok Hok.
  - intros o p. rewrite HO. intros (j & l' & Hj & Hb)%(ok_backed _ Hok).
    exists j, l'. split; [|done]. rewrite HL. apply lookup_insert_Some. naive_solver.
  - keep_ok Hok.
  - intros j g. rewrite HG, HO. apply (ok_leg _ Hok).
  - keep_ok Hok.
Qed.

Lemma order_moved_ok d d' o p p' : payments_ok d → reference_grows d d' →
  payment_orders d !! o = Some p → payment_orders d' = <[o := p']> (payment_orders d) →
  same_identity p p' → provider_dependent (po_status p') = false →
  (po_status p' = PayApproved → is_Some (po_policy_decision_id p)) →
  same_locks d d' → same_legs d d' → payments_ok d'.
Proof.
  intros Hok Href Hp HO Hid Hs Ha HL HG.
  assert (∀ o, is_Some (payment_orders d !! o) → is_Some (payment_orders d' !! o)) as Hgrow.
  { intros o'. rewrite HO, lookup_insert_is_Some'. eauto. }
  split.
  - eapply ok_lock_terms_transfer; eauto. intros i l Hl. rewrite HL in Hl. eauto.
  - intros i l o' Hl Ho. rewrite HL in Hl.
    destruct (ok_bound _ Hok i l o' Hl Ho) as (q & Hq & Hb). rewrite HO.
    destruct (decide (o = o')) as [<-|Hne].
    + rewrite lookup_insert_eq. simplify_eq. eauto using backs_identity.
    + rewrite lookup_insert_ne by done. eauto.
  - keep_ok Hok.
  - intros o' q. rewrite HL. keep_ok Hok.
  - intros o1 o2 q1 q2. destruct Hid as [Ek _]. rewrite HO. intros H1 H2 E.
    apply lookup_insert_Some in H1 as [[? ?]|[? ?]], H2 as [[? ?]|[? ?]]; subst;
      try done; eapply (ok_key_once _ Hok); eauto; congruence.
  - eapply ok_order_transfer; eauto. intros o' q Hq. rewrite HO in Hq.
    apply lookup_insert_Some in Hq as [[-> <-]|[? Hq]]; [by eauto|].
    destruct (ok_order _ Hok o' q Hq) as (_ & ? & ? & _). eauto.
  - intros i g Hg. rewrite HG in Hg. apply (ok_leg _ Hok) in Hg as (? & ? & ?). eauto.
  - keep_ok Hok.
Qed.

Lemma order_drafted_ok d d' i l o p b : payments_ok d → reference_grows d d' →
  rate_locks d !! i = Some l → rl_payment_order_id l = None →
  payment_orders d !! o = None → payment_orders d' = <[o := p]> (payment_orders d) →
  rate_locks d' = <[i := l <| rl_payment_order_id := Some o |>]> (rate_locks d) →
  backs l p → 0 < po_source_amount p → po_status p = PayDraft →
  (∀ o' p', payment_orders d !! o' = Some p' → po_idempotency_key p' ≠ po_idempotency_key p) →
  beneficiaries d !! po_beneficiary_id p = Some b → ben_customer_id b = po_customer_id p →
  same_legs d d' → payments_ok d'.
Proof.
  intros Hok Href Hi Hn Ho HO HL Hb Hpos Hs Hk Hben Hc HG.
  assert (∀ j m, rate_locks d !! j = Some m → rl_payment_order_id m ≠ Some o) as Hfree.
  { intros j m Hj Hm. destruct (ok_bound _ Hok j m o Hj Hm) as (? & ? & _). congruence. }
  split.
  - eapply ok_lock_terms_transfer; eauto. intros j m Hj. rewrite HL in Hj.
    apply lookup_insert_Some in Hj as [[-> <-]|[_ Hj]]; eauto.
  - intros j m o' Hj Hm. rewrite HL in Hj. rewrite HO.
    apply lookup_insert_Some in Hj as [[-> <-]|[_ Hj]]; simplify_eq/=.
    + exists p. rewrite lookup_insert_eq. split; [done|].
      by eapply backs_terms; [apply (terms_order l (Some o'))|].
    + destruct (ok_bound _ Hok j m o' Hj Hm) as (q & Hq & ?). exists q.
      rewrite lookup_insert_ne; [done|]. intros ->. congruence.
  - intros j1 j2 m1 m2 o' H1 H2 E1 E2. rewrite HL in H1, H2.
    apply lookup_insert_Some in H1 as [[-> <-]|[? H1]], H2 as [[? <-]|[? H2]]; simplify_eq/=;
      try done; [by destruct (Hfree _ _ H2)|by destruct (Hfree _ _ H1)|].
    eapply (ok_bound_once _ Hok j1 j2); eauto.
  - intros o' q Hq. rewrite HO in Hq. rewrite HL.
    apply lookup_insert_Some in Hq as [[<- <-]|[? Hq]].
    + eexists i, _. by rewrite lookup_insert_eq.
    + apply (ok_backed _ Hok) in Hq as (j & m & Hj & Hm). exists j, m.
      rewrite lookup_insert_ne; [done|]. intros ->. congruence.
  - intros o1 o2 q1 q2 H1 H2 E. rewrite HO in H1, H2.
    apply lookup_insert_Some in H1 as [[? ?]|[? H1]], H2 as [[? ?]|[? H2]]; subst; try done;
      [by destruct (Hk _ _ H2)|by destruct (Hk _ _ H1)|]. eapply (ok_key_once _ Hok); eauto.
  - intros o' q Hq. rewrite HO in Hq. destruct Href as [_ Hbs].
    apply lookup_insert_Some in Hq as [[<- <-]|[? Hq]].
    + destruct (Hbs _ _ Hben) as (b' & ? & ?). rewrite Hs. split_and!; [done..|].
      exists b'. split; congruence.
    + destruct (ok_order _ Hok o' q Hq) as (? & ? & ? & b1 & Hb1 & ?).
      destruct (Hbs _ _ Hb1) as (b' & ? & ?). split_and!; [done..|]. exists b'. split; congruence.
  - intros j g Hg. rewrite HG in Hg. apply (ok_leg _ Hok) in Hg as (? & ? & ?).
    split_and!; [done..|]. rewrite HO, lookup_insert_is_Some'. eauto.
  - keep_ok Hok.
Qed.

Lemma legs_changed_ok d d' : payments_ok d → reference_grows d d' →
  same_locks d d' → same_orders d d' →
  (∀ i g, payment_legs d' !! i = Some g → 0 < pl_sequence_number g ∧
     provider_dependent (pl_status g) = false ∧ is_Some (payment_orders d !! pl_payment_order_id g)) →
  (∀ i j g h, payment_legs d' !! i = Some g → payment_legs d' !! j = Some h →
     pl_payment_order_id g = pl_payment_order_id h →
     pl_sequence_number g = pl_sequence_number h → i = j) → payments_ok d'.
Proof.
  intros Hok Href HL HO H1 H2. split; try (eapply ok_order_same; eauto; fail); try done.
  - eapply ok_lock_terms_transfer; eauto. intros i l Hl. rewrite HL in Hl. eauto.
  - intros i l o. rewrite HL, HO. apply (ok_bound _ Hok).
  - keep_ok Hok.
  - intros o p. rewrite HL, HO. apply (ok_backed _ Hok).
  - keep_ok Hok.
  - by rewrite HO.
Qed.

Lemma payment_step_ok d d' : payments_ok d → payment_contract d d' → payments_ok d'.
Proof.
  intros Hok [Hstep Href _].
  destruct Hstep as [HL HO HG|i l m|f HF Hf _ HO HG|i l s Hl _ HF HO HG|i l o p b|o p p'
    |i g o p Hi HG Ho Hp Hs Hgs Hpos Hfresh HL HO|i g p s Hi Hp HG Ht Ha HL HO].
  - by eapply elsewhere_ok.
  - by eapply lock_created_ok.
  - eapply locks_restated_ok; eauto; intros i l Hl.
    + rewrite HF in Hl. apply lookup_fmap_Some in Hl as (l0 & <- & ?).
      destruct (Hf l0). eauto.
    + rewrite HF, lookup_fmap, Hl. destruct (Hf l). eauto.
  - eapply locks_restated_ok; eauto; intros j m Hj.
    + rewrite HF in Hj. apply lookup_insert_Some in Hj as [[-> <-]|[_ ?]]; eauto.
    + rewrite HF. destruct (decide (i = j)) as [->|]; simplify_eq.
      * rewrite lookup_insert_eq. eauto.
      * rewrite lookup_insert_ne by done. eauto.
  - by eapply order_drafted_ok.
  - eapply order_moved_ok; eauto. unfold provider_dependent.
    eauto using table_allows_internal, order_table_internal.
  - eapply legs_changed_ok; eauto.
    + intros j h Hj. rewrite HG in Hj. apply lookup_insert_Some in Hj as [[<- <-]|[_ Hj]].
      * rewrite Hgs, Ho, Hp. eauto.
      * by apply (ok_leg _ Hok) in Hj.
    + intros j1 j2 h1 h2 Hj1 Hj2 E1 E2. rewrite HG in Hj1, Hj2.
      apply lookup_insert_Some in Hj1 as [[? ?]|[? Hj1]], Hj2 as [[? ?]|[? Hj2]]; subst; try done;
        [by edestruct Hfresh|by edestruct Hfresh|]. eapply (ok_leg_once _ Hok); eauto.
  - assert (provider_dependent s = false).
    { unfold provider_dependent. eauto using table_allows_internal, leg_table_internal. }
    eapply legs_changed_ok; eauto.
    + intros j h Hj. rewrite HG in Hj. apply lookup_insert_Some in Hj as [[<- <-]|[_ Hj]]; simpl.
      * apply (ok_leg _ Hok) in Hi as (? & _ & ?). eauto.
      * by apply (ok_leg _ Hok) in Hj.
    + intros j1 j2 h1 h2 Hj1 Hj2 E1 E2. rewrite HG in Hj1, Hj2.
      apply lookup_insert_Some in Hj1 as [[? ?]|[? Hj1]], Hj2 as [[? ?]|[? Hj2]]; subst;
        simpl in *; try done; eapply (ok_leg_once _ Hok); eauto.
Qed.
