(* ===== verification/PaymentRefinement.v ===== *)
(** * Every handler refines the payment contract *)

From S2P Require Import Prelude Js Numeric Rows Schema Parties RateLocks PaymentWorkflow PaymentSpec.

Local Open Scope string_scope.
Local Open Scope Z_scope.

#[export] Instance payment_contract_refl : Reflexive payment_contract.
Proof. intros d. split; [by apply ps_elsewhere| |reflexivity]. split; [done|]. eauto. Qed.

(** The reference tables and the log of a state are compared by computing
    them: the updates of other tables vanish. *)
Ltac solve_log := unfold log_extends; simpl; rewrite <-?app_assoc; apply prefix_app_r; reflexivity.

Ltac elsewhere := apply ps_elsewhere; unfold same_locks, same_orders, same_legs; reflexivity.

Lemma reference_same d d' :
  market_observations d' = market_observations d → beneficiaries d' = beneficiaries d →
  reference_grows d d'.
Proof. intros E1 E2. split; [by rewrite E1|]. rewrite E2. eauto. Qed.

Lemma transaction_refines {A} (body : Tx db A) :
  respects payment_contract body → act_respects payment_contract (transaction body).
Proof. apply transaction_respects, _. Qed.

Ltac refine_handler :=
  intros; repeat (apply act_throw_if_respects; [apply _|intros []]);
  apply transaction_refines; intros d ? d' ?.

Lemma createCustomer_refines E a id i :
  act_respects payment_contract (createPostgresCustomer E a id i).
Proof.
  refine_handler. db_inv. split; [elsewhere|by apply reference_same|solve_log].
Qed.

Lemma createBeneficiary_refines E a id i :
  act_respects payment_contract (createPostgresBeneficiary E a id i).
Proof.
  refine_handler. db_inv. split; [elsewhere| |solve_log].
  split; [done|]. intros j b Hb. exists b. split; [|done]. simpl.
  rewrite lookup_insert_ne; [done|]. intros ->. congruence.
Qed.

Lemma recordScreening_refines E a id i :
  act_respects payment_contract (recordPostgresBeneficiaryScreening E a id i).
Proof.
  refine_handler. db_inv. split; [elsewhere| |solve_log].
  split; [done|]. intros j b Hb. simpl.
  destruct (decide (j = sci_beneficiaryId i)) as [->|Hne].
  - rewrite lookup_alter_eq, Hb. simpl. eauto.
  - rewrite lookup_alter_ne by done. eauto.
Qed.

Lemma createCounterparty_refines E a id i :
  act_respects payment_contract (createPostgresCounterparty E a id i).
Proof. refine_handler. db_inv. split; [elsewhere|by apply reference_same|solve_log]. Qed.

Lemma createAuthorization_refines E a id i :
  act_respects payment_contract (createPostgresCounterpartyAuthorization E a id i).
Proof. refine_handler. db_inv. split; [elsewhere|by apply reference_same|solve_log]. Qed.

Lemma transitionAuthorization_refines E a id s :
  act_respects payment_contract (transitionPostgresCounterpartyAuthorization E a id s).
Proof. refine_handler. db_inv. split; [elsewhere|by apply reference_same|solve_log]. Qed.

Lemma createRateLock_refines E a id i :
  act_respects payment_contract (Postgres.createPostgresRateLock E a id i).
Proof.
  refine_handler. unfold Postgres.recordActivity in *. db_inv.
  split; [|by apply reference_same|solve_log].
  eapply (ps_lock_created _ _ id); eauto; try reflexivity; simpl; lia.
Qed.

Lemma cancelRateLock_router_refines E a id :
  act_respects payment_contract (Postgres.cancelPostgresRateLock E a id).
Proof.
  refine_handler. unfold Postgres.recordActivity in *. db_inv.
  split; [|by apply reference_same|solve_log].
  eapply (ps_lock_closed _ _ id _ LockCancelled); eauto; [simpl; by erewrite alter_as_insert by eassumption|reflexivity..].
Qed.

Lemma cancelRateLock_refines E a id r :
  act_respects payment_contract (cancelPostgresRateLock E a id r).
Proof.
  refine_handler. unfold recordEvent in *. db_inv.
  split; [|by apply reference_same|solve_log].
  eapply (ps_lock_closed _ _ id _ LockCancelled); eauto; [simpl; by erewrite alter_as_insert by eassumption|reflexivity..].
Qed.

(** A loop that only writes events leaves every table as it was. *)
Lemma events_only {A} (f : A → Tx db unit) l d u d' :
  (∀ x s s', f x s = Ok (tt, s') → ∃ es, s' = set activity_events (λ es0, es0 ++ es)%list s) →
  for_each f l d = Ok (u, d') → ∃ es, d' = set activity_events (λ es0, es0 ++ es)%list d.
Proof.
  intros Hf. revert d. induction l as [|x l IH]; intros d Hd; simpl in Hd.
  - tx_inv. exists []. destruct d. simpl. by rewrite app_nil_r.
  - tx_inv. destruct x0. apply Hf in H as [es1 ->]. apply IH in Hd as [es2 ->].
    exists (es1 ++ es2)%list. simpl. by rewrite app_assoc.
Qed.

Lemma expireRateLocks_refines E a : act_respects payment_contract (expirePostgresRateLocks E a).
Proof.
  refine_handler. unfold recordEvent in *. db_inv.
  match goal with H : for_each _ _ _ = _ |- _ => apply events_only in H as [es ->] end.
  2: { intros x s s' Hs. db_inv. eexists. reflexivity. }
  split; [|by apply reference_same|solve_log].
  eapply (ps_locks_restated _ _ (expire_lock (db_now E))); try reflexivity.
  - intros l. unfold expire_lock. destruct (lock_elapsed _ l); by repeat split.
  - intros l. unfold expire_lock, lock_elapsed. destruct (bool_decide _) eqn:Hb; [|by destruct l].
    by apply bool_decide_eq_true in Hb.
Qed.

Lemma transitionOrder_refines E a id s r :
  act_respects payment_contract (transitionPostgresPaymentOrder E a id s r).
Proof.
  refine_handler. unfold recordEvent in *. db_inv.
  match goal with H : of_text _ = Some _ |- _ => apply of_text_Some in H as Hs end. subst s.
  split; [|by apply reference_same|solve_log].
  eapply (ps_order_moved _ _ id);
    [eassumption|simpl; by erewrite alter_as_insert by eassumption|by repeat split|eassumption|
    |reflexivity..].
  simpl. intros ->.
  match goal with H : (_ && _)%bool = false |- _ => apply andb_false_iff in H as [H|H] end;
    unbool; [done|]. by apply not_eq_None_Some.
Qed.

Lemma transitionLeg_refines E a id s r :
  act_respects payment_contract (transitionPostgresPaymentLeg E a id s r).
Proof.
  refine_handler. unfold recordEvent in *. db_inv.
  match goal with H : of_text _ = Some _ |- _ => apply of_text_Some in H as Hs end. subst s.
  match goal with H : (payment_legs d !! id ≫= _) = Some _ |- _ =>
    apply bind_Some in H as (g & Hg & (o & Ho & ?)%bind_Some) end. simplify_eq.
  split; [|by apply reference_same|solve_log].
  eapply (ps_leg_moved _ _ id);
    [eassumption|eassumption|simpl; by erewrite alter_as_insert by eassumption|eassumption|
    |reflexivity..].
  intros ->.
  match goal with H : (_ && _)%bool = false |- _ => apply andb_false_iff in H as [H|H] end;
    unbool; done.
Qed.

Lemma createLeg_refines E a id i :
  act_respects payment_contract (createPostgresPaymentLeg E a id i).
Proof.
  refine_handler. unfold recordEvent in *. db_inv.
  split; [|by apply reference_same|solve_log].
  eapply (ps_leg_drafted _ _ id); eauto; try reflexivity; simpl; [lia|].
  match goal with H : any _ _ = false |- _ => intros j h Hj Ho ?; pose proof (proj1 (any_false _ _) H j h Hj) as Hn end.
  rewrite andb_false_iff, !bool_decide_eq_false in Hn. naive_solver.
Qed.


(** ** Drafting an order, exactly *)

Definition drafted_order (E : env) (a : actor) (i : create_order_input) (l : rate_lock) : payment_order :=
  mk_payment_order (coi_idempotencyKey i) (coi_customerId i) (coi_beneficiaryId i)
    (rl_corridor l) (rl_base_asset l) (numeric_of_text (coi_sourceAmount i)) (rl_quote_asset l)
    (Some (scale12_of_scale8 (target_amount_of (coi_sourceAmount i) l)))
    PayDraft None None (a_openId a) (db_now E) (db_now E).

(** The conditions under which an order is drafted. *)
Record draft_conditions (E : env) (i : create_order_input) (id : uuid) (d : db)
    (l : rate_lock) (b : beneficiary) : Prop := {
  dc_text : is_amount_text (coi_sourceAmount i) = true;
  dc_lock : rate_locks d !! coi_rateLockId i = Some l;
  dc_live : rl_status l = LockLocked;
  dc_unexpired : app_now E < js_of_pg (rl_expires_at l);
  dc_unbound : rl_payment_order_id l = None;
  dc_beneficiary : beneficiaries d !! coi_beneficiaryId i = Some b;
  dc_owner : ben_customer_id b = coi_customerId i;
  dc_clear : ben_screening_state b = ScrClear;
  dc_customer : is_Some (customers d !! coi_customerId i);
  dc_amount : 0 < numeric_of_text (coi_sourceAmount i) < 10 ^ 30;
  dc_target : 0 < target_amount_of (coi_sourceAmount i) l < 10 ^ 26;
  dc_key : ∀ o p, payment_orders d !! o = Some p → po_idempotency_key p ≠ coi_idempotencyKey i;
  dc_fresh : payment_orders d !! id = None
}.

Definition drafted_events (E : env) (a : actor) (i : create_order_input) (id : uuid) (l : rate_lock) :
    list activity_event :=
  [mk_activity_event (a_openId a) (a_role a) "payment_order.drafted" "payment_order" (Some id) (db_now E)
     (JObj [("rateLockId", JUuid (coi_rateLockId i));
            ("lockedRate", JStr (numeric_text 12 (rl_locked_rate l)));
            ("corridor", JStr (pg_text (rl_corridor l)));
            ("sourceAmount", JStr (coi_sourceAmount i));
            ("targetAmount", JStr (numeric_text 8 (target_amount_of (coi_sourceAmount i) l)));
            ("derivation", JStr "target_amount = source_amount * locked_rate");
            ("source", JStr "postgres-control-plane")]) None;
   mk_activity_event (a_openId a) (a_role a) "rate_lock.consumed" "rate_lock" (Some (coi_rateLockId i))
     (db_now E)
     (JObj [("paymentOrderId", JUuid id);
            ("lockedRate", JStr (numeric_text 12 (rl_locked_rate l)));
            ("source", JStr "postgres-control-plane")]) None].

Definition drafted_db (E : env) (a : actor) (i : create_order_input) (id : uuid) (l : rate_lock) (d : db) : db :=
  d <| payment_orders ::= <[id := drafted_order E a i l]> |>
    <| rate_locks ::= <[coi_rateLockId i := l <| rl_payment_order_id := Some id |>]> |>
    <| activity_events ::= λ es, (es ++ drafted_events E a i id l)%list |>.

Definition drafted_result (i : create_order_input) (id : uuid) (l : rate_lock) : create_order_result :=
  mk_create_order_result id PayDraft
    (Some (numeric_text 12 (scale12_of_scale8 (target_amount_of (coi_sourceAmount i) l)))) None
    (coi_rateLockId i) (numeric_text 12 (rl_locked_rate l)) false.

Lemma order_by_key_None d k :
  order_by_key d k = None ↔ ∀ o p, payment_orders d !! o = Some p → po_idempotency_key p ≠ k.
Proof.
  unfold order_by_key. rewrite head_None. split.
  - intros Hs o p Hp Hk. apply (not_elem_of_nil (o, p)). rewrite <-Hs.
    apply elem_of_select. split; [done|]. by apply bool_decide_eq_true.
  - intros Ha. destruct (select _ _) as [|[o p] t] eqn:Es; [done|]. exfalso.
    assert ((o, p) ∈ select (λ _ x, bool_decide (po_idempotency_key x = k)) (payment_orders d)) as Hin
      by (rewrite Es; left).
    apply elem_of_select in Hin as [Hp Hk%bool_decide_eq_true]. by eapply Ha.
Qed.

Lemma order_by_key_Some d k o p :
  order_by_key d k = Some (o, p) → payment_orders d !! o = Some p ∧ po_idempotency_key p = k.
Proof.
  unfold order_by_key. intros Hh.
  assert ((o, p) ∈ select (λ _ x, bool_decide (po_idempotency_key x = k)) (payment_orders d)) as Hin
    by (destruct (select _ _); simplify_eq/=; left).
  by apply elem_of_select in Hin as [Hp Hk%bool_decide_eq_true].
Qed.

Lemma consume_lock_ok o i d n d' :
  consume_lock o i d = Ok (n, d') → n = 1 →
  ∃ l, rate_locks d !! i = Some l ∧ rl_payment_order_id l = None ∧
    d' = set rate_locks (<[i := l <| rl_payment_order_id := Some o |>]>) d.
Proof.
  unfold consume_lock. intros H ->. tx_inv.
  destruct (rate_locks _ !! i) as [[? [?|] ? ? ? ? ? ? ? ?]|] eqn:Hi; db_inv.
  eexists. split; [done|]. split; [done|].
  by erewrite alter_as_insert by eassumption.
Qed.

Lemma consume_lock_run o i d l :
  rate_locks d !! i = Some l → rl_payment_order_id l = None →
  consume_lock o i d = Ok (1, set rate_locks (<[i := l <| rl_payment_order_id := Some o |>]>) d).
Proof.
  intros Hi Hn. unfold consume_lock. eapply tx_bind_run; [apply gets_run|]. simpl. rewrite Hi.
  destruct l as [? [?|] ? ? ? ? ? ? ? ?]; simpl in Hn; [done|].
  eapply tx_bind_run; [apply modify_run|]. simpl. unfold mret, tx_ret.
  by erewrite alter_as_insert by eassumption.
Qed.

Lemma target_nonneg s l : is_amount_text s = true → 0 < rl_locked_rate l → 0 <= target_amount_of s l.
Proof.
  intros Hs Hr. apply round_half_away_nonneg; [|lia].
  apply numeric_of_text_nonneg in Hs. nia.
Qed.

Lemma insert_order_inv id row d r d' :
  insert_order_on_conflict id row d = Ok (r, d') →
  match r with
  | None => d' = d ∧ is_Some (order_by_key d (po_idempotency_key row))
  | Some o => o = id ∧ order_by_key d (po_idempotency_key row) = None ∧
      payment_orders d !! id = None ∧ d' = set payment_orders (<[id := row]>) d ∧
      0 < po_source_amount row < 10 ^ 30 ∧
      (∀ v, po_target_amount row = Some v → Z.abs v < 10 ^ 30) ∧
      is_Some (customers d !! po_customer_id row)
  end.
Proof.
  unfold insert_order_on_conflict. intros H. db_inv; [eauto|].
  unfold fits_numeric_30_12 in *. split_and!; try done; try lia.
  intros v Hv. rewrite Hv in *. lia.
Qed.

Lemma insert_order_run id row d :
  order_by_key d (po_idempotency_key row) = None → payment_orders d !! id = None →
  0 < po_source_amount row < 10 ^ 30 →
  (∀ v, po_target_amount row = Some v → Z.abs v < 10 ^ 30) →
  is_Some (customers d !! po_customer_id row) →
  is_Some (beneficiaries d !! po_beneficiary_id row) →
  insert_order_on_conflict id row d = Ok (Some id, set payment_orders (<[id := row]>) d).
Proof.
  intros Hk Hid Ha Ht Hc Hb. unfold insert_order_on_conflict.
  assert (Forall (λ r, r.1 = true) (checks rules_payment_orders row)) as Hch.
  { repeat constructor; simpl; unfold fits_numeric_30_12; try lia.
    destruct (po_target_amount row); [|done]. specialize (Ht _ eq_refl). lia. }
  eapply tx_bind_run; [by apply enforce_true|]. eapply tx_bind_run; [apply gets_run|].
  cbv beta. rewrite Hk. eapply (tx_bind_run _ _ _ tt); [|reflexivity].
  apply insert_row_ok. split_and!; try done.
  - repeat constructor. simpl. apply negb_true_iff, any_false. intros o p Hp.
    apply bool_decide_eq_false. by eapply order_by_key_None.
  - repeat constructor; simpl; by apply bool_decide_eq_true.
Qed.

(** Success of the body, with and without replay. *)
Lemma create_order_inv E a id i d r d' :
  payments_ok d →
  createPostgresPaymentOrder E a id i d = (Ok r, d') →
  (∃ l b, draft_conditions E i id d l b ∧ r = drafted_result i id l ∧
     d' = drafted_db E a i id l d) ∨
  (cor_idempotentReplay r = true ∧ d' = d ∧
   ∃ o p, payment_orders d !! o = Some p ∧ po_idempotency_key p = coi_idempotencyKey i ∧
     cor_id r = o ∧
     ∃ l, rate_locks d !! coi_rateLockId i = Some l ∧ rl_payment_order_id l = None ∧
       ∀ k, bound_lock d o = Some k → k = coi_rateLockId i).
Proof.
  intros Hok. unfold createPostgresPaymentOrder. rewrite act_throw_if_bind.
  destruct (_ || _) eqn:Hg; [done|]. intros H. unfold assertBeneficiaryScreeningClear in H.
  unbool. db_inv.
  all: match goal with H : rate_locks _ !! _ = Some ?l |- _ =>
    rename l into lock; rename H into Hl end.
  all: match goal with H : insert_order_on_conflict _ _ _ = _ |- _ => apply insert_order_inv in H end.
  all: match goal with H : ¬ is_Some (rl_payment_order_id _) |- _ => apply eq_None_not_Some in H end.
  - left. destruct_and!. simplify_eq. exists lock.
    match goal with H : beneficiaries _ !! _ = Some ?b |- _ => exists b end.
    destruct (ok_lock_terms _ Hok _ _ Hl) as [Hr _].
    pose proof (target_nonneg (coi_sourceAmount i) lock ltac:(done) Hr).
    assert (target_amount_of (coi_sourceAmount i) lock ≠ 0) by by intros Hz%numeric_text_zero.
    unfold recordEvent in *. db_inv.
    match goal with H : consume_lock _ _ _ = _ |- _ =>
      apply consume_lock_ok in H as (l' & Hl' & _ & ->); [|lia] end.
    simplify_eq/=. split_and!; [|done|].
    + split; try done; try lia.
      * apply (inj pg_text). done.
      * match goal with H : ∀ v, _ → Z.abs v < _ |- _ => specialize (H _ eq_refl) end.
        unfold scale12_of_scale8 in *. lia.
      * by apply order_by_key_None.
    + unfold drafted_db. simpl. by rewrite <-app_assoc.
  - right. destruct_and!. subst. unfold replay_order in *. db_inv.
    match goal with H : (order_by_key _ _ ≫= _) = Some _ |- _ =>
      apply bind_Some in H as ([o' p'] & Ho & ?) end. simplify_eq/=.
    apply order_by_key_Some in Ho as [Ho Hk]. split_and!; [done..|].
    eexists _, _. split_and!; [done..|]. exists lock. split_and!; [done..|].
    intros k Hb. rewrite Hb in *. unbool. done.
Qed.

Lemma create_order_run E a id i d l b :
  draft_conditions E i id d l b →
  createPostgresPaymentOrder E a id i d = (Ok (drafted_result i id l), drafted_db E a i id l d).
Proof.
  intros []. unfold createPostgresPaymentOrder. rewrite act_throw_if_bind.
  replace (_ || _) with false.
  2: { symmetry. rewrite dc_text0. apply bool_decide_eq_false. intros Hz. rewrite Hz in *.
       vm_compute in dc_amount0. by destruct dc_amount0. }
  apply transaction_ok. unfold assertBeneficiaryScreeningClear, recordEvent, insert_activity.
  assert (numeric_text 8 (target_amount_of (coi_sourceAmount i) l) ≠ "0.00000000").
  { rewrite numeric_text_zero; lia. }
  repeat tx_run_step solve_guard. rewrite dc_clear0. repeat tx_run_step solve_guard.
  eapply tx_bind_run.
  { apply insert_order_run; simpl; eauto; [by apply order_by_key_None|].
    intros v [= <-]. unfold scale12_of_scale8. lia. }
  simpl. tx_run_step solve_guard. eapply tx_bind_run; [by apply consume_lock_run|].
  tx_run_step solve_guard. tx_run_step solve_guard.
  unfold mret, tx_ret, drafted_db. simpl. by rewrite <-app_assoc.
Qed.

Lemma create_order_rolls_back E a id i d e d' :
  createPostgresPaymentOrder E a id i d = (Throw e, d') → d' = d.
Proof.
  unfold createPostgresPaymentOrder. rewrite act_throw_if_bind.
  destruct (_ || _); [by intros [= _ <-]|]. by intros [_ ->]%transaction_throw.
Qed.

Lemma createOrder_refines E a id i d : payments_ok d →
  payment_contract d (createPostgresPaymentOrder E a id i d).2.
Proof.
  intros Hok. destruct (createPostgresPaymentOrder E a id i d) as [[r|e] d'] eqn:Hc; simpl.
  - destruct (create_order_inv _ _ _ _ _ _ _ Hok Hc) as [(l & b & [] & _ & ->)|(_ & -> & _)];
      [|reflexivity].
    split; [|by apply reference_same|solve_log].
    eapply (ps_order_drafted _ _ (coi_rateLockId i) l id); eauto; try reflexivity; simpl; try lia.
    split; simpl; try done. unfold target_amount_of in *. lia.
  - apply create_order_rolls_back in Hc as ->. reflexivity.
Qed.
