(* ===== verification/PaymentProps.v ===== *)
(** * The payment workflow as a transition system, and its properties *)

From S2P Require Import Prelude Js Numeric Rows Schema Parties RateLocks PaymentWorkflow PaymentSpec PaymentRefinement.

Local Open Scope string_scope.
Local Open Scope Z_scope.

(** ** Runs

    A run is a sequence of handler calls, in any order, with any actors,
    inputs, clocks and supplied identifiers, interleaved with transactions of
    other modules, which leave the order, leg and lock tables alone. *)
Inductive workflow_step (d : db) : db → Prop :=
  | ws_customer E a id i : workflow_step d (createPostgresCustomer E a id i d).2
  | ws_beneficiary E a id i : workflow_step d (createPostgresBeneficiary E a id i d).2
  | ws_screening E a id i : workflow_step d (recordPostgresBeneficiaryScreening E a id i d).2
  | ws_counterparty E a id i : workflow_step d (createPostgresCounterparty E a id i d).2
  | ws_authorization E a id i : workflow_step d (createPostgresCounterpartyAuthorization E a id i d).2
  | ws_authorization_moved E a id s :
      workflow_step d (transitionPostgresCounterpartyAuthorization E a id s d).2
  | ws_lock E a id i : workflow_step d (Postgres.createPostgresRateLock E a id i d).2
  | ws_router_cancel E a id : workflow_step d (Postgres.cancelPostgresRateLock E a id d).2
  | ws_cancel E a id r : workflow_step d (cancelPostgresRateLock E a id r d).2
  | ws_expire E a : workflow_step d (expirePostgresRateLocks E a d).2
  | ws_order E a id i : workflow_step d (createPostgresPaymentOrder E a id i d).2
  | ws_leg E a id i : workflow_step d (createPostgresPaymentLeg E a id i d).2
  | ws_order_moved E a id s r : workflow_step d (transitionPostgresPaymentOrder E a id s r d).2
  | ws_leg_moved E a id s r : workflow_step d (transitionPostgresPaymentLeg E a id s r d).2
  | ws_elsewhere d' : same_locks d d' → same_orders d d' → same_legs d d' →
      reference_grows d d' → log_extends d d' → workflow_step d d'.

Lemma workflow_step_refines d d' : payments_ok d → workflow_step d d' → payment_contract d d'.
Proof.
  intros Hok [].
  - apply createCustomer_refines. - apply createBeneficiary_refines.
  - apply recordScreening_refines. - apply createCounterparty_refines.
  - apply createAuthorization_refines. - apply transitionAuthorization_refines.
  - apply createRateLock_refines. - apply cancelRateLock_router_refines.
  - apply cancelRateLock_refines. - apply expireRateLocks_refines.
  - by apply createOrder_refines. - apply createLeg_refines.
  - apply transitionOrder_refines. - apply transitionLeg_refines.
  - split; [by apply ps_elsewhere|done..].
Qed.

Lemma empty_ok : payments_ok empty_db.
Proof. by split; intros *; rewrite ?lookup_empty. Qed.

Lemma run_ok d d' : payments_ok d → rtc workflow_step d d' → payments_ok d'.
Proof.
  intros Hok Hr. induction Hr as [|d d1 d2 Hs _ IH]; [done|].
  apply IH. eapply payment_step_ok; [done|]. by apply workflow_step_refines.
Qed.

(** A relation kept by every step of the contract is kept by every run. *)
Lemma run_respects (R : relation db) `{!PreOrder R} d d' :
  (∀ x y, payments_ok x → payment_contract x y → R x y) →
  payments_ok d → rtc workflow_step d d' → R d d'.
Proof.
  intros HR Hok Hr. induction Hr as [|d d1 d2 Hs _ IH]; [reflexivity|].
  apply workflow_step_refines in Hs; [|done]. transitivity d1; [by apply HR|].
  apply IH. by eapply payment_step_ok.
Qed.

(** C1. Whatever sequence of requests the control plane serves from an empty
    database, every state it passes through satisfies [payments_ok]: each lock
    carries the rate of a recorded observation, each order is backed by exactly
    one lock and carries the target amount that lock determines, idempotency
    keys and leg numbers are unique, no order or leg is in a provider dependent
    state, and an approved order has a recorded policy decision. *)
Theorem payments_invariant d : rtc workflow_step empty_db d → payments_ok d.
Proof. apply run_ok, empty_ok. Qed.

(** ** Permanent bindings and identities *)

Definition locks_kept (d d' : db) : Prop :=
  ∀ i l, rate_locks d !! i = Some l →
    ∃ l', rate_locks d' !! i = Some l' ∧ same_terms l l' ∧
      (∀ o, rl_payment_order_id l = Some o → rl_payment_order_id l' = Some o) ∧
      (rl_status l ≠ LockLocked → rl_status l' = rl_status l).

#[export] Instance same_terms_preorder : PreOrder same_terms.
Proof. split; [by repeat split|]. intros x y z. unfold same_terms. naive_solver congruence. Qed.
#[export] Instance same_identity_preorder : PreOrder same_identity.
Proof. split; [by repeat split|]. intros x y z. unfold same_identity. intros. destruct_and!. split_and!; congruence. Qed.

#[export] Instance locks_kept_preorder : PreOrder locks_kept.
Proof.
  split.
  - intros d i l Hl. exists l. by repeat split.
  - intros d1 d2 d3 H12 H23 i l Hl.
    destruct (H12 i l Hl) as (l2 & Hl2 & T2 & O2 & S2), (H23 i l2 Hl2) as (l3 & Hl3 & T3 & O3 & S3).
    exists l3. split_and!; [done|by etransitivity|eauto|].
    intros Hs. rewrite S3, S2; [done..|]. by rewrite S2.
Qed.

Lemma contract_keeps_locks d d' : payment_contract d d' → locks_kept d d'.
Proof.
  intros [Hs _ _] i l Hl.
  assert (rate_locks d' = rate_locks d → ∃ l', rate_locks d' !! i = Some l' ∧ same_terms l l' ∧
    (∀ o, rl_payment_order_id l = Some o → rl_payment_order_id l' = Some o) ∧
    (rl_status l ≠ LockLocked → rl_status l' = rl_status l)) as Hsame.
  { intros ->. exists l. by repeat split. }
  destruct Hs as [| j m ? Hj HL | f HF Hf Hst | j m s Hj Hm HL | j m ? ? ? Hj Hm Hn ? ? HL | | |]; eauto.
  - exists l. rewrite HL, lookup_insert_ne by congruence. by repeat split.
  - exists (f l). rewrite HF, lookup_fmap, Hl. destruct (Hf l) as [? Ho].
    split_and!; [done..|by rewrite Ho|]. intros Hne.
    destruct (decide (rl_status (f l) = rl_status l)) as [|Hd]; [done|]. by apply Hst in Hd.
  - rewrite HL. destruct (decide (j = i)) as [->|]; simplify_eq.
    + rewrite lookup_insert_eq. eexists. by repeat split.
    + rewrite lookup_insert_ne by done. exists l. by repeat split.
  - rewrite HL. destruct (decide (j = i)) as [->|]; simplify_eq.
    + rewrite lookup_insert_eq. eexists. repeat split; simpl; congruence.
    + rewrite lookup_insert_ne by done. exists l. by repeat split.
Qed.

(** C2. Drafting is exactly its guards: a fresh order is drafted if and only
    if the amount is a positive decimal that fits, the lock is live, unexpired
    and unconsumed, the beneficiary belongs to the customer and is cleared, the
    derived amount is positive and fits, and the key is new; then precisely one
    order, one binding and two events are written, and the caller gets the
    derived amount. *)
Theorem draft_order_exact E a id i d r d' :
  payments_ok d →
  (createPostgresPaymentOrder E a id i d = (Ok r, d') ∧ cor_idempotentReplay r = false) ↔
  ∃ l b, draft_conditions E i id d l b ∧ r = drafted_result i id l ∧ d' = drafted_db E a i id l d.
Proof.
  intros Hok. split.
  - intros [Hc Hr]. destruct (create_order_inv _ _ _ _ _ _ _ Hok Hc) as [?|[? _]]; [done|congruence].
  - intros (l & b & Hd & -> & ->). split; [by eapply create_order_run|done].
Qed.

(** C3. A lock backs one order for ever: once it is bound to an order, no
    later run of the system rebinds or releases it, and every later attempt to
    draft with it is refused and writes nothing. *)
Theorem lock_backs_one_order d d' i l o E a id inp :
  payments_ok d → rate_locks d !! i = Some l → rl_payment_order_id l = Some o →
  rtc workflow_step d d' → coi_rateLockId inp = i →
  (∃ l', rate_locks d' !! i = Some l' ∧ same_terms l l' ∧ rl_payment_order_id l' = Some o) ∧
  is_ok (createPostgresPaymentOrder E a id inp d').1 = false ∧
  (createPostgresPaymentOrder E a id inp d').2 = d'.
Proof.
  intros Hok Hl Ho Hr <-.
  destruct (run_respects locks_kept d d' (λ x y _, contract_keeps_locks x y) Hok Hr _ _ Hl)
    as (l' & Hl' & ? & Ho' & _).
  specialize (Ho' o Ho). split; [eauto|].
  destruct (createPostgresPaymentOrder E a id inp d') as [[r|e] d2] eqn:Hc.
  - exfalso. destruct (create_order_inv _ _ _ _ _ _ _ (run_ok _ _ Hok Hr) Hc)
      as [(m & b & [] & _)|(_ & _ & _ & _ & _ & _ & _ & m & Hm & ? & _)]; congruence.
  - split; [done|]. by apply create_order_rolls_back in Hc.
Qed.

Lemma bound_lock_found d j m o :
  rate_locks d !! j = Some m → rl_payment_order_id m = Some o →
  ∃ k, bound_lock d o = Some k ∧ ∃ m, rate_locks d !! k = Some m ∧ rl_payment_order_id m = Some o.
Proof.
  intros Hj Hm. unfold bound_lock. destruct (select _ (rate_locks d)) as [|[k m1] t] eqn:Es.
  - exfalso. apply (not_elem_of_nil (j, m)). rewrite <-Es. apply elem_of_select.
    split; [done|]. by apply bool_decide_eq_true.
  - exists k. split; [done|]. exists m1.
    assert ((k, m1) ∈ select (λ _ l, bool_decide (rl_payment_order_id l = Some o)) (rate_locks d))
      as [? ?%bool_decide_eq_true]%elem_of_select by (rewrite Es; left). done.
Qed.

(** C4. The replay branch is dead for orders this code drafted: presenting an
    idempotency key that is already in use is always refused, whichever lock
    comes with it, and writes nothing. *)
Theorem replay_always_refused d o p E a id inp :
  payments_ok d → payment_orders d !! o = Some p →
  coi_idempotencyKey inp = po_idempotency_key p →
  is_ok (createPostgresPaymentOrder E a id inp d).1 = false ∧
  (createPostgresPaymentOrder E a id inp d).2 = d.
Proof.
  intros Hok Hp Hk. destruct (createPostgresPaymentOrder E a id inp d) as [[r|e] d'] eqn:Hc.
  - exfalso. destruct (create_order_inv _ _ _ _ _ _ _ Hok Hc)
      as [(m & b & Hd & _)|(_ & _ & o' & p' & Hp' & Hk' & _ & l & Hl & Hn & Hb)];
      [by eapply (dc_key _ _ _ _ _ _ Hd)|].
    assert (o' = o) as -> by (eapply (ok_key_once _ Hok); eauto; congruence).
    destruct (ok_backed _ Hok o p Hp) as (j & m & Hj & Hm).
    destruct (bound_lock_found _ _ _ _ Hj Hm) as (k & Hk1 & m1 & Hm1 & Hm2).
    apply Hb in Hk1 as ->. congruence.
  - split; [done|]. by apply create_order_rolls_back in Hc.
Qed.

(** ** Lifecycle transitions, exactly *)

Definition transition_event (E : env) (a : actor) (action kind : string) (id : uuid)
    (md : list (string * json)) : activity_event :=
  mk_activity_event (a_openId a) (a_role a) action kind (Some id) (db_now E)
    (JObj (md ++ [("source", JStr "postgres-control-plane")])%list) None.

Definition moved_order_db (E : env) (a : actor) (id : uuid) (p : payment_order) (new : payment_status)
    (reason : string) (d : db) : db :=
  d <| payment_orders ::= <[id := p <| po_status := new |> <| po_updated_at := db_now E |>]> |>
    <| activity_events ::= λ es,
         (es ++ [transition_event E a ("payment_order." +:+ pg_text new) "payment_order" id
            [("from", JStr (pg_text (po_status p))); ("to", JStr (pg_text new));
             ("reason", JStr reason)]])%list |>.

Lemma order_transition_run E a id p new reason d :
  payment_orders d !! id = Some p → 10 <= js_length (trim reason) →
  table_allows internalOrderTransitions (pg_text (po_status p)) (pg_text new) = true →
  (new = PayApproved → is_Some (po_policy_decision_id p)) →
  (transitionPostgresPaymentOrder E a id (pg_text new) reason d).1 = Ok (id, new) ∧
  (transitionPostgresPaymentOrder E a id (pg_text new) reason d).2 = moved_order_db E a id p new reason d.
Proof.
  intros Hp Hr Ht Ha.
  assert (transitionPostgresPaymentOrder E a id (pg_text new) reason d =
    (Ok (id, new), moved_order_db E a id p new reason d)) as ->; [|done].
  unfold transitionPostgresPaymentOrder. rewrite !act_throw_if_bind.
  rewrite (table_allows_internal _ _ _ order_table_internal Ht).
  replace (_ <? 10) with false by (symmetry; apply Z.ltb_ge; lia).
  apply transaction_ok. unfold recordEvent, insert_activity, select_by_id, update_row.
  do 3 tx_run_step solve_guard. tx_run_step ltac:(idtac).
  { apply andb_false_iff. destruct (decide (new = PayApproved)) as [->|Hn].
    - right. apply bool_decide_eq_false. destruct (Ha eq_refl) as [? ->]. done.
    - left. apply bool_decide_eq_false. intros E'. apply Hn. by apply (inj pg_text). }
  tx_run_step ltac:(apply of_text_pg_text). do 2 tx_run_step solve_guard.
  unfold mret, tx_ret, moved_order_db. simpl. by erewrite alter_as_insert by eassumption.
Qed.

(** C5. An order moves exactly along the internal lifecycle: the transition
    succeeds if and only if a substantive reason is given, the edge is in the
    table and an approval finds a recorded policy decision; it then changes the
    status and the update time of that order only, and logs the move. *)
Theorem order_transition_exact E a id s reason d r d' :
  transitionPostgresPaymentOrder E a id s reason d = (Ok r, d') ↔
  ∃ p new, payment_orders d !! id = Some p ∧ pg_text new = s ∧ 10 <= js_length (trim reason) ∧
    table_allows internalOrderTransitions (pg_text (po_status p)) s = true ∧
    (new = PayApproved → is_Some (po_policy_decision_id p)) ∧
    r = (id, new) ∧
    d' = moved_order_db E a id p new reason d.
Proof.
  split.
  - unfold transitionPostgresPaymentOrder. rewrite !act_throw_if_bind.
    destruct (includes _ s) eqn:?; [done|]. destruct (_ <? 10) eqn:?; [done|]. intros H.
    unfold recordEvent in *. db_inv.
    match goal with H : of_text s = Some ?n |- _ => apply of_text_Some in H as Hs; rename n into new end.
    eexists _, new. split_and!; [done|done|lia|done| |done|].
    + intros ->. match goal with H : (_ && _)%bool = false |- _ => apply andb_false_iff in H as [H|H] end;
        unbool; [by match goal with H : _ ≠ "approved" |- _ => destruct H end|].
      by apply not_eq_None_Some.
    + unfold moved_order_db. subst s. by erewrite alter_as_insert by eassumption.
  - intros (p & new & Hp & <- & Hr & Ht & Ha & -> & ->).
    destruct (order_transition_run E a id p new reason d) as [H1 H2]; [done..|].
    rewrite <-H1, <-H2. apply surjective_pairing.
Qed.

(** A leg moves exactly along the same lifecycle, and is approved only
    while its order is approved; the transition writes the status of that leg
    and one event, nothing else. *)
Theorem leg_transition_exact E a id s reason d r d' :
  transitionPostgresPaymentLeg E a id s reason d = (Ok r, d') ↔
  ∃ g p new, payment_legs d !! id = Some g ∧ payment_orders d !! pl_payment_order_id g = Some p ∧
    pg_text new = s ∧ 10 <= js_length (trim reason) ∧
    table_allows internalLegTransitions (pg_text (pl_status g)) s = true ∧
    (new = PayApproved → po_status p = PayApproved) ∧ r = (id, new) ∧
    d' = d <| payment_legs ::= <[id := g <| pl_status := new |>]> |>
           <| activity_events ::= λ es, (es ++ [transition_event E a ("payment_leg." +:+ s) "payment_leg" id
                [("from", JStr (pg_text (pl_status g))); ("to", JStr s);
                 ("paymentOrderId", JUuid (pl_payment_order_id g));
                 ("orderStatus", JStr (pg_text (po_status p))); ("reason", JStr reason)]])%list |>.
Proof.
  unfold transitionPostgresPaymentLeg. rewrite !act_throw_if_bind. split.
  - destruct (includes _ s) eqn:?; [done|]. destruct (_ <? 10) eqn:?; [done|]. intros H.
    unfold recordEvent in *. db_inv.
    match goal with H : of_text s = Some ?n |- _ => apply of_text_Some in H as Hs; rename n into new end.
    match goal with H : (payment_legs _ !! id ≫= _) = Some _ |- _ =>
      apply bind_Some in H as (g & Hg & (o & Ho & ?)%bind_Some) end. simplify_eq.
    eexists _, _, new. split_and!; [done..|lia|done| |done|].
    + intros ->. match goal with H : (_ && _)%bool = false |- _ => apply andb_false_iff in H as [H|H] end;
        unbool; [|done]. by match goal with H : _ ≠ "approved" |- _ => destruct H end.
    + by erewrite alter_as_insert by eassumption.
  - intros (g & p & new & Hg & Hp & <- & Hr & Ht & Ha & -> & ->).
    rewrite (table_allows_internal _ _ _ leg_table_internal Ht).
    replace (_ <? 10) with false by (symmetry; apply Z.ltb_ge; lia).
    apply transaction_ok. unfold recordEvent, insert_activity, update_row.
    tx_run_step solve_guard. tx_run_step ltac:(by rewrite Hg; simpl; rewrite Hp).
    tx_run_step solve_guard. tx_run_step ltac:(idtac).
    { apply andb_false_iff. destruct (decide (new = PayApproved)) as [->|Hn].
      - right. apply negb_false_iff, bool_decide_eq_true. auto.
      - left. apply bool_decide_eq_false. intros E'. apply Hn. by apply (inj pg_text). }
    tx_run_step ltac:(apply of_text_pg_text). do 2 tx_run_step solve_guard.
    unfold mret, tx_ret. simpl. by erewrite alter_as_insert by eassumption.
Qed.

Lemma guarded_cancel_inv E a id reason d r d' :
  cancelPostgresRateLock E a id reason d = (Ok r, d') →
  ∃ l, rate_locks d !! id = Some l ∧ rl_payment_order_id l = None.
Proof.
  unfold cancelPostgresRateLock. rewrite act_throw_if_bind.
  destruct (_ <? 10) eqn:?; [done|]. intros H. unfold recordEvent in *. db_inv.
  eexists. split; [done|]. apply eq_None_not_Some. destruct (rate_locks _ !! id); simplify_eq/=. done.
Qed.

(** The workflow's cancellation protects a consumed lock: it succeeds
    exactly on a live lock that backs no order, with a substantive reason, and
    then writes the status of that lock and one event. *)
Theorem guarded_cancel_exact E a id reason d r d' :
  cancelPostgresRateLock E a id reason d = (Ok r, d') ↔
  ∃ l, rate_locks d !! id = Some l ∧ 10 <= js_length (trim reason) ∧
    rl_status l = LockLocked ∧ rl_payment_order_id l = None ∧ r = (id, LockCancelled) ∧
    d' = d <| rate_locks ::= <[id := l <| rl_status := LockCancelled |>]> |>
           <| activity_events ::= λ es, (es ++ [transition_event E a "rate_lock.cancelled" "rate_lock" id
                [("from", JStr "locked"); ("to", JStr "cancelled");
                 ("expiresAt", JDate (js_of_pg (rl_expires_at l))); ("reason", JStr reason)]])%list |>.
Proof.
  unfold cancelPostgresRateLock. rewrite act_throw_if_bind. split.
  - destruct (_ <? 10) eqn:?; [done|]. intros H. unfold recordEvent in *. db_inv.
    eexists. split_and!; [done|lia|done| |done|].
    + apply eq_None_not_Some. destruct (rate_locks _ !! id); simplify_eq/=. done.
    + by erewrite alter_as_insert by eassumption.
  - intros (l & Hl & Hr & Hs & Hn & -> & ->).
    replace (_ <? 10) with false by (symmetry; apply Z.ltb_ge; lia).
    apply transaction_ok. unfold recordEvent, insert_activity, select_by_id, update_row.
    do 4 tx_run_step solve_guard.
    tx_run_step ltac:(apply bool_decide_eq_false; rewrite Hl; simpl; by rewrite Hn; apply is_Some_None).
    do 2 tx_run_step solve_guard.
    unfold mret, tx_ret. simpl. by erewrite alter_as_insert by eassumption.
Qed.

(** ** Expiry *)

Lemma for_each_events {A} (f : A → activity_event) g l d :
  (∀ x s, g x s = Ok (tt, set activity_events (λ es, (es ++ [f x])%list) s)) →
  for_each g l d = Ok (tt, set activity_events (λ es, (es ++ (f <$> l))%list) d).
Proof.
  intros Hg. revert d. induction l as [|x l IH]; intros d; simpl.
  - unfold mret, tx_ret. rewrite app_nil_r. by destruct d.
  - unfold mbind, tx_bind. rewrite Hg, IH. simpl. by rewrite <-app_assoc.
Qed.

Definition expired_event (E : env) (a : actor) (row : uuid * rate_lock) : activity_event :=
  transition_event E a "rate_lock.expired" "rate_lock" row.1
    [("from", JStr "locked"); ("to", JStr "expired");
     ("expiresAt", JDate (js_of_pg (rl_expires_at row.2))); ("reason", JStr "expiry_elapsed")].

Lemma expire_run E a d :
  let rows := select (λ _ l, lock_elapsed (db_now E) l) (rate_locks d) in
  expirePostgresRateLocks E a d =
    (Ok (Z.of_nat (length rows), rows.*1),
     d <| rate_locks ::= fmap (expire_lock (db_now E)) |>
       <| activity_events ::= λ es, (es ++ (expired_event E a <$> rows))%list |>).
Proof.
  intros rows. apply transaction_ok. do 2 tx_run_step solve_guard.
  eapply tx_bind_run; [by apply (for_each_events (expired_event E a))|]. done.
Qed.

Lemma expire_lock_elapsed now now' l : now <= now' →
  lock_elapsed now (expire_lock now' l) = false.
Proof.
  intros Hn. unfold expire_lock, lock_elapsed. destruct (bool_decide (rl_status l = LockLocked)) eqn:Hs;
    simpl; [|by rewrite Hs].
  destruct (rl_expires_at l <=? now') eqn:He; simpl; [done|]. rewrite Hs. simpl. lia.
Qed.

(** Expiry settles every elapsed lock at once and is idempotent: it always
    succeeds, changes exactly the live locks whose expiry has passed (one event
    each, the identifiers returned), leaves none of them live, and a second run
    at the same instant finds nothing and writes nothing. *)
Theorem expiry_settles E a d :
  let d' := (expirePostgresRateLocks E a d).2 in
  (∀ i, rate_locks d' !! i = expire_lock (db_now E) <$> rate_locks d !! i) ∧
  (∀ i l, rate_locks d' !! i = Some l → lock_elapsed (db_now E) l = false) ∧
  (∃ n ids, (expirePostgresRateLocks E a d).1 = Ok (n, ids) ∧ n = Z.of_nat (length ids) ∧
     (length (activity_events d') = length (activity_events d) + length ids)%nat ∧ NoDup ids ∧
     ∀ i, i ∈ ids ↔ ∃ l, rate_locks d !! i = Some l ∧ lock_elapsed (db_now E) l = true) ∧
  (∀ a', expirePostgresRateLocks E a' d' = (Ok (0, []), d')).
Proof.
  rewrite expire_run. simpl. split_and!.
  - intros i. by rewrite lookup_fmap.
  - intros i l. rewrite lookup_fmap, fmap_Some. intros (m & _ & ->). by apply expire_lock_elapsed.
  - eexists _, _. split_and!; [done|by rewrite length_fmap| | |].
    + by rewrite length_app, !length_fmap.
    + apply NoDup_select_fst.
    + intros i. rewrite list_elem_of_fmap. split.
      * intros ([j l] & -> & [? ?]%elem_of_select). eauto.
      * intros (l & Hl & He). exists (i, l). split; [done|]. by apply elem_of_select.
  - intros a'. rewrite expire_run. simpl.
    assert (∀ t : gmap uuid rate_lock, select (λ _ l, lock_elapsed (db_now E) l) (expire_lock (db_now E) <$> t) = []) as ->.
    { intros t. apply elem_of_nil_inv. intros [i l] [Hl He]%elem_of_select.
      rewrite lookup_fmap, fmap_Some in Hl. destruct Hl as (m & _ & ->).
      by rewrite expire_lock_elapsed in He. }
    simpl. rewrite app_nil_r, <-map_fmap_compose. do 2 f_equal. apply map_fmap_ext.
    intros i l _. simpl. unfold expire_lock at 1. by rewrite expire_lock_elapsed.
Qed.

(** ** Immutability and the missing policy decision *)

Definition orders_kept (d d' : db) : Prop :=
  ∀ o p, payment_orders d !! o = Some p → ∃ p', payment_orders d' !! o = Some p' ∧ same_identity p p'.
#[export] Instance orders_kept_preorder : PreOrder orders_kept.
Proof.
  split.
  - intros d o p Hp. exists p. split; [done|reflexivity].
  - intros d1 d2 d3 H12 H23 o p (p2 & Hp2 & I2)%H12. apply H23 in Hp2 as (p3 & ? & I3).
    exists p3. split; [done|by etransitivity].
Qed.

Lemma contract_keeps_orders d d' : payment_contract d d' → orders_kept d d'.
Proof.
  intros [Hs _ _] o p Hp.
  assert (payment_orders d' = payment_orders d →
    ∃ p', payment_orders d' !! o = Some p' ∧ same_identity p p') as Hsame.
  { intros ->. exists p. split; [done|reflexivity]. }
  destruct Hs as [| | | | ? ? o' ? ? _ _ _ Ho HO | o' q q' Hq HO ? | |]; unfold same_orders in *; eauto.
  - exists p. rewrite HO, lookup_insert_ne by congruence. split; [done|reflexivity].
  - rewrite HO. destruct (decide (o' = o)) as [->|]; simplify_eq.
    + rewrite lookup_insert_eq. eauto.
    + rewrite lookup_insert_ne by done. exists p. split; [done|reflexivity].
Qed.

(** The economic identity of an order is immutable and the past is kept:
    along any run no order disappears, its parties, corridor, currencies,
    amounts, creator and policy decision never change (the trigger of migration
    0037 never fires), no lock's terms change, and the activity log only grows
    at its end. *)
Theorem history_is_append_only d d' :
  payments_ok d → rtc workflow_step d d' → orders_kept d d' ∧ locks_kept d d' ∧ log_extends d d'.
Proof.
  intros Hok Hr. split_and!; apply (run_respects _ d d'); auto using contract_keeps_orders,
    contract_keeps_locks. by intros x y _ [].
Qed.

(** No handler records a policy decision. *)
Definition undecided (d : db) : Prop :=
  ∀ o p, payment_orders d !! o = Some p → po_policy_decision_id p = None.

Lemma contract_undecided d d' : undecided d → payment_contract d d' → undecided d'.
Proof.
  intros Hu [Hs _ _] o p Hp.
  destruct Hs as [| | | | ? ? o' p' ? _ _ _ Ho HO ? ? ? ? Hn | o' q q' Hq HO Hid | |];
    unfold undecided, same_orders in *; try (match goal with H : payment_orders d' = payment_orders d |- _ => rewrite H in Hp end; by eauto).
  - rewrite HO in Hp. apply lookup_insert_Some in Hp as [[-> <-]|[_ Hp]]; eauto.
  - rewrite HO in Hp. apply lookup_insert_Some in Hp as [[-> <-]|[_ Hp]]; [|by eauto].
    destruct Hid as (_ & _ & _ & _ & _ & _ & _ & _ & _ & _ & <- & _). eauto.
Qed.

Definition legs_unapproved (d : db) : Prop :=
  ∀ i g, payment_legs d !! i = Some g → pl_status g ≠ PayApproved.

Lemma contract_legs_unapproved d d' :
  (∀ o p, payment_orders d !! o = Some p → po_status p ≠ PayApproved) →
  legs_unapproved d → payment_contract d d' → legs_unapproved d'.
Proof.
  intros Ho Hl [Hs _ _] i g Hg.
  destruct Hs as [| | | | | |j h ? ? ? HG ? ? ? Hst|j h p s ? Hp HG ? Ha];
    unfold legs_unapproved, same_legs in *; try (match goal with H : payment_legs d' = payment_legs d |- _ => rewrite H in Hg end; by eauto).
  - rewrite HG in Hg. apply lookup_insert_Some in Hg as [[-> <-]|[_ Hg]]; [congruence|eauto].
  - rewrite HG in Hg. apply lookup_insert_Some in Hg as [[-> <-]|[_ Hg]]; [|by eauto].
    simpl. intros Hs'. by eapply Ho; [|apply Ha].
Qed.

Lemma undecided_unapproved d : payments_ok d → undecided d →
  ∀ o p, payment_orders d !! o = Some p → po_status p ≠ PayApproved.
Proof.
  intros Hok Hu o p Hp Hs. destruct (ok_order _ Hok o p Hp) as (_ & _ & Ha & _).
  apply Ha in Hs as [? Hs]. by rewrite (Hu o p Hp) in Hs.
Qed.

Lemma run_unapproved d d' : payments_ok d → undecided d → legs_unapproved d →
  rtc workflow_step d d' → undecided d' ∧ legs_unapproved d'.
Proof.
  intros Hok Hu Hl Hr. induction Hr as [|d d1 d2 Hs _ IH]; [done|].
  apply workflow_step_refines in Hs; [|done]. apply IH.
  - by eapply payment_step_ok.
  - by eapply contract_undecided.
  - eapply contract_legs_unapproved; eauto using undecided_unapproved.
Qed.

(** C6. The control plane never approves on its own authority: nothing it does
    records a policy decision, so in every reachable state no order and no leg
    is approved. *)
Theorem never_approved_alone d : rtc workflow_step empty_db d →
  (∀ o p, payment_orders d !! o = Some p → po_policy_decision_id p = None ∧ po_status p ≠ PayApproved) ∧
  (∀ i g, payment_legs d !! i = Some g → pl_status g ≠ PayApproved).
Proof.
  intros Hr. destruct (run_unapproved empty_db d) as [Hu Hl]; [apply empty_ok|done..|].
  split; [|done]. intros o p Hp. split; [by eapply Hu|].
  by eapply undecided_unapproved; [eapply run_ok, Hr; apply empty_ok|..].
Qed.

(** C7. The amount an order promises is the exact product of its source amount
    and the rate of its one lock, to within half a unit of the eighth decimal
    (amounts are scaled by 10^12, the product by 10^24). *)
Theorem target_amount_accurate d o p :
  payments_ok d → payment_orders d !! o = Some p →
  ∃ i l t, rate_locks d !! i = Some l ∧ rl_payment_order_id l = Some o ∧ po_target_amount p = Some t ∧
    0 < t ∧ 2 * Z.abs (t * 10 ^ 12 - po_source_amount p * rl_locked_rate l) <= 10 ^ 16 ∧
    (∀ j m, rate_locks d !! j = Some m → rl_payment_order_id m = Some o → j = i).
Proof.
  intros Hok Hp. destruct (ok_backed _ Hok o p Hp) as (i & l & Hl & Ho).
  destruct (ok_bound _ Hok i l o Hl Ho) as (p' & Hp' & []). simplify_eq.
  exists i, l, (scale12_of_scale8 (mul_round8 (po_source_amount p) (rl_locked_rate l))).
  unfold scale12_of_scale8. split_and!; try done; [lia| |].
  - pose proof (round_half_away_error (po_source_amount p * rl_locked_rate l) (10 ^ 16)) as He.
    unfold mul_round8. rewrite <-Z.mul_assoc. change (10 ^ 4 * 10 ^ 12) with (10 ^ 16). lia.
  - intros j m Hj Hm. by eapply (ok_bound_once _ Hok j i).
Qed.
