(* ===== verification/PaymentDemo.v ===== *)
(** * A worked run of the payment workflow

    One corridor from an empty database to a drafted order with a leg, used to
    show that the hypotheses of the payment theorems are satisfiable, and the
    two situations in which the code departs from its comments. *)

From S2P Require Import Prelude Js Numeric Rows Schema Parties RateLocks PaymentWorkflow PaymentSpec PaymentRefinement PaymentProps.

Local Open Scope string_scope.
Local Open Scope Z_scope.

Definition alice : actor := mk_actor "alice" RoleAdmin.
Definition demo_env : env := mk_env 1000000 1000000000 19000.

(** An active provider and an observed rate of 1.5, written by other modules. *)
Definition demo_connection : integration_connection :=
  mk_integration_connection 9 "sanctions" "sandbox" "https://provider.example/docs" None IntActive
    None None 0.
Definition demo_observation : market_observation :=
  mk_market_observation 50 USD NGN (1500000000000) 900000000 "obs-1".
Definition demo0 : db :=
  empty_db <| integration_connections := {[50%positive := demo_connection]} |>
           <| market_observations := {[60%positive := demo_observation]} |>.

Definition demo1 := (createPostgresCustomer demo_env alice 1 (mk_create_customer_input "Acme" "RC-1") demo0).2.
Definition demo2 := (createPostgresBeneficiary demo_env alice 2
  (mk_create_beneficiary_input 1 "Bola" "NG" "acct-1") demo1).2.
Definition demo3 := (recordPostgresBeneficiaryScreening demo_env alice 3
  (mk_screening_input 2 50 "corr" ScrClear "ref-1" "v1"
    "aaaaaaaaaaaaaaaaaaaaaaaaaaaaaaaaaaaaaaaaaaaaaaaaaaaaaaaaaaaaaaaa" 999000) demo2).2.
Definition demo4 := (Postgres.createPostgresRateLock demo_env alice 4
  (Postgres.mk_create_rate_lock_input 60 NIGERIA_NGN 2000000) demo3).2.
Definition demo_input : create_order_input := mk_create_order_input "key-1" 1 2 4 "100.25".
Definition demo5 := (createPostgresPaymentOrder demo_env alice 5 demo_input demo4).2.
Definition demo6 := (createPostgresCounterparty demo_env alice 6
  (mk_create_counterparty_input "Bank" "correspondent_bank" "Nigeria") demo5).2.
Definition demo7 := (createPostgresCounterpartyAuthorization demo_env alice 7
  (mk_create_authorization_input 6 "CBN" "L-1" "fx" "uri" 18000 None "verified") demo6).2.
Definition demo8 := (createPostgresPaymentLeg demo_env alice 8
  (mk_create_leg_input 5 1 "payout" 6) demo7).2.

Lemma demo_seeded : rtc workflow_step empty_db demo0.
Proof.
  eapply rtc_once, ws_elsewhere; try reflexivity; [|by exists []].
  split; [apply map_empty_subseteq|]. intros i b Hb. simpl in Hb. by rewrite lookup_empty in Hb.
Qed.

Lemma demo_run4 : rtc workflow_step empty_db demo4.
Proof.
  eapply rtc_r, ws_lock. eapply rtc_r, ws_screening. eapply rtc_r, ws_beneficiary.
  eapply rtc_r, ws_customer. apply demo_seeded.
Qed.

Lemma demo_run5 : rtc workflow_step empty_db demo5.
Proof. eapply rtc_r, ws_order. apply demo_run4. Qed.

Lemma demo_run8 : rtc workflow_step empty_db demo8.
Proof.
  eapply rtc_r, ws_leg. eapply rtc_r, ws_authorization. eapply rtc_r, ws_counterparty.
  apply demo_run5.
Qed.

Definition demo_lock : rate_lock :=
  mk_rate_lock 60 None NIGERIA_NGN USD NGN 1500000000000 LockLocked 2000000000 "alice" 1000000000.
Definition demo_beneficiary : beneficiary :=
  mk_beneficiary 1 "Bola" "NG" "acct-1" ScrClear 1000000000.
Definition demo_order : payment_order := drafted_order demo_env alice demo_input demo_lock.

(** Witness of [payments_invariant]: the state with an order and a leg is reachable. *)
Lemma payments_invariant_witness :
  rtc workflow_step empty_db demo8 ∧ payments_ok demo8 ∧ is_Some (payment_legs demo8 !! 8%positive).
Proof.
  split; [apply demo_run8|]. split; [apply (payments_invariant demo8 demo_run8)|].
  vm_compute. eexists. reflexivity.
Defined.

(** Witness of [draft_order_exact]: drafting 100.25 at 1.5 promises 150.375. *)
Lemma draft_order_exact_witness :
  payments_ok demo4 ∧
  createPostgresPaymentOrder demo_env alice 5 demo_input demo4 =
    (Ok (drafted_result demo_input 5 demo_lock), drafted_db demo_env alice demo_input 5 demo_lock demo4) ∧
  cor_targetAmount (drafted_result demo_input 5 demo_lock) = Some "150.375000000000".
Proof.
  assert (payments_ok demo4) as Hok by (eapply run_ok, demo_run4; apply empty_ok).
  split; [exact Hok|]. split; [|vm_compute; reflexivity].
  apply (proj2 (draft_order_exact demo_env alice 5 demo_input demo4 _ _ Hok)).
  exists demo_lock, demo_beneficiary. split; [|done].
  split; try (vm_compute; reflexivity); try (vm_compute; split; reflexivity).
  - vm_compute. eexists. reflexivity.
  - intros o p Hp. vm_compute in Hp. destruct o; discriminate.
Defined.

Lemma demo5_ok : payments_ok demo5.
Proof. eapply run_ok, demo_run5. apply empty_ok. Qed.

Definition demo_bound_lock : rate_lock := demo_lock <| rl_payment_order_id := Some 5%positive |>.

(** Witness of [lock_backs_one_order]: the lock of the demo order, after a leg was added. *)
Lemma lock_backs_one_order_witness :
  let inp := mk_create_order_input "key-2" 1 2 4 "1" in
  (∃ l', rate_locks demo8 !! 4%positive = Some l' ∧ same_terms demo_bound_lock l' ∧
     rl_payment_order_id l' = Some 5%positive) ∧
  is_ok (createPostgresPaymentOrder demo_env alice 9 inp demo8).1 = false ∧
  (createPostgresPaymentOrder demo_env alice 9 inp demo8).2 = demo8.
Proof.
  apply (lock_backs_one_order demo5 demo8 4 demo_bound_lock 5); try (vm_compute; reflexivity).
  - apply demo5_ok.
  - eapply rtc_r, ws_leg. eapply rtc_r, ws_authorization. eapply rtc_once, ws_counterparty.
Defined.

(** Witness of [replay_always_refused]: the identical request sent twice. *)
Lemma replay_always_refused_witness :
  is_ok (createPostgresPaymentOrder demo_env alice 9 demo_input demo5).1 = false ∧
  (createPostgresPaymentOrder demo_env alice 9 demo_input demo5).2 = demo5.
Proof.
  apply (replay_always_refused demo5 5 demo_order); [apply demo5_ok|vm_compute; reflexivity..].
Defined.

(** Witness of [history_is_append_only]: from the drafted order to the order with a leg. *)
Lemma history_is_append_only_witness :
  orders_kept demo5 demo8 ∧ locks_kept demo5 demo8 ∧ log_extends demo5 demo8.
Proof.
  apply history_is_append_only; [apply demo5_ok|].
  eapply rtc_r, ws_leg. eapply rtc_r, ws_authorization. eapply rtc_once, ws_counterparty.
Defined.

(** Witness of [never_approved_alone]: the demo run ends with a draft order and a draft leg. *)
Lemma never_approved_alone_witness :
  is_Some (payment_orders demo8 !! 5%positive) ∧
  ((∀ o p, payment_orders demo8 !! o = Some p → po_policy_decision_id p = None ∧ po_status p ≠ PayApproved) ∧
   (∀ i g, payment_legs demo8 !! i = Some g → pl_status g ≠ PayApproved)).
Proof.
  split; [vm_compute; eexists; reflexivity|]. apply (never_approved_alone demo8 demo_run8).
Defined.

(** Witness of [target_amount_accurate]. *)
Lemma target_amount_accurate_witness :
  ∃ i l t, rate_locks demo5 !! i = Some l ∧ rl_payment_order_id l = Some 5%positive ∧
    po_target_amount demo_order = Some t ∧ 0 < t ∧
    2 * Z.abs (t * 10 ^ 12 - po_source_amount demo_order * rl_locked_rate l) <= 10 ^ 16 ∧
    (∀ j m, rate_locks demo5 !! j = Some m → rl_payment_order_id m = Some 5%positive → j = i).
Proof.
  apply (target_amount_accurate demo5 5 demo_order); [apply demo5_ok|vm_compute; reflexivity].
Defined.

(** ** Where the code departs from its comments *)

(** The cancellation the router exposes ignores the binding: on a live
    lock that backs an order it succeeds and leaves a cancelled lock behind the
    order, where the workflow's own cancellation refuses. *)
Theorem router_cancel_ignores_binding E a id reason d l o :
  rate_locks d !! id = Some l → rl_status l = LockLocked → rl_payment_order_id l = Some o →
  (Postgres.cancelPostgresRateLock E a id d).1 = Ok (id, LockCancelled) ∧
  rate_locks (Postgres.cancelPostgresRateLock E a id d).2 !! id = Some (l <| rl_status := LockCancelled |>) ∧
  is_ok (cancelPostgresRateLock E a id reason d).1 = false ∧
  (cancelPostgresRateLock E a id reason d).2 = d.
Proof.
  intros Hl Hs Ho.
  assert (Postgres.cancelPostgresRateLock E a id d = (Ok (id, LockCancelled),
    d <| rate_locks ::= alter (λ l, l <| rl_status := LockCancelled |>) id |>
      <| activity_events ::= λ es, (es ++ [mk_activity_event (a_openId a) (a_role a) "rate_lock.cancelled"
        "rate_lock" (Some id) (db_now E) (JObj [("from", JStr (pg_text (rl_status l))); ("to", JStr (pg_text LockCancelled))]) None])%list |>)) as ->.
  { apply transaction_ok. unfold Postgres.recordActivity, insert_activity, select_by_id, update_row.
    repeat tx_run_step solve_guard. done. }
  split_and!; [done|simpl; by rewrite lookup_alter_eq, Hl|..];
    destruct (cancelPostgresRateLock E a id reason d) as [[r|e] d'] eqn:Hc; simpl; try done.
  - apply guarded_cancel_inv in Hc as (m & ? & ?). congruence.
  - apply guarded_cancel_inv in Hc as (m & ? & ?). congruence.
  - revert Hc. unfold cancelPostgresRateLock. rewrite act_throw_if_bind.
    destruct (_ <? 10); [by intros [= _ <-]|]. by intros [_ ->]%transaction_throw.
Qed.

(** Witness of [router_cancel_ignores_binding]: the lock behind the demo order. *)
Lemma router_cancel_ignores_binding_witness :
  rtc workflow_step empty_db demo5 ∧
  ((Postgres.cancelPostgresRateLock demo_env alice 4 demo5).1 = Ok (4%positive, LockCancelled) ∧
   rate_locks (Postgres.cancelPostgresRateLock demo_env alice 4 demo5).2 !! 4%positive =
     Some (demo_bound_lock <| rl_status := LockCancelled |>) ∧
   is_ok (cancelPostgresRateLock demo_env alice 4 "no longer needed" demo5).1 = false ∧
   (cancelPostgresRateLock demo_env alice 4 "no longer needed" demo5).2 = demo5).
Proof.
  split; [apply demo_run5|].
  apply (router_cancel_ignores_binding demo_env alice 4 "no longer needed" demo5 demo_bound_lock 5);
    vm_compute; reflexivity.
Defined.

(** An approved leg can outrank its order: cancelling an approved order
    succeeds and leaves its approved legs approved, so a state with an approved
    leg under a cancelled order is reached. *)
Theorem cancelled_order_keeps_approved_leg E a o p i g reason d :
  payment_orders d !! o = Some p → po_status p = PayApproved →
  payment_legs d !! i = Some g → pl_payment_order_id g = o → pl_status g = PayApproved →
  10 <= js_length (trim reason) →
  let d' := (transitionPostgresPaymentOrder E a o "cancelled" reason d).2 in
  is_ok (transitionPostgresPaymentOrder E a o "cancelled" reason d).1 = true ∧
  payment_legs d' !! i = Some g ∧ pl_status g = PayApproved ∧
  po_status <$> payment_orders d' !! o = Some PayCancelled.
Proof.
  intros Hp Hs Hg Hi Hgs Hr.
  change "cancelled" with (pg_text PayCancelled).
  destruct (order_transition_run E a o p PayCancelled reason d) as [-> Hd]; [done..|by rewrite Hs|done|].
  simpl. split_and!; [done| |done|]; rewrite Hd; simpl; [done|]. by rewrite lookup_insert_eq.
Qed.

(** The demo order with a policy decision that another service recorded, and
    the approvals that follow. *)
Definition demo9 : db :=
  demo8 <| payment_orders ::= alter (λ p, p <| po_policy_decision_id := Some 99%positive |>) 5%positive |>.
Definition demo_why := "decision recorded by the policy service".
Definition demo10 := (transitionPostgresPaymentOrder demo_env alice 5 "pending_policy_decision" demo_why demo9).2.
Definition demo11 := (transitionPostgresPaymentOrder demo_env alice 5 "approved" demo_why demo10).2.
Definition demo12 := (transitionPostgresPaymentLeg demo_env alice 8 "pending_policy_decision" demo_why demo11).2.
Definition demo13 := (transitionPostgresPaymentLeg demo_env alice 8 "approved" demo_why demo12).2.
Definition demo_approved_order : payment_order :=
  demo_order <| po_policy_decision_id := Some 99%positive |> <| po_status := PayApproved |>.
Definition demo_approved_leg : payment_leg :=
  mk_payment_leg 5 1 LegPayout (Some 6%positive) PayApproved None None.

(** Witness of [cancelled_order_keeps_approved_leg]. *)
Lemma cancelled_order_keeps_approved_leg_witness :
  let d' := (transitionPostgresPaymentOrder demo_env alice 5 "cancelled" demo_why demo13).2 in
  is_ok (transitionPostgresPaymentOrder demo_env alice 5 "cancelled" demo_why demo13).1 = true ∧
  payment_legs d' !! 8%positive = Some demo_approved_leg ∧ pl_status demo_approved_leg = PayApproved ∧
  po_status <$> payment_orders d' !! 5%positive = Some PayCancelled.
Proof.
  apply (cancelled_order_keeps_approved_leg demo_env alice 5 demo_approved_order 8 demo_approved_leg
    demo_why demo13); try (vm_compute; reflexivity). vm_compute. discriminate.
Defined.
