(* ===== verification/ComplianceAlerts.v ===== *)
(** * Compliance alerts, compliance cases and suspicious-activity filings

    src/apps/control-plane/server/complianceAlerts.ts,
    complianceCaseWorkflow.ts and the case and filing handlers of postgres.ts. *)

From S2P Require Import Prelude Js Numeric Rows Schema.

Local Open Scope string_scope.
Local Open Scope Z_scope.

(** ** Alerts *)

(** [ALLOWED_TRANSITIONS] of complianceAlerts.ts. *)
Definition ALLOWED_TRANSITIONS (from : compliance_alert_state) : list compliance_alert_state :=
  match from with
  | AlertOpen => [AlertAcknowledged; AlertEscalated; AlertDismissed]
  | AlertAcknowledged => [AlertEscalated; AlertDismissed]
  | AlertEscalated => []
  | AlertDismissed => []
  end.

Record raise_input : Type := mk_raise_input {
  ri_alertPolicyId : uuid;
  ri_severity : alert_severity;
  ri_sourceReference : string;
  ri_evidence : json;
  ri_detectedAt : Z;
  ri_paymentOrderId : option uuid;
  ri_customerId : option uuid;
  ri_counterpartyId : option uuid
}.

(** [ALERT_SELECT WHERE alert_policy_id = $1 AND source_reference = $2]. *)
Definition find_alert (d : db) (policy : uuid) (source : string) : option (uuid * compliance_alert) :=
  head (select (λ _ r, bool_decide (ca_alert_policy_id r = policy) &&
                       bool_decide (ca_source_reference r = source)) (compliance_alerts d)).

Definition raised_alert (E : env) (policy : alert_policy) (i : raise_input) : compliance_alert :=
  mk_compliance_alert (ri_alertPolicyId i) (ap_alert_type policy) (ap_corridor policy) (ri_severity i)
    AlertOpen (ri_sourceReference i) (ri_evidence i) (pg_of_js (ri_detectedAt i)) (ri_paymentOrderId i)
    (ri_customerId i) (ri_counterpartyId i) None None None None None None None None None None None None
    (db_now E).

(** The body between [BEGIN] and [COMMIT] of [raisePostgresComplianceAlert]. *)
Definition raise_body (E : env) (a : actor) (new_id : uuid) (input : raise_input) :
    Tx db ((uuid * compliance_alert) * bool) :=
  policies ← select_by_id alert_policies (ri_alertPolicyId input);
  policy ← require policies
    (JsError "alert policy not found; an alert cannot exist without its policy");
  _ ← throw_if (negb (ap_enabled policy)) (JsError "alert policy is disabled; no alert was raised");
  existing ← gets (λ d, find_alert d (ri_alertPolicyId input) (ri_sourceReference input));
  match existing with
  | Some alert => mret (alert, false)
  | None =>
      _ ← insert_row compliance_alerts "compliance_alerts" rules_compliance_alerts new_id
        (raised_alert E policy input);
      _ ← insert_activity E a "compliance_alert.raised" "compliance_alert" (Some new_id)
        (JObj [("alertType", JStr (pg_text (ap_alert_type policy)));
               ("severity", JStr (pg_text (ri_severity input)));
               ("sourceReference", JStr (ri_sourceReference input));
               ("detectedAt", JDate (ri_detectedAt input))]);
      mret ((new_id, raised_alert E policy input), true)
  end.

Definition raisePostgresComplianceAlert (E : env) (a : actor) (new_id : uuid) (input : raise_input) :
    Act db ((uuid * compliance_alert) * bool) :=
  _ ← act_throw_if (js_length (trim (ri_sourceReference input)) <? 8)
    (JsError "compliance alert requires a verifiable source reference of at least 8 characters");
  _ ← act_throw_if (match ri_evidence input with JNull => true | _ => false end)
    (JsError "compliance alert requires detection evidence");
  transaction (raise_body E a new_id input).

(** [transitionAlert]: [apply] is the callback that writes the new state and
    returns the metadata of the event. *)
Definition transitionAlert (E : env) (a : actor) (alertId : uuid) (target : compliance_alert_state)
    (apply : uuid → compliance_alert → Tx db (list (string * json))) : Act db (uuid * compliance_alert) :=
  transaction (
    rows ← select_by_id compliance_alerts alertId;
    current ← require rows (JsError "compliance alert not found");
    _ ← throw_if (negb (includes (ALLOWED_TRANSITIONS (ca_state current)) target))
      (JsError ("compliance alert cannot move from " +:+ pg_text (ca_state current) +:+ " to "
        +:+ pg_text target));
    metadata ← apply alertId current;
    _ ← insert_activity E a ("compliance_alert." +:+ pg_text target) "compliance_alert" (Some alertId)
      (JObj ([("from", JStr (pg_text (ca_state current))); ("to", JStr (pg_text target))] ++ metadata)%list);
    updated ← select_by_id compliance_alerts alertId;
    row ← require updated (JsError "compliance alert not found");
    mret (alertId, row)).

Definition acknowledgePostgresComplianceAlert (E : env) (a : actor) (alertId : uuid) (note : string) :
    Act db (uuid * compliance_alert) :=
  _ ← act_throw_if (js_length (trim note) <? 8) (JsError "acknowledgement requires a substantive note");
  transitionAlert E a alertId AlertAcknowledged (λ id current,
    _ ← update_checked compliance_alerts rules_compliance_alerts id (λ r,
      r <| ca_state := AlertAcknowledged |>
        <| ca_acknowledged_by := Some (a_openId a) |> <| ca_acknowledged_by_role := Some (a_role a) |>
        <| ca_acknowledged_at := Some (db_now E) |> <| ca_acknowledgement_note := Some note |>);
    mret [("note", JStr note)]).

(** Both named and different. *)
Definition subjects_differ (x y : option uuid) : bool :=
  match x, y with Some x, Some y => negb (bool_decide (x = y)) | _, _ => false end.

Definition escalatePostgresComplianceAlert (E : env) (a : actor) (alertId caseId : uuid) :
    Act db (uuid * compliance_alert) :=
  transitionAlert E a alertId AlertEscalated (λ id current,
    cases ← select_by_id compliance_cases caseId;
    complianceCase ← require cases (JsError "escalation requires an existing compliance case");
    _ ← throw_if (bool_decide (cc_status complianceCase = CaseClosed))
      (JsError "cannot escalate an alert into a closed compliance case");
    _ ← throw_if (subjects_differ (ca_customer_id current) (cc_customer_id complianceCase))
      (JsError "escalation case subject does not match the alert subject");
    _ ← throw_if (subjects_differ (ca_payment_order_id current) (cc_payment_order_id complianceCase))
      (JsError "escalation case payment order does not match the alert");
    _ ← update_checked compliance_alerts rules_compliance_alerts id (λ r,
      r <| ca_state := AlertEscalated |> <| ca_escalated_case_id := Some caseId |>
        <| ca_escalated_by := Some (a_openId a) |> <| ca_escalated_by_role := Some (a_role a) |>
        <| ca_escalated_at := Some (db_now E) |>);
    mret [("caseId", JUuid caseId)]).

Definition dismissPostgresComplianceAlert (E : env) (a : actor) (alertId : uuid) (reason : string) :
    Act db (uuid * compliance_alert) :=
  _ ← act_throw_if (js_length (trim reason) <? 8) (JsError "dismissal requires a substantive reason");
  transitionAlert E a alertId AlertDismissed (λ id current,
    _ ← update_checked compliance_alerts rules_compliance_alerts id (λ r,
      r <| ca_state := AlertDismissed |>
        <| ca_dismissed_by := Some (a_openId a) |> <| ca_dismissed_by_role := Some (a_role a) |>
        <| ca_dismissed_at := Some (db_now E) |> <| ca_dismissal_reason := Some reason |>);
    mret [("reason", JStr reason)]).

(** [limit = Math.min(Math.max(options.limit ?? 100, 1), 500)], an optional
    state filter, newest detection first. *)
Definition listPostgresComplianceAlerts (state : option compliance_alert_state) (limit : option Z) (d : db) :
    list (uuid * compliance_alert) :=
  let n := Z.min (Z.max (default 100 limit) 1) 500 in
  take (Z.to_nat n) (order_by_desc (λ x, ca_detected_at x.2)
    (select (λ _ r, match state with Some s => bool_decide (ca_state r = s) | None => true end)
      (compliance_alerts d))).

(** ** Cases *)

Record open_case_input : Type := mk_open_case_input {
  oci_caseType : case_type;
  oci_severity : alert_severity;
  oci_sourceReference : string;
  oci_decisionReason : option string
}.

Definition createPostgresComplianceCase (E : env) (a : actor) (new_id : uuid) (input : open_case_input) :
    Act db (uuid * case_status) :=
  transaction (
    _ ← insert_row compliance_cases "compliance_cases" rules_compliance_cases new_id
      (mk_compliance_case None None (oci_caseType input) CaseOpen (oci_severity input)
        (oci_sourceReference input) (oci_decisionReason input) (db_now E) None);
    _ ← insert_activity E a "compliance_case.opened" "compliance_case" (Some new_id)
      (JObj [("caseType", JStr (pg_text (oci_caseType input)));
             ("severity", JStr (pg_text (oci_severity input)));
             ("sourceReference", JStr (oci_sourceReference input));
             ("hasDecisionReason", JBool (truthy_opt (trim <$> oci_decisionReason input)))]);
    mret (new_id, CaseOpen)).

(** [ALLOWED_CASE_TRANSITIONS] of complianceCaseWorkflow.ts. *)
Definition ALLOWED_CASE_TRANSITIONS (from : case_status) : list case_status :=
  match from with
  | CaseOpen => [CaseUnderReview; CaseClosed]
  | CaseUnderReview => [CaseCleared; CaseEscalated; CaseReported; CaseClosed]
  | CaseEscalated => [CaseReported; CaseCleared; CaseClosed]
  | CaseCleared => [CaseClosed]
  | CaseReported => [CaseClosed]
  | CaseClosed => []
  end.

Definition allowedComplianceCaseTransitions (status : case_status) : list case_status :=
  ALLOWED_CASE_TRANSITIONS status.

(** [evidence] is the [randomUUID()] of the event. *)
Definition disposeComplianceCase (E : env) (a : actor) (evidence : uuid) (complianceCaseId : uuid)
    (status : case_status) (reason : string) : Act db (uuid * case_status) :=
  let decisionReason := trim reason in
  _ ← act_throw_if (js_length decisionReason <? 20)
    (JsError "a compliance-case disposition requires an attributable rationale of at least 20 characters");
  transaction (
    current ← select_by_id compliance_cases complianceCaseId;
    existing ← require current (JsError "compliance case was not found");
    _ ← throw_if (negb (includes (ALLOWED_CASE_TRANSITIONS (cc_status existing)) status))
      (JsError ("a compliance case in " +:+ pg_text (cc_status existing) +:+ " cannot transition to "
        +:+ pg_text status));
    let closesCase := bool_decide (status = CaseClosed) in
    _ ← update_row compliance_cases complianceCaseId (λ c,
      c <| cc_status := status |> <| cc_decision_reason := Some decisionReason |>
        <| cc_closed_at ::= λ t, if closesCase then Some (db_now E) else t |>);
    _ ← insert_activity E a "compliance_case.disposed" "compliance_case" (Some complianceCaseId)
      (JObj [("fromStatus", JStr (pg_text (cc_status existing))); ("toStatus", JStr (pg_text status));
             ("caseType", JStr (pg_text (cc_case_type existing))); ("decisionReason", JStr decisionReason);
             ("decidedAt", JDate (app_now E)); ("evidenceReference", JUuid evidence)]);
    mret (complianceCaseId, status)).

(** ** Filings *)

Record create_filing_input : Type := mk_create_filing_input {
  cfi_complianceCaseId : uuid;
  cfi_corridor : corridor_code;
  cfi_filingType : string;
  cfi_filingAuthority : string;
  cfi_sourceReference : string
}.

Definition createPostgresSarStrFiling (E : env) (a : actor) (new_id : uuid) (input : create_filing_input) :
    Act db (uuid * sar_str_filing_status) :=
  transaction (
    caseResult ← select_by_id compliance_cases (cfi_complianceCaseId input);
    _ ← require caseResult (JsError "SAR/STR filing requires an existing compliance case");
    _ ← insert_row sar_str_filings "sar_str_filings" rules_sar_str_filings new_id
      (mk_sar_str_filing (cfi_complianceCaseId input) (cfi_corridor input) (cfi_filingType input)
        (cfi_filingAuthority input) (cfi_sourceReference input) FilingDraft None (a_openId a)
        (db_now E) (db_now E));
    _ ← insert_activity E a "sar_str_filing.draft_created" "sar_str_filing" (Some new_id)
      (JObj [("complianceCaseId", JUuid (cfi_complianceCaseId input));
             ("corridor", JStr (pg_text (cfi_corridor input)));
             ("filingType", JStr (cfi_filingType input));
             ("filingAuthority", JStr (cfi_filingAuthority input));
             ("sourceReference", JStr (cfi_sourceReference input))]);
    mret (new_id, FilingDraft)).

(** The [allowed] table of [transitionPostgresSarStrFiling]; [submitted] has no
    entry. *)
Definition filing_allowed (from : sar_str_filing_status) : list sar_str_filing_status :=
  match from with
  | FilingDraft => [FilingUnderReview]
  | FilingUnderReview => [FilingApprovedForSubmission; FilingRejected]
  | FilingApprovedForSubmission => [FilingPendingSubmission]
  | FilingPendingSubmission => [FilingSubmitted; FilingSubmissionUnavailable]
  | FilingSubmissionUnavailable => [FilingPendingSubmission]
  | FilingRejected => []
  | FilingSubmitted => []
  end.

Definition transitionPostgresSarStrFiling (E : env) (a : actor) (filingId : uuid)
    (status : sar_str_filing_status) (submission : option string) : Act db (uuid * sar_str_filing_status) :=
  transaction (
    current ← select_by_id sar_str_filings filingId;
    filing ← require current (JsError "SAR/STR filing was not found");
    _ ← throw_if (negb (includes (filing_allowed (ssf_status filing)) status))
      (JsError "invalid SAR/STR workflow transition");
    let submissionReference :=
      match submission with Some s => Some s | None => ssf_submission_reference filing end in
    _ ← throw_if (bool_decide (status = FilingSubmitted) && negb (truthy_opt (trim <$> submissionReference)))
      (JsError "verified submission reference is required before submitted status");
    _ ← update_row sar_str_filings filingId (λ f,
      f <| ssf_status := status |> <| ssf_submission_reference := submissionReference |>
        <| ssf_updated_at := db_now E |>);
    _ ← insert_activity E a "sar_str_filing.transitioned" "sar_str_filing" (Some filingId)
      (JObj [("from", JStr (pg_text (ssf_status filing))); ("to", JStr (pg_text status));
             ("hasSubmissionReference", JBool (truthy_opt (trim <$> submissionReference)));
             ("providerSubmissionActivated", JBool false)]);
    mret (filingId, status)).
