(* ===== verification/ComplianceProps.v ===== *)
(** * What alerts, cases and filings guarantee *)

From S2P Require Import Prelude Js Numeric Rows Schema ComplianceAlerts.

Local Open Scope string_scope.
Local Open Scope Z_scope.

(** ** The contract *)

(** What never changes about an alert once it is raised. *)
Definition same_alert (r r' : compliance_alert) : Prop :=
  ca_alert_policy_id r = ca_alert_policy_id r' ∧ ca_alert_type r = ca_alert_type r' ∧
  ca_corridor r = ca_corridor r' ∧ ca_severity r = ca_severity r' ∧
  ca_source_reference r = ca_source_reference r' ∧ ca_evidence r = ca_evidence r' ∧
  ca_detected_at r = ca_detected_at r' ∧ ca_payment_order_id r = ca_payment_order_id r' ∧
  ca_customer_id r = ca_customer_id r' ∧ ca_counterparty_id r = ca_counterparty_id r'.

(** An escalated alert points at an existing case about the same subject. *)
Definition escalation_linked (d : db) (r : compliance_alert) : Prop :=
  ca_state r = AlertEscalated →
  ∃ k c, ca_escalated_case_id r = Some k ∧ compliance_cases d !! k = Some c ∧
    subjects_differ (ca_customer_id r) (cc_customer_id c) = false ∧
    subjects_differ (ca_payment_order_id r) (cc_payment_order_id c) = false.

(** The event of a disposition to [s]. *)
Definition disposed_to (id : uuid) (s : case_status) (e : activity_event) : Prop :=
  ev_action e = "compliance_case.disposed" ∧ ev_object_id e = Some id ∧
  ∃ kvs, ev_metadata e = JObj kvs ∧ record_get kvs "toStatus" = Some (JStr (pg_text s)).

Definition same_case_subject (c c' : compliance_case) : Prop :=
  cc_payment_order_id c = cc_payment_order_id c' ∧ cc_customer_id c = cc_customer_id c' ∧
  cc_case_type c = cc_case_type c' ∧ cc_opened_at c = cc_opened_at c'.

Inductive compliance_step (d d' : db) : Prop :=
  | cs_elsewhere :
      compliance_alerts d' = compliance_alerts d → compliance_cases d' = compliance_cases d →
      sar_str_filings d' = sar_str_filings d → compliance_step d d'
  | cs_alert_raised i r :
      compliance_alerts d !! i = None → compliance_alerts d' = <[i := r]> (compliance_alerts d) →
      ca_state r = AlertOpen →
      (∀ j x, compliance_alerts d !! j = Some x → ca_alert_policy_id x = ca_alert_policy_id r →
        ca_source_reference x ≠ ca_source_reference r) →
      compliance_cases d' = compliance_cases d → sar_str_filings d' = sar_str_filings d →
      compliance_step d d'
  | cs_alert_moved i r r' :
      compliance_alerts d !! i = Some r → compliance_alerts d' = <[i := r']> (compliance_alerts d) →
      same_alert r r' → ca_state r' ∈ ALLOWED_TRANSITIONS (ca_state r) → alert_complete r' = true →
      escalation_linked d r' →
      compliance_cases d' = compliance_cases d → sar_str_filings d' = sar_str_filings d →
      compliance_step d d'
  | cs_case_opened i c :
      compliance_cases d !! i = None → compliance_cases d' = <[i := c]> (compliance_cases d) →
      cc_status c = CaseOpen → cc_closed_at c = None →
      compliance_alerts d' = compliance_alerts d → sar_str_filings d' = sar_str_filings d →
      compliance_step d d'
  | cs_case_disposed i c c' e w :
      compliance_cases d !! i = Some c → compliance_cases d' = <[i := c']> (compliance_cases d) →
      same_case_subject c c' → cc_status c' ∈ ALLOWED_CASE_TRANSITIONS (cc_status c) →
      cc_decision_reason c' = Some w → 20 <= js_length w →
      cc_closed_at c' = (if bool_decide (cc_status c' = CaseClosed) then Some (ev_occurred_at e)
                         else cc_closed_at c) →
      activity_events d' = (activity_events d ++ [e])%list → disposed_to i (cc_status c') e →
      compliance_alerts d' = compliance_alerts d → sar_str_filings d' = sar_str_filings d →
      compliance_step d d'
  | cs_filing_created i f :
      sar_str_filings d !! i = None → sar_str_filings d' = <[i := f]> (sar_str_filings d) →
      ssf_status f = FilingDraft → is_Some (compliance_cases d !! ssf_compliance_case_id f) →
      compliance_alerts d' = compliance_alerts d → compliance_cases d' = compliance_cases d →
      compliance_step d d'
  | cs_filing_moved i f f' :
      sar_str_filings d !! i = Some f → sar_str_filings d' = <[i := f']> (sar_str_filings d) →
      ssf_compliance_case_id f' = ssf_compliance_case_id f →
      ssf_status f' ∈ filing_allowed (ssf_status f) →
      (ssf_status f' = FilingSubmitted → truthy_opt (trim <$> ssf_submission_reference f') = true) →
      compliance_alerts d' = compliance_alerts d → compliance_cases d' = compliance_cases d →
      compliance_step d d'.

Definition compliance_contract (d d' : db) : Prop := compliance_step d d' ∧ log_extends d d'.
#[export] Instance compliance_contract_refl : Reflexive compliance_contract.
Proof. intros d. split; [by apply cs_elsewhere|reflexivity]. Qed.

(** ** Every handler refines it *)

Ltac log_suffix := unfold log_extends; simpl; rewrite <-?app_assoc; apply prefix_app_r; reflexivity.
Ltac compliance_handler :=
  intros; repeat (apply act_throw_if_respects; [apply _|intros []]);
  apply transaction_respects; [apply _|]; intros d ? d' ?.

Ltac invert_update r :=
  match goal with H : update_checked _ _ _ _ _ = _ |- _ =>
    apply (update_checked_ok _ _ _ _ r) in H as (Hc & _ & ->); [|done] end; rules_inv.

(** The shape shared by the three transitions: the callback writes the row and
    nothing else. *)
Lemma transitionAlert_refines E a id target apply :
  (∀ r d md d1, compliance_alerts d !! id = Some r → apply id r d = Ok (md, d1) →
     ∃ r', d1 = set compliance_alerts (<[id := r']>) d ∧ same_alert r r' ∧ ca_state r' = target ∧
       alert_complete r' = true ∧ escalation_linked d r') →
  act_respects compliance_contract (transitionAlert E a id target apply).
Proof.
  intros Ha. compliance_handler. db_inv.
  match goal with H : apply _ _ _ = _ |- _ => apply Ha in H as (r' & -> & ? & <- & ? & ?) end; [|done].
  db_inv. split; [|log_suffix]. eapply (cs_alert_moved _ _ id); eauto; try reflexivity.
  by apply includes_true.
Qed.

Lemma acknowledge_refines E a id note :
  act_respects compliance_contract (acknowledgePostgresComplianceAlert E a id note).
Proof.
  unfold acknowledgePostgresComplianceAlert. intros d. rewrite act_throw_if_bind.
  destruct (_ <? 8) eqn:Hn; [reflexivity|]. apply transitionAlert_refines.
  intros r d0 md d1 Hr H. db_inv. invert_update r. eexists. split_and!; [done|by repeat split|done|done|done].
Qed.

Lemma dismiss_refines E a id reason :
  act_respects compliance_contract (dismissPostgresComplianceAlert E a id reason).
Proof.
  unfold dismissPostgresComplianceAlert. intros d. rewrite act_throw_if_bind.
  destruct (_ <? 8) eqn:Hn; [reflexivity|]. apply transitionAlert_refines.
  intros r d0 md d1 Hr H. db_inv. invert_update r. eexists. split_and!; [done|by repeat split|done|done|done].
Qed.

Lemma escalate_refines E a id caseId :
  act_respects compliance_contract (escalatePostgresComplianceAlert E a id caseId).
Proof.
  apply transitionAlert_refines. intros r d md d1 Hr H. db_inv.
  invert_update r. eexists. split_and!; [done|by repeat split|done|done|].
  intros _. eauto 10.
Qed.

Lemma raise_refines E a id i :
  act_respects compliance_contract (raisePostgresComplianceAlert E a id i).
Proof.
  compliance_handler. unfold raise_body in *. db_inv; [reflexivity|].
  split; [|log_suffix]. eapply (cs_alert_raised _ _ id); eauto; try reflexivity.
  match goal with H : any _ _ = false |- _ =>
    intros j y Hj Hp Hs; pose proof (proj1 (any_false _ _) H j y Hj) as Hn end.
  simpl in Hn. by rewrite !bool_decide_eq_true_2 in Hn.
Qed.

Lemma createCase_refines E a id i :
  act_respects compliance_contract (createPostgresComplianceCase E a id i).
Proof.
  compliance_handler. db_inv. split; [|log_suffix].
  eapply (cs_case_opened _ _ id); eauto; reflexivity.
Qed.

Lemma disposeCase_refines E a ev id s reason :
  act_respects compliance_contract (disposeComplianceCase E a ev id s reason).
Proof.
  unfold disposeComplianceCase. intros d. cbv zeta. rewrite act_throw_if_bind.
  destruct (_ <? 20) eqn:Hn; [reflexivity|]. revert d. apply transaction_respects; [apply _|].
  intros d ? d' H. db_inv. split; [|log_suffix].
  eapply (cs_case_disposed _ _ id). 8: reflexivity.
  all: [> eassumption|simpl; by erewrite alter_as_insert by eassumption|by repeat split
    |simpl; by apply includes_true|reflexivity|lia|reflexivity| |reflexivity..].
  split_and!; [done..|]. eexists. split; [done|]. reflexivity.
Qed.

Lemma createFiling_refines E a id i :
  act_respects compliance_contract (createPostgresSarStrFiling E a id i).
Proof.
  compliance_handler. db_inv. split; [|log_suffix].
  eapply (cs_filing_created _ _ id); eauto; reflexivity.
Qed.

Lemma transitionFiling_refines E a id s sub :
  act_respects compliance_contract (transitionPostgresSarStrFiling E a id s sub).
Proof.
  compliance_handler. db_inv. split; [|log_suffix].
  eapply (cs_filing_moved _ _ id);
    [eassumption|simpl; by erewrite alter_as_insert by eassumption|reflexivity
    |simpl; by apply includes_true| |reflexivity..].
  simpl. intros ->.
  match goal with H : (_ && _)%bool = false |- _ => apply andb_false_iff in H as [H|H] end;
    unbool; done.
Qed.

(** ** Runs and the invariant *)

Inductive compliance_call (d : db) : db → Prop :=
  | call_raise E a id i : compliance_call d (raisePostgresComplianceAlert E a id i d).2
  | call_acknowledge E a id n : compliance_call d (acknowledgePostgresComplianceAlert E a id n d).2
  | call_escalate E a id k : compliance_call d (escalatePostgresComplianceAlert E a id k d).2
  | call_dismiss E a id w : compliance_call d (dismissPostgresComplianceAlert E a id w d).2
  | call_open E a id i : compliance_call d (createPostgresComplianceCase E a id i d).2
  | call_dispose E a ev id s w : compliance_call d (disposeComplianceCase E a ev id s w d).2
  | call_file E a id i : compliance_call d (createPostgresSarStrFiling E a id i d).2
  | call_move_filing E a id s w : compliance_call d (transitionPostgresSarStrFiling E a id s w d).2
  | call_elsewhere d' :
      compliance_alerts d' = compliance_alerts d → compliance_cases d' = compliance_cases d →
      sar_str_filings d' = sar_str_filings d → log_extends d d' → compliance_call d d'.

Lemma compliance_call_refines d d' : compliance_call d d' → compliance_contract d d'.
Proof.
  intros [].
  - apply raise_refines. - apply acknowledge_refines. - apply escalate_refines.
  - apply dismiss_refines. - apply createCase_refines. - apply disposeCase_refines.
  - apply createFiling_refines. - apply transitionFiling_refines.
  - split; [by apply cs_elsewhere|done].
Qed.

(** The statuses only a review leads to. *)
Definition reviewed_status (s : case_status) : bool :=
  match s with CaseOpen | CaseClosed => false | _ => true end.

Record compliance_ok (d : db) : Prop := {
  co_alert i r : compliance_alerts d !! i = Some r → alert_complete r = true ∧ escalation_linked d r;
  co_alert_once i j r x : compliance_alerts d !! i = Some r → compliance_alerts d !! j = Some x →
    ca_alert_policy_id r = ca_alert_policy_id x → ca_source_reference r = ca_source_reference x → i = j;
  co_case i c : compliance_cases d !! i = Some c →
    (cc_status c = CaseClosed ↔ is_Some (cc_closed_at c)) ∧
    (cc_status c ≠ CaseOpen → ∃ w, cc_decision_reason c = Some w ∧ 20 <= js_length w) ∧
    (reviewed_status (cc_status c) = true →
      ∃ e, e ∈ activity_events d ∧ disposed_to i CaseUnderReview e);
  co_filing i f : sar_str_filings d !! i = Some f →
    is_Some (compliance_cases d !! ssf_compliance_case_id f) ∧
    (ssf_status f = FilingSubmitted → truthy_opt (trim <$> ssf_submission_reference f) = true)
}.

(** A case keeps its row and its subject. *)
Definition cases_grow (d d' : db) : Prop :=
  ∀ k c, compliance_cases d !! k = Some c →
    ∃ c', compliance_cases d' !! k = Some c' ∧ same_case_subject c c'.

Lemma cases_grow_same d d' : compliance_cases d' = compliance_cases d → cases_grow d d'.
Proof. intros HC k c Hk. exists c. rewrite HC. by repeat split. Qed.

Lemma compliance_step_cases d d' : compliance_step d d' → cases_grow d d'.
Proof.
  intros [|? ? _ _ _ _ HC _|? ? ? _ _ _ _ _ _ HC _|i c Hi HC|i c c' e w Hi HC Hid|? ? _ _ _ _ _ HC
    |? ? ? _ _ _ _ _ _ HC]; try by apply cases_grow_same.
  - intros k x Hk. exists x. rewrite HC, lookup_insert_ne by congruence. by repeat split.
  - intros k x Hk. rewrite HC. destruct (decide (i = k)) as [->|]; simplify_eq.
    + rewrite lookup_insert_eq. eauto.
    + rewrite lookup_insert_ne by done. exists x. by repeat split.
Qed.

Lemma escalation_linked_grow d d' r : cases_grow d d' → escalation_linked d r → escalation_linked d' r.
Proof.
  intros Hg Hl Hs. destruct (Hl Hs) as (k & c & Hk & Hc & H1 & H2).
  destruct (Hg k c Hc) as (c' & Hc' & E1 & E2 & _). exists k, c'. by rewrite <-E1, <-E2.
Qed.

Lemma escalation_linked_open d r : ca_state r = AlertOpen → escalation_linked d r.
Proof. intros Ho Hs. congruence. Qed.

Section invariant.
Context (d d' : db) (Hok : compliance_ok d) (Hlog : log_extends d d').

Lemma alerts_ok_kept : cases_grow d d' → compliance_alerts d' = compliance_alerts d →
  ∀ i r, compliance_alerts d' !! i = Some r → alert_complete r = true ∧ escalation_linked d' r.
Proof.
  intros Hg -> i r Hr. destruct (co_alert _ Hok i r Hr). eauto using escalation_linked_grow.
Qed.

Lemma cases_ok_kept : compliance_cases d' = compliance_cases d →
  ∀ i c, compliance_cases d' !! i = Some c →
    (cc_status c = CaseClosed ↔ is_Some (cc_closed_at c)) ∧
    (cc_status c ≠ CaseOpen → ∃ w, cc_decision_reason c = Some w ∧ 20 <= js_length w) ∧
    (reviewed_status (cc_status c) = true →
      ∃ e, e ∈ activity_events d' ∧ disposed_to i CaseUnderReview e).
Proof.
  intros -> i c Hc. destruct (co_case _ Hok i c Hc) as (H1 & H2 & H3). split_and!; [done..|].
  intros Hr. destruct (H3 Hr) as (e & He & ?). exists e. split; [|done].
  destruct Hlog as [l ->]. apply elem_of_app. by left.
Qed.

Lemma filings_ok_kept : cases_grow d d' → sar_str_filings d' = sar_str_filings d →
  ∀ i f, sar_str_filings d' !! i = Some f →
    is_Some (compliance_cases d' !! ssf_compliance_case_id f) ∧
    (ssf_status f = FilingSubmitted → truthy_opt (trim <$> ssf_submission_reference f) = true).
Proof.
  intros Hg -> i f Hf. destruct (co_filing _ Hok i f Hf) as [[c Hc] ?].
  destruct (Hg _ _ Hc) as (c' & ? & _). eauto.
Qed.
End invariant.

Lemma disposed_case_ok d d' i c c' e w :
  compliance_ok d → log_extends d d' → compliance_cases d !! i = Some c →
  compliance_cases d' = <[i := c']> (compliance_cases d) →
  cc_status c' ∈ ALLOWED_CASE_TRANSITIONS (cc_status c) →
  cc_decision_reason c' = Some w → 20 <= js_length w →
  cc_closed_at c' = (if bool_decide (cc_status c' = CaseClosed) then Some (ev_occurred_at e)
                     else cc_closed_at c) →
  activity_events d' = (activity_events d ++ [e])%list → disposed_to i (cc_status c') e →
  (cc_status c' = CaseClosed ↔ is_Some (cc_closed_at c')) ∧
  (cc_status c' ≠ CaseOpen → ∃ w, cc_decision_reason c' = Some w ∧ 20 <= js_length w) ∧
  (reviewed_status (cc_status c') = true → ∃ e, e ∈ activity_events d' ∧ disposed_to i CaseUnderReview e).
Proof.
  intros Hok Hlog Hc HC Ht Hw Hl Ha HE He. destruct (co_case _ Hok i c Hc) as (H1 & _ & H3).
  split_and!; [|by eauto|].
  - rewrite Ha. case_bool_decide as Hcl; [naive_solver|]. split; [done|].
    intros Hs. apply H1 in Hs. rewrite Hs in Ht. by apply not_elem_of_nil in Ht.
  - intros Hr. destruct (decide (cc_status c' = CaseUnderReview)) as [Hu|Hu].
    + exists e. rewrite HE, <-Hu. split; [|done]. apply elem_of_app. right. left.
    + assert (reviewed_status (cc_status c) = true) as Hr0.
      { destruct (cc_status c); [|done..|by apply not_elem_of_nil in Ht].
        simpl in Ht. rewrite !elem_of_cons, elem_of_nil in Ht.
        destruct Ht as [Ht|[Ht|[]]]; [done|]. by rewrite Ht in Hr. }
      destruct (H3 Hr0) as (e0 & He0 & ?). exists e0. split; [|done].
      rewrite HE. apply elem_of_app. by left.
Qed.

Lemma compliance_step_ok d d' : compliance_ok d → compliance_contract d d' → compliance_ok d'.
Proof.
  intros Hok [Hs Hlog]. pose proof (compliance_step_cases _ _ Hs) as Hg.
  destruct Hs as [HA HC HF|i r Hi HA Ho Hn HC HF|i r r' Hi HA Hid Ht Hc Hl HC HF|i c Hi HC Ho Hcl HA HF
    |i c c' e w Hi HC Hid Ht Hw Hwl Hcl HE He HA HF|i f Hi HF Ho Hk HA HC|i f f' Hi HF Hk Ht Hsub HA HC].
  all: split.
  all: try by (eapply alerts_ok_kept; eauto).
  all: try by (eapply cases_ok_kept; eauto).
  all: try by (eapply filings_ok_kept; eauto).
  all: try by (rewrite HA; apply (co_alert_once _ Hok)).
  - intros j x Hj. rewrite HA in Hj. apply lookup_insert_Some in Hj as [[<- <-]|[_ Hj]].
    + split; [|by apply escalation_linked_open]. unfold alert_complete. by rewrite Ho.
    + destruct (co_alert _ Hok j x Hj). eauto using escalation_linked_grow.
  - intros j k x y Hj Hk E1 E2. rewrite HA in Hj, Hk.
    apply lookup_insert_Some in Hj as [[<- <-]|[_ Hj]], Hk as [[<- <-]|[_ Hk]]; [done|..].
    + by edestruct Hn. + by edestruct Hn. + by eapply (co_alert_once _ Hok).
  - intros j x Hj. rewrite HA in Hj. apply lookup_insert_Some in Hj as [[<- <-]|[_ Hj]].
    + eauto using escalation_linked_grow.
    + destruct (co_alert _ Hok j x Hj). eauto using escalation_linked_grow.
  - intros j k x y Hj Hk E1 E2. rewrite HA in Hj, Hk. destruct Hid as (P & _ & _ & _ & Q & _).
    apply lookup_insert_Some in Hj as [[? ?]|[? Hj]], Hk as [[? ?]|[? Hk]]; subst; try done;
      eapply (co_alert_once _ Hok); eauto; congruence.
  - intros j x Hj. rewrite HC in Hj. apply lookup_insert_Some in Hj as [[<- <-]|[_ Hj]].
    + rewrite Ho, Hcl. split_and!; [|done..]. split; [done|]. by intros [].
    + destruct (co_case _ Hok j x Hj) as (H1 & H2 & H3). split_and!; [done..|].
      intros Hr. destruct (H3 Hr) as (e & ? & ?). exists e. split; [|done].
      destruct Hlog as [l ->]. apply elem_of_app. by left.
  - intros j x Hj. rewrite HC in Hj. apply lookup_insert_Some in Hj as [[<- <-]|[_ Hj]].
    + by eapply disposed_case_ok.
    + destruct (co_case _ Hok j x Hj) as (H1 & H2 & H3). split_and!; [done..|].
      intros Hr. destruct (H3 Hr) as (e0 & ? & ?). exists e0. split; [|done].
      rewrite HE. apply elem_of_app. by left.
  - intros j x Hj. rewrite HF in Hj. rewrite HC. apply lookup_insert_Some in Hj as [[<- <-]|[_ Hj]].
    + split; [done|]. by rewrite Ho.
    + by apply (co_filing _ Hok j).
  - intros j x Hj. rewrite HF in Hj. rewrite HC. apply lookup_insert_Some in Hj as [[<- <-]|[_ Hj]].
    + split; [|done]. rewrite Hk. by apply (co_filing _ Hok i f).
    + by apply (co_filing _ Hok j).
Qed.

Lemma compliance_empty_ok : compliance_ok empty_db.
Proof. by split; intros *; rewrite ?lookup_empty. Qed.

Lemma compliance_run_ok d d' : compliance_ok d → rtc compliance_call d d' → compliance_ok d'.
Proof.
  intros Hok Hr. induction Hr as [|d d1 d2 Hs _ IH]; [done|].
  apply IH. eapply compliance_step_ok; [done|]. by apply compliance_call_refines.
Qed.

(** C12. Whatever the order of requests, every alert carries the attribution
    its state demands and an escalated one points at an existing case about the
    same subject; one alert per policy and source; a case is closed exactly when
    its closing time is set, has a rationale of twenty characters once it left
    [open], and is under review, cleared, escalated or reported only if a review
    is on record; a filing belongs to a case and is submitted only with a
    reference. *)
Theorem compliance_invariant d : rtc compliance_call empty_db d → compliance_ok d.
Proof. apply compliance_run_ok, compliance_empty_ok. Qed.

(** ** Finality *)

Definition alerts_kept (d d' : db) : Prop :=
  ∀ i r, compliance_alerts d !! i = Some r →
    ∃ r', compliance_alerts d' !! i = Some r' ∧ same_alert r r' ∧
      (ALLOWED_TRANSITIONS (ca_state r) = [] → r' = r) ∧
      (ca_state r' = AlertOpen → ca_state r = AlertOpen).
Definition cases_kept (d d' : db) : Prop :=
  ∀ i c, compliance_cases d !! i = Some c →
    ∃ c', compliance_cases d' !! i = Some c' ∧ same_case_subject c c' ∧
      (cc_status c = CaseClosed → c' = c) ∧
      (cc_status c ∈ [CaseCleared; CaseReported] → cc_status c' ∈ [cc_status c; CaseClosed]).

#[export] Instance alerts_kept_preorder : PreOrder alerts_kept.
Proof.
  split.
  - intros d i r Hr. exists r. by repeat split.
  - intros d1 d2 d3 H12 H23 i r Hr. destruct (H12 i r Hr) as (r2 & H2 & I2 & T2 & O2).
    destruct (H23 i r2 H2) as (r3 & H3 & I3 & T3 & O3). exists r3. split_and!; [done| |..].
    + unfold same_alert in *. destruct_and!. split_and!; congruence.
    + intros Ht. rewrite T3; [by apply T2|]. by rewrite (T2 Ht).
    + auto.
Qed.
#[export] Instance cases_kept_preorder : PreOrder cases_kept.
Proof.
  split.
  - intros d i c Hc. exists c. split_and!; [done|by repeat split|done|]. intros _. left.
  - intros d1 d2 d3 H12 H23 i c Hc. destruct (H12 i c Hc) as (c2 & H2 & I2 & T2 & O2).
    destruct (H23 i c2 H2) as (c3 & H3 & I3 & T3 & O3). exists c3. split_and!; [done| |..].
    + unfold same_case_subject in *. destruct_and!. split_and!; congruence.
    + intros Ht. rewrite T3; [by apply T2|]. by rewrite (T2 Ht).
    + intros Hs. specialize (O2 Hs). rewrite !elem_of_cons, elem_of_nil in O2.
      destruct O2 as [E|[E|[]]]; [rewrite <-E in *; by apply O3|]. rewrite (T3 E), E. right. left.
Qed.

Lemma contract_keeps_alerts d d' : compliance_contract d d' → alerts_kept d d'.
Proof.
  intros [Hs _] i r Hr.
  assert (compliance_alerts d' = compliance_alerts d → ∃ r', compliance_alerts d' !! i = Some r' ∧
    same_alert r r' ∧ (ALLOWED_TRANSITIONS (ca_state r) = [] → r' = r) ∧
    (ca_state r' = AlertOpen → ca_state r = AlertOpen)) as Hsame.
  { intros ->. exists r. by repeat split. }
  destruct Hs as [|j x Hj HA|j x x' Hj HA Hid Ht| | | |]; eauto.
  - exists r. rewrite HA, lookup_insert_ne by congruence. by repeat split.
  - rewrite HA. destruct (decide (j = i)) as [->|]; simplify_eq.
    + exists x'. rewrite lookup_insert_eq. split_and!; [done..| |].
      * intros Hn. rewrite Hn in Ht. by apply not_elem_of_nil in Ht.
      * intros Ho. rewrite Ho in Ht. destruct (ca_state x); simpl in Ht; set_solver.
    + exists r. rewrite lookup_insert_ne by done. by repeat split.
Qed.

Lemma contract_keeps_cases d d' : compliance_contract d d' → cases_kept d d'.
Proof.
  intros [Hs _] i c Hc.
  assert (compliance_cases d' = compliance_cases d → ∃ c', compliance_cases d' !! i = Some c' ∧
    same_case_subject c c' ∧ (cc_status c = CaseClosed → c' = c) ∧
    (cc_status c ∈ [CaseCleared; CaseReported] → cc_status c' ∈ [cc_status c; CaseClosed])) as Hsame.
  { intros ->. exists c. split_and!; [done|by repeat split|done|]. intros _. left. }
  destruct Hs as [| | |j x Hj HC|j x x' ? ? Hj HC Hid Ht| |]; eauto.
  - exists c. rewrite HC, lookup_insert_ne by congruence. split_and!; [done|by repeat split|done|].
    intros _. left.
  - rewrite HC. destruct (decide (j = i)) as [->|]; simplify_eq.
    + exists x'. rewrite lookup_insert_eq. split_and!; [done..| |].
      * intros Hn. rewrite Hn in Ht. by apply not_elem_of_nil in Ht.
      * intros Hin. destruct (cc_status x); simpl in Ht; set_solver.
    + exists c. rewrite lookup_insert_ne by done. split_and!; [done|by repeat split|done|].
      intros _. left.
Qed.

(** Outcomes are final: along any run no alert or case disappears or
    changes its subject, an escalated or dismissed alert and a closed case never
    change again, an alert never returns to [open], a cleared or reported case
    can only be closed, and the log only grows. *)
Theorem outcomes_are_final d d' :
  rtc compliance_call d d' → alerts_kept d d' ∧ cases_kept d d' ∧ log_extends d d'.
Proof.
  intros Hr. induction Hr as [d|d d1 d2 Hs _ (IA & IC & IL)]; [by split_and!|].
  apply compliance_call_refines in Hs. split_and!.
  - transitivity d1; [by apply contract_keeps_alerts|done].
  - transitivity d1; [by apply contract_keeps_cases|done].
  - transitivity d1; [by destruct Hs|done].
Qed.

(** ** Raising *)

Lemma find_alert_Some d p s i r : find_alert d p s = Some (i, r) →
  compliance_alerts d !! i = Some r ∧ ca_alert_policy_id r = p ∧ ca_source_reference r = s.
Proof.
  unfold find_alert. intros Hh.
  assert ((i, r) ∈ select (λ _ r, bool_decide (ca_alert_policy_id r = p) &&
    bool_decide (ca_source_reference r = s)) (compliance_alerts d)) as [Hr Hp]%elem_of_select
    by (destruct (select _ _); simplify_eq/=; left). by unbool.
Qed.

Lemma find_alert_unique d i r : compliance_ok d → compliance_alerts d !! i = Some r →
  find_alert d (ca_alert_policy_id r) (ca_source_reference r) = Some (i, r).
Proof.
  intros Hok Hr.
  destruct (find_alert d (ca_alert_policy_id r) (ca_source_reference r)) as [[j x]|] eqn:Hf.
  - apply find_alert_Some in Hf as (Hx & E1 & E2).
    assert (j = i) as -> by (by eapply (co_alert_once _ Hok j i)). congruence.
  - exfalso. unfold find_alert in Hf. apply head_None in Hf.
    apply (not_elem_of_nil (i, r)). rewrite <-Hf. apply elem_of_select. split; [done|].
    by rewrite !bool_decide_eq_true_2.
Qed.

Lemma raise_body_inv E a id i d al b d' : raise_body E a id i d = Ok ((al, b), d') →
  ∃ policy, alert_policies d' !! ri_alertPolicyId i = Some policy ∧ ap_enabled policy = true ∧
    compliance_alerts d' !! al.1 = Some al.2 ∧ ca_alert_policy_id al.2 = ri_alertPolicyId i ∧
    ca_source_reference al.2 = ri_sourceReference i.
Proof.
  unfold raise_body. intros H. db_inv.
  - match goal with H : find_alert _ _ _ = Some ?x |- _ =>
      destruct x as [k r]; apply find_alert_Some in H as (? & ? & ?) end. eauto 10.
  - eexists. split_and!; [eassumption|done|simpl; by rewrite lookup_insert_eq|done|done].
Qed.

(** Raising is idempotent: once an alert was raised for a policy and a
    source, raising the same condition again, by anyone, at any time and with
    any severity or evidence, returns that very alert, creates nothing and
    writes nothing. *)
Theorem raise_is_idempotent E a id i d al b d' E' a' id' i' :
  compliance_ok d → raisePostgresComplianceAlert E a id i d = (Ok (al, b), d') →
  ri_alertPolicyId i' = ri_alertPolicyId i → ri_sourceReference i' = ri_sourceReference i →
  ri_evidence i' ≠ JNull →
  raisePostgresComplianceAlert E' a' id' i' d' = (Ok (al, false), d').
Proof.
  intros Hok Hr Ep Es Hev.
  assert (compliance_ok d') as Hok'.
  { pose proof (raise_refines E a id i d) as Hc. rewrite Hr in Hc. by eapply compliance_step_ok. }
  revert Hr. unfold raisePostgresComplianceAlert. rewrite !act_throw_if_bind. rewrite Es.
  destruct (_ <? 8); [done|].
  destruct (match ri_evidence i with JNull => true | _ => false end); [done|].
  intros Hr. apply transaction_ok, raise_body_inv in Hr as (p & Hp & He & Hal & E1 & E2).
  replace (match ri_evidence i' with JNull => true | _ => false end) with false
    by by destruct (ri_evidence i').
  apply transaction_ok. unfold raise_body, select_by_id. rewrite Ep.
  tx_run_step solve_guard. tx_run_step solve_guard. tx_run_step ltac:(by rewrite He).
  tx_run_step solve_guard. rewrite Es, <-E1, <-E2. destruct al as [k r]. simpl in *.
  by rewrite (find_alert_unique _ _ _ Hok' Hal).
Qed.

(** ** Alerts decide nothing *)

(** Everything except the alerts and the log. *)
Definition with_alerts_of (d d' : db) : db :=
  d' <| compliance_alerts := compliance_alerts d |> <| activity_events := activity_events d |>.
Definition rest_unchanged (d d' : db) : Prop := with_alerts_of d d' = d.
#[export] Instance rest_unchanged_preorder : PreOrder rest_unchanged.
Proof.
  split.
  - intros []. reflexivity.
  - intros d1 d2 d3 H12 H23. unfold rest_unchanged in *.
    change (with_alerts_of d1 d3) with (with_alerts_of d1 (with_alerts_of d2 d3)). by rewrite H23.
Qed.

Lemma update_alert_rest id f : respects rest_unchanged (update_checked compliance_alerts rules_compliance_alerts id f).
Proof.
  unfold update_checked. apply respects_bind; [apply _|apply respects_gets, _|]. intros d0.
  destruct (_ !! id); [|apply respects_ret, _].
  apply respects_bind; [apply _|intros d ? d' [_ ->]%enforce_ok; reflexivity|]. intros _.
  apply respects_bind; [apply _|apply respects_modify; intros []; reflexivity|]. intros _.
  apply respects_bind; [apply _|apply respects_gets, _|].
  intros d1 d ? d' [_ ->]%enforce_ok. reflexivity.
Qed.

Lemma transitionAlert_rest E a id t apply :
  (∀ i r, respects rest_unchanged (apply i r)) → act_respects rest_unchanged (transitionAlert E a id t apply).
Proof.
  intros Ha. apply transaction_respects; [apply _|].
  repeat first [apply Ha | apply respects_bind; [apply _|..] | apply respects_gets, _ | apply respects_require, _
    | apply respects_throw_if, _ | apply respects_ret, _ | apply respects_modify; intros []; reflexivity | intros ?].
Qed.

(** An alert is not a decision: raising, acknowledging, escalating or
    dismissing one leaves every other table as it was, whatever the outcome of
    the call; in particular no case, order, leg, lock or beneficiary moves. *)
Theorem alerts_decide_nothing E a id i n k w :
  act_respects rest_unchanged (raisePostgresComplianceAlert E a id i) ∧
  act_respects rest_unchanged (acknowledgePostgresComplianceAlert E a id n) ∧
  act_respects rest_unchanged (escalatePostgresComplianceAlert E a id k) ∧
  act_respects rest_unchanged (dismissPostgresComplianceAlert E a id w).
Proof.
  split_and!; repeat (apply act_throw_if_respects; [apply _|intros []]).
  - apply transaction_respects; [apply _|]. intros d r d' H. unfold raise_body in H.
    db_inv; [reflexivity|]. by destruct d.
  - apply transitionAlert_rest. intros j r. apply respects_bind; [apply _|apply update_alert_rest|].
    intros []. apply respects_ret, _.
  - apply transitionAlert_rest. intros j r.
    repeat first [apply update_alert_rest | apply respects_bind; [apply _|..] | apply respects_gets, _
      | apply respects_require, _ | apply respects_throw_if, _ | apply respects_ret, _ | intros ?].
  - apply transitionAlert_rest. intros j r. apply respects_bind; [apply _|apply update_alert_rest|].
    intros []. apply respects_ret, _.
Qed.

(** ** Dispositions, exactly *)

Definition disposed_db (E : env) (a : actor) (ev id : uuid) (c : compliance_case) (s : case_status)
    (reason : string) (d : db) : db :=
  d <| compliance_cases ::= <[id := c <| cc_status := s |> <| cc_decision_reason := Some (trim reason) |>
         <| cc_closed_at ::= λ t, if bool_decide (s = CaseClosed) then Some (db_now E) else t |>]> |>
    <| activity_events ::= λ es, (es ++ [mk_activity_event (a_openId a) (a_role a) "compliance_case.disposed"
         "compliance_case" (Some id) (db_now E)
         (JObj [("fromStatus", JStr (pg_text (cc_status c))); ("toStatus", JStr (pg_text s));
             ("caseType", JStr (pg_text (cc_case_type c))); ("decisionReason", JStr (trim reason));
             ("decidedAt", JDate (app_now E)); ("evidenceReference", JUuid ev)]) None])%list |>.

(** C13. A disposition is exactly an edge of the case lifecycle taken with a
    rationale of at least twenty characters; it writes the status, the rationale
    and, on closing only, the closing time of that case, and its event, in one
    transaction. *)
Theorem disposition_exact E a ev id s reason d r d' :
  disposeComplianceCase E a ev id s reason d = (Ok r, d') ↔
  ∃ c, compliance_cases d !! id = Some c ∧ 20 <= js_length (trim reason) ∧
    s ∈ ALLOWED_CASE_TRANSITIONS (cc_status c) ∧ r = (id, s) ∧ d' = disposed_db E a ev id c s reason d.
Proof.
  unfold disposeComplianceCase. cbv zeta. rewrite act_throw_if_bind. split.
  - destruct (_ <? 20) eqn:?; [done|]. intros H. db_inv. eexists.
    split_and!; [done|lia|by apply includes_true|done|].
    unfold disposed_db. by erewrite alter_as_insert by eassumption.
  - intros (c & Hc & Hl & Ht & -> & ->).
    replace (_ <? 20) with false by (symmetry; apply Z.ltb_ge; lia).
    apply transaction_ok. unfold insert_activity, select_by_id, update_row.
    do 2 tx_run_step solve_guard. tx_run_step ltac:(by apply negb_false_iff, includes_true).
    do 2 tx_run_step solve_guard. unfold mret, tx_ret, disposed_db. simpl.
    by erewrite alter_as_insert by eassumption.
Qed.

(** ** A worked run *)

Definition officer : actor := mk_actor "officer-7" RoleComplianceOfficer.
Definition case_env : env := mk_env 5000 5000000 19000.
Definition case0 : db :=
  empty_db <| alert_policies := {[1%positive := mk_alert_policy AltComplianceFlag None (JObj []) true "admin" 0]} |>.
Definition case_raise : raise_input := mk_raise_input 1 SevHigh "order-0001" (JObj [("n", JNum 3)]) 4000 None None None.
Definition case1 := (raisePostgresComplianceAlert case_env officer 2 case_raise case0).2.
Definition case2 := (createPostgresComplianceCase case_env officer 3
  (mk_open_case_input CtSanctions SevHigh "order-0001" None) case1).2.
Definition case3 := (escalatePostgresComplianceAlert case_env officer 2 3 case2).2.
Definition case4 := (disposeComplianceCase case_env officer 77 3 CaseUnderReview
  "assigned to the sanctions desk" case3).2.

Lemma case_run : rtc compliance_call empty_db case4.
Proof.
  eapply rtc_r, call_dispose. eapply rtc_r, call_escalate. eapply rtc_r, call_open.
  eapply rtc_r, call_raise. eapply rtc_once, call_elsewhere; [reflexivity|reflexivity|reflexivity|by exists []].
Qed.

(** Witness of [compliance_invariant]: an escalated alert and a case under review. *)
Lemma compliance_invariant_witness :
  (ca_state <$> compliance_alerts case4 !! 2%positive) = Some AlertEscalated ∧
  (cc_status <$> compliance_cases case4 !! 3%positive) = Some CaseUnderReview ∧ compliance_ok case4.
Proof.
  split; [vm_compute; reflexivity|]. split; [vm_compute; reflexivity|].
  apply (compliance_invariant case4 case_run).
Defined.

(** Witness of [outcomes_are_final]: the escalated alert survives the disposition. *)
Lemma outcomes_are_final_witness :
  alerts_kept case3 case4 ∧ cases_kept case3 case4 ∧ log_extends case3 case4.
Proof. apply outcomes_are_final. eapply rtc_once, call_dispose. Defined.

(** Witness of [raise_is_idempotent]: the same condition raised twice. *)
Lemma raise_is_idempotent_witness :
  ∃ al, raisePostgresComplianceAlert case_env officer 9 case_raise case1 = (Ok (al, false), case1).
Proof.
  eexists. eapply (raise_is_idempotent case_env officer 2 case_raise case0).
  - eapply (compliance_run_ok empty_db); [apply compliance_empty_ok|].
    eapply rtc_once, call_elsewhere; [reflexivity|reflexivity|reflexivity|by exists []].
  - vm_compute. reflexivity.
  - reflexivity.
  - reflexivity.
  - discriminate.
Defined.
