(* ===== verification/OperationalAlerts.v ===== *)
(** * Operational alerts

    src/apps/control-plane/server/operationalAlerts.ts: liquidity thresholds,
    payment failures and ageing compliance cases, each evaluated from the
    recorded rows and delivered once per window; and the validation of
    _core/notification.ts. The webhook's answer is an argument: it stands for
    the network. [randomUUID()] is an argument as well. *)

From S2P Require Import Prelude Js Numeric Sha256 Rows Schema.

Local Open Scope string_scope.
Local Open Scope Z_scope.

Definition newline : string := String "010"%char "".

(** ** Notification *)

Definition TITLE_MAX_LENGTH : Z := 1200.
Definition CONTENT_MAX_LENGTH : Z := 20000.

Definition validatePayload (title content : string) : option (string * string) :=
  let title := trim title in
  let content := trim content in
  if negb (truthy title) || negb (truthy content) || (TITLE_MAX_LENGTH <? js_length title) ||
     (CONTENT_MAX_LENGTH <? js_length content)
  then None else Some (title, content).

(** The outcome of the POST (or [false] when no endpoint is configured) is
    [webhook title content]. *)
Definition notifyOwner (webhook : string → string → bool) (title content : string) : Tx db bool :=
  payload ← require (validatePayload title content) (JsError "Notification content is invalid.");
  mret (webhook payload.1 payload.2).

(** ** Delivery *)

Definition recordActivity (E : env) (a : actor) (action objectType : string) (objectId : uuid)
    (metadata : list (string * json)) : Tx db unit :=
  insert_activity E a action objectType (Some objectId) (JObj metadata).

(** [alert_type = $1 AND enabled = true AND (corridor IS NULL OR corridor::text = $2)]. *)
Definition policy_matches (t : alert_type) (corridor : option corridor_code) (p : alert_policy) : bool :=
  bool_decide (ap_alert_type p = t) && ap_enabled p &&
  match ap_corridor p with
  | None => true
  | Some c => bool_decide (corridor = Some c)
  end.

Definition payload_hash (title content : string) : string := sha256 (title +:+ newline +:+ content).

(** What one call of [deliver] is about. *)
Record notice : Type := mk_notice {
  n_corridor : option corridor_code;
  n_title : string;
  n_content : string;
  n_metadata : list (string * json);
  n_correlation : uuid
}.

Definition delivery_row (E : env) (t : alert_type) (n : notice) (delivered : bool) (policyId : uuid) :
    notification_delivery :=
  mk_notification_delivery (Some policyId) t (if delivered then "accepted" else "unavailable")
    "project_owner" (n_correlation n) (payload_hash (n_title n) (n_content n)) (db_now E).

Definition deliver (E : env) (webhook : string → string → bool) (a : actor) (t : alert_type) (n : notice) :
    Tx db (bool * list uuid) :=
  rows ← gets (λ d, select (λ _ p, policy_matches t (n_corridor n) p) (alert_policies d));
  let policyIds := rows.*1 in
  match policyIds with
  | [] => mret (false, policyIds)
  | _ =>
      delivered ← notifyOwner webhook (n_title n) (n_content n);
      _ ← for_each (λ policyId, insert_delivery (delivery_row E t n delivered policyId)) policyIds;
      _ ← recordActivity E a "operational_alert.delivery_attempted" "alert_delivery" (n_correlation n)
        (n_metadata n ++ [("alertType", JStr (pg_text t)); ("policyIds", JArr (JUuid <$> policyIds));
                          ("delivered", JBool delivered)])%list;
      mret (delivered, policyIds)
  end.

Definition delivery_seen (t : alert_type) (hash : string) (since : Z) (r : notification_delivery) : bool :=
  bool_decide (nd_alert_type r = t) && bool_decide (nd_payload_hash r = hash) &&
  (pg_of_js since <=? nd_created_at r).

Definition alreadyDelivered (t : alert_type) (hash : string) (since : Z) : Tx db bool :=
  gets (λ d, existsb (delivery_seen t hash since) (notification_deliveries d)).

(** The loop shared by the three evaluations: suppress what the window has
    seen, deliver the rest; counts of delivered and suppressed notices. *)
Fixpoint deliver_all (E : env) (webhook : string → string → bool) (a : actor) (t : alert_type)
    (since : Z) (ns : list notice) : Tx db (Z * Z) :=
  match ns with
  | [] => mret (0, 0)
  | n :: ns =>
      seen ← alreadyDelivered t (payload_hash (n_title n) (n_content n)) since;
      if seen : bool then
        rest ← deliver_all E webhook a t since ns;
        mret (rest.1, rest.2 + 1)
      else
        result ← deliver E webhook a t n;
        rest ← deliver_all E webhook a t since ns;
        mret (rest.1 + (match result.2 with [] => 0 | _ => 1 end), rest.2)
  end.

(** ** Liquidity thresholds *)

Inductive band : Type := Amber | Red.
Definition band_text (b : band) : string := match b with Amber => "amber" | Red => "red" end.

Record LiquidityBreach : Type := mk_LiquidityBreach {
  lb_corridor : corridor_code;
  lb_currency : string;
  lb_accountReference : string;
  lb_availableAmount : string;
  lb_requiredMinimum : string;
  lb_band : band;
  lb_policyVersion : string;
  lb_sourceReference : string
}.

Record LiquidityEvaluation : Type := mk_LiquidityEvaluation {
  le_evaluatedAt : string;
  le_breaches : list LiquidityBreach;
  le_indeterminateCorridors : list (corridor_code * string);
  le_delivered : Z;
  le_suppressedAsDuplicate : Z
}.

(** The latest policy of a corridor that is effective at [now]: rank 1 of the
    window function. *)
Definition latest_policy (now : Z) (c : corridor_code) (d : db) : option treasury_buffer_policy :=
  snd <$> head (order_by_desc (λ r, tbp_effective_from r.2)
    (select (λ _ p, bool_decide (tbp_corridor p = c) && (tbp_effective_from p <=? pg_of_js now))
      (treasury_buffer_policies d))).

Definition position_fresh (p : treasury_buffer_policy) (floor : Z) (c : corridor_code)
    (x : liquidity_position) : bool :=
  bool_decide (lp_corridor x = c) && bool_decide (lp_currency x = tbp_currency p) &&
  bool_decide (lp_account_kind x ∈ tbp_permitted_account_kinds p) && (pg_of_js floor <=? lp_reconciled_at x).

(** [daily * pct]: the product of scale 18 of an amount of scale 12 and a
    percentage of scale 6. *)
Definition floor_amount (daily pct : Z) : Z := daily * pct.

(** The [CASE] expressions: the band and the floor that was missed. *)
Definition position_band (p : treasury_buffer_policy) (x : liquidity_position) : option (band * Z) :=
  let red := floor_amount (tbp_approved_daily_outflow p) (tbp_minimum_buffer_pct p) in
  let amber := floor_amount (tbp_approved_daily_outflow p) (tbp_amber_buffer_pct p) in
  if lp_available_amount x * 10 ^ 6 <? red then Some (Red, red)
  else if lp_available_amount x * 10 ^ 6 <? amber then Some (Amber, amber)
  else None.

Definition position_breach (c : corridor_code) (p : treasury_buffer_policy) (x : liquidity_position) :
    option LiquidityBreach :=
  '(b, floor) ← position_band p x;
  Some (mk_LiquidityBreach c (tbp_currency p) (lp_account_reference x)
    (numeric_text 12 (lp_available_amount x)) (numeric_text 18 floor) b (tbp_policy_version p)
    (lp_source_reference x)).

(** One iteration of the corridor loop: its breaches, or why it is
    indeterminate. *)
Definition evaluate_corridor (now freshnessFloor : Z) (d : db) (c : corridor_code) :
    list LiquidityBreach + string :=
  match latest_policy now c d with
  | None => inr "no_approved_buffer_policy"
  | Some p =>
      match select (λ _ x, position_fresh p freshnessFloor c x) (liquidity_positions d) with
      | [] => inr "no_reconciled_position_within_freshness_window"
      | positions => inl (omap (λ r, position_breach c p r.2) positions)
      end
  end.

Definition corridors : list corridor_code := [NIGERIA_NGN; KENYA_KES; SOUTH_AFRICA_ZAR].

Definition all_breaches (now freshnessFloor : Z) (d : db) : list LiquidityBreach :=
  flat_map (λ c, match evaluate_corridor now freshnessFloor d c with inl bs => bs | inr _ => [] end) corridors.
Definition all_indeterminate (now freshnessFloor : Z) (d : db) : list (corridor_code * string) :=
  flat_map (λ c, match evaluate_corridor now freshnessFloor d c with inl _ => [] | inr w => [(c, w)] end) corridors.

Definition breach_notice (corr : nat → uuid) (k : nat) (b : LiquidityBreach) : notice :=
  mk_notice (Some (lb_corridor b))
    ("UmojaFlowOS " +:+ pg_text (lb_corridor b) +:+ " liquidity buffer " +:+ toUpperCase (band_text (lb_band b)))
    ("Account " +:+ lb_accountReference b +:+ " holds " +:+ lb_availableAmount b +:+ " " +:+ lb_currency b
      +:+ ", below the " +:+ band_text (lb_band b) +:+ " floor of " +:+ lb_requiredMinimum b
      +:+ " under policy " +:+ lb_policyVersion b +:+ ". Reconciled source: " +:+ lb_sourceReference b
      +:+ ". This alert initiates no transfer.")
    [("accountReference", JStr (lb_accountReference b)); ("band", JStr (band_text (lb_band b)));
     ("policyVersion", JStr (lb_policyVersion b))]
    (corr k).

Record liquidity_options : Type := mk_liquidity_options {
  lo_now : option Z;
  lo_maxPositionAgeHours : option Z;
  lo_windowHours : option Z
}.

Definition evaluatePostgresLiquidityThresholds (E : env) (webhook : string → string → bool)
    (corr : nat → uuid) (evaluation : uuid) (a : actor) (options : liquidity_options) :
    Act db LiquidityEvaluation :=
  let now := default (app_now E) (lo_now options) in
  let freshnessFloor := now - default 24 (lo_maxPositionAgeHours options) * 3600000 in
  let windowStart := now - default 24 (lo_windowHours options) * 3600000 in
  transaction (
    d ← gets (λ d, d);
    let breaches := all_breaches now freshnessFloor d in
    let indeterminate := all_indeterminate now freshnessFloor d in
    counts ← deliver_all E webhook a AltLiquidityThreshold windowStart (imap (breach_notice corr) breaches);
    _ ← recordActivity E a "liquidity_threshold.evaluated" "alert_evaluation" evaluation
      [("evaluatedAt", JDate now); ("breachCount", JNum (Z.of_nat (length breaches)));
       ("indeterminate", JArr ((λ r, JObj [("corridor", JStr (pg_text r.1)); ("reason", JStr r.2)])
          <$> indeterminate));
       ("delivered", JNum counts.1); ("suppressedAsDuplicate", JNum counts.2)];
    mret (mk_LiquidityEvaluation (toISOString now) breaches indeterminate counts.1 counts.2)).

(** ** Payment failures *)

Record PaymentFailureEvaluation : Type := mk_PaymentFailureEvaluation {
  pfe_evaluatedAt : string;
  pfe_failedOrders : list (uuid * corridor_code * string);
  pfe_delivered : Z;
  pfe_suppressedAsDuplicate : Z
}.

Definition failed_orders (windowStart : Z) (d : db) : list (uuid * payment_order) :=
  order_by_desc (λ r, po_updated_at r.2)
    (select (λ _ o, bool_decide (po_status o = PayFailed) && (pg_of_js windowStart <=? po_updated_at o))
      (payment_orders d)).

Definition failure_notice (corr : nat → uuid) (k : nat) (r : uuid * payment_order) : notice :=
  mk_notice (Some (po_corridor r.2))
    ("UmojaFlowOS " +:+ pg_text (po_corridor r.2) +:+ " payment failure")
    ("Payment order " +:+ uuid_text r.1 +:+ " (idempotency key " +:+ po_idempotency_key r.2
      +:+ ") is recorded as failed. Review the recorded provider finality reference and the order's audit trail. This alert retries nothing.")
    [("orderId", JUuid r.1); ("idempotencyKey", JStr (po_idempotency_key r.2))]
    (corr k).

Definition evaluatePostgresPaymentFailures (E : env) (webhook : string → string → bool)
    (corr : nat → uuid) (evaluation : uuid) (a : actor) (now_opt windowHours : option Z) :
    Act db PaymentFailureEvaluation :=
  let now := default (app_now E) now_opt in
  let windowStart := now - default 24 windowHours * 3600000 in
  transaction (
    rows ← gets (failed_orders windowStart);
    counts ← deliver_all E webhook a AltPaymentFailure windowStart (imap (failure_notice corr) rows);
    _ ← recordActivity E a "payment_failure.evaluated" "alert_evaluation" evaluation
      [("evaluatedAt", JDate now); ("failedCount", JNum (Z.of_nat (length rows)));
       ("delivered", JNum counts.1); ("suppressedAsDuplicate", JNum counts.2)];
    mret (mk_PaymentFailureEvaluation (toISOString now)
      ((λ r, (r.1, po_corridor r.2, po_idempotency_key r.2)) <$> rows) counts.1 counts.2)).

(** ** Ageing compliance cases *)

Record ComplianceFlagEvaluation : Type := mk_ComplianceFlagEvaluation {
  cfe_evaluatedAt : string;
  cfe_openCases : list (uuid * case_type * string);
  cfe_delivered : Z;
  cfe_suppressedAsDuplicate : Z
}.

Definition ageing_cases (ageFloor : Z) (d : db) : list (uuid * compliance_case) :=
  order_by (λ r, cc_opened_at r.2)
    (select (λ _ c, bool_decide (cc_status c = CaseOpen) && (cc_opened_at c <=? pg_of_js ageFloor))
      (compliance_cases d)).

Definition flag_notice (corr : nat → uuid) (k : nat) (r : uuid * compliance_case) : notice :=
  mk_notice None "UmojaFlowOS compliance case awaiting review"
    ("Case " +:+ uuid_text r.1 +:+ " of type " +:+ pg_text (cc_case_type r.2) +:+ " has been open since "
      +:+ toISOString (js_of_pg (cc_opened_at r.2))
      +:+ " and still awaits a compliance-officer disposition. This alert records no finding and proposes no disposition.")
    [("caseId", JUuid r.1); ("caseType", JStr (pg_text (cc_case_type r.2)))]
    (corr k).

Definition evaluatePostgresComplianceFlags (E : env) (webhook : string → string → bool)
    (corr : nat → uuid) (evaluation : uuid) (a : actor) (now_opt ageHours_opt windowHours : option Z) :
    Act db ComplianceFlagEvaluation :=
  let now := default (app_now E) now_opt in
  let ageHours := default 48 ageHours_opt in
  let ageFloor := now - ageHours * 3600000 in
  let windowStart := now - default 24 windowHours * 3600000 in
  transaction (
    rows ← gets (ageing_cases ageFloor);
    counts ← deliver_all E webhook a AltComplianceFlag windowStart (imap (flag_notice corr) rows);
    _ ← recordActivity E a "compliance_flag.evaluated" "alert_evaluation" evaluation
      [("evaluatedAt", JDate now); ("openCaseCount", JNum (Z.of_nat (length rows)));
       ("ageHours", JNum ageHours); ("delivered", JNum counts.1); ("suppressedAsDuplicate", JNum counts.2)];
    mret (mk_ComplianceFlagEvaluation (toISOString now)
      ((λ r, (r.1, cc_case_type r.2, toISOString (js_of_pg (cc_opened_at r.2)))) <$> rows)
      counts.1 counts.2)).
