(* ===== verification/OperationalProps.v ===== *)
(** * What the operational alerts guarantee *)

From S2P Require Import Prelude Js Numeric Sha256 Rows Schema OperationalAlerts.

Local Open Scope string_scope.
Local Open Scope Z_scope.

(** ** Delivery *)

(** The only writes of an evaluation: delivery rows and events. *)
Definition extended (ns : list notification_delivery) (es : list activity_event) (d : db) : db :=
  d <| notification_deliveries ::= λ l, (l ++ ns)%list |> <| activity_events ::= λ l, (l ++ es)%list |>.

Lemma extended_nil d : extended [] [] d = d.
Proof. destruct d. unfold extended. simpl. by rewrite !app_nil_r. Qed.
Lemma extended_app ns es ns' es' d :
  extended ns' es' (extended ns es d) = extended (ns ++ ns') (es ++ es') d.
Proof. unfold extended. simpl. by rewrite !app_assoc. Qed.

Definition matching (t : alert_type) (c : option corridor_code) (d : db) : list uuid :=
  (select (λ _ p, policy_matches t c p) (alert_policies d)).*1.

Lemma for_each_deliveries E t n ok ids d u d' :
  for_each (λ i, insert_delivery (delivery_row E t n ok i)) ids d = Ok (u, d') →
  d' = d <| notification_deliveries ::= λ l, (l ++ (delivery_row E t n ok <$> ids))%list |>.
Proof.
  revert d. induction ids as [|i ids IH]; intros d Hd; simpl in Hd.
  - tx_inv. destruct d. simpl. by rewrite app_nil_r.
  - apply tx_bind_ok in Hd as ([] & d1 & Hi & Hd). unfold insert_delivery in Hi. tx_inv.
    apply IH in Hd as ->. simpl. by rewrite <-app_assoc.
Qed.

(** One delivery: nothing without a matching policy; otherwise one row per
    matching policy with the true outcome of the webhook, and one event. *)
Lemma deliver_ok E w a t n d r d' : deliver E w a t n d = Ok (r, d') →
  r.2 = matching t (n_corridor n) d ∧
  ((matching t (n_corridor n) d = [] ∧ d' = d) ∨
   (matching t (n_corridor n) d ≠ [] ∧
    ∃ ok es, ok = w (trim (n_title n)) (trim (n_content n)) ∧
      d' = extended (delivery_row E t n ok <$> matching t (n_corridor n) d) es d)).
Proof.
  unfold deliver, matching. intros H. apply tx_bind_ok in H as (rows & d1 & [<- ->]%gets_ok & H).
  destruct (select _ _).*1 as [|i ids] eqn:Hm; cbv zeta in H; [tx_inv; eauto|].
  apply tx_bind_ok in H as (ok & d1 & Hn & H). apply tx_bind_ok in H as (u & d2 & Hf & H).
  apply for_each_deliveries in Hf as ->. unfold notifyOwner, recordActivity in *. db_inv.
  split; [done|]. right. split; [done|]. eexists _, _. split; [|reflexivity].
  unfold validatePayload in *. by destruct (_ || _); simplify_eq/=.
Qed.

Section run.
Context (E : env) (w : string → string → bool) (a : actor) (t : alert_type) (since : Z).

Definition row_of (n : notice) (d : db) (x : notification_delivery) : Prop :=
  ∃ i, i ∈ matching t (n_corridor n) d ∧
    x = delivery_row E t n (w (trim (n_title n)) (trim (n_content n))) i.

Definition seen (d : db) (hash : string) : Prop :=
  existsb (delivery_seen t hash since) (notification_deliveries d) = true.

Lemma matching_extended c ns es d : matching t c (extended ns es d) = matching t c d.
Proof. done. Qed.

Lemma seen_extended h ns es d : seen d h → seen (extended ns es d) h.
Proof. unfold seen, extended. simpl. rewrite existsb_app. intros ->. done. Qed.

(** A whole loop: the rows it appends come from its notices, none of them
    repeats a content the window had seen, and afterwards every notice with a
    matching policy has been seen. *)
Lemma deliver_all_ok ns d c d' : deliver_all E w a t since ns d = Ok (c, d') →
  ∃ rows es, d' = extended rows es d ∧ 0 <= c.1 ∧
    Forall (λ x, ∃ n, n ∈ ns ∧ row_of n d x) rows ∧
    Forall (λ x, ¬ seen d (nd_payload_hash x)) rows ∧
    (pg_of_js since <= db_now E →
      Forall (λ n, matching t (n_corridor n) d ≠ [] →
        seen d' (payload_hash (n_title n) (n_content n))) ns).
Proof.
  revert d c d'. induction ns as [|n ns IH]; intros d c d' H; simpl in H.
  - tx_inv. exists [], []. rewrite extended_nil. split_and!; [done|done|constructor..|].
    intros _. constructor.
  - unfold alreadyDelivered in H. apply tx_bind_ok in H as (b & d1 & [Hb ->]%gets_ok & H).
    destruct b; tx_inv.
    + match goal with H : deliver_all _ _ _ _ _ _ _ = _ |- _ =>
        apply IH in H as (rows & es & -> & ? & Hr & Hs & Hc) end.
      exists rows, es. split_and!; [done|simpl; lia| |done|].
      * eapply Forall_impl; [exact Hr|]. intros y (m & ? & ?). exists m. split; [by right|done].
      * intros Hw. constructor; [|by apply Hc]. intros _. by apply seen_extended.
    + match goal with H : deliver _ _ _ _ _ _ = _ |- _ => apply deliver_ok in H as (Hr2 & Hd) end.
      match goal with H : deliver_all _ _ _ _ _ _ _ = _ |- _ =>
        apply IH in H as (rows & es & -> & ? & Hr & Hs & Hc) end.
      assert (¬ seen d (payload_hash (n_title n) (n_content n))) as Hns.
      { unfold seen. by rewrite Hb. }
      destruct Hd as [[Hm ->]|(Hm & ok & es1 & -> & ->)].
      * exists rows, es. split_and!; [done|simpl; destruct x.2; lia| |done|].
        -- eapply Forall_impl; [exact Hr|]. intros y (m & ? & ?). exists m. split; [by right|done].
        -- intros Hw. constructor; [done|]. by apply Hc.
      * eexists _, _. split; [apply extended_app|]. split_and!; [simpl; destruct x.2; lia|..].
        -- apply Forall_app. split; [|eapply Forall_impl; [exact Hr|]; intros y (m & ? & ?); exists m; split; [by right|done]].
           apply Forall_forall. intros y (i & -> & Hi)%list_elem_of_fmap. exists n. split; [left|]. by exists i.
        -- apply Forall_app. split.
           ++ apply Forall_forall. intros y (i & -> & Hi)%list_elem_of_fmap. done.
           ++ eapply Forall_impl; [exact Hs|]. intros y Hy Hseen. by apply Hy, seen_extended.
        -- intros Hw. constructor; [|by apply Hc]. intros _. apply seen_extended.
           unfold seen, extended. simpl. rewrite existsb_app. apply orb_true_iff. right.
           destruct (matching t (n_corridor n) d) as [|i ids]; [done|]. simpl.
           unfold delivery_seen. simpl. rewrite !bool_decide_eq_true_2 by done. simpl.
           apply orb_true_iff. left. by apply Z.leb_le.
Qed.
End run.

(** ** The three evaluations *)

(** A successful evaluation of type [t] whose window starts at [since]. *)
Inductive evaluation_run (E : env) : alert_type → Z → db → db → Prop :=
  | run_liquidity w corr ev a o r d d' :
      evaluatePostgresLiquidityThresholds E w corr ev a o d = (Ok r, d') →
      evaluation_run E AltLiquidityThreshold
        (default (app_now E) (lo_now o) - default 24 (lo_windowHours o) * 3600000) d d'
  | run_failures w corr ev a now hours r d d' :
      evaluatePostgresPaymentFailures E w corr ev a now hours d = (Ok r, d') →
      evaluation_run E AltPaymentFailure (default (app_now E) now - default 24 hours * 3600000) d d'
  | run_flags w corr ev a now age hours r d d' :
      evaluatePostgresComplianceFlags E w corr ev a now age hours d = (Ok r, d') →
      evaluation_run E AltComplianceFlag (default (app_now E) now - default 24 hours * 3600000) d d'.

Lemma evaluation_run_ok E t since d d' : evaluation_run E t since d d' →
  ∃ rows es, d' = extended rows es d ∧ Forall (λ x, ¬ seen t since d (nd_payload_hash x)) rows ∧
    Forall (λ x, nd_alert_type x = t ∧ nd_created_at x = db_now E) rows.
Proof.
  intros Hr. destruct Hr as [w corr ev a o r d d' H|w corr ev a now h r d d' H|w corr ev a now age h r d d' H];
    apply transaction_ok in H; cbv zeta in H; unfold recordActivity, insert_activity in H; tx_inv;
    (match goal with H : deliver_all _ _ _ _ _ _ _ = _ |- _ =>
       apply deliver_all_ok in H as (rows & es & -> & _ & Hrow & Hs & _) end);
    (eexists rows, _; split; [unfold extended; simpl; by rewrite <-app_assoc|split; [done|]];
     eapply Forall_impl; [exact Hrow|]; intros y (n & _ & i & _ & ->); done).
Qed.

(** The delivery rows a run added. *)
Definition appended (d d' : db) : list notification_delivery :=
  drop (length (notification_deliveries d)) (notification_deliveries d').

Lemma appended_extended rows es d : appended d (extended rows es d) = rows.
Proof. unfold appended, extended. simpl. apply drop_app_length. Qed.

(** C14. The same alert is never delivered twice within a window: if a second
    evaluation of the same type starts its window no later than the first
    evaluation's transaction, then none of the delivery rows it writes repeats
    the content of a row the first one wrote, however many other deliveries
    happened in between. *)
Theorem no_alert_twice E1 E2 t s1 s2 d d1 d2 d3 :
  evaluation_run E1 t s1 d d1 → notification_deliveries d1 `prefix_of` notification_deliveries d2 →
  evaluation_run E2 t s2 d2 d3 → pg_of_js s2 <= db_now E1 →
  ∀ x1 x2, x1 ∈ appended d d1 → x2 ∈ appended d2 d3 → nd_payload_hash x1 ≠ nd_payload_hash x2.
Proof.
  intros (rows & es & -> & _ & Ht)%evaluation_run_ok [l Hl] (rows2 & es2 & -> & Hs & _)%evaluation_run_ok Hw x1 x2.
  rewrite !appended_extended. intros H1 H2 E.
  rewrite Forall_forall in Ht, Hs. destruct (Ht x1 H1) as [Ht1 Hc1]. apply (Hs x2 H2).
  unfold seen. rewrite Hl. unfold extended. simpl. rewrite !existsb_app.
  assert (existsb (delivery_seen t (nd_payload_hash x2) s2) rows = true) as ->; [|by rewrite orb_true_r].
  apply existsb_exists. exists x1. split; [by apply list_elem_of_In|].
  unfold delivery_seen. rewrite !bool_decide_eq_true_2 by done. simpl. apply Z.leb_le. lia.
Qed.

(** ** Liquidity *)

Lemma in_corridors c : In c corridors.
Proof. destruct c; simpl; auto. Qed.

Lemma indeterminate_spec now floor d c :
  c ∈ (all_indeterminate now floor d).*1 ↔ ∃ w, evaluate_corridor now floor d c = inr w.
Proof.
  unfold all_indeterminate. rewrite list_elem_of_fmap. split.
  - intros ([c' w] & -> & Hin). simpl. apply list_elem_of_In, in_flat_map in Hin as (c0 & _ & Hin).
    destruct (evaluate_corridor now floor d c0) eqn:He; [by destruct Hin|].
    destruct Hin as [Hin|[]]. simplify_eq. eauto.
  - intros [w Hw]. exists (c, w). split; [done|]. apply list_elem_of_In, in_flat_map.
    exists c. split; [apply in_corridors|]. rewrite Hw. by left.
Qed.

Lemma breaches_spec now floor d b :
  b ∈ all_breaches now floor d ↔
  ∃ c p i x, latest_policy now c d = Some p ∧ liquidity_positions d !! i = Some x ∧
    position_fresh p floor c x = true ∧ position_breach c p x = Some b.
Proof.
  unfold all_breaches. rewrite list_elem_of_In, in_flat_map. split.
  - intros (c & _ & Hin). unfold evaluate_corridor in Hin. destruct (latest_policy now c d) as [p|] eqn:Hp; [|done].
    destruct (select _ _) as [|r rs] eqn:Hs; [done|]. rewrite <-list_elem_of_In, <-Hs in Hin.
    apply list_elem_of_omap in Hin as ([i x] & [Hx Hf]%elem_of_select & Hb). eauto 10.
  - intros (c & p & i & x & Hp & Hx & Hf & Hb). exists c. split; [apply in_corridors|].
    unfold evaluate_corridor. rewrite Hp.
    assert ((i, x) ∈ select (λ _ x, position_fresh p floor c x) (liquidity_positions d)) as Hin
      by by apply elem_of_select.
    destruct (select _ _) as [|r rs] eqn:Hs; [by apply not_elem_of_nil in Hin|].
    rewrite <-Hs in *. apply list_elem_of_In, list_elem_of_omap. by exists (i, x).
Qed.

Lemma breach_corridor c p x b : position_breach c p x = Some b → lb_corridor b = c.
Proof. unfold position_breach. intros ([? ?] & _ & ?)%bind_Some. by simplify_eq/=. Qed.

Lemma no_breach c p x : position_breach c p x = None ↔
  floor_amount (tbp_approved_daily_outflow p) (tbp_minimum_buffer_pct p) <= lp_available_amount x * 10 ^ 6 ∧
  floor_amount (tbp_approved_daily_outflow p) (tbp_amber_buffer_pct p) <= lp_available_amount x * 10 ^ 6.
Proof.
  unfold position_breach, position_band.
  destruct (Z.ltb_spec (lp_available_amount x * 10 ^ 6)
    (floor_amount (tbp_approved_daily_outflow p) (tbp_minimum_buffer_pct p))); simpl; [split; [done|lia]|].
  destruct (Z.ltb_spec (lp_available_amount x * 10 ^ 6)
    (floor_amount (tbp_approved_daily_outflow p) (tbp_amber_buffer_pct p))); simpl; [split; [done|lia]|].
  split; [lia|done].
Qed.

Lemma liquidity_result E w corr ev a o d r d' :
  evaluatePostgresLiquidityThresholds E w corr ev a o d = (Ok r, d') →
  let now := default (app_now E) (lo_now o) in
  let floor := now - default 24 (lo_maxPositionAgeHours o) * 3600000 in
  le_breaches r = all_breaches now floor d ∧ le_indeterminateCorridors r = all_indeterminate now floor d.
Proof.
  intros H. apply transaction_ok in H. cbv zeta in *. unfold recordActivity, insert_activity in H. by tx_inv.
Qed.

(** Silence means funded: if an evaluation reports a corridor neither as
    indeterminate nor with a breach, then the corridor has a policy in force, at
    least one position reconciled within the freshness window, and every such
    position holds at least both the minimum and the amber floor of the policy.
    So a corridor without a policy or without a fresh position is never reported
    as healthy. *)
Theorem silence_means_funded E w corr ev a o d r d' c :
  evaluatePostgresLiquidityThresholds E w corr ev a o d = (Ok r, d') →
  c ∉ (le_indeterminateCorridors r).*1 → (∀ b, b ∈ le_breaches r → lb_corridor b ≠ c) →
  let now := default (app_now E) (lo_now o) in
  let floor := now - default 24 (lo_maxPositionAgeHours o) * 3600000 in
  ∃ p, latest_policy now c d = Some p ∧
    (∃ i x, liquidity_positions d !! i = Some x ∧ position_fresh p floor c x = true) ∧
    (∀ i x, liquidity_positions d !! i = Some x → position_fresh p floor c x = true →
      floor_amount (tbp_approved_daily_outflow p) (tbp_minimum_buffer_pct p) <= lp_available_amount x * 10 ^ 6 ∧
      floor_amount (tbp_approved_daily_outflow p) (tbp_amber_buffer_pct p) <= lp_available_amount x * 10 ^ 6).
Proof.
  intros [Hb Hi]%liquidity_result Hn Hc. rewrite Hb in Hc. rewrite Hi, indeterminate_spec in Hn. cbv zeta.
  unfold evaluate_corridor in Hn. destruct (latest_policy _ c d) as [p|] eqn:Hp; [|naive_solver].
  exists p. split; [done|]. split.
  - destruct (select _ _) as [|[i x] l] eqn:Hs; [naive_solver|].
    assert ((i, x) ∈ (i, x) :: l) as Hin by left. rewrite <-Hs in Hin.
    apply elem_of_select in Hin. eauto.
  - intros i x Hx Hf. apply (no_breach c). destruct (position_breach c p x) as [b|] eqn:E1; [|done].
    exfalso. apply (Hc b); [|by eapply breach_corridor]. apply breaches_spec. eauto 10.
Qed.

(** Every breach an evaluation reports is on record when it returns: if an
    enabled policy covers its corridor, the window holds a delivery row with the
    digest of its message (written now or earlier in the window). *)
Theorem breaches_on_record E w corr ev a o d r d' k b :
  evaluatePostgresLiquidityThresholds E w corr ev a o d = (Ok r, d') →
  le_breaches r !! k = Some b → matching AltLiquidityThreshold (Some (lb_corridor b)) d ≠ [] →
  let since := default (app_now E) (lo_now o) - default 24 (lo_windowHours o) * 3600000 in
  pg_of_js since <= db_now E →
  seen AltLiquidityThreshold since d'
    (payload_hash (n_title (breach_notice corr k b)) (n_content (breach_notice corr k b))).
Proof.
  intros H Hk Hm since Hw. pose proof (liquidity_result _ _ _ _ _ _ _ _ _ H) as [Hb _].
  rewrite Hb in Hk. apply transaction_ok in H. cbv zeta in *.
  unfold recordActivity, insert_activity in H. tx_inv.
  match goal with H : deliver_all _ _ _ _ _ _ _ = _ |- _ =>
    apply deliver_all_ok in H as (rows & es & -> & _ & _ & _ & Hc) end.
  specialize (Hc Hw). rewrite Forall_lookup in Hc.
  specialize (Hc k (breach_notice corr k b)). apply Hc; [|done]. rewrite list_lookup_imap, Hk. done.
Qed.

(** ** Where the code departs from its intent *)

Lemma deliver_all_quiet E w a t since ns d c d' :
  Forall (λ n, matching t (n_corridor n) d = []) ns →
  deliver_all E w a t since ns d = Ok (c, d') → c.1 = 0 ∧ d' = d.
Proof.
  revert c d'. induction ns as [|n ns IH]; intros c d' Hn Hd; simpl in Hd; [by tx_inv|].
  apply Forall_cons in Hn as [Hn1 Hn]. unfold alreadyDelivered in Hd.
  apply tx_bind_ok in Hd as (b & d2 & [_ ->]%gets_ok & Hd). destruct b; tx_inv.
  - match goal with H : deliver_all _ _ _ _ _ _ _ = _ |- _ => apply IH in H as [? ->]; auto end.
  - match goal with H : deliver _ _ _ _ _ _ = _ |- _ => apply deliver_ok in H as (Hr2 & Hd2) end.
    rewrite Hn1 in *. destruct Hd2 as [[_ ->]|[? _]]; [|done].
    match goal with H : deliver_all _ _ _ _ _ _ _ = _ |- _ => apply IH in H as [? ->]; auto end.
    rewrite Hr2. simpl. auto with lia.
Qed.

(** Ageing cases are announced to corridor-independent policies only: when
    every compliance-flag policy names a corridor, the evaluation delivers
    nothing and writes no delivery row, however many cases wait. *)
Theorem flags_need_global_policy E w corr ev a now age hours d r d' :
  (∀ i p, alert_policies d !! i = Some p → ap_alert_type p = AltComplianceFlag → is_Some (ap_corridor p)) →
  evaluatePostgresComplianceFlags E w corr ev a now age hours d = (Ok r, d') →
  cfe_delivered r = 0 ∧ notification_deliveries d' = notification_deliveries d.
Proof.
  intros Hp H. assert (matching AltComplianceFlag None d = []) as Hm.
  { unfold matching. apply elem_of_nil_inv. intros i ([k p] & -> & [Hi Hm]%elem_of_select)%list_elem_of_fmap.
    unfold policy_matches in Hm. unbool. destruct (Hp k p Hi) as [c Hc]; [done|]. rewrite Hc in *.
    by unbool. }
  apply transaction_ok in H. cbv zeta in H. unfold recordActivity, insert_activity in H. tx_inv.
  match goal with H : deliver_all _ _ _ _ _ _ _ = _ |- _ => apply deliver_all_quiet in H as [? ->] end; [done|].
  apply Forall_lookup. intros k n. rewrite list_lookup_imap. by intros (x0 & _ & ->)%fmap_Some.
Qed.

(** ** A worked evaluation *)

Definition monitor : actor := mk_actor "scheduler" RoleAdmin.
Definition ops_env : env := mk_env 1000000000 1000000000000 19000.
Definition ops_policy : treasury_buffer_policy :=
  mk_treasury_buffer_policy KENYA_KES "KES" "v3" (1000 * 10 ^ 12) 100000 300000 200000 1000000 ["nostro"] 5000
    (Some 500000000000).
Definition ops_position : liquidity_position :=
  mk_liquidity_position KENYA_KES "KES" "nostro" "acct-9" (150 * 10 ^ 12) 0 "stmt-4" 999999000000 "ops".
Definition ops_db : db :=
  empty_db <| alert_policies := {[1%positive := mk_alert_policy AltLiquidityThreshold None (JObj []) true "admin" 0]} |>
           <| treasury_buffer_policies := {[2%positive := ops_policy]} |>
           <| liquidity_positions := {[3%positive := ops_position]} |>.
Definition ops_corr (k : nat) : uuid := Pos.of_succ_nat k.
Definition ops_options : liquidity_options := mk_liquidity_options None None None.
Definition ops_run (e : env) (d : db) := evaluatePostgresLiquidityThresholds e (λ _ _, true) ops_corr 8 monitor ops_options d.
Definition ops_db1 := (ops_run ops_env ops_db).2.
Definition ops_result : LiquidityEvaluation :=
  mk_LiquidityEvaluation "1970-01-12T13:46:40.000Z"
    [mk_LiquidityBreach KENYA_KES "KES" "acct-9" "150.000000000000" "200.000000000000000000" Amber "v3" "stmt-4"]
    [(NIGERIA_NGN, "no_approved_buffer_policy"); (SOUTH_AFRICA_ZAR, "no_approved_buffer_policy")] 1 0.

Lemma ops_first : ops_run ops_env ops_db = (Ok ops_result, ops_db1).
Proof. vm_compute. reflexivity. Qed.

(** An expired buffer policy still binds: the evaluation selects the latest
    policy by [effective_from] and never reads [effective_to], so a corridor whose
    only policy ended long before the evaluation is measured against it instead of
    being reported as indeterminate. *)
Theorem expired_policy_still_binds :
  tbp_effective_to ops_policy = Some 500000000000 ∧ 500000000000 < pg_of_js (app_now ops_env) ∧
  ∃ r, (ops_run ops_env ops_db).1 = Ok r ∧ KENYA_KES ∉ (le_indeterminateCorridors r).*1 ∧
    (lb_corridor <$> le_breaches r) = [KENYA_KES].
Proof.
  split; [done|]. split; [done|]. exists ops_result. rewrite ops_first. split_and!; [done| |done].
  simpl. set_solver.
Qed.

(** Witness of [no_alert_twice]: the same breach evaluated again an hour later is suppressed. *)
Lemma no_alert_twice_witness :
  let e2 := mk_env 1003600000 1003600000000 19000 in
  length (appended ops_db ops_db1) = 1%nat ∧
  ∀ x1 x2, x1 ∈ appended ops_db ops_db1 → x2 ∈ appended ops_db1 (ops_run e2 ops_db1).2 →
    nd_payload_hash x1 ≠ nd_payload_hash x2.
Proof.
  intros e2. split; [vm_compute; reflexivity|].
  apply (no_alert_twice ops_env e2 AltLiquidityThreshold (1000000000 - 24 * 3600000) (1003600000 - 24 * 3600000)
    ops_db ops_db1 ops_db1).
  - eapply (run_liquidity ops_env (λ _ _, true) ops_corr 8 monitor ops_options). apply ops_first.
  - reflexivity.
  - eapply (run_liquidity e2 (λ _ _, true) ops_corr 8 monitor ops_options). vm_compute. reflexivity.
  - vm_compute. discriminate.
Defined.

(** Witness of [silence_means_funded]: with 250 in the account the corridor is silent. *)
Definition ops_funded : db := ops_db <| liquidity_positions := {[3%positive := ops_position <| lp_available_amount := 250 * 10 ^ 12 |>]} |>.
Lemma silence_means_funded_witness :
  ∃ p, latest_policy 1000000000 KENYA_KES ops_funded = Some p ∧
    (∃ i x, liquidity_positions ops_funded !! i = Some x ∧
       position_fresh p (1000000000 - 24 * 3600000) KENYA_KES x = true) ∧
    (∀ i x, liquidity_positions ops_funded !! i = Some x →
       position_fresh p (1000000000 - 24 * 3600000) KENYA_KES x = true →
       floor_amount (tbp_approved_daily_outflow p) (tbp_minimum_buffer_pct p) <= lp_available_amount x * 10 ^ 6 ∧
       floor_amount (tbp_approved_daily_outflow p) (tbp_amber_buffer_pct p) <= lp_available_amount x * 10 ^ 6).
Proof.
  eapply (silence_means_funded ops_env (λ _ _, true) ops_corr 8 monitor ops_options ops_funded).
  - vm_compute. reflexivity.
  - simpl. set_solver.
  - simpl. intros b Hb. by apply not_elem_of_nil in Hb.
Defined.

(** Witness of [breaches_on_record]. *)
Lemma breaches_on_record_witness :
  ∃ h, seen AltLiquidityThreshold (1000000000 - 24 * 3600000) ops_db1 h ∧ length (notification_deliveries ops_db1) = 1%nat.
Proof.
  eexists. split; [|vm_compute; reflexivity].
  eapply (breaches_on_record ops_env (λ _ _, true) ops_corr 8 monitor ops_options ops_db ops_result ops_db1 0).
  - apply ops_first.
  - reflexivity.
  - vm_compute. discriminate.
  - vm_compute. discriminate.
Defined.

(** Witness of [flags_need_global_policy]: one waiting case and a policy for Kenya only. *)
Definition flag_db : db :=
  empty_db <| alert_policies := {[1%positive := mk_alert_policy AltComplianceFlag (Some KENYA_KES) (JObj []) true "admin" 0]} |>
           <| compliance_cases := {[4%positive := mk_compliance_case None None CtKyc CaseOpen SevHigh "case-0004" None 0 None]} |>.
Lemma flags_need_global_policy_witness :
  ∃ r d', evaluatePostgresComplianceFlags ops_env (λ _ _, true) ops_corr 8 monitor None None None flag_db = (Ok r, d') ∧
    length (cfe_openCases r) = 1%nat ∧ cfe_delivered r = 0 ∧
    notification_deliveries d' = notification_deliveries flag_db.
Proof.
  eexists _, _. split; [vm_compute; reflexivity|]. split; [reflexivity|].
  eapply (flags_need_global_policy ops_env (λ _ _, true) ops_corr 8 monitor None None None flag_db).
  - intros i p Hp _. simpl in Hp. apply lookup_singleton_Some in Hp as [_ <-]. by eexists.
  - vm_compute. reflexivity.
Defined.
