(* ===== verification/Onboarding.v ===== *)
(** * Counterparty onboarding

    src/apps/control-plane/server/counterpartyOnboarding.ts, with the triggers
    of 0014_control_evidence_outbox.sql that enqueue evidence for the
    lakehouse. *)

From S2P Require Import Prelude Js Numeric Sha256 Rows Schema.

Local Open Scope string_scope.
Local Open Scope Z_scope.

Definition stageForGate (g : onboarding_gate) : onboarding_stage :=
  match g with
  | GateLegal => StageLegalOnboarding
  | GateTechnical => StageTechnicalReadiness
  | GatePilot => StagePilot
  end.

Definition permittedGateRoles (g : onboarding_gate) : list operating_role :=
  match g with
  | GateLegal => [RoleComplianceOfficer]
  | GateTechnical => [RoleAdmin]
  | GatePilot => [RoleComplianceOfficer; RoleTreasuryOperator]
  end.

(** [!overlays.length || overlays.length > 3 || new Set(overlays).size !== overlays.length]. *)
Definition overlays_invalid (overlays : list corridor_code) : bool :=
  (length overlays =? 0)%nat || (3 <? length overlays)%nat || negb (bool_decide (NoDup overlays)).

Definition requireDistinctOverlays (overlays : list corridor_code) : Act db unit :=
  act_throw_if (overlays_invalid overlays)
    (JsError "one to three distinct Nigeria, Kenya, or South Africa corridor overlays are required").

(** The row triggers of migration 0014. *)
Definition created_evidence (E : env) (id : uuid) (r : counterparty_onboarding) : outbox_row :=
  mk_outbox_row "umojaflowos.counterparty.onboarding.created.v1" (sha256 (uuid_text id)) (ob_created_at r)
    "created" None (JObj [("authoritative", JBool false); ("stage", JStr (pg_text (ob_stage r)))])
    false 0 None None (db_now E).
Definition gate_evidence (E : env) (r : gate_decision) : outbox_row :=
  mk_outbox_row "umojaflowos.counterparty.onboarding.gate-decided.v1"
    (sha256 (uuid_text (gd_onboarding_id r) +:+ ":" +:+ pretty (gd_cycle_number r) +:+ ":" +:+
      pg_text (gd_gate r) +:+ ":" +:+ pg_text (gd_decision r)))
    (gd_decided_at r) (pg_text (gd_decision r)) None
    (JObj [("authoritative", JBool false); ("gate", JStr (pg_text (gd_gate r)));
           ("cycle_number", JNum (gd_cycle_number r))])
    false 0 None None (db_now E).
Definition recertification_evidence (E : env) (id : uuid) (cycle : Z) : outbox_row :=
  mk_outbox_row "umojaflowos.counterparty.onboarding.recertification-started.v1"
    (sha256 (uuid_text id +:+ ":" +:+ pretty cycle)) (db_now E) "recertification_started" None
    (JObj [("authoritative", JBool false); ("cycle_number", JNum cycle)]) false 0 None None (db_now E).

(** [readOnboarding]: the lifecycle with its decisions in the order they were
    taken. *)
Definition decisions_of (d : db) (id : uuid) : list (uuid * gate_decision) :=
  order_by (λ r, gd_decided_at r.2)
    (select (λ _ g, bool_decide (gd_onboarding_id g = id)) (gate_decisions d)).
Definition readOnboarding (id : uuid) (d : db) :
    option (counterparty_onboarding * counterparty * list (uuid * gate_decision)) :=
  r ← counterparty_onboardings d !! id;
  c ← counterparties d !! ob_counterparty_id r;
  Some (r, c, decisions_of d id).

Definition listCounterpartyOnboardings (d : db) :
    list (counterparty_onboarding * counterparty * list (uuid * gate_decision)) :=
  omap (λ r, readOnboarding r.1 d)
    (order_by_desc (λ r, ob_updated_at r.2) (map_to_list (counterparty_onboardings d))).

Record create_onboarding_input : Type := mk_create_onboarding_input {
  coni_counterpartyId : uuid;
  coni_countryOverlays : list corridor_code;
  coni_legalEvidenceUri : string;
  coni_recertificationDueAt : Z
}.

(** The handlers resolve with [readOnboarding] after the commit; here they
    return the identifier it is called with. *)
Definition createCounterpartyOnboarding (E : env) (a : actor) (new_id outbox_id : uuid)
    (input : create_onboarding_input) : Act db uuid :=
  _ ← requireDistinctOverlays (coni_countryOverlays input);
  _ ← act_throw_if (coni_recertificationDueAt input <=? app_now E)
    (JsError "recertification due date must be in the future");
  transaction (
    counterparty ← select_by_id counterparties (coni_counterpartyId input);
    _ ← require counterparty (JsError "a canonical counterparty is required before onboarding");
    existing ← gets (λ d, any (λ _ o, bool_decide (ob_counterparty_id o = coni_counterpartyId input))
      (counterparty_onboardings d));
    _ ← throw_if existing (JsError "counterparty already has an onboarding lifecycle");
    let row := mk_counterparty_onboarding (coni_counterpartyId input) (coni_countryOverlays input)
      StageLegalOnboarding 1 (coni_legalEvidenceUri input) None None
      (Some (pg_of_js (coni_recertificationDueAt input))) None (a_openId a) (db_now E) (db_now E) in
    _ ← insert_row counterparty_onboardings "counterparty_onboardings" rules_counterparty_onboardings new_id row;
    _ ← enqueue_evidence outbox_id (created_evidence E new_id row);
    _ ← insert_activity E a "counterparty_onboarding.created" "counterparty_onboarding" (Some new_id)
      (JObj [("counterpartyId", JUuid (coni_counterpartyId input));
             ("countryOverlays", JArr ((λ c, JStr (pg_text c)) <$> coni_countryOverlays input));
             ("stage", JStr "legal_onboarding"); ("legalEvidenceUri", JStr (coni_legalEvidenceUri input))]);
    mret new_id).

Record decide_gate_input : Type := mk_decide_gate_input {
  dgi_onboardingId : uuid;
  dgi_gate : onboarding_gate;
  dgi_decision : onboarding_decision;
  dgi_evidenceUri : string;
  dgi_rationale : string
}.

(** Decisions of the gate in this cycle that satisfy [p]. *)
Definition decided (d : db) (id : uuid) (cycle : Z) (g : onboarding_gate) (p : gate_decision → bool) : bool :=
  any (λ _ x, bool_decide (gd_onboarding_id x = id) && bool_decide (gd_cycle_number x = cycle) &&
              bool_decide (gd_gate x = g) && p x) (gate_decisions d).

(** [SELECT count( * ) … gate='pilot' AND decision='approved']. *)
Definition pilot_approvals (d : db) (id : uuid) (cycle : Z) : nat :=
  length (select (λ _ x, bool_decide (gd_onboarding_id x = id) && bool_decide (gd_cycle_number x = cycle) &&
    bool_decide (gd_gate x = GatePilot) && bool_decide (gd_decision x = DecApproved)) (gate_decisions d)).

(** The assignments to [nextStage], in order. *)
Definition next_stage (g : onboarding_gate) (dec : onboarding_decision) (stage : onboarding_stage)
    (approvals : nat) : onboarding_stage :=
  let nextStage := stage in
  let nextStage := if bool_decide (dec = DecBlocked) then StageBlocked else nextStage in
  let nextStage := if bool_decide (g = GateLegal) && bool_decide (dec = DecApproved)
    then StageTechnicalReadiness else nextStage in
  let nextStage := if bool_decide (g = GateTechnical) && bool_decide (dec = DecApproved)
    then StagePilot else nextStage in
  if bool_decide (g = GatePilot) && bool_decide (dec = DecApproved)
  then if (approvals =? 2)%nat then StageSteadyState else nextStage
  else nextStage.

Definition set_evidence (g : onboarding_gate) (uri : string) (r : counterparty_onboarding) :
    counterparty_onboarding :=
  match g with
  | GateTechnical => r <| ob_technical_evidence_uri := Some uri |>
  | GatePilot => r <| ob_pilot_evidence_uri := Some uri |>
  | GateLegal => r <| ob_legal_evidence_uri := uri |>
  end.

Definition decideCounterpartyOnboardingGate (E : env) (a : actor) (new_id outbox_id : uuid)
    (input : decide_gate_input) : Act db uuid :=
  _ ← act_throw_if (negb (includes (permittedGateRoles (dgi_gate input)) (a_role a)))
    (JsError "this role cannot decide the selected onboarding gate");
  transaction (
    let id := dgi_onboardingId input in
    current ← select_by_id counterparty_onboardings id;
    onboarding ← require current (JsError "counterparty onboarding lifecycle was not found");
    let cycle := ob_cycle_number onboarding in
    _ ← throw_if (negb (bool_decide (ob_stage onboarding = stageForGate (dgi_gate input))))
      (JsError "onboarding gate does not match the current lifecycle stage");
    authorised ← gets (λ d, any (λ _ x, bool_decide (cpa_counterparty_id x = ob_counterparty_id onboarding) &&
      bool_decide (cpa_status x = AuthVerified)) (counterparty_authorizations d));
    _ ← throw_if (bool_decide (dgi_gate input = GateLegal) && bool_decide (dgi_decision input = DecApproved) &&
                  negb authorised)
      (JsError "legal onboarding requires a verified counterparty authorisation");
    integrated ← gets (λ d, any (λ _ x, bool_decide (ic_counterparty_id x = ob_counterparty_id onboarding) &&
      bool_decide (ic_state x = IntActive)) (integration_connections d));
    _ ← throw_if (bool_decide (dgi_gate input = GateTechnical) && bool_decide (dgi_decision input = DecApproved) &&
                  negb integrated)
      (JsError "technical readiness requires a verified active integration connection");
    duplicateActor ← gets (λ d, decided d id cycle GatePilot (λ x, bool_decide (gd_decided_by x = a_openId a)));
    _ ← throw_if (bool_decide (dgi_gate input = GatePilot) && duplicateActor)
      (JsError "pilot approval requires an independent second actor");
    duplicateRole ← gets (λ d, decided d id cycle (dgi_gate input) (λ x, bool_decide (gd_decided_role x = a_role a)));
    _ ← throw_if duplicateRole
      (JsError "this role has already decided the selected onboarding gate for this cycle");
    let row := mk_gate_decision id cycle (dgi_gate input) (dgi_decision input) (dgi_evidenceUri input)
      (dgi_rationale input) (a_openId a) (a_role a) (db_now E) in
    _ ← insert_row gate_decisions "counterparty_onboarding_gate_decisions" rules_gate_decisions new_id row;
    _ ← enqueue_evidence outbox_id (gate_evidence E row);
    approvals ← gets (λ d, pilot_approvals d id cycle);
    let nextStage := next_stage (dgi_gate input) (dgi_decision input) (ob_stage onboarding) approvals in
    _ ← update_row counterparty_onboardings id (λ r,
      set_evidence (dgi_gate input) (dgi_evidenceUri input)
        (r <| ob_stage := nextStage |> <| ob_current_reason := Some (dgi_rationale input) |>
           <| ob_updated_at := db_now E |>));
    _ ← insert_activity E a "counterparty_onboarding.gate_decided" "counterparty_onboarding" (Some id)
      (JObj [("gate", JStr (pg_text (dgi_gate input))); ("decision", JStr (pg_text (dgi_decision input)));
             ("from", JStr (pg_text (ob_stage onboarding))); ("to", JStr (pg_text nextStage));
             ("cycleNumber", JNum cycle)]);
    mret id).

Definition beginCounterpartyRecertification (E : env) (a : actor) (outbox_id : uuid) (onboardingId : uuid)
    (legalEvidenceUri : string) (recertificationDueAt : Z) : Act db uuid :=
  _ ← act_throw_if (recertificationDueAt <=? app_now E)
    (JsError "next recertification due date must be in the future");
  transaction (
    current ← select_by_id counterparty_onboardings onboardingId;
    onboarding ← require current (JsError "counterparty onboarding lifecycle was not found");
    _ ← throw_if (negb (bool_decide (ob_stage onboarding = StageSteadyState)))
      (JsError "only a steady-state counterparty can enter recertification");
    _ ← throw_if (match ob_recertification_due_at onboarding with
                  | None => true | Some t => app_now E <? js_of_pg t end)
      (JsError "recertification is not yet due");
    _ ← throw_if (2147483647 <? ob_cycle_number onboarding + 1) (PgError (InvalidInput "integer"));
    _ ← update_row counterparty_onboardings onboardingId (λ r,
      r <| ob_stage := StageLegalOnboarding |> <| ob_cycle_number ::= λ n, n + 1 |>
        <| ob_legal_evidence_uri := legalEvidenceUri |> <| ob_technical_evidence_uri := None |>
        <| ob_pilot_evidence_uri := None |> <| ob_current_reason := Some "recertification cycle started" |>
        <| ob_recertification_due_at := Some (pg_of_js recertificationDueAt) |>
        <| ob_updated_at := db_now E |>);
    _ ← enqueue_evidence outbox_id (recertification_evidence E onboardingId (ob_cycle_number onboarding + 1));
    _ ← insert_activity E a "counterparty_onboarding.recertification_started" "counterparty_onboarding"
      (Some onboardingId)
      (JObj [("from", JStr "steady_state"); ("to", JStr "legal_onboarding");
             ("priorCycle", JNum (ob_cycle_number onboarding));
             ("nextCycle", JNum (ob_cycle_number onboarding + 1))]);
    mret onboardingId).
