(* ===== verification/OnboardingProps.v ===== *)
(** * What counterparty onboarding guarantees *)

From S2P Require Import Prelude Js Numeric Sha256 Rows Schema Onboarding.

Local Open Scope string_scope.
Local Open Scope Z_scope.

(** ** The evidence behind a stage *)

(** A decision of lifecycle [id] in cycle [n] on gate [g]. *)
Definition on_gate (id : uuid) (n : Z) (g : onboarding_gate) (x : gate_decision) : Prop :=
  gd_onboarding_id x = id ∧ gd_cycle_number x = n ∧ gd_gate x = g.

Definition approved (d : db) (id : uuid) (n : Z) (g : onboarding_gate) : Prop :=
  ∃ k x, gate_decisions d !! k = Some x ∧ on_gate id n g x ∧ gd_decision x = DecApproved.
Definition undecided_gate (d : db) (id : uuid) (n : Z) (g : onboarding_gate) : Prop :=
  ∀ k x, gate_decisions d !! k = Some x → ¬ on_gate id n g x.

(** Two approvals of the pilot by different people in the two different roles. *)
Definition dual_pilot_approval (d : db) (id : uuid) (n : Z) : Prop :=
  ∃ k1 k2 x1 x2, gate_decisions d !! k1 = Some x1 ∧ gate_decisions d !! k2 = Some x2 ∧
    on_gate id n GatePilot x1 ∧ on_gate id n GatePilot x2 ∧
    gd_decision x1 = DecApproved ∧ gd_decision x2 = DecApproved ∧
    gd_decided_by x1 ≠ gd_decided_by x2 ∧
    gd_decided_role x1 = RoleComplianceOfficer ∧ gd_decided_role x2 = RoleTreasuryOperator.

Definition stage_evidence (d : db) (id : uuid) (n : Z) (s : onboarding_stage) : Prop :=
  match s with
  | StageLegalOnboarding => ∀ g, undecided_gate d id n g
  | StageTechnicalReadiness =>
      approved d id n GateLegal ∧ undecided_gate d id n GateTechnical ∧ undecided_gate d id n GatePilot
  | StagePilot => approved d id n GateLegal ∧ approved d id n GateTechnical ∧
      (∀ k x, gate_decisions d !! k = Some x → on_gate id n GatePilot x → gd_decision x = DecApproved) ∧
      (∀ k1 k2 x1 x2, gate_decisions d !! k1 = Some x1 → gate_decisions d !! k2 = Some x2 →
        on_gate id n GatePilot x1 → on_gate id n GatePilot x2 → k1 = k2)
  | StageSteadyState => approved d id n GateLegal ∧ approved d id n GateTechnical ∧ dual_pilot_approval d id n
  | StageRecertificationDue => False
  | StageBlocked => ∃ k x g, gate_decisions d !! k = Some x ∧ on_gate id n g x ∧ gd_decision x = DecBlocked
  end.

Record onboarding_ok (d : db) : Prop := {
  oo_stage id r : counterparty_onboardings d !! id = Some r → stage_evidence d id (ob_cycle_number r) (ob_stage r);
  oo_counterparty_once i j r x : counterparty_onboardings d !! i = Some r → counterparty_onboardings d !! j = Some x →
    ob_counterparty_id r = ob_counterparty_id x → i = j;
  oo_decision k x : gate_decisions d !! k = Some x →
    gd_decided_role x ∈ permittedGateRoles (gd_gate x) ∧
    ∃ r, counterparty_onboardings d !! gd_onboarding_id x = Some r ∧ gd_cycle_number x <= ob_cycle_number r
}.

(** ** The contract *)

Inductive onboarding_step (d d' : db) : Prop :=
  | os_elsewhere :
      counterparty_onboardings d' = counterparty_onboardings d → gate_decisions d' = gate_decisions d →
      onboarding_step d d'
  | os_created id r :
      counterparty_onboardings d !! id = None →
      counterparty_onboardings d' = <[id := r]> (counterparty_onboardings d) →
      ob_stage r = StageLegalOnboarding →
      (∀ j x, counterparty_onboardings d !! j = Some x → ob_counterparty_id x ≠ ob_counterparty_id r) →
      gate_decisions d' = gate_decisions d → onboarding_step d d'
  | os_decided id r r' k x :
      counterparty_onboardings d !! id = Some r →
      counterparty_onboardings d' = <[id := r']> (counterparty_onboardings d) →
      gate_decisions d !! k = None → gate_decisions d' = <[k := x]> (gate_decisions d) →
      on_gate id (ob_cycle_number r) (gd_gate x) x → ob_stage r = stageForGate (gd_gate x) →
      gd_decided_role x ∈ permittedGateRoles (gd_gate x) →
      (∀ j y, gate_decisions d !! j = Some y → on_gate id (ob_cycle_number r) (gd_gate x) y →
        gd_decided_role y ≠ gd_decided_role x ∧ (gd_gate x = GatePilot → gd_decided_by y ≠ gd_decided_by x)) →
      ob_counterparty_id r' = ob_counterparty_id r → ob_cycle_number r' = ob_cycle_number r →
      ob_stage r' = next_stage (gd_gate x) (gd_decision x) (ob_stage r)
        (pilot_approvals d' id (ob_cycle_number r)) →
      onboarding_step d d'
  | os_recertified id r r' :
      counterparty_onboardings d !! id = Some r →
      counterparty_onboardings d' = <[id := r']> (counterparty_onboardings d) →
      ob_stage r = StageSteadyState → ob_stage r' = StageLegalOnboarding →
      ob_cycle_number r' = ob_cycle_number r + 1 → ob_counterparty_id r' = ob_counterparty_id r →
      gate_decisions d' = gate_decisions d → onboarding_step d d'.

Definition onboarding_contract (d d' : db) : Prop := onboarding_step d d' ∧ log_extends d d'.
#[export] Instance onboarding_contract_refl : Reflexive onboarding_contract.
Proof. intros d. split; [by apply os_elsewhere|reflexivity]. Qed.

(** ** The handlers refine it *)

Lemma enqueue_ok id r d u d' : enqueue_evidence id r d = Ok (u, d') →
  ∃ t, d' = set control_evidence_outbox (λ _, t) d.
Proof.
  unfold enqueue_evidence. intros H. apply tx_bind_ok in H as (d0 & d1 & [<- ->]%gets_ok & H).
  destruct (any _ _); tx_inv.
  - exists (control_evidence_outbox d). by destruct d.
  - eexists. reflexivity.
Qed.

Ltac log_suffix' := unfold log_extends; simpl; rewrite <-?app_assoc; apply prefix_app_r; reflexivity.
Ltac invert_enqueue :=
  match goal with H : enqueue_evidence _ _ _ = Ok _ |- _ => apply enqueue_ok in H as [? ->] end.

Lemma createOnboarding_refines E a id oid i :
  act_respects onboarding_contract (createCounterpartyOnboarding E a id oid i).
Proof.
  intros; repeat (apply act_throw_if_respects; [apply _|intros []]).
  apply transaction_respects; [apply _|]; intros d ? d' ?. db_inv. invert_enqueue. db_inv.
  split; [|log_suffix']. eapply (os_created _ _ id); eauto; try reflexivity.
  intros j y Hj Hc. match goal with H : any _ _ = false |- _ =>
    pose proof (proj1 (any_false _ _) H j y Hj) as Hn end.
  simpl in Hc, Hn. by rewrite bool_decide_eq_true_2 in Hn.
Qed.

Lemma recertification_refines E a oid id uri due :
  act_respects onboarding_contract (beginCounterpartyRecertification E a oid id uri due).
Proof.
  intros; repeat (apply act_throw_if_respects; [apply _|intros []]).
  apply transaction_respects; [apply _|]; intros d ? d' ?. db_inv. invert_enqueue. db_inv.
  split; [|log_suffix'].
  eapply (os_recertified _ _ id); [eassumption|simpl; by erewrite alter_as_insert by eassumption|done|reflexivity..].
Qed.

Lemma decided_false d id n g p k x :
  decided d id n g p = false → gate_decisions d !! k = Some x → on_gate id n g x → p x = false.
Proof.
  intros Hd Hx (E1 & E2 & E3). pose proof (proj1 (any_false _ _) Hd k x Hx) as Hn. simpl in Hn.
  by rewrite !bool_decide_eq_true_2 in Hn.
Qed.

Lemma decideGate_refines E a id oid i :
  act_respects onboarding_contract (decideCounterpartyOnboardingGate E a id oid i).
Proof.
  unfold decideCounterpartyOnboardingGate. intros d. rewrite act_throw_if_bind.
  destruct (negb _) eqn:Hrole; [reflexivity|]. apply negb_false_iff, includes_true in Hrole.
  revert d. apply transaction_respects; [apply _|]; intros d ? d' ?. db_inv. invert_enqueue. db_inv.
  split; [|log_suffix'].
  match goal with H : ob_stage ?r = stageForGate _ |- _ => rename r into ob; rename H into Hst end.
  eapply (os_decided _ _ (dgi_onboardingId i) ob _ id);
    [eassumption|simpl; by erewrite alter_as_insert by eassumption|eassumption|reflexivity|by repeat split
    |exact Hst|exact Hrole| |simpl; by destruct (dgi_gate i)|simpl; by destruct (dgi_gate i)
    |simpl; by destruct (dgi_gate i)].
  simpl. intros j y Hy Hg.
  match goal with H1 : decided _ _ _ (dgi_gate i) _ = false |- _ =>
    pose proof (decided_false _ _ _ _ _ _ _ H1 Hy Hg) as Hdr; clear H1 end.
  cbv beta in Hdr. split; [by unbool|]. intros Hp.
  match goal with H1 : (bool_decide (dgi_gate i = GatePilot) && decided _ _ _ _ _)%bool = false |- _ =>
    rewrite bool_decide_eq_true_2 in H1 by done; simpl in H1; rewrite Hp in Hg;
    pose proof (decided_false _ _ _ _ _ _ _ H1 Hy Hg) as Hda end.
  cbv beta in Hda. by unbool.
Qed.

(** ** The invariant holds on the contract *)

Lemma approved_grow d d' id n g :
  gate_decisions d ⊆ gate_decisions d' → approved d id n g → approved d' id n g.
Proof. intros Hs (k & x & Hx & ?). exists k, x. split; [by eapply lookup_weaken|done]. Qed.

(** A new decision elsewhere does not disturb the evidence of a stage. *)
Lemma stage_evidence_frame d d' id n s k x :
  gate_decisions d !! k = None → gate_decisions d' = <[k := x]> (gate_decisions d) →
  (∀ g, ¬ on_gate id n g x) → stage_evidence d id n s → stage_evidence d' id n s.
Proof.
  intros Hk HG Hx. assert (gate_decisions d ⊆ gate_decisions d') as Hs by (rewrite HG; by apply insert_subseteq).
  assert (∀ j y, gate_decisions d' !! j = Some y → ∀ g, on_gate id n g y → gate_decisions d !! j = Some y) as Hback.
  { intros j y Hj g Hg. rewrite HG in Hj. apply lookup_insert_Some in Hj as [[<- <-]|[_ ?]]; [|done].
    by destruct (Hx g). }
  unfold undecided_gate in *. destruct s; simpl.
  - intros Hu g j y Hj Hg. by eapply Hu; [eapply Hback|].
  - intros (? & Ht & Hp). split_and!; [by eapply approved_grow|..]; intros j y Hj Hg.
    + by eapply Ht; [eapply Hback|]. + by eapply Hp; [eapply Hback|].
  - intros (? & ? & Ha & Ho). split_and!; [by eapply approved_grow..| |].
    + intros j y Hj Hg. eapply Ha; [by eapply Hback|done].
    + intros j1 j2 y1 y2 H1 H2 G1 G2. eapply Ho; [eapply Hback, G1|eapply Hback, G2|..]; done.
  - intros (? & ? & (k1 & k2 & x1 & x2 & H1 & H2 & ?)). split_and!; [by eapply approved_grow..|].
    exists k1, k2, x1, x2. split; [by eapply lookup_weaken|split; [by eapply lookup_weaken|done]].
  - done.
  - intros (j & y & g & Hj & ?). exists j, y, g. split; [by eapply lookup_weaken|done].
Qed.

Lemma pilot_roles r1 r2 :
  r1 ∈ permittedGateRoles GatePilot → r2 ∈ permittedGateRoles GatePilot → r1 ≠ r2 →
  (r1 = RoleComplianceOfficer ∧ r2 = RoleTreasuryOperator) ∨
  (r1 = RoleTreasuryOperator ∧ r2 = RoleComplianceOfficer).
Proof. simpl. set_solver. Qed.

Section decide.
Context (d d' : db) (id : uuid) (n : Z) (k : uuid) (x : gate_decision).
Context (Hk : gate_decisions d !! k = None) (HG : gate_decisions d' = <[k := x]> (gate_decisions d)).
Context (Hon : on_gate id n (gd_gate x) x) (Hrole : gd_decided_role x ∈ permittedGateRoles (gd_gate x)).
Context (Hroles : ∀ j y, gate_decisions d !! j = Some y → gd_decided_role y ∈ permittedGateRoles (gd_gate y)).
Context (Hfresh : ∀ j y, gate_decisions d !! j = Some y → on_gate id n (gd_gate x) y →
  gd_decided_role y ≠ gd_decided_role x ∧ (gd_gate x = GatePilot → gd_decided_by y ≠ gd_decided_by x)).

Lemma new_decision : gate_decisions d' !! k = Some x.
Proof using HG. clear -HG. by rewrite HG, lookup_insert_eq. Qed.

Lemma decisions_grow : gate_decisions d ⊆ gate_decisions d'.
Proof using HG Hk. clear -HG Hk. rewrite HG. by apply insert_subseteq. Qed.

Lemma decision_cases j y g : gate_decisions d' !! j = Some y → on_gate id n g y → g ≠ gd_gate x →
  gate_decisions d !! j = Some y.
Proof using HG Hon.
  intros Hj (_ & _ & Hg) Hne. rewrite HG in Hj. apply lookup_insert_Some in Hj as [[<- <-]|[_ ?]]; congruence.
Qed.

Lemma pilot_step : gd_gate x = GatePilot → gd_decision x = DecApproved →
  stage_evidence d id n StagePilot →
  stage_evidence d' id n (if (pilot_approvals d' id n =? 2)%nat then StageSteadyState else StagePilot).
Proof using All.
  intros Hg Hd (HL & HT & Ha & Ho). pose proof decisions_grow as Hs. pose proof new_decision as Hx.
  assert (pilot_approvals d' id n = S (pilot_approvals d id n)) as Hc.
  { unfold pilot_approvals. rewrite HG, (select_insert _ _ k x Hk). destruct Hon as (E1 & E2 & _).
    rewrite !bool_decide_eq_true_2 by done. simpl. done. }
  rewrite Hc. unfold pilot_approvals. destruct (select _ (gate_decisions d)) as [|[j y] [|[j2 y2] l]] eqn:Hsel; simpl.
  - split_and!; [by eapply approved_grow..| |].
    + intros i z Hz Hgz. rewrite HG in Hz. apply lookup_insert_Some in Hz as [[<- <-]|[_ Hz]]; [done|].
      by eapply Ha.
    + assert (∀ i z, gate_decisions d' !! i = Some z → on_gate id n GatePilot z → i = k) as Honly.
      { intros i z Hz Hgz. rewrite HG in Hz. apply lookup_insert_Some in Hz as [[<- _]|[_ Hz]]; [done|].
        exfalso. apply (not_elem_of_nil (i, z)). rewrite <-Hsel. apply elem_of_select. split; [done|].
        destruct Hgz as (? & ? & ?). rewrite !bool_decide_eq_true_2; try done. eapply Ha; [done|by repeat split]. }
      intros i1 i2 z1 z2 H1 H2 G1 G2. rewrite (Honly _ _ H1 G1). symmetry. by eapply Honly.
  - assert ((j, y) ∈ [(j, y)]) as Hin by left. rewrite <-Hsel in Hin.
    apply elem_of_select in Hin as [Hy Hp]. unbool.
    assert (on_gate id n GatePilot y) as Hgy by by repeat split.
    split_and!; [by eapply approved_grow..|].
    destruct (Hfresh j y Hy) as [Hr Hb]; [by rewrite Hg|]. specialize (Hb Hg).
    pose proof (Hroles j y Hy) as Hry. rewrite Hg in Hrole. destruct Hgy as (? & ? & Hgy). rewrite Hgy in Hry.
    assert (gate_decisions d' !! j = Some y) as Hy' by by eapply lookup_weaken.
    assert (on_gate id n GatePilot x) as Hgx by (by rewrite <-Hg).
    assert (on_gate id n GatePilot y) as Hgy' by by repeat split.
    destruct (pilot_roles _ _ Hry Hrole Hr) as [[? ?]|[? ?]].
    + exists j, k, y, x. split_and!; done.
    + exists k, j, x, y. split_and!; done.
  - exfalso. pose proof (NoDup_select_fst (λ _ x, bool_decide (gd_onboarding_id x = id) &&
      bool_decide (gd_cycle_number x = n) && bool_decide (gd_gate x = GatePilot) &&
      bool_decide (gd_decision x = DecApproved)) (gate_decisions d)) as Hnd.
    rewrite Hsel in Hnd. simpl in Hnd. apply NoDup_cons in Hnd as [Hnin _]. apply Hnin.
    assert ((j, y) ∈ (j, y) :: (j2, y2) :: l) as H1 by left.
    assert ((j2, y2) ∈ (j, y) :: (j2, y2) :: l) as H2 by (right; left).
    rewrite <-Hsel in H1, H2. apply elem_of_select in H1 as [H1 P1], H2 as [H2 P2]. unbool.
    rewrite (Ho j j2 y y2); [left|done|done|by repeat split..].
Qed.

Lemma decide_step : stage_evidence d id n (stageForGate (gd_gate x)) →
  stage_evidence d' id n
    (next_stage (gd_gate x) (gd_decision x) (stageForGate (gd_gate x)) (pilot_approvals d' id n)).
Proof using All.
  intros He. pose proof new_decision as Hx. pose proof decisions_grow as Hs.
  pose proof decision_cases as Hcases. pose proof pilot_step as Hpilot.
  destruct (gd_decision x) eqn:Hd.
  - destruct (gd_gate x) eqn:Hg; unfold next_stage; simpl.
    + split_and!; [by exists k, x|..]; intros j y Hj Hgy.
      * eapply (He GateTechnical j y), Hgy. by eapply Hcases.
      * eapply (He GatePilot j y), Hgy. by eapply Hcases.
    + destruct He as (HL & HT & HP). split_and!; [by eapply approved_grow|by exists k, x|..].
      * intros j y Hj Hgy. exfalso. eapply (HP j y), Hgy. by eapply Hcases.
      * intros j1 j2 y1 y2 Hj1 Hj2 G1 G2. exfalso. eapply (HP j1 y1), G1.
        by eapply Hcases.
    + by apply Hpilot.
  - assert (next_stage (gd_gate x) DecBlocked (stageForGate (gd_gate x)) (pilot_approvals d' id n) = StageBlocked) as ->.
    { unfold next_stage. by destruct (gd_gate x). }
    by exists k, x, (gd_gate x).
Qed.
End decide.

Lemma stage_evidence_same d d' id n s :
  gate_decisions d' = gate_decisions d → stage_evidence d id n s → stage_evidence d' id n s.
Proof.
  intros HG. destruct s; simpl; unfold approved, undecided_gate, dual_pilot_approval; by rewrite ?HG.
Qed.

(** No decision has been taken in a cycle that has not begun. *)
Lemma new_cycle d id n : onboarding_ok d →
  (∀ r, counterparty_onboardings d !! id = Some r → ob_cycle_number r < n) →
  stage_evidence d id n StageLegalOnboarding.
Proof.
  intros Hok Hn g k x Hx (E1 & E2 & _). destruct (oo_decision _ Hok k x Hx) as (_ & r & Hr & Hle).
  rewrite E1 in Hr. pose proof (Hn r Hr). lia.
Qed.

Lemma insert_same_counterparty (t : gmap uuid counterparty_onboarding) id r r' :
  t !! id = Some r → ob_counterparty_id r' = ob_counterparty_id r →
  (∀ i j x y, t !! i = Some x → t !! j = Some y → ob_counterparty_id x = ob_counterparty_id y → i = j) →
  ∀ i j x y, <[id := r']> t !! i = Some x → <[id := r']> t !! j = Some y →
    ob_counterparty_id x = ob_counterparty_id y → i = j.
Proof.
  intros Hid Hc Ht i j x y Hi Hj He.
  apply lookup_insert_Some in Hi as [[<- <-]|[? Hi]], Hj as [[<- <-]|[? Hj]]; [done|..].
  - eapply (Ht id j); [done|done|congruence]. - eapply (Ht i id); [done|done|congruence].
  - by eapply Ht.
Qed.

(** Decisions stay attached to a lifecycle that is at least in their cycle. *)
Lemma decisions_attached (t : gmap uuid counterparty_onboarding) id r r' j n :
  t !! id = Some r → ob_cycle_number r <= ob_cycle_number r' →
  (∃ x, t !! j = Some x ∧ n <= ob_cycle_number x) → ∃ x, <[id := r']> t !! j = Some x ∧ n <= ob_cycle_number x.
Proof.
  intros Hid Hle (x & Hx & Hn). destruct (decide (id = j)) as [->|].
  - exists r'. rewrite lookup_insert_eq. split; [done|]. simplify_eq. lia.
  - exists x. by rewrite lookup_insert_ne.
Qed.

Lemma onboarding_step_ok d d' : onboarding_step d d' → onboarding_ok d → onboarding_ok d'.
Proof.
  intros Hstep Hok. destruct Hstep as [HT HG|id r Hnew HT Hst Hcp HG
    |id r r' k x Hid HT Hk HG Hon Hstage Hrole Hfresh Hcp Hcy Hnext|id r r' Hid HT Hst Hst' Hcy Hcp HG].
  - split; rewrite ?HT, ?HG; [|apply (oo_counterparty_once _ Hok)|apply (oo_decision _ Hok)].
    intros. by eapply stage_evidence_same, oo_stage.
  - split; rewrite ?HT, ?HG.
    + intros j y Hj. eapply stage_evidence_same; [exact HG|].
      apply lookup_insert_Some in Hj as [[<- <-]|[_ Hj]]; [|by apply oo_stage].
      rewrite Hst. apply new_cycle; [done|]. intros ? ?. congruence.
    + intros i j x y Hi Hj He. apply lookup_insert_Some in Hi as [[<- <-]|[? Hi]], Hj as [[<- <-]|[? Hj]]; [done|..].
      * by destruct (Hcp j y Hj). * by destruct (Hcp i x Hi). * by eapply oo_counterparty_once.
    + intros k x Hx. destruct (oo_decision _ Hok k x Hx) as (? & s & Hs & Hle). split; [done|]. exists s.
      rewrite lookup_insert_ne; [done|]. congruence.
  - assert (∀ j y, gate_decisions d !! j = Some y → gd_decided_role y ∈ permittedGateRoles (gd_gate y)) as Hroles
      by (intros j y Hy; apply (oo_decision _ Hok j y Hy)).
    split; rewrite ?HT.
    + intros j y Hj. apply lookup_insert_Some in Hj as [[<- <-]|[Hne Hj]].
      * rewrite Hcy, Hnext, Hstage. eapply decide_step; try done. rewrite <-Hstage. by apply oo_stage.
      * eapply stage_evidence_frame; [exact Hk|exact HG| |by apply oo_stage].
        intros g (E1 & _). apply Hne. rewrite <-E1. symmetry. apply Hon.
    + eapply insert_same_counterparty; [done|done|]. intros *. apply (oo_counterparty_once _ Hok).
    + rewrite HG. intros j y Hy. apply lookup_insert_Some in Hy as [[<- <-]|[_ Hy]].
      * split; [done|]. destruct Hon as (-> & -> & _). exists r'. rewrite lookup_insert_eq. split; [done|lia].
      * destruct (oo_decision _ Hok j y Hy). split; [done|]. eapply decisions_attached; [done|lia|done].
  - split; rewrite ?HT, ?HG.
    + intros j y Hj. eapply stage_evidence_same; [exact HG|].
      apply lookup_insert_Some in Hj as [[<- <-]|[_ Hj]]; [|by apply oo_stage].
      rewrite Hst'. apply new_cycle; [done|]. intros ? ?. simplify_eq. lia.
    + eapply insert_same_counterparty; [done|done|]. intros *. apply (oo_counterparty_once _ Hok).
    + intros j y Hy. destruct (oo_decision _ Hok j y Hy). split; [done|].
      eapply decisions_attached; [done|lia|done].
Qed.

(** ** Runs *)

Inductive onboarding_call (d : db) : db → Prop :=
  | oc_create E a id oid i : onboarding_call d (createCounterpartyOnboarding E a id oid i d).2
  | oc_decide E a id oid i : onboarding_call d (decideCounterpartyOnboardingGate E a id oid i d).2
  | oc_recertify E a oid id uri due : onboarding_call d (beginCounterpartyRecertification E a oid id uri due d).2
  | oc_elsewhere d' :
      counterparty_onboardings d' = counterparty_onboardings d → gate_decisions d' = gate_decisions d →
      log_extends d d' → onboarding_call d d'.

Lemma onboarding_call_contract d d' : onboarding_call d d' → onboarding_contract d d'.
Proof.
  intros []; [apply createOnboarding_refines|apply decideGate_refines|apply recertification_refines|].
  split; [by apply os_elsewhere|done].
Qed.

Lemma onboarding_empty_ok : onboarding_ok empty_db.
Proof. split; intros *; simpl; by rewrite lookup_empty. Qed.

Lemma onboarding_run_ok d : rtc onboarding_call empty_db d → onboarding_ok d.
Proof.
  intros Hr. cut (∀ d0, onboarding_ok d0 → rtc onboarding_call d0 d → onboarding_ok d).
  { intros Hc. eapply Hc; [apply onboarding_empty_ok|done]. }
  clear. induction 2 as [|d0 d1 d2 Hc _ IH]; [done|]. apply IH.
  by eapply onboarding_step_ok; [apply onboarding_call_contract|].
Qed.

(** C15. What steady state means: on every run from an empty database, in any
    order of calls, by any actors and however often calls were refused, a
    counterparty in steady state has, in its current recertification cycle, a
    legal gate approved by a compliance officer, a technical gate approved by an
    administrator, and two pilot approvals given by two different people, one as
    compliance officer and one as treasury operator. Recertification therefore
    voids the approvals of the cycle before. *)
Theorem steady_state_earned d id r :
  rtc onboarding_call empty_db d → counterparty_onboardings d !! id = Some r → ob_stage r = StageSteadyState →
  (∃ k x, gate_decisions d !! k = Some x ∧ on_gate id (ob_cycle_number r) GateLegal x ∧
    gd_decision x = DecApproved ∧ gd_decided_role x = RoleComplianceOfficer) ∧
  (∃ k x, gate_decisions d !! k = Some x ∧ on_gate id (ob_cycle_number r) GateTechnical x ∧
    gd_decision x = DecApproved ∧ gd_decided_role x = RoleAdmin) ∧
  dual_pilot_approval d id (ob_cycle_number r).
Proof.
  intros Hrun%onboarding_run_ok Hid Hst. pose proof (oo_stage _ Hrun id r Hid) as He. rewrite Hst in He.
  destruct He as ((k1 & x1 & H1 & G1 & D1) & (k2 & x2 & H2 & G2 & D2) & Hp). split_and!; [..|done].
  - exists k1, x1. pose proof (oo_decision _ Hrun k1 x1 H1) as [Hr _]. destruct G1 as (? & ? & Eg).
    rewrite Eg in Hr. simpl in Hr. repeat split; try done. set_solver.
  - exists k2, x2. pose proof (oo_decision _ Hrun k2 x2 H2) as [Hr _]. destruct G2 as (? & ? & Eg).
    rewrite Eg in Hr. simpl in Hr. repeat split; try done. set_solver.
Qed.

(** What a lifecycle may turn into. *)
Record lifecycle_moves (r r' : counterparty_onboarding) : Prop := {
  lm_counterparty : ob_counterparty_id r' = ob_counterparty_id r;
  lm_cycle : ob_cycle_number r <= ob_cycle_number r';
  lm_blocked : ob_stage r = StageBlocked → ob_stage r' = StageBlocked ∧ ob_cycle_number r' = ob_cycle_number r
}.
#[export] Instance lifecycle_moves_preorder : PreOrder lifecycle_moves.
Proof.
  split; [by intros r; split|]. intros x y z [A1 B1 C1] [A2 B2 C2]. split; [congruence|lia|].
  intros [H1 E1]%C1. destruct (C2 H1). split; [done|congruence].
Qed.
Definition lifecycles_kept (d d' : db) : Prop :=
  ∀ id r, counterparty_onboardings d !! id = Some r →
    ∃ r', counterparty_onboardings d' !! id = Some r' ∧ lifecycle_moves r r'.
Definition onboarding_kept (d d' : db) : Prop :=
  lifecycles_kept d d' ∧ gate_decisions d ⊆ gate_decisions d' ∧ log_extends d d'.
#[export] Instance onboarding_kept_preorder : PreOrder onboarding_kept.
Proof.
  split.
  - intros d. split; [|done]. intros id r Hr. exists r. split; [done|reflexivity].
  - intros d1 d2 d3 (L1 & G1 & E1) (L2 & G2 & E2). split_and!; [|by etrans..].
    intros id r Hr. destruct (L1 id r Hr) as (r1 & H1 & M1). destruct (L2 id r1 H1) as (r2 & H2 & M2).
    exists r2. split; [done|by etrans].
Qed.

Lemma one_lifecycle_kept d d' id r r' :
  counterparty_onboardings d !! id = Some r → counterparty_onboardings d' = <[id := r']> (counterparty_onboardings d) →
  lifecycle_moves r r' → lifecycles_kept d d'.
Proof.
  intros Hid HT Hm j y Hj. rewrite HT. destruct (decide (id = j)) as [<-|].
  - exists r'. rewrite lookup_insert_eq. split; [done|]. by simplify_eq.
  - exists y. rewrite lookup_insert_ne by done. split; [done|reflexivity].
Qed.

Lemma onboarding_contract_kept d d' : onboarding_contract d d' → onboarding_kept d d'.
Proof.
  intros [[HT HG|id r Hnew HT _ _ HG|id r r' k x Hid HT Hk HG _ Hst _ _ Hcp Hcy _|id r r' Hid HT Hst _ Hcy Hcp HG] Hl];
    (split; [|split; [|done]]); try by rewrite HG.
  - intros id r Hr. exists r. rewrite HT. split; [done|reflexivity].
  - intros j y Hj. exists y. rewrite HT, lookup_insert_ne; [split; [done|reflexivity]|congruence].
  - eapply one_lifecycle_kept; [done..|]. split; [done|lia|]. rewrite Hst. by destruct (gd_gate x).
  - rewrite HG. by apply insert_subseteq.
  - eapply one_lifecycle_kept; [done..|]. split; [done|lia|]. by rewrite Hst.
Qed.

(** Lifecycles are durable: along any run no lifecycle disappears or moves
    to another counterparty, its cycle number never decreases, a blocked
    lifecycle stays blocked in the same cycle, no gate decision is ever altered
    or withdrawn, and the activity log only grows. *)
Theorem lifecycles_are_durable d d' :
  rtc onboarding_call d d' →
  onboarding_kept d d'.
Proof.
  induction 1 as [|d0 d1 d2 Hc _ IH]; [reflexivity|]. etrans; [|exact IH].
  by apply onboarding_contract_kept, onboarding_call_contract.
Qed.

(** ** A worked run *)

Definition co : actor := mk_actor "officer-1" RoleComplianceOfficer.
Definition admin1 : actor := mk_actor "admin-1" RoleAdmin.
Definition treasurer : actor := mk_actor "treasury-1" RoleTreasuryOperator.
Definition ob_env : env := mk_env 1000000 1000000000 19000.
Definition gate_input (g : onboarding_gate) (uri : string) : decide_gate_input :=
  mk_decide_gate_input 30 g DecApproved uri "evidence reviewed and accepted".

(** A counterparty with a verified authorisation and an active integration. *)
Definition ob0 : db :=
  empty_db <| counterparties := {[6%positive := mk_counterparty "Bank" "correspondent_bank" "Nigeria" 0 ∅]} |>
    <| counterparty_authorizations := {[7%positive := mk_counterparty_authorization 6 "CBN" "L-1" "fx" "uri"
         18000 None AuthVerified (Some "admin-1") (Some 0)]} |>
    <| integration_connections := {[8%positive := mk_integration_connection 6 "payout" "sandbox"
         "https://provider.example/docs" None IntActive None None 0]} |>.
Definition ob1 := (createCounterpartyOnboarding ob_env co 30 40
  (mk_create_onboarding_input 6 [NIGERIA_NGN; KENYA_KES] "uri://legal" 2000000) ob0).2.
Definition ob2 := (decideCounterpartyOnboardingGate ob_env co 31 41 (gate_input GateLegal "uri://legal") ob1).2.
Definition ob3 := (decideCounterpartyOnboardingGate ob_env admin1 32 42 (gate_input GateTechnical "uri://tech") ob2).2.
Definition ob4 := (decideCounterpartyOnboardingGate ob_env co 33 43 (gate_input GatePilot "uri://pilot") ob3).2.
Definition ob5 := (decideCounterpartyOnboardingGate ob_env treasurer 34 44 (gate_input GatePilot "uri://pilot") ob4).2.

Lemma ob_run : rtc onboarding_call empty_db ob5.
Proof.
  eapply rtc_r, oc_decide. eapply rtc_r, oc_decide. eapply rtc_r, oc_decide. eapply rtc_r, oc_decide.
  eapply rtc_r, oc_create. eapply rtc_once, oc_elsewhere; [reflexivity|reflexivity|by exists []].
Qed.

(** Witness of [steady_state_earned]: a counterparty onboarded through all three gates. *)
Lemma steady_state_earned_witness :
  ∃ r, counterparty_onboardings ob5 !! 30%positive = Some r ∧ ob_stage r = StageSteadyState ∧
    dual_pilot_approval ob5 30 (ob_cycle_number r).
Proof.
  eexists. split; [vm_compute; reflexivity|]. split; [reflexivity|].
  refine (proj2 (proj2 (steady_state_earned ob5 30 _ ob_run _ _))); [vm_compute; reflexivity|reflexivity].
Defined.

(** Witness of [lifecycles_are_durable]: over the pilot approvals. *)
Lemma lifecycles_are_durable_witness : onboarding_kept ob3 ob5.
Proof.
  apply lifecycles_are_durable. eapply rtc_r, oc_decide. eapply rtc_once, oc_decide.
Defined.

(** Evidence rows of an event type. *)
Definition evidence_count (d : db) (event : string) : nat :=
  length (select (λ _ x, bool_decide (ox_event_type x = event)) (control_evidence_outbox d)).

(** The evidence stream loses the second pilot approval. The trigger of
    migration 0014 derives the correlation hash of a gate decision from the
    lifecycle, cycle, gate and decision, not from the role, and drops a row
    whose event type and hash are already queued: the run that takes a
    counterparty to steady state records four gate decisions and enqueues
    evidence for three. *)
Theorem second_pilot_approval_not_evidenced :
  (ob_stage <$> counterparty_onboardings ob5 !! 30%positive) = Some StageSteadyState ∧
  size (gate_decisions ob5) = 4%nat ∧
  evidence_count ob5 "umojaflowos.counterparty.onboarding.gate-decided.v1" = 3%nat.
Proof. split; [|split]; vm_compute; reflexivity. Qed.
