(* ===== verification/Integrations.v ===== *)
(** * Provider integrations

    src/apps/control-plane/server/postgres.ts (integration connections: create,
    configure a credential reference, activate on a health check, suspend),
    providerHealthCheck.ts (the probe) and the activation procedure of
    routers.ts. The platform's URL parser and IP classifier, the process
    environment and the network are arguments. *)

From S2P Require Import Prelude Js Numeric Rows Schema RateLocks.

Local Open Scope string_scope.
Local Open Scope Z_scope.

(** ** Secret references *)

(** [/^[A-Z][A-Z0-9_]{2,63}$/]. *)
Definition SECRET_REFERENCE_PATTERN (s : string) : bool :=
  match s with
  | EmptyString => false
  | String c r => is_upper c && all_chars (λ c, is_upper c || is_digit c || bool_decide (c = "_"%char)) r &&
      (2 <=? js_length r) && (js_length r <=? 63)
  end.

(** A test [/^prefix/i]. *)
Definition has_prefix_i (prefix s : string) : bool := startsWith (toLowerCase s) prefix.

(** [/^[A-Za-z0-9+/]{40,}={0,2}$/]: the class excludes [=], so the run of class
    characters is the whole text but for the padding. *)
Definition base64_blob (s : string) : bool :=
  let '(n, rest) := span_chars (λ c, is_alnum c || bool_decide (c = "+"%char) || bool_decide (c = "/"%char)) s in
  (40 <=? n)%nat && includes [""; "="; "=="] rest.

(** [/^[0-9a-f]{32,}$/i]. *)
Definition hex_blob (s : string) : bool :=
  (32 <=? String.length s)%nat && all_chars is_hex_char (toLowerCase s).

(** [/^ey[A-Za-z0-9_-]+\./]: the class excludes the dot. *)
Definition jwt_shaped (s : string) : bool :=
  startsWith s "ey" &&
  let '(n, rest) := span_chars (λ c, is_alnum c || bool_decide (c = "_"%char) || bool_decide (c = "-"%char))
    (String.substring 2 (String.length s) s) in
  (1 <=? n)%nat && startsWith rest ".".

(** [/^Bearer\s/i]. *)
Definition bearer_shaped (s : string) : bool :=
  has_prefix_i "bearer" s &&
  match String.get 6 s with Some c => is_space c | None => false end.

Definition CREDENTIAL_SHAPED : list (string → bool) :=
  [has_prefix_i "sk_"; has_prefix_i "pk_"; has_prefix_i "rk_"; bearer_shaped; base64_blob; hex_blob;
   λ s, startsWith s "-----BEGIN "; jwt_shaped].

Definition assertIsSecretReferenceNotSecret (candidate : string) : Act db unit :=
  let value := trim candidate in
  _ ← act_throw_if (existsb (λ pattern, pattern value) CREDENTIAL_SHAPED)
    (JsError "secret reference looks like a credential value; supply the name of a deployment secret instead");
  act_throw_if (negb (SECRET_REFERENCE_PATTERN value))
    (JsError "secret reference must be an uppercase deployment secret name, for example PROVIDER_FX_API_KEY").

(** What a stored reference looks like. *)
Definition is_secret_name (s : string) : bool :=
  SECRET_REFERENCE_PATTERN s && negb (existsb (λ pattern, pattern s) CREDENTIAL_SHAPED).

(** ** Endpoints *)

(** The properties of a [URL] the code reads. *)
Record url : Type := mk_url {
  url_protocol : string;
  url_username : string;
  url_password : string;
  url_hostname : string;
  url_href : string
}.

(** One label and the dot of
    [/^(?=.{1,253}$)(?:[a-z0-9](?:[a-z0-9-]{0,61}[a-z0-9])?\.)+[a-z]{2,63}$/]. *)
Definition is_lower_alnum (c : ascii) : bool := is_lower c || is_digit c.
Fixpoint last_char (s : string) : option ascii :=
  match s with EmptyString => None | String c EmptyString => Some c | String _ r => last_char r end.
Definition dns_label (s : string) : bool :=
  (1 <=? js_length s) && (js_length s <=? 63) &&
  all_chars (λ c, is_lower_alnum c || bool_decide (c = "-"%char)) s &&
  match String.get 0 s, last_char s with
  | Some a, Some b => is_lower_alnum a && is_lower_alnum b
  | _, _ => false
  end.
Definition top_level (s : string) : bool := (2 <=? js_length s) && (js_length s <=? 63) && all_chars is_lower s.
Definition is_dns_host (s : string) : bool :=
  (1 <=? js_length s) && (js_length s <=? 253) &&
  match rev (split_on "." s) with
  | tld :: (_ :: _) as labels => top_level tld && forallb dns_label labels
  | _ => false
  end.

Definition hosts_error : error :=
  JsError "UMOJA_PROVIDER_ENDPOINT_ALLOWED_HOSTS must list approved provider DNS hosts".

(** [providerEndpointAllowedHosts]: the set is a list here, only membership is
    used; [raw] is the environment variable. *)
Definition listed_hosts (raw : string) : list string :=
  List.filter truthy ((λ v, toLowerCase (trim v)) <$> split_on "," raw).
Definition providerEndpointAllowedHosts (raw : option string) : Act db (list string) :=
  let value := default "" raw in
  _ ← act_throw_if (negb (truthy (trim value))) hosts_error;
  let hosts := listed_hosts value in
  _ ← act_throw_if (length hosts =? 0)%nat hosts_error;
  _ ← act_throw_if (negb (forallb is_dns_host hosts))
    (JsError "UMOJA_PROVIDER_ENDPOINT_ALLOWED_HOSTS contains an invalid DNS host");
  mret hosts.

Definition act_require {A} (o : option A) (e : error) : Act db A :=
  λ d, match o with Some a => (Ok a, d) | None => (Throw e, d) end.

(** [hostname.replace(/^\[|\]$/g, "")]. *)
Definition strip_brackets (s : string) : string :=
  let s := match s with String "[" r => r | _ => s end in
  match last_char s with
  | Some "]"%char => String.substring 0 (String.length s - 1) s
  | _ => s
  end.

Section providers.
Context (parse_url : string → option url) (isIP : string → Z) (allowed_hosts : option string).

Definition normaliseProviderEndpoint (candidate : string) : Act db string :=
  url ← act_require (parse_url (trim candidate)) (JsError "provider endpoint must be an absolute URL");
  _ ← act_throw_if (negb (bool_decide (url_protocol url = "https:"))) (JsError "provider endpoint must use https");
  _ ← act_throw_if (truthy (url_username url) || truthy (url_password url))
    (JsError "provider endpoint must not embed credentials");
  let hostname := toLowerCase (strip_brackets (url_hostname url)) in
  _ ← act_throw_if (negb (truthy hostname) || negb (isIP hostname =? 0))
    (JsError "provider endpoint must use an approved DNS host, not an IP literal");
  hosts ← providerEndpointAllowedHosts allowed_hosts;
  _ ← act_throw_if (negb (includes hosts hostname))
    (JsError "provider endpoint host is not approved for credential-bearing probes");
  mret (url_href url).

(** ** The connection's lifecycle *)

Record create_integration_input : Type := mk_create_integration_input {
  cii_counterpartyId : uuid;
  cii_category : string;
  cii_environment : string;
  cii_documentationUrl : string
}.

Definition createPostgresIntegrationConnection (E : env) (a : actor) (new_id : uuid)
    (input : create_integration_input) : Act db (uuid * integration_state) :=
  transaction (
    counterparty ← select_by_id counterparties (cii_counterpartyId input);
    _ ← require counterparty
      (JsError "integration connection requires an existing canonical counterparty record");
    let row := mk_integration_connection (cii_counterpartyId input) (cii_category input) (cii_environment input)
      (cii_documentationUrl input) None IntUnconfigured None None (db_now E) in
    _ ← insert_row integration_connections "integration_connections" rules_integration_connections new_id row;
    _ ← Postgres.recordActivity E a "integration_connection.created" "integration_connection" new_id
      [("counterpartyId", JUuid (cii_counterpartyId input)); ("category", JStr (cii_category input));
       ("environment", JStr (cii_environment input)); ("credentialsSupplied", JBool false);
       ("activated", JBool false)];
    mret (new_id, IntUnconfigured)).

Record configure_input : Type := mk_configure_input {
  cfi_integrationConnectionId : uuid;
  cfi_secretReference : string;
  cfi_endpointUrl : string
}.

Definition configurePostgresIntegrationCredential (E : env) (a : actor) (input : configure_input) :
    Act db (uuid * integration_state) :=
  _ ← assertIsSecretReferenceNotSecret (cfi_secretReference input);
  endpoint ← normaliseProviderEndpoint (cfi_endpointUrl input);
  let id := cfi_integrationConnectionId input in
  transaction (
    existing ← select_by_id integration_connections id;
    connection ← require existing (JsError "integration connection does not exist");
    _ ← throw_if (bool_decide (ic_state connection = IntActive))
      (JsError "suspend the integration before changing the credential of an active connection");
    _ ← update_row integration_connections id (λ r,
      r <| ic_secret_reference := Some (trim (cfi_secretReference input)) |>
        <| ic_documentation_url := endpoint |> <| ic_state := IntCredentialPending |>
        <| ic_last_health_checked_at := None |> <| ic_last_health_result := None |>);
    _ ← Postgres.recordActivity E a "integration_connection.credential_configured" "integration_connection" id
      [("secretReference", JStr (trim (cfi_secretReference input)));
       ("previousSecretReference", JOpt JStr (ic_secret_reference connection));
       ("endpoint", JStr endpoint); ("previousState", JStr (pg_text (ic_state connection)));
       ("state", JStr (pg_text IntCredentialPending)); ("credentialValuePersisted", JBool false);
       ("activated", JBool false)];
    mret (id, IntCredentialPending)).

Record ProviderHealthCheckOutcome : Type := mk_outcome {
  oc_reachable : bool;
  oc_httpStatus : option Z;
  oc_observedAt : Z;
  oc_detail : string;
  oc_endpoint : string
}.

(** [reachable && httpStatus !== null && httpStatus >= 200 && httpStatus < 300]. *)
Definition outcome_passed (o : ProviderHealthCheckOutcome) : bool :=
  oc_reachable o && match oc_httpStatus o with Some s => (200 <=? s) && (s <? 300) | None => false end.

Definition outcome_json (o : ProviderHealthCheckOutcome) : json :=
  JObj [("reachable", JBool (oc_reachable o)); ("httpStatus", JOpt JNum (oc_httpStatus o));
        ("detail", JStr (oc_detail o)); ("endpoint", JStr (oc_endpoint o));
        ("observedAt", JDate (oc_observedAt o))].

Definition activatePostgresIntegrationConnection (E : env) (a : actor) (id : uuid)
    (outcome : ProviderHealthCheckOutcome) : Act db (uuid * integration_state * bool) :=
  transaction (
    existing ← select_by_id integration_connections id;
    connection ← require existing (JsError "integration connection does not exist");
    _ ← throw_if (negb (truthy_opt (ic_secret_reference connection)))
      (JsError "configure a credential reference before attempting activation");
    let passed := outcome_passed outcome in
    let nextState := if passed then IntActive else IntFailed in
    _ ← update_row integration_connections id (λ r,
      r <| ic_state := nextState |> <| ic_last_health_checked_at := Some (pg_of_js (oc_observedAt outcome)) |>
        <| ic_last_health_result := Some (outcome_json outcome) |>);
    _ ← Postgres.recordActivity E a
      (if passed then "integration_connection.activated" else "integration_connection.activation_refused")
      "integration_connection" id
      [("state", JStr (pg_text nextState)); ("healthCheckPassed", JBool passed);
       ("httpStatus", JOpt JNum (oc_httpStatus outcome)); ("reachable", JBool (oc_reachable outcome));
       ("detail", JStr (oc_detail outcome)); ("endpoint", JStr (oc_endpoint outcome));
       ("credentialValuePersisted", JBool false)];
    mret (id, nextState, passed)).

Definition suspendPostgresIntegrationConnection (E : env) (a : actor) (id : uuid) (stated : string) :
    Act db (uuid * integration_state) :=
  let reason := trim stated in
  _ ← act_throw_if (js_length reason <? 10) (JsError "suspension requires a stated reason");
  transaction (
    existing ← select_by_id integration_connections id;
    let hit := match existing with
               | Some r => includes [IntActive; IntFailed; IntVerificationPending] (ic_state r)
               | None => false
               end in
    _ ← throw_if (negb hit) (JsError "only an active, failed, or verifying integration can be suspended");
    _ ← update_row integration_connections id (λ r, r <| ic_state := IntSuspended |>);
    _ ← Postgres.recordActivity E a "integration_connection.suspended" "integration_connection" id
      [("reason", JStr reason); ("state", JStr (pg_text IntSuspended))];
    mret (id, IntSuspended)).

(** ** The probe *)

(** What [fetch] does: a response with a status, or an exception. *)
Inductive fetch_result : Type :=
  | Responded (status : Z)
  | FetchError (message : string).

Definition DEFAULT_TIMEOUT_MS : Z := 8000.

Definition resolveCredential (process_env : string → option string) (secretReference : string) : option string :=
  value ← process_env secretReference;
  let trimmed := trim value in
  if 0 <? js_length trimmed then Some trimmed else None.

(** [fetch endpoint credential] stands for the network; the times are the
    clock when the outcome is made. *)
Definition probeProviderEndpoint (process_env : string → option string) (fetch : string → string → fetch_result)
    (now : Z) (endpoint secretReference : string) (timeoutMs : option Z) : ProviderHealthCheckOutcome :=
  let outcome reachable httpStatus detail := mk_outcome reachable httpStatus now detail endpoint in
  match resolveCredential process_env secretReference with
  | None => outcome false None ("deployment secret " +:+ secretReference +:+
      " is not present in this environment, so no authenticated request could be made")
  | Some credential =>
      match fetch endpoint credential with
      | Responded status =>
          if (300 <=? status) && (status <? 400) then
            outcome true (Some status) "provider redirected the health check; the endpoint is probably incorrect"
          else if (status =? 401) || (status =? 403) then
            outcome true (Some status) "provider rejected the supplied credential"
          else if negb ((200 <=? status) && (status <=? 299)) then
            outcome true (Some status) ("provider returned " +:+ pretty status)
          else outcome true (Some status) ("provider responded " +:+ pretty status)
      | FetchError reason =>
          if js_includes reason "abort" then
            outcome false None ("provider did not respond within " +:+ pretty (default DEFAULT_TIMEOUT_MS timeoutMs) +:+ "ms")
          else outcome false None ("provider endpoint unreachable: " +:+ reason)
      end
  end.

(** ** The activation procedure of the router

    It reads the connection, probes outside any transaction, then activates.
    The two halves are separate so that other calls can come between. *)

Definition read_connection (id : uuid) : Act db (string * string) :=
  λ d,
    match integration_connections d !! id with
    | None => (Throw (JsError "integration connection does not exist"), d)
    | Some c =>
        match ic_secret_reference c with
        | Some s => if truthy s then (Ok (ic_documentation_url c, s), d)
            else (Throw (JsError "configure a credential reference before attempting activation"), d)
        | None => (Throw (JsError "configure a credential reference before attempting activation"), d)
        end
    end.

Definition activateIntegrationConnection (process_env : string → option string)
    (fetch : string → string → fetch_result) (E : env) (a : actor) (id : uuid) :
    Act db (uuid * integration_state * bool) :=
  connection ← read_connection id;
  let outcome := probeProviderEndpoint process_env fetch (app_now E) connection.1 connection.2 None in
  activatePostgresIntegrationConnection E a id outcome.
End providers.
