(* ===== verification/IntegrationsProps.v ===== *)
(** * What provider integrations guarantee

    The rule the platform states for itself is that an integration reaches
    [active] only after a successful check of its own endpoint. It holds for
    every sequence of uninterrupted calls; it does not hold when a credential
    change comes between the two halves of an activation. *)

From S2P Require Import Prelude Js Numeric Rows Schema Parties RateLocks Integrations.

Local Open Scope string_scope.
Local Open Scope Z_scope.

Section integrations.
Context (parse_url : string → option url) (isIP : string → Z) (allowed_hosts : option string).

(** An endpoint a credential may be sent to: parsed, https, without embedded
    credentials, not an IP literal, and on a well-formed allow-list. *)
Definition approved_endpoint (e : string) : Prop :=
  ∃ candidate u host raw, parse_url candidate = Some u ∧ url_href u = e ∧ url_protocol u = "https:" ∧
    url_username u = "" ∧ url_password u = "" ∧ host = toLowerCase (strip_brackets (url_hostname u)) ∧
    isIP host = 0 ∧ allowed_hosts = Some raw ∧ host ∈ listed_hosts raw ∧ is_dns_host host = true.

(** A recorded health check that passed. *)
Definition passing_check (c : integration_connection) (o : ProviderHealthCheckOutcome) : Prop :=
  oc_reachable o = true ∧ (∃ s, oc_httpStatus o = Some s ∧ 200 <= s < 300) ∧
  ic_last_health_checked_at c = Some (pg_of_js (oc_observedAt o)) ∧
  ic_last_health_result c = Some (outcome_json o).

Lemma outcome_passed_true o :
  outcome_passed o = true → oc_reachable o = true ∧ ∃ s, oc_httpStatus o = Some s ∧ 200 <= s < 300.
Proof.
  unfold outcome_passed. intros [-> H]%andb_true_iff. split; [done|].
  destruct (oc_httpStatus o) as [s|]; [|done]. exists s. split; [done|]. lia.
Qed.

Record connection_ok (c : integration_connection) : Prop := {
  co_reference s : ic_secret_reference c = Some s →
    is_secret_name s = true ∧ approved_endpoint (ic_documentation_url c);
  co_active : ic_state c = IntActive → is_Some (ic_secret_reference c) ∧ ∃ o, passing_check c o;
  co_unconfigured : ic_state c = IntUnconfigured → ic_secret_reference c = None;
  co_pending : ic_state c = IntCredentialPending → ic_last_health_result c = None
}.
Definition integrations_ok (d : db) : Prop :=
  map_Forall (λ _ c, connection_ok c) (integration_connections d).

(** ** The contract *)

Definition configured (s e : string) (r : integration_connection) : integration_connection :=
  r <| ic_secret_reference := Some s |> <| ic_documentation_url := e |> <| ic_state := IntCredentialPending |>
    <| ic_last_health_checked_at := None |> <| ic_last_health_result := None |>.
Definition checked (o : ProviderHealthCheckOutcome) (r : integration_connection) : integration_connection :=
  r <| ic_state := if outcome_passed o then IntActive else IntFailed |>
    <| ic_last_health_checked_at := Some (pg_of_js (oc_observedAt o)) |>
    <| ic_last_health_result := Some (outcome_json o) |>.

(** What can happen to one row; [chk] says whether a health check may be
    recorded. *)
Inductive connection_move (chk : bool) (r : integration_connection) : integration_connection → Prop :=
  | cm_configured s e : is_secret_name s = true → approved_endpoint e → ic_state r ≠ IntActive →
      connection_move chk r (configured s e r)
  | cm_checked o : chk = true → is_Some (ic_secret_reference r) → connection_move chk r (checked o r)
  | cm_suspended : ic_state r ∈ [IntActive; IntFailed; IntVerificationPending] →
      connection_move chk r (r <| ic_state := IntSuspended |>).

Inductive integration_step (chk : bool) (d d' : db) : Prop :=
  | is_elsewhere : integration_connections d' = integration_connections d → integration_step chk d d'
  | is_created id r : integration_connections d !! id = None →
      integration_connections d' = <[id := r]> (integration_connections d) →
      ic_state r = IntUnconfigured → ic_secret_reference r = None → ic_last_health_result r = None →
      integration_step chk d d'
  | is_moved id r r' : integration_connections d !! id = Some r →
      integration_connections d' = <[id := r']> (integration_connections d) →
      connection_move chk r r' → integration_step chk d d'.

Definition integration_contract (chk : bool) (d d' : db) : Prop := integration_step chk d d' ∧ log_extends d d'.
#[local] Instance integration_contract_refl chk : Reflexive (integration_contract chk).
Proof. intros d. split; [by apply is_elsewhere|reflexivity]. Qed.

(** ** The handlers refine it *)

Lemma createIntegration_refines E a id i :
  act_respects (integration_contract false) (createPostgresIntegrationConnection E a id i).
Proof.
  apply transaction_respects; [apply _|]. intros d ? d' ?. unfold Postgres.recordActivity in *. db_inv.
  split; [|by apply prefix_app_r]. by eapply (is_created _ _ _ id).
Qed.

Lemma act_require_bind {A B} (o : option A) e (k : A → Act db B) d :
  mbind k (act_require o e) d = match o with Some x => k x d | None => (Throw e, d) end.
Proof. unfold mbind, act_bind, act_require. by destruct o. Qed.

Lemma act_throw_if_ok {S} b e (s : S) u s' : act_throw_if b e s = (Ok u, s') ↔ b = false ∧ s' = s.
Proof. unfold act_throw_if. destruct b, u; naive_solver. Qed.

Lemma allowed_hosts_ok raw d hosts d' :
  providerEndpointAllowedHosts raw d = (Ok hosts, d') →
  d' = d ∧ ∃ v, raw = Some v ∧ hosts = listed_hosts v ∧ forallb is_dns_host hosts = true.
Proof.
  unfold providerEndpointAllowedHosts. cbv zeta. rewrite !act_throw_if_bind.
  destruct (negb (truthy _)) eqn:Ht; [done|]. destruct (_ =? 0)%nat; [done|].
  destruct (negb (forallb _ _)) eqn:Hf; [done|]. unfold mret, act_ret. intros ?. simplify_eq. split; [done|].
  apply negb_false_iff in Hf, Ht. destruct raw as [v|]; simpl in *; [|done]. eauto.
Qed.

Lemma normalise_ok candidate d e d' :
  normaliseProviderEndpoint parse_url isIP allowed_hosts candidate d = (Ok e, d') →
  d' = d ∧ approved_endpoint e.
Proof.
  unfold normaliseProviderEndpoint. rewrite act_require_bind.
  destruct (parse_url (trim candidate)) as [u|] eqn:Hu; [|done]. rewrite !act_throw_if_bind.
  destruct (negb (bool_decide _)) eqn:Hp; [done|]. destruct (truthy _ || truthy _) eqn:Hc; [done|]. cbv zeta.
  rewrite ?act_throw_if_bind. destruct (negb (truthy _) || _) eqn:Hh; [done|]. intros H.
  apply act_bind_ok in H as (hosts & d1 & (-> & v & Hv & -> & Hf)%allowed_hosts_ok & H).
  rewrite act_throw_if_bind in H. destruct (negb (includes _ _)) eqn:Hi; [done|].
  unfold mret, act_ret in H. simplify_eq. split; [done|]. unfold truthy in *. unbool.
  apply includes_true in Hi. eexists _, u, _, v. split_and!; try done.
  - match goal with |- ?x = 0 => by destruct (Z.eqb_spec x 0) end.
  - eapply forallb_forall in Hf; [exact Hf|by apply list_elem_of_In].
Qed.

Lemma secret_name_ok candidate d u d' :
  assertIsSecretReferenceNotSecret candidate d = (Ok u, d') → d' = d ∧ is_secret_name (trim candidate) = true.
Proof.
  unfold assertIsSecretReferenceNotSecret. cbv zeta. rewrite act_throw_if_bind.
  destruct (existsb _ _) eqn:He; [done|]. intros [Hp ->]%act_throw_if_ok. split; [done|].
  unfold is_secret_name. rewrite He, andb_true_r. by apply negb_false_iff in Hp.
Qed.

(** A handler that fails before its transaction leaves the database alone. *)
Lemma configure_refines E a i :
  act_respects (integration_contract false) (configurePostgresIntegrationCredential parse_url isIP allowed_hosts E a i).
Proof.
  intros d. unfold configurePostgresIntegrationCredential, mbind at 1, act_bind at 1.
  destruct (assertIsSecretReferenceNotSecret _ d) as [[[]|e] d1] eqn:Hs.
  2:{ unfold assertIsSecretReferenceNotSecret in Hs. rewrite act_throw_if_bind in Hs. unfold act_throw_if in Hs.
      repeat case_match; simplify_eq; reflexivity. }
  apply secret_name_ok in Hs as [-> Hs]. unfold mbind at 1, act_bind at 1.
  destruct (normaliseProviderEndpoint _ _ _ _ d) as [[e|e] d1] eqn:Hn.
  2:{ simpl. replace d1 with d; [reflexivity|]. revert Hn.
      unfold normaliseProviderEndpoint, providerEndpointAllowedHosts, mbind, act_bind, act_require, act_throw_if, mret, act_ret.
      intros; repeat case_match; simplify_eq; reflexivity. }
  apply normalise_ok in Hn as [-> He]. cbv zeta. apply transaction_respects; [apply _|]. clear d.
  intros d ? d' ?. unfold Postgres.recordActivity in *. db_inv. split; [|by apply prefix_app_r].
  eapply is_moved; [eassumption|simpl; by erewrite alter_as_insert by eassumption|]. by apply cm_configured.
Qed.

Lemma activate_refines E a id o :
  act_respects (integration_contract true) (activatePostgresIntegrationConnection E a id o).
Proof.
  apply transaction_respects; [apply _|]. intros d ? d' ?. unfold Postgres.recordActivity in *. db_inv.
  split; [|by apply prefix_app_r].
  eapply is_moved; [eassumption|simpl; by erewrite alter_as_insert by eassumption|]. apply cm_checked; [done|].
  match goal with H : truthy_opt ?x = true |- _ => destruct x; [by eexists|done] end.
Qed.

Lemma suspend_refines E a id w :
  act_respects (integration_contract false) (suspendPostgresIntegrationConnection E a id w).
Proof.
  unfold suspendPostgresIntegrationConnection. cbv zeta. apply act_throw_if_respects; [apply _|]. intros [].
  apply transaction_respects; [apply _|]. intros d ? d' ?. unfold Postgres.recordActivity in *. db_inv.
  split; [|by apply prefix_app_r].
  match goal with H : match ?x with Some _ => _ | None => _ end = true |- _ =>
    destruct x eqn:?; [|done]; apply includes_true in H end.
  eapply is_moved; [eassumption|simpl; by erewrite alter_as_insert by eassumption|]. by apply cm_suspended.
Qed.

(** ** The invariant *)

Lemma connection_move_ok chk r r' : connection_move chk r r' → connection_ok r → connection_ok r'.
Proof.
  intros [s e Hs He Hst|o _ Hs|Hst] Hr; split; simpl; try done.
  - intros ? ?. by simplify_eq.
  - apply Hr.
  - intros Ha. split; [done|]. exists o. destruct (outcome_passed o) eqn:Ho; [|done].
    apply outcome_passed_true in Ho as [??]. by split_and!.
  - destruct (outcome_passed o); done.
  - destruct (outcome_passed o); done.
  - apply Hr.
Qed.

Lemma integration_step_ok chk d d' : integration_step chk d d' → integrations_ok d → integrations_ok d'.
Proof.
  unfold integrations_ok. intros [HT|id r Hn HT Hst Hs _|id r r' Hid HT Hm] Hok; rewrite HT; [done|..];
    apply map_Forall_insert_2; try done.
  - split; rewrite ?Hst, ?Hs; done.
  - eapply connection_move_ok; [exact Hm|by eapply Hok].
Qed.

(** ** Runs *)

Inductive integration_call (d : db) : db → Prop :=
  | ic_create E a id i : integration_call d (createPostgresIntegrationConnection E a id i d).2
  | ic_configure E a i :
      integration_call d (configurePostgresIntegrationCredential parse_url isIP allowed_hosts E a i d).2
  | ic_check E a id o : integration_call d (activatePostgresIntegrationConnection E a id o d).2
  | ic_suspend E a id w : integration_call d (suspendPostgresIntegrationConnection E a id w d).2
  | ic_elsewhere d' : integration_connections d' = integration_connections d → log_extends d d' →
      integration_call d d'.

Lemma quiet_step d d' : integration_contract false d d' → integration_contract true d d'.
Proof.
  intros [[|id r|id r r' ? ? Hm] ?]; (split; [|done]); [by eapply is_elsewhere|by eapply is_created|].
  eapply is_moved; [done..|]. destruct Hm; [by apply cm_configured|by apply cm_checked|by apply cm_suspended].
Qed.

Lemma integration_call_contract d d' : integration_call d d' → integration_contract true d d'.
Proof.
  intros []; [apply quiet_step, createIntegration_refines|apply quiet_step, configure_refines|apply activate_refines
    |apply quiet_step, suspend_refines|].
  split; [by apply is_elsewhere|done].
Qed.

Lemma integration_run_ok d d' : rtc integration_call d d' → integrations_ok d → integrations_ok d'.
Proof.
  induction 1 as [|d0 d1 d2 Hc _ IH]; [done|]. intros Hok. apply IH.
  by eapply integration_step_ok; [apply integration_call_contract|].
Qed.

Lemma integrations_empty_ok : integrations_ok empty_db.
Proof. apply map_Forall_empty. Qed.

(** C16. Active is earned and secrets stay out: on every run of the handlers,
    whatever outcomes they are handed, an active integration carries a health
    check that was reachable and answered 2xx; every stored reference has the
    form of a deployment-secret name and the form of none of the credentials the
    code recognises; and the endpoint next to it is an approved https host, not
    an IP literal, without embedded credentials. *)
Theorem active_is_earned d id c :
  rtc integration_call empty_db d → integration_connections d !! id = Some c →
  (∀ s, ic_secret_reference c = Some s → is_secret_name s = true ∧ approved_endpoint (ic_documentation_url c)) ∧
  (ic_state c = IntActive → is_Some (ic_secret_reference c) ∧ ∃ o, passing_check c o).
Proof.
  intros Hr Hc. pose proof (integration_run_ok _ _ Hr integrations_empty_ok id c Hc) as [H1 H2 _ _]. done.
Qed.

(** ** Uninterrupted activations *)

Context (process_env : string → option string) (fetch : string → string → fetch_result).

(** The connection's last check was a probe of its own endpoint with the
    credential its own reference names. *)
Definition probed_itself (c : integration_connection) : Prop :=
  ∀ j, ic_last_health_result c = Some j → ∃ s now, ic_secret_reference c = Some s ∧
    j = outcome_json (probeProviderEndpoint process_env fetch now (ic_documentation_url c) s None).

Inductive atomic_call (d : db) : db → Prop :=
  | at_create E a id i : atomic_call d (createPostgresIntegrationConnection E a id i d).2
  | at_configure E a i :
      atomic_call d (configurePostgresIntegrationCredential parse_url isIP allowed_hosts E a i d).2
  | at_activate E a id : atomic_call d (activateIntegrationConnection process_env fetch E a id d).2
  | at_suspend E a id w : atomic_call d (suspendPostgresIntegrationConnection E a id w d).2
  | at_elsewhere d' : integration_connections d' = integration_connections d → atomic_call d d'.

Lemma read_connection_ok id d e s d' :
  read_connection id d = (Ok (e, s), d') →
  d' = d ∧ ∃ c, integration_connections d !! id = Some c ∧ ic_documentation_url c = e ∧ ic_secret_reference c = Some s.
Proof.
  unfold read_connection. intros H. repeat case_match; simplify_eq. split; [done|]. eauto.
Qed.

Lemma activate_checked E a id o d d' r :
  activatePostgresIntegrationConnection E a id o d = (Ok r, d') →
  ∃ c, integration_connections d !! id = Some c ∧
    integration_connections d' = <[id := checked o c]> (integration_connections d).
Proof.
  intros H. apply transaction_ok in H. unfold Postgres.recordActivity in *. db_inv. eexists. split; [done|].
  simpl. by erewrite alter_as_insert by eassumption.
Qed.

Definition all_probed (d : db) : Prop := map_Forall (λ _ c, probed_itself c) (integration_connections d).

Lemma activateIntegration_probed E a id d :
  all_probed d → all_probed (activateIntegrationConnection process_env fetch E a id d).2.
Proof.
  intros Hok. unfold activateIntegrationConnection, mbind, act_bind.
  destruct (read_connection id d) as [[[e s]|err] d1] eqn:Hr.
  2:{ unfold read_connection in Hr. repeat case_match; simplify_eq; done. }
  apply read_connection_ok in Hr as (-> & c & Hc & He & Hs). cbv zeta. simpl.
  destruct (activatePostgresIntegrationConnection _ _ _ _ d) as [[r|err] d2] eqn:Ha; simpl.
  - apply activate_checked in Ha as (c' & Hc' & HT). simplify_eq. unfold all_probed. rewrite HT.
    apply map_Forall_insert_2; [|done]. intros j Hj. simpl in *. simplify_eq. eauto.
  - by apply transaction_throw in Ha as [_ ->].
Qed.

(** A step without a check keeps or clears the health results. *)
Lemma quiet_step_probed d d' : integration_step false d d' → all_probed d → all_probed d'.
Proof.
  unfold all_probed. intros [HT|id r Hn HT _ _ Hr|id r r' Hid HT Hm] Hok; rewrite HT; [done|..];
    (apply map_Forall_insert_2; [|done]).
  - intros j Hj. congruence.
  - destruct Hm as [s e _ _ _|o Ho _|_]; [by intros j|done|apply (Hok id r Hid)].
Qed.

Lemma atomic_call_probed d d' : atomic_call d d' → all_probed d → all_probed d'.
Proof.
  intros []; [apply quiet_step_probed, createIntegration_refines|apply quiet_step_probed, configure_refines
    |apply activateIntegration_probed|apply quiet_step_probed, suspend_refines|by apply quiet_step_probed, is_elsewhere].
Qed.

(** An uninterrupted activation probes the endpoint it activates: when
    activations are not interleaved with other calls, the last health check of
    every integration, and so the one that made it active, is the outcome of a
    probe of the endpoint on record with the credential named by the reference
    on record. *)
Theorem uninterrupted_activation_probes_itself d id c :
  rtc atomic_call empty_db d → integration_connections d !! id = Some c → probed_itself c.
Proof.
  intros Hr. cut (all_probed d); [by eauto|]. cut (all_probed empty_db); [|apply map_Forall_empty].
  induction Hr as [|d0 d1 d2 Hc _ IH]; [done|]. intros Hok. by eapply IH, atomic_call_probed.
Qed.

(** ** Interleaved activations

    The router's procedure holds no lock between reading the connection and
    activating it: a probe under way is the endpoint and reference it read. *)
Inductive concurrent_step : db * list (uuid * string * string) → db * list (uuid * string * string) → Prop :=
  | cs_call d d' ps : atomic_call d d' → concurrent_step (d, ps) (d', ps)
  | cs_read d id e s ps : (read_connection id d).1 = Ok (e, s) → concurrent_step (d, ps) (d, (id, e, s) :: ps)
  | cs_finish E a d id e s ps : (id, e, s) ∈ ps →
      concurrent_step (d, ps) ((activatePostgresIntegrationConnection E a id
        (probeProviderEndpoint process_env fetch (app_now E) e s None) d).2, ps).
End integrations.

(** ** A worked run *)

(** A parser for [https://host/path]. *)
Definition toy_parse (s : string) : option url :=
  if startsWith s "https://"
  then Some (mk_url "https:" "" "" (hd "" (split_on "/" (String.substring 8 (String.length s) s))) s)
  else None.
Definition toy_isIP (_ : string) : Z := 0.
Definition toy_hosts : option string := Some "fx.example.com, rail.example.org".
Definition toy_process_env (k : string) : option string :=
  if bool_decide (k = "PROVIDER_FX_API_KEY") then Some "token" else None.
(** Only the first host answers. *)
Definition toy_fetch (endpoint _ : string) : fetch_result :=
  if bool_decide (endpoint = "https://fx.example.com/v1") then Responded 200 else Responded 503.

Definition root_admin : actor := mk_actor "admin-9" RoleAdmin.
Definition int_env : env := mk_env 1000 1000000 19000.
Definition int1 := (createPostgresCounterparty int_env root_admin 1
  (mk_create_counterparty_input "FX Desk" "fx_liquidity_provider" "Kenya") empty_db).2.
Definition int2 := (createPostgresIntegrationConnection int_env root_admin 2
  (mk_create_integration_input 1 "fx_rate" "sandbox" "https://docs.example.com") int1).2.
Definition int_configure (url : string) (d : db) : db :=
  (configurePostgresIntegrationCredential toy_parse toy_isIP toy_hosts int_env root_admin
    (mk_configure_input 2 " PROVIDER_FX_API_KEY " url) d).2.
Definition int3 := int_configure "https://fx.example.com/v1" int2.
Definition int4 := (activateIntegrationConnection toy_process_env toy_fetch int_env root_admin 2 int3).2.

(** Witness of [active_is_earned]. *)
Lemma active_is_earned_witness :
  ∃ c, integration_connections int4 !! 2%positive = Some c ∧ ic_state c = IntActive ∧
    is_Some (ic_secret_reference c) ∧ ∃ o, passing_check c o.
Proof.
  eexists. split; [vm_compute; reflexivity|]. split; [reflexivity|].
  refine (proj2 (active_is_earned toy_parse toy_isIP toy_hosts int4 2 _ _ _) _);
    [|vm_compute; reflexivity|reflexivity].
  change int4 with (activatePostgresIntegrationConnection int_env root_admin 2
    (probeProviderEndpoint toy_process_env toy_fetch 1000 "https://fx.example.com/v1" "PROVIDER_FX_API_KEY" None) int3).2.
  eapply rtc_r, ic_check. eapply rtc_r, ic_configure. eapply rtc_r, ic_create.
  eapply rtc_once, ic_elsewhere; [reflexivity|by eexists].
Defined.

Lemma int_atomic_run : rtc (atomic_call toy_parse toy_isIP toy_hosts toy_process_env toy_fetch) empty_db int3.
Proof.
  eapply rtc_r, at_configure. eapply rtc_r, at_create. by eapply rtc_once, at_elsewhere.
Qed.

(** Witness of [uninterrupted_activation_probes_itself]: the activated connection. *)
Lemma uninterrupted_activation_probes_itself_witness :
  ∃ c, integration_connections int4 !! 2%positive = Some c ∧ probed_itself toy_process_env toy_fetch c.
Proof.
  eexists. split; [vm_compute; reflexivity|].
  eapply (uninterrupted_activation_probes_itself toy_parse toy_isIP toy_hosts toy_process_env toy_fetch int4 2);
    [eapply rtc_r, at_activate; apply int_atomic_run|vm_compute; reflexivity].
Defined.

(** An interrupted activation sidesteps the rule: between the probe of one
    endpoint and the activation, an administrator re-points the integration to
    another approved endpoint, which only ever answers 503. The activation
    still writes [active], because it never compares the endpoint that was
    probed with the endpoint on record. *)
Theorem interrupted_activation_sidesteps_probe :
  ∃ d ps c, rtc (concurrent_step toy_parse toy_isIP toy_hosts toy_process_env toy_fetch) (int3, []) (d, ps) ∧
    integration_connections d !! 2%positive = Some c ∧ ic_state c = IntActive ∧
    ic_documentation_url c = "https://rail.example.org/v2" ∧
    (∀ credential, toy_fetch (ic_documentation_url c) credential = Responded 503).
Proof.
  eexists _, _, _. split.
  - eapply rtc_r; [eapply rtc_r; [eapply rtc_once|]|].
    + eapply (cs_read _ _ _ _ _ int3 2). vm_compute. reflexivity.
    + eapply cs_call, (at_configure _ _ _ _ _ int3 int_env root_admin
        (mk_configure_input 2 "PROVIDER_FX_API_KEY" "https://rail.example.org/v2")).
    + eapply (cs_finish _ _ _ _ _ int_env root_admin); left.
  - split; [vm_compute; reflexivity|]. split; [reflexivity|]. split; [reflexivity|]. done.
Qed.
