(* ===== verification/Policies.v ===== *)
(** * Policies and regulatory deadlines

    src/apps/control-plane/server/postgres.ts: corridor policies, alert
    policies, regulatory deadlines, and the evaluation that reminds of the
    deadlines that are near. The day a [Date] falls on in the server's time
    zone, which [toDateString] compares, is an argument. *)

From S2P Require Import Prelude Js Numeric Sha256 Rows Schema RateLocks OperationalAlerts.

Local Open Scope string_scope.
Local Open Scope Z_scope.

Record corridor_policy_input : Type := mk_corridor_policy_input {
  cpin_corridor : corridor_code;
  cpin_regulator : string;
  cpin_policyVersion : string;
  cpin_effectiveFrom : Z;
  cpin_effectiveTo : option Z;
  cpin_requiresTravelRule : bool;
  cpin_requiresAuthorisedFxIntermediary : bool;
  cpin_policyDocumentUri : string
}.

Definition createPostgresCorridorPolicy (E : env) (a : actor) (new_id : uuid) (input : corridor_policy_input) :
    Act db (uuid * authorization_status) :=
  _ ← act_throw_if (match cpin_effectiveTo input with
                    | Some t => t <=? cpin_effectiveFrom input | None => false end)
    (JsError "corridor policy effective window must end after it begins");
  transaction (
    let row := mk_corridor_policy (cpin_corridor input) (cpin_regulator input) (cpin_policyVersion input)
      (pg_of_js (cpin_effectiveFrom input)) (pg_of_js <$> cpin_effectiveTo input) (cpin_requiresTravelRule input)
      (cpin_requiresAuthorisedFxIntermediary input) AuthPendingReview (cpin_policyDocumentUri input)
      (a_openId a) (db_now E) in
    _ ← insert_row corridor_policies "corridor_policies" rules_corridor_policies new_id row;
    _ ← Postgres.recordActivity E a "corridor_policy.created" "corridor_policy" new_id
      [("corridor", JStr (pg_text (cpin_corridor input))); ("regulator", JStr (cpin_regulator input));
       ("policyVersion", JStr (cpin_policyVersion input));
       ("activationStatus", JStr (pg_text AuthPendingReview)); ("authorisesExecution", JBool false)];
    mret (new_id, AuthPendingReview)).

Record alert_policy_input : Type := mk_alert_policy_input {
  api_alertType : string;
  api_corridor : option corridor_code;
  api_threshold : json
}.

Definition createPostgresAlertPolicy (E : env) (a : actor) (new_id : uuid) (input : alert_policy_input) :
    Act db (uuid * bool) :=
  transaction (
    t ← require (of_text (api_alertType input)) (PgError (CheckViolation "alert_policies_alert_type_check"));
    let row := mk_alert_policy t (api_corridor input) (api_threshold input) true (a_openId a) (db_now E) in
    _ ← insert_row alert_policies "alert_policies" rules_alert_policies new_id row;
    _ ← Postgres.recordActivity E a "alert_policy.created" "alert_policy" new_id
      [("alertType", JStr (api_alertType input)); ("corridor", JOpt (λ c, JStr (pg_text c)) (api_corridor input));
       ("enabled", JBool true)];
    mret (new_id, true)).

(** [dueAt] is [None] for an invalid date. *)
Record deadline_input : Type := mk_deadline_input {
  di_regulator : string;
  di_corridor : corridor_code;
  di_title : string;
  di_dueAt : option Z;
  di_sourceReference : string
}.

Definition createPostgresRegulatoryDeadline (E : env) (a : actor) (new_id : uuid) (input : deadline_input) :
    Act db (uuid * regulatory_deadline_status) :=
  let sourceReference := trim (di_sourceReference input) in
  _ ← act_throw_if (js_length sourceReference <? 8)
    (JsError "a regulatory deadline requires a verifiable source reference of at least 8 characters");
  match di_dueAt input with
  | None => λ d, (Throw (JsError "a regulatory deadline requires a valid due date"), d)
  | Some dueAt =>
      transaction (
        let row := mk_regulatory_deadline (di_regulator input) (di_corridor input) (di_title input)
          (pg_of_js dueAt) sourceReference DeadlineOpen None (a_openId a) (db_now E) in
        _ ← insert_row regulatory_deadlines "regulatory_deadlines" rules_regulatory_deadlines new_id row;
        _ ← Postgres.recordActivity E a "regulatory_deadline.created" "regulatory_deadline" new_id
          [("regulator", JStr (di_regulator input)); ("corridor", JStr (pg_text (di_corridor input)));
           ("dueAt", JDate dueAt); ("sourceReference", JStr sourceReference)];
        mret (new_id, DeadlineOpen))
  end.

(** ** Reminders *)

Definition notifyPostgresAlertPolicies (E : env) (webhook : string → string → bool) (a : actor) (t : alert_type)
    (n : notice) : Tx db (bool * list uuid) :=
  rows ← gets (λ d, select (λ _ p, policy_matches t (n_corridor n) p) (alert_policies d));
  let policyIds := rows.*1 in
  match policyIds with
  | [] => mret (false, policyIds)
  | _ =>
      delivered ← notifyOwner webhook (n_title n) (n_content n);
      _ ← for_each (λ policyId, insert_delivery (delivery_row E t n delivered policyId)) policyIds;
      _ ← Postgres.recordActivity E a "operational_alert.delivery_attempted" "alert_delivery" (n_correlation n)
        (n_metadata n ++ [("alertType", JStr (pg_text t)); ("policyIds", JArr (JUuid <$> policyIds));
                          ("delivered", JBool delivered)])%list;
      mret (delivered, policyIds)
  end.

(** [status = 'open' ORDER BY due_at ASC]. *)
Definition open_deadlines (d : db) : list (uuid * regulatory_deadline) :=
  order_by (λ r, rd_due_at r.2)
    (select (λ _ r, bool_decide (rd_status r = DeadlineOpen)) (regulatory_deadlines d)).

Definition horizonHours : Z := 72.

Section reminders.
Context (local_day : Z → Z).

Definition alreadyRemindedToday (now : Z) (r : regulatory_deadline) : bool :=
  match rd_last_reminded_at r with
  | Some t => bool_decide (local_day (js_of_pg t) = local_day now)
  | None => false
  end.

(** [deadline.dueAt > horizon || alreadyRemindedToday]. *)
Definition not_due (now : Z) (r : regulatory_deadline) : bool :=
  (now + horizonHours * 3600000 <? js_of_pg (rd_due_at r)) || alreadyRemindedToday now r.

Definition deadline_notice (corr : uuid → uuid) (r : uuid * regulatory_deadline) : notice :=
  mk_notice (Some (rd_corridor r.2)) ("UmojaFlowOS " +:+ rd_regulator r.2 +:+ " reporting deadline")
    (rd_title r.2 +:+ " is due at " +:+ toISOString (js_of_pg (rd_due_at r.2)) +:+
      ". Review the source evidence and report-pack status before the deadline.")
    [("deadlineId", JUuid r.1); ("regulator", JStr (rd_regulator r.2)); ("dueAt", JDate (js_of_pg (rd_due_at r.2)))]
    (corr r.1).

(** One iteration; [corr] gives the correlation identifier of a reminder. *)
Definition remind (E : env) (webhook : string → string → bool) (corr : uuid → uuid) (a : actor) (now : Z)
    (r : uuid * regulatory_deadline) : Tx db unit :=
  if not_due now r.2 then mret tt
  else
    _ ← notifyPostgresAlertPolicies E webhook a AltRegulatoryDeadline (deadline_notice corr r);
    update_row regulatory_deadlines r.1 (λ x, x <| rd_last_reminded_at := Some (pg_of_js now) |>).

(** [UPDATE rate_locks SET status='expired' WHERE status='locked' AND expires_at <= $1]. *)
Definition elapsed (now : Z) (l : rate_lock) : bool :=
  bool_decide (rl_status l = LockLocked) && (rl_expires_at l <=? pg_of_js now).
Definition expire (now : Z) (l : rate_lock) : rate_lock :=
  if elapsed now l then l <| rl_status := LockExpired |> else l.

Definition evaluatePostgresRegulatoryDeadlines (E : env) (webhook : string → string → bool) (corr : uuid → uuid)
    (evaluation : uuid) (a : actor) (now_opt : option Z) : Act db (Z * Z * Z) :=
  let now := default (app_now E) now_opt in
  transaction (
    rows ← gets open_deadlines;
    _ ← for_each (remind E webhook corr a now) rows;
    let reminded := Z.of_nat (length (List.filter (λ r, negb (not_due now r.2)) rows)) in
    expired ← gets (λ d, Z.of_nat (length (select (λ _ l, elapsed now l) (rate_locks d))));
    _ ← modify (set rate_locks (fmap (expire now)));
    _ ← Postgres.recordActivity E a "regulatory_deadline.evaluated" "regulatory_deadline" evaluation
      [("evaluated", JNum (Z.of_nat (length rows))); ("reminded", JNum reminded);
       ("expiredRateLocks", JNum expired); ("horizonHours", JNum horizonHours); ("evaluatedAt", JDate now)];
    mret (Z.of_nat (length rows), reminded, expired)).
End reminders.
