(* ===== verification/PoliciesProps.v ===== *)
(** * What the evaluation of regulatory deadlines guarantees *)

From S2P Require Import Prelude Js Numeric Sha256 Rows Schema RateLocks OperationalAlerts Policies.

Local Open Scope string_scope.
Local Open Scope Z_scope.

Section deadlines.
Context (local_day : Z → Z) (E : env) (webhook : string → string → bool) (corr : uuid → uuid) (a : actor) (now : Z).

Definition mark (r : regulatory_deadline) : regulatory_deadline :=
  r <| rd_last_reminded_at := Some (pg_of_js now) |>.
Definition due (r : regulatory_deadline) : bool :=
  bool_decide (rd_status r = DeadlineOpen) && negb (not_due local_day now r).
Definition reminded_row (r : regulatory_deadline) : regulatory_deadline := if due r then mark r else r.

(** The tables a reminder leaves alone. *)
Definition same_but_reminders (d d' : db) : Prop :=
  rate_locks d' = rate_locks d ∧ regulatory_deadlines d' = regulatory_deadlines d.
#[local] Instance same_but_reminders_preorder : PreOrder same_but_reminders.
Proof. split; [by intros d|]. intros d1 d2 d3 [A B] [C D]. split; congruence. Qed.

Lemma notify_frame t n : respects same_but_reminders (notifyPostgresAlertPolicies E webhook a t n).
Proof.
  unfold notifyPostgresAlertPolicies, notifyOwner, Postgres.recordActivity, insert_activity, insert_delivery.
  apply respects_bind; [apply _|apply respects_gets, _|]. intros rows. cbv zeta.
  destruct (rows.*1); [apply respects_ret, _|].
  repeat first [apply respects_for_each; [apply _|] | apply respects_bind; [apply _|..] | apply respects_gets, _
    | apply respects_require, _ | apply respects_throw_if, _ | apply respects_ret, _
    | apply respects_modify; intros []; done | intros ?].
Qed.

Lemma remind_ok r d u d' : remind local_day E webhook corr a now r d = Ok (u, d') →
  rate_locks d' = rate_locks d ∧
  regulatory_deadlines d' = if not_due local_day now r.2 then regulatory_deadlines d
    else alter mark r.1 (regulatory_deadlines d).
Proof.
  unfold remind. destruct (not_due _ _ _); intros H; [by tx_inv|].
  apply tx_bind_ok in H as (x & d1 & H1 & H2). apply notify_frame in H1 as [E1 E2].
  unfold update_row in H2. tx_inv. by rewrite E1, E2.
Qed.

Lemma reminders_ok rows d u d' : for_each (remind local_day E webhook corr a now) rows d = Ok (u, d') →
  rate_locks d' = rate_locks d ∧
  ∀ id, regulatory_deadlines d' !! id =
    if bool_decide (id ∈ (List.filter (λ r, negb (not_due local_day now r.2)) rows).*1)
    then mark <$> regulatory_deadlines d !! id else regulatory_deadlines d !! id.
Proof.
  revert d. induction rows as [|r rows IH]; intros d H; simpl in H; [by tx_inv|].
  apply tx_bind_ok in H as ([] & d1 & [E1 E2]%remind_ok & H). apply IH in H as [E3 E4].
  split; [by rewrite E3|]. intros id. rewrite E4, E2. simpl. destruct (not_due _ _ r.2) eqn:Hd; simpl; [done|].
  destruct (decide (id = r.1)) as [->|Hne].
  - rewrite lookup_alter_eq. rewrite (bool_decide_eq_true_2 (r.1 ∈ _ :: _)) by left.
    case_bool_decide; [|done]. by destruct (regulatory_deadlines d !! r.1).
  - rewrite lookup_alter_ne by done.
    by rewrite (bool_decide_ext (id ∈ r.1 :: _) (id ∈ (List.filter (λ r, negb (not_due local_day now r.2)) rows).*1))
      by set_solver.
Qed.

Lemma elem_of_open d id r :
  (id, r) ∈ open_deadlines d ↔ regulatory_deadlines d !! id = Some r ∧ rd_status r = DeadlineOpen.
Proof.
  unfold open_deadlines. rewrite order_by_perm, elem_of_select. by rewrite bool_decide_eq_true.
Qed.

Lemma elem_of_due d id r : regulatory_deadlines d !! id = Some r →
  id ∈ (List.filter (λ r, negb (not_due local_day now r.2)) (open_deadlines d)).*1 ↔ due r = true.
Proof.
  intros Hr. rewrite list_elem_of_fmap. unfold due. rewrite andb_true_iff, bool_decide_eq_true. split.
  - intros ([j x] & -> & Hin). apply list_elem_of_In, filter_In in Hin as [Hin Hd].
    apply list_elem_of_In, elem_of_open in Hin as [Hj Ho]. simpl in *. by simplify_eq.
  - intros [Ho Hd]. exists (id, r). split; [done|]. apply list_elem_of_In, filter_In. split; [|done].
    apply list_elem_of_In. by apply elem_of_open.
Qed.

Lemma evaluate_tables ev o d r d' : default (app_now E) o = now →
  evaluatePostgresRegulatoryDeadlines local_day E webhook corr ev a o d = (Ok r, d') →
  regulatory_deadlines d' = reminded_row <$> regulatory_deadlines d ∧ rate_locks d' = expire now <$> rate_locks d.
Proof.
  intros Hnow H. unfold evaluatePostgresRegulatoryDeadlines in H. cbv zeta in H. rewrite Hnow in H.
  apply transaction_ok in H. apply tx_bind_ok in H as (rows & d1 & [<- ->]%gets_ok & H).
  apply tx_bind_ok in H as ([] & d2 & [E1 E2]%reminders_ok & H). unfold Postgres.recordActivity in H. db_inv.
  split; [|by rewrite E1]. apply map_eq. intros id. rewrite E2, lookup_fmap.
  destruct (regulatory_deadlines d !! id) as [x|] eqn:Hx; [|by case_bool_decide].
  simpl. unfold reminded_row. rewrite (bool_decide_ext _ _ (elem_of_due d id x Hx)).
  by destruct (due x).
Qed.

(** Nothing is due any more. *)
Lemma reminded_not_due r : due (reminded_row r) = false.
Proof.
  unfold reminded_row. destruct (due r) eqn:Hd; [|done]. unfold due, mark, not_due, alreadyRemindedToday. simpl.
  rewrite js_of_pg_of_js, (bool_decide_eq_true_2 (local_day now = _)) by done. by rewrite orb_true_r, andb_false_r.
Qed.

Lemma expired_not_elapsed l : elapsed now (expire now l) = false.
Proof. unfold expire. by destruct (elapsed now l) eqn:He. Qed.

Lemma quiet_reminders rows d : Forall (λ r, not_due local_day now r.2 = true) rows →
  for_each (remind local_day E webhook corr a now) rows d = Ok (tt, d).
Proof.
  intros Hq. induction Hq as [|r rows Hr _ IH]; [done|]. simpl.
  eapply tx_bind_run; [unfold remind; by rewrite Hr|exact IH].
Qed.

Lemma filter_none {A} (p : A → bool) l : Forall (λ x, p x = false) l → List.filter p l = [].
Proof. induction 1 as [|x l Hx _ IH]; [done|]. simpl. by rewrite Hx. Qed.

Lemma second_evaluation_quiet ev o d : default (app_now E) o = now →
  (∀ id r, regulatory_deadlines d !! id = Some r → due r = false) →
  (∀ id l, rate_locks d !! id = Some l → elapsed now l = false) →
  ∃ d', evaluatePostgresRegulatoryDeadlines local_day E webhook corr ev a o d =
    (Ok (Z.of_nat (length (open_deadlines d)), 0, 0), d') ∧ notification_deliveries d' = notification_deliveries d.
Proof.
  intros Hnow Hd Hl. unfold evaluatePostgresRegulatoryDeadlines. cbv zeta. rewrite Hnow.
  assert (Forall (λ r, not_due local_day now r.2 = true) (open_deadlines d)) as Hq.
  { apply Forall_forall. intros [id r] [Hr Ho]%elem_of_open. specialize (Hd id r Hr). unfold due in Hd.
    rewrite bool_decide_eq_true_2 in Hd by done. simpl in *. by apply negb_false_iff in Hd. }
  eexists. split.
  - apply transaction_ok. eapply tx_bind_run; [apply gets_run|].
    eapply tx_bind_run; [by apply quiet_reminders|]. cbv beta.
    eapply tx_bind_run; [apply gets_run|]. eapply tx_bind_run; [apply modify_run|].
    eapply tx_bind_run; [apply modify_run|]. cbv beta.
    rewrite (filter_none _ (open_deadlines d)).
    2:{ eapply Forall_impl; [exact Hq|]. intros x Hx. by rewrite Hx. }
    replace (select (λ _ l, elapsed now l) (rate_locks d)) with (@nil (uuid * rate_lock)); [reflexivity|].
    symmetry. apply filter_none, Forall_forall. intros [id l] Hin%elem_of_map_to_list. by eapply Hl.
  - done.
Qed.
End deadlines.

(** Reminders settle: an evaluation marks exactly the open deadlines that
    fall within 72 hours and were not reminded today, expires exactly the live
    locks whose expiry has passed, and changes no other deadline or lock;
    evaluated again on the same day at the same instant it reminds of nothing,
    expires nothing and delivers nothing. *)
Theorem deadline_evaluation_settles local_day E webhook corr a now ev o d r d' ev' :
  default (app_now E) o = now →
  evaluatePostgresRegulatoryDeadlines local_day E webhook corr ev a o d = (Ok r, d') →
  regulatory_deadlines d' = reminded_row local_day now <$> regulatory_deadlines d ∧
  rate_locks d' = expire now <$> rate_locks d ∧
  ∃ d'', evaluatePostgresRegulatoryDeadlines local_day E webhook corr ev' a o d' =
    (Ok (Z.of_nat (length (open_deadlines d')), 0, 0), d'') ∧ notification_deliveries d'' = notification_deliveries d'.
Proof.
  intros Hnow H. pose proof (evaluate_tables _ _ _ _ _ now _ _ _ _ _ Hnow H) as [E1 E2].
  split; [done|]. split; [done|]. eapply second_evaluation_quiet; [done|..].
  - intros id x. rewrite E1, lookup_fmap. intros (y & _ & ->)%fmap_Some. apply reminded_not_due.
  - intros id l. rewrite E2, lookup_fmap. intros (y & _ & ->)%fmap_Some. apply expired_not_elapsed.
Qed.

(** ** A worked evaluation *)

Definition regwatch : actor := mk_actor "compliance-2" RoleComplianceOfficer.
Definition reg_env : env := mk_env 400000000 400000000000 4.
Definition utc_day (ms : Z) : Z := ms / 86400000.
Definition reg1 := (createPostgresAlertPolicy reg_env regwatch 1
  (mk_alert_policy_input "regulatory_deadline" None (JObj [])) empty_db).2.
Definition reg2 := (createPostgresRegulatoryDeadline reg_env regwatch 2
  (mk_deadline_input "CBK" KENYA_KES "Quarterly return" (Some 500000000) "CBK/PG/2025/07") reg1).2.
Definition reg_evaluate (d : db) := evaluatePostgresRegulatoryDeadlines utc_day reg_env (λ _ _, true)
  (λ id, id) 9 regwatch None d.
Definition reg3 := (reg_evaluate reg2).2.

(** Witness of [deadline_evaluation_settles]: one reminder, then silence. *)
Lemma deadline_evaluation_settles_witness :
  (reg_evaluate reg2).1 = Ok (1, 1, 0) ∧ length (notification_deliveries reg3) = 1%nat ∧
  ∃ d'', reg_evaluate reg3 = (Ok (Z.of_nat (length (open_deadlines reg3)), 0, 0), d'') ∧
    notification_deliveries d'' = notification_deliveries reg3.
Proof.
  split; [vm_compute; reflexivity|]. split; [vm_compute; reflexivity|].
  refine (proj2 (proj2 (deadline_evaluation_settles utc_day reg_env (λ _ _, true) (λ id, id) regwatch 400000000 9 None
    reg2 (1, 1, 0) reg3 9 _ _))); vm_compute; reflexivity.
Defined.
