(* ===== verification/TableSteps.v ===== *)
(** * Tables whose rows are inserted once and then only moved

    Many tables of the control plane are written in two ways only: a row is
    inserted in an initial state, or one row is replaced by a successor. This
    file states that contract once, with its consequences: an invariant of rows
    that initial rows have and moves keep holds of every row ever stored, and
    rows never disappear. *)

From S2P Require Import Prelude Js Numeric Rows Schema.

Local Open Scope Z_scope.

(** What a projection must satisfy to be one table of the database, apart from
    the log. *)
Class TableLaws {R} (tbl : db → gmap uuid R) `{!Setter tbl} : Prop := {
  tbl_set f d : tbl (set tbl f d) = f (tbl d);
  tbl_set_log f d : activity_events (set tbl f d) = activity_events d;
  tbl_log f d : tbl (set activity_events f d) = tbl d
}.
Ltac table_laws := split; by intros f [].

#[export] Instance operator_laws : TableLaws operator_onboarding_records.
Proof. table_laws. Qed.
#[export] Instance auditor_laws : TableLaws auditor_engagement_records.
Proof. table_laws. Qed.
#[export] Instance assurance_laws : TableLaws assurance_items.
Proof. table_laws. Qed.
#[export] Instance counterparties_laws : TableLaws counterparties.
Proof. table_laws. Qed.
#[export] Instance evidence_laws D : TableLaws (evidence_items D).
Proof. split; intros f []; [unfold set, evidence_items_setter, evidence_items; simpl; by rewrite lookup_insert_eq|done..]. Qed.
#[export] Instance decisions_laws D : TableLaws (dedicated_decisions D).
Proof. split; intros f []; [unfold set, dedicated_decisions_setter, dedicated_decisions; simpl; by rewrite lookup_insert_eq|done..]. Qed.

Section steps.
Context {R : Type} (tbl : db → gmap uuid R) (init : R → Prop) (move : relation R).

Inductive table_step (d d' : db) : Prop :=
  | ts_same : tbl d' = tbl d → table_step d d'
  | ts_insert id r : tbl d !! id = None → tbl d' = <[id := r]> (tbl d) → init r → table_step d d'
  | ts_move id r r' : tbl d !! id = Some r → tbl d' = <[id := r']> (tbl d) → move r r' → table_step d d'.

Definition table_contract (d d' : db) : Prop := table_step d d' ∧ log_extends d d'.
#[export] Instance table_contract_refl : Reflexive table_contract.
Proof. intros d. split; [by apply ts_same|reflexivity]. Qed.

Lemma table_step_Forall (P : R → Prop) d d' :
  (∀ r, init r → P r) → (∀ r r', move r r' → P r → P r') →
  table_step d d' → map_Forall (λ _, P) (tbl d) → map_Forall (λ _, P) (tbl d').
Proof.
  intros Hi Hm [->|id r _ -> Hr|id r r' Hid -> Hr] Hok; [done|..]; (apply map_Forall_insert_2; [|done]); [by apply Hi|].
  eapply Hm; [exact Hr|by eapply Hok].
Qed.

(** Rows persist, each a descendant of what it was. *)
Definition rows_kept (d d' : db) : Prop :=
  ∀ id r, tbl d !! id = Some r → ∃ r', tbl d' !! id = Some r' ∧ rtc move r r'.
#[export] Instance rows_kept_preorder : PreOrder rows_kept.
Proof.
  split.
  - intros d id r Hr. exists r. split; [done|apply rtc_refl].
  - intros d1 d2 d3 H12 H23 id r Hr. destruct (H12 id r Hr) as (r1 & H1 & M1).
    destruct (H23 id r1 H1) as (r2 & H2 & M2). exists r2. split; [done|by etrans].
Qed.

Lemma table_step_kept d d' : table_step d d' → rows_kept d d'.
Proof.
  intros [HT|id r Hn HT _|id r r' Hid HT Hm] j x Hj; rewrite HT.
  - exists x. split; [done|apply rtc_refl].
  - exists x. rewrite lookup_insert_ne by congruence. split; [done|apply rtc_refl].
  - destruct (decide (id = j)) as [<-|].
    + exists r'. rewrite lookup_insert_eq. split; [done|]. simplify_eq. by apply rtc_once.
    + exists x. rewrite lookup_insert_ne by done. split; [done|apply rtc_refl].
Qed.

Lemma table_run_kept d d' : rtc table_contract d d' → rows_kept d d' ∧ log_extends d d'.
Proof.
  induction 1 as [|d0 d1 d2 [Hs Hl] _ [IH1 IH2]]; [split; reflexivity|].
  split; [etrans; [by apply table_step_kept|done]|by etrans].
Qed.

Lemma table_run_Forall (P : R → Prop) d d' :
  (∀ r, init r → P r) → (∀ r r', move r r' → P r → P r') →
  rtc table_contract d d' → map_Forall (λ _, P) (tbl d) → map_Forall (λ _, P) (tbl d').
Proof.
  intros Hi Hm. induction 1 as [|d0 d1 d2 [Hs _] _ IH]; [done|]. intros Hok. by eapply IH, table_step_Forall.
Qed.
End steps.
Arguments ts_same {_ _ _ _ _ _}.
Arguments ts_insert {_ _ _ _ _ _}.
Arguments ts_move {_ _ _ _ _ _}.

Section statements.
Context {R : Type} (tbl : db → gmap uuid R) `{!Setter tbl, !TableLaws tbl}.

(** An insertion and its event. *)
Lemma insert_logged_contract init move name rules id row E a action kind oid md (B : Type) (b : B) :
  init row →
  respects (table_contract tbl init move)
    (_ ← insert_row tbl name rules id row;
     _ ← insert_activity E a action kind oid md;
     mret b).
Proof.
  intros Hi d x d' Hb. apply tx_bind_ok in Hb as ([] & d1 & (_ & Hn & _ & _ & ->)%insert_row_ok & Hb).
  apply tx_bind_ok in Hb as ([] & d2 & ->%modify_ok & [-> ->]%mret_ok). split.
  - eapply (ts_insert id row); [done|by rewrite tbl_log, tbl_set|done].
  - unfold log_extends.
    match goal with |- _ `prefix_of` activity_events ?s => change (activity_events s) with
      (activity_events (set tbl <[id:=row]> d) ++ [mk_activity_event (a_openId a) (a_role a) action kind oid (db_now E) md None])%list end.
    rewrite tbl_set_log. by apply prefix_app_r.
Qed.

(** An update of a row that was read, and its event. *)
Lemma update_logged_contract init move id r f E a action kind oid md (B : Type) (b : B) d x d' :
  tbl d !! id = Some r → move r (f r) →
  (_ ← update_row tbl id f; _ ← insert_activity E a action kind oid md; mret b) d = Ok (x, d') →
  table_contract tbl init move d d'.
Proof.
  intros Hr Hm Hb. apply tx_bind_ok in Hb as ([] & d1 & ->%modify_ok & Hb).
  apply tx_bind_ok in Hb as ([] & d2 & ->%modify_ok & [-> ->]%mret_ok). split.
  - eapply (ts_move id r (f r)); [done|by rewrite tbl_log, tbl_set, (alter_as_insert _ _ _ _ Hr)|done].
  - unfold log_extends.
    match goal with |- _ `prefix_of` activity_events ?s => change (activity_events s) with
      (activity_events (set tbl (alter f id) d) ++ [mk_activity_event (a_openId a) (a_role a) action kind oid (db_now E) md None])%list end.
    rewrite tbl_set_log. by apply prefix_app_r.
Qed.
End statements.
