(* ===== verification/Lifecycles.v ===== *)
(** * Operator onboarding and auditor engagement

    src/apps/control-plane/server/operatorOnboardingLifecycle.ts and
    auditorEngagementLifecycle.ts: two four-phase records, each step of which is
    an update guarded by the phase the record is in. *)

From S2P Require Import Prelude Js Numeric Rows Schema.

Local Open Scope string_scope.
Local Open Scope Z_scope.

(** The body the steps share: read the phase under a row lock, refuse when the
    record is missing or in another phase, update, log. *)
Section phase.
Context {R P : Type} `{EqDecision P} (tbl : db → gmap uuid R) `{!Setter tbl} (phase : R → P).
Context (objectType missing : string).

Definition phase_step (E : env) (a : actor) (id : uuid) (expected : P) (wrong : string) (f : R → R)
    (action : string) (metadata : list (string * json)) : Act db uuid :=
  transaction (
    current ← select_by_id tbl id;
    r ← require current (JsError missing);
    _ ← throw_if (negb (bool_decide (phase r = expected))) (JsError wrong);
    _ ← update_row tbl id f;
    _ ← insert_activity E a action objectType (Some id) (JObj metadata);
    mret id).
End phase.

(** [COALESCE(x, now())]. *)
Definition coalesce (o : option Z) (t : Z) : option Z := match o with Some x => Some x | None => Some t end.

Module OperatorOnboarding.

Definition recordActivity (E : env) (a : actor) (action : string) (objectId : uuid)
    (metadata : list (string * json)) : Tx db unit :=
  insert_activity E a action "operator_onboarding_record" (Some objectId) (JObj metadata).

Definition step := phase_step operator_onboarding_records oor_phase "operator_onboarding_record"
  "operator onboarding record was not found".

Definition started (E : env) (a : actor) (subject : string) : operator_onboarding_record :=
  mk_operator_onboarding_record subject OpRoleAccessRequest false None None None None None None None None None None
    (a_openId a) (db_now E).

Definition startOperatorOnboarding (E : env) (a : actor) (new_id : uuid) (subject : string) : Act db uuid :=
  transaction (
    _ ← insert_row operator_onboarding_records "operator_onboarding_records" no_rules new_id (started E a subject);
    _ ← recordActivity E a "operator_onboarding.started" new_id [("subject", JStr subject)];
    mret new_id).

Definition reviewed (E : env) (a : actor) (note : string) (r : operator_onboarding_record) :=
  r <| oor_sod_matrix_reviewed := true |> <| oor_sod_matrix_reviewed_by := Some (a_openId a) |>
    <| oor_sod_matrix_reviewed_at := Some (db_now E) |> <| oor_sod_matrix_note := Some note |>
    <| oor_phase := OpLmsEnrolment |>.
Definition recordSodMatrixReview (E : env) (a : actor) (onboardingId : uuid) (note : string) : Act db uuid :=
  _ ← act_throw_if (js_length (trim note) <? 10)
    (JsError "a SoD matrix review note of at least 10 characters is required");
  step E a onboardingId OpRoleAccessRequest "SoD matrix review only applies at the role-access-request phase"
    (reviewed E a (trim note)) "operator_onboarding.sod_matrix_reviewed" [("note", JStr (trim note))].

Definition enrolled (E : env) (certReference : string) (r : operator_onboarding_record) :=
  r <| oor_lms_cert_reference := Some certReference |> <| oor_lms_cert_assigned_at := Some (db_now E) |>
    <| oor_phase := OpShadowPeriod |>.
Definition recordLmsEnrolment (E : env) (a : actor) (onboardingId : uuid) (certReference : string) : Act db uuid :=
  _ ← act_throw_if (negb (truthy (trim certReference))) (JsError "a certification reference is required");
  step E a onboardingId OpLmsEnrolment "LMS enrolment only applies at the lms-enrolment phase"
    (enrolled E (trim certReference)) "operator_onboarding.lms_enrolled" [("certReference", JStr (trim certReference))].

Definition supervised (E : env) (supervisedBy : string) (r : operator_onboarding_record) :=
  r <| oor_shadow_period_supervised_by := Some supervisedBy |>
    <| oor_shadow_period_started_at ::= λ t, coalesce t (db_now E) |>
    <| oor_shadow_period_ended_at := Some (db_now E) |> <| oor_phase := OpSteadyState |>.
Definition recordShadowPeriodSupervision (E : env) (a : actor) (onboardingId : uuid) (supervisedBy : string) :
    Act db uuid :=
  _ ← act_throw_if (negb (truthy (trim supervisedBy))) (JsError "a supervising operator is required");
  step E a onboardingId OpShadowPeriod "shadow-period supervision only applies at the shadow-period phase"
    (supervised E (trim supervisedBy)) "operator_onboarding.shadow_period_supervised"
    [("supervisedBy", JStr (trim supervisedBy))].

Definition recertified (E : env) (due : Z) (r : operator_onboarding_record) :=
  r <| oor_steady_state_activated_at ::= λ t, coalesce t (db_now E) |>
    <| oor_next_recert_due_at := Some (pg_of_js due) |>.
Definition recordOperatorRecertification (E : env) (a : actor) (onboardingId : uuid) (nextRecertDueAt : Z) :
    Act db uuid :=
  step E a onboardingId OpSteadyState "recertification only applies once steady-state has been reached"
    (recertified E nextRecertDueAt) "operator_onboarding.recertified" [("nextRecertDueAt", JDate nextRecertDueAt)].

Definition listOperatorOnboardingRecords (d : db) : list (uuid * operator_onboarding_record) :=
  order_by_desc (λ r, oor_created_at r.2) (map_to_list (operator_onboarding_records d)).

End OperatorOnboarding.

Module AuditorEngagement.

Definition recordActivity (E : env) (a : actor) (action : string) (objectId : uuid)
    (metadata : list (string * json)) : Tx db unit :=
  insert_activity E a action "auditor_engagement_record" (Some objectId) (JObj metadata).

Definition step := phase_step auditor_engagement_records aer_phase "auditor_engagement_record"
  "auditor engagement record was not found".

Definition started (E : env) (a : actor) (firm reference : string) : auditor_engagement_record :=
  mk_auditor_engagement_record firm reference AudEngagementLetter None None None None None None None None None None
    None (a_openId a) (db_now E).

Definition startAuditorEngagement (E : env) (a : actor) (new_id : uuid) (auditorFirmName engagementReference : string) :
    Act db uuid :=
  transaction (
    _ ← insert_row auditor_engagement_records "auditor_engagement_records" no_rules new_id
      (started E a auditorFirmName engagementReference);
    _ ← recordActivity E a "auditor_engagement.started" new_id
      [("auditorFirmName", JStr auditorFirmName); ("engagementReference", JStr engagementReference)];
    mret new_id).

Definition signed (E : env) (uri scope : string) (r : auditor_engagement_record) :=
  r <| aer_engagement_letter_uri := Some uri |> <| aer_engagement_letter_signed_at := Some (db_now E) |>
    <| aer_scope_note := Some scope |> <| aer_phase := AudAccessProvisioning |>.
Definition recordEngagementLetter (E : env) (a : actor) (engagementId : uuid) (engagementLetterUri scopeNote : string) :
    Act db uuid :=
  _ ← act_throw_if (js_length (trim scopeNote) <? 10) (JsError "a scope note of at least 10 characters is required");
  step E a engagementId AudEngagementLetter "the engagement letter step only applies at the engagement-letter phase"
    (signed E engagementLetterUri (trim scopeNote)) "auditor_engagement.letter_signed"
    [("engagementLetterUri", JStr engagementLetterUri)].

Definition provisioned (E : env) (a : actor) (subject : string) (r : auditor_engagement_record) :=
  r <| aer_auditor_subject := Some subject |> <| aer_access_provisioned_at := Some (db_now E) |>
    <| aer_access_provisioned_by := Some (a_openId a) |> <| aer_phase := AudAuditFieldwork |>.
Definition recordAccessProvisioning (E : env) (a : actor) (engagementId : uuid) (auditorSubject : string) :
    Act db uuid :=
  _ ← act_throw_if (negb (truthy (trim auditorSubject)))
    (JsError "the provisioned auditor's platform subject is required");
  step E a engagementId AudAccessProvisioning "access provisioning only applies at the access-provisioning phase"
    (provisioned E a (trim auditorSubject)) "auditor_engagement.access_provisioned"
    [("auditorSubject", JStr (trim auditorSubject))].

Definition fieldwork_done (E : env) (note : string) (r : auditor_engagement_record) :=
  r <| aer_fieldwork_note := Some note |> <| aer_fieldwork_started_at ::= λ t, coalesce t (db_now E) |>
    <| aer_fieldwork_completed_at := Some (db_now E) |> <| aer_phase := AudAnnualReview |>.
Definition recordAuditFieldwork (E : env) (a : actor) (engagementId : uuid) (fieldworkNote : string) : Act db uuid :=
  _ ← act_throw_if (js_length (trim fieldworkNote) <? 10)
    (JsError "a fieldwork note of at least 10 characters is required");
  step E a engagementId AudAuditFieldwork "fieldwork recording only applies at the audit-fieldwork phase"
    (fieldwork_done E (trim fieldworkNote)) "auditor_engagement.fieldwork_recorded"
    [("fieldworkNote", JStr (trim fieldworkNote))].

Definition annually_reviewed (E : env) (due : Z) (r : auditor_engagement_record) :=
  r <| aer_last_annual_review_at := Some (db_now E) |> <| aer_next_annual_review_due_at := Some (pg_of_js due) |>.
Definition recordAnnualReview (E : env) (a : actor) (engagementId : uuid) (nextAnnualReviewDueAt : Z) : Act db uuid :=
  step E a engagementId AudAnnualReview "annual review only applies once the annual-review phase has been reached"
    (annually_reviewed E nextAnnualReviewDueAt) "auditor_engagement.annual_review_recorded"
    [("nextAnnualReviewDueAt", JDate nextAnnualReviewDueAt)].

Definition listAuditorEngagements (d : db) : list (uuid * auditor_engagement_record) :=
  order_by_desc (λ r, aer_created_at r.2) (map_to_list (auditor_engagement_records d)).

End AuditorEngagement.
