(* ===== verification/LifecycleProps.v ===== *)
(** * What the operator and auditor lifecycles guarantee *)

From S2P Require Import Prelude Js Numeric Rows Schema TableSteps Lifecycles.

Local Open Scope string_scope.
Local Open Scope Z_scope.

(** A guarded step is a move of its table. *)
Lemma phase_step_contract {R P} `{EqDecision P} (tbl : db → gmap uuid R) `{!Setter tbl, !TableLaws tbl}
    (phase : R → P) kind missing init (move : relation R) E a id expected wrong f action md :
  (∀ r, phase r = expected → move r (f r)) →
  act_respects (table_contract tbl init move)
    (phase_step tbl phase kind missing E a id expected wrong f action md).
Proof.
  intros Hm. apply transaction_respects; [apply _|]. intros d x d' Hb.
  apply tx_bind_ok in Hb as (c & d1 & [Hc ->]%gets_ok & Hb).
  apply tx_bind_ok in Hb as (r & d2 & [Hr ->]%require_ok & Hb).
  apply tx_bind_ok in Hb as ([] & d3 & [Hp ->]%throw_if_ok & Hb). unbool.
  eapply (update_logged_contract tbl); [exact (eq_trans Hc Hr)|by apply Hm|exact Hb].
Qed.

(** ** Operators *)

Definition operator_init (r : operator_onboarding_record) : Prop := ∃ E a s, r = OperatorOnboarding.started E a s.

Inductive operator_move (r : operator_onboarding_record) : operator_onboarding_record → Prop :=
  | om_reviewed E a note : oor_phase r = OpRoleAccessRequest → 10 <= js_length note →
      operator_move r (OperatorOnboarding.reviewed E a note r)
  | om_enrolled E cert : oor_phase r = OpLmsEnrolment → cert ≠ "" →
      operator_move r (OperatorOnboarding.enrolled E cert r)
  | om_supervised E by_ : oor_phase r = OpShadowPeriod → by_ ≠ "" →
      operator_move r (OperatorOnboarding.supervised E by_ r)
  | om_recertified E due : oor_phase r = OpSteadyState → operator_move r (OperatorOnboarding.recertified E due r).

Definition operator_contract := table_contract operator_onboarding_records operator_init operator_move.

Definition operator_rank (p : operator_onboarding_phase) : Z :=
  match p with OpRoleAccessRequest => 0 | OpLmsEnrolment => 1 | OpShadowPeriod => 2 | OpSteadyState => 3 end.

(** What a step records: there, and as the step requires, once the phase it
    leads to is reached, and absent before. *)
Definition recorded {A} (reached : bool) (P : A → Prop) (x : option A) : Prop := if reached then ∃ v, x = Some v ∧ P v else x = None.
Definition anything {A} (_ : A) : Prop := True.
Definition long (s : string) : Prop := 10 <= js_length s.
Definition filled (s : string) : Prop := s ≠ "".
Definition operator_at (k : Z) (r : operator_onboarding_record) : bool := k <=? operator_rank (oor_phase r).

(** What a record has in a phase, column by column. *)
Record operator_ok (r : operator_onboarding_record) : Prop := {
  op_reviewed : oor_sod_matrix_reviewed r = operator_at 1 r;
  op_reviewer : recorded (operator_at 1 r) anything (oor_sod_matrix_reviewed_by r);
  op_reviewed_at : recorded (operator_at 1 r) anything (oor_sod_matrix_reviewed_at r);
  op_note : recorded (operator_at 1 r) long (oor_sod_matrix_note r);
  op_certified : recorded (operator_at 2 r) filled (oor_lms_cert_reference r);
  op_certified_at : recorded (operator_at 2 r) anything (oor_lms_cert_assigned_at r);
  op_supervised : recorded (operator_at 3 r) filled (oor_shadow_period_supervised_by r);
  op_shadow_started : recorded (operator_at 3 r) anything (oor_shadow_period_started_at r);
  op_shadow_ended : recorded (operator_at 3 r) anything (oor_shadow_period_ended_at r);
  op_inactive : operator_at 3 r = false → oor_steady_state_activated_at r = None ∧ oor_next_recert_due_at r = None;
  op_active : is_Some (oor_steady_state_activated_at r) ↔ is_Some (oor_next_recert_due_at r);
  op_shadow : oor_shadow_period_started_at r = oor_shadow_period_ended_at r
}.

Lemma operator_init_ok r : operator_init r → operator_ok r.
Proof. intros (E & a & s & ->). by split. Qed.

Lemma operator_move_ok r r' : operator_move r r' → operator_ok r → operator_ok r'.
Proof.
  intros [E a note Hp Hn|E cert Hp Hc|E s Hp Hs|E due Hp] [H1 H2 H3 H4 H5 H6 H7 H8 H9 H10 H11 H12];
    unfold recorded, operator_at, anything, long, filled in *; rewrite ?Hp in *; cbn in *;
    split; unfold recorded, operator_at; cbn; rewrite ?Hp; cbn; try done; try (eexists; split; [done|]; done); eauto.
  - rewrite H8. by eexists.
  - by rewrite H8.
  - destruct (oor_steady_state_activated_at r); split; eauto.
Qed.

(** ** Auditors *)

Definition auditor_init (r : auditor_engagement_record) : Prop := ∃ E a f s, r = AuditorEngagement.started E a f s.

Inductive auditor_move (r : auditor_engagement_record) : auditor_engagement_record → Prop :=
  | am_signed E uri scope : aer_phase r = AudEngagementLetter → 10 <= js_length scope →
      auditor_move r (AuditorEngagement.signed E uri scope r)
  | am_provisioned E a subject : aer_phase r = AudAccessProvisioning → subject ≠ "" →
      auditor_move r (AuditorEngagement.provisioned E a subject r)
  | am_fieldwork E note : aer_phase r = AudAuditFieldwork → 10 <= js_length note →
      auditor_move r (AuditorEngagement.fieldwork_done E note r)
  | am_reviewed E due : aer_phase r = AudAnnualReview → auditor_move r (AuditorEngagement.annually_reviewed E due r).

Definition auditor_contract := table_contract auditor_engagement_records auditor_init auditor_move.

Definition auditor_rank (p : auditor_engagement_phase) : Z :=
  match p with AudEngagementLetter => 0 | AudAccessProvisioning => 1 | AudAuditFieldwork => 2 | AudAnnualReview => 3 end.

Definition auditor_at (k : Z) (r : auditor_engagement_record) : bool := k <=? auditor_rank (aer_phase r).
Record auditor_ok (r : auditor_engagement_record) : Prop := {
  au_letter : recorded (auditor_at 1 r) anything (aer_engagement_letter_uri r);
  au_signed_at : recorded (auditor_at 1 r) anything (aer_engagement_letter_signed_at r);
  au_scope : recorded (auditor_at 1 r) long (aer_scope_note r);
  au_subject : recorded (auditor_at 2 r) filled (aer_auditor_subject r);
  au_provisioned_at : recorded (auditor_at 2 r) anything (aer_access_provisioned_at r);
  au_provisioned_by : recorded (auditor_at 2 r) anything (aer_access_provisioned_by r);
  au_fieldwork : recorded (auditor_at 3 r) long (aer_fieldwork_note r);
  au_started : recorded (auditor_at 3 r) anything (aer_fieldwork_started_at r);
  au_completed : recorded (auditor_at 3 r) anything (aer_fieldwork_completed_at r);
  au_unreviewed : auditor_at 3 r = false → aer_last_annual_review_at r = None ∧ aer_next_annual_review_due_at r = None;
  au_reviewed : is_Some (aer_last_annual_review_at r) ↔ is_Some (aer_next_annual_review_due_at r);
  au_duration : aer_fieldwork_started_at r = aer_fieldwork_completed_at r
}.

Lemma auditor_init_ok r : auditor_init r → auditor_ok r.
Proof. intros (E & a & f & s & ->). by split. Qed.

Lemma auditor_move_ok r r' : auditor_move r r' → auditor_ok r → auditor_ok r'.
Proof.
  intros [E uri scope Hp Hn|E a s Hp Hs|E note Hp Hn|E due Hp] [H1 H2 H3 H4 H5 H6 H7 H8 H9 H10 H11 H12];
    unfold recorded, auditor_at, anything, long, filled in *; rewrite ?Hp in *; cbn in *;
    split; unfold recorded, auditor_at; cbn; rewrite ?Hp; cbn; try done; try (eexists; split; [done|]; done); eauto.
  - rewrite H8. by eexists.
  - by rewrite H8.
Qed.

(** ** Calls *)

Inductive lifecycle_call (d : db) : db → Prop :=
  | lc_op_start E a id s : lifecycle_call d (OperatorOnboarding.startOperatorOnboarding E a id s d).2
  | lc_op_review E a id n : lifecycle_call d (OperatorOnboarding.recordSodMatrixReview E a id n d).2
  | lc_op_enrol E a id c : lifecycle_call d (OperatorOnboarding.recordLmsEnrolment E a id c d).2
  | lc_op_shadow E a id s : lifecycle_call d (OperatorOnboarding.recordShadowPeriodSupervision E a id s d).2
  | lc_op_recertify E a id t : lifecycle_call d (OperatorOnboarding.recordOperatorRecertification E a id t d).2
  | lc_au_start E a id f s : lifecycle_call d (AuditorEngagement.startAuditorEngagement E a id f s d).2
  | lc_au_letter E a id u n : lifecycle_call d (AuditorEngagement.recordEngagementLetter E a id u n d).2
  | lc_au_access E a id s : lifecycle_call d (AuditorEngagement.recordAccessProvisioning E a id s d).2
  | lc_au_fieldwork E a id n : lifecycle_call d (AuditorEngagement.recordAuditFieldwork E a id n d).2
  | lc_au_review E a id t : lifecycle_call d (AuditorEngagement.recordAnnualReview E a id t d).2
  | lc_elsewhere d' : operator_onboarding_records d' = operator_onboarding_records d →
      auditor_engagement_records d' = auditor_engagement_records d → log_extends d d' → lifecycle_call d d'.

(** A step of one table does not touch the other. *)
Lemma phase_step_other {R P Q} `{EqDecision P} (tbl : db → gmap uuid R) `{!Setter tbl} (other : db → Q)
    (phase : R → P) kind missing E a id expected wrong f action md d :
  (∀ g d, other (set tbl g d) = other d) → (∀ g d, other (set activity_events g d) = other d) →
  other (phase_step tbl phase kind missing E a id expected wrong f action md d).2 = other d.
Proof.
  intros H1 H2. unfold phase_step, transaction.
  match goal with |- context [match ?m with _ => _ end] => destruct m as [[x d']|e] eqn:Hb end; [|done]. simpl.
  apply tx_bind_ok in Hb as (c & d1 & [_ ->]%gets_ok & Hb).
  apply tx_bind_ok in Hb as (r & d2 & [_ ->]%require_ok & Hb).
  apply tx_bind_ok in Hb as ([] & d3 & [_ ->]%throw_if_ok & Hb).
  apply tx_bind_ok in Hb as ([] & d4 & ->%modify_ok & Hb).
  apply tx_bind_ok in Hb as ([] & d5 & ->%modify_ok & [_ ->]%mret_ok). by rewrite H2, H1.
Qed.

(** A guard before a step supplies the step's premise. *)
Lemma guarded_respects {A} (C : relation db) `{!Reflexive C} b e (k : unit → Act db A) :
  (b = false → act_respects C (k tt)) → act_respects C (mbind k (act_throw_if b e)).
Proof. intros Hk d. rewrite act_throw_if_bind. destruct b; [reflexivity|by apply Hk]. Qed.
Lemma guarded_other {A Q} (other : db → Q) b e (k : unit → Act db A) d :
  other (k tt d).2 = other d → other (mbind k (act_throw_if b e) d).2 = other d.
Proof. intros Hk. rewrite act_throw_if_bind. by destruct b. Qed.

Ltac guard_facts := unfold truthy in *; unbool;
  try match goal with H : (_ <? _) = false |- _ => apply Z.ltb_ge in H end.
Ltac own_step :=
  first [ apply guarded_respects; [apply _|]; intros ?; guard_facts | idtac ];
  apply phase_step_contract; [apply _|]; intros ? ?; by econstructor.

Lemma operator_contracts E a id s t :
  act_respects operator_contract (OperatorOnboarding.startOperatorOnboarding E a id s) ∧
  act_respects operator_contract (OperatorOnboarding.recordSodMatrixReview E a id s) ∧
  act_respects operator_contract (OperatorOnboarding.recordLmsEnrolment E a id s) ∧
  act_respects operator_contract (OperatorOnboarding.recordShadowPeriodSupervision E a id s) ∧
  act_respects operator_contract (OperatorOnboarding.recordOperatorRecertification E a id t).
Proof.
  split_and!; [|own_step..]. apply (transaction_respects _).
  apply (insert_logged_contract operator_onboarding_records). by eexists _, _, _.
Qed.

Lemma auditor_contracts E a id f s t :
  act_respects auditor_contract (AuditorEngagement.startAuditorEngagement E a id f s) ∧
  act_respects auditor_contract (AuditorEngagement.recordEngagementLetter E a id f s) ∧
  act_respects auditor_contract (AuditorEngagement.recordAccessProvisioning E a id s) ∧
  act_respects auditor_contract (AuditorEngagement.recordAuditFieldwork E a id s) ∧
  act_respects auditor_contract (AuditorEngagement.recordAnnualReview E a id t).
Proof.
  split_and!; [|own_step..]. apply (transaction_respects _).
  apply (insert_logged_contract auditor_engagement_records). by eexists _, _, _, _.
Qed.

Ltac other_step := try apply guarded_other; apply phase_step_other; by intros ? [].
Lemma insert_other {R Q B} (tbl : db → gmap uuid R) `{!Setter tbl} (other : db → Q) name rules id row
    E a action kind oid md (b : B) d :
  (∀ g d, other (set tbl g d) = other d) → (∀ g d, other (set activity_events g d) = other d) →
  other (transaction (_ ← insert_row tbl name rules id row; _ ← insert_activity E a action kind oid md; mret b) d).2
    = other d.
Proof.
  intros H1 H2. unfold transaction.
  match goal with |- context [match ?m with _ => _ end] => destruct m as [[x d']|e] eqn:Hb end; [|done]. simpl.
  apply tx_bind_ok in Hb as ([] & d1 & (_ & _ & _ & _ & ->)%insert_row_ok & Hb).
  apply tx_bind_ok in Hb as ([] & d2 & ->%modify_ok & [_ ->]%mret_ok). by rewrite H2, H1.
Qed.
Ltac other_insert := apply insert_other; by intros ? [].

Lemma operator_others E a id s t d :
  auditor_engagement_records (OperatorOnboarding.startOperatorOnboarding E a id s d).2 = auditor_engagement_records d ∧
  auditor_engagement_records (OperatorOnboarding.recordSodMatrixReview E a id s d).2 = auditor_engagement_records d ∧
  auditor_engagement_records (OperatorOnboarding.recordLmsEnrolment E a id s d).2 = auditor_engagement_records d ∧
  auditor_engagement_records (OperatorOnboarding.recordShadowPeriodSupervision E a id s d).2 = auditor_engagement_records d ∧
  auditor_engagement_records (OperatorOnboarding.recordOperatorRecertification E a id t d).2 = auditor_engagement_records d.
Proof. split_and!; [other_insert|other_step..]. Qed.

Lemma auditor_others E a id f s t d :
  operator_onboarding_records (AuditorEngagement.startAuditorEngagement E a id f s d).2 = operator_onboarding_records d ∧
  operator_onboarding_records (AuditorEngagement.recordEngagementLetter E a id f s d).2 = operator_onboarding_records d ∧
  operator_onboarding_records (AuditorEngagement.recordAccessProvisioning E a id s d).2 = operator_onboarding_records d ∧
  operator_onboarding_records (AuditorEngagement.recordAuditFieldwork E a id s d).2 = operator_onboarding_records d ∧
  operator_onboarding_records (AuditorEngagement.recordAnnualReview E a id t d).2 = operator_onboarding_records d.
Proof. split_and!; [other_insert|other_step..]. Qed.

Lemma lifecycle_call_contracts d d' : lifecycle_call d d' → operator_contract d d' ∧ auditor_contract d d'.
Proof.
  intros [E a id s|E a id s|E a id s|E a id s|E a id t|E a id f s|E a id f s|E a id s|E a id s|E a id t|d1 H1 H2 H3].
  1-4: (pose proof (operator_contracts E a id s 0) as (C1 & C2 & C3 & C4 & _);
    pose proof (operator_others E a id s 0 d) as (O1 & O2 & O3 & O4 & _)).
  1: (split; [apply C1|split; [by apply ts_same|apply C1]]).
  1: (split; [apply C2|split; [by apply ts_same|apply C2]]).
  1: (split; [apply C3|split; [by apply ts_same|apply C3]]).
  1: (split; [apply C4|split; [by apply ts_same|apply C4]]).
  1: (pose proof (operator_contracts E a id "" t) as (_ & _ & _ & _ & C);
    pose proof (operator_others E a id "" t d) as (_ & _ & _ & _ & O);
    split; [apply C|split; [by apply ts_same|apply C]]).
  1-2: (pose proof (auditor_contracts E a id f s 0) as (C1 & C2 & _);
    pose proof (auditor_others E a id f s 0 d) as (O1 & O2 & _)).
  1: (split; [split; [by apply ts_same|apply C1]|apply C1]).
  1: (split; [split; [by apply ts_same|apply C2]|apply C2]).
  1-2: (pose proof (auditor_contracts E a id "" s 0) as (_ & _ & C1 & C2 & _);
    pose proof (auditor_others E a id "" s 0 d) as (_ & _ & O1 & O2 & _)).
  1: (split; [split; [by apply ts_same|apply C1]|apply C1]).
  1: (split; [split; [by apply ts_same|apply C2]|apply C2]).
  1: (pose proof (auditor_contracts E a id "" "" t) as (_ & _ & _ & _ & C);
    pose proof (auditor_others E a id "" "" t d) as (_ & _ & _ & _ & O);
    split; [split; [by apply ts_same|apply C]|apply C]).
  split; (split; [by apply ts_same|done]).
Qed.

Lemma lifecycle_runs d d' : rtc lifecycle_call d d' → rtc operator_contract d d' ∧ rtc auditor_contract d d'.
Proof.
  induction 1 as [|d0 d1 d2 [H1 H2]%lifecycle_call_contracts _ [IH1 IH2]]; [split; apply rtc_refl|].
  split; by eapply rtc_l.
Qed.

Lemma lifecycle_run_ok d : rtc lifecycle_call empty_db d →
  map_Forall (λ _, operator_ok) (operator_onboarding_records d) ∧
  map_Forall (λ _, auditor_ok) (auditor_engagement_records d).
Proof.
  intros [H1 H2]%lifecycle_runs. split.
  - eapply table_run_Forall; [apply operator_init_ok|apply operator_move_ok|exact H1|apply map_Forall_empty].
  - eapply table_run_Forall; [apply auditor_init_ok|apply auditor_move_ok|exact H2|apply map_Forall_empty].
Qed.

(** One call moves a row at most one phase on and never back; a new row is in the first. *)
Definition in_order {R} (rank : R → Z) (t t' : gmap uuid R) : Prop :=
  ∀ id r', t' !! id = Some r' → match t !! id with Some r => rank r <= rank r' <= rank r + 1 | None => rank r' = 0 end.
Lemma table_step_in_order {R} (tbl : db → gmap uuid R) init (move : relation R) (rank : R → Z) d d' :
  (∀ r, init r → rank r = 0) → (∀ r r', move r r' → rank r <= rank r' <= rank r + 1) →
  table_step tbl init move d d' → in_order rank (tbl d) (tbl d').
Proof.
  intros Hi Hm [HT|id r Hn HT Hr|id r r1 Hid HT Hr] j x Hj; rewrite HT in Hj.
  - rewrite Hj. lia.
  - apply lookup_insert_Some in Hj as [[<- <-]|[_ ->]]; [rewrite Hn; by apply Hi|lia].
  - apply lookup_insert_Some in Hj as [[<- <-]|[_ ->]]; [rewrite Hid; by apply Hm|lia].
Qed.
Lemma lifecycle_in_order d d' : lifecycle_call d d' →
  in_order (λ r, operator_rank (oor_phase r)) (operator_onboarding_records d) (operator_onboarding_records d') ∧
  in_order (λ r, auditor_rank (aer_phase r)) (auditor_engagement_records d) (auditor_engagement_records d').
Proof.
  intros [[Ho _] [Ha _]]%lifecycle_call_contracts. split; eapply table_step_in_order; try eassumption.
  - by intros r (E & a & s & ->).
  - intros r r' [E a n Hp _|E c Hp _|E b Hp _|E t Hp]; cbn; rewrite Hp; cbn; lia.
  - by intros r (E & a & f & s & ->).
  - intros r r' [E u n Hp _|E a c Hp _|E b Hp _|E t Hp]; cbn; rewrite Hp; cbn; lia.
Qed.

(** C17. Phases are earned in order. On every run an operator's record has the
    reviewed segregation-of-duties matrix (the flag, who, when and a note of at
    least ten characters) exactly from the enrolment phase on, a certificate and
    its date exactly from the shadow period on, a supervisor and the period's
    times exactly in steady state, and neither an activation nor a
    recertification before it; an engagement has the signed letter with its date
    and a scope exactly from access provisioning on, the auditor's subject with
    when and by whom exactly from fieldwork on, the fieldwork's note and times
    exactly under annual review, and no review before it. A call moves a record
    at most one phase on and never back, and starts one in the first phase. *)
Theorem phases_are_earned d :
  rtc lifecycle_call empty_db d →
  (∀ id r, operator_onboarding_records d !! id = Some r → operator_ok r) ∧
  (∀ id r, auditor_engagement_records d !! id = Some r → auditor_ok r) ∧
  (∀ d', lifecycle_call d d' →
    in_order (λ r, operator_rank (oor_phase r)) (operator_onboarding_records d) (operator_onboarding_records d') ∧
    in_order (λ r, auditor_rank (aer_phase r)) (auditor_engagement_records d) (auditor_engagement_records d')).
Proof. intros [Ho Ha]%lifecycle_run_ok. split_and!; [exact Ho|exact Ha|exact (lifecycle_in_order d)]. Qed.

(** A shadow period and a fieldwork period always have zero length: the
    only step that sets the start of either also sets its end, to the same
    instant, so the recorded duration of supervision or of an audit is zero in
    every reachable state. *)
Theorem periods_have_no_length d :
  rtc lifecycle_call empty_db d →
  (∀ id r, operator_onboarding_records d !! id = Some r →
    oor_shadow_period_started_at r = oor_shadow_period_ended_at r) ∧
  (∀ id r, auditor_engagement_records d !! id = Some r →
    aer_fieldwork_started_at r = aer_fieldwork_completed_at r).
Proof.
  intros [Ho Ha]%lifecycle_run_ok. split; intros id r Hr; [apply (Ho id r Hr)|apply (Ha id r Hr)].
Qed.

(** ** A worked run *)

Definition lead : actor := mk_actor "lead-1" RoleAdmin.
Definition life_env (t : Z) : env := mk_env t (t * 1000) 0.
Definition life1 := (OperatorOnboarding.startOperatorOnboarding (life_env 1) lead 1 "ops-7" empty_db).2.
Definition life2 := (OperatorOnboarding.recordSodMatrixReview (life_env 2) lead 1 "matrix reviewed, no conflict" life1).2.
Definition life3 := (OperatorOnboarding.recordLmsEnrolment (life_env 3) lead 1 "cert-44" life2).2.
Definition life4 := (OperatorOnboarding.recordShadowPeriodSupervision (life_env 4) lead 1 "lead-1" life3).2.

Lemma life_run : rtc lifecycle_call empty_db life4.
Proof.
  eapply rtc_r, lc_op_shadow. eapply rtc_r, lc_op_enrol. eapply rtc_r, lc_op_review. eapply rtc_once, lc_op_start.
Qed.

(** Witness of [phases_are_earned]: before the shadow period there is no supervisor, after it there is one. *)
Lemma life_run3 : rtc lifecycle_call empty_db life3.
Proof. eapply rtc_r, lc_op_enrol. eapply rtc_r, lc_op_review. eapply rtc_once, lc_op_start. Qed.
Lemma phases_are_earned_witness :
  (∃ r, operator_onboarding_records life3 !! 1%positive = Some r ∧ oor_phase r = OpShadowPeriod ∧ operator_ok r ∧ oor_shadow_period_supervised_by r = None) ∧
  (∃ r, operator_onboarding_records life4 !! 1%positive = Some r ∧ oor_phase r = OpSteadyState ∧ operator_ok r ∧
    ∃ s, oor_shadow_period_supervised_by r = Some s ∧ s ≠ "").
Proof.
  split.
  - destruct (operator_onboarding_records life3 !! 1%positive) as [r|] eqn:Hr; [|vm_compute in Hr; discriminate Hr].
    pose proof (proj1 (phases_are_earned life3 life_run3) 1%positive r Hr) as Hok. vm_compute in Hr. injection Hr as <-.
    eexists. split; [reflexivity|]. split; [reflexivity|]. split; [exact Hok|exact (op_supervised _ Hok)].
  - destruct (operator_onboarding_records life4 !! 1%positive) as [r|] eqn:Hr; [|vm_compute in Hr; discriminate Hr].
    pose proof (proj1 (phases_are_earned life4 life_run) 1%positive r Hr) as Hok. vm_compute in Hr. injection Hr as <-.
    eexists. split; [reflexivity|]. split; [reflexivity|]. split; [exact Hok|exact (op_supervised _ Hok)].
Defined.

(** Witness of [periods_have_no_length]: started and ended in the same instant. *)
Lemma periods_have_no_length_witness :
  ∃ r, operator_onboarding_records life4 !! 1%positive = Some r ∧ oor_shadow_period_ended_at r = Some 4000 ∧
    oor_shadow_period_started_at r = oor_shadow_period_ended_at r.
Proof.
  eexists. split; [vm_compute; reflexivity|]. split; [reflexivity|].
  refine (proj1 (periods_have_no_length life4 life_run) 1%positive _ _). vm_compute. reflexivity.
Defined.
