(* ===== verification/EvidencePacks.v ===== *)
(** * Evidence packs and dedicated gates of the counterparty chapters

    src/apps/control-plane/server/liquidityProviderEvidence.ts,
    bankingPartnerEvidence.ts, payoutPspEvidence.ts, stablecoinIssuerEvidence.ts
    and complianceVendorEvidence.ts. The five modules repeat one shape over
    their own columns, tables, enumerations and gates; a [chapter] holds what
    differs, the operations are defined once, and each module is an instance. *)

From S2P Require Import Prelude Js Numeric Sha256 Rows Schema Onboarding.

Local Open Scope string_scope.
Local Open Scope Z_scope.

Record chapter : Type := mk_chapter {
  ch_domain : evidence_domain;
  ch_counterparty_types : list string;
  ch_archetype_type : string;
  ch_archetypes : list string;
  ch_evidence_enum : string;
  ch_evidence_types : list string;
  ch_gates : list string;
  (** [permittedGateRoles], where the module checks the role itself. *)
  ch_permitted : option (string → list operating_role);
  ch_role_error : string;
  ch_archetype_action : string;
  ch_evidence_action : string;
  ch_gate_action : string;
  ch_gate_object : string;
  (** Whether the decision table has a gate column. *)
  ch_names_gate : bool
}.

Section operations.
Context (C : chapter).

(** [updateCounterparty…Archetype]. *)
Definition update_archetype (E : env) (a : actor) (counterpartyId : uuid) (archetype : string) :
    Act db (uuid * string) :=
  transaction (
    current ← select_by_id counterparties counterpartyId;
    _ ← require current (JsError "counterparty record was not found");
    _ ← throw_if (negb (includes (ch_archetypes C) archetype)) (PgError (InvalidInput (ch_archetype_type C)));
    _ ← update_row counterparties counterpartyId (λ r, r <| cp_archetypes ::= <[ch_domain C := archetype]> |>);
    _ ← insert_activity E a (ch_archetype_action C) "counterparty" (Some counterpartyId)
      (JObj [("archetype", JStr archetype)]);
    mret (counterpartyId, archetype)).

Record evidence_input : Type := mk_evidence_input {
  evi_counterpartyId : uuid;
  evi_evidenceType : string;
  evi_evidenceUri : string;
  evi_note : option string
}.

(** [record…EvidenceItem]. *)
Definition record_evidence (E : env) (a : actor) (new_id : uuid) (input : evidence_input) :
    Act db (uuid * evidence_item) :=
  transaction (
    counterparty ← select_by_id counterparties (evi_counterpartyId input);
    _ ← require counterparty (JsError "a canonical counterparty is required before recording evidence");
    _ ← throw_if (negb (includes (ch_evidence_types C) (evi_evidenceType input)))
      (PgError (InvalidInput (ch_evidence_enum C)));
    let row := mk_evidence_item (evi_counterpartyId input) (evi_evidenceType input) (evi_evidenceUri input)
      (evi_note input) (a_openId a) (db_now E) in
    _ ← insert_row (evidence_items (ch_domain C)) "evidence_items" rules_evidence_items new_id row;
    _ ← insert_activity E a (ch_evidence_action C) "counterparty" (Some (evi_counterpartyId input))
      (JObj [("evidenceType", JStr (evi_evidenceType input))]);
    mret (new_id, row)).

(** [list…EvidenceItems]. *)
Definition list_evidence (counterpartyId : uuid) (d : db) : list (uuid * evidence_item) :=
  order_by_desc (λ r, ei_recorded_at r.2)
    (select (λ _ x, bool_decide (ei_counterparty_id x = counterpartyId)) (evidence_items (ch_domain C) d)).

(** [decide…Gate]; a gate outside the enumeration has no entry in the table of
    roles, so the role is refused. *)
Definition role_refused (a : actor) (gate : string) : bool :=
  match ch_permitted C with Some roles => negb (includes (roles gate) (a_role a)) | None => false end.

Definition decide_gate (E : env) (a : actor) (new_id : uuid) (onboardingId : uuid) (gate : string)
    (decision : onboarding_decision) (rationale : string) : Act db (uuid * dedicated_decision) :=
  _ ← act_throw_if (role_refused a gate) (JsError (ch_role_error C));
  transaction (
    onboarding ← select_by_id counterparty_onboardings onboardingId;
    o ← require onboarding (JsError "counterparty onboarding lifecycle was not found");
    let row := mk_dedicated_decision onboardingId (ob_cycle_number o) gate decision rationale (a_openId a) (a_role a)
      (db_now E) in
    _ ← insert_row (dedicated_decisions (ch_domain C)) "gate_decisions" rules_dedicated_decisions new_id row;
    _ ← insert_activity E a (ch_gate_action C) (ch_gate_object C) (Some onboardingId)
      (JObj ((if ch_names_gate C then [("gate", JStr gate)] else []) ++
        [("decision", JStr (pg_text decision)); ("cycleNumber", JNum (ob_cycle_number o))])%list);
    mret (new_id, row)).

(** [list…GateDecisions]. *)
Definition list_decisions (onboardingId : uuid) (d : db) : list (uuid * dedicated_decision) :=
  order_by_desc (λ r, dd_decided_at r.2)
    (select (λ _ x, bool_decide (dd_onboarding_id x = onboardingId)) (dedicated_decisions (ch_domain C) d)).

(** The pool of counterparties with the size of their evidence packs. *)
Definition list_pool (d : db) : list (uuid * counterparty * nat) :=
  (λ r, (r.1, r.2, length (list_evidence r.1 d))) <$>
    order_by_desc (λ r, cp_created_at r.2)
      (select (λ _ c, includes (ch_counterparty_types C) (cp_counterparty_type c)) (counterparties d)).

(** The composite read behind a chapter's workspace. *)
Record workspace : Type := mk_workspace {
  ws_counterparty : counterparty;
  ws_evidence : list (uuid * evidence_item);
  ws_authorizations : list (uuid * counterparty_authorization);
  ws_onboarding : option (counterparty_onboarding * counterparty * list (uuid * gate_decision));
  ws_decisions : list (uuid * dedicated_decision);
  ws_activity : list activity_event
}.
(** [ORDER BY cpa.valid_to NULLS LAST, cpa.valid_from DESC]. *)
Definition authorization_leb (x y : uuid * counterparty_authorization) : bool :=
  match cpa_valid_to x.2, cpa_valid_to y.2 with
  | Some _, None => true
  | None, Some _ => false
  | Some s, Some t => (s <? t) || ((s =? t) && (cpa_valid_from y.2 <=? cpa_valid_from x.2))
  | None, None => cpa_valid_from y.2 <=? cpa_valid_from x.2
  end.
Definition authorization_le (x y : uuid * counterparty_authorization) : Prop := authorization_leb x y = true.
#[export] Instance authorization_le_dec x y : Decision (authorization_le x y).
Proof. unfold authorization_le. apply _. Defined.
Definition authorizations_of (counterpartyId : uuid) (d : db) : list (uuid * counterparty_authorization) :=
  merge_sort authorization_le
    (select (λ _ x, bool_decide (cpa_counterparty_id x = counterpartyId)) (counterparty_authorizations d)).
Definition onboarding_of (counterpartyId : uuid) (d : db) : option (uuid * counterparty_onboarding) :=
  head (order_by_desc (λ r, ob_updated_at r.2)
    (select (λ _ x, bool_decide (ob_counterparty_id x = counterpartyId)) (counterparty_onboardings d))).
Definition events_of (ids : list uuid) (d : db) : list activity_event :=
  order_by ev_occurred_at (List.filter (λ e, match ev_object_id e with Some i => includes ids i | None => false end)
    (activity_events d)).

Definition get_workspace (counterpartyId : uuid) (d : db) : option workspace :=
  c ← counterparties d !! counterpartyId;
  let onboarding := onboarding_of counterpartyId d in
  Some (mk_workspace c (list_evidence counterpartyId d) (authorizations_of counterpartyId d)
    (o ← onboarding; readOnboarding o.1 d)
    (match onboarding with Some o => list_decisions o.1 d | None => [] end)
    (events_of (counterpartyId :: match onboarding with Some o => [o.1] | None => [] end) d)).
End operations.

(** ** The five chapters *)

Module LiquidityProvider.
Definition ch : chapter := mk_chapter DomLp ["fx_liquidity_provider"] "lp_archetype"
  ["principal_market_maker"; "regional_liquidity_desk"; "stablecoin_fiat_conversion_desk"; "otc_counterparty"]
  "lp_evidence_type"
  ["mm_otc_licence"; "incountry_vasp_licence"; "beneficial_ownership_disclosure"; "sanctions_pep_attestation";
   "audited_financials"; "aml_cft_policy"; "travel_rule_policy"; "mlro_appointment_letter";
   "market_microstructure_policy"; "reference_list"; "insurance_certificate"; "regulatory_disciplinary_history"]
  ["financial_soundness"] None "" "counterparty.lp_archetype_updated" "counterparty.evidence_item_recorded"
  "counterparty.financial_soundness_gate_decided" "counterparty" false.
Definition updateCounterpartyLpArchetype := update_archetype ch.
Definition recordCounterpartyEvidenceItem := record_evidence ch.
Definition listCounterpartyEvidenceItems := list_evidence ch.
Definition decideFinancialSoundnessGate (E : env) (a : actor) (new_id onboardingId : uuid)
    (decision : onboarding_decision) (rationale : string) :=
  decide_gate ch E a new_id onboardingId "financial_soundness" decision rationale.
Definition listFinancialSoundnessDecisions := list_decisions ch.
Definition listLiquidityProviders := list_pool ch.
Definition getLiquidityProviderWorkspace := get_workspace ch.
End LiquidityProvider.

Module BankingPartner.
Definition ch : chapter := mk_chapter DomBank ["correspondent_bank"] "bank_archetype"
  ["correspondent_bank"; "receiving_bank"; "settlement_bank"; "custodian_bank"; "issuing_bank"]
  "bank_evidence_type"
  ["banking_licence"; "aml_cft_attestation"; "correspondent_agreement_template"; "nostro_account_confirmation";
   "sanctions_policy"; "travel_rule_readiness_attestation"; "swift_message_support_confirmation"; "fee_schedule";
   "audit_reports"; "regulator_no_objection_letter"; "cyber_bcm_evidence"; "settlement_cutoff_calendar"]
  ["crypto_posture"] None "" "counterparty.bank_archetype_updated" "counterparty.bank_evidence_item_recorded"
  "counterparty.crypto_posture_gate_decided" "counterparty_onboarding" false.
Definition updateCounterpartyBankArchetype := update_archetype ch.
Definition recordBankEvidenceItem := record_evidence ch.
Definition listBankEvidenceItems := list_evidence ch.
Definition decideCryptoPostureGate (E : env) (a : actor) (new_id onboardingId : uuid)
    (decision : onboarding_decision) (rationale : string) :=
  decide_gate ch E a new_id onboardingId "crypto_posture" decision rationale.
Definition listCryptoPostureDecisions := list_decisions ch.
Definition listBankingPartners := list_pool ch.
Definition getBankingPartnerWorkspace := get_workspace ch.
End BankingPartner.

(** A table of roles; a missing entry admits nobody. *)
Definition roles_of (t : list (string * list operating_role)) (gate : string) : list operating_role :=
  default [] (record_get t gate).

Module PayoutPsp.
Definition permittedGateRoles : list (string * list operating_role) :=
  [("licence_rail_coverage", [RoleComplianceOfficer; RoleAdmin]);
   ("settlement_cutoff_validation", [RoleTreasuryOperator; RoleAdmin]);
   ("bounded_live", [RoleComplianceOfficer; RoleAdmin]); ("failover_rail", [RoleAdmin])].
Definition ch : chapter := mk_chapter DomPsp ["licensed_psp"] "psp_archetype"
  ["bank_instant_rail"; "mobile_money"; "virtual_card_issuer"; "otc_cash_pickup"; "aggregator_psp"]
  "psp_evidence_type"
  ["psp_licence"; "mobile_money_authorisation"; "aggregator_licence"; "sanctions_pep_attestation"; "aml_cft_policy";
   "beneficial_ownership_disclosure"; "cutoff_settlement_calendar"; "fee_schedule_fx_margin";
   "reconciliation_file_format_spec"; "dispute_recall_channel_sla"; "audited_financials"; "cyber_bcp_attestation"]
  (permittedGateRoles.*1) (Some (roles_of permittedGateRoles)) "this role cannot decide the selected payout-PSP gate"
  "counterparty.psp_archetype_updated" "counterparty.psp_evidence_item_recorded" "counterparty.psp_gate_decided"
  "counterparty_onboarding" true.
Definition updateCounterpartyPspArchetype := update_archetype ch.
Definition recordPspEvidenceItem := record_evidence ch.
Definition listPspEvidenceItems := list_evidence ch.
Definition decidePspGate := decide_gate ch.
Definition listPspGateDecisions := list_decisions ch.
Definition listPayoutPsps := list_pool ch.
Definition getPayoutPspWorkspace := get_workspace ch.
End PayoutPsp.

Module StablecoinIssuer.
Definition permittedGateRoles : list (string * list operating_role) :=
  [("licence_reserve_posture", [RoleComplianceOfficer; RoleTreasuryOperator; RoleAdmin]);
   ("mint_redeem_technical_proof", [RoleTreasuryOperator; RoleAdmin]);
   ("chain_readiness", [RoleAdmin]); ("operating_posture", [RoleComplianceOfficer; RoleTreasuryOperator; RoleAdmin])].
Definition ch : chapter := mk_chapter DomIssuer ["stablecoin_provider"] "stablecoin_issuer_archetype"
  ["regulated_issuer"; "open_issuer"; "network"] "stablecoin_issuer_evidence_type"
  ["issuer_regulatory_licence"; "reserve_attestation"; "reserve_asset_composition"; "aml_cft_policy";
   "sanctions_ofac_attestation"; "blockchain_finality_posture"; "custody_provider_licence_insurance";
   "network_fee_schedule"; "principal_beneficial_ownership_kyb"; "audited_financials"; "smart_contract_audit"]
  (permittedGateRoles.*1) (Some (roles_of permittedGateRoles)) "this role cannot decide the selected stablecoin-issuer gate"
  "counterparty.stablecoin_issuer_archetype_updated" "counterparty.stablecoin_issuer_evidence_item_recorded"
  "counterparty.stablecoin_issuer_gate_decided" "counterparty_onboarding" true.
Definition updateCounterpartyStablecoinIssuerArchetype := update_archetype ch.
Definition recordStablecoinIssuerEvidenceItem := record_evidence ch.
Definition listStablecoinIssuerEvidenceItems := list_evidence ch.
Definition decideStablecoinIssuerGate := decide_gate ch.
Definition listStablecoinIssuerGateDecisions := list_decisions ch.
Definition listStablecoinIssuers := list_pool ch.
Definition getStablecoinIssuerWorkspace := get_workspace ch.
End StablecoinIssuer.

Module ComplianceVendor.
Definition vendorCounterpartyTypes : list string :=
  ["kyc_provider"; "sanctions_provider"; "chain_analytics_provider"; "travel_rule_provider"; "adverse_media_provider"].
Definition permittedGateRoles : list (string * list operating_role) :=
  [("security_posture", [RoleComplianceOfficer; RoleAdmin]); ("coverage_feasibility", [RoleComplianceOfficer; RoleAdmin]);
   ("false_positive_ceiling", [RoleComplianceOfficer; RoleAdmin]); ("annual_review", [RoleComplianceOfficer; RoleAdmin])].
Definition ch : chapter := mk_chapter DomVendor vendorCounterpartyTypes "compliance_vendor_archetype"
  ["kyc_kyb_platform"; "sanctions_screening"; "chain_analytics"; "travel_rule_vendor"; "adverse_media"]
  "compliance_vendor_evidence_type"
  ["soc2_or_iso27001_report"; "information_security_policy"; "privacy_policy_dpa_template"; "penetration_test_summary";
   "insurance_certificate"; "beneficial_ownership_disclosure"; "vendor_sanctions_compliance_posture";
   "list_data_sourcing_summary"; "sub_processor_list"; "sla_template_uptime_commitment"]
  (permittedGateRoles.*1) (Some (roles_of permittedGateRoles)) "this role cannot decide the selected compliance-vendor gate"
  "counterparty.compliance_vendor_archetype_updated" "counterparty.compliance_vendor_evidence_item_recorded"
  "counterparty.compliance_vendor_gate_decided" "counterparty_onboarding" true.
Definition updateCounterpartyComplianceVendorArchetype := update_archetype ch.
Definition recordComplianceVendorEvidenceItem := record_evidence ch.
Definition listComplianceVendorEvidenceItems := list_evidence ch.
Definition decideComplianceVendorGate := decide_gate ch.
Definition listComplianceVendorGateDecisions := list_decisions ch.
Definition listComplianceVendors := list_pool ch.
Definition getComplianceVendorWorkspace := get_workspace ch.
End ComplianceVendor.

Definition chapters : list chapter :=
  [LiquidityProvider.ch; BankingPartner.ch; PayoutPsp.ch; StablecoinIssuer.ch; ComplianceVendor.ch].
