(* ===== verification/EvidenceProps.v ===== *)
(** * What the evidence packs and dedicated gates guarantee *)

From S2P Require Import Prelude Js Numeric Sha256 Rows Schema Onboarding OnboardingProps EvidencePacks.

Local Open Scope string_scope.
Local Open Scope Z_scope.

(** ** The contract of the chapters *)

Definition permitted (C : chapter) (gate : string) (role : operating_role) : Prop :=
  match ch_permitted C with Some roles => role ∈ roles gate | None => True end.

(** The tables the shared lifecycle lives in. *)
Definition lifecycle_same (d d' : db) : Prop :=
  counterparty_onboardings d' = counterparty_onboardings d ∧ gate_decisions d' = gate_decisions d.

Inductive pack_step (C : chapter) (d d' : db) : Prop :=
  | pk_same : evidence_tables d' = evidence_tables d → decision_tables d' = decision_tables d →
      counterparties d' = counterparties d → pack_step C d d'
  | pk_archetype id c s : counterparties d !! id = Some c → s ∈ ch_archetypes C →
      counterparties d' = <[id := c <| cp_archetypes ::= <[ch_domain C := s]> |>]> (counterparties d) →
      evidence_tables d' = evidence_tables d → decision_tables d' = decision_tables d → pack_step C d d'
  | pk_evidence k x : evidence_items (ch_domain C) d !! k = None → ei_evidence_type x ∈ ch_evidence_types C →
      is_Some (counterparties d !! ei_counterparty_id x) →
      evidence_tables d' = <[ch_domain C := <[k := x]> (evidence_items (ch_domain C) d)]> (evidence_tables d) →
      decision_tables d' = decision_tables d → counterparties d' = counterparties d → pack_step C d d'
  | pk_decision k x r : dedicated_decisions (ch_domain C) d !! k = None → permitted C (dd_gate x) (dd_decided_role x) →
      counterparty_onboardings d !! dd_onboarding_id x = Some r → dd_cycle_number x = ob_cycle_number r →
      decision_tables d' = <[ch_domain C := <[k := x]> (dedicated_decisions (ch_domain C) d)]> (decision_tables d) →
      evidence_tables d' = evidence_tables d → counterparties d' = counterparties d → pack_step C d d'.

Definition pack_contract (C : chapter) (d d' : db) : Prop :=
  pack_step C d d' ∧ lifecycle_same d d' ∧ log_extends d d'.
#[export] Instance pack_contract_refl C : Reflexive (pack_contract C).
Proof. intros d. split; [by apply pk_same|done]. Qed.

Lemma update_archetype_refines C E a id s : act_respects (pack_contract C) (update_archetype C E a id s).
Proof.
  apply transaction_respects; [apply _|]. intros d x d' ?. db_inv.
  split; [|split; [done|by apply prefix_app_r]].
  match goal with H : includes _ _ = true |- _ => apply includes_true in H end.
  eapply pk_archetype; [eassumption|eassumption|simpl; by erewrite alter_as_insert by eassumption|done..].
Qed.

Lemma record_evidence_refines C E a k i : act_respects (pack_contract C) (record_evidence C E a k i).
Proof.
  apply transaction_respects; [apply _|]. intros d x d' ?. db_inv.
  split; [|split; [done|by apply prefix_app_r]].
  match goal with H : includes _ _ = true |- _ => apply includes_true in H end.
  eapply (pk_evidence _ _ _ k); [eassumption| | |reflexivity|done..]; simpl; [eassumption|by eexists].
Qed.

Lemma decide_gate_refines C E a k id g dec w : act_respects (pack_contract C) (decide_gate C E a k id g dec w).
Proof.
  unfold decide_gate. intros d. rewrite act_throw_if_bind. destruct (role_refused C a g) eqn:Hr; [reflexivity|].
  assert (permitted C g (a_role a)) as Hp.
  { unfold role_refused in Hr. unfold permitted. destruct (ch_permitted C); [|done].
    by apply negb_false_iff, includes_true in Hr. }
  revert d. apply (transaction_respects _). intros d x d' ?. db_inv.
  split; [|split; [done|by apply prefix_app_r]].
  eapply (pk_decision _ _ _ k); [eassumption| | | |reflexivity|done..]; simpl; [exact Hp|eassumption|done].
Qed.

(** ** The invariant *)

Definition evidence_ok (d : db) (C : chapter) : Prop :=
  ∀ k x, evidence_items (ch_domain C) d !! k = Some x →
    ei_evidence_type x ∈ ch_evidence_types C ∧ is_Some (counterparties d !! ei_counterparty_id x).
Definition decisions_ok (d : db) (C : chapter) : Prop :=
  ∀ k x, dedicated_decisions (ch_domain C) d !! k = Some x →
    permitted C (dd_gate x) (dd_decided_role x) ∧
    ∃ r, counterparty_onboardings d !! dd_onboarding_id x = Some r ∧ dd_cycle_number x <= ob_cycle_number r.
Definition archetypes_ok (d : db) (C : chapter) : Prop :=
  ∀ id c s, counterparties d !! id = Some c → cp_archetypes c !! ch_domain C = Some s → s ∈ ch_archetypes C.
Definition packs_ok (d : db) : Prop :=
  ∀ C, C ∈ chapters → evidence_ok d C ∧ decisions_ok d C ∧ archetypes_ok d C.

Lemma chapter_domains C1 C2 : C1 ∈ chapters → C2 ∈ chapters → ch_domain C1 = ch_domain C2 → C1 = C2.
Proof. intros H1 H2. unfold chapters in *. set_unfold. naive_solver. Qed.

Lemma evidence_items_insert D D' t d d' :
  evidence_tables d' = <[D := t]> (evidence_tables d) →
  evidence_items D' d' = if decide (D = D') then t else evidence_items D' d.
Proof.
  intros HT. unfold evidence_items. rewrite HT. destruct (decide (D = D')) as [<-|];
    [by rewrite lookup_insert_eq|by rewrite lookup_insert_ne].
Qed.
Lemma dedicated_decisions_insert D D' t d d' :
  decision_tables d' = <[D := t]> (decision_tables d) →
  dedicated_decisions D' d' = if decide (D = D') then t else dedicated_decisions D' d.
Proof.
  intros HT. unfold dedicated_decisions. rewrite HT. destruct (decide (D = D')) as [<-|];
    [by rewrite lookup_insert_eq|by rewrite lookup_insert_ne].
Qed.

(** The three parts depend on the tables only, and survive when counterparties
    and lifecycles persist. *)
Lemma packs_ok_frame d d' C :
  evidence_tables d' = evidence_tables d → decision_tables d' = decision_tables d →
  (∀ id, is_Some (counterparties d !! id) → is_Some (counterparties d' !! id)) → lifecycles_kept d d' →
  evidence_ok d C ∧ decisions_ok d C → evidence_ok d' C ∧ decisions_ok d' C.
Proof.
  intros HE HD Hc Hl [H1 H2]. unfold evidence_ok, decisions_ok, evidence_items, dedicated_decisions in *.
  rewrite HE, HD. split; intros k x Hx.
  - destruct (H1 k x Hx). split; [done|by apply Hc].
  - destruct (H2 k x Hx) as (Hp & r & Hr & Hle). split; [done|].
    destruct (Hl _ _ Hr) as (r' & Hr' & [_ Hcy _]). exists r'. split; [done|lia].
Qed.

Lemma pack_step_ok C d d' : C ∈ chapters → pack_step C d d' → lifecycle_same d d' → packs_ok d → packs_ok d'.
Proof.
  intros HC Hs [HO _] Hok C' HC'. destruct (Hok C' HC') as (H1 & H2 & H3).
  assert (lifecycles_kept d d') as Hk by (intros i r Hr; exists r; rewrite HO; by split).
  destruct Hs as [HE HD HP|id c s Hid Hs HP HE HD|k x Hk' Ht Hcp HE HD HP|k x r Hk' Hp Hr Hcy HD HE HP].
  - enough ((evidence_ok d' C' ∧ decisions_ok d' C') ∧ archetypes_ok d' C') by tauto. split; [eapply packs_ok_frame; eauto; by rewrite HP|]. unfold archetypes_ok. by rewrite HP.
  - enough ((evidence_ok d' C' ∧ decisions_ok d' C') ∧ archetypes_ok d' C') by tauto. split.
    + eapply packs_ok_frame; eauto. intros j Hj. rewrite HP, lookup_insert_is_Some. destruct (decide (id = j)); auto.
    + intros j y s' Hj Hy. rewrite HP in Hj. apply lookup_insert_Some in Hj as [[<- <-]|[_ Hj]]; [|by eapply H3].
      simpl in Hy. apply lookup_insert_Some in Hy as [[Hd <-]|[_ Hy]]; [|by eapply H3].
      by rewrite (chapter_domains C' C).
  - split_and!.
    + intros j y. rewrite (evidence_items_insert _ _ _ _ _ HE), HP. case_decide as Hd; [|by apply H1].
      apply chapter_domains in Hd as <-; [|done..].
      intros [[<- <-]|[_ Hj]]%lookup_insert_Some; [done|by eapply H1].
    + intros j y. unfold dedicated_decisions. rewrite HD, HO. apply H2.
    + unfold archetypes_ok. by rewrite HP.
  - split_and!.
    + intros j y. unfold evidence_items. rewrite HE, HP. apply H1.
    + intros j y. rewrite (dedicated_decisions_insert _ _ _ _ _ HD), HO. case_decide as Hd; [|by apply H2].
      apply chapter_domains in Hd as <-; [|done..].
      intros [[<- <-]|[_ Hj]]%lookup_insert_Some; [|by eapply H2]. split; [done|]. exists r. split; [done|lia].
    + unfold archetypes_ok. by rewrite HP.
Qed.

(** ** Runs *)

Inductive evidence_call (d : db) : db → Prop :=
  | ec_archetype C E a id s : C ∈ chapters → evidence_call d (update_archetype C E a id s d).2
  | ec_evidence C E a k i : C ∈ chapters → evidence_call d (record_evidence C E a k i d).2
  | ec_decide C E a k id g dec w : C ∈ chapters → evidence_call d (decide_gate C E a k id g dec w d).2
  | ec_elsewhere d' : evidence_tables d' = evidence_tables d → decision_tables d' = decision_tables d →
      counterparties d ⊆ counterparties d' →
      (∀ id c, counterparties d !! id = None → counterparties d' !! id = Some c → cp_archetypes c = ∅) →
      lifecycles_kept d d' → evidence_call d d'.

(** Rows of the packs and decisions are never altered or withdrawn. *)
Definition packs_kept (d d' : db) : Prop :=
  ∀ D, evidence_items D d ⊆ evidence_items D d' ∧ dedicated_decisions D d ⊆ dedicated_decisions D d'.
#[export] Instance packs_kept_preorder : PreOrder packs_kept.
Proof.
  split; [done|]. intros d1 d2 d3 H12 H23 D. destruct (H12 D), (H23 D). split; by etrans.
Qed.

Lemma pack_step_kept C d d' : pack_step C d d' → packs_kept d d'.
Proof.
  intros [HE HD _|id c s _ _ _ HE HD|k x Hk _ _ HE HD _|k x r Hk _ _ _ HD HE _] D.
  - unfold evidence_items, dedicated_decisions. by rewrite HE, HD.
  - unfold evidence_items, dedicated_decisions. by rewrite HE, HD.
  - rewrite (evidence_items_insert _ _ _ _ _ HE). unfold dedicated_decisions. rewrite HD. split; [|done].
    case_decide as Hd; [subst D; by apply insert_subseteq|done].
  - rewrite (dedicated_decisions_insert _ _ _ _ _ HD). unfold evidence_items. rewrite HE. split; [done|].
    case_decide as Hd; [subst D; by apply insert_subseteq|done].
Qed.

Lemma packs_elsewhere_ok d d' :
  evidence_tables d' = evidence_tables d → decision_tables d' = decision_tables d →
  counterparties d ⊆ counterparties d' →
  (∀ id c, counterparties d !! id = None → counterparties d' !! id = Some c → cp_archetypes c = ∅) →
  lifecycles_kept d d' → packs_ok d → packs_ok d'.
Proof.
  intros HE HD Hc Hn Hl Hok C HC. destruct (Hok C HC) as (H1 & H2 & H3).
  enough ((evidence_ok d' C ∧ decisions_ok d' C) ∧ archetypes_ok d' C) by tauto. split.
  - eapply packs_ok_frame; eauto. intros id [c Hid]. exists c. by eapply lookup_weaken.
  - intros id c s Hid Hs. destruct (counterparties d !! id) as [c'|] eqn:Hc'.
    + eapply H3; [exact Hc'|]. pose proof (lookup_weaken _ _ _ _ Hc' Hc). by simplify_eq.
    + rewrite (Hn id c Hc' Hid), lookup_empty in Hs. done.
Qed.

Lemma evidence_call_ok d d' : evidence_call d d' → (packs_ok d → packs_ok d') ∧ packs_kept d d'.
Proof.
  intros [C E a id s HC|C E a k i HC|C E a k id g dec w HC|d1 HE HD Hc Hn Hl].
  - destruct (update_archetype_refines C E a id s d) as (Hs & Hl & _).
    split; [by eapply pack_step_ok|by eapply pack_step_kept].
  - destruct (record_evidence_refines C E a k i d) as (Hs & Hl & _).
    split; [by eapply pack_step_ok|by eapply pack_step_kept].
  - destruct (decide_gate_refines C E a k id g dec w d) as (Hs & Hl & _).
    split; [by eapply pack_step_ok|by eapply pack_step_kept].
  - split; [by apply packs_elsewhere_ok|]. intros D. unfold evidence_items, dedicated_decisions. by rewrite HE, HD.
Qed.

Lemma evidence_run d d' : rtc evidence_call d d' → (packs_ok d → packs_ok d') ∧ packs_kept d d'.
Proof.
  induction 1 as [|d0 d1 d2 [H1 H2]%evidence_call_ok _ [IH1 IH2]]; [split; [done|reflexivity]|].
  split; [auto|by etrans].
Qed.

Lemma packs_empty_ok : packs_ok empty_db.
Proof.
  intros C _. split_and!.
  - intros k x. unfold evidence_items. simpl. rewrite lookup_empty. simpl. by rewrite lookup_empty.
  - intros k x. unfold dedicated_decisions. simpl. rewrite lookup_empty. simpl. by rewrite lookup_empty.
  - intros id c s. simpl. by rewrite lookup_empty.
Qed.

(** C18. Dedicated gates are decided by the roles that own them: in every
    reachable state, every decision of a payout-PSP, stablecoin-issuer or
    compliance-vendor gate was taken by a role the module permits for that gate,
    for an existing lifecycle and in a cycle that lifecycle has reached; every
    evidence item is of a type of its chapter's pack and belongs to an existing
    counterparty; every archetype is one of its chapter's; and along any further
    run neither decisions nor evidence are altered or withdrawn. *)
Theorem dedicated_gates_owned d d' C :
  rtc evidence_call empty_db d → rtc evidence_call d d' → C ∈ chapters →
  evidence_ok d C ∧ decisions_ok d C ∧ archetypes_ok d C ∧
  evidence_items (ch_domain C) d ⊆ evidence_items (ch_domain C) d' ∧
  dedicated_decisions (ch_domain C) d ⊆ dedicated_decisions (ch_domain C) d'.
Proof.
  intros [Hok _]%evidence_run [_ Hk]%evidence_run HC. destruct (Hok packs_empty_ok C HC) as (H1 & H2 & H3).
  destruct (Hk (ch_domain C)). by split_and!.
Qed.

(** ** A worked run: the counterparty of the onboarding example *)

Definition pk1 := (PayoutPsp.updateCounterpartyPspArchetype ob_env co 6 "mobile_money" ob5).2.
Definition pk2 := (PayoutPsp.recordPspEvidenceItem ob_env co 60
  (mk_evidence_input 6 "psp_licence" "https://evidence.example/psp" None) pk1).2.
Definition pk3 := (PayoutPsp.decidePspGate ob_env treasurer 61 30 "settlement_cutoff_validation" DecApproved
  "cut-off calendar checked" pk2).2.
(** A compliance officer may not decide the failover gate. *)
Example failover_needs_admin :
  (PayoutPsp.decidePspGate ob_env co 62 30 "failover_rail" DecApproved "tested" pk3).1 =
    Throw (JsError "this role cannot decide the selected payout-PSP gate").
Proof. vm_compute. reflexivity. Qed.

Lemma pk_run : rtc evidence_call empty_db pk3.
Proof.
  eapply rtc_r; [|apply (ec_decide _ PayoutPsp.ch); unfold chapters; set_solver].
  eapply rtc_r; [|apply (ec_evidence _ PayoutPsp.ch); unfold chapters; set_solver].
  eapply rtc_r; [|apply (ec_archetype _ PayoutPsp.ch); unfold chapters; set_solver].
  eapply rtc_once, ec_elsewhere; [vm_compute; reflexivity..|apply map_empty_subseteq| |].
  - intros id c _ Hc.
    assert (counterparties ob5 = {[6%positive := mk_counterparty "Bank" "correspondent_bank" "Nigeria" 0 ∅]}) as E1
      by (vm_compute; reflexivity).
    rewrite E1 in Hc. by apply lookup_singleton_Some in Hc as [_ <-].
  - intros id r Hr. simpl in Hr. by rewrite lookup_empty in Hr.
Qed.

(** Witness of [dedicated_gates_owned]. *)
Lemma dedicated_gates_owned_witness :
  dedicated_decisions DomPsp pk3 !! 61%positive ≠ None ∧ decisions_ok pk3 PayoutPsp.ch.
Proof.
  split; [vm_compute; discriminate|].
  refine (proj1 (proj2 (dedicated_gates_owned pk3 pk3 PayoutPsp.ch pk_run (rtc_refl _ _) _))).
  unfold chapters. set_solver.
Defined.
