(* ===== verification/Readiness.v ===== *)
(** * VASP readiness assurance

    src/apps/control-plane/server/vaspReadinessAssurance.ts: the six-item
    register of a dossier, its evidence, the independent verification of it, and
    the points it earns. *)

From S2P Require Import Prelude Js Numeric Rows Schema.

Local Open Scope string_scope.
Local Open Scope Z_scope.

Definition readinessAssuranceAreas : list assurance_area :=
  [AreaControlledLiveTest; AreaGovernanceLegalOwnership; AreaAmlCftCpfOperations; AreaCustomerAssetSafeguarding;
   AreaCybersecurityResilience; AreaConsumerIncidentReporting].

Record Blueprint : Type := mk_Blueprint {
  bp_maxPoints : Z;
  bp_accountableOwnerRole : string;
  bp_requiredEvidence : string
}.

Definition blueprint (area : assurance_area) : Blueprint :=
  match area with
  | AreaControlledLiveTest => mk_Blueprint 7 "product_and_risk_owner"
      "Approved controlled-test plan, deployed test environment evidence, bounded transaction/exposure limits, independent reconciliation and wind-down exercise evidence."
  | AreaGovernanceLegalOwnership => mk_Blueprint 8 "board_legal_company_secretary"
      "Applying legal-entity, beneficial-ownership, responsible-officer, policy approval, access review and governance-attestation evidence."
  | AreaAmlCftCpfOperations => mk_Blueprint 14 "mlro_compliance_owner"
      "Approved AML/CFT/CPF programme, risk assessment, screening/monitoring evidence, reviewer training, escalation and record-retention evidence."
  | AreaCustomerAssetSafeguarding => mk_Blueprint 13 "custody_treasury_owner"
      "Custody or wallet architecture, asset segregation, key-management, reconciliation, reserve/redemption and wind-down evidence appropriate to the approved product scope."
  | AreaCybersecurityResilience => mk_Blueprint 10 "ciso_platform_sre_owner"
      "MFA enrolment, secrets and certificate management, vulnerability remediation, penetration test, monitoring, backup/restore and disaster-recovery evidence."
  | AreaConsumerIncidentReporting => mk_Blueprint 6 "consumer_protection_cbn_liaison"
      "Consumer disclosure/complaint evidence, exercised incident workflow, authorised reporting channel receipt, notification and retention evidence."
  end.

(** [{ ...o, k: v }]: an existing key keeps its place and takes the new value. *)
Fixpoint object_put (o : list (string * json)) (k : string) (v : json) : list (string * json) :=
  match o with
  | [] => [(k, v)]
  | (k', v') :: o => if bool_decide (k = k') then (k, v) :: o else (k', v') :: object_put o k v
  end.
Definition object_spread (o extra : list (string * json)) : list (string * json) :=
  foldl (λ acc kv, object_put acc kv.1 kv.2) o extra.

Definition activity (E : env) (a : actor) (action : string) (objectId : uuid) (metadata : list (string * json)) :
    Tx db unit :=
  insert_activity E a action "vasp_readiness_assurance_item" (Some objectId)
    (JObj (object_spread metadata [("source", JStr "vasp-readiness-assurance"); ("externalApproval", JBool false);
                                   ("licence", JBool false)])).

Definition requireVaspDossier (dossierId : uuid) : Tx db unit :=
  row ← select_by_id cbn_sandbox_dossiers dossierId;
  dossier ← require row (JsError "CBN sandbox dossier does not exist");
  throw_if (negb (bool_decide (csd_track dossier = "vasp")))
    (JsError "readiness assurance items are available only for VASP dossiers").

(** The row of a dossier and an area; [UNIQUE (dossier_id, area)]. *)
Definition item_of (d : db) (dossierId : uuid) (area : assurance_area) : option (uuid * assurance_item) :=
  head (select (λ _ x, bool_decide (ra_dossier_id x = dossierId) && bool_decide (ra_area x = area))
    (assurance_items d)).

Definition open_item (E : env) (dossierId : uuid) (area : assurance_area) : assurance_item :=
  let b := blueprint area in
  mk_assurance_item dossierId area (bp_maxPoints b) (bp_requiredEvidence b) (bp_accountableOwnerRole b) RaOpen
    None None None None None None None None None None None (db_now E) (db_now E).

(** [INSERT … ON CONFLICT (dossier_id, area) DO NOTHING]. *)
Definition insert_item (E : env) (new_id : assurance_area → uuid) (dossierId : uuid) (area : assurance_area) :
    Tx db unit :=
  let row := open_item E dossierId area in
  _ ← enforce (checks rules_assurance_items row);
  existing ← gets (λ d, item_of d dossierId area);
  match existing with
  | Some _ => mret tt
  | None => insert_row assurance_items "vasp_readiness_assurance_items" rules_assurance_items (new_id area) row
  end.

Definition initialiseReadinessAssurance (E : env) (a : actor) (new_id : assurance_area → uuid) (dossierId : uuid) :
    Act db unit :=
  transaction (
    _ ← requireVaspDossier dossierId;
    _ ← for_each (insert_item E new_id dossierId) readinessAssuranceAreas;
    activity E a "vasp_readiness_assurance.initialised" dossierId
      [("areas", JArr ((λ r, JStr (pg_text r)) <$> readinessAssuranceAreas)); ("totalExternalPoints", JNum 58)]).

(** [ORDER BY area]: the order of the enumeration. *)
Definition area_rank (r : assurance_area) : Z :=
  match r with
  | AreaControlledLiveTest => 0 | AreaGovernanceLegalOwnership => 1 | AreaAmlCftCpfOperations => 2
  | AreaCustomerAssetSafeguarding => 3 | AreaCybersecurityResilience => 4 | AreaConsumerIncidentReporting => 5
  end.
Definition listReadinessAssurance (dossierId : uuid) (d : db) : list (uuid * assurance_item) :=
  order_by (λ r, area_rank (ra_area r.2))
    (select (λ _ x, bool_decide (ra_dossier_id x = dossierId)) (assurance_items d)).

Definition with_evidence (E : env) (a : actor) (uri sha : string) (r : assurance_item) : assurance_item :=
  r <| ra_status := RaEvidenceRecorded |> <| ra_evidence_uri := Some uri |> <| ra_evidence_sha256 := Some sha |>
    <| ra_evidence_recorded_by := Some (a_openId a) |> <| ra_evidence_recorded_at := Some (db_now E) |>
    <| ra_external_verifier := None |> <| ra_external_attestation_uri := None |>
    <| ra_external_attestation_sha256 := None |> <| ra_verified_by := None |> <| ra_verified_at := None |>
    <| ra_verification_rationale := None |> <| ra_rejection_rationale := None |> <| ra_updated_at := db_now E |>.

Definition in_status (ss : list assurance_status) (o : option (uuid * assurance_item)) : option (uuid * assurance_item) :=
  r ← o; if includes ss (ra_status r.2) then Some r else None.

Definition recordReadinessAssuranceEvidence (E : env) (a : actor) (dossierId : uuid) (area : assurance_area)
    (evidenceUri evidenceSha256 : string) : Act db uuid :=
  transaction (
    _ ← requireVaspDossier dossierId;
    hit ← gets (λ d, in_status [RaOpen; RaRejected] (item_of d dossierId area));
    item ← require hit
      (JsError "initialise the readiness assurance register first, or replace only an open/rejected item");
    _ ← update_checked assurance_items rules_assurance_items item.1 (with_evidence E a evidenceUri evidenceSha256);
    _ ← activity E a "vasp_readiness_assurance.evidence_recorded" item.1
      [("dossierId", JUuid dossierId); ("area", JStr (pg_text area)); ("evidenceSha256", JStr evidenceSha256);
       ("externallyVerified", JBool false)];
    mret item.1).

Record verify_input : Type := mk_verify_input {
  vi_dossierId : uuid;
  vi_area : assurance_area;
  vi_externalVerifier : string;
  vi_externalAttestationUri : string;
  vi_externalAttestationSha256 : string;
  vi_rationale : string
}.

Definition verified (E : env) (a : actor) (i : verify_input) (r : assurance_item) : assurance_item :=
  r <| ra_status := RaExternallyVerified |> <| ra_external_verifier := Some (vi_externalVerifier i) |>
    <| ra_external_attestation_uri := Some (vi_externalAttestationUri i) |>
    <| ra_external_attestation_sha256 := Some (vi_externalAttestationSha256 i) |>
    <| ra_verified_by := Some (a_openId a) |> <| ra_verified_at := Some (db_now E) |>
    <| ra_verification_rationale := Some (vi_rationale i) |> <| ra_rejection_rationale := None |>
    <| ra_updated_at := db_now E |>.

Definition verifyReadinessAssuranceEvidence (E : env) (a : actor) (input : verify_input) : Act db uuid :=
  transaction (
    hit ← gets (λ d, in_status [RaEvidenceRecorded] (item_of d (vi_dossierId input) (vi_area input)));
    item ← require hit (JsError "record evidence before independent verification");
    _ ← throw_if (negb (truthy_opt (ra_evidence_recorded_by item.2)))
      (JsError "record evidence before independent verification");
    _ ← throw_if (bool_decide (ra_evidence_recorded_by item.2 = Some (a_openId a)))
      (JsError "the evidence submitter cannot independently verify the same readiness item");
    _ ← update_checked assurance_items rules_assurance_items item.1 (verified E a input);
    _ ← activity E a "vasp_readiness_assurance.externally_verified" item.1
      [("dossierId", JUuid (vi_dossierId input)); ("area", JStr (pg_text (vi_area input)));
       ("externalVerifier", JStr (vi_externalVerifier input));
       ("attestationSha256", JStr (vi_externalAttestationSha256 input)); ("regulatorApproval", JBool false);
       ("licence", JBool false)];
    mret item.1).

Definition rejected (E : env) (rationale : string) (r : assurance_item) : assurance_item :=
  r <| ra_status := RaRejected |> <| ra_rejection_rationale := Some rationale |> <| ra_updated_at := db_now E |>.

Definition rejectReadinessAssuranceEvidence (E : env) (a : actor) (dossierId : uuid) (area : assurance_area)
    (rationale : string) : Act db uuid :=
  transaction (
    hit ← gets (λ d, in_status [RaEvidenceRecorded] (item_of d dossierId area));
    item ← require hit (JsError "only recorded evidence can be rejected");
    _ ← update_checked assurance_items rules_assurance_items item.1 (rejected E rationale);
    _ ← activity E a "vasp_readiness_assurance.rejected" item.1
      [("dossierId", JUuid dossierId); ("area", JStr (pg_text area)); ("externalApproval", JBool false)];
    mret item.1).

Record assessment : Type := mk_assessment {
  as_items : list (uuid * assurance_item);
  as_verifiedPoints : Z;
  as_remainingPoints : Z;
  as_totalPoints : Z
}.

Definition points (l : list (uuid * assurance_item)) : Z :=
  foldr (λ r n, ra_max_points r.2 + n) 0 l.

Definition assessReadinessAssurance (dossierId : uuid) (d : db) : assessment :=
  let items := listReadinessAssurance dossierId d in
  let verifiedPoints := points (List.filter (λ r, bool_decide (ra_status r.2 = RaExternallyVerified)) items) in
  let totalPoints := points items in
  mk_assessment items verifiedPoints (totalPoints - verifiedPoints) totalPoints.
