(* ===== verification/SodMonitor.v ===== *)
(** * The segregation-of-duties monitor

    src/apps/control-plane/server/segregationOfDutiesMonitor.ts and the path
    check of segregationOfDutiesAuditLog.ts. The collation behind
    [localeCompare], the answers of the connection pool to the attempts at the
    advisory lock, the webhook and the messages of database errors are
    arguments; the lines appended to the audit file are not kept. *)

From S2P Require Import Prelude Js Numeric Sha256 Rows Schema OperationalAlerts ComplianceAlerts.

Local Open Scope string_scope.
Local Open Scope Z_scope.

(** ** Configuration *)

Definition MIN_INTERVAL_SECONDS : Z := 60.
Definition MAX_INTERVAL_SECONDS : Z := 3600.
Definition DEFAULT_LOCK_RETRY_ATTEMPTS : Z := 3.
Definition MAX_LOCK_RETRY_ATTEMPTS : Z := 5.
Definition DEFAULT_LOCK_RETRY_BACKOFF_MS : Z := 250.
Definition MAX_LOCK_RETRY_BACKOFF_MS : Z := 5000.
Definition QUERY_VERSION : string := "sod-readiness-v1".

Definition strictEnabled (value : option string) : res bool :=
  match value with
  | None | Some "" | Some "false" => Ok false
  | Some "true" => Ok true
  | Some _ => Throw (JsError "UMOJA_SOD_MONITOR_ENABLED must be true or false")
  end.

(** [Number(value)] of a text of digits. *)
Fixpoint digits_value (acc : Z) (s : string) : Z :=
  match s with
  | EmptyString => acc
  | String c r => digits_value (10 * acc + (Z.of_nat (nat_of_ascii c) - 48)) r
  end.
Definition MAX_SAFE_INTEGER : Z := 2 ^ 53 - 1.

(** The shape of the three integer settings: a default, digits only, bounds. *)
Definition configured_integer (name bounds : string) (default low high : Z) (value : option string) : res Z :=
  match value with
  | None | Some "" => Ok default
  | Some v =>
      if negb (truthy v && all_chars is_digit v) then Throw (JsError (name +:+ " must be an integer"))
      else
        let n := digits_value 0 v in
        if (MAX_SAFE_INTEGER <? n) || (n <? low) || (high <? n)
        then Throw (JsError (name +:+ " must be between " +:+ bounds)) else Ok n
  end.

Definition configuredInterval : option string → res Z :=
  configured_integer "UMOJA_SOD_MONITOR_INTERVAL_SECONDS" "60 and 3600" 300 MIN_INTERVAL_SECONDS MAX_INTERVAL_SECONDS.
Definition configuredLockRetryAttempts : option string → res Z :=
  configured_integer "UMOJA_SOD_LOCK_RETRY_ATTEMPTS" "1 and 5" DEFAULT_LOCK_RETRY_ATTEMPTS 1 MAX_LOCK_RETRY_ATTEMPTS.
Definition configuredLockRetryBackoff : option string → res Z :=
  configured_integer "UMOJA_SOD_LOCK_RETRY_BACKOFF_MS" "0 and 5000" DEFAULT_LOCK_RETRY_BACKOFF_MS 0 MAX_LOCK_RETRY_BACKOFF_MS.

Definition configuredSubject (value : option string) : res string :=
  let subject := trim (default "" value) in
  if negb (truthy subject) || (js_length subject <? 3) || (255 <? js_length subject)
  then Throw (JsError "UMOJA_SOD_MONITOR_SUBJECT must be a non-empty internal service subject")
  else Ok subject.

(** [configuredPath] of the audit log; [isAbsolute] on POSIX. *)
Definition configuredPath (value : option string) : res (option string) :=
  let v := trim (default "" value) in
  if negb (truthy v) then Ok None
  else if negb (startsWith v "/") then Throw (JsError "UMOJA_SOD_AUDIT_LOG_PATH must be an absolute path")
  else Ok (Some v).

(** ** The advisory lock *)

(** What one attempt can meet: the lock, a held lock, or a database error with
    its code. *)
Inductive lock_attempt : Type :=
  | LockAcquired
  | LockHeld
  | LockError (code message : string).

Definition retryableDatabaseError (code : string) : bool :=
  includes ["08000"; "08001"; "08003"; "08004"; "08006"; "08007"; "08P01"; "57P01"; "57P02"; "57P03"] code.

(** The loop from [attempt] on, with [left] attempts to go; the delays it
    waits are returned beside the outcome. *)
Fixpoint acquire_from (pool : nat → lock_attempt) (backoff : Z) (attempt left : nat) : res bool * list Z :=
  match left with
  | O => (Throw (JsError "advisory lock acquisition failed"), [])
  | S left' =>
      match pool attempt with
      | LockAcquired => (Ok true, [])
      | LockHeld => (Ok false, [])
      | LockError code message =>
          if negb (retryableDatabaseError code) || (left' =? 0)%nat then (Throw (JsError message), [])
          else
            let '(r, ds) := acquire_from pool backoff (S attempt) left' in
            (r, Z.min (backoff * 2 ^ (Z.of_nat attempt - 1)) MAX_LOCK_RETRY_BACKOFF_MS :: ds)
      end
  end.

Definition acquireLeader (pool : nat → lock_attempt) (attempts_var backoff_var : option string) : res bool * list Z :=
  match configuredLockRetryAttempts attempts_var with
  | Throw e => (Throw e, [])
  | Ok attempts =>
      match configuredLockRetryBackoff backoff_var with
      | Throw e => (Throw e, [])
      | Ok backoff => acquire_from pool backoff 1 (Z.to_nat attempts)
      end
  end.

(** ** Violations *)

Record Violation : Type := mk_Violation {
  v_dossierId : uuid;
  v_itemId : uuid;
  v_area : string;
  v_code : string;
  v_evidenceRecordedBy : option string;
  v_verifiedBy : option string
}.

(** SQL equality of nullable texts: [NULL] is equal to nothing. *)
Definition sql_eq (x y : option string) : bool :=
  match x, y with Some s, Some t => bool_decide (s = t) | _, _ => false end.

Definition self_verified (x : assurance_item) : bool :=
  bool_decide (ra_status x = RaExternallyVerified) && sql_eq (ra_verified_by x) (ra_evidence_recorded_by x).

Definition invalid_state (x : assurance_item) : bool :=
  match ra_status x with
  | RaOpen => is_some (ra_evidence_uri x) || is_some (ra_evidence_sha256 x) || is_some (ra_evidence_recorded_by x) ||
      is_some (ra_external_verifier x) || is_some (ra_verified_by x) || is_some (ra_rejection_rationale x)
  | RaEvidenceRecorded => is_none (ra_evidence_uri x) || is_none (ra_evidence_sha256 x) ||
      is_none (ra_evidence_recorded_by x) || is_some (ra_external_verifier x) || is_some (ra_verified_by x) ||
      is_some (ra_rejection_rationale x)
  | RaExternallyVerified => is_none (ra_evidence_uri x) || is_none (ra_evidence_sha256 x) ||
      is_none (ra_evidence_recorded_by x) || is_none (ra_external_verifier x) ||
      is_none (ra_external_attestation_uri x) || is_none (ra_external_attestation_sha256 x) ||
      is_none (ra_verified_by x) || is_none (ra_verification_rationale x) || is_some (ra_rejection_rationale x) ||
      sql_eq (ra_verified_by x) (ra_evidence_recorded_by x)
  | RaRejected => is_none (ra_evidence_uri x) || is_none (ra_evidence_sha256 x) ||
      is_none (ra_evidence_recorded_by x) || is_none (ra_rejection_rationale x)
  end.

Definition item_violation (code : string) (r : uuid * assurance_item) : Violation :=
  mk_Violation (ra_dossier_id r.2) r.1 (pg_text (ra_area r.2)) code (ra_evidence_recorded_by r.2) (ra_verified_by r.2).

(** The groups of [GROUP BY dossier_id]. *)
Definition dossiers_of (t : gmap uuid assurance_item) : list uuid :=
  remove_dups ((λ r, ra_dossier_id r.2) <$> map_to_list t).
Definition group (t : gmap uuid assurance_item) (dossier : uuid) : list (uuid * assurance_item) :=
  select (λ _ x, bool_decide (ra_dossier_id x = dossier)) t.
(** [count( * ) <> 6 OR count(DISTINCT area) <> 6 OR sum(max_points) <> 58]. *)
Definition invalid_total (l : list (uuid * assurance_item)) : bool :=
  negb (length l =? 6)%nat || negb (length (remove_dups ((λ r, ra_area r.2) <$> l)) =? 6)%nat ||
  negb (foldr (λ r n, ra_max_points r.2 + n) 0 l =? 58).
(** [min(id::text)]: the text of a UUID orders as its number. *)
Definition min_id (l : list (uuid * assurance_item)) : uuid :=
  match l with [] => 1%positive | r :: l => foldr (λ x m, Pos.min x.1 m) r.1 l end.
Definition total_violations (t : gmap uuid assurance_item) : list Violation :=
  omap (λ dossier, let l := group t dossier in
    if invalid_total l
    then Some (mk_Violation dossier (min_id l) "dossier_total" "invalid_dossier_total" None None) else None)
    (dossiers_of t).

Definition queryViolations (d : db) : list Violation :=
  (item_violation "self_verification" <$> select (λ _ x, self_verified x) (assurance_items d)) ++
  (item_violation "invalid_state" <$> select (λ _ x, invalid_state x) (assurance_items d)) ++
  total_violations (assurance_items d).

(** ** The digest *)

(** [JSON.stringify] of a string. *)
Definition json_escape (c : ascii) : string :=
  let n := nat_of_ascii c in
  let b := String "\" "" in
  if bool_decide (n = 34)%nat then b +:+ String (ascii_of_nat 34) ""
  else if bool_decide (n = 92)%nat then b +:+ b
  else if bool_decide (n = 8)%nat then b +:+ "b" else if bool_decide (n = 9)%nat then b +:+ "t"
  else if bool_decide (n = 10)%nat then b +:+ "n" else if bool_decide (n = 12)%nat then b +:+ "f"
  else if bool_decide (n = 13)%nat then b +:+ "r"
  else if (n <? 32)%nat then b +:+ "u" +:+ hex_digits 4 (Z.of_nat n) ""
  else String c "".
Fixpoint json_escapes (s : string) : string :=
  match s with EmptyString => "" | String c r => json_escape c +:+ json_escapes r end.
Definition quote : string := String (ascii_of_nat 34) "".
Definition json_string (s : string) : string := quote +:+ json_escapes s +:+ quote.
Definition json_nullable (o : option string) : string :=
  match o with Some s => json_string s | None => "null" end.
Fixpoint join (sep : string) (l : list string) : string :=
  match l with [] => "" | [x] => x | x :: l => x +:+ sep +:+ join sep l end.

(** The canonical object of a violation as [JSON.stringify] prints it. *)
Definition canonical_text (v : Violation) : string :=
  "{" +:+ join "," ((λ kv : string * string, json_string kv.1 +:+ ":" +:+ kv.2) <$>
    [("area", json_string (v_area v)); ("code", json_string (v_code v));
     ("dossierId", json_string (uuid_text (v_dossierId v)));
     ("evidenceRecordedBy", json_nullable (v_evidenceRecordedBy v));
     ("itemId", json_string (uuid_text (v_itemId v))); ("verifiedBy", json_nullable (v_verifiedBy v))]) +:+ "}".

Section monitor.
Context (localeCompare : string → string → Z).

Definition collates (x y : string) : Prop := localeCompare x y <= 0.
#[local] Instance collates_dec x y : Decision (collates x y).
Proof. unfold collates. apply _. Defined.

Definition canonicalDigest (violations : list Violation) : string :=
  sha256 ("[" +:+ join "," (merge_sort collates (canonical_text <$> violations)) +:+ "]").

(** ** Recording an evaluation *)

Definition exception_digest (state : sod_state) (violations : list Violation) : option string :=
  match violations with
  | [] => if bool_decide (state = SodClean) then Some (canonicalDigest []) else None
  | _ => Some (canonicalDigest violations)
  end.

Definition recordEvaluation (E : env) (a : actor) (new_id correlationId : uuid) (state : sod_state)
    (violations : list Violation) (errorSummary : option string) : Act db (uuid * option string) :=
  let digest := exception_digest state violations in
  let count := Z.of_nat (length violations) in
  transaction (
    _ ← insert_row sod_evaluation_runs "segregation_of_duties_evaluation_runs" rules_sod_evaluation_runs new_id
      (mk_sod_evaluation_run correlationId (a_openId a) (a_role a) QUERY_VERSION state count digest errorSummary
        (db_now E));
    _ ← insert_correlated_activity E a ("segregation_of_duties." +:+ pg_text state) "segregation_of_duties_evaluation"
      None correlationId
      (JObj [("queryVersion", JStr QUERY_VERSION); ("exceptionCount", JNum count);
             ("exceptionDigest", JOpt JStr digest); ("errorSummary", JOpt JStr errorSummary)]);
    mret (correlationId, digest)).

(** ** Raising and delivering *)

(** [alert_type = 'segregation_of_duties' AND enabled ORDER BY created_at DESC LIMIT 1]. *)
Definition sod_policy (d : db) : option uuid :=
  fst <$> head (order_by_desc (λ r, ap_created_at r.2)
    (select (λ _ p, bool_decide (ap_alert_type p = AltSegregationOfDuties) && ap_enabled p) (alert_policies d))).

Definition violation_json (v : Violation) : json :=
  JObj [("dossierId", JUuid (v_dossierId v)); ("itemId", JUuid (v_itemId v)); ("area", JStr (v_area v));
        ("code", JStr (v_code v)); ("evidenceRecordedBy", JOpt JStr (v_evidenceRecordedBy v));
        ("verifiedBy", JOpt JStr (v_verifiedBy v))].

Definition sod_alert (E : env) (policyId correlationId : uuid) (digest : string) (violations : list Violation) :
    compliance_alert :=
  mk_compliance_alert policyId AltSegregationOfDuties None SevCritical AlertOpen ("sod:" +:+ digest)
    (JObj [("correlationId", JUuid correlationId); ("exceptionDigest", JStr digest);
           ("exceptionCount", JNum (Z.of_nat (length violations))); ("violations", JArr (violation_json <$> violations))])
    (db_now E) None None None None None None None None None None None None None None None (db_now E).

(** The first transaction; the policy when the alert is new. *)
Definition raise_exception_alert (E : env) (a : actor) (alert_id correlationId : uuid) (digest : string)
    (violations : list Violation) : Tx db (option uuid) :=
  policy ← gets sod_policy;
  match policy with
  | None => mret None
  | Some policyId =>
      let row := sod_alert E policyId correlationId digest violations in
      _ ← enforce (checks rules_compliance_alerts row);
      existing ← gets (λ d, find_alert d policyId ("sod:" +:+ digest));
      match existing with
      | Some _ => mret None
      | None =>
          _ ← insert_row compliance_alerts "compliance_alerts" rules_compliance_alerts alert_id row;
          _ ← insert_correlated_activity E a "compliance_alert.raised" "compliance_alert" (Some alert_id) correlationId
            (JObj [("alertType", JStr "segregation_of_duties"); ("exceptionDigest", JStr digest);
                   ("exceptionCount", JNum (Z.of_nat (length violations)))]);
          mret (Some policyId)
      end
  end.

Definition sod_title : string := "UmojaFlowOS segregation-of-duties exception".
Definition sod_content (correlationId : uuid) (digest : string) (violations : list Violation) : string :=
  "Detected " +:+ pretty (Z.of_nat (length violations)) +:+
  " readiness-assurance segregation/state exception(s). Correlation: " +:+ uuid_text correlationId +:+
  ". Evidence digest: " +:+ digest +:+
  ". Review the protected alert ledger; no readiness state, provider, or payment action was taken.".

Context (webhook : string → string → bool) (audit_log_path : option string).

(** [appendSegregationOfDutiesAuditLog]: its only effect on the control flow. *)
Definition appendSegregationOfDutiesAuditLog : Act db unit :=
  λ d, match configuredPath audit_log_path with Ok _ => (Ok tt, d) | Throw e => (Throw e, d) end.

Definition deliver_exception_alert (E : env) (a : actor) (policyId correlationId : uuid) (digest : string)
    (delivered : bool) (evidenceHash : string) : Tx db unit :=
  _ ← insert_delivery (mk_notification_delivery (Some policyId) AltSegregationOfDuties
    (if delivered then "accepted" else "unavailable") "project_owner" correlationId evidenceHash (db_now E));
  insert_correlated_activity E a "segregation_of_duties.notification_attempted" "alert_delivery" None correlationId
    (JObj [("delivered", JBool delivered); ("payloadHash", JStr evidenceHash); ("exceptionDigest", JStr digest)]).

Definition raiseAndDeliverExceptionAlert (E : env) (a : actor) (alert_id correlationId : uuid) (digest : string)
    (violations : list Violation) : Act db unit :=
  created ← transaction (raise_exception_alert E a alert_id correlationId digest violations);
  match created with
  | None => mret tt
  | Some policyId =>
      let content := sod_content correlationId digest violations in
      delivered ← transaction (notifyOwner webhook sod_title content);
      _ ← transaction (deliver_exception_alert E a policyId correlationId digest delivered
        (payload_hash sod_title content));
      appendSegregationOfDutiesAuditLog
  end.

(** ** A round *)

Inductive monitor_status : Type :=
  | StatusClean | StatusExceptionsDetected | StatusLeaderUnavailable | StatusIndeterminate.

Record SoDMonitorResult : Type := mk_SoDMonitorResult {
  mr_status : monitor_status;
  mr_exceptionCount : Z;
  mr_correlationId : option uuid;
  mr_reason : option string
}.

Context (pg_message : pg_violation → string).
Definition error_message (e : error) : string :=
  match e with JsError m => m | PgError v => pg_message v end.

(** The identifiers drawn in a round. *)
Record round_ids : Type := mk_round_ids {
  ri_run : uuid;
  ri_correlation : uuid;
  ri_alert : uuid;
  ri_failed_run : uuid;
  ri_failed_correlation : uuid
}.

(** The [try] block after the leader is known. *)
Definition evaluate_round (E : env) (a : actor) (ids : round_ids) : Act db SoDMonitorResult :=
  λ d,
  let violations := queryViolations d in
  let state := match violations with [] => SodClean | _ => SodExceptionsDetected end in
  let count := Z.of_nat (length violations) in
  (recorded ← recordEvaluation E a (ri_run ids) (ri_correlation ids) state violations None;
   _ ← match violations, recorded.2 with
       | _ :: _, Some digest => raiseAndDeliverExceptionAlert E a (ri_alert ids) recorded.1 digest violations
       | _, _ => mret tt
       end;
   _ ← appendSegregationOfDutiesAuditLog;
   mret (mk_SoDMonitorResult (match violations with [] => StatusClean | _ => StatusExceptionsDetected end) count
     (Some recorded.1) None)) d.

(** The [catch] block. *)
Definition record_failure (E : env) (a : actor) (ids : round_ids) (e : error) : Act db SoDMonitorResult :=
  λ d,
  let reason := error_message e in
  match (recorded ← recordEvaluation E a (ri_failed_run ids) (ri_failed_correlation ids) SodIndeterminate []
           (Some (String.substring 0 4000 reason));
         _ ← appendSegregationOfDutiesAuditLog;
         mret recorded.1) d with
  | (Ok correlationId, d') =>
      (Ok (mk_SoDMonitorResult StatusIndeterminate 0 (Some correlationId) (Some reason)), d')
  | (Throw _, d') => (Ok (mk_SoDMonitorResult StatusIndeterminate 0 None (Some reason)), d')
  end.

Record monitor_config : Type := mk_monitor_config {
  mc_subject : option string;
  mc_attempts : option string;
  mc_backoff : option string
}.

Definition runSegregationOfDutiesMonitorRound (E : env) (cfg : monitor_config) (pool : nat → lock_attempt)
    (ids : round_ids) : Act db SoDMonitorResult :=
  λ d,
  match configuredSubject (mc_subject cfg) with
  | Throw e => (Throw e, d)
  | Ok subject =>
      let a := mk_actor subject RoleSystemMonitor in
      match (acquireLeader pool (mc_attempts cfg) (mc_backoff cfg)).1 with
      | Ok false => (Ok (mk_SoDMonitorResult StatusLeaderUnavailable 0 None None), d)
      | Throw e => record_failure E a ids e d
      | Ok true =>
          match evaluate_round E a ids d with
          | (Ok r, d') => (Ok r, d')
          | (Throw e, d') => record_failure E a ids e d'
          end
      end
  end.
End monitor.
