(* ===== verification/ReadinessProps.v ===== *)
(** * What the readiness register and its monitor guarantee *)

From S2P Require Import Prelude Js Numeric Sha256 Rows Schema OperationalAlerts ComplianceAlerts Readiness SodMonitor.

Local Open Scope string_scope.
Local Open Scope Z_scope.

Record item_ok (x : assurance_item) : Prop := {
  it_points : ra_max_points x = bp_maxPoints (blueprint (ra_area x));
  it_complete : assurance_complete x = true
}.

Record readiness_ok (d : db) : Prop := {
  rk_item k x : assurance_items d !! k = Some x → item_ok x;
  rk_once i j x y : assurance_items d !! i = Some x → assurance_items d !! j = Some y →
    ra_dossier_id x = ra_dossier_id y → ra_area x = ra_area y → i = j;
  rk_full k x area : assurance_items d !! k = Some x →
    ∃ j y, assurance_items d !! j = Some y ∧ ra_dossier_id y = ra_dossier_id x ∧ ra_area y = area
}.

Lemma item_of_Some d dossier area k x :
  item_of d dossier area = Some (k, x) →
  assurance_items d !! k = Some x ∧ ra_dossier_id x = dossier ∧ ra_area x = area.
Proof.
  unfold item_of. intros Hh. assert ((k, x) ∈ select (λ _ x, bool_decide (ra_dossier_id x = dossier) &&
    bool_decide (ra_area x = area)) (assurance_items d)) as Hin.
  { destruct (select _ _); simplify_eq/=. left. }
  apply elem_of_select in Hin as [? Hp]. by unbool.
Qed.
Lemma item_of_None d dossier area k x :
  item_of d dossier area = None → assurance_items d !! k = Some x →
  ra_dossier_id x = dossier → ra_area x = area → False.
Proof.
  unfold item_of. intros Hh Hx H1 H2. destruct (select _ _) as [|p l] eqn:Hs; [|done].
  apply (not_elem_of_nil (k, x)). rewrite <-Hs. apply elem_of_select. by rewrite !bool_decide_eq_true_2.
Qed.

(** ** Moves of one item *)

Definition item_move (x y : assurance_item) : Prop :=
  ra_dossier_id y = ra_dossier_id x ∧ ra_area y = ra_area x ∧ ra_max_points y = ra_max_points x ∧
  assurance_complete y = true.

Inductive readiness_step (d d' : db) : Prop :=
  | rs_same : assurance_items d' = assurance_items d → readiness_step d d'
  | rs_initialised E new_id dossier :
      assurance_items d ⊆ assurance_items d' →
      (∀ k x, assurance_items d !! k = None → assurance_items d' !! k = Some x →
        ∃ area, k = new_id area ∧ x = open_item E dossier area ∧ item_of d dossier area = None) →
      (∀ area, ∃ k y, assurance_items d' !! k = Some y ∧ ra_dossier_id y = dossier ∧ ra_area y = area) →
      readiness_step d d'
  | rs_moved k x y : assurance_items d !! k = Some x → item_move x y →
      assurance_items d' = <[k := y]> (assurance_items d) → readiness_step d d'.

Definition readiness_contract (d d' : db) : Prop := readiness_step d d' ∧ log_extends d d'.
#[export] Instance readiness_contract_refl : Reflexive readiness_contract.
Proof. intros d. split; [by apply rs_same|reflexivity]. Qed.

Lemma open_item_ok E dossier area : item_ok (open_item E dossier area).
Proof. by destruct area. Qed.

Lemma readiness_step_ok d d' : readiness_step d d' → readiness_ok d → readiness_ok d'.
Proof.
  intros [HT|E new_id dossier Hsub Hnew Hfull|k x y Hk (M1 & M2 & M3 & M4) HT] [H1 H2 H3].
  - split; rewrite HT; eauto.
  - assert (∀ k x, assurance_items d' !! k = Some x → assurance_items d !! k = Some x ∨
      ∃ area, k = new_id area ∧ x = open_item E dossier area ∧ item_of d dossier area = None) as Hc.
    { intros k x Hx. destruct (assurance_items d !! k) as [z|] eqn:Hz; [|by right; eauto].
      left. pose proof (lookup_weaken _ _ _ _ Hz Hsub). by simplify_eq. }
    split.
    + intros k x [Hx|(area & _ & -> & _)]%Hc; [by eauto|apply open_item_ok].
    + intros i j x y [Hx|(r & -> & -> & Hn)]%Hc [Hy|(s & -> & -> & Hm)]%Hc Hd Ha; simpl in *.
      * eauto.
      * by destruct (item_of_None _ _ _ _ _ Hm Hx).
      * by destruct (item_of_None _ _ _ _ _ Hn Hy).
      * by subst s.
    + intros k x area [Hx|(r & _ & -> & _)]%Hc; [|by apply Hfull].
      destruct (H3 k x area Hx) as (j & y & Hj & ?). exists j, y. split; [by eapply lookup_weaken|done].
  - destruct (H1 k x Hk) as [P1 P2]. split; rewrite HT.
    + intros j z Hz. apply lookup_insert_Some in Hz as [[<- <-]|[_ Hz]]; [|by eauto].
      split; [by rewrite M3, M2|done].
    + intros i j u v Hu Hv Hd Ha. apply lookup_insert_Some in Hu as [[<- <-]|[? Hu]], Hv as [[<- <-]|[? Hv]]; [done|..].
      * eapply (H2 k j); [done..|congruence|congruence]. * eapply (H2 i k); [done..|congruence|congruence]. * eauto.
    + intros j z area Hz. assert (∃ i u, assurance_items d !! i = Some u ∧ ra_dossier_id u = ra_dossier_id z ∧ ra_area u = area)
        as (i & u & Hu & Hd & Ha).
      { apply lookup_insert_Some in Hz as [[<- <-]|[_ Hz]]; [rewrite M1|]; by eauto. }
      destruct (decide (k = i)) as [<-|].
      * exists k, y. rewrite lookup_insert_eq. split; [done|]. simplify_eq. split; congruence.
      * exists i, u. by rewrite lookup_insert_ne.
Qed.

(** ** The handlers refine the contract *)

Lemma in_status_Some ss o k x : in_status ss o = Some (k, x) → o = Some (k, x) ∧ ra_status x ∈ ss.
Proof.
  unfold in_status. intros ([k' x'] & -> & Hi)%bind_Some. simpl in *. destruct (includes _ _) eqn:Hs; [|done].
  apply includes_true in Hs. by simplify_eq.
Qed.

(** An update of a located item that keeps its identity. *)
Lemma update_item_contract (f : assurance_item → assurance_item) k x E a action md d1 (r : uuid) d u d' :
  assurance_items d !! k = Some x →
  (ra_dossier_id (f x) = ra_dossier_id x ∧ ra_area (f x) = ra_area x ∧ ra_max_points (f x) = ra_max_points x) →
  (_ ← update_checked assurance_items rules_assurance_items k f; _ ← activity E a action d1 md; mret r) d = Ok (u, d') →
  readiness_contract d d'.
Proof.
  intros Hk (M1 & M2 & M3) Hb. apply tx_bind_ok in Hb as ([] & d2 & Hu & Hb).
  apply (update_checked_ok _ _ _ _ x) in Hu as (Hc & _ & ->); [|done].
  apply tx_bind_ok in Hb as ([] & d3 & ->%modify_ok & [_ ->]%mret_ok). split; [|by apply prefix_app_r].
  eapply (rs_moved _ _ k x (f x)); [done| |done]. split_and!; [done..|].
  rules_inv. done.
Qed.

Lemma dossier_frame dossier d u d' : requireVaspDossier dossier d = Ok (u, d') → d' = d.
Proof. unfold requireVaspDossier, select_by_id. intros H. by tx_inv. Qed.

Lemma record_refines E a dossier area uri sha :
  act_respects readiness_contract (recordReadinessAssuranceEvidence E a dossier area uri sha).
Proof.
  apply (transaction_respects _). intros d u d' Hb.
  apply tx_bind_ok in Hb as ([] & d1 & ->%dossier_frame & Hb).
  apply tx_bind_ok in Hb as (hit & d2 & [Hh ->]%gets_ok & Hb).
  apply tx_bind_ok in Hb as ([k x] & d3 & [-> ->]%require_ok & Hb).
  apply in_status_Some in Hh as [(Hk & _)%item_of_Some _]. cbn [fst snd] in Hb.
  by eapply (update_item_contract _ k x); [exact Hk| |exact Hb].
Qed.

Lemma verify_refines E a i : act_respects readiness_contract (verifyReadinessAssuranceEvidence E a i).
Proof.
  apply (transaction_respects _). intros d u d' Hb.
  apply tx_bind_ok in Hb as (hit & d2 & [Hh ->]%gets_ok & Hb).
  apply tx_bind_ok in Hb as ([k x] & d3 & [-> ->]%require_ok & Hb).
  apply in_status_Some in Hh as [(Hk & _)%item_of_Some _].
  apply tx_bind_ok in Hb as ([] & d4 & [_ ->]%throw_if_ok & Hb).
  apply tx_bind_ok in Hb as ([] & d5 & [_ ->]%throw_if_ok & Hb). cbn [fst snd] in Hb.
  by eapply (update_item_contract _ k x); [exact Hk| |exact Hb].
Qed.

Lemma reject_refines E a dossier area w :
  act_respects readiness_contract (rejectReadinessAssuranceEvidence E a dossier area w).
Proof.
  apply (transaction_respects _). intros d u d' Hb.
  apply tx_bind_ok in Hb as (hit & d2 & [Hh ->]%gets_ok & Hb).
  apply tx_bind_ok in Hb as ([k x] & d3 & [-> ->]%require_ok & Hb).
  apply in_status_Some in Hh as [(Hk & _)%item_of_Some _]. cbn [fst snd] in Hb.
  by eapply (update_item_contract _ k x); [exact Hk| |exact Hb].
Qed.

(** The loop of the initialisation. *)
Lemma insert_item_ok E new_id dossier area d u d' : insert_item E new_id dossier area d = Ok (u, d') →
  activity_events d' = activity_events d ∧ (∃ k y, assurance_items d' !! k = Some y ∧ ra_dossier_id y = dossier ∧ ra_area y = area) ∧
  (assurance_items d' = assurance_items d ∨ item_of d dossier area = None ∧ assurance_items d !! new_id area = None ∧
    assurance_items d' = <[new_id area := open_item E dossier area]> (assurance_items d)).
Proof.
  unfold insert_item. intros Hb. apply tx_bind_ok in Hb as ([] & d1 & [_ ->]%enforce_ok & Hb).
  apply tx_bind_ok in Hb as (ex & d2 & [Hex ->]%gets_ok & Hb). destruct ex as [[k y]|].
  - apply mret_ok in Hb as [_ ->]. apply item_of_Some in Hex. split; [done|]. split; [by exists k, y|by left].
  - apply insert_row_ok in Hb as (_ & Hn & _ & _ & ->). split; [done|]. split; [|by right].
    exists (new_id area), (open_item E dossier area). split; [apply lookup_insert_eq|done].
Qed.

Lemma insert_items_ok E new_id dossier areas d u d' :
  NoDup areas → for_each (insert_item E new_id dossier) areas d = Ok (u, d') →
  activity_events d' = activity_events d ∧ assurance_items d ⊆ assurance_items d' ∧
  (∀ area, area ∈ areas → ∃ k y, assurance_items d' !! k = Some y ∧ ra_dossier_id y = dossier ∧ ra_area y = area) ∧
  (∀ k x, assurance_items d !! k = None → assurance_items d' !! k = Some x →
    ∃ area, area ∈ areas ∧ k = new_id area ∧ x = open_item E dossier area ∧ item_of d dossier area = None).
Proof.
  intros Hnd. revert d. induction Hnd as [|area areas Hni _ IH]; intros d Hb; simpl in Hb.
  - apply mret_ok in Hb as [_ ->]. split_and!; [done|done|set_solver|congruence].
  - apply tx_bind_ok in Hb as ([] & d1 & (L1 & (k0 & y0 & F1 & F2) & Hi)%insert_item_ok & (L2 & S2 & F3 & N2)%IH).
    assert (assurance_items d ⊆ assurance_items d1) as S1.
    { destruct Hi as [->|(_ & Hn & ->)]; [done|by apply insert_subseteq]. }
    split_and!; [congruence|by etrans| |].
    + intros r [->|Hr]%elem_of_cons; [|by apply F3]. exists k0, y0. split; [by eapply lookup_weaken|done].
    + intros k x Hk Hx. destruct (assurance_items d1 !! k) as [z|] eqn:Hz.
      * destruct Hi as [Hi|(Hn & _ & Hi)]; [congruence|]. rewrite Hi in Hz.
        apply lookup_insert_Some in Hz as [[<- <-]|[_ ?]]; [|congruence].
        exists area. split; [left|]. split; [done|]. split; [|done].
        assert (assurance_items d1 !! new_id area = Some (open_item E dossier area)) as Hz
          by (rewrite Hi; apply lookup_insert_eq).
        pose proof (lookup_weaken _ _ _ _ Hz S2). by simplify_eq.
      * destruct (N2 k x Hz Hx) as (r & Hr & -> & -> & Hn). exists r. split; [by right|]. split_and!; [done..|].
        destruct Hi as [Hi|(_ & _ & Hi)]; unfold item_of in *; [by rewrite <-Hi|].
        rewrite Hi in Hn. destruct (select (λ _ x, bool_decide (ra_dossier_id x = dossier) && bool_decide (ra_area x = r))
          (assurance_items d)) as [|[i w] l] eqn:Hs; [done|]. exfalso.
        assert ((i, w) ∈ (i, w) :: l) as Hin by left. rewrite <-Hs in Hin. apply elem_of_select in Hin as [Hw Hp].
        assert (assurance_items d1 !! i = Some w) as Hw1 by (by eapply lookup_weaken).
        rewrite Hi in Hw1.
        assert ((i, w) ∈ select (λ _ x, bool_decide (ra_dossier_id x = dossier) && bool_decide (ra_area x = r))
          (<[new_id area:=open_item E dossier area]> (assurance_items d))) as Hin2 by (by apply elem_of_select).
        destruct (select _ (<[_:=_]> _)); [by apply not_elem_of_nil in Hin2|done].
Qed.

Lemma areas_nodup : NoDup readinessAssuranceAreas.
Proof. apply (bool_decide_unpack _). vm_compute. done. Qed.
Lemma areas_all area : area ∈ readinessAssuranceAreas.
Proof. destruct area; unfold readinessAssuranceAreas; set_solver. Qed.

Lemma initialise_refines E a new_id dossier :
  act_respects readiness_contract (initialiseReadinessAssurance E a new_id dossier).
Proof.
  apply (transaction_respects _). intros d u d' Hb.
  apply tx_bind_ok in Hb as ([] & d1 & ->%dossier_frame & Hb).
  apply tx_bind_ok in Hb as ([] & d2 & (L & Hs & Hf & Hn)%(insert_items_ok _ _ _ _ _ _ _ areas_nodup) & Hb).
  apply modify_ok in Hb as ->. split.
  - eapply (rs_initialised _ _ E new_id dossier); [done| |].
    + intros k x Hk Hx. destruct (Hn k x Hk Hx) as (r & _ & ?). by exists r.
    + intros area. apply Hf, areas_all.
  - unfold log_extends. simpl. rewrite L. by apply prefix_app_r.
Qed.

(** ** Runs *)

Inductive readiness_call (d : db) : db → Prop :=
  | rc_initialise E a n dossier : readiness_call d (initialiseReadinessAssurance E a n dossier d).2
  | rc_record E a dossier area uri sha :
      readiness_call d (recordReadinessAssuranceEvidence E a dossier area uri sha d).2
  | rc_verify E a i : readiness_call d (verifyReadinessAssuranceEvidence E a i d).2
  | rc_reject E a dossier area w : readiness_call d (rejectReadinessAssuranceEvidence E a dossier area w d).2
  | rc_elsewhere d' : assurance_items d' = assurance_items d → log_extends d d' → readiness_call d d'.

Lemma readiness_call_contract d d' : readiness_call d d' → readiness_contract d d'.
Proof.
  intros []; [apply initialise_refines|apply record_refines|apply verify_refines|apply reject_refines|].
  split; [by apply rs_same|done].
Qed.

Lemma readiness_empty_ok : readiness_ok empty_db.
Proof. split; intros *; simpl; by rewrite lookup_empty. Qed.

Lemma readiness_run_ok d : rtc readiness_call empty_db d → readiness_ok d.
Proof.
  cut (∀ d0, readiness_ok d0 → rtc readiness_call d0 d → readiness_ok d).
  { intros Hc. apply Hc, readiness_empty_ok. }
  intros d0 Hok Hr. induction Hr as [|d0 d1 d2 Hc _ IH]; [done|]. apply IH.
  by eapply readiness_step_ok; [apply readiness_call_contract|].
Qed.

(** ** Points *)

Lemma points_perm l l' : l ≡ₚ l' → points l = points l'.
Proof. induction 1; simpl in *; lia. Qed.

Lemma points_of_areas (l : list (uuid * assurance_item)) : Forall (λ r, item_ok r.2) l →
  points l = foldr Z.add 0 ((λ r, bp_maxPoints (blueprint (ra_area r.2))) <$> l).
Proof. induction 1 as [|r l [Hp _] _ IH]; simpl; [done|]. by rewrite Hp, IH. Qed.

Lemma foldr_add_perm l l' : l ≡ₚ l' → foldr Z.add 0 l = foldr Z.add 0 l'.
Proof. induction 1; simpl in *; lia. Qed.

(** The items of a dossier: none, or one for each of the six areas. *)
Lemma dossier_items_spec d dossier : readiness_ok d →
  let l := group (assurance_items d) dossier in
  l = [] ∨ ((λ r, ra_area r.2) <$> l) ≡ₚ readinessAssuranceAreas.
Proof.
  intros [H1 H2 H3] l. destruct l as [|[k x] l'] eqn:Hl; [by left|right]. rewrite <-Hl. subst l.
  assert (assurance_items d !! k = Some x ∧ ra_dossier_id x = dossier) as [Hk Hd].
  { assert ((k, x) ∈ group (assurance_items d) dossier) as Hin by (rewrite Hl; left).
    apply elem_of_select in Hin as [? ?]. by unbool. }
  apply NoDup_Permutation.
  - apply NoDup_fmap_2_strong; [|by eapply NoDup_fmap_1, NoDup_select_fst].
    intros [i u] [j v] [Hi Pi]%elem_of_select [Hj Pj]%elem_of_select Ha. unbool. simpl in *.
    assert (i = j) as -> by (eapply H2; [done..|congruence|done]). by simplify_eq.
  - apply areas_nodup.
  - intros area. split; [intros; apply areas_all|]. intros _.
    destruct (H3 k x area Hk) as (j & y & Hj & Hdy & Ha). apply list_elem_of_fmap. exists (j, y). split; [done|].
    apply elem_of_select. split; [done|]. apply bool_decide_eq_true. congruence.
Qed.

Lemma group_items_ok d dossier : readiness_ok d →
  Forall (λ r, item_ok r.2) (group (assurance_items d) dossier).
Proof.
  intros [H1 _ _]. apply Forall_forall. intros [k x] [Hk _]%elem_of_select. by eapply H1.
Qed.

Lemma dossier_points d dossier : readiness_ok d →
  points (group (assurance_items d) dossier) = 0 ∨ points (group (assurance_items d) dossier) = 58.
Proof.
  intros Hok. pose proof (group_items_ok d dossier Hok) as Hi. destruct (dossier_items_spec d dossier Hok) as [->|Hp];
    [by left|right]. rewrite (points_of_areas _ Hi).
  transitivity (foldr Z.add 0 ((λ r, bp_maxPoints (blueprint r)) <$>
    ((λ r : uuid * assurance_item, ra_area r.2) <$> group (assurance_items d) dossier)));
    [by rewrite <-list_fmap_compose|].
  rewrite (foldr_add_perm _ _ (fmap_Permutation _ _ _ Hp)). vm_compute. reflexivity.
Qed.

Lemma points_filter (p : uuid * assurance_item → bool) l :
  Forall (λ r, item_ok r.2) l → 0 <= points (List.filter p l) <= points l.
Proof.
  induction 1 as [|r l [Hp _] _ IH]; simpl; [done|].
  assert (0 <= ra_max_points r.2) by (rewrite Hp; by destruct (ra_area r.2)). destruct (p r); simpl; lia.
Qed.

(** C19. Points are earned by others: on every run the register of a dossier is
    either empty or complete and worth 58 points; the verified points lie
    between 0 and 58 and the remaining points make up the rest; and every item
    that earns points carries evidence, an attestation and the name of a
    verifier who is not the person who recorded the evidence. *)
Theorem readiness_points_independent d dossier :
  rtc readiness_call empty_db d →
  let A := assessReadinessAssurance dossier d in
  (as_totalPoints A = 0 ∨ as_totalPoints A = 58) ∧ 0 <= as_verifiedPoints A <= as_totalPoints A ∧
  as_remainingPoints A = as_totalPoints A - as_verifiedPoints A ∧
  (∀ k x, (k, x) ∈ as_items A → ra_status x = RaExternallyVerified →
    ∃ s v, ra_evidence_recorded_by x = Some s ∧ ra_verified_by x = Some v ∧ s ≠ v ∧
      is_Some (ra_evidence_sha256 x) ∧ is_Some (ra_external_attestation_sha256 x)).
Proof.
  intros Hok%readiness_run_ok A. subst A. unfold assessReadinessAssurance. simpl.
  assert (listReadinessAssurance dossier d ≡ₚ group (assurance_items d) dossier) as Hp by apply order_by_perm.
  assert (Forall (λ r, item_ok r.2) (listReadinessAssurance dossier d)) as Hi
    by (rewrite Hp; by apply group_items_ok).
  split_and!; [rewrite (points_perm _ _ Hp); by apply dossier_points|by apply points_filter..|done|].
  intros k x Hin Hs. rewrite Forall_forall in Hi. destruct (Hi _ Hin) as [_ Hc]. unfold assurance_complete in Hc.
  simpl in Hc. rewrite Hs in Hc. unfold is_some in Hc. unbool.
  destruct (ra_evidence_recorded_by x) as [s|], (ra_verified_by x) as [v|];
    try (match goal with H : is_Some None |- _ => by destruct H end).
  exists s, v. split_and!; try done. congruence.
Qed.

(** ** The monitor on reachable registers *)

Lemma complete_no_violation x : assurance_complete x = true → self_verified x = false ∧ invalid_state x = false.
Proof.
  unfold assurance_complete, self_verified, invalid_state, is_none, is_some. destruct (ra_status x); intros H; unbool;
    repeat match goal with H : is_Some ?o |- _ => destruct o eqn:?; [clear H|by destruct H]
      | H : ¬ is_Some ?o |- _ => apply eq_None_not_Some in H; rewrite H in * end; simpl; try done.
  split; [|]; rewrite bool_decide_eq_false_2; try done; congruence.
Qed.

Lemma group_remove_dups (l : list assurance_area) : l ≡ₚ readinessAssuranceAreas → length (remove_dups l) = 6%nat.
Proof.
  intros Hl. assert (remove_dups l ≡ₚ readinessAssuranceAreas) as Hp.
  { apply NoDup_Permutation; [apply NoDup_remove_dups|apply areas_nodup|]. intros x.
    by rewrite elem_of_remove_dups, Hl. }
  by rewrite Hp.
Qed.

Lemma no_invalid_total d dossier : readiness_ok d → dossier ∈ dossiers_of (assurance_items d) →
  invalid_total (group (assurance_items d) dossier) = false.
Proof.
  intros Hok Hd. unfold dossiers_of in Hd. apply elem_of_remove_dups, list_elem_of_fmap in Hd as ([k x] & -> & Hin).
  apply elem_of_map_to_list in Hin. simpl.
  destruct (dossier_items_spec d (ra_dossier_id x) Hok) as [Hn|Hp].
  - exfalso. apply (not_elem_of_nil (k, x)). rewrite <-Hn. apply elem_of_select. split; [done|].
    by apply bool_decide_eq_true.
  - unfold invalid_total. rewrite (group_remove_dups _ Hp). pose proof (Permutation_length Hp) as Hl.
    rewrite length_fmap in Hl. rewrite Hl. simpl.
    destruct (dossier_points d (ra_dossier_id x) Hok) as [H0|H58]; [|unfold points in H58; by rewrite H58].
    exfalso. pose proof (group_items_ok d (ra_dossier_id x) Hok) as Hi. rewrite (points_of_areas _ Hi) in H0.
    revert H0. replace ((λ r, bp_maxPoints (blueprint (ra_area r.2))) <$> group (assurance_items d) (ra_dossier_id x))
      with ((λ r, bp_maxPoints (blueprint r)) <$> ((λ r : uuid * assurance_item, ra_area r.2) <$>
        group (assurance_items d) (ra_dossier_id x))) by (by rewrite <-list_fmap_compose).
    rewrite (foldr_add_perm _ _ (fmap_Permutation _ _ _ Hp)). vm_compute. done.
Qed.

Lemma reachable_no_violation d : readiness_ok d → queryViolations d = [].
Proof.
  intros Hok. pose proof (rk_item _ Hok) as Hi. unfold queryViolations, total_violations.
  assert (∀ p : assurance_item → bool, (∀ k x, assurance_items d !! k = Some x → p x = false) →
    select (λ _ x, p x) (assurance_items d) = []) as Hnone.
  { intros p Hp. destruct (select _ _) as [|[k x] l] eqn:Hs; [done|]. exfalso.
    assert ((k, x) ∈ (k, x) :: l) as Hin by left. rewrite <-Hs in Hin. apply elem_of_select in Hin as [Hx Hpx].
    rewrite (Hp k x Hx) in Hpx. done. }
  rewrite !Hnone by (intros k x Hx; eapply complete_no_violation, it_complete, Hi, Hx). simpl.
  assert (Forall (λ c, invalid_total (group (assurance_items d) c) = false) (dossiers_of (assurance_items d))) as Hf.
  { apply Forall_forall. intros c Hc. by apply no_invalid_total. }
  induction Hf as [|c l Hc _ IH]; [done|]. simpl. by rewrite Hc.
Qed.

Section monitor.
Context (localeCompare : string → string → Z) (webhook : string → string → bool) (audit_log_path : option string).
Context (pg_message : pg_violation → string).

Definition sod_round := runSegregationOfDutiesMonitorRound localeCompare webhook audit_log_path pg_message.

(** ** What a round can touch *)

Definition alerts_and_deliveries_same (d d' : db) : Prop :=
  notification_deliveries d' = notification_deliveries d ∧ compliance_alerts d' = compliance_alerts d ∧
  assurance_items d' = assurance_items d.

Lemma recordEvaluation_frame E a id c st vs e d :
  alerts_and_deliveries_same d (recordEvaluation localeCompare E a id c st vs e d).2.
Proof.
  unfold recordEvaluation, transaction. cbv zeta.
  match goal with |- context [match ?m with _ => _ end] => destruct m as [[r d']|err] eqn:Hb end; [|by split_and!].
  apply tx_bind_ok in Hb as ([] & d1 & (_ & _ & _ & _ & ->)%insert_row_ok & Hb).
  apply tx_bind_ok in Hb as ([] & d2 & ->%modify_ok & [_ ->]%mret_ok). by split_and!.
Qed.

Lemma append_frame d : (appendSegregationOfDutiesAuditLog audit_log_path d).2 = d.
Proof. unfold appendSegregationOfDutiesAuditLog. by destruct (configuredPath _). Qed.

Lemma record_failure_frame E a ids e d :
  alerts_and_deliveries_same d (record_failure localeCompare audit_log_path pg_message E a ids e d).2 ∧
  ∃ r, (record_failure localeCompare audit_log_path pg_message E a ids e d).1 = Ok r ∧ mr_status r = StatusIndeterminate.
Proof.
  unfold record_failure. cbv zeta. unfold mbind, act_bind.
  match goal with |- context [recordEvaluation ?l ?E ?a ?i ?c ?s ?v ?x d] =>
    pose proof (recordEvaluation_frame E a i c s v x d) as Hf; destruct (recordEvaluation l E a i c s v x d) as [[r|err] d1] end;
    simpl in *; [|by eauto].
  pose proof (append_frame d1) as Ha. destruct (appendSegregationOfDutiesAuditLog _ d1) as [[]  d2]; simpl in *; subst d2; eauto.
Qed.

(** The second transaction never commits. *)
Lemma delivery_never_commits E a p c dg b h d :
  transaction (deliver_exception_alert E a p c dg b h) d =
    (Throw (PgError (CheckViolation "notification_deliveries_alert_type_check")), d).
Proof. reflexivity. Qed.

Lemma raise_frame E a id c dg vs d u d' :
  raise_exception_alert E a id c dg vs d = Ok (u, d') →
  notification_deliveries d' = notification_deliveries d ∧ assurance_items d' = assurance_items d ∧
  (u = None → compliance_alerts d' = compliance_alerts d).
Proof.
  unfold raise_exception_alert. intros Hb. apply tx_bind_ok in Hb as (p & d1 & [_ ->]%gets_ok & Hb).
  destruct p as [p|]; [|by apply mret_ok in Hb as [_ ->]]. cbv zeta in Hb.
  apply tx_bind_ok in Hb as ([] & d2 & [_ ->]%enforce_ok & Hb).
  apply tx_bind_ok in Hb as (ex & d3 & [_ ->]%gets_ok & Hb).
  destruct ex; [by apply mret_ok in Hb as [_ ->]|].
  apply tx_bind_ok in Hb as ([] & d4 & (_ & _ & _ & _ & ->)%insert_row_ok & Hb).
  apply tx_bind_ok in Hb as ([] & d5 & ->%modify_ok & [-> ->]%mret_ok). by split_and!.
Qed.

Lemma raiseAndDeliver_frame E a id c dg vs d :
  let R := raiseAndDeliverExceptionAlert webhook audit_log_path E a id c dg vs d in
  notification_deliveries R.2 = notification_deliveries d ∧ assurance_items R.2 = assurance_items d ∧
  (R.1 = Ok tt → compliance_alerts R.2 = compliance_alerts d).
Proof.
  unfold raiseAndDeliverExceptionAlert, mbind, act_bind. cbv zeta.
  destruct (transaction (raise_exception_alert _ _ _ _ _ _) d) as [[u|e] d1] eqn:Ht.
  - apply transaction_ok, raise_frame in Ht as (H1 & H2 & H3). destruct u as [p|]; [|by split_and!; auto].
    destruct (transaction (notifyOwner _ _ _) d1) as [[b|e] d2] eqn:Hn.
    + apply transaction_ok in Hn. unfold notifyOwner in Hn.
      apply tx_bind_ok in Hn as (x & d3 & [_ ->]%require_ok & [_ ->]%mret_ok).
      rewrite delivery_never_commits. simpl. by split_and!.
    + apply transaction_throw in Hn as [_ ->]. simpl. by split_and!.
  - apply transaction_throw in Ht as [_ ->]. by split_and!.
Qed.

(** The end of a round keeps what came before it. *)
Definition kept_by (d : db) (R : res SoDMonitorResult * db) : Prop :=
  notification_deliveries R.2 = notification_deliveries d ∧ assurance_items R.2 = assurance_items d ∧
  (is_ok R.1 = true → compliance_alerts R.2 = compliance_alerts d).

Lemma append_kept d d1 r : alerts_and_deliveries_same d d1 →
  kept_by d ((_ ← appendSegregationOfDutiesAuditLog audit_log_path; mret r) d1).
Proof.
  intros (A1 & A2 & A3). unfold kept_by, mbind, act_bind, appendSegregationOfDutiesAuditLog.
  destruct (configuredPath _); simpl; by split_and!.
Qed.

Lemma evaluate_round_frame E a ids d :
  kept_by d (evaluate_round localeCompare webhook audit_log_path E a ids d).
Proof.
  unfold evaluate_round. cbv zeta. unfold mbind at 1, act_bind at 1.
  match goal with |- context [recordEvaluation ?l ?E ?a ?i ?c ?s ?v ?x d] =>
    pose proof (recordEvaluation_frame E a i c s v x d) as Hf;
    destruct (recordEvaluation l E a i c s v x d) as [[[c1 dg]|err] d1] end; cbn [fst snd] in *.
  2:{ destruct Hf as (F1 & F2 & F3). by split_and!. }
  unfold mbind at 1, act_bind at 1. destruct (queryViolations d) as [|v vs]; [by apply append_kept|].
  destruct dg as [dg|]; [|by apply append_kept]. destruct Hf as (F1 & F2 & F3).
  pose proof (raiseAndDeliver_frame E a (ri_alert ids) c1 dg (v :: vs) d1) as (R1 & R2 & R3).
  destruct (raiseAndDeliverExceptionAlert _ _ _ _ _ _ _ _ d1) as [[[]|e] d2]; cbn [fst snd] in *.
  - apply append_kept. split_and!; [by rewrite R1|by rewrite R3|by rewrite R2].
  - unfold kept_by. simpl. split_and!; [by rewrite R1|by rewrite R2|done].
Qed.

(** An exception alert is never delivered on record: the constraint on the
    delivery table still admits only the four older alert types, so the second
    transaction of the alert is always refused. No round of the monitor, from
    any state and whatever the webhook answers, adds a delivery row; and a round
    that raised a new alert reports itself as indeterminate, never as having
    detected exceptions. *)
Theorem exception_alert_never_recorded E cfg pool ids d :
  let R := sod_round E cfg pool ids d in
  notification_deliveries R.2 = notification_deliveries d ∧ assurance_items R.2 = assurance_items d ∧
  (∀ r, R.1 = Ok r → compliance_alerts R.2 ≠ compliance_alerts d → mr_status r = StatusIndeterminate).
Proof.
  unfold sod_round, runSegregationOfDutiesMonitorRound. cbv zeta.
  destruct (configuredSubject _) as [s|e]; [|by split_and!].
  destruct (acquireLeader _ _ _).1 as [[]|e].
  - pose proof (evaluate_round_frame E (mk_actor s RoleSystemMonitor) ids d) as (F1 & F2 & F3).
    destruct (evaluate_round _ _ _ _ _ ids d) as [[r|e] d1]; simpl in *.
    + split_and!; [done..|]. intros r' _ Hne. by destruct Hne, F3.
    + destruct (record_failure_frame E (mk_actor s RoleSystemMonitor) ids e d1) as ((G1 & G2 & G3) & r & Hr & Hs).
      rewrite Hr, G1, G3. split_and!; [done..|]. intros r' ? _. by simplify_eq.
  - by split_and!.
  - destruct (record_failure_frame E (mk_actor s RoleSystemMonitor) ids e d) as ((G1 & G2 & G3) & r & Hr & Hs).
    rewrite Hr. split_and!; [done..|]. intros r' ? _. by simplify_eq.
Qed.

#[local] Opaque sha256.
(** C20. The monitor is silent on what the handlers produce: on every run of the
    readiness handlers the three queries find nothing, and a round that holds
    the lock, with fresh identifiers and a usable audit path, records a clean
    evaluation and reports it. *)
Theorem reachable_register_is_clean E cfg pool ids d s p :
  rtc readiness_call empty_db d →
  configuredSubject (mc_subject cfg) = Ok s → (acquireLeader pool (mc_attempts cfg) (mc_backoff cfg)).1 = Ok true →
  configuredPath audit_log_path = Ok p → sod_evaluation_runs d !! ri_run ids = None →
  (∀ k x, sod_evaluation_runs d !! k = Some x → sod_correlation_id x ≠ ri_correlation ids) →
  queryViolations d = [] ∧
  (sod_round E cfg pool ids d).1 = Ok (mk_SoDMonitorResult StatusClean 0 (Some (ri_correlation ids)) None) ∧
  (sod_evaluation_state <$> sod_evaluation_runs (sod_round E cfg pool ids d).2 !! ri_run ids) = Some SodClean.
Proof.
  intros Hok%readiness_run_ok Hs Hl Hp Hrun Hcorr. pose proof (reachable_no_violation d Hok) as Hq. split; [done|].
  unfold sod_round, runSegregationOfDutiesMonitorRound. rewrite Hs, Hl. unfold evaluate_round. rewrite Hq. cbv zeta.
  set (row := mk_sod_evaluation_run (ri_correlation ids) s RoleSystemMonitor QUERY_VERSION SodClean 0
    (Some (canonicalDigest localeCompare [])) None (db_now E)).
  assert (∃ d1, recordEvaluation localeCompare E (mk_actor s RoleSystemMonitor) (ri_run ids) (ri_correlation ids) SodClean [] None d =
    (Ok (ri_correlation ids, Some (canonicalDigest localeCompare [])), d1) ∧ sod_evaluation_runs d1 !! ri_run ids = Some row)
    as (d1 & Hrec & Hd1).
  { eexists. split.
    - apply transaction_ok. eapply (tx_bind_run _ _ _ tt).
      + apply insert_row_ok. split_and!; [|exact Hrun|..|reflexivity].
        * repeat constructor; simpl; unfold canonicalDigest; by rewrite ?sha256_is_hex.
        * repeat constructor. simpl. unfold unique. simpl. apply negb_true_iff, any_false.
          intros k x Hx. apply bool_decide_eq_false. by eapply Hcorr.
        * constructor.
      + eapply tx_bind_run; [apply modify_run|]. reflexivity.
    - simpl. apply lookup_insert_eq. }
  unfold mbind, act_bind, appendSegregationOfDutiesAuditLog. rewrite Hrec. simpl. rewrite Hp. simpl. rewrite Hd1. split; reflexivity.
Qed.
End monitor.

(** ** The lock loop *)

Definition retried (pool : nat → lock_attempt) (j : nat) : Prop :=
  ∃ code message, pool j = LockError code message ∧ retryableDatabaseError code = true.

Lemma acquire_from_spec pool backoff attempt left : (1 <= attempt)%nat → 0 <= backoff →
  let R := acquire_from pool backoff attempt left in
  (length R.2 <= left - 1)%nat ∧ Forall (λ t, 0 <= t <= MAX_LOCK_RETRY_BACKOFF_MS) R.2 ∧
  (∀ b, R.1 = Ok b → ∃ n, (n < left)%nat ∧ pool (attempt + n)%nat = (if b then LockAcquired else LockHeld) ∧
    length R.2 = n ∧ ∀ j, (j < n)%nat → retried pool (attempt + j)%nat).
Proof.
  intros Ha Hb. revert attempt Ha. induction left as [|left IH]; intros attempt Ha; simpl; [by split_and!|].
  destruct (pool attempt) as [| |code m] eqn:Hp; simpl.
  - split_and!; [lia|done|]. intros b ?. simplify_eq. exists 0%nat.
    rewrite Nat.add_0_r. split_and!; [lia|done|done|lia].
  - split_and!; [lia|done|]. intros b ?. simplify_eq. exists 0%nat.
    rewrite Nat.add_0_r. split_and!; [lia|done|done|lia].
  - destruct (negb (retryableDatabaseError code) || (left =? 0)%nat) eqn:Hs; simpl; [by split_and!; [lia|..]|].
    apply orb_false_iff in Hs as [Hr Hz]. apply negb_false_iff in Hr. apply Nat.eqb_neq in Hz.
    destruct (IH (S attempt) ltac:(lia)) as (I1 & I2 & I3).
    destruct (acquire_from pool backoff (S attempt) left) as [r ds]. simpl in *. split_and!; [lia| |].
    + constructor; [|done]. split; [|lia]. apply Z.min_glb; [|done].
      apply Z.mul_nonneg_nonneg; [done|]. apply Z.pow_nonneg. lia.
    + intros b Hb'. destruct (I3 b Hb') as (n & Hn & Hpn & Hl & Hj). exists (S n).
      split_and!; [lia|by replace (attempt + S n)%nat with (S attempt + n)%nat by lia|lia|].
      intros [|j] Hlt; [rewrite Nat.add_0_r; by exists code, m|].
      replace (attempt + S j)%nat with (S attempt + j)%nat by lia. apply Hj. lia.
Qed.

Lemma configured_integer_bounds name bounds dflt low high v n :
  low <= dflt <= high → configured_integer name bounds dflt low high v = Ok n → low <= n <= high.
Proof.
  intros Hd. unfold configured_integer. destruct v as [v|]; [|intros; by simplify_eq].
  destruct v as [|c v]; [intros; by simplify_eq|]. cbv zeta.
  destruct (negb _); [done|]. generalize (digits_value 0 (String c v)). intros m.
  destruct (_ || _ || _) eqn:Hb; [done|]. intros [= <-].
  apply orb_false_iff in Hb as [[_ H1]%orb_false_iff H2]. lia.
Qed.

(** C21. The lock is tried a bounded number of times: whatever the settings and
    whatever the pool answers, there are at most five attempts, each delay
    between them is at most five seconds, and a decision to lead or to stand
    down comes from an attempt that met the lock, every earlier one having
    failed with a retryable connection error. *)
Theorem lock_retries_bounded pool attempts_var backoff_var :
  let R := acquireLeader pool attempts_var backoff_var in
  (length R.2 <= 4)%nat ∧ Forall (λ t, 0 <= t <= 5000) R.2 ∧
  (∀ b, R.1 = Ok b → ∃ n, (n < 5)%nat ∧ pool (1 + n)%nat = (if b then LockAcquired else LockHeld) ∧ length R.2 = n ∧
    ∀ j, (j < n)%nat → retried pool (1 + j)%nat).
Proof.
  unfold acquireLeader. destruct (configuredLockRetryAttempts attempts_var) as [n|e] eqn:Hn; [|by split_and!; [simpl; lia|..]].
  destruct (configuredLockRetryBackoff backoff_var) as [b|e] eqn:Hb; [|by split_and!; [simpl; lia|..]].
  apply configured_integer_bounds in Hn; [|done]. apply configured_integer_bounds in Hb; [|done].
  unfold MAX_LOCK_RETRY_ATTEMPTS in Hn.
  destruct (acquire_from_spec pool b 1 (Z.to_nat n) ltac:(lia) ltac:(lia)) as (H1 & H2 & H3). cbv zeta.
  split_and!; [lia|exact H2|]. intros x Hx. destruct (H3 x Hx) as (k & Hk & ?). exists k. split; [lia|done].
Qed.

(** ** A worked register *)

Definition submitter : actor := mk_actor "officer-3" RoleComplianceOfficer.
Definition verifier : actor := mk_actor "auditor-5" RoleAuditor.
Definition ra_env : env := mk_env 7000 7000000 0.
Definition area_id (r : assurance_area) : uuid := Z.to_pos (10 + area_rank r).
Definition hash_a : string := "aaaaaaaaaaaaaaaaaaaaaaaaaaaaaaaaaaaaaaaaaaaaaaaaaaaaaaaaaaaaaaaa".
Definition ra0 : db := empty_db <| cbn_sandbox_dossiers :=
  {[1%positive := mk_cbn_sandbox_dossier 9 "vasp" "Corridor" "A cross-border corridor product under controlled test." "officer-3"
    "draft" None 0 0]} |>.
Definition ra1 := (initialiseReadinessAssurance ra_env submitter area_id 1 ra0).2.
Definition ra2 := (recordReadinessAssuranceEvidence ra_env submitter 1 AreaControlledLiveTest "https://e.example/1" hash_a ra1).2.
Definition ra3 := (verifyReadinessAssuranceEvidence ra_env verifier (mk_verify_input 1 AreaControlledLiveTest "Assurer Ltd"
  "https://a.example/1" hash_a "tested on site") ra2).2.

Lemma ra_run : rtc readiness_call empty_db ra3.
Proof.
  eapply rtc_r, rc_verify. eapply rtc_r, rc_record. eapply rtc_r, rc_initialise.
  eapply rtc_once, rc_elsewhere; [done|by exists []].
Qed.

(** Witness of [readiness_points_independent]: seven of the 58 points are verified. *)
Lemma readiness_points_independent_witness :
  as_verifiedPoints (assessReadinessAssurance 1 ra3) = 7 ∧
  (as_totalPoints (assessReadinessAssurance 1 ra3) = 0 ∨ as_totalPoints (assessReadinessAssurance 1 ra3) = 58).
Proof.
  split; [vm_compute; reflexivity|]. exact (proj1 (readiness_points_independent ra3 1 ra_run)).
Defined.

Definition toy_compare (s t : string) : Z := if String.leb s t then -1 else 1.
Definition sod_cfg : monitor_config := mk_monitor_config (Some "sod-monitor") None None.
Definition sod_ids : round_ids := mk_round_ids 100 101 102 103 104.
Definition sod_messages (_ : pg_violation) : string := "new row violates check constraint".
Definition toy_round := sod_round toy_compare (λ _ _, true) None sod_messages ra_env sod_cfg (λ _, LockAcquired) sod_ids.

(** Witness of [reachable_register_is_clean]. *)
Lemma reachable_register_is_clean_witness :
  (toy_round ra3).1 = Ok (mk_SoDMonitorResult StatusClean 0 (Some 101%positive) None).
Proof.
  refine (proj1 (proj2 (reachable_register_is_clean toy_compare (λ _ _, true) None sod_messages ra_env sod_cfg
    (λ _, LockAcquired) sod_ids ra3 "sod-monitor" None ra_run _ _ _ _ _))); try (vm_compute; reflexivity).
  intros k x Hx. assert (sod_evaluation_runs ra3 = ∅) as E1 by (vm_compute; reflexivity).
  by rewrite E1, lookup_empty in Hx.
Defined.

(** A register with one item only, as a restore could leave it, and an enabled
    policy: the round raises an alert and calls itself indeterminate. *)
Definition broken_db : db := ra0 <| assurance_items := {[10%positive := open_item ra_env 1 AreaControlledLiveTest]} |>
  <| alert_policies := {[20%positive := mk_alert_policy AltSegregationOfDuties None (JObj []) true "admin" 0]} |>.

(** Witness of [exception_alert_never_recorded]. *)
Lemma exception_alert_never_recorded_witness :
  size (compliance_alerts (toy_round broken_db).2) = 1%nat ∧
  notification_deliveries (toy_round broken_db).2 = [] ∧
  ∃ r, (toy_round broken_db).1 = Ok r ∧ mr_status r = StatusIndeterminate.
Proof.
  split; [vm_compute; reflexivity|].
  pose proof (exception_alert_never_recorded toy_compare (λ _ _, true) None sod_messages ra_env sod_cfg
    (λ _, LockAcquired) sod_ids broken_db) as (H1 & _ & H3).
  split; [exact H1|]. eexists. split; [vm_compute; reflexivity|]. reflexivity.
Defined.
