(* ===== verification/Lakehouse.v ===== *)
(** * Dispatch of control evidence to the lakehouse catalogue

    src/apps/control-plane/server/lakehouseControlEvidence.ts: the loop that
    takes pending rows of the outbox [Onboarding] fills, one transaction each,
    posts a redacted record and notes the answer. The URL parser, the process
    environment and the catalogue behind the endpoint are arguments. *)

From S2P Require Import Prelude Js Rows Schema Integrations.

Local Open Scope string_scope.
Local Open Scope Z_scope.

(** ** Configuration *)

Inductive DispatchConfiguration : Type :=
  | Configured (endpoint : url) (token : string)
  | Unavailable (why : string).

Section dispatch.
Context (parse_url : string → option url) (process_env : string → option string).

Definition dispatchConfiguration : DispatchConfiguration :=
  match process_env "UMOJA_LAKEHOUSE_CATALOG_URL", process_env "UMOJA_LAKEHOUSE_POSTGRESQL_CONTROL_TOKEN" with
  | Some endpointValue, Some token =>
      if negb (truthy endpointValue) || negb (truthy token) then Unavailable "not_configured"
      else match parse_url endpointValue with
           | None => Unavailable "invalid_configuration"
           | Some endpoint =>
               let loopback := includes ["127.0.0.1"; "localhost"; "::1"] (url_hostname endpoint) in
               if truthy (url_username endpoint) || truthy (url_password endpoint) ||
                  (negb (bool_decide (url_protocol endpoint = "https:")) &&
                   negb (bool_decide (url_protocol endpoint = "http:") && loopback))
               then Unavailable "invalid_configuration"
               else Configured endpoint token
           end
  | _, _ => Unavailable "not_configured"
  end.

(** ** What is kept of a failure *)

(** A match of [/https?:\/\/[^\s]+/] begins here. *)
Definition url_starts (s : string) : bool :=
  let tail n := match String.get n s with Some c => negb (is_space c) | None => false end in
  (startsWith s "http://" && tail 7%nat) || (startsWith s "https://" && tail 8%nat).

(** [message.replace(/https?:\/\/[^\s]+/g, "[endpoint]")]; [inside] holds while
    the characters of a match are dropped. *)
Fixpoint redact (inside : bool) (s : string) : string :=
  match s with
  | EmptyString => ""
  | String c r =>
      if inside then if is_space c then String c (redact false r) else redact true r
      else if url_starts s then "[endpoint]" +:+ redact true r
      else String c (redact false r)
  end.

Definition shortError (message : string) : string := String.substring 0 300 (redact false message).

(** ** One delivery *)

(** The body posted for a row: neither the payload nor the identifier of the
    row leaves the database. *)
Definition catalog_record (r : outbox_row) : json :=
  JObj ([("source", JStr "postgresql_control"); ("event_type", JStr (ox_event_type r));
         ("observed_at", JDate (js_of_pg (ox_observed_at r)));
         ("correlation_sha256", JStr (ox_correlation_sha256 r)); ("outcome", JStr (ox_outcome r))] ++
        match ox_corridor r with Some c => [("corridor", JStr (pg_text c))] | None => [] end)%list.

(** The pending rows a query may take, given those attempted already and an
    optional scope, which the cast to [char(64)] cuts to 64 characters. *)
Definition deliverable (attemptedIds : list uuid) (correlationSha256 : option string) (id : uuid) (r : outbox_row) : bool :=
  negb (ox_delivered r) && negb (includes attemptedIds id) &&
  match correlationSha256 with Some c => bool_decide (ox_correlation_sha256 r = String.substring 0 64 c) | None => true end.

Definition next_row (attemptedIds : list uuid) (correlationSha256 : option string) (d : db) :
    option (uuid * outbox_row) :=
  head (order_by (λ x, ox_created_at x.2)
    (select (deliverable attemptedIds correlationSha256) (control_evidence_outbox d))).

(** [response.ok]. *)
Definition accepted (f : fetch_result) : bool :=
  match f with Responded s => (200 <=? s) && (s <=? 299) | FetchError _ => false end.
Definition failure_of (f : fetch_result) : string :=
  match f with
  | Responded s => "catalog delivery returned status " +:+ pretty s
  | FetchError message => message
  end.

Definition mark_delivered (E : env) (r : outbox_row) : outbox_row :=
  r <| ox_delivered := true |> <| ox_delivery_attempts ::= Z.succ |> <| ox_last_delivery_error := None |>
    <| ox_delivered_at := Some (db_now E) |>.
Definition mark_failed (message : string) (r : outbox_row) : outbox_row :=
  r <| ox_delivery_attempts ::= Z.succ |> <| ox_last_delivery_error := Some (shortError message) |>.

Context (catalog : url → string → json → fetch_result).

(** The transaction of one iteration; the row attempted and the answer. *)
Definition deliver_next (E : env) (endpoint : url) (token : string) (attemptedIds : list uuid)
    (correlationSha256 : option string) : Tx db (option (uuid * outbox_row * fetch_result)) :=
  selected ← gets (next_row attemptedIds correlationSha256);
  match selected with
  | None => mret None
  | Some (id, row) =>
      let response := catalog endpoint token (catalog_record row) in
      _ ← update_row control_evidence_outbox id
        (if accepted response then mark_delivered E else mark_failed (failure_of response));
      mret (Some (id, row, response))
  end.

(** ** The loop *)

Record drain_result : Type := mk_drain_result {
  dr_status : string;
  dr_delivered : Z;
  dr_pending : Z;
  dr_failed : Z
}.

(** [clock i] gives the clocks of the i-th iteration. *)
Fixpoint drain_from (clock : nat → env) (endpoint : url) (token : string) (correlationSha256 : option string)
    (remaining : nat) (attemptedIds : list uuid) (r : drain_result) : Act db drain_result :=
  match remaining with
  | O => mret r
  | S remaining =>
      hit ← transaction (deliver_next (clock (length attemptedIds)) endpoint token attemptedIds correlationSha256);
      match hit with
      | None => mret r
      | Some (id, _, response) =>
          let ok := accepted response in
          drain_from clock endpoint token correlationSha256 remaining (attemptedIds ++ [id])
            (mk_drain_result "completed" (dr_delivered r + if ok then 1 else 0) (dr_pending r + 1)
              (dr_failed r + if ok then 0 else 1))
      end
  end.

(** [Math.max(1, Math.min(limit, 100))]. *)
Definition bounded (limit : Z) : nat := Z.to_nat (Z.max 1 (Z.min limit 100)).

Definition drainLakehouseControlEvidence (clock : nat → env) (limit : option Z) (correlationSha256 : option string) :
    Act db drain_result :=
  match dispatchConfiguration with
  | Unavailable why => mret (mk_drain_result why 0 0 0)
  | Configured endpoint token =>
      drain_from clock endpoint token correlationSha256 (bounded (default 25 limit)) []
        (mk_drain_result "completed" 0 0 0)
  end.
End dispatch.
