(* ===== verification/LakehouseProps.v ===== *)
(** * What the dispatch of control evidence guarantees

    Each iteration is a transaction of its own and the post is not part of it,
    so other handlers come between iterations and a process may stop between
    the post and the commit. Both are steps of the runs below. *)

From S2P Require Import Prelude Js Rows Schema Onboarding OnboardingProps Integrations Lakehouse.

Local Open Scope string_scope.
Local Open Scope Z_scope.

(** What a row says, apart from its delivery. *)
Definition same_evidence (r r' : outbox_row) : Prop :=
  catalog_record r' = catalog_record r ∧ ox_payload r' = ox_payload r ∧ ox_created_at r' = ox_created_at r ∧
  ox_delivery_attempts r <= ox_delivery_attempts r' ∧ (ox_delivered r = true → r' = r).
#[export] Instance same_evidence_preorder : PreOrder same_evidence.
Proof.
  split.
  - intros r. by split_and!.
  - intros r1 r2 r3 (A1 & A2 & A3 & A4 & A5) (B1 & B2 & B3 & B4 & B5). split_and!; [congruence..|lia|].
    intros H. rewrite (A5 H) in *. by apply B5.
Qed.

Definition outbox_kept (d d' : db) : Prop :=
  ∀ id r, control_evidence_outbox d !! id = Some r →
    ∃ r', control_evidence_outbox d' !! id = Some r' ∧ same_evidence r r'.
#[export] Instance outbox_kept_preorder : PreOrder outbox_kept.
Proof.
  split.
  - intros d id r H. by exists r.
  - intros d1 d2 d3 H1 H2 id r H. destruct (H1 _ _ H) as (r2 & Hr2 & ?).
    destruct (H2 _ _ Hr2) as (r3 & ? & ?). exists r3. split; [done|]. by transitivity r2.
Qed.

(** ** One iteration *)

Lemma next_row_Some att c d id r : next_row att c d = Some (id, r) →
  control_evidence_outbox d !! id = Some r ∧ deliverable att c id r = true.
Proof.
  intros [l H]%head_Some. apply (elem_of_select (deliverable att c)). rewrite <-(order_by_perm (λ x, ox_created_at x.2)), H.
  left.
Qed.

Lemma next_row_None att c d id r : next_row att c d = None →
  control_evidence_outbox d !! id = Some r → deliverable att c id r = false.
Proof.
  intros H%head_None Hr. apply not_true_iff_false. intros Hd.
  assert ((id, r) ∈ select (deliverable att c) (control_evidence_outbox d)) as Hin by (by apply elem_of_select).
  rewrite <-(order_by_perm (λ x, ox_created_at x.2)), H in Hin. by apply elem_of_nil in Hin.
Qed.

Definition attempted_row (E : env) (f : fetch_result) : outbox_row → outbox_row :=
  if accepted f then mark_delivered E else mark_failed (failure_of f).

Lemma attempted_same E f r : ox_delivered r = false → same_evidence r (attempted_row E f r).
Proof.
  intros Hr. unfold attempted_row. destruct (accepted f); split_and!; try done; simpl; try lia;
    intros H; by rewrite Hr in H.
Qed.

Section attempts.
Context (catalog : url → string → json → fetch_result) (endpoint : url) (token : string).

(** An iteration finds nothing and changes nothing, or attempts one row. *)
Lemma deliver_cases E att c d :
  (next_row att c d = None ∧ transaction (deliver_next catalog E endpoint token att c) d = (Ok None, d)) ∨
  ∃ id r, control_evidence_outbox d !! id = Some r ∧ deliverable att c id r = true ∧
    let f := catalog endpoint token (catalog_record r) in
    transaction (deliver_next catalog E endpoint token att c) d =
      (Ok (Some (id, r, f)), d <| control_evidence_outbox := <[id := attempted_row E f r]> (control_evidence_outbox d) |>).
Proof.
  unfold transaction, deliver_next, mbind, tx_bind, gets.
  destruct (next_row att c d) as [[id r]|] eqn:Hn; [right|by left].
  apply next_row_Some in Hn as [Hr Hd]. exists id, r. split; [done|]. split; [done|].
  simpl. by rewrite (alter_as_insert _ _ _ _ Hr).
Qed.

Lemma deliverable_pending att c id r : deliverable att c id r = true → ox_delivered r = false ∧ id ∉ att.
Proof.
  unfold deliverable. intros [[H1%negb_true_iff H2%negb_true_iff]%andb_true_iff _]%andb_true_iff.
  split; [done|]. by apply bool_decide_eq_false in H2.
Qed.

(** ** The loop *)

(** The rows a drain may still take. *)
Definition backlog (att : list uuid) (c : option string) (d : db) : gmap uuid outbox_row :=
  filter (λ x, deliverable att c x.1 x.2 = true) (control_evidence_outbox d).

Lemma backlog_lookup att c d id r : backlog att c d !! id = Some r ↔
  control_evidence_outbox d !! id = Some r ∧ deliverable att c id r = true.
Proof. apply map_lookup_filter_Some. Qed.

Lemma deliverable_snoc att c id j r : j ≠ id → deliverable (att ++ [id])%list c j r = deliverable att c j r.
Proof.
  intros Hj. unfold deliverable. do 2 f_equal. unfold includes. f_equal. apply bool_decide_ext. set_solver.
Qed.

Lemma deliverable_done att c id r : deliverable (att ++ [id])%list c id r = false.
Proof.
  apply not_true_iff_false. intros [_ []]%deliverable_pending. set_solver.
Qed.

Lemma backlog_step att c id r r' d : backlog att c d !! id = Some r →
  backlog (att ++ [id])%list c (d <| control_evidence_outbox := <[id := r']> (control_evidence_outbox d) |>) =
    delete id (backlog att c d).
Proof.
  intros [Hr Hd]%backlog_lookup. apply map_eq. intros j. apply option_eq. intros x.
  rewrite backlog_lookup, lookup_delete_Some, backlog_lookup. simpl.
  destruct (decide (id = j)) as [<-|Hne].
  - rewrite deliverable_done. naive_solver.
  - rewrite lookup_insert_ne, deliverable_snoc by done. naive_solver.
Qed.

Lemma backlog_empty att c d : next_row att c d = None → backlog att c d = ∅.
Proof.
  intros Hn. apply map_eq. intros id. rewrite lookup_empty. apply eq_None_not_Some.
  intros [r [Hr Hd]%backlog_lookup]. by rewrite (next_row_None _ _ _ _ _ Hn Hr) in Hd.
Qed.

(** Only the outbox changes. *)
Definition outbox_only (d d' : db) : Prop := ∃ t, d' = d <| control_evidence_outbox := t |>.

(** What a drain that starts with counts [r0] makes of [d]. *)
Record drained (n : nat) (att : list uuid) (c : option string) (r0 : drain_result) (d : db) (r : drain_result) (d' : db) :
    Prop := {
  drained_kept : outbox_kept d d';
  drained_only : outbox_only d d';
  drained_pending : dr_pending r - dr_pending r0 = Z.of_nat (n `min` size (backlog att c d));
  drained_sum : dr_delivered r - dr_delivered r0 + (dr_failed r - dr_failed r0) = dr_pending r - dr_pending r0;
  drained_up : (∀ id x, backlog att c d !! id = Some x → accepted (catalog endpoint token (catalog_record x)) = true) →
    dr_failed r = dr_failed r0 ∧ backlog att c d' ⊆ backlog att c d ∧
    size (backlog att c d') = (size (backlog att c d) - n)%nat
}.

Lemma drain_from_spec clock c n att r0 d :
  ∃ r d', drain_from catalog clock endpoint token c n att r0 d = (Ok r, d') ∧ drained n att c r0 d r d'.
Proof.
  revert att r0 d. induction n as [|n IH]; intros att r0 d; simpl.
  { exists r0, d. split; [done|]. split; [done|by exists (control_evidence_outbox d); destruct d|simpl; lia|lia|].
    intros _. split_and!; [done|done|lia]. }
  unfold mbind at 1, act_bind.
  destruct (deliver_cases (clock (length att)) att c d) as [[Hn ->]|(id & x & Hx & Hd & ->)].
  { apply backlog_empty in Hn. exists r0, d. split; [done|].
    split; [done|by exists (control_evidence_outbox d); destruct d|rewrite Hn, map_size_empty; lia|lia|]. intros _. by rewrite Hn, map_size_empty. }
  set (f := catalog _ _ _). set (d1 := set _ _ _).
  assert (Hb : backlog att c d !! id = Some x) by by apply backlog_lookup.
  destruct (IH (att ++ [id])%list (mk_drain_result "completed" (dr_delivered r0 + if accepted f then 1 else 0) (dr_pending r0 + 1)
    (dr_failed r0 + if accepted f then 0 else 1)) d1) as (r & d' & -> & Hr).
  exists r, d'. split; [done|]. destruct Hr as [K O P S U].
  assert (Hb1 : backlog (att ++ [id])%list c d1 = delete id (backlog att c d)) by by apply (backlog_step _ _ _ x).
  rewrite Hb1, (map_size_delete_Some _ _ (mk_is_Some _ _ Hb)) in *. simpl in P, S, U.
  assert (size (backlog att c d) ≠ 0%nat) by (intros E%map_size_empty_inv; by rewrite E in Hb).
  split.
  - transitivity d1; [|done]. subst d1. intros j y Hj. simpl.
    destruct (decide (id = j)) as [<-|Hne]; [|by exists y; rewrite lookup_insert_ne].
    rewrite Hx in Hj. simplify_eq. eexists. rewrite lookup_insert_eq. split; [done|].
    apply attempted_same. by apply deliverable_pending in Hd as [? _].
  - destruct O as [t ->]. by exists t.
  - lia.
  - destruct (accepted f); lia.
  - intros Hup. assert (accepted f = true) as Hf by by apply (Hup id). rewrite Hf in *.
    destruct U as (U1 & U2 & U3); [intros j y [_ Hj]%lookup_delete_Some; by apply (Hup j)|].
    assert (backlog att c d' = backlog (att ++ [id])%list c d') as ->;
      [|split_and!; [lia|etransitivity; [done|apply delete_subseteq]|lia]].
    apply map_eq. intros j. apply option_eq. intros y. rewrite !backlog_lookup.
    destruct (decide (id = j)) as [<-|Hne]; [|by rewrite deliverable_snoc]. rewrite deliverable_done.
    split; [|naive_solver]. intros [Hy [Hdy _]%deliverable_pending].
    destruct (K id (attempted_row (clock (length att)) f x)) as (y' & Hy' & _ & _ & _ & _ & Hs);
      [subst d1; simpl; by rewrite lookup_insert_eq|].
    unfold attempted_row in Hs. rewrite Hf in Hs. simplify_eq. by rewrite (Hs eq_refl) in Hdy.
Qed.
End attempts.

(** ** Runs *)

(** Onboarding only ever adds pending rows. *)
Definition enqueues (d d' : db) : Prop :=
  control_evidence_outbox d' = control_evidence_outbox d ∨
  ∃ id r, control_evidence_outbox d !! id = None ∧ ox_delivered r = false ∧ ox_delivered_at r = None ∧
    control_evidence_outbox d' = <[id := r]> (control_evidence_outbox d).
#[export] Instance enqueues_refl : Reflexive enqueues.
Proof. by left. Qed.

Lemma enqueue_cases id r d u d' : enqueue_evidence id r d = Ok (u, d') →
  d' = d ∨ (control_evidence_outbox d !! id = None ∧ d' = set control_evidence_outbox (<[id := r]>) d).
Proof.
  unfold enqueue_evidence. intros H. apply tx_bind_ok in H as (d0 & d1 & [<- ->]%gets_ok & H).
  destruct (any _ _); tx_inv; [by left|right]. unbool.
  split; [by apply eq_None_not_Some|done].
Qed.

Ltac enqueue_step :=
  match goal with H : enqueue_evidence _ _ _ = Ok _ |- _ =>
    apply enqueue_cases in H as [->|[? ->]]; simpl in *; [|right; eexists _, _] end.

Lemma create_enqueues E a id oid i : act_respects enqueues (createCounterpartyOnboarding E a id oid i).
Proof.
  intros; repeat (apply act_throw_if_respects; [apply _|intros []]).
  apply transaction_respects; [apply _|]; intros d ? d' ?. db_inv. enqueue_step; db_inv; [by left|]; split_and!; [eassumption| | |reflexivity]; reflexivity.
Qed.

Lemma recertify_enqueues E a oid id uri due :
  act_respects enqueues (beginCounterpartyRecertification E a oid id uri due).
Proof.
  intros; repeat (apply act_throw_if_respects; [apply _|intros []]).
  apply transaction_respects; [apply _|]; intros d ? d' ?. db_inv. enqueue_step; db_inv; [by left|]; split_and!; [eassumption| | |reflexivity]; reflexivity.
Qed.

Lemma decide_enqueues E a id oid i : act_respects enqueues (decideCounterpartyOnboardingGate E a id oid i).
Proof.
  unfold decideCounterpartyOnboardingGate. apply act_throw_if_respects; [apply _|intros []].
  apply transaction_respects; [apply _|]; intros d ? d' ?. db_inv. enqueue_step; db_inv; [by left|]; split_and!; [eassumption| | |reflexivity]; reflexivity.
Qed.

(** The bodies the catalogue accepted in an iteration. *)
Definition posted (hit : res (option (uuid * outbox_row * fetch_result))) : list json :=
  match hit with
  | Ok (Some (_, r, f)) => if accepted f then [catalog_record r] else []
  | _ => []
  end.

(** A state is the database with the records the catalogue has accepted. *)
Inductive dispatch_step : relation (db * list json) :=
  | ds_create E a id oid i d s : dispatch_step (d, s) ((createCounterpartyOnboarding E a id oid i d).2, s)
  | ds_decide E a id oid i d s : dispatch_step (d, s) ((decideCounterpartyOnboardingGate E a id oid i d).2, s)
  | ds_recertify E a oid id uri due d s :
      dispatch_step (d, s) ((beginCounterpartyRecertification E a oid id uri due d).2, s)
  | ds_deliver catalog E endpoint token att c d s :
      let R := transaction (deliver_next catalog E endpoint token att c) d in
      dispatch_step (d, s) (R.2, s ++ posted R.1)%list
  | ds_stopped catalog E endpoint token att c d s :
      dispatch_step (d, s) (d, s ++ posted (transaction (deliver_next catalog E endpoint token att c) d).1)%list
  | ds_elsewhere d d' s : control_evidence_outbox d' = control_evidence_outbox d → dispatch_step (d, s) (d', s).

Definition delivery_ok (s : list json) (r : outbox_row) : Prop :=
  if ox_delivered r then catalog_record r ∈ s ∧ is_Some (ox_delivered_at r) ∧ ox_last_delivery_error r = None
  else ox_delivered_at r = None.
Definition dispatch_ok (st : db * list json) : Prop :=
  map_Forall (λ _ r, delivery_ok st.2 r) (control_evidence_outbox st.1).

Lemma delivery_ok_grow s s' r : s ⊆ s' → delivery_ok s r → delivery_ok s' r.
Proof. unfold delivery_ok. intros Hs. destruct (ox_delivered r); [|done]. set_solver. Qed.

Lemma enqueues_step d d' s : enqueues d d' →
  (dispatch_ok (d, s) → dispatch_ok (d', s)) ∧ outbox_kept d d' ∧ s ⊆ s.
Proof.
  intros [He|(id & r & Hn & H1 & H2 & He)].
  - unfold dispatch_ok, outbox_kept. simpl. rewrite He. split_and!; [done| |done]. intros j x ?. by exists x.
  - split_and!; [| |done].
    + unfold dispatch_ok. simpl. rewrite He. intros H. apply map_Forall_insert_2; [|done].
      unfold delivery_ok. by rewrite H1.
    + intros j x Hj. exists x. rewrite He, lookup_insert_ne by congruence. done.
Qed.

Lemma deliver_step catalog E endpoint token att c d s :
  let R := transaction (deliver_next catalog E endpoint token att c) d in
  (dispatch_ok (d, s) → dispatch_ok (R.2, s ++ posted R.1)%list) ∧ outbox_kept d R.2.
Proof.
  destruct (deliver_cases catalog endpoint token E att c d) as [[_ ->]|(id & x & Hx & Hd & ->)]; simpl.
  { rewrite app_nil_r. done. }
  apply deliverable_pending in Hd as [Hd _]. set (f := catalog _ _ _). split.
  - intros H. unfold dispatch_ok in *. simpl in *.
    assert (map_Forall (λ _, delivery_ok (s ++ if accepted f then [catalog_record x] else [])%list)
      (control_evidence_outbox d)) as H' by (eapply map_Forall_impl; [done|]; intros ??; apply delivery_ok_grow; set_solver).
    apply map_Forall_insert_2; [|done]. unfold delivery_ok, attempted_row. destruct (accepted f) eqn:Hf; simpl.
    + split_and!; [|done..]. change (catalog_record (mark_delivered E x)) with (catalog_record x). set_solver.
    + rewrite Hd. specialize (H id x Hx). unfold delivery_ok in H. by rewrite Hd in H.
  - intros j y Hj. simpl. destruct (decide (id = j)) as [<-|Hne]; [|by exists y; rewrite lookup_insert_ne].
    simplify_eq. eexists. rewrite lookup_insert_eq. split; [done|]. by apply attempted_same.
Qed.

Lemma dispatch_step_ok st st' : dispatch_step st st' →
  (dispatch_ok st → dispatch_ok st') ∧ outbox_kept st.1 st'.1 ∧ st.2 ⊆ st'.2.
Proof.
  intros [E a id oid i d s|E a id oid i d s|E a oid id uri due d s|catalog E endpoint token att c d s
    |catalog E endpoint token att c d s|d d' s He]; simpl.
  - apply enqueues_step, create_enqueues.
  - apply enqueues_step, decide_enqueues.
  - apply enqueues_step, recertify_enqueues.
  - destruct (deliver_step catalog E endpoint token att c d s) as [H1 H2]. split_and!; [done|done|set_solver].
  - split_and!; [|done|set_solver]. intros H. unfold dispatch_ok in *. simpl in *.
    eapply map_Forall_impl; [done|]. intros ??. apply delivery_ok_grow. set_solver.
  - apply enqueues_step. by left.
Qed.

Lemma dispatch_run_ok st st' : rtc dispatch_step st st' →
  (dispatch_ok st → dispatch_ok st') ∧ outbox_kept st.1 st'.1 ∧ st.2 ⊆ st'.2.
Proof.
  induction 1 as [|st1 st2 st3 H1 _ (I1 & I2 & I3)]; [done|].
  apply dispatch_step_ok in H1 as (H1 & H2 & H3). split_and!; [tauto|by etransitivity|set_solver].
Qed.

(** C22. Delivered means accepted, and evidence is never lost: whatever the order
    of handlers and deliveries, with processes that stop between the post and
    the commit, a row is marked delivered only if the catalogue accepted its
    record, and carries the time and no error; no row ever disappears, changes
    what it says or becomes pending again. *)
Theorem delivered_means_accepted d s id r :
  rtc dispatch_step (empty_db, []) (d, s) → control_evidence_outbox d !! id = Some r →
  delivery_ok s r ∧
  (∀ d' s', rtc dispatch_step (d, s) (d', s') →
    ∃ r', control_evidence_outbox d' !! id = Some r' ∧ same_evidence r r').
Proof.
  intros Hrun Hr. split.
  - apply dispatch_run_ok in Hrun as [Hok _]. apply (Hok (map_Forall_empty _) id r Hr).
  - intros d' s' (_ & Hk & _)%dispatch_run_ok. by apply Hk.
Qed.

(** ** Draining until nothing is left *)

Section draining.
Context (parse_url : string → option url) (process_env : string → option string).
Context (catalog : url → string → json → fetch_result) (limit : option Z) (c : option string).

Definition drain (clock : nat → env) : db → db :=
  λ d, (drainLakehouseControlEvidence parse_url process_env catalog clock limit c d).2.

Lemma bounded_pos l : (1 <= bounded l)%nat.
Proof. unfold bounded. lia. Qed.

(** The catalogue takes everything there is. *)
Definition takes_all (endpoint : url) (token : string) (d : db) : Prop :=
  ∀ id x, backlog [] c d !! id = Some x → accepted (catalog endpoint token (catalog_record x)) = true.

Lemma drain_round endpoint token clock d :
  dispatchConfiguration parse_url process_env = Configured endpoint token → takes_all endpoint token d →
  takes_all endpoint token (drain clock d) ∧
  size (backlog [] c (drain clock d)) = (size (backlog [] c d) - bounded (default 25%Z limit))%nat.
Proof.
  intros Hc Hup. unfold drain, drainLakehouseControlEvidence. rewrite Hc.
  destruct (drain_from_spec catalog endpoint token clock c (bounded (default 25%Z limit)) []
    (mk_drain_result "completed" 0 0 0) d) as (r & d' & -> & [_ _ _ _ U]).
  destruct (U Hup) as (_ & U1 & U2). split; [|done].
  intros id x Hx. apply (Hup id x). by eapply lookup_weaken.
Qed.
End draining.

(** C23. The backlog drains: a drain of a reachable catalogue always returns,
    reports as many attempts as it made, delivered and failed ones adding up,
    and never more than its bound; and when the catalogue accepts what it is
    sent, [k] successive drains leave nothing of a backlog of at most [k] times
    the bound. *)
Theorem backlog_drains parse_url process_env catalog limit c endpoint token clocks d k :
  dispatchConfiguration parse_url process_env = Configured endpoint token →
  (∃ r d', drainLakehouseControlEvidence parse_url process_env catalog (clocks 0%nat) limit c d = (Ok r, d') ∧
    dr_pending r = Z.of_nat (bounded (default 25%Z limit) `min` size (backlog [] c d)) ∧
    dr_delivered r + dr_failed r = dr_pending r ∧ outbox_only d d') ∧
  (takes_all catalog c endpoint token d → (size (backlog [] c d) <= k * bounded (default 25%Z limit))%nat →
   backlog [] c (foldl (λ d i, drain parse_url process_env catalog limit c (clocks i) d) d (seq 0 k)) = ∅).
Proof.
  intros Hc. split.
  - unfold drainLakehouseControlEvidence. rewrite Hc.
    destruct (drain_from_spec catalog endpoint token (clocks 0%nat) c (bounded (default 25%Z limit)) []
      (mk_drain_result "completed" 0 0 0) d) as (r & d' & -> & [_ O P S _]).
    simpl in P, S. exists r, d'. split_and!; [done|lia|lia|done].
  - generalize 0%nat as i. revert d. induction k as [|k IH]; intros d i Hup Hs; simpl.
    + apply map_size_empty_inv. lia.
    + destruct (drain_round parse_url process_env catalog limit c endpoint token (clocks i) d Hc Hup) as [H1 H2].
      apply IH; [done|lia].
Qed.

(** ** A worked run *)

Definition lake_parse (s : string) : option url :=
  if startsWith s "https://" then Some (mk_url "https:" "" "" "lake.example" s) else None.
Definition lake_env (k : string) : option string :=
  if bool_decide (k = "UMOJA_LAKEHOUSE_CATALOG_URL") then Some "https://lake.example/"
  else if bool_decide (k = "UMOJA_LAKEHOUSE_POSTGRESQL_CONTROL_TOKEN") then Some "token" else None.
Definition lake_endpoint : url := mk_url "https:" "" "" "lake.example" "https://lake.example/".
Definition lake_up (_ : url) (_ : string) (_ : json) : fetch_result := Responded 202.
Definition lake1 := transaction (deliver_next lake_up ob_env lake_endpoint "token" [] None) ob2.

Lemma lake_run : rtc dispatch_step (empty_db, []) (lake1.2, posted lake1.1).
Proof.
  eapply rtc_r; [|apply (ds_deliver lake_up ob_env lake_endpoint "token" [] None ob2 [])].
  eapply rtc_r, ds_decide. eapply rtc_r, ds_create. by eapply rtc_once, ds_elsewhere.
Qed.

(** Witness: a record of an onboarding is accepted. *)
Lemma delivered_means_accepted_witness :
  ∃ id r, control_evidence_outbox lake1.2 !! id = Some r ∧ ox_delivered r = true ∧ delivery_ok (posted lake1.1) r.
Proof.
  exists 41%positive. eexists. split; [vm_compute; reflexivity|]. split; [reflexivity|].
  refine (proj1 (delivered_means_accepted lake1.2 (posted lake1.1) 41 _ lake_run _)). vm_compute. reflexivity.
Defined.

(** Witness: one record at a time, two drains empty a backlog of two. *)
Lemma backlog_drains_witness :
  size (backlog [] None ob2) = 2%nat ∧
  backlog [] None (foldl (λ d i, drain lake_parse lake_env lake_up (Some 1) None (λ _, ob_env) d) ob2 (seq 0 2)) = ∅.
Proof.
  split; [vm_compute; reflexivity|].
  refine (proj2 (backlog_drains lake_parse lake_env lake_up (Some 1) None lake_endpoint "token" (λ _ _, ob_env) ob2 2 _) _ _);
    [reflexivity|intros id x _; reflexivity|]. vm_compute. lia.
Defined.
