(* ===== verification/Zod.v ===== *)
(** * Schemas of the service contracts

    The contracts of the control plane are written in zod, a library the server
    calls. [zod] is the syntax of the schemas the source builds; [conforms] says
    what the library's documentation says a schema admits; the parser itself is
    an interface with the three facts the server relies on. [reference_zod] is a
    parser with those facts. *)

From S2P Require Import Prelude Js.

Local Open Scope string_scope.
Local Open Scope Z_scope.

(** The constructors the source uses; the checks of a string ([min(1)],
    [regex], [datetime]) are one predicate. Objects are all [strict()]. *)
Inductive zod : Type :=
  | z_string (ok : string → bool)
  | z_int (low : option Z)
  | z_boolean
  | z_literal (s : string)
  | z_false
  | z_enum (xs : list string)
  | z_nullable (a : zod)
  | z_unknown
  | z_array (least : nat) (a : zod)
  | z_object (fields : list (string * zod)).

Definition MAX_SAFE : Z := 2 ^ 53 - 1.
(** [z.number().int()] admits safe integers only. *)
Definition safe (n : Z) : bool := (- MAX_SAFE <=? n) && (n <=? MAX_SAFE).

Definition keys (kvs : list (string * json)) : list string := kvs.*1.

(** A JavaScript object has every key once. A strict object admits no key outside
    its shape; every key of the shape is there, except that an [unknown] one may be missing. With [shaped] the keys
    come in the order of the shape and all of them are there. *)
Fixpoint conforms (shaped : bool) (s : zod) (v : json) {struct s} : bool :=
  match s with
  | z_string ok => match v with JStr x => ok x | _ => false end
  | z_int low => match v with JNum n => safe n && match low with Some l => l <=? n | None => true end | _ => false end
  | z_boolean => match v with JBool _ => true | _ => false end
  | z_literal x => match v with JStr y => bool_decide (x = y) | _ => false end
  | z_false => match v with JBool b => negb b | _ => false end
  | z_enum xs => match v with JStr x => includes xs x | _ => false end
  | z_nullable a => match v with JNull => true | _ => conforms shaped a v end
  | z_unknown => true
  | z_array least a =>
      match v with
      | JArr xs => (least <=? length xs)%nat && forallb (conforms shaped a) xs
      | _ => false
      end
  | z_object fields =>
      match v with
      | JObj kvs =>
          bool_decide (NoDup (keys kvs)) &&
          (if shaped then bool_decide (keys kvs = fields.*1) else forallb (includes fields.*1) (keys kvs)) &&
          (fix each (fs : list (string * zod)) : bool :=
             match fs with
             | [] => true
             | (k, a) :: fs =>
                 match record_get kvs k with
                 | Some x => conforms shaped a x
                 | None => match a with z_unknown => negb shaped | _ => false end
                 end && each fs
             end) fields
      | _ => false
      end
  end.

(** One field of an object that conforms. *)
Definition field_ok (shaped : bool) (kvs : list (string * json)) (f : string * zod) : bool :=
  match record_get kvs f.1 with
  | Some x => conforms shaped f.2 x
  | None => match f.2 with z_unknown => negb shaped | _ => false end
  end.
Lemma conforms_object shaped fields v : conforms shaped (z_object fields) v = true ↔
  ∃ kvs, v = JObj kvs ∧ NoDup (keys kvs) ∧
    (if shaped then keys kvs = fields.*1 else Forall (λ k, k ∈ fields.*1) (keys kvs)) ∧
    Forall (λ f, field_ok shaped kvs f = true) fields.
Proof.
  assert (∀ kvs fs, (fix each (fs : list (string * zod)) : bool := match fs with
    | [] => true | (k, a) :: fs => match record_get kvs k with Some x => conforms shaped a x
      | None => match a with z_unknown => negb shaped | _ => false end end && each fs end) fs = true ↔
    Forall (λ f, field_ok shaped kvs f = true) fs) as Hall.
  { intros kvs fs. induction fs as [|[k a] fs IH]; [done|]. rewrite Forall_cons, <-IH, andb_true_iff. done. }
  simpl. split.
  - destruct v as [| | | | | |kvs]; try done. intros [[H0%bool_decide_eq_true H1]%andb_true_iff H2]%andb_true_iff. exists kvs. rewrite Hall in H2.
    split_and!; [done|done| |done]. destruct shaped; [by apply bool_decide_eq_true in H1|].
    rewrite forallb_forall in H1. apply Forall_forall. intros k Hk. by apply includes_true, H1, list_elem_of_In.
  - intros (kvs & -> & H0 & H1 & H2). rewrite !andb_true_iff, Hall. split; [|done].
    split; [by apply bool_decide_eq_true|].
    destruct shaped; [by apply bool_decide_eq_true|].
    apply forallb_forall. intros k Hk%list_elem_of_In. rewrite Forall_forall in H1. by apply includes_true, H1.
Qed.

(** ** The parser *)

(** [schema.parse(v)]: [None] stands for the [ZodError] it throws. A value it
    returns conforms; so did its input; and a conforming input whose keys are in
    order comes back as it is. [zod_datetime offset] is the library's test of an
    ISO timestamp, with or without an offset. *)
Class ZodParser : Type := {
  zod_datetime : bool → string → bool;
  zod_parse : zod → json → option json;
  zod_result s v w : zod_parse s v = Some w → conforms false s w = true;
  zod_input s v w : zod_parse s v = Some w → conforms false s v = true;
  zod_accepts s v : conforms true s v = true → zod_parse s v = Some v
}.

(** A value in the order of its shape conforms. *)
Lemma zod_ind' (P : zod → Prop) :
  (∀ ok, P (z_string ok)) → (∀ l, P (z_int l)) → P z_boolean → (∀ s, P (z_literal s)) → P z_false →
  (∀ xs, P (z_enum xs)) → (∀ a, P a → P (z_nullable a)) → P z_unknown → (∀ n a, P a → P (z_array n a)) →
  (∀ fs, Forall (λ f, P f.2) fs → P (z_object fs)) → ∀ s, P s.
Proof.
  intros H1 H2 H3 H4 H5 H6 H7 H8 H9 H10. fix go 1. intros [ok|l| |s| |xs|a| |n a|fs].
  1-6: clear go; auto.
  - apply H7, go.
  - exact H8.
  - apply H9, go.
  - apply H10. induction fs as [|[k a] fs IH]; constructor; [apply go|apply IH].
Qed.

Lemma shaped_conforms s v : conforms true s v = true → conforms false s v = true.
Proof.
  revert v. induction s as [| | | | | |a IH| |n a IH|fs IH] using zod_ind'; intros v; try done.
  - destruct v; simpl; auto.
  - destruct v as [| | | | |xs|]; simpl; try done. rewrite !andb_true_iff. intros [-> H]. split; [done|].
    rewrite forallb_forall in *. auto.
  - intros (kvs & -> & Hn & Hk & Hf)%conforms_object. apply conforms_object. exists kvs.
    split_and!; [done|done|rewrite Hk; by apply Forall_forall|].
    rewrite !Forall_forall in *. intros [k a] Hin. specialize (IH _ Hin). specialize (Hf _ Hin).
    unfold field_ok in *. simpl in *. destruct (record_get kvs k); [auto|by destruct a].
Qed.

Definition reference_zod (datetime : bool → string → bool) : ZodParser.
Proof.
  refine {| zod_datetime := datetime; zod_parse s v := if conforms false s v then Some v else None |}.
  - intros s v w. destruct (conforms false s v) eqn:E; [|done]. by intros [= <-].
  - intros s v w. by destruct (conforms false s v).
  - intros s v H%shaped_conforms. by rewrite H.
Defined.
