(* ===== verification/Contracts.v ===== *)
(** * Contracts of the services behind the control plane

    src/apps/control-plane/server/contracts/services.ts and contracts/events.ts:
    what the Go payment engine, the Rust risk core and ledger gateway and the
    Python reporting service may answer, and the checks that go beyond the
    schemas. *)

From S2P Require Import Prelude Js Zod.

Local Open Scope string_scope.
Local Open Scope Z_scope.

#[export] Instance res_ret : MRet res := λ A a, Ok a.
#[export] Instance res_bind : MBind res := λ A B k m, match m with Ok a => k a | Throw e => Throw e end.
Definition check (bad : bool) (message : string) : res unit := if bad then Throw (JsError message) else Ok tt.

(** ** No execution authority *)

Definition FORBIDDEN_EXECUTION_KEYS : list string :=
  ["execute"; "execution_instruction"; "settle"; "settlement_instruction"; "submit"; "submission_instruction";
   "file_report"; "transfer"; "transfer_instruction"; "provider_credential"; "credential"; "api_key"].

Definition forbidden (key : string) : bool := includes FORBIDDEN_EXECUTION_KEYS (toLowerCase key).

Definition authority_error (path key : string) : error :=
  JsError ("service contract violation at " +:+ path +:+ "." +:+ key +:+
    ": service outputs must not carry execution authority or credentials").

Fixpoint assertNoExecutionAuthority (value : json) (path : string) {struct value} : res unit :=
  match value with
  | JArr xs =>
      (fix entries (i : Z) (l : list json) : res unit :=
         match l with
         | [] => Ok tt
         | x :: l => _ ← assertNoExecutionAuthority x (path +:+ "[" +:+ pretty i +:+ "]"); entries (i + 1) l
         end) 0 xs
  | JObj kvs =>
      (fix entries (l : list (string * json)) : res unit :=
         match l with
         | [] => Ok tt
         | (key, nested) :: l =>
             if forbidden key then Throw (authority_error path key)
             else _ ← assertNoExecutionAuthority nested (path +:+ "." +:+ key); entries l
         end) kvs
  | _ => Ok tt
  end.

(** ** Typed envelopes

    An envelope is the record its schema infers; the literals of a schema
    (service, version, type of envelope) have one value each and are written by
    [encode]. *)

Definition field (v : json) (k : string) : option json :=
  match v with JObj kvs => record_get kvs k | _ => None end.
Definition as_string (v : json) : option string := match v with JStr s => Some s | _ => None end.
Definition as_int (v : json) : option Z := match v with JNum n => Some n | _ => None end.
Definition as_bool (v : json) : option bool := match v with JBool b => Some b | _ => None end.
Definition as_list {A} (f : json → option A) (v : json) : option (list A) :=
  match v with JArr xs => mapM f xs | _ => None end.
Definition as_nullable {A} (f : json → option A) (v : json) : option (option A) :=
  match v with JNull => Some None | _ => Some <$> f v end.
Definition get {A} (f : json → option A) (k : string) (v : json) : option A := field v k ≫= f.

Class Contract (T : Type) : Type := {
  schema : zod;
  encode : T → json;
  decode : json → option T
}.

(** What a schema promises: everything it admits is of the type, and reads
    back. *)
Class ContractLaws (T : Type) `{Contract T} : Prop := {
  decode_encode (e : T) : decode (encode e) = Some e;
  typed v : conforms false schema v = true → ∃ e : T, decode v = Some e ∧ conforms true schema (encode e) = true
}.

Definition zod_error : error := JsError "ZodError".

(** [assertNoExecutionAuthority(input); const envelope = schema.parse(input)]. *)
Definition read_envelope {T} `{Contract T} `{ZodParser} (input : json) : res T :=
  _ ← assertNoExecutionAuthority input "$";
  match zod_parse schema input ≫= decode with Some e => Ok e | None => Throw zod_error end.

(** The checks that follow, then [return envelope]. *)
Definition parse_envelope {T} `{Contract T} `{ZodParser} (rules : T → res unit) (input : json) : res T :=
  e ← read_envelope input; _ ← rules e; Ok e.

Definition nonempty (s : string) : bool := 1 <=? js_length s.
Definition any_string (_ : string) : bool := true.
Definition corridorSchema : zod := z_enum ["NIGERIA_NGN"; "KENYA_KES"; "SOUTH_AFRICA_ZAR"].

(** [/^\d{4}-\d{2}-\d{2}$/]. *)
Definition is_iso_date (s : string) : bool :=
  match String.list_ascii_of_string s with
  | [a; b; c; d; h1; e; f; h2; g; h] =>
      forallb is_digit [a; b; c; d; e; f; g; h] && bool_decide (h1 = "-"%char) && bool_decide (h2 = "-"%char)
  | _ => false
  end.

Definition provenance (service envelope_type : string) : list (string * zod) :=
  [("service", z_literal service); ("contract_version", z_literal "v1"); ("envelope_type", z_literal envelope_type)].
Definition provenance_json (service envelope_type : string) : list (string * json) :=
  [("service", JStr service); ("contract_version", JStr "v1"); ("envelope_type", JStr envelope_type)].

(** ** The Go payment engine *)

Module GoAuditTrail.
Definition statuses : list string :=
  ["DRAFT"; "PENDING_POLICY_DECISION"; "BLOCKED"; "MANUAL_REVIEW"; "APPROVED"; "EXECUTING"; "COMPLETED"; "FAILED";
   "CANCELLED"].
Record event : Type := mk_event {
  sequence : Z;
  event_order_id : string;
  corridor : string;
  from_status : string;
  to_status : string;
  reason : string;
  actor_role : string;
  occurred_at : string;
  previous_hash : string;
  hash : string
}.
Definition goAuditEventSchema `{ZodParser} : zod :=
  z_object [("sequence", z_int (Some 1)); ("order_id", z_string nonempty); ("corridor", corridorSchema);
    ("from_status", z_enum statuses); ("to_status", z_enum statuses); ("reason", z_string any_string);
    ("actor_role", z_string nonempty); ("occurred_at", z_string (zod_datetime true));
    ("previous_hash", z_string (λ s, bool_decide (s = "") || is_sha256_hex s)); ("hash", z_string is_sha256_hex)].
#[global] Instance event_contract `{ZodParser} : Contract event := {
  schema := goAuditEventSchema;
  encode e := JObj [("sequence", JNum (sequence e)); ("order_id", JStr (event_order_id e));
    ("corridor", JStr (corridor e)); ("from_status", JStr (from_status e)); ("to_status", JStr (to_status e));
    ("reason", JStr (reason e)); ("actor_role", JStr (actor_role e)); ("occurred_at", JStr (occurred_at e));
    ("previous_hash", JStr (previous_hash e)); ("hash", JStr (hash e))];
  decode v :=
    n ← get as_int "sequence" v; o ← get as_string "order_id" v; c ← get as_string "corridor" v;
    f ← get as_string "from_status" v; t ← get as_string "to_status" v; r ← get as_string "reason" v;
    a ← get as_string "actor_role" v; w ← get as_string "occurred_at" v; p ← get as_string "previous_hash" v;
    h ← get as_string "hash" v; Some (mk_event n o c f t r a w p h)
}.

Record envelope : Type := mk_envelope {
  order_id : string;
  events : list event
}.
Definition service := "umojaflowos-payment-engine".
Definition envelope_type := "umojaflowos.payment.audit_trail.v1".
Definition goAuditTrailEnvelopeSchema `{ZodParser} : zod :=
  z_object (provenance service envelope_type ++
    [("order_id", z_string nonempty); ("events", z_array 0 goAuditEventSchema)]).
#[global] Instance envelope_contract `{ZodParser} : Contract envelope := {
  schema := goAuditTrailEnvelopeSchema;
  encode e := JObj (provenance_json service envelope_type ++
    [("order_id", JStr (order_id e)); ("events", JArr (encode <$> events e))]);
  decode v := o ← get as_string "order_id" v; es ← get (as_list decode) "events" v; Some (mk_envelope o es)
}.

(** The body of [envelope.events.forEach], from an index on. *)
Fixpoint check_chain (order : string) (index : Z) (expectedPrevious : string) (l : list event) : res unit :=
  match l with
  | [] => Ok tt
  | e :: l =>
      _ ← check (negb (sequence e =? index + 1))
        ("audit trail sequence gap at index " +:+ pretty index +:+ ": expected " +:+ pretty (index + 1) +:+
         ", received " +:+ pretty (sequence e));
      _ ← check (negb (bool_decide (event_order_id e = order))) "audit trail contains an event for a different order";
      _ ← check (negb (bool_decide (previous_hash e = expectedPrevious)))
        ("audit trail chain broken at sequence " +:+ pretty (sequence e) +:+
         ": previous hash does not match the preceding event");
      check_chain order (index + 1) (hash e) l
  end.
Definition rules (e : envelope) : res unit := check_chain (order_id e) 0 "" (events e).

Definition parseGoAuditTrailEnvelope `{ZodParser} (input : json) : res envelope := parse_envelope rules input.
End GoAuditTrail.

(** ** The Rust risk core *)

Module RustMonitoring.
Record finding : Type := mk_finding {
  rule_id : string;
  triggered : bool;
  reason_code : string
}.
Definition rustMonitoringFindingSchema : zod :=
  z_object [("rule_id", z_string nonempty); ("triggered", z_boolean); ("reason_code", z_string nonempty)].
#[global] Instance finding_contract : Contract finding := {
  schema := rustMonitoringFindingSchema;
  encode f := JObj [("rule_id", JStr (rule_id f)); ("triggered", JBool (triggered f));
    ("reason_code", JStr (reason_code f))];
  decode v := r ← get as_string "rule_id" v; t ← get as_bool "triggered" v; c ← get as_string "reason_code" v;
    Some (mk_finding r t c)
}.
Record result : Type := mk_result {
  decision : string;
  findings : list finding
}.
Definition service := "umojaflowos-risk-compliance-core".
Definition envelope_type := "umojaflowos.risk.monitoring_result.v1".
Definition rustMonitoringResultSchema : zod :=
  z_object (provenance service envelope_type ++
    [("decision", z_enum ["ALLOW"; "MANUAL_REVIEW"; "BLOCK"]); ("findings", z_array 1 rustMonitoringFindingSchema)]).
#[global] Instance result_contract : Contract result := {
  schema := rustMonitoringResultSchema;
  encode e := JObj (provenance_json service envelope_type ++
    [("decision", JStr (decision e)); ("findings", JArr (encode <$> findings e))]);
  decode v := d ← get as_string "decision" v; fs ← get (as_list decode) "findings" v; Some (mk_result d fs)
}.
Definition unavailable (f : finding) : bool := triggered f && startsWith (reason_code f) "INPUT_UNAVAILABLE".
Definition rules (e : result) : res unit :=
  let missing := List.filter unavailable (findings e) in
  check ((0 <? length missing)%nat && negb (bool_decide (decision e = "BLOCK")))
    ("monitoring result claims " +:+ decision e +:+ " while reporting unavailable inputs (" +:+
     String.concat ", " (reason_code <$> missing) +:+ "); missing evidence must fail closed").
Definition parseRustMonitoringResult `{ZodParser} (input : json) : res result := parse_envelope rules input.
End RustMonitoring.

Module RustCounterpartyRisk.
Record assessment : Type := mk_assessment {
  band : string;
  reason_codes : list string;
  review_required : bool
}.
Definition service := "umojaflowos-risk-compliance-core".
Definition envelope_type := "umojaflowos.risk.counterparty_assessment.v1".
Definition rustCounterpartyRiskSchema : zod :=
  z_object (provenance service envelope_type ++
    [("band", z_enum ["UNDETERMINED"; "LOW"; "MEDIUM"; "HIGH"; "PROHIBITED"]);
     ("reason_codes", z_array 0 (z_string nonempty)); ("review_required", z_boolean)]).
#[global] Instance assessment_contract : Contract assessment := {
  schema := rustCounterpartyRiskSchema;
  encode e := JObj (provenance_json service envelope_type ++
    [("band", JStr (band e)); ("reason_codes", JArr (JStr <$> reason_codes e));
     ("review_required", JBool (review_required e))]);
  decode v := b ← get as_string "band" v; cs ← get (as_list as_string) "reason_codes" v;
    r ← get as_bool "review_required" v; Some (mk_assessment b cs r)
}.
Definition rules (e : assessment) : res unit :=
  _ ← check (bool_decide (band e = "UNDETERMINED") && negb (review_required e))
    "an undetermined risk band must require human review";
  _ ← check (bool_decide (band e = "PROHIBITED") && negb (review_required e))
    "a prohibited risk band must require human review";
  check (bool_decide (band e = "UNDETERMINED") && (length (reason_codes e) =? 0)%nat)
    "an undetermined risk band must state which evidence was missing".
Definition parseRustCounterpartyRisk `{ZodParser} (input : json) : res assessment := parse_envelope rules input.
End RustCounterpartyRisk.

(** ** The Python reporting service *)

Module PythonReport.
Record totals : Type := mk_totals {
  record_count : Z;
  inbound_total : string;
  outbound_total : string;
  net_total : string
}.
Definition totalsSchema : zod :=
  z_object [("record_count", z_int (Some 0)); ("inbound_total", z_string any_string);
    ("outbound_total", z_string any_string); ("net_total", z_string any_string)].
#[global] Instance totals_contract : Contract totals := {
  schema := totalsSchema;
  encode t := JObj [("record_count", JNum (record_count t)); ("inbound_total", JStr (inbound_total t));
    ("outbound_total", JStr (outbound_total t)); ("net_total", JStr (net_total t))];
  decode v := n ← get as_int "record_count" v; i ← get as_string "inbound_total" v;
    o ← get as_string "outbound_total" v; t ← get as_string "net_total" v; Some (mk_totals n i o t)
}.
Record report : Type := mk_report {
  regulator : string;
  corridor : string;
  settlement_currency : string;
  report_type : string;
  period_start : string;
  period_end : string;
  regulated_entity_id : string;
  generated_at : string;
  report_totals : totals;
  artifact_digest : string
}.
Definition service := "umojaflowos-reporting-analytics".
Definition envelope_type := "umojaflowos.reporting.assembled_report.v1".
Definition pythonAssembledReportSchema `{ZodParser} : zod :=
  z_object (provenance service envelope_type ++
    [("regulator", z_enum ["CBN"; "CBK"; "SARB"]); ("corridor", corridorSchema);
     ("settlement_currency", z_enum ["NGN"; "KES"; "ZAR"]); ("report_type", z_string nonempty);
     ("period_start", z_string is_iso_date); ("period_end", z_string is_iso_date);
     ("regulated_entity_id", z_string nonempty); ("generated_at", z_string (zod_datetime true));
     ("totals", totalsSchema); ("artifact_digest", z_string is_sha256_hex);
     ("submission_state", z_literal "assembled_pending_review")]).
#[global] Instance report_contract `{ZodParser} : Contract report := {
  schema := pythonAssembledReportSchema;
  encode e := JObj (provenance_json service envelope_type ++
    [("regulator", JStr (regulator e)); ("corridor", JStr (corridor e));
     ("settlement_currency", JStr (settlement_currency e)); ("report_type", JStr (report_type e));
     ("period_start", JStr (period_start e)); ("period_end", JStr (period_end e));
     ("regulated_entity_id", JStr (regulated_entity_id e)); ("generated_at", JStr (generated_at e));
     ("totals", encode (report_totals e)); ("artifact_digest", JStr (artifact_digest e));
     ("submission_state", JStr "assembled_pending_review")]);
  decode v := r ← get as_string "regulator" v; c ← get as_string "corridor" v;
    s ← get as_string "settlement_currency" v; t ← get as_string "report_type" v;
    p ← get as_string "period_start" v; q ← get as_string "period_end" v;
    i ← get as_string "regulated_entity_id" v; g ← get as_string "generated_at" v;
    w ← get decode "totals" v; a ← get as_string "artifact_digest" v; Some (mk_report r c s t p q i g w a)
}.
Definition expected : list (string * string) :=
  [("CBN", "NIGERIA_NGN"); ("CBK", "KENYA_KES"); ("SARB", "SOUTH_AFRICA_ZAR")].
Definition rules (e : report) : res unit :=
  _ ← check (String.ltb (period_end e) (period_start e)) "assembled report period end precedes its start";
  check (negb (bool_decide (record_get expected (regulator e) = Some (corridor e))))
    ("regulator " +:+ regulator e +:+ " does not supervise corridor " +:+ corridor e).
Definition parsePythonAssembledReport `{ZodParser} (input : json) : res report := parse_envelope rules input.
End PythonReport.

Module PythonExposure.
Record line : Type := mk_line {
  corridor : string;
  asset : string;
  available_amount : string;
  reserved_amount : string;
  total_amount : string;
  usd_equivalent : string;
  peg_deviation_basis_points : Z;
  position_count : Z;
  source_references : list string
}.
Definition exposureLineSchema : zod :=
  z_object [("corridor", corridorSchema); ("asset", z_enum ["USDC"; "USDT"]);
    ("available_amount", z_string any_string); ("reserved_amount", z_string any_string);
    ("total_amount", z_string any_string); ("usd_equivalent", z_string any_string);
    ("peg_deviation_basis_points", z_int None); ("position_count", z_int (Some 1));
    ("source_references", z_array 1 (z_string nonempty))].
#[global] Instance line_contract : Contract line := {
  schema := exposureLineSchema;
  encode e := JObj [("corridor", JStr (corridor e)); ("asset", JStr (asset e));
    ("available_amount", JStr (available_amount e)); ("reserved_amount", JStr (reserved_amount e));
    ("total_amount", JStr (total_amount e)); ("usd_equivalent", JStr (usd_equivalent e));
    ("peg_deviation_basis_points", JNum (peg_deviation_basis_points e)); ("position_count", JNum (position_count e));
    ("source_references", JArr (JStr <$> source_references e))];
  decode v := c ← get as_string "corridor" v; a ← get as_string "asset" v; p ← get as_string "available_amount" v;
    q ← get as_string "reserved_amount" v; r ← get as_string "total_amount" v; u ← get as_string "usd_equivalent" v;
    g ← get as_int "peg_deviation_basis_points" v; n ← get as_int "position_count" v;
    s ← get (as_list as_string) "source_references" v; Some (mk_line c a p q r u g n s)
}.
Record exposure : Type := mk_exposure {
  generated_at : string;
  total_usd_equivalent : string;
  corridor_exposures : list line;
  observations : list string
}.
Definition service := "umojaflowos-reporting-analytics".
Definition envelope_type := "umojaflowos.reporting.stablecoin_exposure.v1".
Definition pythonStablecoinExposureSchema `{ZodParser} : zod :=
  z_object (provenance service envelope_type ++
    [("generated_at", z_string (zod_datetime true)); ("total_usd_equivalent", z_string any_string);
     ("corridor_exposures", z_array 1 exposureLineSchema); ("observations", z_array 0 (z_string nonempty))]).
#[global] Instance exposure_contract `{ZodParser} : Contract exposure := {
  schema := pythonStablecoinExposureSchema;
  encode e := JObj (provenance_json service envelope_type ++
    [("generated_at", JStr (generated_at e)); ("total_usd_equivalent", JStr (total_usd_equivalent e));
     ("corridor_exposures", JArr (encode <$> corridor_exposures e)); ("observations", JArr (JStr <$> observations e))]);
  decode v := g ← get as_string "generated_at" v; t ← get as_string "total_usd_equivalent" v;
    ls ← get (as_list decode) "corridor_exposures" v; os ← get (as_list as_string) "observations" v;
    Some (mk_exposure g t ls os)
}.
Fixpoint check_sources (l : list line) : res unit :=
  match l with
  | [] => Ok tt
  | e :: l =>
      _ ← check (length (source_references e) <? 1)%nat
        ("exposure for " +:+ corridor e +:+ "/" +:+ asset e +:+ " carries no source reference");
      check_sources l
  end.
Definition rules (e : exposure) : res unit := check_sources (corridor_exposures e).
Definition parsePythonStablecoinExposure `{ZodParser} (input : json) : res exposure := parse_envelope rules input.
End PythonExposure.

(** ** The Rust ledger gateway *)

Module LedgerValidation.
Record posting : Type := mk_posting {
  account_id : string;
  currency : string;
  debit_minor : Z;
  credit_minor : Z
}.
Definition rustLedgerPostingSchema : zod :=
  z_object [("account_id", z_string nonempty); ("currency", z_string nonempty);
    ("debit_minor", z_int (Some 0)); ("credit_minor", z_int (Some 0))].
#[global] Instance posting_contract : Contract posting := {
  schema := rustLedgerPostingSchema;
  encode p := JObj [("account_id", JStr (account_id p)); ("currency", JStr (currency p));
    ("debit_minor", JNum (debit_minor p)); ("credit_minor", JNum (credit_minor p))];
  decode v := a ← get as_string "account_id" v; c ← get as_string "currency" v; d ← get as_int "debit_minor" v;
    k ← get as_int "credit_minor" v; Some (mk_posting a c d k)
}.
Record imbalance : Type := mk_imbalance {
  imbalance_currency : string;
  net_minor : Z
}.
Definition imbalanceSchema : zod :=
  z_object [("currency", z_string nonempty); ("net_minor", z_int None)].
#[global] Instance imbalance_contract : Contract imbalance := {
  schema := imbalanceSchema;
  encode i := JObj [("currency", JStr (imbalance_currency i)); ("net_minor", JNum (net_minor i))];
  decode v := c ← get as_string "currency" v; n ← get as_int "net_minor" v; Some (mk_imbalance c n)
}.
Record validation : Type := mk_validation {
  postings : list posting;
  balanced : bool;
  reported : option imbalance
}.
Definition service := "umojaflowos-ledger-gateway".
Definition envelope_type := "umojaflowos.ledger.posting_validation.v1".
Definition rustLedgerValidationSchema : zod :=
  z_object (provenance service envelope_type ++
    [("postings", z_array 1 rustLedgerPostingSchema); ("balanced", z_boolean);
     ("imbalance", z_nullable imbalanceSchema)]).
#[global] Instance validation_contract : Contract validation := {
  schema := rustLedgerValidationSchema;
  encode e := JObj (provenance_json service envelope_type ++
    [("postings", JArr (encode <$> postings e)); ("balanced", JBool (balanced e));
     ("imbalance", JOpt encode (reported e))]);
  decode v := ps ← get (as_list decode) "postings" v; b ← get as_bool "balanced" v;
    i ← get (as_nullable decode) "imbalance" v; Some (mk_validation ps b i)
}.

(** [netByCurrency], a [Map]: entries in the order of insertion. *)
Fixpoint map_set (m : list (string * Z)) (k : string) (v : Z) : list (string * Z) :=
  match m with
  | [] => [(k, v)]
  | (k', v') :: m => if bool_decide (k = k') then (k', v) :: m else (k', v') :: map_set m k v
  end.
Definition add_posting (m : list (string * Z)) (p : posting) : list (string * Z) :=
  let current := default 0 (record_get m (currency p)) in
  map_set m (currency p) (js_sub (js_add current (debit_minor p)) (credit_minor p)).
Definition netByCurrency (ps : list posting) : list (string * Z) := foldl add_posting [] ps.
Definition imbalances (ps : list posting) : list (string * Z) :=
  List.filter (λ x, negb (x.2 =? 0)) (netByCurrency ps).
Definition derivedBalanced (ps : list posting) : bool := (length (imbalances ps) =? 0)%nat.

Definition bool_text (b : bool) : string := if b then "true" else "false".
Definition rules (e : validation) : res unit :=
  let derived := derivedBalanced (postings e) in
  _ ← check (negb (Bool.eqb derived (balanced e)))
    ("ledger validation claims balanced=" +:+ bool_text (balanced e) +:+
     " but the supplied postings derive balanced=" +:+ bool_text derived);
  _ ← check (negb (balanced e) && bool_decide (reported e = None))
    "an unbalanced posting set must name the offending currency and net amount";
  _ ← check (balanced e && negb (bool_decide (reported e = None)))
    "a balanced posting set must not report an imbalance";
  match reported e with
  | None => Ok tt
  | Some i =>
      check (negb (bool_decide (record_get (netByCurrency (postings e)) (imbalance_currency i) = Some (net_minor i))))
        ("reported imbalance for " +:+ imbalance_currency i +:+ " does not match the supplied postings")
  end.
Definition parseRustLedgerValidation `{ZodParser} (input : json) : res validation := parse_envelope rules input.
End LedgerValidation.

Module LedgerReconciliation.
(** [confirmed_fact] and [projection] differ in the name of their time. *)
Record transfer : Type := mk_transfer {
  transfer_id : Z;
  correlation_id : string;
  currency : string;
  amount_minor : Z;
  at_time : string
}.
Definition transfer_schema `{ZodParser} (time : string) : zod :=
  z_object [("transfer_id", z_int (Some 1)); ("correlation_id", z_string nonempty); ("currency", z_string nonempty);
    ("amount_minor", z_int (Some 1)); (time, z_string (zod_datetime true))].
Definition encode_transfer (time : string) (t : transfer) : json :=
  JObj [("transfer_id", JNum (transfer_id t)); ("correlation_id", JStr (correlation_id t));
    ("currency", JStr (currency t)); ("amount_minor", JNum (amount_minor t)); (time, JStr (at_time t))].
Definition decode_transfer (time : string) (v : json) : option transfer :=
  i ← get as_int "transfer_id" v; c ← get as_string "correlation_id" v; k ← get as_string "currency" v;
  a ← get as_int "amount_minor" v; t ← get as_string time v; Some (mk_transfer i c k a t).
Record reconciliation : Type := mk_reconciliation {
  confirmed_fact : transfer;
  projection : transfer;
  reconciled : bool;
  discrepancy_reason : option string
}.
Definition service := "umojaflowos-ledger-gateway".
Definition envelope_type := "umojaflowos.ledger.projection_reconciliation.v1".
Definition rustLedgerReconciliationSchema `{ZodParser} : zod :=
  z_object (provenance service envelope_type ++
    [("confirmed_fact", transfer_schema "posted_at"); ("projection", transfer_schema "projected_at");
     ("reconciled", z_boolean);
     ("discrepancy_reason", z_nullable (z_enum ["INCOMPLETE_CONFIRMED_FACT"; "INCOMPLETE_PROJECTION"; "MISMATCH"]))]).
#[global] Instance reconciliation_contract `{ZodParser} : Contract reconciliation := {
  schema := rustLedgerReconciliationSchema;
  encode e := JObj (provenance_json service envelope_type ++
    [("confirmed_fact", encode_transfer "posted_at" (confirmed_fact e));
     ("projection", encode_transfer "projected_at" (projection e)); ("reconciled", JBool (reconciled e));
     ("discrepancy_reason", JOpt JStr (discrepancy_reason e))]);
  decode v := f ← get (decode_transfer "posted_at") "confirmed_fact" v;
    p ← get (decode_transfer "projected_at") "projection" v; r ← get as_bool "reconciled" v;
    d ← get (as_nullable as_string) "discrepancy_reason" v; Some (mk_reconciliation f p r d)
}.
Definition agrees (e : reconciliation) : bool :=
  let fact := confirmed_fact e in
  let p := projection e in
  (transfer_id fact =? transfer_id p) && bool_decide (correlation_id fact = correlation_id p) &&
  bool_decide (currency fact = currency p) && (amount_minor fact =? amount_minor p).
Definition rules (e : reconciliation) : res unit :=
  _ ← check (reconciled e && negb (agrees e))
    "ledger reconciliation claims agreement while the confirmed fact and projection differ";
  _ ← check (negb (reconciled e) && bool_decide (discrepancy_reason e = None))
    "a failed reconciliation must state its discrepancy reason";
  _ ← check (reconciled e && negb (bool_decide (discrepancy_reason e = None)))
    "a successful reconciliation must not report a discrepancy reason";
  check (negb (reconciled e) && bool_decide (discrepancy_reason e = Some "MISMATCH") && agrees e)
    "a mismatch was reported but the supplied records agree".
Definition parseRustLedgerReconciliation `{ZodParser} (input : json) : res reconciliation := parse_envelope rules input.
End LedgerReconciliation.

(** ** Events

    contracts/events.ts: schemas alone, without the search for execution
    authority. *)

Module Events.
Definition goPaymentOrderValidatedEventSchema `{ZodParser} : zod :=
  z_object [("event_id", z_string nonempty); ("event_type", z_literal "umojaflowos.payment.order.validated.v1");
    ("schema_version", z_literal "v1"); ("occurred_at", z_string (zod_datetime false));
    ("correlation_id", z_string nonempty); ("payload", z_unknown)].
Definition rustPolicyDecisionEventSchema : zod :=
  z_object [("event_id", z_string nonempty); ("correlation_id", z_string nonempty);
    ("event_type", z_literal "umojaflowos.policy.decision.v1"); ("schema_version", z_literal "v1");
    ("decision", z_enum ["ALLOW"; "MANUAL_REVIEW"; "BLOCK"]); ("reason_codes", z_array 0 (z_string nonempty));
    ("external_execution_authorized", z_false)].
Definition pythonBronzeBatchManifestSchema : zod :=
  z_object [("dataset", z_string nonempty); ("layer", z_literal "bronze"); ("schema_version", z_literal "v1");
    ("record_count", z_int (Some 0)); ("payload_sha256", z_string is_sha256_hex)].
Definition parse_with `{ZodParser} (s : zod) (input : json) : res json :=
  match zod_parse s input with Some v => Ok v | None => Throw zod_error end.
Definition parseGoPaymentOrderValidatedEvent `{ZodParser} : json → res json :=
  parse_with goPaymentOrderValidatedEventSchema.
Definition parseRustNonExecutablePolicyDecisionEvent `{ZodParser} : json → res json :=
  parse_with rustPolicyDecisionEventSchema.
Definition parsePythonBronzeBatchManifest `{ZodParser} : json → res json :=
  parse_with pythonBronzeBatchManifestSchema.
End Events.
