(* ===== verification/ServiceBridge.v ===== *)
(** * The bridge to the services

    src/apps/control-plane/server/serviceBridge.ts: endpoints from the
    environment, one contract-validated call per capability, and outcomes that
    never stand for a result the service did not give. The URL parser, the
    environment and the network are arguments. *)

From S2P Require Import Prelude Js Zod Contracts.

Local Open Scope string_scope.
Local Open Scope Z_scope.

Inductive ServiceName : Type :=
  | PaymentEngine | RiskComplianceCore | ReportingAnalytics | LedgerGateway.
Definition services : list ServiceName := [PaymentEngine; RiskComplianceCore; ReportingAnalytics; LedgerGateway].

Definition ENDPOINT_ENV (s : ServiceName) : string :=
  match s with
  | PaymentEngine => "UMOJA_PAYMENT_ENGINE_URL"
  | RiskComplianceCore => "UMOJA_RISK_CORE_URL"
  | ReportingAnalytics => "UMOJA_REPORTING_URL"
  | LedgerGateway => "UMOJA_LEDGER_GATEWAY_URL"
  end.

Definition DEFAULT_TIMEOUT_MS : Z := 5000.

Inductive BridgeOutcome (T : Type) : Type :=
  | BridgeOk (service : ServiceName) (result : T)
  | BridgeNotConfigured (service : ServiceName) (reason : string)
  | BridgeUnavailable (service : ServiceName) (reason : string).
Arguments BridgeOk {T} service result.
Arguments BridgeNotConfigured {T} service reason.
Arguments BridgeUnavailable {T} service reason.

(** The properties of a [URL] the bridge reads. *)
Record service_url : Type := mk_service_url {
  su_protocol : string;
  su_hostname : string;
  su_username : string;
  su_password : string;
  su_origin : string;
  su_pathname : string
}.

(** What [fetch] and [response.json()] do: a status with a body that may not be
    JSON, or an exception with its name and message. *)
Inductive service_response : Type :=
  | Answered (status : Z) (body : option json)
  | Failed (name message : string).

Section bridge.
Context (parse_url : string → option service_url) (process_env : string → option string).
Context (fetchImpl : string → json → service_response).

Definition resolveServiceEndpoint (service : ServiceName) : res (option string) :=
  let variable := ENDPOINT_ENV service in
  match process_env variable with
  | None => Ok None
  | Some raw =>
      if bool_decide (trim raw = "") then Ok None
      else match parse_url (trim raw) with
           | None => Throw (JsError (variable +:+ " is not a valid absolute URL"))
           | Some parsed =>
               _ ← check (negb (bool_decide (su_protocol parsed = "http:")) &&
                          negb (bool_decide (su_protocol parsed = "https:")))
                 (variable +:+ " must use http on loopback or https elsewhere");
               let loopback := includes ["127.0.0.1"; "localhost"; "::1"] (su_hostname parsed) in
               _ ← check (bool_decide (su_protocol parsed = "http:") && negb loopback)
                 (variable +:+ " uses plain HTTP to a non-loopback host; TLS is required off-host");
               _ ← check (truthy (su_username parsed) || truthy (su_password parsed))
                 (variable +:+ " must not embed credentials in the URL");
               Ok (Some (su_origin parsed +:+ strip_slash (su_pathname parsed)))
           end
  end.

Definition message_of (e : error) : string :=
  match e with JsError m => m | PgError _ => "unknown" end.

Definition callService {T} (service : ServiceName) (path : string) (body : json) (validate : json → res T)
    (timeoutMs : option Z) : BridgeOutcome T :=
  match resolveServiceEndpoint service with
  | Throw e => BridgeUnavailable service (message_of e)
  | Ok None => BridgeNotConfigured service (ENDPOINT_ENV service +:+ " is not set; this service is disabled")
  | Ok (Some endpoint) =>
      match fetchImpl (endpoint +:+ path) body with
      | Answered status decoded =>
          if negb ((200 <=? status) && (status <=? 299)) then
            BridgeUnavailable service ("service returned HTTP " +:+ pretty status)
          else match decoded with
               | None => BridgeUnavailable service "service returned a non-JSON body"
               | Some v =>
                   match validate v with
                   | Ok result => BridgeOk service result
                   | Throw e => BridgeUnavailable service ("contract violation: " +:+ message_of e)
                   end
               end
      | Failed name message =>
          BridgeUnavailable service
            (if bool_decide (name = "AbortError")
             then "service did not respond within " +:+ pretty (default DEFAULT_TIMEOUT_MS timeoutMs) +:+ "ms"
             else "service could not be reached: " +:+ message)
      end
  end.

(** ** The calls *)

Context `{ZodParser}.

Definition nullable_int (low : option Z) : zod := z_nullable (z_int low).
Definition monitoringInputSchema : zod :=
  z_object [("corridor", corridorSchema); ("amount_minor_units", nullable_int None);
    ("reporting_threshold_minor_units", nullable_int None); ("customer_transactions_in_window", nullable_int (Some 0));
    ("max_transactions_per_window", nullable_int (Some 0)); ("customer_value_in_window_minor_units", nullable_int None);
    ("max_value_per_window_minor_units", nullable_int None); ("counterparty_licence_verified", z_nullable z_boolean);
    ("beneficiary_jurisdiction_expected", z_nullable z_boolean)].
Definition evaluateMonitoringViaService (input : json) (timeoutMs : option Z) :
    res (BridgeOutcome RustMonitoring.result) :=
  body ← Events.parse_with monitoringInputSchema input;
  Ok (callService RiskComplianceCore "/v1/monitoring/evaluate" body RustMonitoring.parseRustMonitoringResult timeoutMs).

Definition counterpartyRiskInputSchema : zod :=
  z_object [("licence_status", z_nullable (z_enum ["VERIFIED"; "PENDING_REVIEW"; "EXPIRED"; "SUSPENDED"; "REJECTED"]));
    ("licence_within_validity_window", z_nullable z_boolean); ("sanctions_clear", z_nullable z_boolean);
    ("adverse_findings_recorded", z_nullable z_boolean); ("days_since_last_review", nullable_int (Some 0));
    ("review_interval_days", nullable_int (Some 1))].
Definition assessCounterpartyRiskViaService (input : json) (timeoutMs : option Z) :
    res (BridgeOutcome RustCounterpartyRisk.assessment) :=
  body ← Events.parse_with counterpartyRiskInputSchema input;
  Ok (callService RiskComplianceCore "/v1/counterparty/assess" body RustCounterpartyRisk.parseRustCounterpartyRisk
    timeoutMs).

Definition assembleReportViaService (input : json) (timeoutMs : option Z) : res (BridgeOutcome PythonReport.report) :=
  Ok (callService ReportingAnalytics "/v1/reports/assemble" input PythonReport.parsePythonAssembledReport timeoutMs).
Definition computeStablecoinExposureViaService (input : json) (timeoutMs : option Z) :
    res (BridgeOutcome PythonExposure.exposure) :=
  Ok (callService ReportingAnalytics "/v1/treasury/stablecoin-exposure" input
    PythonExposure.parsePythonStablecoinExposure timeoutMs).
Definition validatePaymentOrderViaService (input : json) (timeoutMs : option Z) : res (BridgeOutcome json) :=
  Ok (callService PaymentEngine "/v1/orders/validate" input Events.parseGoPaymentOrderValidatedEvent timeoutMs).

Definition ledgerPostingSchema : zod := LedgerValidation.rustLedgerPostingSchema.
Definition validateLedgerPostingsViaService (postings : json) (timeoutMs : option Z) :
    res (BridgeOutcome LedgerValidation.validation) :=
  body ← Events.parse_with (z_array 1 ledgerPostingSchema) postings;
  Ok (callService LedgerGateway "/v1/postings/validate" body LedgerValidation.parseRustLedgerValidation timeoutMs).

Definition ledgerReconciliationInputSchema : zod :=
  z_object
    [("confirmed_fact", z_object [("transfer_id", z_int (Some 1)); ("correlation_id", z_string nonempty);
        ("currency", z_string nonempty); ("amount_minor", z_int (Some 1)); ("posted_at_rfc3339", z_string nonempty)]);
     ("projection", z_object [("transfer_id", z_int (Some 0)); ("correlation_id", z_string any_string);
        ("currency", z_string any_string); ("amount_minor", z_int (Some 0));
        ("projected_at_rfc3339", z_string any_string)])].
Definition reconcileLedgerProjectionViaService (input : json) (timeoutMs : option Z) :
    res (BridgeOutcome LedgerReconciliation.reconciliation) :=
  body ← Events.parse_with ledgerReconciliationInputSchema input;
  Ok (callService LedgerGateway "/v1/projections/reconcile" body LedgerReconciliation.parseRustLedgerReconciliation
    timeoutMs).

(** ** What is configured *)

Definition describeServiceConfiguration : list (ServiceName * bool * string) :=
  (λ service,
    match resolveServiceEndpoint service with
    | Ok None => (service, false, ENDPOINT_ENV service +:+ " is not set")
    | Ok (Some endpoint) => (service, true, "configured at " +:+ endpoint)
    | Throw e => (service, false, message_of e)
    end) <$> services.
End bridge.
