(* ===== verification/ContractsProps.v ===== *)
(** * What the contracts of the services guarantee *)

From S2P Require Import Prelude Js Zod Contracts ServiceBridge.

Local Open Scope string_scope.
Local Open Scope Z_scope.

(** ** Everything a schema admits is of its type

    [reads a f g]: whatever conforms to [a] is decoded by [f], and what is
    decoded, written by [g], conforms again with its keys in order. *)

Definition reads {A} (a : zod) (f : json → option A) (g : A → json) : Prop :=
  ∀ v, conforms false a v = true → ∃ x, f v = Some x ∧ conforms true a (g x) = true.

Lemma reads_string ok : reads (z_string ok) as_string JStr.
Proof. intros [| | | |s| |]; try done. by exists s. Qed.
Lemma reads_int low : reads (z_int low) as_int JNum.
Proof. intros [| |n| | | |]; try done. by exists n. Qed.
Lemma reads_bool : reads z_boolean as_bool JBool.
Proof. intros [|b| | | | |]; try done. by exists b. Qed.
Lemma reads_enum xs : reads (z_enum xs) as_string JStr.
Proof. intros [| | | |s| |]; try done. by exists s. Qed.
Lemma reads_nullable {A} a (f : json → option A) g :
  reads a f g → (∀ x, g x ≠ JNull) → reads (z_nullable a) (as_nullable f) (JOpt g).
Proof.
  intros Ha Hg v. assert (v = JNull ∨ v ≠ JNull) as [->|Hv] by (destruct v; auto); [by exists None|].
  intros Hc. destruct (Ha v) as (x & Hx & Hok); [by destruct v|]. exists (Some x). split.
  - destruct v; simpl; by rewrite ?Hx.
  - simpl. specialize (Hg x). by destruct (g x).
Qed.
Lemma reads_array {A} n a (f : json → option A) g :
  reads a f g → reads (z_array n a) (as_list f) (λ l, JArr (g <$> l)).
Proof.
  intros Ha [| | | | |vs|]; try done. simpl. intros [Hn Hvs]%andb_true_iff.
  assert (∃ xs, mapM f vs = Some xs ∧ length xs = length vs ∧ forallb (conforms true a) (g <$> xs) = true)
    as (xs & Hm & Hl & Hok).
  { clear Hn. induction vs as [|v vs IH]; [by exists []|].
    apply andb_true_iff in Hvs as [Hv Hvs]. destruct (Ha v Hv) as (x & Hx & Hxok), (IH Hvs) as (xs & Hm & Hl & Hok).
    exists (x :: xs). simpl. rewrite Hx. simpl. rewrite Hm, Hxok. simpl. auto. }
  exists xs. split; [done|]. by rewrite length_fmap, Hl, Hn, Hok.
Qed.

Lemma reads_field {A} a (f : json → option A) g kvs k :
  reads a f g → a ≠ z_unknown → field_ok false kvs (k, a) = true →
  ∃ x, get f k (JObj kvs) = Some x ∧ conforms true a (g x) = true.
Proof.
  intros Ha Hu. unfold field_ok, get. simpl. destruct (record_get kvs k); [by apply Ha|by destruct a].
Qed.

Lemma bind_run {A B} (m : option A) (k : A → option B) a r : m = Some a → k a = r → m ≫= k = r.
Proof. by intros ->. Qed.

Create HintDb reads.
#[export] Hint Resolve reads_string reads_int reads_bool reads_enum reads_array : reads.

(** An object schema field by field. *)
Ltac read_fields :=
  repeat match goal with
  | H : Forall _ (_ :: _) |- _ => apply Forall_cons in H as [? H]
  | H : field_ok false _ (_, z_literal _) = true |- _ => clear H
  | H : field_ok false ?kvs (?k, ?a) = true |- _ =>
      eapply reads_field in H; [destruct H as (? & ? & ?)|solve [eauto with reads]|done]
  end.
Ltac write_fields :=
  apply conforms_object; eexists; split; [reflexivity|]; split; [by apply (bool_decide_unpack _)|]; split; [reflexivity|];
  repeat (apply Forall_cons; split); try apply Forall_nil; try done; try assumption; try reflexivity.
Ltac reads_object :=
  let v := fresh "v" in let kvs := fresh "kvs" in let H := fresh "H" in
  intros v H; apply conforms_object in H as (kvs & -> & _ & _ & H); cbn [app provenance] in H;
  read_fields; eexists; split;
  [repeat (eapply bind_run; [eassumption|cbv beta]); reflexivity|write_fields].

(** ** What is written reads back *)

Definition writes {A} (f : json → option A) (g : A → json) : Prop := ∀ x, f (g x) = Some x.
Lemma writes_list {A} (f : json → option A) g : writes f g → writes (as_list f) (λ l, JArr (g <$> l)).
Proof. intros Hf l. by apply mapM_fmap_Some. Qed.
Lemma writes_nullable {A} (f : json → option A) g :
  writes f g → (∀ x, g x ≠ JNull) → writes (as_nullable f) (JOpt g).
Proof. intros Hf Hg [x|]; [|done]. simpl. specialize (Hg x). specialize (Hf x). destruct (g x); simpl; by rewrite ?Hf. Qed.
Lemma writes_string : writes as_string JStr.
Proof. done. Qed.
Lemma writes_int : writes as_int JNum.
Proof. done. Qed.
Lemma writes_bool : writes as_bool JBool.
Proof. done. Qed.
Lemma get_writes {A} (f : json → option A) g kvs k x :
  writes f g → record_get kvs k = Some (g x) → get f k (JObj kvs) = Some x.
Proof. intros Hw Hk. unfold get. simpl. rewrite Hk. apply Hw. Qed.
#[export] Hint Resolve writes_list writes_string writes_int writes_bool : reads.
Ltac written :=
  intros []; repeat (eapply bind_run; [eapply get_writes; [solve [eauto with reads]|reflexivity]|cbv beta]); reflexivity.

Section laws.
Context `{ZodParser}.

Lemma reads_event : reads GoAuditTrail.goAuditEventSchema decode (encode (T := GoAuditTrail.event)).
Proof. unfold GoAuditTrail.goAuditEventSchema. reads_object. Qed.
Lemma writes_event : writes decode (encode (T := GoAuditTrail.event)).
Proof. written. Qed.
#[local] Hint Resolve reads_event writes_event : reads.

Lemma reads_trail : reads GoAuditTrail.goAuditTrailEnvelopeSchema decode (encode (T := GoAuditTrail.envelope)).
Proof. unfold GoAuditTrail.goAuditTrailEnvelopeSchema. reads_object. Qed.
Lemma writes_trail : writes decode (encode (T := GoAuditTrail.envelope)).
Proof. written. Qed.
#[export] Instance trail_laws : ContractLaws GoAuditTrail.envelope.
Proof. split; [exact writes_trail|exact reads_trail]. Qed.

Lemma reads_finding : reads RustMonitoring.rustMonitoringFindingSchema decode (encode (T := RustMonitoring.finding)).
Proof. unfold RustMonitoring.rustMonitoringFindingSchema. reads_object. Qed.
Lemma writes_finding : writes decode (encode (T := RustMonitoring.finding)).
Proof. written. Qed.
#[local] Hint Resolve reads_finding writes_finding : reads.

Lemma reads_monitoring : reads RustMonitoring.rustMonitoringResultSchema decode (encode (T := RustMonitoring.result)).
Proof. unfold RustMonitoring.rustMonitoringResultSchema. reads_object. Qed.
Lemma writes_monitoring : writes decode (encode (T := RustMonitoring.result)).
Proof. written. Qed.
#[export] Instance monitoring_laws : ContractLaws RustMonitoring.result.
Proof. split; [exact writes_monitoring|exact reads_monitoring]. Qed.

Lemma reads_risk : reads RustCounterpartyRisk.rustCounterpartyRiskSchema decode (encode (T := RustCounterpartyRisk.assessment)).
Proof. unfold RustCounterpartyRisk.rustCounterpartyRiskSchema. reads_object. Qed.
Lemma writes_risk : writes decode (encode (T := RustCounterpartyRisk.assessment)).
Proof. written. Qed.
#[export] Instance risk_laws : ContractLaws RustCounterpartyRisk.assessment.
Proof. split; [exact writes_risk|exact reads_risk]. Qed.

Lemma reads_totals : reads PythonReport.totalsSchema decode (encode (T := PythonReport.totals)).
Proof. unfold PythonReport.totalsSchema. reads_object. Qed.
Lemma writes_totals : writes decode (encode (T := PythonReport.totals)).
Proof. written. Qed.
#[local] Hint Resolve reads_totals writes_totals : reads.

Lemma reads_report : reads PythonReport.pythonAssembledReportSchema decode (encode (T := PythonReport.report)).
Proof. unfold PythonReport.pythonAssembledReportSchema. reads_object. Qed.
Lemma writes_report : writes decode (encode (T := PythonReport.report)).
Proof. written. Qed.
#[export] Instance report_laws : ContractLaws PythonReport.report.
Proof. split; [exact writes_report|exact reads_report]. Qed.

Lemma reads_line : reads PythonExposure.exposureLineSchema decode (encode (T := PythonExposure.line)).
Proof. unfold PythonExposure.exposureLineSchema. reads_object. Qed.
Lemma writes_line : writes decode (encode (T := PythonExposure.line)).
Proof. written. Qed.
#[local] Hint Resolve reads_line writes_line : reads.

Lemma reads_exposure : reads PythonExposure.pythonStablecoinExposureSchema decode (encode (T := PythonExposure.exposure)).
Proof. unfold PythonExposure.pythonStablecoinExposureSchema. reads_object. Qed.
Lemma writes_exposure : writes decode (encode (T := PythonExposure.exposure)).
Proof. written. Qed.
#[export] Instance exposure_laws : ContractLaws PythonExposure.exposure.
Proof. split; [exact writes_exposure|exact reads_exposure]. Qed.

Lemma reads_posting : reads LedgerValidation.rustLedgerPostingSchema decode (encode (T := LedgerValidation.posting)).
Proof. unfold LedgerValidation.rustLedgerPostingSchema. reads_object. Qed.
Lemma writes_posting : writes decode (encode (T := LedgerValidation.posting)).
Proof. written. Qed.
#[local] Hint Resolve reads_posting writes_posting : reads.

Lemma reads_imbalance : reads LedgerValidation.imbalanceSchema decode (encode (T := LedgerValidation.imbalance)).
Proof. unfold LedgerValidation.imbalanceSchema. reads_object. Qed.
Lemma writes_imbalance : writes decode (encode (T := LedgerValidation.imbalance)).
Proof. written. Qed.
#[local] Hint Resolve reads_imbalance writes_imbalance : reads.
Lemma reads_reported : reads (z_nullable LedgerValidation.imbalanceSchema) (as_nullable decode)
  (JOpt (encode (T := LedgerValidation.imbalance))).
Proof. by apply reads_nullable; [apply reads_imbalance|intros []]. Qed.
Lemma writes_reported : writes (as_nullable decode) (JOpt (encode (T := LedgerValidation.imbalance))).
Proof. by apply writes_nullable; [apply writes_imbalance|intros []]. Qed.
#[local] Hint Resolve reads_reported writes_reported : reads.

Lemma reads_validation : reads LedgerValidation.rustLedgerValidationSchema decode (encode (T := LedgerValidation.validation)).
Proof. unfold LedgerValidation.rustLedgerValidationSchema. reads_object. Qed.
Lemma writes_validation : writes decode (encode (T := LedgerValidation.validation)).
Proof. written. Qed.
#[export] Instance validation_laws : ContractLaws LedgerValidation.validation.
Proof. split; [exact writes_validation|exact reads_validation]. Qed.

Lemma reads_fact : reads (LedgerReconciliation.transfer_schema "posted_at") (LedgerReconciliation.decode_transfer "posted_at")
  (LedgerReconciliation.encode_transfer "posted_at").
Proof. unfold LedgerReconciliation.transfer_schema. reads_object. Qed.
Lemma writes_fact : writes (LedgerReconciliation.decode_transfer "posted_at") (LedgerReconciliation.encode_transfer "posted_at").
Proof. written. Qed.
Lemma reads_projection : reads (LedgerReconciliation.transfer_schema "projected_at") (LedgerReconciliation.decode_transfer "projected_at")
  (LedgerReconciliation.encode_transfer "projected_at").
Proof. unfold LedgerReconciliation.transfer_schema. reads_object. Qed.
Lemma writes_projection : writes (LedgerReconciliation.decode_transfer "projected_at") (LedgerReconciliation.encode_transfer "projected_at").
Proof. written. Qed.
Lemma reads_reason xs : reads (z_nullable (z_enum xs)) (as_nullable as_string) (JOpt JStr).
Proof. apply reads_nullable; [apply reads_enum|done]. Qed.
Lemma writes_reason : writes (as_nullable as_string) (JOpt JStr).
Proof. by apply writes_nullable. Qed.
#[local] Hint Resolve reads_fact writes_fact reads_projection writes_projection reads_reason writes_reason : reads.
Lemma reads_reconciliation : reads LedgerReconciliation.rustLedgerReconciliationSchema decode
  (encode (T := LedgerReconciliation.reconciliation)).
Proof. unfold LedgerReconciliation.rustLedgerReconciliationSchema. reads_object. Qed.
Lemma writes_reconciliation : writes decode (encode (T := LedgerReconciliation.reconciliation)).
Proof. written. Qed.
#[export] Instance reconciliation_laws : ContractLaws LedgerReconciliation.reconciliation.
Proof. split; [exact writes_reconciliation|exact reads_reconciliation]. Qed.
End laws.

(** ** Keys at any depth *)

Inductive occurs (k : string) : json → Prop :=
  | occurs_here kvs x : (k, x) ∈ kvs → occurs k (JObj kvs)
  | occurs_below kvs k' x : (k', x) ∈ kvs → occurs k x → occurs k (JObj kvs)
  | occurs_entry xs x : x ∈ xs → occurs k x → occurs k (JArr xs).

Definition no_authority (v : json) : Prop := ∀ k, occurs k v → forbidden k = false.

Lemma no_authority_arr xs : no_authority (JArr xs) ↔ Forall no_authority xs.
Proof.
  rewrite Forall_forall. split.
  - intros H x Hx k Hk. by eapply H, occurs_entry.
  - intros H k Hk. inversion Hk; subst. by eapply H.
Qed.
Lemma no_authority_obj kvs :
  no_authority (JObj kvs) ↔ Forall (λ kv, forbidden kv.1 = false ∧ no_authority kv.2) kvs.
Proof.
  rewrite Forall_forall. split.
  - intros H [k x] Hx. split; [by eapply H, occurs_here|]. intros k' Hk'. by eapply H, occurs_below.
  - intros H k Hk. inversion Hk as [? x Hx|? k' x Hx Ho|]; subst;
    [exact (proj1 (H (k, x) Hx))|exact (proj2 (H (k', x) Hx) k Ho)].
Qed.

(** The search finds every key, wherever it starts. *)
Lemma assert_spec v path : assertNoExecutionAuthority v path = Ok () ↔ no_authority v.
Proof.
  revert path. induction v as [| | | | |xs IH|kvs IH] using json_deep_ind; intros path.
  1-5: split; [|done]; intros _ k Hk; inversion Hk.
  - rewrite no_authority_arr. simpl. generalize 0 as i.
    induction IH as [|x xs Hx _ IHx]; intros i; [done|]. rewrite Forall_cons, <-(IHx (i + 1)).
    rewrite <-(Hx (path +:+ "[" +:+ pretty i +:+ "]")). unfold mbind at 1, res_bind.
    destruct (assertNoExecutionAuthority x _) as [[]|]; naive_solver.
  - rewrite no_authority_obj. simpl.
    induction IH as [|[k x] kvs Hx _ IHx]; [done|]. rewrite Forall_cons, <-IHx. simpl in *.
    rewrite <-(Hx (path +:+ "." +:+ k)). destruct (forbidden k); [naive_solver|].
    unfold mbind at 1, res_bind. destruct (assertNoExecutionAuthority x _) as [[]|]; naive_solver.
Qed.

(** A schema whose shapes name no forbidden key and leave nothing open. *)
Fixpoint clean (s : zod) : bool :=
  match s with
  | z_unknown => false
  | z_nullable a | z_array _ a => clean a
  | z_object fields =>
      (fix each (fs : list (string * zod)) : bool :=
         match fs with [] => true | (k, a) :: fs => negb (forbidden k) && clean a && each fs end) fields
  | _ => true
  end.
Lemma clean_object fields :
  clean (z_object fields) = true ↔ Forall (λ f, forbidden f.1 = false ∧ clean f.2 = true) fields.
Proof.
  simpl. induction fields as [|[k a] fs IH]; [done|].
  rewrite Forall_cons, <-IH, !andb_true_iff, negb_true_iff. done.
Qed.

Lemma record_get_elem {A} (kvs : list (string * A)) k x : NoDup kvs.*1 → (k, x) ∈ kvs → record_get kvs k = Some x.
Proof.
  induction kvs as [|[k' x'] kvs IH]; intros Hn Hin; [by apply elem_of_nil in Hin|].
  apply NoDup_cons in Hn as [Hk Hn]. simpl. apply elem_of_cons in Hin as [?|Hin].
  - simplify_eq. by rewrite bool_decide_eq_true_2.
  - rewrite bool_decide_eq_false_2; [auto|]. intros ->. apply Hk. by apply (list_elem_of_fmap_2 fst) in Hin.
Qed.

(** Such a schema admits no value with execution authority. *)
Lemma clean_conforms s v : clean s = true → conforms false s v = true → no_authority v.
Proof.
  revert v. induction s as [| | | | | |a IH| |n a IH|fs IH] using zod_ind'; intros v Hc Hv; try done.
  1-6: destruct v; try done; intros k Hk; inversion Hk.
  - simpl in Hv. destruct v; auto. intros k Hk; inversion Hk.
  - destruct v as [| | | | |xs|]; try done. simpl in Hv. apply andb_true_iff in Hv as [_ Hv].
    rewrite no_authority_arr, Forall_forall. intros x Hx. apply IH; [done|].
    rewrite forallb_forall in Hv. by apply Hv, list_elem_of_In.
  - apply conforms_object in Hv as (kvs & -> & Hn & Hk & Hf). apply clean_object in Hc.
    rewrite no_authority_obj. apply Forall_forall. intros [k x] Hx. simpl.
    assert (k ∈ fs.*1) as ([k' a] & Hk' & Ha)%list_elem_of_fmap.
    { rewrite Forall_forall in Hk. apply Hk. by apply (list_elem_of_fmap_2 fst) in Hx. }
    simpl in Hk'. subst k'. rewrite Forall_forall in Hc, Hf, IH.
    destruct (Hc _ Ha) as [H1 H2]. split; [done|]. apply (IH _ Ha); [done|].
    specialize (Hf _ Ha). unfold field_ok in Hf. simpl in Hf. by rewrite (record_get_elem _ _ _ Hn Hx) in Hf.
Qed.

(** ** The seven contracts *)

Record service_contract `{ZodParser} : Type := mk_service_contract {
  sc_type : Type;
  sc_contract : Contract sc_type;
  sc_laws : ContractLaws sc_type;
  sc_rules : sc_type → res unit
}.
#[export] Existing Instance sc_contract.
#[export] Existing Instance sc_laws.
Arguments mk_service_contract {_} T {_ _} _ : rename.

Definition service_contracts `{ZodParser} : list service_contract :=
  [mk_service_contract _ GoAuditTrail.rules; mk_service_contract _ RustMonitoring.rules;
   mk_service_contract _ RustCounterpartyRisk.rules; mk_service_contract _ PythonReport.rules;
   mk_service_contract _ PythonExposure.rules; mk_service_contract _ LedgerValidation.rules;
   mk_service_contract _ LedgerReconciliation.rules].

Definition parse_service `{ZodParser} (C : service_contract) : json → res (sc_type C) := parse_envelope (sc_rules C).

Section service.
Context `{ZodParser}.

Lemma service_clean C : C ∈ service_contracts → clean (schema (T := sc_type C)) = true.
Proof. intros HC. repeat (apply elem_of_cons in HC as [->|HC]; [reflexivity|]). by apply elem_of_nil in HC. Qed.

Section envelopes.
Context {T : Type} `{!Contract T, !ContractLaws T}.

Lemma read_envelope_spec (input : json) (e : T) : read_envelope input = Ok e ↔
  no_authority input ∧ ∃ v, zod_parse schema input = Some v ∧ decode v = Some e.
Proof.
  rewrite <-(assert_spec input "$"). unfold read_envelope, mbind at 1, res_bind.
  destruct (assertNoExecutionAuthority input "$") as [[]|]; [|naive_solver].
  destruct (zod_parse schema input) as [v|]; simpl; [|naive_solver].
  destruct (decode v) as [e'|] eqn:Hd; [|naive_solver]. naive_solver.
Qed.

Lemma parse_envelope_spec rules (input : json) (e : T) : parse_envelope rules input = Ok e ↔
  no_authority input ∧ (∃ v, zod_parse schema input = Some v ∧ decode v = Some e) ∧ rules e = Ok ().
Proof.
  rewrite (assoc (∧)), <-read_envelope_spec. unfold parse_envelope, mbind, res_bind.
  destruct (read_envelope input) as [e'|]; [|by split; [|intros [? _]]].
  destruct (rules e') as [[]|] eqn:Hr; split; try done.
  - by intros [= <-].
  - by intros [[= <-] _].
  - intros [[= <-] ?]. congruence.
Qed.

Lemma decoded_shaped input v (e : T) : zod_parse schema input = Some v → decode v = Some e →
  conforms true schema (encode e) = true.
Proof. intros Hv%zod_result He. destruct (typed v Hv) as (e' & He' & Hok). by simplify_eq. Qed.

Lemma encode_parses rules (e : T) : clean (schema (T := T)) = true →
  (parse_envelope rules (encode e) = Ok e ↔ conforms true schema (encode e) = true ∧ rules e = Ok ()).
Proof.
  intros Hc. rewrite parse_envelope_spec. split.
  - intros (_ & (v & Hv & He) & Hr). split; [by eapply decoded_shaped|done].
  - intros [Hs Hr]. split; [by eapply clean_conforms, shaped_conforms|]. split; [|done].
    exists (encode e). split; [by apply zod_accepts|apply decode_encode].
Qed.
End envelopes.

(** C24. Accepted payloads are of their type: for each of the seven contracts,
    whatever a schema accepts decodes to a value of the type inferred from it;
    so a payload is accepted exactly when no key of execution authority occurs
    in it at any depth, the schema accepts it and the rules of the contract hold
    of what was decoded. *)
Theorem accepted_payload_is_typed C input :
  C ∈ service_contracts →
  (∀ v, zod_parse (schema (T := sc_type C)) input = Some v → ∃ e : sc_type C, decode v = Some e) ∧
  (∀ e, parse_service C input = Ok e ↔
    no_authority input ∧ (∃ v, zod_parse (schema (T := sc_type C)) input = Some v ∧ decode v = Some e) ∧
    sc_rules C e = Ok ()).
Proof.
  intros HC. split; [|intros e; apply parse_envelope_spec].
  intros v Hv%zod_result. destruct (typed v Hv) as (e & He & _). by exists e.
Qed.

(** C25. Envelopes round-trip: for each of the seven contracts, writing an
    envelope and parsing it returns the envelope exactly when its fields are
    admissible and the rules hold; and whatever was accepted from a service,
    written out again, is accepted again as the same envelope. *)
Theorem envelopes_round_trip C :
  C ∈ service_contracts →
  (∀ e, parse_service C (encode e) = Ok e ↔
    conforms true (schema (T := sc_type C)) (encode e) = true ∧ sc_rules C e = Ok ()) ∧
  (∀ input e, parse_service C input = Ok e → parse_service C (encode e) = Ok e).
Proof.
  intros HC%service_clean. split; [intros e; by apply encode_parses|].
  intros input e (_ & (v & Hv & He) & Hr)%parse_envelope_spec.
  apply encode_parses; [done|]. split; [by eapply decoded_shaped|done].
Qed.
End service.
