(* ===== verification/ServiceBridgeProps.v ===== *)
(** * What the bridge and the ledger contract guarantee *)

From S2P Require Import Prelude Js Zod Contracts ServiceBridge ContractsProps.

Local Open Scope string_scope.
Local Open Scope Z_scope.

(** ** Re-deriving a balance *)

Section ledger.
Import LedgerValidation.

(** The reference: exact sums of integers. *)
Definition exact_net (c : string) (ps : list posting) : Z :=
  foldr (λ p n, (if bool_decide (currency p = c) then debit_minor p - credit_minor p else 0) + n) 0 ps.
Definition volume (ps : list posting) : Z := foldr (λ p n, debit_minor p + credit_minor p + n) 0 ps.
Definition nonnegative (p : posting) : Prop := 0 <= debit_minor p ∧ 0 <= credit_minor p.

Lemma exact_net_snoc c ps p :
  exact_net c (ps ++ [p]) = exact_net c ps + if bool_decide (currency p = c) then debit_minor p - credit_minor p else 0.
Proof. unfold exact_net. induction ps as [|q ps IH]; simpl; [lia|]. rewrite IH. lia. Qed.
Lemma volume_snoc ps p : volume (ps ++ [p]) = volume ps + debit_minor p + credit_minor p.
Proof. unfold volume. induction ps as [|q ps IH]; simpl; [lia|]. rewrite IH. lia. Qed.
Lemma exact_net_bound c ps : Forall nonnegative ps → Z.abs (exact_net c ps) <= volume ps.
Proof.
  unfold exact_net, volume. induction 1 as [|p ps [H1 H2] _ IH]; simpl; [lia|].
  case_bool_decide; lia.
Qed.

Lemma map_set_get m k v k' : record_get (map_set m k v) k' = if bool_decide (k' = k) then Some v else record_get m k'.
Proof.
  induction m as [|[k1 v1] m IH]; simpl; [done|].
  destruct (decide (k = k1)) as [->|Hne].
  - rewrite (bool_decide_eq_true_2 (k1 = k1)) by done. simpl. by case_bool_decide.
  - rewrite (bool_decide_eq_false_2 (k = k1)) by done. simpl. rewrite IH.
    destruct (decide (k' = k1)) as [->|]; [|by rewrite (bool_decide_eq_false_2 (k' = k1))].
    rewrite (bool_decide_eq_true_2 (k1 = k1)), (bool_decide_eq_false_2 (k1 = k)) by congruence. done.
Qed.
Lemma map_set_keys m k v : (map_set m k v).*1 = if bool_decide (k ∈ m.*1) then m.*1 else (m.*1 ++ [k])%list.
Proof.
  induction m as [|[k1 v1] m IH]; csimpl; [done|]. destruct (decide (k = k1)) as [->|Hne].
  - rewrite (bool_decide_eq_true_2 (k1 = k1)), bool_decide_eq_true_2 by set_solver. done.
  - rewrite (bool_decide_eq_false_2 (k = k1)) by done. csimpl. rewrite IH.
    destruct (decide (k ∈ m.*1)).
    + rewrite !bool_decide_eq_true_2 by set_solver. done.
    + rewrite !bool_decide_eq_false_2 by set_solver. done.
Qed.

(** Within 53 bits the [Map] the code builds holds the exact sums. *)
Lemma netByCurrency_exact ps : Forall nonnegative ps → volume ps <= 2 ^ 53 →
  NoDup (netByCurrency ps).*1 ∧
  ∀ c, record_get (netByCurrency ps) c = if bool_decide (c ∈ currency <$> ps) then Some (exact_net c ps) else None.
Proof.
  induction ps as [|p ps IH] using rev_ind; intros Hnn Hv; [split; [constructor|done]|].
  apply Forall_app in Hnn as [Hnn [[H1 H2] _]%Forall_cons]. rewrite volume_snoc in Hv.
  destruct IH as [Hnd IH]; [done|lia|].
  pose proof (exact_net_bound (currency p) ps Hnn) as Hb.
  unfold netByCurrency. rewrite foldl_app. fold (netByCurrency ps). simpl. unfold add_posting.
  assert (default 0 (record_get (netByCurrency ps) (currency p)) = exact_net (currency p) ps) as ->.
  { rewrite IH. case_bool_decide as Hc; [done|]. simpl. unfold exact_net. clear -Hc.
    induction ps as [|q ps IHps]; simpl; [done|].
    rewrite bool_decide_eq_false_2 by set_solver. rewrite <-IHps by set_solver. done. }
  unfold js_sub, js_add. rewrite (round53_exact (exact_net _ _ + _)), round53_exact by lia. split.
  - rewrite map_set_keys. case_bool_decide; [done|]. apply NoDup_app. split_and!; [done|set_solver|].
    apply NoDup_singleton.
  - intros c. rewrite map_set_get, IH, exact_net_snoc, fmap_app. destruct (decide (c = currency p)) as [->|Hne].
    + rewrite !(bool_decide_eq_true_2 (currency p = currency p)), bool_decide_eq_true_2 by set_solver. f_equal. lia.
    + rewrite (bool_decide_eq_false_2 (c = _)), (bool_decide_eq_false_2 (currency p = c)), Z.add_0_r by done.
      erewrite bool_decide_ext; [reflexivity|]. set_solver.
Qed.

Lemma derivedBalanced_exact ps : Forall nonnegative ps → volume ps <= 2 ^ 53 →
  derivedBalanced ps = true ↔ ∀ c, exact_net c ps = 0.
Proof.
  intros Hnn Hv. destruct (netByCurrency_exact ps Hnn Hv) as [Hnd Hget].
  unfold derivedBalanced, imbalances. rewrite Nat.eqb_eq, length_zero_iff_nil. split.
  - intros Hf c. specialize (Hget c). case_bool_decide as Hc.
    + destruct (decide (exact_net c ps = 0)) as [|Hne]; [done|]. exfalso.
      assert ((c, exact_net c ps) ∈ List.filter (λ x, negb (x.2 =? 0)) (netByCurrency ps)) as Hin.
      { apply list_elem_of_In, filter_In. split; [|simpl; by rewrite (proj2 (Z.eqb_neq _ _) Hne)].
        apply list_elem_of_In. clear -Hget. induction (netByCurrency ps) as [|[k v] m IH]; simpl in *; [done|].
        case_bool_decide; [simplify_eq; left|right; auto]. }
      rewrite Hf in Hin. by apply elem_of_nil in Hin.
    + unfold exact_net. clear -Hc. induction ps as [|q ps IHps]; simpl; [done|].
      rewrite bool_decide_eq_false_2 by set_solver. rewrite IHps by set_solver. done.
  - intros Hz. destruct (List.filter _ _) as [|[c n] l] eqn:Hf; [done|]. exfalso.
    assert ((c, n) ∈ List.filter (λ x, negb (x.2 =? 0)) (netByCurrency ps)) as Hin by (rewrite Hf; left).
    apply list_elem_of_In, filter_In in Hin as [Hin Hn]. apply list_elem_of_In in Hin. simpl in Hn.
    apply (record_get_elem _ _ _ Hnd) in Hin. rewrite Hget, Hz in Hin. case_bool_decide; simplify_eq.
Qed.

Lemma check_ok b m : check b m = Ok () ↔ b = false.
Proof. by destruct b. Qed.
Lemma then_ok {A} (m : res unit) (k : res A) a : (_ ← m; k) = Ok a ↔ m = Ok () ∧ k = Ok a.
Proof. unfold mbind, res_bind. destruct m as [[]|]; naive_solver. Qed.

(** C26. The balance is re-derived exactly: on postings whose debits and credits
    together stay within 2^53 minor units, the contract accepts a validation
    exactly when its flag says whether the exact sum of every currency is zero,
    a balanced set reports no imbalance, and an unbalanced one names a currency
    of the postings with its exact net. *)
Theorem ledger_balance_exact e :
  Forall nonnegative (postings e) → volume (postings e) <= 2 ^ 53 →
  rules e = Ok () ↔
    (balanced e = true ↔ ∀ c, exact_net c (postings e) = 0) ∧
    match reported e with
    | None => balanced e = true
    | Some i => balanced e = false ∧ imbalance_currency i ∈ currency <$> postings e ∧
        exact_net (imbalance_currency i) (postings e) = net_minor i
    end.
Proof.
  intros Hnn Hv. pose proof (derivedBalanced_exact _ Hnn Hv) as Hd.
  destruct (netByCurrency_exact _ Hnn Hv) as [_ Hget]. unfold rules.
  rewrite !then_ok, !check_ok, negb_false_iff, eqb_true_iff, <-Hd.
  destruct (reported e) as [i|]; simpl.
  - rewrite check_ok, Hget, negb_false_iff, bool_decide_eq_true. clear.
    rewrite andb_false_r, andb_true_r. destruct (derivedBalanced _), (balanced e); case_bool_decide; intuition congruence.
  - clear. rewrite andb_true_r, andb_false_r. destruct (derivedBalanced _), (balanced e); simpl; naive_solver.
Qed.
End ledger.

(** ** Calls *)

Section bridge.
Context (parse_url : string → option service_url) (process_env : string → option string).
Context (fetchImpl : string → json → service_response).

(** An outcome is [ok] only when a configured service answered 2xx with a body
    the contract accepts. *)
Lemma callService_ok {T} service path body (validate : json → res T) t s r :
  callService parse_url process_env fetchImpl service path body validate t = BridgeOk s r →
  ∃ endpoint status v, resolveServiceEndpoint parse_url process_env service = Ok (Some endpoint) ∧
    fetchImpl (endpoint +:+ path) body = Answered status (Some v) ∧ 200 <= status <= 299 ∧ validate v = Ok r.
Proof.
  unfold callService. destruct (resolveServiceEndpoint _ _ _) as [[endpoint|]|]; try done.
  destruct (fetchImpl _ _) as [status decoded|] eqn:Hf; [|done].
  destruct (negb _) eqn:Hs; [done|]. apply negb_false_iff in Hs. destruct decoded as [v|]; [|done].
  destruct (validate v) eqn:Hv; [|done]. intros [= -> ->]. exists endpoint, status, v. split_and!; [done|done|lia|lia|done].
Qed.

Definition secure (endpoint : string) : Prop :=
  ∃ raw u, parse_url (trim raw) = Some u ∧ endpoint = su_origin u +:+ strip_slash (su_pathname u) ∧
    (su_protocol u = "https:" ∨ su_protocol u = "http:" ∧ su_hostname u ∈ ["127.0.0.1"; "localhost"; "::1"]) ∧
    su_username u = "" ∧ su_password u = "".

Lemma resolve_secure service endpoint :
  resolveServiceEndpoint parse_url process_env service = Ok (Some endpoint) → secure endpoint.
Proof.
  unfold resolveServiceEndpoint. destruct (process_env _) as [raw|]; [|done]. case_bool_decide; [done|].
  destruct (parse_url (trim raw)) as [u|] eqn:Hu; [|done]. rewrite !then_ok, !check_ok.
  rewrite andb_false_iff, andb_false_iff, orb_false_iff, !negb_false_iff. unfold truthy.
  rewrite !negb_false_iff, !bool_decide_eq_true. intros (H1 & H2 & [H3 H4] & [= <-]).
  exists raw, u. split_and!; [done|done| |done|done].
  destruct H2 as [H2%bool_decide_eq_false|H2]; [naive_solver|].
  apply includes_true in H2. naive_solver.
Qed.
End bridge.

(** ** The audit trail *)

Section trail.
Import GoAuditTrail.

(** Position, order and link of every event. *)
Definition chained (order previous : string) (index : Z) (l : list event) : Prop :=
  ∀ i e, l !! i = Some e → sequence e = index + Z.of_nat i + 1 ∧ event_order_id e = order ∧
    previous_hash e = match i with O => previous | S j => default previous (hash <$> l !! j) end.

Lemma check_chain_spec order index previous l :
  check_chain order index previous l = Ok () ↔ chained order previous index l.
Proof.
  revert index previous. induction l as [|e l IH]; intros index previous; simpl; [by split|].
  rewrite !then_ok, !check_ok, !negb_false_iff, Z.eqb_eq, !bool_decide_eq_true, IH. split.
  - intros (H1 & H2 & H3 & H4) [|i] x Hx; simpl in Hx; [by simplify_eq; split_and!; [lia|..]|].
    destruct (H4 i x Hx) as (K1 & K2 & K3). split_and!; [lia|done|]. rewrite K3. destruct i; [done|].
    simpl. assert (is_Some (l !! i)) as [y Hy]; [|by rewrite Hy].
    apply lookup_lt_is_Some. apply lookup_lt_Some in Hx. lia.
  - intros H. destruct (H 0%nat e eq_refl) as (H1 & H2 & H3). split_and!; [lia|done|done|].
    intros i x Hx. destruct (H (S i) x Hx) as (K1 & K2 & K3). split_and!; [lia|done|]. rewrite K3.
    destruct i; [done|]. simpl. assert (is_Some (l !! i)) as [y Hy]; [|by rewrite Hy].
    apply lookup_lt_is_Some. apply lookup_lt_Some in Hx. lia.
Qed.

(** A prefix of an admissible trail is admissible. *)
Lemma trail_prefix `{ZodParser} e n : conforms true (schema (T := envelope)) (encode e) = true →
  conforms true (schema (T := envelope)) (encode (mk_envelope (order_id e) (take n (events e)))) = true.
Proof.
  change (schema (T := envelope)) with goAuditTrailEnvelopeSchema.
  intros (kvs & [= <-] & Hn & Hk & Hf)%conforms_object. apply conforms_object. eexists. split; [reflexivity|].
  split; [done|]. split; [done|].
  do 4 (apply Forall_cons in Hf as [? Hf]; apply Forall_cons; split; [done|]).
  apply Forall_cons in Hf as [Hf _]. apply Forall_cons. split; [|by apply Forall_nil].
  assert (forallb (conforms true goAuditEventSchema) (encode <$> events e) = true) as He by exact Hf.
  change (forallb (conforms true goAuditEventSchema) (encode <$> take n (events e)) = true).
  rewrite <-(take_drop n (events e)), fmap_app, forallb_app in He. by apply andb_true_iff in He as [He _].
Qed.

(** An audit trail is accepted exactly when it is chained: the contract
    accepts a trail of admissible events if and only if the i-th event has
    sequence number i, belongs to the order of the envelope and carries the hash
    of its predecessor, the first one the empty hash; so no event can be removed
    from the front or the middle, but every shorter prefix of an accepted trail
    is accepted as well. *)
Theorem audit_trail_chained `{ZodParser} e :
  conforms true (schema (T := envelope)) (encode e) = true →
  (parseGoAuditTrailEnvelope (encode e) = Ok e ↔ chained (order_id e) "" 0 (events e)) ∧
  (parseGoAuditTrailEnvelope (encode e) = Ok e → ∀ n,
    let e' := mk_envelope (order_id e) (take n (events e)) in parseGoAuditTrailEnvelope (encode e') = Ok e').
Proof.
  intros Hc. assert (∀ e, parseGoAuditTrailEnvelope (encode e) = Ok e ↔
    conforms true (schema (T := envelope)) (encode e) = true ∧ chained (order_id e) "" 0 (events e)) as Hp.
  { intros e1. rewrite <-check_chain_spec. by apply (encode_parses rules). }
  rewrite Hp. split; [naive_solver|]. intros [_ Hch] n e'. rewrite Hp. split; [by apply trail_prefix|].
  intros i x [Hx Hn]%lookup_take_Some. destruct (Hch i x Hx) as (H1 & H2 & H3). split_and!; [done|done|].
  rewrite H3. destruct i as [|i]; [done|]. simpl. by rewrite lookup_take_lt by lia.
Qed.
End trail.

(** ** What a result of the bridge is worth *)

Section results.
Context `{ZodParser} (parse_url : string → option service_url) (process_env : string → option string).
Context (fetchImpl : string → json → service_response).

(** A configured service, on a secure endpoint, answered 2xx with a body. *)
Definition answered_with (service : ServiceName) (path : string) (v : json) : Prop :=
  ∃ endpoint body status, resolveServiceEndpoint parse_url process_env service = Ok (Some endpoint) ∧
    secure parse_url endpoint ∧ fetchImpl (endpoint +:+ path) body = Answered status (Some v) ∧ 200 <= status <= 299.
(** The body is free of execution authority. *)
Definition answered (service : ServiceName) (path : string) : Prop := ∃ v, answered_with service path v ∧ no_authority v.

Lemma call_answered {T} service path body (validate : json → res T) t s r :
  callService parse_url process_env fetchImpl service path body validate t = BridgeOk s r → ∃ v, answered_with service path v ∧ validate v = Ok r.
Proof.
  intros (endpoint & status & v & He & Hf & Hs & Hv)%callService_ok. exists v. split; [|done].
  exists endpoint, body, status. split_and!; try done; try lia. by eapply resolve_secure.
Qed.
Lemma call_contract {T} `{!Contract T, !ContractLaws T} rules service path body t s (r : T) :
  callService parse_url process_env fetchImpl service path body (parse_envelope rules) t = BridgeOk s r →
  answered service path ∧ rules r = Ok ().
Proof.
  intros (v & Ha & (Hn & _ & Hr)%parse_envelope_spec)%call_answered. split; [by exists v|done].
Qed.

Lemma parsed_call {T} s input (k : json → BridgeOutcome T) o :
  (body ← Events.parse_with s input; Ok (k body)) = Ok o → ∃ body, k body = o.
Proof. unfold Events.parse_with, mbind, res_bind. destruct (zod_parse s input) as [b|]; [|done]. intros [= <-]. by exists b. Qed.

(** The envelope of a validated order: six keys, the name and version of the
    event and non-empty identifiers; whatever else it carries is in its payload. *)
Definition order_envelope (r : json) : Prop :=
  ∃ kvs event correlation, r = JObj kvs ∧
    Forall (λ k, k ∈ ["event_id"; "event_type"; "schema_version"; "occurred_at"; "correlation_id"; "payload"]) (keys kvs) ∧
    record_get kvs "event_type" = Some (JStr "umojaflowos.payment.order.validated.v1") ∧ record_get kvs "schema_version" = Some (JStr "v1") ∧
    record_get kvs "event_id" = Some (JStr event) ∧ event ≠ "" ∧ record_get kvs "correlation_id" = Some (JStr correlation) ∧ correlation ≠ "".
Lemma parsed_order v r : Events.parseGoPaymentOrderValidatedEvent v = Ok r → order_envelope r.
Proof.
  unfold Events.parseGoPaymentOrderValidatedEvent, Events.parse_with. destruct (zod_parse _ v) as [w|] eqn:Hz; [|done]. intros [= ->].
  apply zod_result, conforms_object in Hz as (kvs & -> & _ & Hk & Hf).
  repeat (apply Forall_cons in Hf as [? Hf]). unfold field_ok in *. cbn [fst snd] in *.
  destruct (record_get kvs "event_id") as [[| | | |e| |]|] eqn:G1; try done. destruct (record_get kvs "event_type") as [[| | | |ty| |]|] eqn:G2; try done.
  destruct (record_get kvs "schema_version") as [[| | | |ve| |]|] eqn:G3; try done. destruct (record_get kvs "correlation_id") as [[| | | |c| |]|] eqn:G4; try done.
  cbn [conforms] in *. unfold nonempty in *. unbool. subst. exists kvs, e, c. split_and!; try done; by intros ->.
Qed.

(** C27. Results fail closed. Whatever the services answer, a call of the bridge
    that reports [ok] was answered with 2xx by the configured service, on an
    endpoint that is HTTPS or loopback and carries no credentials. Six of the
    seven calls also had a body in which no key of execution authority occurs at
    any depth: a monitoring result with a missing input is a BLOCK; an
    undetermined or prohibited risk band requires review; a report concerns the
    corridor its regulator supervises and does not end before it starts; an
    exposure names a source on every line; the flag of a ledger validation is the
    re-derived one; and a reconciliation is claimed only of records that agree.
    Of the seventh, the validation of a payment order, only the envelope is
    known: its name, version and identifiers, and no key beyond the six; what is
    inside its payload is not searched ([order_validation_carries_authority]). *)
Theorem bridge_fails_closed input t :
  (∀ s r, evaluateMonitoringViaService parse_url process_env fetchImpl input t = Ok (BridgeOk s r) →
    answered RiskComplianceCore "/v1/monitoring/evaluate" ∧
    ∀ f, f ∈ RustMonitoring.findings r → RustMonitoring.unavailable f = true → RustMonitoring.decision r = "BLOCK") ∧
  (∀ s r, assessCounterpartyRiskViaService parse_url process_env fetchImpl input t = Ok (BridgeOk s r) →
    answered RiskComplianceCore "/v1/counterparty/assess" ∧
    (RustCounterpartyRisk.band r ∈ ["UNDETERMINED"; "PROHIBITED"] → RustCounterpartyRisk.review_required r = true)) ∧
  (∀ s r, assembleReportViaService parse_url process_env fetchImpl input t = Ok (BridgeOk s r) →
    answered ReportingAnalytics "/v1/reports/assemble" ∧
    record_get PythonReport.expected (PythonReport.regulator r) = Some (PythonReport.corridor r) ∧
    String.ltb (PythonReport.period_end r) (PythonReport.period_start r) = false) ∧
  (∀ s r, computeStablecoinExposureViaService parse_url process_env fetchImpl input t = Ok (BridgeOk s r) →
    answered ReportingAnalytics "/v1/treasury/stablecoin-exposure" ∧
    Forall (λ l, PythonExposure.source_references l ≠ []) (PythonExposure.corridor_exposures r)) ∧
  (∀ s r, validateLedgerPostingsViaService parse_url process_env fetchImpl input t = Ok (BridgeOk s r) →
    answered LedgerGateway "/v1/postings/validate" ∧
    LedgerValidation.balanced r = LedgerValidation.derivedBalanced (LedgerValidation.postings r)) ∧
  (∀ s r, reconcileLedgerProjectionViaService parse_url process_env fetchImpl input t = Ok (BridgeOk s r) →
    answered LedgerGateway "/v1/projections/reconcile" ∧
    (LedgerReconciliation.reconciled r = true → LedgerReconciliation.agrees r = true)) ∧
  (∀ s r, validatePaymentOrderViaService parse_url process_env fetchImpl input t = Ok (BridgeOk s r) →
    (∃ v, answered_with PaymentEngine "/v1/orders/validate" v) ∧ order_envelope r).
Proof.
  split_and!; intros s r Hcall.
  - apply parsed_call in Hcall as [b [Ha Hr]%call_contract]. split; [done|].
    intros f Hf Hu. unfold RustMonitoring.rules in Hr. rewrite check_ok in Hr.
    destruct (decide (RustMonitoring.decision r = "BLOCK")) as [|Hd]; [done|]. exfalso.
    rewrite (bool_decide_eq_false_2 _ Hd), andb_true_r in Hr. apply Nat.ltb_ge in Hr.
    assert (f ∈ List.filter RustMonitoring.unavailable (RustMonitoring.findings r)) as Hin
      by (apply list_elem_of_In, filter_In; split; [by apply list_elem_of_In|done]).
    destruct (List.filter _ _); [by apply elem_of_nil in Hin|simpl in Hr; lia].
  - apply parsed_call in Hcall as [b [Ha Hr]%call_contract]. split; [done|].
    unfold RustCounterpartyRisk.rules in Hr. rewrite !then_ok, !check_ok in Hr. destruct Hr as (H1 & H2 & _).
    intros Hb. destruct (RustCounterpartyRisk.review_required r); [done|].
    rewrite andb_true_r in H1, H2. apply bool_decide_eq_false in H1, H2. set_solver.
  - injection Hcall as [Ha Hr]%call_contract. split; [done|].
    unfold PythonReport.rules in Hr. rewrite then_ok, !check_ok, negb_false_iff, bool_decide_eq_true in Hr. naive_solver.
  - injection Hcall as [Ha Hr]%call_contract. split; [done|]. unfold PythonExposure.rules in Hr.
    induction (PythonExposure.corridor_exposures r) as [|l ls IH]; simpl in Hr; [by constructor|].
    rewrite then_ok, check_ok in Hr. destruct Hr as [H1 H2]. constructor; [|auto].
    by intros E; rewrite E in H1.
  - apply parsed_call in Hcall as [b [Ha Hr]%call_contract]. split; [done|].
    unfold LedgerValidation.rules in Hr. rewrite then_ok, check_ok, negb_false_iff, eqb_true_iff in Hr. naive_solver.
  - apply parsed_call in Hcall as [b [Ha Hr]%call_contract]. split; [done|].
    unfold LedgerReconciliation.rules in Hr. rewrite !then_ok, !check_ok in Hr. destruct Hr as [Hr _].
    intros Hrec. rewrite Hrec in Hr. simpl in Hr. by apply negb_false_iff in Hr.
  - injection Hcall as (v & Ha & Hv%parsed_order)%call_answered. split; [by exists v|done].
Qed.
End results.
