(* ===== verification/BridgeDemo.v ===== *)
(** * Concrete exchanges with the services

    Inputs on which the theorems about contracts apply, with a parser that has
    the documented behaviour, and four exchanges in which the contracts let
    through what their comments exclude. *)

From S2P Require Import Prelude Js Zod Contracts ServiceBridge ContractsProps ServiceBridgeProps.

Local Open Scope string_scope.
Local Open Scope Z_scope.

(** A timestamp of the demonstration is any text of twenty characters. *)
Definition demo_datetime (_ : bool) (s : string) : bool := 20 <=? js_length s.
#[local] Instance demo_zod : ZodParser := reference_zod demo_datetime.
Definition noon : string := "2026-01-05T12:00:00.000Z".
Definition digest_of (c : ascii) : string := String.string_of_list_ascii (repeat c 64).

(** ** Witnesses *)

Definition demo_event (n : Z) (previous own : string) : GoAuditTrail.event :=
  GoAuditTrail.mk_event n "order-1" "KENYA_KES" "DRAFT" "PENDING_POLICY_DECISION" "submitted" "operator" noon previous own.
Definition demo_trail : GoAuditTrail.envelope :=
  GoAuditTrail.mk_envelope "order-1"
    [demo_event 1 "" (digest_of "a"); demo_event 2 (digest_of "a") (digest_of "b")].

Lemma trail_in_contracts : mk_service_contract _ GoAuditTrail.rules ∈ service_contracts.
Proof. left. Qed.

(** Witness of the typing of payloads. *)
Lemma accepted_payload_is_typed_witness :
  parse_service (mk_service_contract _ GoAuditTrail.rules) (encode demo_trail) = Ok demo_trail.
Proof.
  apply (accepted_payload_is_typed _ (encode demo_trail) trail_in_contracts).
  split; [by apply (assert_spec _ "$")|]. split; [|reflexivity]. exists (encode demo_trail). split; vm_compute; reflexivity.
Defined.

(** Witness of the round trip. *)
Lemma envelopes_round_trip_witness :
  parse_service (mk_service_contract _ GoAuditTrail.rules) (encode demo_trail) = Ok demo_trail.
Proof.
  apply (proj1 (envelopes_round_trip _ trail_in_contracts)). split; vm_compute; reflexivity.
Defined.

(** Witness of the chaining of trails: dropping the last event is accepted. *)
Lemma audit_trail_chained_witness :
  let e := GoAuditTrail.mk_envelope "order-1" (take 1 (GoAuditTrail.events demo_trail)) in
  GoAuditTrail.parseGoAuditTrailEnvelope (encode e) = Ok e.
Proof.
  refine (proj2 (audit_trail_chained demo_trail _) _ 1%nat); vm_compute; reflexivity.
Defined.

Definition demo_posting (c : string) (d k : Z) : LedgerValidation.posting := LedgerValidation.mk_posting "acct" c d k.
Definition demo_validation : LedgerValidation.validation :=
  LedgerValidation.mk_validation [demo_posting "KES" 500 0; demo_posting "KES" 0 500] true None.

(** Witness of the exact balance. *)
Lemma ledger_balance_exact_witness :
  LedgerValidation.rules demo_validation = Ok () ∧ ∀ c, exact_net c (LedgerValidation.postings demo_validation) = 0.
Proof.
  assert (LedgerValidation.rules demo_validation = Ok ()) as Hr by reflexivity. split; [done|].
  refine (proj1 (proj1 (proj1 (ledger_balance_exact demo_validation _ _) Hr)) eq_refl).
  - repeat constructor; simpl; lia.
  - vm_compute. done.
Defined.

Definition demo_parse (s : string) : option service_url :=
  if startsWith s "https://" then Some (mk_service_url "https:" "svc.example" "" "" "https://svc.example" "/") else None.
Definition demo_env (_ : string) : option string := Some "https://svc.example/".
Definition blocked_result : RustMonitoring.result :=
  RustMonitoring.mk_result "BLOCK" [RustMonitoring.mk_finding "velocity" true "INPUT_UNAVAILABLE_WINDOW"].
Definition demo_fetch (_ : string) (_ : json) : service_response := Answered 200 (Some (encode blocked_result)).
Definition demo_input : json :=
  JObj [("corridor", JStr "KENYA_KES"); ("amount_minor_units", JNum 100); ("reporting_threshold_minor_units", JNull);
    ("customer_transactions_in_window", JNull); ("max_transactions_per_window", JNull);
    ("customer_value_in_window_minor_units", JNull); ("max_value_per_window_minor_units", JNull);
    ("counterparty_licence_verified", JNull); ("beneficiary_jurisdiction_expected", JNull)].

(** Witness of the fail-closed results. *)
Lemma bridge_fails_closed_witness :
  ∃ s r, evaluateMonitoringViaService demo_parse demo_env demo_fetch demo_input None = Ok (BridgeOk s r) ∧
    answered demo_parse demo_env demo_fetch RiskComplianceCore "/v1/monitoring/evaluate".
Proof.
  exists RiskComplianceCore, blocked_result.
  assert (evaluateMonitoringViaService demo_parse demo_env demo_fetch demo_input None =
    Ok (BridgeOk RiskComplianceCore blocked_result)) as Hcall by (vm_compute; reflexivity).
  split; [done|]. exact (proj1 (proj1 (bridge_fails_closed demo_parse demo_env demo_fetch demo_input None) _ _ Hcall)).
Defined.

(** ** Departures *)

(** The validated order event leaves its payload open and is not searched: a
    payment engine that answers with an instruction is reported as [ok], with
    the instruction in the result. *)
Definition instructing_event : json :=
  JObj [("event_id", JStr "e1"); ("event_type", JStr "umojaflowos.payment.order.validated.v1");
    ("schema_version", JStr "v1"); ("occurred_at", JStr noon); ("correlation_id", JStr "c1");
    ("payload", JObj [("settlement_instruction", JStr "pay now"); ("api_key", JStr "k")])].
Theorem order_validation_carries_authority :
  ∃ v, validatePaymentOrderViaService demo_parse demo_env (λ _ _, Answered 200 (Some instructing_event)) (JObj []) None =
    Ok (BridgeOk PaymentEngine v) ∧ occurs "settlement_instruction" v ∧ forbidden "settlement_instruction" = true.
Proof.
  exists instructing_event. split; [vm_compute; reflexivity|]. split; [|reflexivity].
  eapply occurs_below; [do 5 right; left|]. eapply occurs_here. left.
Qed.

(** Beyond 2^53 minor units the sums round: three debits and four credits that
    differ by one are accepted as balanced. *)
Definition rounding_validation : LedgerValidation.validation :=
  LedgerValidation.mk_validation
    [demo_posting "NGN" MAX_SAFE 0; demo_posting "NGN" MAX_SAFE 0; demo_posting "NGN" 1 0;
     demo_posting "NGN" 0 (2 ^ 52); demo_posting "NGN" 0 (2 ^ 52); demo_posting "NGN" 0 (2 ^ 52);
     demo_posting "NGN" 0 (2 ^ 52)] true None.
Theorem rounding_accepts_unbalanced :
  LedgerValidation.parseRustLedgerValidation (encode rounding_validation) = Ok rounding_validation ∧
  exact_net "NGN" (LedgerValidation.postings rounding_validation) = -1.
Proof. split; vm_compute; reflexivity. Qed.

(** An unbalanced set may report a balanced currency as its imbalance. *)
Definition evasive_validation : LedgerValidation.validation :=
  LedgerValidation.mk_validation
    [demo_posting "KES" 500 0; demo_posting "ZAR" 10 0; demo_posting "ZAR" 0 10] false
    (Some (LedgerValidation.mk_imbalance "ZAR" 0)).
Theorem zero_imbalance_accepted :
  LedgerValidation.parseRustLedgerValidation (encode evasive_validation) = Ok evasive_validation ∧
  exact_net "KES" (LedgerValidation.postings evasive_validation) = 500.
Proof. split; vm_compute; reflexivity. Qed.

(** An exposure line may claim more positions than it has sources. *)
Definition thin_exposure : PythonExposure.exposure :=
  PythonExposure.mk_exposure noon "100" [PythonExposure.mk_line "KENYA_KES" "USDC" "100" "0" "100" "100" 0 5 ["s1"]] [].
Theorem exposure_outruns_evidence :
  PythonExposure.parsePythonStablecoinExposure (encode thin_exposure) = Ok thin_exposure.
Proof. vm_compute. reflexivity. Qed.
