(* ===== verification/Access.v ===== *)
(** * Operators, their roles and external stakeholders

    src/apps/control-plane/server: operatingRoles.ts, operatorRoleGrants.ts,
    operatorAccessRequests.ts, operatorDirectory.ts, operatorOnboarding.ts,
    externalStakeholders.ts and postgresRoleResolver.ts.

    The handlers read the active grants of a subject and then write: under READ
    COMMITTED a grant that commits between the snapshot and the write is not
    seen, and no row lock prevents it. [visible] says which rows of
    [user_role_assignments] are in the snapshot of the handler; alone in the
    database, a handler sees them all. The identity provider is an argument. *)

From S2P Require Import Prelude Js Numeric Rows Schema Parties.

Local Open Scope string_scope.
Local Open Scope Z_scope.

(** ** Roles *)

Definition legacyOperatingRoles : list operating_role :=
  [RoleAdmin; RoleComplianceOfficer; RoleTreasuryOperator; RoleAuditor].

(** [ORDER BY role] of [role::text]: the position in alphabetical order. *)
Definition role_rank (r : operating_role) : Z :=
  match r with
  | RoleAdmin => 0 | RoleAuditor => 1 | RoleCbnLiaison => 2 | RoleComplianceOfficer => 3
  | RoleProviderContact => 4 | RoleSystemMonitor => 5 | RoleTreasuryOperator => 6
  end.

Definition active (subject : string) (r : user_role_assignment) : bool :=
  bool_decide (ura_user_subject r = subject) && is_none (ura_revoked_at r).
Definition assigned (r : operator_role_assignment) : bool := bool_decide (ora_status r = EsAssigned).

Definition resolvePostgresOperatingRole (subject : string) (d : db) : option operating_role :=
  head (match operator_role_assignments d !! subject with
        | Some r => if assigned r then [ora_role r] else []
        | None => []
        end ++
        order_by role_rank (ura_role <$> (select (λ _ r, active subject r) (user_role_assignments d)).*2))%list.

(** ** Access requests *)

Definition recordOperatorAccessAttempt (E : env) (subject : string) (name email : option string) : Act db unit :=
  transaction (modify (set operator_access_requests (λ t,
    match t !! subject with
    | None => <[subject := mk_access_request name email (db_now E) (db_now E) None None]> t
    | Some r =>
        if is_none (oar_resolved_at r)
        then <[subject := r <| oar_name := name |> <| oar_email := email |> <| oar_last_seen_at := db_now E |>]> t
        else t
    end))).

Definition listOperatorAccessRequests (d : db) : list (string * access_request) :=
  order_by_desc (λ x, oar_last_seen_at x.2) (select (λ _ r, is_none (oar_resolved_at r)) (operator_access_requests d)).

Definition resolveOperatorAccessRequest (E : env) (a : actor) (subject : string) : Act db unit :=
  transaction (modify (set operator_access_requests (alter (λ r,
    if is_none (oar_resolved_at r)
    then r <| oar_resolved_at := Some (db_now E) |> <| oar_resolved_by := Some (a_openId a) |> else r) subject))).

(** ** Grants of the core roles *)

(** The rules a new grant meets: two active grants never clash on [UNIQUE
    (user_subject, role, revoked_at)], since [NULL]s are distinct. *)
Definition granted (E : env) (a : actor) (subject : string) (role : operating_role) : user_role_assignment :=
  mk_user_role_assignment subject role (a_openId a) (db_now E) None.
Definition insert_grant (E : env) (a : actor) (new_id : uuid) (subject : string) (role : operating_role) : Tx db uuid :=
  _ ← insert_row user_role_assignments "user_role_assignments" no_rules new_id (granted E a subject role);
  mret new_id.

Definition grant_metadata (subject : string) (role : operating_role) : json :=
  JObj [("subject", JStr subject); ("role", JStr (pg_text role))].

(** [E] is the clock of the grant, [E'] that of the request it resolves. *)
Definition grantOperatingRole (E E' : env) (visible : uuid → bool) (a : actor) (new_id : uuid) (subject : string)
    (role : operating_role) : Act db (string * operating_role) :=
  _ ← act_throw_if (negb (includes legacyOperatingRoles role))
    (JsError "this grant path is for admin, compliance_officer, treasury_operator, or auditor only; external stakeholder roles are assigned through assignExternalStakeholder");
  _ ← transaction (
    existing ← gets (λ d, head (select (λ id r, visible id && active subject r && bool_decide (ura_role r = role))
      (user_role_assignments d)));
    record ← match existing with
             | Some x => mret x.1
             | None => insert_grant E a new_id subject role
             end;
    insert_activity E a "operator_role.granted" "user_role_assignment" (Some record) (grant_metadata subject role));
  _ ← resolveOperatorAccessRequest E' a subject;
  mret (subject, role).

(** ** The directory *)

(** The rows [SELECT … WHERE user_subject=$1 AND revoked_at IS NULL FOR UPDATE]
    returns. *)
Definition active_rows (visible : uuid → bool) (subject : string) (d : db) : list (uuid * user_role_assignment) :=
  select (λ id r, visible id && active subject r) (user_role_assignments d).

Definition same_grant (x y : user_role_assignment) : bool :=
  bool_decide (ura_user_subject x = ura_user_subject y) && bool_decide (ura_role x = ura_role y).
Definition revoked (E : env) (r : user_role_assignment) : user_role_assignment :=
  r <| ura_revoked_at := Some (db_now E) |>.

(** [UPDATE user_role_assignments SET revoked_at=now() WHERE id=$1], under
    [UNIQUE (user_subject, role, revoked_at)]. *)
Definition revoke (E : env) (x : uuid * user_role_assignment) : Tx db unit :=
  clash ← gets (λ d, any (λ k y, negb (bool_decide (k = x.1)) && same_grant x.2 y &&
    bool_decide (ura_revoked_at y = Some (db_now E))) (user_role_assignments d));
  _ ← throw_if clash (PgError (UniqueViolation "user_role_assignments_user_subject_role_revoked_at_key"));
  update_row user_role_assignments x.1 (revoked E).

Definition change_metadata (subject : string) (from : list operating_role) (role : operating_role) : json :=
  JObj [("subject", JStr subject); ("from", JArr (JStr ∘ pg_text <$> from)); ("to", JStr (pg_text role))].

Definition changeOperatorRole (E : env) (visible : uuid → bool) (a : actor) (new_id : uuid) (subject : string)
    (role : operating_role) : Act db (string * operating_role) :=
  transaction (
    rows ← gets (active_rows visible subject);
    _ ← for_each (revoke E) (List.filter (λ x, negb (bool_decide (ura_role x.2 = role))) rows);
    newAssignmentId ← match List.find (λ x, bool_decide (ura_role x.2 = role)) rows with
                      | Some x => mret x.1
                      | None => insert_grant E a new_id subject role
                      end;
    _ ← insert_activity E a "operator_role.changed" "user_role_assignment" (Some newAssignmentId)
      (change_metadata subject (ura_role ∘ snd <$> rows) role);
    mret (subject, role)).

Definition suspended (E : env) (r : operator_role_assignment) : operator_role_assignment :=
  if assigned r then r <| ora_status := EsSuspended |> <| ora_suspended_at := Some (db_now E) |> else r.

Section identity.
(** [setKeycloakAccountEnabled], [createOperatorAccount] and [listKeycloakAccounts]
    of keycloakAdmin.ts: what the identity provider answers. *)
Context (setKeycloakAccountEnabled : uuid → bool → res unit).

Definition lift {A} (r : res A) : Act db A := λ d, (r, d).

Definition deactivateOperator (E : env) (visible : uuid → bool) (a : actor) (keycloakUserId : uuid)
    (subject reason : string) : Act db string :=
  _ ← act_throw_if (bool_decide (subject = a_openId a)) (JsError "an operator cannot deactivate their own account");
  _ ← transaction (
    core ← gets (active_rows visible subject);
    _ ← for_each (revoke E) core;
    _ ← modify (set operator_role_assignments (alter (suspended E) subject));
    insert_activity E a "operator.deactivated" "keycloak_account" (Some keycloakUserId)
      (JObj [("subject", JStr subject); ("reason", JStr reason); ("revokedCoreGrants", JNum (Z.of_nat (length core)))]));
  _ ← lift (setKeycloakAccountEnabled keycloakUserId false);
  mret subject.

Record KeycloakAccountSummary : Type := mk_account {
  acc_keycloakUserId : uuid;
  acc_subject : string;
  acc_name : string;
  acc_email : string;
  acc_enabled : bool
}.
(** [{ role, status, assignedBy, assignedAt }] of a subject. *)
Record role_entry : Type := mk_role_entry {
  re_role : operating_role;
  re_status : external_assignment_status;
  re_assignedBy : string;
  re_assignedAt : Z
}.

(** [roleBySubject]: the active core grants, newest first, then the external
    rows, each overwriting what is there. *)
Definition roleBySubject (d : db) : gmap string role_entry :=
  let core := foldl (λ m r, <[ura_user_subject r := mk_role_entry (ura_role r) EsAssigned (ura_assigned_by r)
      (ura_assigned_at r)]> m) ∅
    (order_by_desc ura_assigned_at (select (λ _ r, is_none (ura_revoked_at r)) (user_role_assignments d)).*2) in
  foldl (λ m x, <[x.1 := mk_role_entry (ora_role x.2) (ora_status x.2) (ora_assigned_by x.2) (ora_assigned_at x.2)]> m)
    core (map_to_list (operator_role_assignments d)).

Definition listOperators (listKeycloakAccounts : res (list KeycloakAccountSummary)) (d : db) :
    res (list (KeycloakAccountSummary * option role_entry)) :=
  match listKeycloakAccounts with
  | Ok accounts => Ok ((λ account, (account, roleBySubject d !! acc_subject account)) <$> accounts)
  | Throw e => Throw e
  end.

(** ** External stakeholders *)

Definition external_roles : list operating_role := [RoleProviderContact; RoleCbnLiaison].

Definition providerEvidenceCategories : list external_evidence_category :=
  [ExtProviderLicensing; ExtProductEntitlement; ExtTechnicalEndpoint; ExtCallbackConfiguration; ExtOperatingRunbook].
Definition cbnEvidenceCategories : list external_evidence_category :=
  [ExtApplicationCorrespondence; ExtReviewRequest; ExtReviewResponse].

Definition external_activity (E : env) (a : actor) (action objectType : string) (objectId : uuid)
    (metadata : list (string * json)) : Tx db unit :=
  insert_activity E a action objectType (Some objectId) (JObj (metadata ++
    [("authoritative", JBool false); ("providerActivation", JBool false); ("paymentExecution", JBool false);
     ("settlement", JBool false); ("externalSubmission", JBool false); ("admission", JBool false);
     ("licence", JBool false)])%list).

Record external_input : Type := mk_external_input {
  exi_role : operating_role;
  exi_stakeholderSubject : string;
  exi_counterpartyId : option uuid;
  exi_dossierId : option uuid
}.

Definition scope_matches (r : external_assignment) : bool :=
  match esa_stakeholder_role r with
  | RoleProviderContact => is_some (esa_counterparty_id r) && is_none (esa_dossier_id r)
  | RoleCbnLiaison => is_some (esa_dossier_id r) && is_none (esa_counterparty_id r)
  | _ => false
  end.
Definition rules_external_assignments : table_rules external_assignment := {|
  checks r := [(includes external_roles (esa_stakeholder_role r), CheckViolation "external_stakeholder_assignments_stakeholder_role_check");
    (scope_matches r, CheckViolation "external_stakeholder_assignments_check")];
  uniques _ _ := [];
  references d r := [
    (bool_decide (is_Some (operator_role_assignments d !! esa_stakeholder_subject r)),
      ForeignKeyViolation "external_stakeholder_assignments_stakeholder_subject_fkey");
    fk_opt counterparties "external_stakeholder_assignments_counterparty_id_fkey" d (esa_counterparty_id r);
    fk_opt cbn_sandbox_dossiers "external_stakeholder_assignments_dossier_id_fkey" d (esa_dossier_id r)] |}.

(** Equality of a nullable column in a unique key: [NULL] differs from all. *)
Definition same_key (x y : option uuid) : bool := match x, y with Some i, Some j => bool_decide (i = j) | _, _ => false end.
Definition same_assignment (x y : external_assignment) : bool :=
  bool_decide (esa_stakeholder_role x = esa_stakeholder_role y) &&
  bool_decide (esa_stakeholder_subject x = esa_stakeholder_subject y) &&
  same_key (esa_counterparty_id x) (esa_counterparty_id y) && same_key (esa_dossier_id x) (esa_dossier_id y).

(** [INSERT … ON CONFLICT (stakeholder_role, stakeholder_subject,
    counterparty_id, dossier_id) DO UPDATE … RETURNING id]. *)
Definition upsert_assignment (new_id : uuid) (row : external_assignment) : Tx db uuid :=
  _ ← enforce (checks rules_external_assignments row);
  there ← gets (λ d, head (select (λ _ x, same_assignment row x) (external_stakeholder_assignments d)));
  match there with
  | Some x =>
      _ ← update_row external_stakeholder_assignments x.1 (λ r, r <| esa_status := EsAssigned |> <| esa_suspended_at := None |>
        <| esa_assigned_by := esa_assigned_by row |> <| esa_assigned_at := esa_assigned_at row |>);
      mret x.1
  | None =>
      _ ← insert_row external_stakeholder_assignments "external_stakeholder_assignments" rules_external_assignments new_id row;
      mret new_id
  end.

Definition assignExternalStakeholder (E E' : env) (a : actor) (new_id : uuid) (input : external_input) : Act db uuid :=
  _ ← act_throw_if
    (negb (eqb (bool_decide (exi_role input = RoleProviderContact)) (is_some (exi_counterpartyId input))) ||
     negb (eqb (bool_decide (exi_role input = RoleCbnLiaison)) (is_some (exi_dossierId input))))
    (JsError "external stakeholder assignment must match its evidence-only subject");
  assignment ← transaction (
    _ ← throw_if (negb (includes external_roles (exi_role input)))
      (PgError (CheckViolation "operator_role_assignments_role_check"));
    _ ← modify (set operator_role_assignments
      (<[exi_stakeholderSubject input := mk_operator_role_assignment (exi_role input) EsAssigned (a_openId a) (db_now E) None]>));
    _ ← match exi_counterpartyId input with
        | Some id => counterparty ← select_by_id counterparties id;
                     throw_if (negb (is_some counterparty)) (JsError "counterparty does not exist")
        | None => mret tt
        end;
    _ ← match exi_dossierId input with
        | Some id => dossier ← select_by_id cbn_sandbox_dossiers id;
                     throw_if (negb (is_some dossier)) (JsError "CBN sandbox dossier does not exist")
        | None => mret tt
        end;
    id ← upsert_assignment new_id (mk_external_assignment (exi_role input) (exi_stakeholderSubject input)
      (exi_counterpartyId input) (exi_dossierId input) EsAssigned (a_openId a) (db_now E) None);
    _ ← external_activity E a "external_stakeholder.assigned" "external_stakeholder_assignment" id
      [("stakeholderRole", JStr (pg_text (exi_role input))); ("counterpartyAssigned", JBool (is_some (exi_counterpartyId input)));
       ("dossierAssigned", JBool (is_some (exi_dossierId input)))];
    mret id);
  _ ← resolveOperatorAccessRequest E' a (exi_stakeholderSubject input);
  mret assignment.

(** The assignments of a subject in a role, latest first. *)
Definition assignments_of (role : operating_role) (subject : string) (d : db) : list (uuid * external_assignment) :=
  order_by_desc (λ x, esa_assigned_at x.2) (select (λ _ r, bool_decide (esa_stakeholder_role r = role) &&
    bool_decide (esa_stakeholder_subject r = subject)) (external_stakeholder_assignments d)).
Definition listProviderContactAssignments (subject : string) (d : db) :
    list (uuid * external_assignment * string * option onboarding_stage) :=
  omap (λ x : uuid * external_assignment,
    c ← esa_counterparty_id x.2; r ← counterparties d !! c;
    Some (x, cp_legal_name r, ob_stage ∘ snd <$>
      head (select (λ _ o, bool_decide (ob_counterparty_id o = c)) (counterparty_onboardings d))))
    (assignments_of RoleProviderContact subject d).
Definition listCbnLiaisonAssignments (subject : string) (d : db) :
    list (uuid * external_assignment * string * cbn_sandbox_dossier) :=
  omap (λ x : uuid * external_assignment,
    i ← esa_dossier_id x.2; r ← cbn_sandbox_dossiers d !! i; e ← legal_entities d !! csd_legal_entity_id r;
    Some (x, le_legal_name e, r))
    (assignments_of RoleCbnLiaison subject d).

Definition rules_external_evidence : table_rules external_evidence := {|
  checks r := [(startsWith (ese_evidence_uri r) "https://", CheckViolation "external_stakeholder_evidence_evidence_uri_check");
    (is_sha256_hex (ese_evidence_sha256 r), CheckViolation "external_stakeholder_evidence_evidence_sha256_check")];
  uniques _ _ := [];
  references d r := [fk external_stakeholder_assignments "external_stakeholder_evidence_assignment_id_fkey" d
    (ese_assignment_id r)] |}.

Definition category_refused (role : operating_role) (category : external_evidence_category) : bool :=
  (bool_decide (role = RoleProviderContact) && negb (includes providerEvidenceCategories category)) ||
  (bool_decide (role = RoleCbnLiaison) && negb (includes cbnEvidenceCategories category)).

(** An assignment the actor may act under. *)
Definition assignment_of (a : actor) (r : external_assignment) : bool :=
  bool_decide (esa_stakeholder_subject r = a_openId a) && bool_decide (esa_stakeholder_role r = a_role a) &&
  bool_decide (esa_status r = EsAssigned).

Definition recordExternalStakeholderEvidence (E : env) (a : actor) (new_id assignmentId : uuid)
    (category : external_evidence_category) (evidenceUri evidenceSha256 : string) : Act db (option uuid) :=
  transaction (
    found ← select_by_id external_stakeholder_assignments assignmentId;
    row ← require (match found with Some r => if assignment_of a r then Some r else None | None => None end)
      (JsError "active external stakeholder assignment is required");
    _ ← throw_if (category_refused (esa_stakeholder_role row) category)
      (JsError "evidence category is not permitted for this external stakeholder role");
    id ← insert_or_nothing external_stakeholder_evidence "external_stakeholder_evidence" rules_external_evidence
      (λ x, bool_decide (ese_assignment_id x = assignmentId) && bool_decide (ese_category x = category) &&
            bool_decide (ese_evidence_sha256 x = evidenceSha256)) new_id
      (mk_external_evidence assignmentId category evidenceUri evidenceSha256 (a_openId a) (db_now E));
    _ ← match id with
        | Some id => external_activity E a "external_stakeholder_evidence.recorded" "external_stakeholder_evidence" id
            [("assignmentId", JUuid assignmentId); ("stakeholderRole", JStr (pg_text (esa_stakeholder_role row)));
             ("category", JStr (pg_text category)); ("evidenceSupplied", JBool true); ("verified", JBool false)]
        | None => mret tt
        end;
    mret id).

(** ** Onboarding an operator *)

Record onboard_input : Type := mk_onboard_input {
  oi_name : string;
  oi_email : string;
  oi_role : operating_role;
  oi_counterpartyId : option uuid;
  oi_dossierId : option uuid
}.

(** What follows the creation of the account. [clock] gives the clocks of the
    transactions in turn; [hex] is the random suffix of the registration
    identifier. *)
Definition onboard_account (clock : nat → env) (visible : uuid → bool) (a : actor) (customer_id new_id : uuid)
    (hex : string) (input : onboard_input) (account : string * string) : Act db (string * string * uuid) :=
  customer ← createPostgresCustomer (clock 0%nat) a customer_id
    (mk_create_customer_input (oi_name input) ("OPERATOR-" +:+ hex));
  _ ← (if includes legacyOperatingRoles (oi_role input) then
         _ ← grantOperatingRole (clock 1%nat) (clock 2%nat) visible a new_id account.1 (oi_role input); mret tt
       else
         _ ← assignExternalStakeholder (clock 1%nat) (clock 2%nat) a new_id
           (mk_external_input (oi_role input) account.1 (oi_counterpartyId input) (oi_dossierId input)); mret tt);
  mret (account, customer.1).

Definition onboardOperator (createOperatorAccount : string → string → res (string * string)) (clock : nat → env)
    (visible : uuid → bool) (a : actor) (customer_id new_id : uuid) (hex : string) (input : onboard_input) :
    Act db (string * string * uuid) :=
  account ← lift (createOperatorAccount (oi_name input) (oi_email input));
  onboard_account clock visible a customer_id new_id hex input account.
End identity.
