(* ===== verification/AccessProps.v ===== *)
(** * Access: authority is granted, deactivation cuts it off

    The handlers of [Access] refine a small transition system on what they write
    (grants, external roles, assignments, evidence, log); its invariant, carried
    back, says that every role a subject resolves to was granted on record. *)

From S2P Require Import Prelude Js Numeric Rows Schema Parties Access.

Local Open Scope string_scope.
Local Open Scope Z_scope.

(** ** The abstract system *)

Record access_view : Type := mk_view {
  v_core : gmap uuid user_role_assignment;
  v_ext : gmap string operator_role_assignment;
  v_asg : gmap uuid external_assignment;
  v_evi : gmap uuid external_evidence;
  v_log : list activity_event
}.
#[export] Instance access_view_eta : Eta access_view := λ V,
  mk_view (v_core V) (v_ext V) (v_asg V) (v_evi V) (v_log V).
Definition view (d : db) : access_view :=
  mk_view (user_role_assignments d) (operator_role_assignments d) (external_stakeholder_assignments d)
    (external_stakeholder_evidence d) (activity_events d).

(** The event that records a grant, and the one that records an assignment. *)
Definition grants (ev : activity_event) (id : uuid) (subject : string) (role : operating_role) (by_ : string) : Prop :=
  ev_object_id ev = Some id ∧ ev_actor_subject ev = by_ ∧
  (ev_action ev = "operator_role.granted" ∧ ev_metadata ev = grant_metadata subject role ∨
   ev_action ev = "operator_role.changed" ∧ ∃ from, ev_metadata ev = change_metadata subject from role).
Definition assigns (ev : activity_event) (id : uuid) (by_ : string) : Prop :=
  ev_object_id ev = Some id ∧ ev_actor_subject ev = by_ ∧ ev_action ev = "external_stakeholder.assigned".

Definition same_scope (x y : external_assignment) : Prop :=
  esa_stakeholder_role x = esa_stakeholder_role y ∧ esa_stakeholder_subject x = esa_stakeholder_subject y ∧
  esa_counterparty_id x = esa_counterparty_id y ∧ esa_dossier_id x = esa_dossier_id y.

Definition revoke_ids (E : env) (ids : list uuid) (t : gmap uuid user_role_assignment) : gmap uuid user_role_assignment :=
  foldl (λ t id, alter (revoked E) id t) t ids.

Definition permitted (role : operating_role) : list external_evidence_category :=
  match role with
  | RoleProviderContact => providerEvidenceCategories
  | RoleCbnLiaison => cbnEvidenceCategories
  | _ => []
  end.

(** [who] holds the subjects a step may give authority to. *)
Inductive access_move (who : list string) : relation access_view :=
  | am_log V evs : access_move who V (V <| v_log ::= (λ l, l ++ evs)%list |>)
  | am_grant V E a id s r ev :
      v_core V !! id = None → s ∈ who → grants ev id s r (a_openId a) →
      access_move who V (V <| v_core ::= <[id := granted E a s r]> |> <| v_log ::= (λ l, l ++ [ev])%list |>)
  | am_revoke V E ids : access_move who V (V <| v_core ::= revoke_ids E ids |>)
  | am_suspend V E s : access_move who V (V <| v_ext ::= alter (suspended E) s |>)
  | am_assign V s r asg id x ev :
      s ∈ who → asg !! id = Some x → esa_stakeholder_subject x = s → esa_stakeholder_role x = ora_role r →
      (∀ i y, v_asg V !! i = Some y → ∃ y', asg !! i = Some y' ∧ same_scope y y') →
      (∀ i y, asg !! i = Some y → scope_matches y = true ∨ ∃ y0, v_asg V !! i = Some y0 ∧ same_scope y0 y) →
      assigns ev id (ora_assigned_by r) →
      access_move who V (V <| v_ext ::= <[s := r]> |> <| v_asg := asg |> <| v_log ::= (λ l, l ++ [ev])%list |>)
  | am_evidence V id e x evs :
      v_asg V !! ese_assignment_id e = Some x → ese_recorded_by e = esa_stakeholder_subject x →
      category_refused (esa_stakeholder_role x) (ese_category e) = false →
      access_move who V (V <| v_evi ::= <[id := e]> |> <| v_log ::= (λ l, l ++ evs)%list |>).

Lemma access_move_mono who who' V V' : who ⊆ who' → access_move who V V' → access_move who' V V'.
Proof. intros Hs H. destruct H; econstructor; eauto. Qed.
Lemma access_moves_mono who who' V V' : who ⊆ who' → rtc (access_move who) V V' → rtc (access_move who') V V'.
Proof. intros Hs. apply rtc_subrel. intros ??. by apply access_move_mono. Qed.

(** ** The invariant *)

Record access_ok (V : access_view) : Prop := {
  ok_core id r : v_core V !! id = Some r →
    ∃ ev, ev ∈ v_log V ∧ grants ev id (ura_user_subject r) (ura_role r) (ura_assigned_by r);
  ok_ext s r : v_ext V !! s = Some r →
    ∃ ev id x, ev ∈ v_log V ∧ assigns ev id (ora_assigned_by r) ∧ v_asg V !! id = Some x ∧
      esa_stakeholder_subject x = s ∧ esa_stakeholder_role x = ora_role r;
  ok_asg id x : v_asg V !! id = Some x → scope_matches x = true;
  ok_evi id e : v_evi V !! id = Some e →
    ∃ x, v_asg V !! ese_assignment_id e = Some x ∧ ese_recorded_by e = esa_stakeholder_subject x ∧
      ese_category e ∈ permitted (esa_stakeholder_role x)
}.

Lemma same_scope_matches x y : same_scope x y → scope_matches x = scope_matches y.
Proof. intros (H1 & _ & H3 & H4). unfold scope_matches. by rewrite H1, H3, H4. Qed.

Lemma permitted_scope x c :
  scope_matches x = true → category_refused (esa_stakeholder_role x) c = false → c ∈ permitted (esa_stakeholder_role x).
Proof.
  unfold scope_matches, category_refused. intros Hs Hc. destruct (esa_stakeholder_role x); try done; simpl in *.
  - rewrite orb_false_r in Hc. by apply negb_false_iff, bool_decide_eq_true in Hc.
  - by apply negb_false_iff, bool_decide_eq_true in Hc.
Qed.

Lemma revoke_ids_lookup E ids t k :
  revoke_ids E ids t !! k = if decide (k ∈ ids) then revoked E <$> t !! k else t !! k.
Proof.
  revert t. induction ids as [|i ids IH]; intros t; [done|].
  change (revoke_ids E (i :: ids) t) with (revoke_ids E ids (alter (revoked E) i t)). rewrite IH.
  destruct (decide (i = k)) as [->|Hne].
  - rewrite lookup_alter_eq. rewrite (decide_True (P := k ∈ k :: ids)) by left. destruct (decide _); [|done]. by destruct (t !! k).
  - rewrite lookup_alter_ne by done. destruct (decide (k ∈ ids)).
    + by rewrite decide_True by (by right).
    + rewrite decide_False; [done|]. rewrite elem_of_cons. naive_solver.
Qed.

Lemma access_move_ok who V V' : access_move who V V' → access_ok V → access_ok V'.
Proof.
  intros HM [C X A V0]. destruct HM as [V evs|V E a id s r ev Hn _ Hg|V E ids|V E s|V s r asg id x ev _ Hx Hs Hr Hkeep Hall He|
    V id e x evs Hx Hby Hcat]; split; simpl; intros i y Hi.
  all: try (apply C in Hi as (w & Hw & Hgr); exists w; rewrite ?elem_of_app; by auto).
  all: try (apply X in Hi as (w & j & z & Hw & Hgr); exists w, j, z; rewrite ?elem_of_app; by auto).
  all: try (by eapply A). all: try (by eapply V0).
  - destruct (decide (id = i)) as [<-|]; [rewrite lookup_insert_eq in Hi; simplify_eq|rewrite lookup_insert_ne in Hi by done].
    + exists ev. split; [apply elem_of_app; right; left|done].
    + apply C in Hi as (w & Hw & Hgr). exists w. rewrite elem_of_app. auto.
  - rewrite revoke_ids_lookup in Hi. destruct (decide _); [|by apply C].
    apply fmap_Some in Hi as (z & Hz & ->). by apply C in Hz.
  - destruct (decide (s = i)) as [<-|]; [|rewrite lookup_alter_ne in Hi by done; by apply X].
    rewrite lookup_alter_eq in Hi. apply fmap_Some in Hi as (z & Hz & ->).
    apply X in Hz as (w & j & z' & Hw & Hgr). exists w, j, z'. unfold suspended. destruct (assigned z); naive_solver.
  - destruct (decide (s = i)) as [<-|]; [rewrite lookup_insert_eq in Hi; simplify_eq|rewrite lookup_insert_ne in Hi by done].
    + exists ev, id, x. rewrite elem_of_app. split_and!; try done. right. left.
    + apply X in Hi as (w & j & z & Hw & Hgr & Hz & Hsu & Hro). destruct (Hkeep j z Hz) as (z' & Hz' & S1 & S2 & _).
      exists w, j, z'. rewrite elem_of_app. split_and!; try done; [by left|congruence|congruence].
  - destruct (Hall i y Hi) as [|(y0 & Hy0 & Hsc)]; [done|]. rewrite <-(same_scope_matches _ _ Hsc). by eapply A.
  - apply V0 in Hi as (z & Hz & Hsu & Hro). destruct (Hkeep _ z Hz) as (z' & Hz' & S1 & S2 & _).
    exists z'. split; [done|]. by rewrite <-S1, <-S2.
  - destruct (decide (id = i)) as [<-|]; [rewrite lookup_insert_eq in Hi; simplify_eq|rewrite lookup_insert_ne in Hi by done].
    + exists x. split_and!; [done|done|]. apply permitted_scope; [by eapply A|done].
    + by apply V0 in Hi.
Qed.

(** ** The handlers refine it *)

Definition moves (who : list string) : relation db := λ d d', rtc (access_move who) (view d) (view d').
#[export] Instance moves_preorder who : PreOrder (moves who).
Proof. split; unfold moves; [intros d; reflexivity|intros a b c; apply transitivity]. Qed.

Lemma moves_log who d E a action kind oid md u d' :
  insert_activity E a action kind oid md d = Ok (u, d') → moves who d d'.
Proof.
  unfold insert_activity. intros ->%modify_ok.
  exact (rtc_once _ _ (am_log who (view d)
    [mk_activity_event (a_openId a) (a_role a) action kind oid (db_now E) md None])).
Qed.
Lemma moves_same who d d' : view d' = view d → moves who d d'.
Proof. unfold moves. intros ->. reflexivity. Qed.

Lemma moves_grant who E a new_id s r action md d id d1 u d' :
  s ∈ who → insert_grant E a new_id s r d = Ok (id, d1) →
  insert_activity E a action "user_role_assignment" (Some id) md d1 = Ok (u, d') →
  (action = "operator_role.granted" ∧ md = grant_metadata s r ∨
   action = "operator_role.changed" ∧ ∃ from, md = change_metadata s from r) →
  moves who d d'.
Proof.
  unfold insert_grant, insert_activity. intros Hs H1 ->%modify_ok Hm. db_inv.
  refine (rtc_once _ _ (am_grant who (view d) E a _ s r
    (mk_activity_event (a_openId a) (a_role a) action "user_role_assignment" (Some _) (db_now E) md None) _ Hs _)); done.
Qed.

Lemma resolve_same who E a s : act_respects (moves who) (resolveOperatorAccessRequest E a s).
Proof. intros d. by apply moves_same. Qed.
Lemma attempt_same who E s n e : act_respects (moves who) (recordOperatorAccessAttempt E s n e).
Proof. intros d. by apply moves_same. Qed.
Lemma lift_same {A} who (r : res A) : act_respects (moves who) (lift r).
Proof. intros d. by apply moves_same. Qed.

Lemma grant_moves E E' v a id s r : act_respects (moves [s]) (grantOperatingRole E E' v a id s r).
Proof.
  apply act_throw_if_respects; [apply _|]. intros _.
  apply act_bind_respects; [apply _|..].
  - apply transaction_respects; [apply _|]. intros d x d' H.
    apply tx_bind_ok in H as (o & d1 & [_ ->]%gets_ok & H). apply tx_bind_ok in H as (k & d1 & H1 & H).
    destruct o as [y|]; [tx_inv; by eapply moves_log|].
    eapply (moves_grant _ E a id s r); [left|done|done|by left].
  - intros _. apply act_bind_respects; [apply _|apply resolve_same|]. intros _ d. by apply moves_same.
Qed.

(** *** Revoking *)

(** No other grant of the same role is active or was revoked at this instant:
    what [UNIQUE (user_subject, role, revoked_at)] asks of the revocation of [l]. *)
Definition revocable (E : env) (l : list (uuid * user_role_assignment)) (t : gmap uuid user_role_assignment) : Prop :=
  ∀ x k y, x ∈ l → t !! k = Some y → k ≠ x.1 → same_grant x.2 y = true →
    ura_revoked_at y ≠ Some (db_now E) ∧ k ∉ l.*1.

Lemma revocable_cons E x l t :
  t !! x.1 = Some x.2 → NoDup (x :: l).*1 → (∀ z, z ∈ l → t !! z.1 = Some z.2) →
  revocable E (x :: l) t ↔
  (∀ k y, t !! k = Some y → k ≠ x.1 → same_grant x.2 y = true → ura_revoked_at y ≠ Some (db_now E)) ∧
  revocable E l (alter (revoked E) x.1 t).
Proof.
  intros Hx [Hnin Hnd]%NoDup_cons Hl. unfold revocable. split.
  - intros H. split; [intros k y Hk Hne Hs; by apply (H x k y); [left|..]|].
    intros z k y Hz Hk Hne Hs. destruct (decide (k = x.1)) as [->|].
    + rewrite lookup_alter_eq, Hx in Hk. simplify_eq/=. exfalso.
      destruct (H z x.1 x.2) as [_ []]; [by right|done|done|exact Hs|left].
    + rewrite lookup_alter_ne in Hk by done. destruct (H z k y) as [H1 H2]; [by right|done..|].
      split; [done|]. intros Hin. apply H2. by right.
  - intros [H1 H2] z k y Hz Hk Hne Hs. apply elem_of_cons in Hz as [->|Hz].
    + split; [by eapply H1|]. intros Hin. apply elem_of_cons in Hin as [|Hin]; [done|].
      apply list_elem_of_fmap in Hin as (w & -> & Hw). pose proof (Hl w Hw). simplify_eq.
      destruct (H2 w x.1 (revoked E x.2)) as [[] _]; [done|by rewrite lookup_alter_eq, Hx|done| |done].
      unfold same_grant in *. simpl. unbool. repeat (apply andb_true_iff; split); by apply bool_decide_eq_true.
    + destruct (decide (k = x.1)) as [->|].
      * simplify_eq. destruct (H2 z x.1 (revoked E x.2)) as [[] _]; [done|by rewrite lookup_alter_eq, Hx|done|done|done].
      * destruct (H2 z k y) as [H3 H4]; [done|by rewrite lookup_alter_ne|done..|]. split; [done|].
        intros [?|?]%elem_of_cons; done.
Qed.

Lemma set_core_compose f g d :
  set user_role_assignments f (set user_role_assignments g d) = set user_role_assignments (λ t, f (g t)) d.
Proof. done. Qed.

(** Revoking a list of rows succeeds exactly when it is revocable. *)
Lemma revoke_each E l d :
  NoDup l.*1 → (∀ x, x ∈ l → user_role_assignments d !! x.1 = Some x.2) →
  (revocable E l (user_role_assignments d) ∧
     for_each (revoke E) l d = Ok (tt, set user_role_assignments (revoke_ids E l.*1) d)) ∨
  (¬ revocable E l (user_role_assignments d) ∧ ∃ e, for_each (revoke E) l d = Throw e).
Proof.
  revert d. induction l as [|x l IH]; intros d Hnd Hl.
  - left. split; [intros ??? Hx; by apply elem_of_nil in Hx|]. destruct d. by match goal with m : more_tables |- _ => destruct m end.
  - assert (user_role_assignments d !! x.1 = Some x.2) as Hx by (apply Hl; left).
    rewrite (revocable_cons E x l _ Hx Hnd) by (intros z Hz; apply Hl; by right). cbn [for_each].
    destruct (any (λ k y, negb (bool_decide (k = x.1)) && same_grant x.2 y &&
      bool_decide (ura_revoked_at y = Some (db_now E))) (user_role_assignments d)) eqn:Hany.
    + right. split.
      * apply any_true in Hany as (k & y & Hk & Hp). unbool. intros [Hno _]. by eapply Hno.
      * eexists. apply tx_throw_run. unfold revoke. eapply tx_bind_run; [apply gets_run|]. cbv beta. by rewrite Hany.
    + assert (revoke E x d = Ok (tt, set user_role_assignments (alter (revoked E) x.1) d)) as Hr.
      { unfold revoke. eapply tx_bind_run; [apply gets_run|]. cbv beta. by rewrite Hany. }
      apply NoDup_cons in Hnd as [Hnin Hnd].
      destruct (IH (set user_role_assignments (alter (revoked E) x.1) d)) as [[H1 H2]|[H1 [e H2]]]; [done| |left|right].
      * intros z Hz. change (alter (revoked E) x.1 (user_role_assignments d) !! z.1 = Some z.2).
        rewrite lookup_alter_ne; [apply Hl; by right|]. intros Heq. apply Hnin. rewrite Heq. by apply list_elem_of_fmap_2.
      * split; [split; [|done]|].
        -- intros k y Hk Hne Hs Hrev. apply (proj1 (any_false _ _) Hany) in Hk.
           by rewrite Hs, (bool_decide_eq_true_2 _ Hrev), (bool_decide_eq_false_2 _ Hne) in Hk.
        -- eapply tx_bind_run; [done|]. rewrite H2. by rewrite set_core_compose.
      * split; [by intros [_ ?]|]. exists e. by eapply tx_bind_run.
Qed.

Lemma active_rows_spec v s d x :
  x ∈ active_rows v s d ↔ user_role_assignments d !! x.1 = Some x.2 ∧ v x.1 = true ∧ active s x.2 = true.
Proof. destruct x as [k r]. unfold active_rows. by rewrite elem_of_select, andb_true_iff. Qed.
Lemma active_rows_nodup v s d : NoDup (active_rows v s d).*1.
Proof. apply NoDup_select_fst. Qed.
Lemma filter_fst_nodup {A B} (p : A * B → bool) (l : list (A * B)) : NoDup l.*1 → NoDup (List.filter p l).*1.
Proof.
  induction l as [|x l IH]; [done|]. intros [Hx Hl]%NoDup_cons. simpl. destruct (p x); [|by apply IH].
  apply NoDup_cons. split; [|by apply IH]. intros (y & Hy & Hin)%list_elem_of_fmap. apply Hx.
  apply list_elem_of_In, filter_In in Hin as [Hin%list_elem_of_In _]. rewrite Hy. by apply list_elem_of_fmap_2.
Qed.

Lemma revoke_moves who E l d u d' :
  NoDup l.*1 → (∀ x, x ∈ l → user_role_assignments d !! x.1 = Some x.2) →
  for_each (revoke E) l d = Ok (u, d') → d' = set user_role_assignments (revoke_ids E l.*1) d ∧ moves who d d'.
Proof.
  intros Hnd Hl H. destruct (revoke_each E l d Hnd Hl) as [[_ H']|[_ [e H']]]; rewrite H' in H; [|done].
  simplify_eq. split; [done|]. exact (rtc_once _ _ (am_revoke who (view d) E l.*1)).
Qed.

Lemma active_filter_rows v s d p x :
  x ∈ List.filter p (active_rows v s d) → user_role_assignments d !! x.1 = Some x.2.
Proof. by intros [[? _]%list_elem_of_In%active_rows_spec _]%list_elem_of_In%filter_In. Qed.

Lemma change_moves E v a id s r : act_respects (moves [s]) (changeOperatorRole E v a id s r).
Proof.
  apply transaction_respects; [apply _|]. intros d x d' H.
  apply tx_bind_ok in H as (rows & d0 & [<- ->]%gets_ok & H).
  apply tx_bind_ok in H as (u & d1 & H1 & H).
  apply (revoke_moves [s]) in H1 as [_ H1]; [|apply filter_fst_nodup, active_rows_nodup|apply active_filter_rows].
  apply tx_bind_ok in H as (k & d2 & H2 & H). apply tx_bind_ok in H as (u' & d3 & H3 & [_ ->]%mret_ok).
  etransitivity; [exact H1|]. destruct (List.find _ _) as [y|]; [tx_inv; by eapply moves_log|].
  eapply (moves_grant _ E a id s r); [left|done|done|]. right. split; [done|by eexists].
Qed.

Lemma deactivate_moves kc E v a k s reason : act_respects (moves []) (deactivateOperator kc E v a k s reason).
Proof.
  apply act_throw_if_respects; [apply _|]. intros _. apply act_bind_respects; [apply _|..].
  - apply transaction_respects; [apply _|]. intros d x d' H.
    apply tx_bind_ok in H as (rows & d0 & [<- ->]%gets_ok & H). apply tx_bind_ok in H as (u & d1 & H1 & H).
    apply (revoke_moves []) in H1 as [_ H1]; [|apply active_rows_nodup|intros y [? _]%active_rows_spec; done].
    apply tx_bind_ok in H as (u' & d2 & ->%modify_ok & H). etransitivity; [exact H1|].
    etransitivity; [|by eapply moves_log]. exact (rtc_once _ _ (am_suspend [] (view d1) E s)).
  - intros _. apply act_bind_respects; [apply _|apply lift_same|]. intros _ d. by apply moves_same.
Qed.

(** *** Assigning *)

Lemma upsert_spec id row d k d' :
  upsert_assignment id row d = Ok (k, d') →
  scope_matches row = true ∧
  (∃ asg x, d' = set external_stakeholder_assignments (λ _, asg) d ∧ asg !! k = Some x ∧ same_scope row x ∧
    (∀ i y, external_stakeholder_assignments d !! i = Some y → ∃ y', asg !! i = Some y' ∧ same_scope y y') ∧
    (∀ i y, asg !! i = Some y → scope_matches y = true ∨
      ∃ y0, external_stakeholder_assignments d !! i = Some y0 ∧ same_scope y0 y)).
Proof.
  unfold upsert_assignment. intros H. apply tx_bind_ok in H as (u & d0 & [Hc ->]%enforce_ok & H).
  apply Forall_cons in Hc as [_ Hc]. apply Forall_cons in Hc as [Hsc _]. simpl in Hsc. split; [done|].
  apply tx_bind_ok in H as (o & d0 & [Ho ->]%gets_ok & H). destruct o as [[j y]|].
  - apply head_Some_elem_of in Ho as [Hj Hs]%elem_of_select. exfalso.
    unfold same_assignment, same_key in Hs. unfold scope_matches in Hsc.
    destruct (esa_stakeholder_role row); try done;
      destruct (esa_counterparty_id row), (esa_dossier_id row), (esa_counterparty_id y), (esa_dossier_id y);
      simpl in *; rewrite ?andb_false_r in *; done.
  - db_inv. exists (<[id := row]> (external_stakeholder_assignments d)), row. split; [done|].
    split; [apply lookup_insert_eq|]. split; [by split_and!|]. split.
    + intros i y Hi. exists y. rewrite lookup_insert_ne by (intros <-; congruence). by split_and!.
    + intros i y Hi. destruct (decide (id = i)) as [<-|]; [rewrite lookup_insert_eq in Hi; simplify_eq; by left|].
      rewrite lookup_insert_ne in Hi by done. right. exists y. by split_and!.
Qed.

Lemma assign_moves E E' a id i : act_respects (moves [exi_stakeholderSubject i]) (assignExternalStakeholder E E' a id i).
Proof.
  apply act_throw_if_respects; [apply _|]. intros _. apply act_bind_respects; [apply _|..].
  - apply transaction_respects; [apply _|]. intros d x d' H.
    apply tx_bind_ok in H as (u & d0 & [_ ->]%throw_if_ok & H). apply tx_bind_ok in H as (u' & d0 & ->%modify_ok & H).
    apply tx_bind_ok in H as (u1 & d1 & H1 & H). apply tx_bind_ok in H as (u2 & d2 & H2 & H).
    assert (d1 = set operator_role_assignments (<[exi_stakeholderSubject i :=
      mk_operator_role_assignment (exi_role i) EsAssigned (a_openId a) (db_now E) None]>) d) as ->
      by (destruct (exi_counterpartyId i); db_inv; done).
    assert (d2 = set operator_role_assignments (<[exi_stakeholderSubject i :=
      mk_operator_role_assignment (exi_role i) EsAssigned (a_openId a) (db_now E) None]>) d) as ->
      by (destruct (exi_dossierId i); db_inv; done). clear H1 H2.
    apply tx_bind_ok in H as (k & d1 & (_ & asg & y & -> & Hk & Hs & Hkeep & Hall)%upsert_spec & H).
    apply tx_bind_ok in H as (u3 & d2 & H & [-> ->]%mret_ok). unfold external_activity in H. apply modify_ok in H as ->.
    destruct Hs as (S1 & S2 & _). simpl in S1, S2.
    refine (rtc_once _ _ (am_assign _ (view d) (exi_stakeholderSubject i)
      (mk_operator_role_assignment (exi_role i) EsAssigned (a_openId a) (db_now E) None) asg k y
      (mk_activity_event (a_openId a) (a_role a) _ _ (Some k) (db_now E) _ None) _ Hk _ _ Hkeep Hall _)); [left|done|done|done].
  - intros k. apply act_bind_respects; [apply _|apply resolve_same|]. intros _ d. by apply moves_same.
Qed.

Lemma evidence_moves E a id asg c uri sha :
  act_respects (moves []) (recordExternalStakeholderEvidence E a id asg c uri sha).
Proof.
  apply transaction_respects; [apply _|]. intros d x d' H.
  apply tx_bind_ok in H as (o & d0 & [<- ->]%gets_ok & H). apply tx_bind_ok in H as (row & d0 & [Hr ->]%require_ok & H).
  destruct (external_stakeholder_assignments d !! asg) as [r|] eqn:Hasg; [|done].
  destruct (assignment_of a r) eqn:Ha; [|done]. simplify_eq.
  apply tx_bind_ok in H as (u & d0 & [Hc ->]%throw_if_ok & H). apply tx_bind_ok in H as (o & d1 & H1 & H).
  apply insert_or_nothing_ok in H1 as [_ [(-> & -> & _)|(-> & H1 & _)]].
  - tx_inv. reflexivity.
  - apply insert_row_ok in H1 as (_ & _ & _ & _ & ->).
    apply tx_bind_ok in H as (u' & d2 & H & [_ ->]%mret_ok). unfold external_activity in H. apply modify_ok in H as ->.
    unfold assignment_of in Ha. unbool.
    refine (rtc_once _ _ (am_evidence [] (view d) id _ row [_] _ _ _)); done.
Qed.

Lemma customer_moves who E a id i : act_respects (moves who) (createPostgresCustomer E a id i).
Proof.
  apply transaction_respects; [apply _|]. intros d x d' H.
  apply tx_bind_ok in H as (u & d1 & (_ & _ & _ & _ & ->)%insert_row_ok & H).
  apply tx_bind_ok in H as (u' & d2 & H & [_ ->]%mret_ok). etransitivity; [|by eapply moves_log]. by apply moves_same.
Qed.

Definition onboarded (create : string → string → res (string * string)) (i : onboard_input) : list string :=
  match create (oi_name i) (oi_email i) with Ok account => [account.1] | Throw _ => [] end.

Lemma onboard_moves create clock v a c id hex i :
  act_respects (moves (onboarded create i)) (onboardOperator create clock v a c id hex i).
Proof.
  intros d. unfold onboardOperator, onboarded, lift, mbind at 1, act_bind at 1.
  destruct (create (oi_name i) (oi_email i)) as [account|e]; [|reflexivity]. revert d.
  change (act_respects (moves [account.1]) (onboard_account clock v a c id hex i account)).
  assert (∀ B (b : B), act_respects (moves [account.1]) (mret b)) as Hret by (intros B b d; by apply moves_same).
  apply act_bind_respects; [apply _|apply customer_moves|]. intros x. apply act_bind_respects; [apply _| |intros _; apply Hret].
  destruct (includes _ _).
  - apply act_bind_respects; [apply _|apply grant_moves|intros _; apply Hret].
  - apply act_bind_respects; [apply _|exact (assign_moves _ _ _ _ (mk_external_input _ _ _ _))|intros _; apply Hret].
Qed.

(** ** Runs *)

(** One request; the list names the subjects it may give authority to. Handlers
    of other modules add to the log and leave these tables alone. *)
Inductive access_step : list string → relation db :=
  | as_attempt E s n e d : access_step [] d (recordOperatorAccessAttempt E s n e d).2
  | as_grant E E' v a id s r d : access_step [s] d (grantOperatingRole E E' v a id s r d).2
  | as_change E v a id s r d : access_step [s] d (changeOperatorRole E v a id s r d).2
  | as_deactivate kc E v a k s reason d : access_step [] d (deactivateOperator kc E v a k s reason d).2
  | as_assign E E' a id i d : access_step [exi_stakeholderSubject i] d (assignExternalStakeholder E E' a id i d).2
  | as_evidence E a id asg c uri sha d : access_step [] d (recordExternalStakeholderEvidence E a id asg c uri sha d).2
  | as_onboard create clock v a c id hex i d : access_step (onboarded create i) d (onboardOperator create clock v a c id hex i d).2
  | as_elsewhere d d' evs : view d' = view d <| v_log ::= (λ l, l ++ evs)%list |> → access_step [] d d'.

Lemma access_step_moves who d d' : access_step who d d' → moves who d d'.
Proof.
  intros []; [apply attempt_same|apply grant_moves|apply change_moves|apply deactivate_moves|apply assign_moves|
    apply evidence_moves|apply onboard_moves|].
  unfold moves. match goal with H : view _ = _ |- _ => rewrite H end. apply rtc_once, am_log.
Qed.

Definition any_access_step : relation db := λ d d', ∃ who, access_step who d d'.

Lemma access_run_ok d d' : rtc any_access_step d d' → access_ok (view d) → access_ok (view d').
Proof.
  induction 1 as [|d1 d2 d3 [who Hs%access_step_moves] _ IH]; [done|]. intros Hok. apply IH. clear IH.
  unfold moves in Hs. revert Hok. induction Hs as [|V1 V2 V3 H1 _ IH]; [done|]. intros Hok. by eapply IH, access_move_ok.
Qed.

Lemma empty_access_ok : access_ok (view empty_db).
Proof. by split. Qed.

(** What resolving means. *)
Lemma resolve_Some s d role :
  resolvePostgresOperatingRole s d = Some role →
  (∃ r, operator_role_assignments d !! s = Some r ∧ assigned r = true ∧ ora_role r = role) ∨
  (∃ id r, user_role_assignments d !! id = Some r ∧ active s r = true ∧ ura_role r = role).
Proof.
  unfold resolvePostgresOperatingRole. intros H%head_Some_elem_of. apply elem_of_app in H as [H|H].
  - destruct (operator_role_assignments d !! s) as [r|]; [|by apply elem_of_nil in H].
    destruct (assigned r) eqn:Ha; [|by apply elem_of_nil in H]. apply list_elem_of_singleton in H as ->. left. by exists r.
  - right. rewrite (order_by_perm role_rank) in H. apply list_elem_of_fmap in H as (r & -> & H).
    apply list_elem_of_fmap in H as ([k r'] & -> & [Hk Ha]%elem_of_select). by exists k, r'.
Qed.

(** C28. Authority is granted on record: on every run, in any interleaving of the
    handlers, the role a subject resolves to stands in an active grant of that
    role to the subject, or in the subject's assigned external role, with an
    assignment that exists for the subject in that role; and the activity log has
    the event that recorded that grant or that assignment, by the actor who is
    noted in the row as having assigned it. Evidence of external stakeholders was
    recorded by the assignee, in a category its role permits. *)
Theorem authority_is_granted d :
  rtc any_access_step empty_db d →
  (∀ subject role, resolvePostgresOperatingRole subject d = Some role →
    ∃ ev id, ev ∈ activity_events d ∧
      ((∃ r, user_role_assignments d !! id = Some r ∧ active subject r = true ∧ ura_role r = role ∧ grants ev id subject role (ura_assigned_by r)) ∨
       (∃ g x, operator_role_assignments d !! subject = Some g ∧ assigned g = true ∧ ora_role g = role ∧
          external_stakeholder_assignments d !! id = Some x ∧ assigns ev id (ora_assigned_by g) ∧
          esa_stakeholder_subject x = subject ∧ esa_stakeholder_role x = role))) ∧
  (∀ id e, external_stakeholder_evidence d !! id = Some e →
    ∃ x, external_stakeholder_assignments d !! ese_assignment_id e = Some x ∧
      ese_recorded_by e = esa_stakeholder_subject x ∧ ese_category e ∈ permitted (esa_stakeholder_role x)).
Proof.
  intros Hrun. pose proof (access_run_ok _ _ Hrun empty_access_ok) as [C X _ V0]. simpl in *. split; [|apply V0].
  intros s role [(g & Hg & Has & <-)|(id & r & Hr & Ha & <-)]%resolve_Some.
  - pose proof (X _ _ Hg) as (ev & id & x & Hev & He & Hx & S1 & S2). exists ev, id. split; [done|]. right. exists g, x. by split_and!.
  - pose proof (C _ _ Hr) as (ev & Hev & Hg). exists ev, id. split; [done|]. left. exists r. split_and!; try done.
    unfold active in Ha. unbool. by subst.
Qed.

(** ** Deactivation *)

(** No external role, and no active grants but those that were there before and
    were left out: [left] says which. *)
Definition stripped (s : string) (left : uuid → user_role_assignment → Prop) (V : access_view) : Prop :=
  (∀ r, v_ext V !! s = Some r → assigned r = false) ∧ (∀ id r, v_core V !! id = Some r → active s r = true → left id r).

Lemma active_revoked E s r : active s (revoked E r) = false.
Proof. unfold active. apply andb_false_r. Qed.
Lemma assigned_suspended E r : assigned (suspended E r) = false.
Proof. unfold suspended. destruct (assigned r) eqn:Ha; [done|done]. Qed.

Lemma move_stripped who s left V V' : s ∉ who → access_move who V V' → stripped s left V → stripped s left V'.
Proof.
  intros Hs HM [HX HC]. destruct HM as [V evs|V E a id s' r ev Hn Hw _|V E ids|V E s'|V s' r asg id x ev Hw _ _ _ _ _ _|
    V id e x evs _ _ _]; split; simpl; try done.
  - intros i y Hi. destruct (decide (id = i)) as [<-|]; [rewrite lookup_insert_eq in Hi; simplify_eq|
      rewrite lookup_insert_ne in Hi by done; by eapply HC].
    unfold active, granted. simpl. rewrite bool_decide_eq_false_2; [done|set_solver].
  - intros i y Hi. rewrite revoke_ids_lookup in Hi. destruct (decide _); [|by eapply HC].
    apply fmap_Some in Hi as (z & _ & ->). by rewrite active_revoked.
  - intros y Hy. destruct (decide (s' = s)) as [->|]; [|rewrite lookup_alter_ne in Hy by done; by apply HX].
    rewrite lookup_alter_eq in Hy. apply fmap_Some in Hy as (z & _ & ->). apply assigned_suspended.
  - intros y Hy. rewrite lookup_insert_ne in Hy by set_solver. by apply HX.
Qed.

Lemma run_stripped s left d d' :
  rtc (λ x y, ∃ who, access_step who x y ∧ s ∉ who) d d' → stripped s left (view d) → stripped s left (view d').
Proof.
  induction 1 as [|d1 d2 d3 (who & Hs%access_step_moves & Hn) _ IH]; [done|]. intros Hok. apply IH. clear IH.
  unfold moves in Hs. revert Hok. induction Hs as [|V1 V2 V3 H1 _ IH]; [done|]. intros Hok. by eapply IH, move_stripped.
Qed.

Definition everything (_ : uuid) : bool := true.

(** The active grants of a subject that a snapshot does not have. *)
Definition unseen (visible : uuid → bool) (s : string) (d : db) (id : uuid) (r : user_role_assignment) : Prop :=
  user_role_assignments d !! id = Some r ∧ active s r = true ∧ visible id = false.
Lemma stripped_after E v s d asg evi l :
  stripped s (unseen v s d) (mk_view (revoke_ids E (active_rows v s d).*1 (user_role_assignments d))
    (alter (suspended E) s (operator_role_assignments d)) asg evi l).
Proof.
  split; simpl.
  - intros r Hx. rewrite lookup_alter_eq in Hx. apply fmap_Some in Hx as (z & _ & ->). apply assigned_suspended.
  - intros id r Hx Ha. rewrite revoke_ids_lookup in Hx. destruct (decide _) as [|Hnin].
    { apply fmap_Some in Hx as (z & _ & ->). by rewrite active_revoked in Ha. }
    split_and!; try done. apply not_true_iff_false. intros Hv. apply Hnin, (list_elem_of_fmap_2 fst _ (id, r)), active_rows_spec. by split_and!.
Qed.

(** Rows that cannot be revoked together block a deactivation. *)
Lemma deactivation_refused kc E v a k s reason d :
  ¬ revocable E (active_rows v s d) (user_role_assignments d) →
  ∃ e, deactivateOperator kc E v a k s reason d = (Throw e, d).
Proof.
  intros Hr. unfold deactivateOperator. rewrite act_throw_if_bind. case_bool_decide; [by eexists|].
  destruct (revoke_each E (active_rows v s d) d (active_rows_nodup _ _ _)
    (λ x Hx, proj1 (proj1 (active_rows_spec _ _ _ _) Hx))) as [[? _]|[_ [e Hrun]]]; [done|]. exists e.
  unfold mbind, act_bind, transaction, tx_bind, gets. by rewrite Hrun.
Qed.

(** What a subject without an external role can still resolve to. *)
Lemma stripped_resolve s left d role : stripped s left (view d) → resolvePostgresOperatingRole s d = Some role →
  ∃ id r, left id r ∧ ura_role r = role.
Proof.
  intros [HX HC] [(g & Hg & Ha & _)|(id & r & Hr & Ha & Hro)]%resolve_Some; [by rewrite (HX g Hg) in Ha|].
  exists id, r. split; [by apply (HC id r)|done].
Qed.

(** C29. Deactivation cuts off what it sees. Whatever rows of the grants its
    snapshot has, it commits exactly when the actor is not the subject and no
    role of the subject in the snapshot is granted twice (or was revoked at the
    same instant), and otherwise changes nothing. Once committed, whatever the
    identity provider answers, along every run in which no role is given to the
    subject, the subject has no external role, and a role it resolves to is one
    of a grant that was active when the deactivation ran and was not in its
    snapshot; so if the snapshot had every active grant of the subject, as it
    has when no grant commits during the deactivation, the subject resolves to
    no role, and keeps resolving to none. *)
Theorem deactivation_cuts_off kc E visible a k subject reason d :
  let outcome := deactivateOperator kc E visible a k subject reason d in
  (subject ≠ a_openId a ∧ revocable E (active_rows visible subject d) (user_role_assignments d) →
    outcome.1 = match kc k false with Ok _ => Ok subject | Throw e => Throw e end ∧
    ∀ d', rtc (λ x y, ∃ who, access_step who x y ∧ subject ∉ who) outcome.2 d' →
      (∀ role, resolvePostgresOperatingRole subject d' = Some role → ∃ id r, unseen visible subject d id r ∧ ura_role r = role) ∧
      ((∀ id r, user_role_assignments d !! id = Some r → active subject r = true → visible id = true) →
        resolvePostgresOperatingRole subject d' = None)) ∧
  (subject = a_openId a ∨ ¬ revocable E (active_rows visible subject d) (user_role_assignments d) →
    ∃ e, outcome = (Throw e, d)).
Proof.
  cbv zeta. unfold deactivateOperator. rewrite act_throw_if_bind.
  destruct (revoke_each E (active_rows visible subject d) d (active_rows_nodup _ _ _)
    (λ x Hx, proj1 (proj1 (active_rows_spec _ _ _ _) Hx))) as [[Hr Hrun]|[Hr [e Hrun]]].
  - split.
    + intros [Hne _]. rewrite bool_decide_eq_false_2 by done. unfold mbind, act_bind, transaction, tx_bind, gets, modify, insert_activity.
      rewrite Hrun. simpl. unfold lift. split; [by destruct (kc k false)|]. intros d' Hd'.
      assert (stripped subject (unseen visible subject d) (view d')) as Hst
        by (eapply run_stripped; [exact Hd'|]; destruct (kc k false); apply stripped_after).
      split; [intros role; by apply stripped_resolve|]. intros Hall.
      destruct (resolvePostgresOperatingRole subject d') as [role|] eqn:Hrole; [|done].
      destruct (stripped_resolve _ _ _ _ Hst Hrole) as (id & r & (H1 & H2 & H3) & _). specialize (Hall id r H1 H2). congruence.
    + intros [->|]; [|done]. rewrite bool_decide_eq_true_2 by done. by eexists.
  - split; [by intros [_ ?]|]. intros _. destruct (deactivation_refused kc E visible a k subject reason d Hr) as [e' He].
    exists e'. unfold deactivateOperator in He. by rewrite act_throw_if_bind in He.
Qed.

(** ** Changing a role *)

Definition external_role (s : string) (d : db) : option operating_role :=
  match operator_role_assignments d !! s with Some r => if assigned r then Some (ora_role r) else None | None => None end.

(** With a single core role, it is what the subject resolves to unless an
    external role masks it. *)
Lemma resolve_unique s d role :
  (∀ id r, user_role_assignments d !! id = Some r → active s r = true → ura_role r = role) →
  (∃ id r, user_role_assignments d !! id = Some r ∧ active s r = true) →
  resolvePostgresOperatingRole s d = Some (default role (external_role s d)).
Proof.
  intros Hall (id & r & Hr & Ha). unfold resolvePostgresOperatingRole, external_role.
  assert (head (order_by role_rank (ura_role <$> (select (λ _ r, active s r) (user_role_assignments d)).*2)) = Some role) as Hh.
  { assert (ura_role r ∈ order_by role_rank (ura_role <$> (select (λ _ r, active s r) (user_role_assignments d)).*2)) as Hin.
    { rewrite (order_by_perm role_rank). apply list_elem_of_fmap_2, (list_elem_of_fmap_2 snd _ (id, r)). by apply elem_of_select. }
    destruct (head (order_by _ _)) as [x|] eqn:Hx.
    - f_equal. apply head_Some_elem_of in Hx. rewrite (order_by_perm role_rank) in Hx.
      apply list_elem_of_fmap in Hx as (y & -> & Hy). apply list_elem_of_fmap in Hy as ([k z] & -> & [Hz Hact]%elem_of_select).
      by eapply Hall.
    - apply head_None in Hx. rewrite Hx in Hin. by apply elem_of_nil in Hin. }
  destruct (operator_role_assignments d !! s) as [x|]; [destruct (assigned x)|]; done.
Qed.

(** The grants of the subject in other roles than [role]. *)
Definition other_grants (subject : string) (role : operating_role) (d : db) : list (uuid * user_role_assignment) :=
  List.filter (λ x, negb (bool_decide (ura_role x.2 = role))) (active_rows everything subject d).

Lemma other_grants_spec s role d x :
  x ∈ other_grants s role d ↔
  user_role_assignments d !! x.1 = Some x.2 ∧ active s x.2 = true ∧ ura_role x.2 ≠ role.
Proof.
  unfold other_grants. rewrite list_elem_of_In, filter_In, <-list_elem_of_In, active_rows_spec, negb_true_iff, bool_decide_eq_false.
  naive_solver.
Qed.

(** After the revocations the active grants of the subject are in [role]. *)
Lemma revoked_others E s role d i r :
  revoke_ids E (other_grants s role d).*1 (user_role_assignments d) !! i = Some r →
  (active s r = true ↔ user_role_assignments d !! i = Some r ∧ active s r = true ∧ ura_role r = role) ∧
  (ura_user_subject r ≠ s → user_role_assignments d !! i = Some r).
Proof.
  rewrite revoke_ids_lookup. destruct (decide _) as [Hin|Hnin].
  - intros (z & Hz & ->)%fmap_Some. rewrite active_revoked. split; [naive_solver|]. intros Hne.
    apply list_elem_of_fmap in Hin as ([j y] & -> & (Hy & Ha & _)%other_grants_spec). simpl in *. simplify_eq.
    unfold active in Ha. unbool. by subst.
  - intros Hr. split; [|done]. split; [|naive_solver]. intros Ha. split_and!; try done.
    destruct (decide (ura_role r = role)); [done|]. exfalso. apply Hnin.
    apply (list_elem_of_fmap_2 fst _ (i, r)), other_grants_spec. by split_and!.
Qed.

Lemma revoke_ids_kept E s role d i r :
  user_role_assignments d !! i = Some r → active s r = false ∨ ura_role r = role →
  revoke_ids E (other_grants s role d).*1 (user_role_assignments d) !! i = Some r.
Proof.
  intros Hr Hor. rewrite revoke_ids_lookup, decide_False; [done|].
  intros ([j y] & -> & (Hy & Ha & Hro)%other_grants_spec)%list_elem_of_fmap. simpl in *. simplify_eq.
  destruct Hor; congruence.
Qed.

(** What a role change leaves in the table of grants. *)
Definition changed_table (E : env) (a : actor) (id : uuid) (s : string) (role : operating_role) (d : db) :
    gmap uuid user_role_assignment :=
  let t := revoke_ids E (other_grants s role d).*1 (user_role_assignments d) in
  match List.find (λ x, bool_decide (ura_role x.2 = role)) (active_rows everything s d) with
  | Some _ => t
  | None => <[id := granted E a s role]> t
  end.

Lemma change_run E a id s role d :
  revocable E (other_grants s role d) (user_role_assignments d) → user_role_assignments d !! id = None →
  ∃ d', changeOperatorRole E everything a id s role d = (Ok (s, role), d') ∧
    user_role_assignments d' = changed_table E a id s role d ∧
    operator_role_assignments d' = operator_role_assignments d.
Proof.
  intros Hrev Hid. unfold changed_table.
  pose proof (revoke_each E (other_grants s role d) d (filter_fst_nodup _ _ (active_rows_nodup _ _ _))
    (λ x Hx, proj1 (proj1 (other_grants_spec s role d x) Hx))) as Hrun. destruct Hrun as [[_ Hrun]|[? _]]; [|done].
  unfold changeOperatorRole. destruct (List.find _ _) as [x|] eqn:Hf; eexists.
  - split.
    { apply transaction_ok. eapply tx_bind_run; [apply gets_run|]. cbv beta.
      eapply tx_bind_run; [exact Hrun|]. cbv beta. rewrite Hf. eapply tx_bind_run; [reflexivity|].
      eapply tx_bind_run; [apply modify_run|]. reflexivity. }
    done.
  - split.
    { apply transaction_ok. eapply tx_bind_run; [apply gets_run|]. cbv beta.
      eapply tx_bind_run; [exact Hrun|]. cbv beta. rewrite Hf. eapply tx_bind_run.
      { unfold insert_grant. eapply (tx_bind_run _ _ _ tt); [|reflexivity]. apply insert_row_ok.
        split; [by apply Forall_nil|]. split; [|split; [by apply Forall_nil|split; [by apply Forall_nil|reflexivity]]].
        change (revoke_ids E (other_grants s role d).*1 (user_role_assignments d) !! id = None).
        rewrite revoke_ids_lookup, Hid. by destruct (decide _). }
      eapply tx_bind_run; [apply modify_run|]. reflexivity. }
    done.
Qed.

(** A role change moves the subject: when no other role of the subject is
    granted twice, it succeeds, leaves the subject with exactly the given core
    role and every other subject with the grants it had; the subject then
    resolves to that role unless an external role masks it. *)
Theorem role_change_exact E a id subject role d :
  revocable E (other_grants subject role d) (user_role_assignments d) → user_role_assignments d !! id = None →
  ∃ d', changeOperatorRole E everything a id subject role d = (Ok (subject, role), d') ∧
    (∀ i r, user_role_assignments d' !! i = Some r → active subject r = true → ura_role r = role) ∧
    (∀ i r, ura_user_subject r ≠ subject → user_role_assignments d' !! i = Some r ↔ user_role_assignments d !! i = Some r) ∧
    resolvePostgresOperatingRole subject d' = Some (default role (external_role subject d)).
Proof.
  intros Hrev Hid. destruct (change_run E a id subject role d Hrev Hid) as (d' & Hrun & Ht & Hx).
  exists d'. split; [done|].
  assert (∀ i r, user_role_assignments d' !! i = Some r → active subject r = true → ura_role r = role) as Hall.
  { rewrite Ht. unfold changed_table. intros i r. destruct (List.find _ _) as [x|].
    - intros Hi Ha. by apply (proj1 (revoked_others _ _ _ _ _ _ Hi)) in Ha as (_ & _ & ?).
    - rewrite lookup_insert_Some. intros [[_ <-]|[_ Hi]] Ha; [done|].
      by apply (proj1 (revoked_others _ _ _ _ _ _ Hi)) in Ha as (_ & _ & ?). }
  split; [done|]. split.
  - intros i r Hne. rewrite Ht. unfold changed_table.
    assert (revoke_ids E (other_grants subject role d).*1 (user_role_assignments d) !! i = Some r ↔
      user_role_assignments d !! i = Some r) as Hsame.
    { split; [intros Hi; by apply (revoked_others _ _ _ _ _ _ Hi)|]. intros Hi. apply revoke_ids_kept; [done|].
      left. unfold active. by rewrite bool_decide_eq_false_2. }
    destruct (List.find _ _); [done|]. rewrite lookup_insert_Some, Hsame. split; [|].
    + intros [[_ <-]|[_ ?]]; [by destruct Hne|done].
    + intros Hi. right. split; [congruence|done].
  - assert (external_role subject d' = external_role subject d) as Hext by (unfold external_role; by rewrite Hx).
    rewrite <-Hext. apply resolve_unique; [done|]. rewrite Ht. unfold changed_table.
    destruct (List.find _ _) as [[i r]|] eqn:Hf.
    + apply find_some in Hf as [Hin%list_elem_of_In Hro]. apply active_rows_spec in Hin as (Hi & _ & Ha).
      exists i, r. split; [|done]. apply revoke_ids_kept; [done|]. right. by apply bool_decide_eq_true in Hro.
    + exists id, (granted E a subject role). rewrite lookup_insert_eq. split; [done|].
      unfold active, granted. simpl. by rewrite bool_decide_eq_true_2.
Qed.
