(* ===== verification/AccessDemo.v ===== *)
(** * Access: a worked run and departures

    Witnesses of the theorems of [AccessProps], and behaviours of the handlers
    that differ from what their comments say. *)

From S2P Require Import Prelude Js Numeric Rows Schema Parties Access AccessProps.

Local Open Scope string_scope.
Local Open Scope Z_scope.

Definition admin : actor := mk_actor "admin-1" RoleAdmin.
Definition at_time (t : Z) : env := mk_env (t * 1000) (t * 1000000) 0.
Definition provider_up (_ : uuid) (_ : bool) : res unit := Ok tt.
Definition nothing (_ : uuid) : bool := false.

(** Ada asks for access, is granted the auditor role and becomes the contact of a
    provider. *)
Definition acc0 : db := empty_db <| counterparties := {[7%positive :=
  mk_counterparty "Lagoon Pay" "licensed_psp" "NG" 0 ∅]} |>.
Definition acc1 := (recordOperatorAccessAttempt (at_time 1) "kc_ada" (Some "Ada") None acc0).2.
Definition acc2 := (grantOperatingRole (at_time 2) (at_time 3) everything admin 1 "kc_ada" RoleAuditor acc1).2.
Definition contact : external_input := mk_external_input RoleProviderContact "kc_ada" (Some 7%positive) None.
Definition acc3 := (assignExternalStakeholder (at_time 4) (at_time 5) admin 2 contact acc2).2.

Lemma acc3_run : rtc any_access_step empty_db acc3.
Proof.
  eapply rtc_r; [|eexists; apply as_assign]. eapply rtc_r; [|eexists; apply as_grant]. eapply rtc_r; [|eexists; apply as_attempt].
  apply rtc_once. exists []. by apply (as_elsewhere _ _ []).
Qed.

(** Witness of [authority_is_granted]: the external role comes first. *)
Lemma authority_is_granted_witness :
  resolvePostgresOperatingRole "kc_ada" acc3 = Some RoleProviderContact ∧
  ∃ ev id, ev ∈ activity_events acc3 ∧
    ((∃ r, user_role_assignments acc3 !! id = Some r ∧ active "kc_ada" r = true ∧ ura_role r = RoleProviderContact ∧
        grants ev id "kc_ada" RoleProviderContact (ura_assigned_by r)) ∨
     (∃ g x, operator_role_assignments acc3 !! "kc_ada" = Some g ∧ assigned g = true ∧ ora_role g = RoleProviderContact ∧
        external_stakeholder_assignments acc3 !! id = Some x ∧ assigns ev id (ora_assigned_by g) ∧
        esa_stakeholder_subject x = "kc_ada" ∧ esa_stakeholder_role x = RoleProviderContact)).
Proof.
  split; [vm_compute; reflexivity|].
  refine (proj1 (authority_is_granted acc3 acc3_run) "kc_ada" RoleProviderContact _). vm_compute. reflexivity.
Defined.

(** Ada holds one core role: it can be revoked. *)
Lemma acc3_revocable E : revocable E (active_rows everything "kc_ada" acc3) (user_role_assignments acc3).
Proof.
  intros x k y Hx%active_rows_spec Hy Hne _. destruct Hx as [Hx _].
  assert (user_role_assignments acc3 = {[1%positive := granted (at_time 2) admin "kc_ada" RoleAuditor]}) as Ht
    by (vm_compute; reflexivity).
  rewrite Ht, lookup_singleton_Some in Hx, Hy. destruct Hx as [Hx _], Hy as [Hy _]. congruence.
Qed.

(** Witness of [deactivation_cuts_off], and of the pending request being resolved. *)
Lemma deactivation_cuts_off_witness :
  (deactivateOperator provider_up (at_time 6) everything admin 9 "kc_ada" "left" acc3).1 = Ok "kc_ada" ∧
  resolvePostgresOperatingRole "kc_ada"
    (deactivateOperator provider_up (at_time 6) everything admin 9 "kc_ada" "left" acc3).2 = None.
Proof.
  pose proof (proj1 (deactivation_cuts_off provider_up (at_time 6) everything admin 9 "kc_ada" "left" acc3)) as H.
  assert ("kc_ada" ≠ a_openId admin) as Hne by discriminate.
  specialize (H (conj Hne (acc3_revocable _))). split; [exact (proj1 H)|].
  apply (proj2 (proj2 H _ (rtc_refl _ _))). intros id r _ _. reflexivity.
Defined.

(** Witness of [role_change_exact]. *)
Lemma role_change_exact_witness :
  ∃ d', changeOperatorRole (at_time 6) everything admin 3 "kc_ada" RoleTreasuryOperator acc2 =
      (Ok ("kc_ada", RoleTreasuryOperator), d') ∧
    resolvePostgresOperatingRole "kc_ada" d' = Some RoleTreasuryOperator.
Proof.
  assert (revocable (at_time 6) (other_grants "kc_ada" RoleTreasuryOperator acc2) (user_role_assignments acc2)) as Hr.
  { intros x k y Hx%other_grants_spec Hy Hne _. destruct Hx as [Hx _].
    assert (user_role_assignments acc2 = {[1%positive := granted (at_time 2) admin "kc_ada" RoleAuditor]}) as Ht
      by (vm_compute; reflexivity).
    rewrite Ht, lookup_singleton_Some in Hx, Hy. destruct Hx as [Hx _], Hy as [Hy _]. congruence. }
  assert (user_role_assignments acc2 !! 3%positive = None) as Hn by (vm_compute; reflexivity).
  pose proof (role_change_exact (at_time 6) admin 3 "kc_ada" RoleTreasuryOperator acc2 Hr Hn) as (d' & H1 & _ & _ & H2).
  exists d'. split; [exact H1|]. rewrite H2. vm_compute. reflexivity.
Defined.

(** ** Departures *)

(** Two grants that do not see each other leave two active rows of one role:
    neither is refused, since [NULL]s are distinct in the unique key. From then on
    no deactivation of the subject can commit, at whatever time it is tried: the
    second row would be revoked at the instant of the first. *)
Definition race := (grantOperatingRole (at_time 4) (at_time 5) nothing admin 3 "kc_ada" RoleAuditor acc2).2.
Theorem double_grant_blocks_deactivation kc E a k reason :
  rtc any_access_step empty_db race ∧
  (∃ e, deactivateOperator kc E everything a k "kc_ada" reason race = (Throw e, race)) ∧
  resolvePostgresOperatingRole "kc_ada" race = Some RoleAuditor.
Proof.
  split; [|split; [|vm_compute; reflexivity]].
  - eapply rtc_r; [|eexists; apply as_grant]. eapply rtc_r; [|eexists; apply as_grant].
    eapply rtc_r; [|eexists; apply as_attempt]. apply rtc_once. exists []. by apply (as_elsewhere _ _ []).
  - apply deactivation_refused. intros H.
    assert (∀ i y, user_role_assignments race !! i = Some y → active "kc_ada" y = true →
      (i, y) ∈ active_rows everything "kc_ada" race) as Hin by (intros; by apply active_rows_spec).
    destruct (H (1%positive, granted (at_time 2) admin "kc_ada" RoleAuditor) 3%positive
      (granted (at_time 4) admin "kc_ada" RoleAuditor)) as [_ Hn]; [by apply Hin; vm_compute|by vm_compute|done|done|].
    apply Hn, (list_elem_of_fmap_2 fst _ (3%positive, granted (at_time 4) admin "kc_ada" RoleAuditor)), Hin; by vm_compute.
Qed.

(** A grant that commits after the snapshot of a deactivation is not revoked by
    it: the deactivation commits, and the subject keeps the role. *)
Theorem deactivation_misses_concurrent_grant :
  rtc any_access_step empty_db acc2 ∧
  let outcome := deactivateOperator provider_up (at_time 6) nothing admin 9 "kc_ada" "left" acc2 in
  outcome.1 = Ok "kc_ada" ∧ resolvePostgresOperatingRole "kc_ada" outcome.2 = Some RoleAuditor.
Proof.
  split; [|split; vm_compute; reflexivity]. eapply rtc_r; [|eexists; apply as_grant].
  eapply rtc_r; [|eexists; apply as_attempt]. apply rtc_once. exists []. by apply (as_elsewhere _ _ []).
Qed.

(** A role change is reported and logged, and changes nothing the subject can do,
    while an external role is assigned. *)
Theorem external_role_masks_change :
  let outcome := changeOperatorRole (at_time 6) everything admin 3 "kc_ada" RoleAdmin acc3 in
  outcome.1 = Ok ("kc_ada", RoleAdmin) ∧ resolvePostgresOperatingRole "kc_ada" outcome.2 = Some RoleProviderContact.
Proof. split; vm_compute; reflexivity. Qed.

(** A suspended external role hides an active core role in the directory. *)
Definition acc4 := (deactivateOperator provider_up (at_time 6) everything admin 9 "kc_ada" "left" acc3).2.
Definition acc5 := (grantOperatingRole (at_time 7) (at_time 8) everything admin 4 "kc_ada" RoleAdmin acc4).2.
Theorem directory_hides_core_role :
  resolvePostgresOperatingRole "kc_ada" acc5 = Some RoleAdmin ∧
  (re_role <$> roleBySubject acc5 !! "kc_ada", re_status <$> roleBySubject acc5 !! "kc_ada") =
    (Some RoleProviderContact, Some EsSuspended).
Proof. split; vm_compute; reflexivity. Qed.

(** A request once resolved is never reopened: a deactivated operator who signs
    in again has no role and is not listed. *)
Theorem returning_operator_not_listed :
  let d := (recordOperatorAccessAttempt (at_time 9) "kc_ada" (Some "Ada") None acc4).2 in
  resolvePostgresOperatingRole "kc_ada" d = None ∧ listOperatorAccessRequests d = [].
Proof. split; vm_compute; reflexivity. Qed.

(** The conflict clause of an assignment never fires, since one of its columns is
    [NULL]: assigning again adds a second row. *)
Theorem assigning_again_duplicates :
  let d := (assignExternalStakeholder (at_time 6) (at_time 7) admin 3 contact acc3).2 in
  length (listProviderContactAssignments "kc_ada" d) = 2%nat.
Proof. vm_compute. reflexivity. Qed.
