(* ===== verification/Rails.v ===== *)
(** * Rails: failover between two payment rails

    src/apps/control-plane/server/multiRailFailover.ts and yellowcardAdapter.ts.
    [execute] is asynchronous: it runs from one [await] to the next, and calls
    made concurrently interleave there. A call is a task, [start] is what runs
    before its first [await], [resume] what runs when an answer arrives; the rails
    answer whatever they like, or throw. *)

From S2P Require Import Prelude Js.

Local Open Scope string_scope.
Local Open Scope Z_scope.

(** ** Data *)

Inductive Status : Type := SSubmitted | SPending | SSettled | SFailed | SHeld | SUnknown.
#[export] Instance Status_eq_dec : EqDecision Status.
Proof. solve_decision. Defined.

Record Intent : Type := mk_intent { intent_id : string; idempotencyKey : string }.
Record Submission : Type := mk_submission {
  sub_status : Status;
  sub_providerRef : option string;
  sub_safeToRetry : option bool
}.
Record outcome : Type := mk_outcome { out_rail : string; out_submission : Submission }.

Inductive rail_error : Type :=
  | MissingKey
  | UnknownOutcome (message : string)
  | RailThrew.

(** ** One call of [execute] *)

(** The [await] a task is suspended at. *)
Inductive awaiting : Type := AwaitSubmit | AwaitQuery | AwaitSecondary.
#[export] Instance awaiting_eq_dec : EqDecision awaiting.
Proof. solve_decision. Defined.
Inductive task_state : Type :=
  | Waiting (w : awaiting)
  | Resolved (o : outcome)
  | Rejected (e : rail_error).

(** The [records] of the coordinator. *)
Abbreviation records := (gmap string outcome).

Definition accepted_status (s : Status) : bool := includes [SSubmitted; SPending; SSettled] s.
Definition may_fall_back (s : Submission) : bool :=
  default false (sub_safeToRetry s) && includes [SFailed; SHeld] (sub_status s).

Definition record (rs : records) (i : Intent) (rail : string) (s : Submission) : task_state * records :=
  match rs !! idempotencyKey i with
  | Some prior => (Resolved prior, rs)
  | None => (Resolved (mk_outcome rail s), <[idempotencyKey i := mk_outcome rail s]> rs)
  end.

Definition start (rs : records) (i : Intent) : task_state :=
  if negb (truthy (intent_id i)) || negb (truthy (idempotencyKey i)) then Rejected MissingKey
  else match rs !! idempotencyKey i with
       | Some cached => Resolved cached
       | None => Waiting AwaitSubmit
       end.

Definition after_first (rs : records) (i : Intent) (primary : string) (first : Submission) : task_state * records :=
  if accepted_status (sub_status first) then record rs i primary first
  else if negb (may_fall_back first)
  then (Rejected (UnknownOutcome "provider outcome unknown; fallback prohibited"), rs)
  else (Waiting AwaitSecondary, rs).

(** [None]: the rail threw. A throw of the secondary's [submit] rejects the call. *)
Definition resume (rs : records) (i : Intent) (primary secondary : string) (w : awaiting) (answer : option Submission) :
    task_state * records :=
  match w, answer with
  | AwaitSubmit, Some first => after_first rs i primary first
  | AwaitSubmit, None => (Waiting AwaitQuery, rs)
  | AwaitQuery, Some first => after_first rs i primary first
  | AwaitQuery, None => (Rejected (UnknownOutcome "provider outcome unknown; fallback prohibited"), rs)
  | AwaitSecondary, Some second =>
      if negb (accepted_status (sub_status second)) then (Rejected (UnknownOutcome "secondary outcome not accepted"), rs)
      else record rs i secondary second
  | AwaitSecondary, None => (Rejected RailThrew, rs)
  end.

(** ** Concurrent calls *)

(** A call with what it was answered so far. *)
Record task : Type := mk_task {
  t_intent : Intent;
  t_primary : string;
  t_secondary : string;
  t_answers : list (awaiting * option Submission);
  t_state : task_state
}.
Record coordinator : Type := mk_coordinator {
  c_records : records;
  c_tasks : gmap nat task
}.

Definition invoke (c : coordinator) (n : nat) (i : Intent) (primary secondary : string) : coordinator :=
  mk_coordinator (c_records c) (<[n := mk_task i primary secondary [] (start (c_records c) i)]> (c_tasks c)).
Definition answered (c : coordinator) (n : nat) (t : task) (w : awaiting) (answer : option Submission) : coordinator :=
  let '(state, rs) := resume (c_records c) (t_intent t) (t_primary t) (t_secondary t) w answer in
  mk_coordinator rs (<[n := mk_task (t_intent t) (t_primary t) (t_secondary t) (t_answers t ++ [(w, answer)])%list state]>
    (c_tasks c)).

Inductive rail_step : relation coordinator :=
  | rs_invoke c n i p s : c_tasks c !! n = None → rail_step c (invoke c n i p s)
  | rs_answer c n t w answer :
      c_tasks c !! n = Some t → t_state t = Waiting w → rail_step c (answered c n t w answer).
Definition idle : coordinator := mk_coordinator ∅ ∅.

(** ** Yellow Card *)

Record YellowCardResult : Type := mk_yellow {
  yc_reference : string;
  yc_sequenceId : string;
  yc_status : string;
  yc_retryableWithoutBusinessEffect : bool;
  yc_reason : string
}.
Definition normalizeYellowCardStatus (reference sequenceId rawStatus : string) : YellowCardResult :=
  let value := toLowerCase (trim rawStatus) in
  if includes ["complete"; "completed"; "settled"; "success"; "successful"] value then
    mk_yellow reference sequenceId "settled" false "Yellow Card independently reported a completed send"
  else if includes ["created"; "accepted"; "processing"; "pending"; "in_progress"; "awaiting_approval"] value then
    mk_yellow reference sequenceId "pending" false "Yellow Card send remains provisional"
  else if includes ["expired"; "cancelled"; "canceled"; "rejected"] value then
    mk_yellow reference sequenceId "failed" true "Yellow Card explicitly reported a non-executed send"
  else mk_yellow reference sequenceId "unknown" false "Yellow Card status is not safe to classify".
