(* ===== verification/RailsProps.v ===== *)
(** * Rails: agreement, safe fallback and a single acceptance *)

From S2P Require Import Prelude Js Rails.

Local Open Scope string_scope.

Definition key (t : task) : string := idempotencyKey (t_intent t).

(** The primary said that nothing was executed and a retry is safe. *)
Definition cleared (answers : list (awaiting * option Submission)) : Prop :=
  ∃ f, may_fall_back f = true ∧ ((AwaitSubmit, Some f) ∈ answers ∨ (AwaitQuery, Some f) ∈ answers).

(** What is known of a task, given the records. *)
Record task_ok (rs : records) (t : task) : Prop := {
  ok_resolved o : t_state t = Resolved o → rs !! key t = Some o;
  ok_secondary : t_state t = Waiting AwaitSecondary → cleared (t_answers t);
  ok_fallback a : (AwaitSecondary, a) ∈ t_answers t → cleared (t_answers t);
  ok_accepted w s : (w, Some s) ∈ t_answers t → accepted_status (sub_status s) = true → is_Some (rs !! key t)
}.
Definition rails_ok (c : coordinator) : Prop := map_Forall (λ _ t, task_ok (c_records c) t) (c_tasks c).

(** Outcomes once recorded stay. *)
Lemma record_spec rs i rail s :
  ∃ o, (record rs i rail s).1 = Resolved o ∧ (record rs i rail s).2 !! idempotencyKey i = Some o ∧
    rs ⊆ (record rs i rail s).2 ∧
    ∀ k, k ≠ idempotencyKey i → (record rs i rail s).2 !! k = rs !! k.
Proof.
  unfold record. destruct (rs !! idempotencyKey i) as [prior|] eqn:Hp; simpl.
  - exists prior. by split_and!.
  - exists (mk_outcome rail s). split; [done|]. split; [apply lookup_insert_eq|]. split; [by apply insert_subseteq|].
    intros k Hk. by rewrite lookup_insert_ne.
Qed.

(** The result of an answer: the call goes on, is refused, or is recorded. *)
Inductive resumed (rs : records) (t : task) (w : awaiting) (a : option Submission) : task_state → records → Prop :=
  | resumed_query : w = AwaitSubmit → a = None → resumed rs t w a (Waiting AwaitQuery) rs
  | resumed_fallback f : w ≠ AwaitSecondary → a = Some f → may_fall_back f = true → accepted_status (sub_status f) = false →
      resumed rs t w a (Waiting AwaitSecondary) rs
  | resumed_rejected e : (∀ f, a = Some f → accepted_status (sub_status f) = false) → resumed rs t w a (Rejected e) rs
  | resumed_recorded f rail : a = Some f → accepted_status (sub_status f) = true →
      resumed rs t w a (record rs (t_intent t) rail f).1 (record rs (t_intent t) rail f).2.

Lemma after_first_spec rs t w f : w ≠ AwaitSecondary →
  resumed rs t w (Some f) (after_first rs (t_intent t) (t_primary t) f).1 (after_first rs (t_intent t) (t_primary t) f).2.
Proof.
  intros Hw. unfold after_first. destruct (accepted_status (sub_status f)) eqn:Ha; [by eapply resumed_recorded|].
  destruct (may_fall_back f) eqn:Hm; simpl; [by eapply resumed_fallback|]. apply resumed_rejected. naive_solver.
Qed.
Lemma resume_spec rs t w a :
  resumed rs t w a (resume rs (t_intent t) (t_primary t) (t_secondary t) w a).1
    (resume rs (t_intent t) (t_primary t) (t_secondary t) w a).2.
Proof.
  destruct w, a as [f|]; simpl; try (by apply after_first_spec); try (by constructor).
  destruct (accepted_status (sub_status f)) eqn:Ha; simpl; [by eapply resumed_recorded|].
  apply resumed_rejected. naive_solver.
Qed.

Lemma resumed_mono rs t w a st rs' : resumed rs t w a st rs' → rs ⊆ rs' ∧ ∀ k, k ≠ key t → rs' !! k = rs !! k.
Proof. intros []; try done. destruct (record_spec rs (t_intent t) rail f) as (_ & _ & _ & ? & ?). done. Qed.

Lemma cleared_app answers x : cleared answers → cleared (answers ++ [x]).
Proof. intros (f & Hf & H). exists f. split; [done|]. rewrite !elem_of_app. naive_solver. Qed.

Lemma task_ok_grow rs rs' t : rs ⊆ rs' → task_ok rs t → task_ok rs' t.
Proof.
  intros Hs [A B C D]. split; [|done|done|].
  - intros o Ho. eapply lookup_weaken; [by apply A|done].
  - intros w s Hin Hacc. destruct (D w s Hin Hacc) as [o Ho]. exists o. by eapply lookup_weaken.
Qed.

Lemma resumed_ok rs t w a st rs' :
  t_state t = Waiting w → task_ok rs t → resumed rs t w a st rs' →
  task_ok rs' (mk_task (t_intent t) (t_primary t) (t_secondary t) (t_answers t ++ [(w, a)]) st).
Proof.
  intros Hw [_ B C D] Hr. pose proof (resumed_mono _ _ _ _ _ _ Hr) as [Hs _].
  assert (∀ x, (AwaitSecondary, x) ∈ (t_answers t ++ [(w, a)])%list → cleared (t_answers t ++ [(w, a)])) as Hfall.
  { intros x [Hx|Hx]%elem_of_app; [by eapply cleared_app, C|]. apply list_elem_of_singleton in Hx. simplify_eq.
    apply cleared_app. by apply B. }
  assert (∀ o, st = Resolved o → rs' !! idempotencyKey (t_intent t) = Some o) as Hres.
  { intros o Ho. destruct Hr as [| | |f rail]; try done.
    destruct (record_spec rs (t_intent t) rail f) as (o' & H1 & H2 & _). congruence. }
  split; simpl; [by apply Hres| |by apply Hfall|].
  - intros ->. inversion Hr as [|f Hne -> Hm _| |f rail Ha Hacc Heq]; subst.
    + exists f. split; [done|]. destruct w; [left|right|done]; apply elem_of_app; right; left.
    + destruct (record_spec rs (t_intent t) rail f) as (o' & H1 & _). congruence.
  - intros w' s [Hin|Hin]%elem_of_app Hacc.
    + destruct (D w' s Hin Hacc) as [o Ho]. exists o. by eapply lookup_weaken.
    + apply list_elem_of_singleton in Hin. simplify_eq. unfold key. simpl.
      destruct Hr as [|f|e He|f rail Ha _]; [done|simplify_eq; congruence|exfalso; pose proof (He s eq_refl); congruence|].
      simplify_eq. destruct (record_spec rs (t_intent t) rail f) as (o' & _ & ? & _). by exists o'.
Qed.

Lemma start_ok rs i p s : task_ok rs (mk_task i p s [] (start rs i)).
Proof.
  split; simpl; unfold start, key; simpl.
  - intros o. destruct (_ || _); [done|]. destruct (rs !! _) eqn:Hr; [|done]. naive_solver.
  - destruct (_ || _); [done|]. by destruct (rs !! _).
  - intros a []%elem_of_nil.
  - intros w x []%elem_of_nil.
Qed.

Lemma rail_step_ok c c' : rail_step c c' → rails_ok c → rails_ok c' ∧ c_records c ⊆ c_records c'.
Proof.
  intros [c0 n i p s Hn|c0 n t w a Ht Hw] Hok.
  - split; [|done]. apply map_Forall_insert_2; [apply start_ok|done].
  - unfold answered. pose proof (resume_spec (c_records c0) t w a) as Hr.
    destruct (resume _ _ _ _ _ _) as [st rs]. simpl in *. pose proof (resumed_mono _ _ _ _ _ _ Hr) as [Hs _].
    split; [|done]. apply map_Forall_insert_2.
    + eapply resumed_ok; [done| |done]. by eapply Hok.
    + eapply map_Forall_impl; [done|]. intros m x. by apply task_ok_grow.
Qed.

Lemma rail_run_ok c c' : rtc rail_step c c' → rails_ok c → rails_ok c' ∧ c_records c ⊆ c_records c'.
Proof.
  induction 1 as [|c1 c2 c3 H1 _ IH]; [done|]. intros Hok.
  apply rail_step_ok in H1 as [H1 H2]; [|done]. apply IH in H1 as [H3 H4]. split; [done|by etrans].
Qed.
Lemma idle_ok : rails_ok idle.
Proof. apply map_Forall_empty. Qed.

(** ** Calls that do not overlap *)

(** A call with a key starts only when no other call with that key is waiting. *)
Inductive serial_step : relation coordinator :=
  | ss_invoke c n i p s : c_tasks c !! n = None →
      (∀ m t w, c_tasks c !! m = Some t → key t = idempotencyKey i → t_state t ≠ Waiting w) →
      serial_step c (invoke c n i p s)
  | ss_answer c n t w a : c_tasks c !! n = Some t → t_state t = Waiting w → serial_step c (answered c n t w a).

Lemma serial_step_rail c c' : serial_step c c' → rail_step c c'.
Proof. intros []; by econstructor. Qed.

(** The [j]-th answer to call [n] accepted an intent with key [k] on [rail]. *)
Definition acceptance (c : coordinator) (k : string) (n j : nat) (rail : string) : Prop :=
  ∃ t w s, c_tasks c !! n = Some t ∧ key t = k ∧ t_answers t !! j = Some (w, Some s) ∧
    accepted_status (sub_status s) = true ∧ rail = if decide (w = AwaitSecondary) then t_secondary t else t_primary t.

Record serial_ok (c : coordinator) : Prop := {
  so_ok : rails_ok c;
  so_waiting n t w : c_tasks c !! n = Some t → t_state t = Waiting w → c_records c !! key t = None;
  so_one n t w m u v : c_tasks c !! n = Some t → t_state t = Waiting w → c_tasks c !! m = Some u →
    t_state u = Waiting v → key t = key u → n = m;
  so_unique k n j r m i r' : acceptance c k n j r → acceptance c k m i r' → n = m ∧ j = i
}.

Lemma acceptance_recorded c k n j r : rails_ok c → acceptance c k n j r → is_Some (c_records c !! k).
Proof.
  intros Hok (t & w & s & Ht & <- & Hj & Hacc & _). eapply ok_accepted; [by eapply Hok|by eapply list_elem_of_lookup_2|done].
Qed.

Lemma lookup_insert_cases {A} (m : gmap nat A) n x i y :
  <[n := x]> m !! i = Some y → (i = n ∧ y = x) ∨ (i ≠ n ∧ m !! i = Some y).
Proof. rewrite lookup_insert_Some. naive_solver. Qed.

Lemma serial_invoke_ok c n i p s :
  c_tasks c !! n = None → (∀ m t w, c_tasks c !! m = Some t → key t = idempotencyKey i → t_state t ≠ Waiting w) →
  serial_ok c → serial_ok (invoke c n i p s).
Proof.
  intros Hn Hno [O W N U].
  assert (∀ w, start (c_records c) i = Waiting w → c_records c !! idempotencyKey i = None) as Hstart.
  { intros w. unfold start. destruct (_ || _); [done|]. by destruct (c_records c !! _). }
  assert (∀ k m j r, acceptance (invoke c n i p s) k m j r → acceptance c k m j r) as Hacc.
  { intros k m j r (t & w & x & [[-> ->]|[_ Ht]]%lookup_insert_cases & H2 & H3 & H4); [done|].
    by exists t, w, x. }
  split; simpl.
  - eapply rail_step_ok; [by constructor|done].
  - intros m t w [[-> ->]|[_ Ht]]%lookup_insert_cases Hw; [by eapply Hstart|by eapply W].
  - intros m1 t1 w1 m2 t2 w2 [[-> ->]|[Hne Ht1]]%lookup_insert_cases Hw1 [[-> ->]|[Hne2 Ht2]]%lookup_insert_cases Hw2 Hk.
    + done.
    + by destruct (Hno m2 t2 w2).
    + by destruct (Hno m1 t1 w1).
    + by eapply N.
  - intros k m j r m' j' r' H1%Hacc H2%Hacc. by eapply U.
Qed.

(** What an answer adds: the old acceptances, and its own. *)
Lemma answered_acceptance c n t w a k m j r :
  c_tasks c !! n = Some t → acceptance (answered c n t w a) k m j r →
  acceptance c k m j r ∨
  (m = n ∧ k = key t ∧ j = length (t_answers t) ∧ ∃ f, a = Some f ∧ accepted_status (sub_status f) = true).
Proof.
  intros Ht. unfold answered. destruct (resume _ _ _ _ _ _) as [st rs].
  intros (u & v & x & Hu & Hk & Hj & Hacc & Hr). simpl in Hu.
  apply lookup_insert_cases in Hu as [[-> ->]|[_ Hu]]; [|by left; exists u, v, x].
  simpl in Hj. apply lookup_app_Some in Hj as [Hj|[Hlen Hj]].
  - left. exists t, v, x. done.
  - right. apply list_lookup_singleton_Some in Hj as [Hj ?]. simplify_eq. split_and!; [done|done|lia|by exists x].
Qed.

Lemma serial_answer_ok c n t w a :
  c_tasks c !! n = Some t → t_state t = Waiting w → serial_ok c → serial_ok (answered c n t w a).
Proof.
  intros Ht Hw [O W N U].
  assert (rails_ok (answered c n t w a)) as O' by (eapply rail_step_ok; [by econstructor|done]).
  pose proof (resume_spec (c_records c) t w a) as Hr. pose proof (resumed_mono _ _ _ _ _ _ Hr) as [_ Hother].
  pose proof (W n t w Ht Hw) as Hnone.
  assert (∀ m j r, ¬ acceptance c (key t) m j r) as Hfresh
    by (intros m j r H; apply acceptance_recorded in H as [o Ho]; [congruence|done]).
  pose proof (λ k m j r, answered_acceptance c n t w a k m j r Ht) as Hcases.
  unfold answered in *. destruct (resume _ _ _ _ _ _) as [st rs]. simpl in *.
  split; simpl; [done|..].
  - intros m u v [[-> ->]|[Hne Hu]]%lookup_insert_cases Hv; simpl in *.
    + subst st. unfold key. simpl. inversion Hr as [| | |f rail ? ? Heq]; subst; [done|done|].
      destruct (record_spec (c_records c) (t_intent t) rail f) as (o & H1 & _). congruence.
    + rewrite Hother; [by eapply W|]. intros Hk. apply Hne. by eapply N.
  - intros m1 t1 w1 m2 t2 w2 [[-> ->]|[Hne Ht1]]%lookup_insert_cases Hw1 [[-> ->]|[Hne2 Ht2]]%lookup_insert_cases Hw2 Hk.
    + done.
    + by apply (N n t w m2 t2 w2).
    + by apply (N m1 t1 w1 n t w).
    + by eapply N.
  - intros k m j r m' j' r' H1 H2.
    destruct (Hcases _ _ _ _ H1) as [K1|(-> & -> & -> & _)]; destruct (Hcases _ _ _ _ H2) as [K2|(-> & K & -> & _)]; subst.
    + by eapply U.
    + by apply Hfresh in K1.
    + by apply Hfresh in K2.
    + done.
Qed.

Lemma serial_run_ok c c' : rtc serial_step c c' → serial_ok c → serial_ok c'.
Proof.
  induction 1 as [|c1 c2 c3 H1 _ IH]; [done|]. intros Hok. apply IH.
  destruct H1; [by apply serial_invoke_ok|by apply serial_answer_ok].
Qed.
Lemma idle_serial_ok : serial_ok idle.
Proof. split; [apply idle_ok|done..|]. by intros k n j r m i r' (t & w & s & ? & _). Qed.

(** C30. Failover is safe: however calls of [execute] interleave and whatever the
    rails answer, all calls with one idempotency key that resolve return the same
    outcome; the secondary rail is tried only after the primary said
    that nothing was executed and a retry is safe; and when calls with the same
    key do not overlap, at most one answer ever accepts the intent. *)
Theorem failover_is_safe c :
  rtc rail_step idle c →
  (∀ n t m u o o', c_tasks c !! n = Some t → c_tasks c !! m = Some u → key t = key u →
    t_state t = Resolved o → t_state u = Resolved o' → o = o') ∧
  (∀ n t, c_tasks c !! n = Some t →
    t_state t = Waiting AwaitSecondary ∨ (∃ a, (AwaitSecondary, a) ∈ t_answers t) → cleared (t_answers t)) ∧
  (rtc serial_step idle c → ∀ k n j r m i r', acceptance c k n j r → acceptance c k m i r' → n = m ∧ j = i).
Proof.
  intros Hrun. destruct (rail_run_ok _ _ Hrun idle_ok) as [Hok _]. split_and!.
  - intros n t m u o o' Ht Hu Hk Ho Ho'. pose proof (ok_resolved _ _ (Hok _ _ Ht) _ Ho) as H1.
    pose proof (ok_resolved _ _ (Hok _ _ Hu) _ Ho') as H2. congruence.
  - intros n t Ht [Hw|[a Ha]]; [by eapply ok_secondary; [eapply Hok|]|by eapply ok_fallback; [eapply Hok|]].
  - intros Hs. apply (so_unique _ (serial_run_ok _ _ Hs idle_serial_ok)).
Qed.

(** ** Worked runs *)

Definition pay : Intent := mk_intent "i" "k".
Definition declined : Submission := mk_submission SFailed None (Some true).
Definition taken : Submission := mk_submission SSubmitted (Some "ref") None.

(** A call falls back; a second one with the same key gets its outcome. *)
Definition run1 := invoke idle 1 pay "yellow_card" "bank".
Definition in_state (c : coordinator) (n : nat) : task :=
  default (mk_task pay "" "" [] (Rejected MissingKey)) (c_tasks c !! n).
Definition run2 := answered run1 1 (in_state run1 1) AwaitSubmit (Some declined).
Definition run3 := answered run2 1 (in_state run2 1) AwaitSecondary (Some taken).
Definition run4 := invoke run3 2 pay "yellow_card" "bank".

Lemma run4_serial : rtc serial_step idle run4.
Proof.
  apply rtc_l with run1; [apply ss_invoke; [done|intros m t w Hm; done]|].
  apply rtc_l with run2; [by apply ss_answer|]. apply rtc_l with run3; [by apply ss_answer|]. apply rtc_once.
  apply ss_invoke; [done|]. intros m t w Hm _. change (c_tasks run3) with ({[1%nat := in_state run3 1]} : gmap nat task) in Hm.
  apply lookup_singleton_Some in Hm as [_ <-]. done.
Qed.

(** Witness of [failover_is_safe]. *)
Lemma failover_is_safe_witness :
  (∃ o o', t_state (in_state run4 1) = Resolved o ∧ t_state (in_state run4 2) = Resolved o' ∧ o = o') ∧
  cleared (t_answers (in_state run4 1)).
Proof.
  assert (rtc rail_step idle run4) as Hrun by (eapply rtc_subrel; [apply serial_step_rail|apply run4_serial]).
  pose proof (failover_is_safe run4 Hrun) as (Hagree & Hclear & _). split.
  - exists (mk_outcome "bank" taken), (mk_outcome "bank" taken). split; [reflexivity|]. split; [reflexivity|].
    apply (Hagree 1%nat (in_state run4 1) 2%nat (in_state run4 2)); reflexivity.
  - apply (Hclear 1%nat); [reflexivity|]. right. exists (Some taken). right. left.
Defined.

(** ** A departure *)

(** Two calls with one key that overlap both reach a rail, since the key is only
    looked up before the first submission: one is accepted by the primary, the
    other by the secondary, and both report the first. *)
Definition over1 := invoke (invoke idle 1 pay "yellow_card" "bank") 2 pay "yellow_card" "bank".
Definition over2 := answered over1 1 (in_state over1 1) AwaitSubmit (Some taken).
Definition over3 := answered over2 2 (in_state over2 2) AwaitSubmit (Some declined).
Definition over4 := answered over3 2 (in_state over3 2) AwaitSecondary (Some taken).
Theorem overlapping_calls_pay_twice :
  rtc rail_step idle over4 ∧ acceptance over4 "k" 1 0 "yellow_card" ∧ acceptance over4 "k" 2 1 "bank" ∧
  t_state (in_state over4 1) = Resolved (mk_outcome "yellow_card" taken) ∧
  t_state (in_state over4 2) = Resolved (mk_outcome "yellow_card" taken).
Proof.
  split; [|split; [|split; [|done]]].
  - apply rtc_l with (invoke idle 1 pay "yellow_card" "bank"); [by apply rs_invoke|]. apply rtc_l with over1; [by apply rs_invoke|].
    apply rtc_l with over2; [by apply rs_answer|]. apply rtc_l with over3; [by apply rs_answer|]. by apply rtc_once, rs_answer.
  - by exists (in_state over4 1), AwaitSubmit, taken.
  - by exists (in_state over4 2), AwaitSecondary, taken.
Qed.

(** ** Yellow Card *)

(** A retry is offered exactly for the four reports of a send that did not
    happen, and then the status is [failed]. *)
Lemma yellow_card_retry reference sequence raw :
  yc_retryableWithoutBusinessEffect (normalizeYellowCardStatus reference sequence raw) = true ↔
  toLowerCase (trim raw) ∈ ["expired"; "cancelled"; "canceled"; "rejected"].
Proof.
  unfold normalizeYellowCardStatus. destruct (includes ["complete"; _; _; _; _] _) eqn:H1; [|
    destruct (includes ["created"; _; _; _; _; _] _) eqn:H2; [|destruct (includes ["expired"; _; _; _] _) eqn:H3]]; simpl.
  - split; [done|]. apply includes_true in H1. intros H. exfalso. set_unfold in H1; set_unfold in H. naive_solver congruence.
  - split; [done|]. apply includes_true in H2. intros H. exfalso. set_unfold in H2; set_unfold in H. naive_solver congruence.
  - split; [|done]. intros _. by apply includes_true in H3.
  - split; [done|]. intros H. apply includes_true in H. congruence.
Qed.
