(* ===== verification/LedgerProjection.v ===== *)
(** * Signed projections of ledger transfers

    src/apps/control-plane/server/internalLedgerProjection.ts (the endpoint the
    payment engine posts accepted TigerBeetle transfers to) and
    recordInternalLedgerProjection of postgres.ts. The secret file, [JSON.parse],
    [Date.parse] and the texts of database errors are arguments. *)

From S2P Require Import Prelude Js Numeric Sha256 Hmac Rows Schema.

Local Open Scope string_scope.
Local Open Scope Z_scope.

(** ** Recording a transfer *)

Record projection_input : Type := mk_projection_input {
  pi_transferId : string;
  pi_correlationId : string;
  pi_currency : string;
  pi_amountMinor : string;
  pi_debitAccountId : string;
  pi_creditAccountId : string;
  pi_postedAt : Z;
  pi_evidenceSha256 : string
}.

(** [$1::bigint] of a decimal text. *)
Definition bigint_of (s : string) : Tx db Z :=
  let v := digits_value 0 s in
  _ ← throw_if (negb (v <? 2 ^ 63)) (PgError (InvalidInput "bigint"));
  mret v.

(** [NUMERIC(30,0)]. *)
Definition fits_numeric_30_0 (v : Z) : bool := Z.abs v <? 10 ^ 30.

Definition fk_account (name : string) (d : db) (account : Z) : bool * pg_violation :=
  (any (λ _ b, lab_tigerbeetle_account_id b =? account) (ledger_account_bindings d), ForeignKeyViolation name).
Definition rules_transfer_facts : table_rules transfer_fact := {|
  checks r := [(fits_numeric_30_0 (ttf_amount_minor r), NumericOverflow "amount_minor");
    (0 <? ttf_tigerbeetle_transfer_id r, CheckViolation "tigerbeetle_transfer_facts_tigerbeetle_transfer_id_check");
    (0 <? ttf_amount_minor r, CheckViolation "tigerbeetle_transfer_facts_amount_minor_check");
    (is_sha256_hex (ttf_evidence_sha256 r), CheckViolation "tigerbeetle_transfer_facts_evidence_sha256_check");
    (negb (ttf_debit_account_id r =? ttf_credit_account_id r), CheckViolation "tigerbeetle_transfer_facts_check")];
  uniques t r := [unique (λ x, ttf_tigerbeetle_transfer_id x =? ttf_tigerbeetle_transfer_id r)
    "tigerbeetle_transfer_facts_tigerbeetle_transfer_id_key" t];
  references d r := [fk_account "tigerbeetle_transfer_facts_debit_account_id_fkey" d (ttf_debit_account_id r);
    fk_account "tigerbeetle_transfer_facts_credit_account_id_fkey" d (ttf_credit_account_id r)] |}.

(** The stored fact says what the projection says; the time of posting is not
    compared. *)
Definition same_fact (input : projection_input) (r : transfer_fact) : bool :=
  bool_decide (ttf_correlation_id r = pi_correlationId input) && bool_decide (pg_text (ttf_currency r) = pi_currency input) &&
  bool_decide (int_text (ttf_amount_minor r) = pi_amountMinor input) &&
  bool_decide (int_text (ttf_debit_account_id r) = pi_debitAccountId input) &&
  bool_decide (int_text (ttf_credit_account_id r) = pi_creditAccountId input) &&
  bool_decide (ttf_evidence_sha256 r = pi_evidenceSha256 input).

Definition fact_of (E : env) (input : projection_input) (currency : asset) (transfer debit credit : Z) : transfer_fact :=
  mk_transfer_fact transfer (pi_correlationId input) currency (digits_value 0 (pi_amountMinor input)) debit credit
    (pg_of_js (pi_postedAt input)) (pi_evidenceSha256 input) (db_now E) "pending" None.

Definition payment_engine : actor := mk_actor "payment-engine-internal" RoleAdmin.

Record projection_result : Type := mk_projection_result { pr_recorded : bool; pr_reconciliationState : string }.

Definition recordInternalLedgerProjection (E : env) (new_id : uuid) (input : projection_input) : Act db projection_result :=
  transaction (
    _ ← throw_if (bool_decide (pi_debitAccountId input = pi_creditAccountId input))
      (JsError "ledger projection requires distinct accounts");
    debit ← bigint_of (pi_debitAccountId input);
    credit ← bigint_of (pi_creditAccountId input);
    accounts ← gets (λ d, (select (λ _ b, includes [debit; credit] (lab_tigerbeetle_account_id b)) (ledger_account_bindings d)).*2);
    _ ← throw_if (negb (length accounts =? 2)%nat ||
        existsb (λ b, negb (bool_decide (pg_text (lab_currency b) = pi_currency input))) accounts)
      (JsError "ledger account bindings are missing or do not match the transfer currency");
    transfer ← bigint_of (pi_transferId input);
    currency ← require (of_text (pi_currency input)) (PgError (CheckViolation "tigerbeetle_transfer_facts_currency_check"));
    inserted ← insert_or_nothing tigerbeetle_transfer_facts "tigerbeetle_transfer_facts" rules_transfer_facts
      (λ x, ttf_tigerbeetle_transfer_id x =? transfer) new_id (fact_of E input currency transfer debit credit);
    match inserted with
    | None =>
        existing ← gets (λ d, head (select (λ _ r, ttf_tigerbeetle_transfer_id r =? transfer) (tigerbeetle_transfer_facts d)));
        fact ← require (match existing with Some x => if same_fact input x.2 then Some x.2 else None | None => None end)
          (JsError "existing TigerBeetle transfer evidence does not match the signed projection");
        mret (mk_projection_result false (ttf_reconciliation_state fact))
    | Some id =>
        _ ← insert_activity E payment_engine "ledger.tigerbeetle_fact_projected" "tigerbeetle_transfer_fact" (Some id)
          (JObj [("transferId", JStr (pi_transferId input)); ("correlationId", JStr (pi_correlationId input));
                 ("currency", JStr (pi_currency input)); ("amountMinor", JStr (pi_amountMinor input));
                 ("evidenceSha256", JStr (pi_evidenceSha256 input)); ("source", JStr "signed-payment-engine-projection")]);
        mret (mk_projection_result true "pending")
    end).

(** ** The request *)

Definition PROJECTION_PATH : string := "/internal/ledger/projections".
Definition MAX_BODY_BYTES : Z := 64 * 1024.
Definition MAX_AGE_MS : Z := 5 * 60 * 1000.
Definition CURRENCIES : list string := ["NGN"; "KES"; "ZAR"; "USD"; "USDC"; "USDT"].

(** [/^[1-9][0-9]*$/]. *)
Definition DECIMAL : string → bool := positive_decimal.

Definition expected_keys : list string :=
  ["transfer_id"; "correlation_id"; "currency"; "amount_minor"; "debit_account_id"; "credit_account_id"; "posted_at";
   "evidence_sha256"].

(** What arrives: the body when it is a Buffer, and two headers. *)
Record request : Type := mk_request {
  rq_body : option bytes;
  rq_timestamp : option string;
  rq_signature : option string
}.

Definition fail {A} (message : string) : res A := Throw (JsError message).

Section endpoint.
Context (parse_json : bytes → res json) (parse_date : string → option Z) (secret : res bytes).
Context (pg_message : pg_violation → string).

(** [typeof payload[key] === "string"]; a repeated key keeps its last value. *)
Definition string_at (kvs : list (string * json)) (key : string) : option string :=
  match record_get (rev kvs) key with Some (JStr s) => Some s | _ => None end.
Definition key_count (kvs : list (string * json)) : nat := length (remove_dups kvs.*1).

Definition parsePayload (body : bytes) : res projection_input :=
  let size := Z.of_nat (length body) in
  if (size =? 0) || (MAX_BODY_BYTES <? size) then fail "ledger projection body has an invalid size"
  else match parse_json body with
  | Throw e => Throw e
  | Ok (JObj kvs) =>
      match mapM (string_at kvs) expected_keys with
      | Some [transfer_id; correlation_id; currency; amount_minor; debit; credit; posted_at; sha] =>
          if negb (key_count kvs =? length expected_keys)%nat then
            fail "ledger projection body does not match the fixed evidence contract"
          else if negb (DECIMAL transfer_id) || negb (DECIMAL amount_minor) || negb (DECIMAL debit) || negb (DECIMAL credit) then
            fail "ledger projection identifiers and amount must be positive decimal strings"
          else match parse_date posted_at with
          | Some when_ =>
              if bool_decide (debit = credit) || negb (includes CURRENCIES currency) || negb (is_sha256_hex sha) ||
                 (js_length (trim correlation_id) =? 0) || (255 <? js_length correlation_id)
              then fail "ledger projection evidence is incomplete or invalid"
              else Ok (mk_projection_input transfer_id correlation_id currency amount_minor debit credit when_ sha)
          | None => fail "ledger projection evidence is incomplete or invalid"
          end
      | _ => fail "ledger projection body does not match the fixed evidence contract"
      end
  | Ok _ => fail "ledger projection body must be an object"
  end.

(** The bytes the signature covers. *)
Definition signed_text (timestamp : string) (body : bytes) : bytes :=
  utf8_bytes (timestamp +:+ "POST" +:+ PROJECTION_PATH +:+ base64 (sha256_bytes body)).

Definition verifyRequest (now : Z) (rq : request) (body : bytes) : res unit :=
  let timestamp := default "" (rq_timestamp rq) in
  let signature := default "" (rq_signature rq) in
  match parse_date timestamp with
  | Some when_ =>
      if negb (truthy timestamp) || (MAX_AGE_MS <? Z.abs (now - when_))
      then fail "ledger projection timestamp is outside the accepted window"
      else match secret with
      | Throw e => Throw e
      | Ok key =>
          if bool_decide (from_base64 signature = hmac_sha256 key (signed_text timestamp body)) then Ok tt
          else fail "ledger projection signature is invalid"
      end
  | None => fail "ledger projection timestamp is outside the accepted window"
  end.

(** [reject] with the code the message selects. *)
Definition message_text (e : error) : string := match e with JsError m => m | PgError v => pg_message v end.
Definition mentions (words : list string) (message : string) : bool := existsb (js_includes message) words.
Definition error_code (message : string) : Z :=
  if mentions ["signature"; "timestamp"; "secret"] message then 401
  else if mentions ["body"; "evidence"; "identifier"; "currency"; "account"] message then 422 else 503.

Inductive response : Type :=
  | Accepted (code : Z) (r : projection_result)
  | Refused (code : Z) (message : string).

Definition registerInternalLedgerProjection (E : env) (new_id : uuid) (rq : request) (d : db) : response * db :=
  match rq_body rq with
  | None => (Refused 415 "ledger projection requires an octet-stream protected body", d)
  | Some body =>
      match verifyRequest (app_now E) rq body with
      | Throw e => (Refused (error_code (message_text e)) (message_text e), d)
      | Ok _ =>
          match parsePayload body with
          | Throw e => (Refused (error_code (message_text e)) (message_text e), d)
          | Ok input =>
              match recordInternalLedgerProjection E new_id input d with
              | (Ok r, d') => (Accepted (if pr_recorded r then 201 else 200) r, d')
              | (Throw e, d') => (Refused (error_code (message_text e)) (message_text e), d')
              end
          end
      end
  end.
End endpoint.
