(* ===== verification/LedgerProjectionProps.v ===== *)
(** * Ledger projections: authenticity, immutability, idempotence *)

From S2P Require Import Prelude Js Numeric Sha256 Hmac Rows Schema LedgerProjection.

Local Open Scope string_scope.
Local Open Scope Z_scope.

(** ** What recording does *)

Lemma bigint_ok s d v d' : bigint_of s d = Ok (v, d') ↔ (v = digits_value 0 s ∧ v < 2 ^ 63) ∧ d' = d.
Proof.
  unfold bigint_of. rewrite tx_bind_ok. setoid_rewrite throw_if_ok. setoid_rewrite mret_ok. split.
  - intros (u & d1 & [H%negb_false_iff%Z.ltb_lt ->] & -> & ->). done.
  - intros [[-> H] ->]. exists tt, d. split; [split; [apply negb_false_iff, Z.ltb_lt; lia|done]|done].
Qed.

(** The account is bound, in the currency. *)
Definition bound (d : db) (currency : string) (account : Z) : Prop :=
  ∃ k b, ledger_account_bindings d !! k = Some b ∧ lab_tigerbeetle_account_id b = account ∧ pg_text (lab_currency b) = currency.

Definition debit_of (i : projection_input) : Z := digits_value 0 (pi_debitAccountId i).
Definition credit_of (i : projection_input) : Z := digits_value 0 (pi_creditAccountId i).
Definition transfer_of (i : projection_input) : Z := digits_value 0 (pi_transferId i).

(** The bindings a projection names. *)
Definition named (i : projection_input) (d : db) : list account_binding :=
  (select (λ _ b, includes [debit_of i; credit_of i] (lab_tigerbeetle_account_id b)) (ledger_account_bindings d)).*2.

(** The guards before the insertion. *)
Record admissible (i : projection_input) (d : db) : Prop := {
  adm_distinct : pi_debitAccountId i ≠ pi_creditAccountId i;
  adm_debit : debit_of i < 2 ^ 63;
  adm_credit : credit_of i < 2 ^ 63;
  adm_transfer : transfer_of i < 2 ^ 63;
  adm_two : length (named i d) = 2%nat;
  adm_currency : Forall (λ b, pg_text (lab_currency b) = pi_currency i) (named i d)
}.

Lemma currencies_match (c : string) bs :
  existsb (λ b, negb (bool_decide (pg_text (lab_currency b) = c))) bs = false ↔ Forall (λ b, pg_text (lab_currency b) = c) bs.
Proof.
  induction bs as [|b bs IH]; simpl; [by split; [intros; apply Forall_nil|]|].
  rewrite orb_false_iff, IH, Forall_cons, negb_false_iff, bool_decide_eq_true. done.
Qed.

(** The part of a successful recording after the guards. *)
Definition finish (E : env) (id : uuid) (i : projection_input) (currency : asset) : Tx db projection_result :=
  inserted ← insert_or_nothing tigerbeetle_transfer_facts "tigerbeetle_transfer_facts" rules_transfer_facts
    (λ x, ttf_tigerbeetle_transfer_id x =? transfer_of i) id (fact_of E i currency (transfer_of i) (debit_of i) (credit_of i));
  match inserted with
  | None =>
      existing ← gets (λ d, head (select (λ _ r, ttf_tigerbeetle_transfer_id r =? transfer_of i) (tigerbeetle_transfer_facts d)));
      fact ← require (match existing with Some x => if same_fact i x.2 then Some x.2 else None | None => None end)
        (JsError "existing TigerBeetle transfer evidence does not match the signed projection");
      mret (mk_projection_result false (ttf_reconciliation_state fact))
  | Some id =>
      _ ← insert_activity E payment_engine "ledger.tigerbeetle_fact_projected" "tigerbeetle_transfer_fact" (Some id)
        (JObj [("transferId", JStr (pi_transferId i)); ("correlationId", JStr (pi_correlationId i));
               ("currency", JStr (pi_currency i)); ("amountMinor", JStr (pi_amountMinor i));
               ("evidenceSha256", JStr (pi_evidenceSha256 i)); ("source", JStr "signed-payment-engine-projection")]);
      mret (mk_projection_result true "pending")
  end.

(** Past the guards, a recording is its last part. *)
Lemma record_finish E id i d c : admissible i d → of_text (pi_currency i) = Some c →
  recordInternalLedgerProjection E id i d = transaction (finish E id i c) d.
Proof.
  intros [H1 H2 H3 H4 H5 H6] Hc. unfold recordInternalLedgerProjection, transaction. erewrite tx_bind_run; [reflexivity| |].
  { apply throw_if_run, bool_decide_eq_false. exact H1. }
  eapply tx_bind_run; [by apply bigint_ok|]. eapply tx_bind_run; [by apply bigint_ok|].
  eapply tx_bind_run; [apply gets_run|]. cbv beta. eapply tx_bind_run; [apply throw_if_run|].
  { apply orb_false_iff. split; [by apply negb_false_iff, Nat.eqb_eq|by apply currencies_match]. }
  eapply tx_bind_run; [by apply bigint_ok|]. eapply tx_bind_run; [by apply require_run|]. reflexivity.
Qed.

Lemma record_ok E id i d p d' :
  recordInternalLedgerProjection E id i d = (Ok p, d') ↔
  admissible i d ∧ ∃ currency, of_text (pi_currency i) = Some currency ∧ finish E id i currency d = Ok (p, d').
Proof.
  split.
  - intros H%transaction_ok. apply tx_bind_ok in H as (u & d1 & [H1%bool_decide_eq_false ->]%throw_if_ok & H).
    apply tx_bind_ok in H as (? & d1 & [[-> H2] ->]%bigint_ok & H).
    apply tx_bind_ok in H as (? & d1 & [[-> H3] ->]%bigint_ok & H).
    apply tx_bind_ok in H as (acc & d1 & [<- ->]%gets_ok & H).
    apply tx_bind_ok in H as (? & d1 & [[H4 H5]%orb_false_iff ->]%throw_if_ok & H).
    apply tx_bind_ok in H as (? & d1 & [[-> H6] ->]%bigint_ok & H).
    apply tx_bind_ok in H as (c & d1 & [H7 ->]%require_ok & H).
    apply negb_false_iff, Nat.eqb_eq in H4. apply currencies_match in H5. split; [by split|]. by exists c.
  - intros [Ha (c & Hc & H)]. rewrite (record_finish E id i d c Ha Hc). by apply transaction_ok.
Qed.

Lemma record_throw E id i d e d' : recordInternalLedgerProjection E id i d = (Throw e, d') → d' = d.
Proof. by intros [_ ->]%transaction_throw. Qed.

(** A new fact, or one that is already there and says the same. *)
Lemma finish_cases E id i c d p d' :
  finish E id i c d = Ok (p, d') →
  Forall (λ r, r.1 = true) (checks rules_transfer_facts (fact_of E i c (transfer_of i) (debit_of i) (credit_of i))) ∧
  ((pr_recorded p = false ∧ d' = d ∧
    ∃ k f, tigerbeetle_transfer_facts d !! k = Some f ∧ ttf_tigerbeetle_transfer_id f = transfer_of i ∧ same_fact i f = true) ∨
   (p = mk_projection_result true "pending" ∧ tigerbeetle_transfer_facts d !! id = None ∧
    (∀ k f, tigerbeetle_transfer_facts d !! k = Some f → ttf_tigerbeetle_transfer_id f ≠ transfer_of i) ∧
    (∃ k b, ledger_account_bindings d !! k = Some b ∧ lab_tigerbeetle_account_id b = debit_of i) ∧
    (∃ k b, ledger_account_bindings d !! k = Some b ∧ lab_tigerbeetle_account_id b = credit_of i) ∧
    tigerbeetle_transfer_facts d' = <[id := fact_of E i c (transfer_of i) (debit_of i) (credit_of i)]> (tigerbeetle_transfer_facts d) ∧
    ledger_account_bindings d' = ledger_account_bindings d ∧ log_extends d d')).
Proof.
  unfold finish. intros H. apply tx_bind_ok in H as (o & d1 & H1 & H). apply insert_or_nothing_ok in H1 as [Hc H1].
  split; [done|]. destruct H1 as [(-> & -> & Hany)|(-> & H1 & Hany)].
  - left. apply tx_bind_ok in H as (x & d2 & [<- ->]%gets_ok & H). apply tx_bind_ok in H as (f & d2 & [Hf ->]%require_ok & H).
    apply mret_ok in H as [-> ->]. split; [done|]. split; [done|].
    destruct (head _) as [[k r]|] eqn:Hh; [|done]. simpl in Hf. destruct (same_fact i r) eqn:Hs; [|done].
    apply head_Some_elem_of in Hh as [Hk Ht%Z.eqb_eq]%elem_of_select. by exists k, r.
  - right. apply insert_row_ok in H1 as (_ & Hn & _ & Hr & ->).
    apply tx_bind_ok in H as (u & d2 & ->%modify_ok & [-> ->]%mret_ok).
    apply Forall_cons in Hr as [Hr1 Hr]. apply Forall_cons in Hr as [Hr2 _]. simpl in Hr1, Hr2.
    split; [done|]. split; [done|]. split.
    { intros k f Hk Ht. apply (proj1 (any_false _ _) Hany) in Hk. by rewrite Ht, Z.eqb_refl in Hk. }
    split; [apply any_true in Hr1 as (k & b & Hk & Hb%Z.eqb_eq); by exists k, b|].
    split; [apply any_true in Hr2 as (k & b & Hk & Hb%Z.eqb_eq); by exists k, b|].
    split; [done|]. split; [done|]. unfold log_extends. simpl. by apply prefix_app_r.
Qed.

Lemma named_bound i d account :
  Forall (λ b, pg_text (lab_currency b) = pi_currency i) (named i d) → account ∈ [debit_of i; credit_of i] →
  (∃ k b, ledger_account_bindings d !! k = Some b ∧ lab_tigerbeetle_account_id b = account) → bound d (pi_currency i) account.
Proof.
  intros Hf Ha (k & b & Hk & Hb). exists k, b. split; [done|]. split; [done|].
  rewrite Forall_forall in Hf. apply Hf. unfold named. apply (list_elem_of_fmap_2 snd _ (k, b)), elem_of_select.
  split; [done|]. apply includes_true. by rewrite Hb.
Qed.

(** ** The endpoint *)

Section endpoint.
Context (parse_json : bytes → res json) (parse_date : string → option Z) (secret : res bytes).
Context (pg_message : pg_violation → string).

(** The request carries a fresh timestamp and the signature of its body. *)
Definition authentic (now : Z) (rq : request) (body : bytes) : Prop :=
  ∃ key ts when_, secret = Ok key ∧ rq_timestamp rq = Some ts ∧ ts ≠ "" ∧ parse_date ts = Some when_ ∧
    Z.abs (now - when_) <= MAX_AGE_MS ∧
    from_base64 (default "" (rq_signature rq)) = hmac_sha256 key (signed_text ts body).

Lemma verify_ok now rq body : verifyRequest parse_date secret now rq body = Ok tt ↔ authentic now rq body.
Proof.
  unfold verifyRequest, authentic. split.
  - destruct (parse_date _) as [w|] eqn:Hd; [|done]. destruct (_ || _) eqn:Hg; [done|].
    apply orb_false_iff in Hg as [Ht%negb_false_iff Ha%Z.ltb_ge]. destruct secret as [key|]; [|done].
    case_bool_decide as Hh; [|done]. intros _. destruct (rq_timestamp rq) as [ts|]; [|done]. simpl in *.
    exists key, ts, w. split_and!; try done. intros ->. done.
  - intros (key & ts & w & -> & Hts & Hne & Hd & Ha & Hh). rewrite Hts. simpl. rewrite Hd.
    replace (truthy ts) with true by (symmetry; unfold truthy; by rewrite bool_decide_eq_false_2).
    replace (MAX_AGE_MS <? Z.abs (now - w)) with false by (symmetry; by apply Z.ltb_ge). simpl.
    by rewrite bool_decide_eq_true_2.
Qed.

Lemma signed_is_authentic key ts when_ now body : secret = Ok key → ts ≠ "" → parse_date ts = Some when_ →
  Z.abs (now - when_) <= MAX_AGE_MS →
  authentic now (mk_request (Some body) (Some ts) (Some (base64 (hmac_sha256 key (signed_text ts body))))) body.
Proof.
  intros Hs Hne Hd Ha. exists key, ts, when_. split_and!; try done. cbn [rq_signature default]. apply base64_round_trip. apply sha256_bytes_range.
Qed.

Record payload_ok (i : projection_input) : Prop := {
  pay_transfer : DECIMAL (pi_transferId i) = true;
  pay_amount : DECIMAL (pi_amountMinor i) = true;
  pay_debit : DECIMAL (pi_debitAccountId i) = true;
  pay_credit : DECIMAL (pi_creditAccountId i) = true;
  pay_currency : pi_currency i ∈ CURRENCIES
}.
Lemma parse_ok body i : parsePayload parse_json parse_date body = Ok i → payload_ok i.
Proof.
  unfold parsePayload. destruct (_ || _); [done|]. destruct (parse_json body) as [[]|]; try done.
  destruct (mapM _ _) as [[|a [|b [|c [|e [|f [|g [|h [|k []]]]]]]]]|]; try done.
  destruct (negb _); [done|]. destruct (_ || _) eqn:Hd; [done|].
  apply orb_false_iff in Hd as [[[H1 H2]%orb_false_iff H3]%orb_false_iff H4].
  destruct (parse_date h) as [w|]; [|done]. destruct (_ || _) eqn:Hg; [done|]. intros [= <-].
  apply orb_false_iff in Hg as [[[[_ H5]%orb_false_iff _]%orb_false_iff _]%orb_false_iff _].
  split; simpl; try (by apply negb_false_iff). by apply negb_false_iff, includes_true in H5.
Qed.

(** The fact states the projection. *)
Record states (i : projection_input) (f : transfer_fact) : Prop := {
  st_transfer : ttf_tigerbeetle_transfer_id f = transfer_of i;
  st_correlation : ttf_correlation_id f = pi_correlationId i;
  st_currency : pg_text (ttf_currency f) = pi_currency i;
  st_amount : ttf_amount_minor f = digits_value 0 (pi_amountMinor i);
  st_debit : ttf_debit_account_id f = debit_of i;
  st_credit : ttf_credit_account_id f = credit_of i;
  st_evidence : ttf_evidence_sha256 f = pi_evidenceSha256 i
}.

Lemma fact_states E i c : of_text (pi_currency i) = Some c → states i (fact_of E i c (transfer_of i) (debit_of i) (credit_of i)).
Proof. intros Hc%of_text_Some. by split. Qed.

(** On admitted payloads the comparison of texts is the comparison of values. *)
Lemma int_text_decimal n s : 0 < n → DECIMAL s = true → int_text n = s ↔ n = digits_value 0 s.
Proof.
  intros Hn [Hs Ht]%positive_decimal_text. split; [intros <-|intros ->; done].
  symmetry. apply int_text_spec. lia.
Qed.
Lemma same_fact_states i f : payload_ok i → ttf_tigerbeetle_transfer_id f = transfer_of i →
  0 < ttf_amount_minor f → 0 < ttf_debit_account_id f → 0 < ttf_credit_account_id f →
  same_fact i f = true ↔ states i f.
Proof.
  intros [P1 P2 P3 P4 _] Ht Ha Hd Hc. unfold same_fact. rewrite !andb_true_iff, !bool_decide_eq_true.
  rewrite (int_text_decimal _ _ Ha P2), (int_text_decimal _ _ Hd P3), (int_text_decimal _ _ Hc P4). split.
  - intros [[[[[? ?] ?] ?] ?] ?]. by split.
  - intros []. done.
Qed.

Definition endpoint := registerInternalLedgerProjection parse_json parse_date secret pg_message.

(** What a request can do. *)
Lemma endpoint_cases E id rq d resp d' :
  endpoint E id rq d = (resp, d') →
  (∃ code message, resp = Refused code message ∧ d' = d) ∨
  (∃ body i p, rq_body rq = Some body ∧ authentic (app_now E) rq body ∧ parsePayload parse_json parse_date body = Ok i ∧
     recordInternalLedgerProjection E id i d = (Ok p, d') ∧ resp = Accepted (if pr_recorded p then 201 else 200) p).
Proof.
  unfold endpoint, registerInternalLedgerProjection. destruct (rq_body rq) as [body|]; [|intros [= <- <-]; left; by eexists _, _].
  destruct (verifyRequest _ _ _ _ _) as [[]|] eqn:Hv; [|intros [= <- <-]; left; by eexists _, _]. apply verify_ok in Hv.
  destruct (parsePayload _ _ _) as [i|] eqn:Hp; [|intros [= <- <-]; left; by eexists _, _].
  destruct (recordInternalLedgerProjection _ _ _ _) as [[p|e] d1] eqn:Hr; intros [= <- <-].
  - right. exists body, i, p. by split_and!.
  - left. apply record_throw in Hr as ->. by eexists _, _.
Qed.

(** C31. Only signed projections are recorded: a request changes the database only
    if it carries a timestamp within five minutes and the HMAC, under the managed
    secret, of that timestamp, the path and the digest of its body; it then adds
    exactly one fact, which states what the body says of a transfer that was not
    recorded before, between two accounts bound in its currency. A request that
    is refused, or that repeats a recorded transfer, changes nothing. And a
    body signed that way passes. *)
Theorem only_signed_projections_recorded :
  (∀ E id rq d resp d', endpoint E id rq d = (resp, d') →
    (∃ code message, resp = Refused code message ∧ d' = d) ∨
    (∃ body i p code, resp = Accepted code p ∧ rq_body rq = Some body ∧ authentic (app_now E) rq body ∧
       parsePayload parse_json parse_date body = Ok i ∧
       (code = 200 ∧ d' = d ∧ (∃ k f, tigerbeetle_transfer_facts d !! k = Some f ∧ same_fact i f = true) ∨
        code = 201 ∧ (∀ k f, tigerbeetle_transfer_facts d !! k = Some f → ttf_tigerbeetle_transfer_id f ≠ transfer_of i) ∧
          bound d (pi_currency i) (debit_of i) ∧ bound d (pi_currency i) (credit_of i) ∧
          ∃ f, states i f ∧ tigerbeetle_transfer_facts d' = <[id := f]> (tigerbeetle_transfer_facts d)))) ∧
  (∀ key ts when_ now body, secret = Ok key → ts ≠ "" → parse_date ts = Some when_ → Z.abs (now - when_) <= MAX_AGE_MS →
    let signature := base64 (hmac_sha256 key (signed_text ts body)) in
    verifyRequest parse_date secret now (mk_request (Some body) (Some ts) (Some signature)) body = Ok tt).
Proof.
  split.
  - intros E id rq d resp d' [Href|(body & i & p & Hb & Ha & Hp & Hr & ->)]%endpoint_cases; [by left|right].
    apply record_ok in Hr as [Hadm (c & Hc & Hf)]. apply finish_cases in Hf as [_ Hf].
    exists body, i, p. destruct Hf as [(-> & -> & k & f & Hk & _ & Hs)|(-> & _ & Hno & Hd & Hcr & Hins & _)].
    + exists 200. split_and!; try done. left. split_and!; try done. by exists k, f.
    + exists 201. split_and!; try done. right. split_and!; try done.
      * eapply named_bound; [apply Hadm|left|done].
      * eapply named_bound; [apply Hadm|right; left|done].
      * eexists. split; [by eapply fact_states|done].
  - intros key ts w now body Hs Hne Hd Ha signature. by apply verify_ok, signed_is_authentic with w.
Qed.

(** ** Along a run *)

(** The same evidence; reconciliation may have moved on. *)
Definition evidence (f : transfer_fact) : transfer_fact :=
  mk_transfer_fact (ttf_tigerbeetle_transfer_id f) (ttf_correlation_id f) (ttf_currency f) (ttf_amount_minor f)
    (ttf_debit_account_id f) (ttf_credit_account_id f) (ttf_posted_at f) (ttf_evidence_sha256 f) (ttf_projected_at f) "" None.
Definition evidence_kept (d d' : db) : Prop :=
  ∀ k f, tigerbeetle_transfer_facts d !! k = Some f →
    ∃ f', tigerbeetle_transfer_facts d' !! k = Some f' ∧ evidence f' = evidence f.
#[local] Instance evidence_kept_preorder : PreOrder evidence_kept.
Proof.
  split; [intros d k f Hk; by exists f|].
  intros d1 d2 d3 H1 H2 k f Hk. destruct (H1 k f Hk) as (f2 & Hk2 & He2). destruct (H2 k f2 Hk2) as (f3 & Hk3 & He3).
  exists f3. split; [done|]. congruence.
Qed.

(** [tigerbeetle_account_id] is UNIQUE among the bindings. *)
Definition accounts_unique (d : db) : Prop :=
  ∀ k k' b b', ledger_account_bindings d !! k = Some b → ledger_account_bindings d !! k' = Some b' →
    lab_tigerbeetle_account_id b = lab_tigerbeetle_account_id b' → k = k'.

Record fact_ok (d : db) (f : transfer_fact) : Prop := {
  fo_id : 0 < ttf_tigerbeetle_transfer_id f;
  fo_amount : 0 < ttf_amount_minor f;
  fo_debit : 0 < ttf_debit_account_id f;
  fo_credit : 0 < ttf_credit_account_id f;
  fo_distinct : ttf_debit_account_id f ≠ ttf_credit_account_id f;
  fo_debit_bound : bound d (pg_text (ttf_currency f)) (ttf_debit_account_id f);
  fo_credit_bound : bound d (pg_text (ttf_currency f)) (ttf_credit_account_id f)
}.
Record facts_ok (d : db) : Prop := {
  fs_each : ∀ k f, tigerbeetle_transfer_facts d !! k = Some f → fact_ok d f;
  fs_unique : ∀ k k' f f', tigerbeetle_transfer_facts d !! k = Some f → tigerbeetle_transfer_facts d !! k' = Some f' →
    ttf_tigerbeetle_transfer_id f = ttf_tigerbeetle_transfer_id f' → k = k';
  fs_accounts : accounts_unique d
}.

(** A request, or anything else that happens to the database: bindings are
    added under new account numbers and facts are only reconciled
    (scripts/infra/reconcile_tigerbeetle_postgres.sql). *)
Inductive projection_step : relation db :=
  | ps_request E id rq d : projection_step d (endpoint E id rq d).2
  | ps_elsewhere d d' :
      evidence_kept d d' → dom (tigerbeetle_transfer_facts d') = dom (tigerbeetle_transfer_facts d) →
      ledger_account_bindings d ⊆ ledger_account_bindings d' → accounts_unique d' → projection_step d d'.

Lemma bound_mono d d' c a : ledger_account_bindings d ⊆ ledger_account_bindings d' → bound d c a → bound d' c a.
Proof. intros Hs (k & b & Hk & Ha & Hc). exists k, b. split; [by eapply lookup_weaken|done]. Qed.

Lemma fact_ok_evidence d d' f f' :
  ledger_account_bindings d ⊆ ledger_account_bindings d' → evidence f' = evidence f → fact_ok d f → fact_ok d' f'.
Proof.
  intros Hs [= E1 E2 E3 E4 E5 E6 E7 E8 E9] []. split; rewrite ?E1, ?E3, ?E4, ?E5, ?E6; try done; by eapply bound_mono.
Qed.

Lemma payload_distinct i : payload_ok i → pi_debitAccountId i ≠ pi_creditAccountId i → debit_of i ≠ credit_of i.
Proof. intros [_ _ P3 P4 _] Hne He. by apply Hne, positive_decimal_inj. Qed.

(** The fact a request adds. *)
Lemma added_fact_ok E i c d : payload_ok i → admissible i d → of_text (pi_currency i) = Some c →
  bound d (pi_currency i) (debit_of i) → bound d (pi_currency i) (credit_of i) →
  fact_ok d (fact_of E i c (transfer_of i) (debit_of i) (credit_of i)).
Proof.
  intros Hp Ha Hc Hd Hcr. pose proof (proj1 (of_text_Some _ _) Hc) as Ht.
  split; simpl; rewrite ?Ht; try done; try (by eapply positive_decimal_text, Hp).
  apply payload_distinct; [done|apply Ha].
Qed.

Lemma request_step E id rq d d' resp : facts_ok d → endpoint E id rq d = (resp, d') →
  facts_ok d' ∧ evidence_kept d d' ∧ ledger_account_bindings d' = ledger_account_bindings d.
Proof.
  intros Hok [(_ & _ & _ & ->)|(body & i & p & _ & _ & Hp & Hr & _)]%endpoint_cases; [done|].
  apply parse_ok in Hp. apply record_ok in Hr as [Hadm (c & Hc & Hf)].
  apply finish_cases in Hf as [_ [(_ & -> & _)|(_ & Hn & Hno & Hd & Hcr & Hins & Hb & _)]]; [done|].
  apply (named_bound i d (debit_of i)) in Hd; [|apply Hadm|left].
  apply (named_bound i d (credit_of i)) in Hcr; [|apply Hadm|right; left].
  destruct Hok as [He Hu Ha]. split_and!; [split| |done].
  - intros k f. rewrite Hins. intros [[-> <-]|[_ Hk]]%lookup_insert_Some.
    + eapply (fact_ok_evidence d); [by rewrite Hb|done|]. by apply added_fact_ok.
    + eapply (fact_ok_evidence d); [by rewrite Hb|done|]. by eapply He.
  - intros k k' f f'. rewrite Hins.
    intros [[<- <-]|[_ Hk]]%lookup_insert_Some [[<- <-]|[_ Hk']]%lookup_insert_Some Heq; simpl in Heq; [done| | |by eapply Hu].
    + by destruct (Hno k' f' Hk').
    + by destruct (Hno k f Hk).
  - unfold accounts_unique. by rewrite Hb.
  - intros k f Hk. exists f. split; [|done]. rewrite Hins, lookup_insert_ne; [done|]. intros ->. by rewrite Hn in Hk.
Qed.

Lemma step_keeps d d' : projection_step d d' → facts_ok d →
  facts_ok d' ∧ evidence_kept d d' ∧ ledger_account_bindings d ⊆ ledger_account_bindings d'.
Proof.
  intros Hs Hok. destruct Hs as [E id rq d|d d' Hev Hdom Hb Ha].
  - destruct (endpoint E id rq d) as [resp d'] eqn:H. simpl. destruct (request_step E id rq d d' resp Hok H) as (? & ? & ->).
    by split_and!.
  - split_and!; try done. destruct Hok as [He Hu _].
    assert (Hback : ∀ k f', tigerbeetle_transfer_facts d' !! k = Some f' →
      ∃ f, tigerbeetle_transfer_facts d !! k = Some f ∧ evidence f' = evidence f).
    { intros k f' Hk. assert (Hd : k ∈ dom (tigerbeetle_transfer_facts d)) by (rewrite <- Hdom; by apply elem_of_dom_2 in Hk).
      apply elem_of_dom in Hd as [f Hf]. destruct (Hev k f Hf) as (f2 & Hf2 & E2). exists f. split; [done|]. congruence. }
    split; [| |done].
    + intros k f' Hk. destruct (Hback k f' Hk) as (f & Hf & E). by eapply (fact_ok_evidence d), He.
    + intros k k' f f' (g & Hg & E)%Hback (g' & Hg' & E')%Hback Heq.
      apply (f_equal ttf_tigerbeetle_transfer_id) in E, E'. simpl in E, E'. eapply Hu; [done..|congruence].
Qed.

Lemma run_keeps d d' : rtc projection_step d d' → facts_ok d →
  facts_ok d' ∧ evidence_kept d d' ∧ ledger_account_bindings d ⊆ ledger_account_bindings d'.
Proof.
  induction 1 as [|d1 d2 d3 Hs _ IH]; intros Hok; [by split_and!|].
  destruct (step_keeps _ _ Hs Hok) as (Hok2 & He & Hb). destruct (IH Hok2) as (Hok3 & He3 & Hb3).
  split_and!; [done|by etrans|by etrans].
Qed.

(** Two bound accounts are two rows. *)
Lemma named_two i d : accounts_unique d → debit_of i ≠ credit_of i →
  bound d (pi_currency i) (debit_of i) → bound d (pi_currency i) (credit_of i) →
  length (named i d) = 2%nat ∧ Forall (λ b, pg_text (lab_currency b) = pi_currency i) (named i d).
Proof.
  intros Hu Hne (kd & bd & Hkd & Hd & Hcd) (kc & bc & Hkc & Hc & Hcc).
  assert (Hsel : ∀ k b, (k, b) ∈ select (λ _ b, includes [debit_of i; credit_of i] (lab_tigerbeetle_account_id b)) (ledger_account_bindings d) ↔
    (k, b) ∈ [(kd, bd); (kc, bc)]).
  { intros k b. rewrite elem_of_select, includes_true, !elem_of_cons, !elem_of_nil. split.
    - intros [Hk [Ha|[Ha|[]]]].
      + assert (k = kd) as -> by (eapply Hu; [done..|congruence]). left. congruence.
      + assert (k = kc) as -> by (eapply Hu; [done..|congruence]). right. left. congruence.
    - intros [[= -> ->]|[[= -> ->]|[]]]; (split; [done|]); rewrite ?Hd, ?Hc; tauto. }
  assert (Hperm : select (λ _ b, includes [debit_of i; credit_of i] (lab_tigerbeetle_account_id b)) (ledger_account_bindings d)
    ≡ₚ [(kd, bd); (kc, bc)]).
  { apply NoDup_Permutation; [apply (NoDup_fmap_1 fst), NoDup_select_fst| |by intros [k b]].
    apply NoDup_cons. split; [|apply NoDup_singleton]. intros [= -> ->]%list_elem_of_singleton. congruence. }
  unfold named. split; [by rewrite Hperm|]. rewrite Hperm. simpl. by rewrite !Forall_cons.
Qed.

(** The row on record under a transfer's number. *)
Lemma fact_on_record i d k f : facts_ok d → tigerbeetle_transfer_facts d !! k = Some f →
  ttf_tigerbeetle_transfer_id f = transfer_of i →
  head (select (λ _ r, ttf_tigerbeetle_transfer_id r =? transfer_of i) (tigerbeetle_transfer_facts d)) = Some (k, f).
Proof.
  intros [_ Hu _] Hk Ht. rewrite (select_unique _ _ k f); [done..|by apply Z.eqb_eq|].
  intros j x Hj Hx%Z.eqb_eq. eapply Hu; [done..|congruence].
Qed.

(** A transfer on record, presented again. *)
Lemma repeat_run E id i d k f c : facts_ok d → of_text (pi_currency i) = Some c →
  Forall (λ r, r.1 = true) (checks rules_transfer_facts (fact_of E i c (transfer_of i) (debit_of i) (credit_of i))) →
  tigerbeetle_transfer_facts d !! k = Some f → ttf_tigerbeetle_transfer_id f = transfer_of i → same_fact i f = true →
  finish E id i c d = Ok (mk_projection_result false (ttf_reconciliation_state f), d).
Proof.
  intros Hok Hc Hck Hk Ht Hs. unfold finish. eapply (tx_bind_run _ _ _ None).
  { unfold insert_or_nothing. eapply tx_bind_run; [by apply enforce_true|]. eapply tx_bind_run; [apply gets_run|].
    rewrite (proj2 (any_true _ _)); [done|]. exists k, f. split; [done|by apply Z.eqb_eq]. }
  eapply tx_bind_run; [apply gets_run|]. cbv beta. rewrite (fact_on_record i d k f) by done. simpl. rewrite Hs.
  eapply tx_bind_run; [by apply require_run|]. done.
Qed.

(** An accepted projection is on record afterwards. *)
Record on_record (i : projection_input) (d : db) (k : uuid) (f : transfer_fact) : Prop := {
  or_row : tigerbeetle_transfer_facts d !! k = Some f;
  or_transfer : ttf_tigerbeetle_transfer_id f = transfer_of i;
  or_same : same_fact i f = true
}.
(** The parts of its acceptance that last. *)
Definition acceptable (i : projection_input) : Prop :=
  ∃ c, of_text (pi_currency i) = Some c ∧ (debit_of i < 2 ^ 63 ∧ credit_of i < 2 ^ 63 ∧ transfer_of i < 2 ^ 63) ∧
    pi_debitAccountId i ≠ pi_creditAccountId i ∧
    ∀ E, Forall (λ r, r.1 = true) (checks rules_transfer_facts (fact_of E i c (transfer_of i) (debit_of i) (credit_of i))).

Lemma accepted_on_record E id i d p d' : facts_ok d → payload_ok i → recordInternalLedgerProjection E id i d = (Ok p, d') →
  acceptable i ∧ ∃ k f, on_record i d' k f.
Proof.
  intros Hok Hp [Ha (c & Hc & Hf)]%record_ok. apply finish_cases in Hf as [Hck Hf]. split.
  { exists c. destruct Ha. by split_and!. }
  destruct Hf as [(_ & -> & k & f & Hk & Ht & Hs)|(_ & Hn & _ & _ & _ & Hins & _)]; [by exists k, f|].
  exists id, (fact_of E i c (transfer_of i) (debit_of i) (credit_of i)). split; [by rewrite Hins, lookup_insert_eq|done|].
  apply same_fact_states; try done; try (by eapply positive_decimal_text, Hp). by apply fact_states.
Qed.

Lemma same_fact_evidence i f f' : evidence f' = evidence f → same_fact i f' = same_fact i f.
Proof. intros [= _ E2 E3 E4 E5 E6 _ E8 _]. unfold same_fact. by rewrite E2, E3, E4, E5, E6, E8. Qed.
Lemma on_record_kept i d d' k f : evidence_kept d d' → on_record i d k f → ∃ f', on_record i d' k f'.
Proof.
  intros He [Hk Ht Hs]. destruct (He k f Hk) as (f' & Hk' & E'). exists f'. split; [done| |].
  - apply (f_equal ttf_tigerbeetle_transfer_id) in E'. simpl in E'. congruence.
  - by rewrite (same_fact_evidence i f f').
Qed.

(** Two projections of a transfer agree on everything but the time of posting. *)
Definition agrees (i j : projection_input) : Prop :=
  pi_transferId j = pi_transferId i ∧ pi_correlationId j = pi_correlationId i ∧ pi_currency j = pi_currency i ∧
  pi_amountMinor j = pi_amountMinor i ∧ pi_debitAccountId j = pi_debitAccountId i ∧
  pi_creditAccountId j = pi_creditAccountId i ∧ pi_evidenceSha256 j = pi_evidenceSha256 i.

Lemma agrees_iff i j f : payload_ok i → payload_ok j → transfer_of j = transfer_of i → same_fact i f = true →
  same_fact j f = true ↔ agrees i j.
Proof.
  intros [Pi _ _ _ _] [Pj _ _ _ _] Ht Hi. unfold same_fact, agrees in *.
  rewrite !andb_true_iff, !bool_decide_eq_true in *. destruct Hi as [[[[[-> ->] ->] ->] ->] ->]. split.
  - intros [[[[[-> ->] ->] ->] ->] ->]. split_and!; try done. by apply positive_decimal_inj.
  - intros (_ & -> & -> & -> & -> & -> & ->). done.
Qed.

(** An agreeing projection of a recorded transfer is accepted and changes nothing. *)
Lemma repeat_accepted E id i j d k f : facts_ok d → payload_ok i → payload_ok j → acceptable i → on_record i d k f → agrees i j →
  recordInternalLedgerProjection E id j d = (Ok (mk_projection_result false (ttf_reconciliation_state f)), d).
Proof.
  intros Hok Hpi Hpj (c & Hc & (Hb1 & Hb2 & Hb3) & Hne & Hck) [Hk Ht Hs] Hag.
  assert (Hst : states i f) by (destruct (fs_each d Hok k f Hk); by apply same_fact_states).
  assert (Hsj : same_fact j f = true).
  { apply (agrees_iff i j); try done. unfold transfer_of. by destruct Hag as [-> _]. }
  destruct Hag as (Et & Er & Ec & Eam & Ed & Ecr & Esh).
  assert (Htwo : length (named j d) = 2%nat ∧ Forall (λ b, pg_text (lab_currency b) = pi_currency j) (named j d)).
  { destruct (fs_each d Hok k f Hk). destruct Hst as [_ _ Sc _ Sd Scr _].
    apply named_two; [apply Hok| | |]; unfold debit_of, credit_of; rewrite ?Ec, ?Ed, ?Ecr; fold (debit_of i) (credit_of i); congruence. }
  rewrite (record_finish E id j d c); [|split; unfold debit_of, credit_of, transfer_of; rewrite ?Et, ?Ed, ?Ecr; by try apply Htwo|by rewrite Ec].
  apply transaction_ok, (repeat_run E id j d k f c); try done.
  - by rewrite Ec.
  - unfold transfer_of, debit_of, credit_of, fact_of. rewrite Et, Ed, Ecr, Er, Eam, Esh. apply (Hck E).
  - unfold transfer_of. by rewrite Et.
Qed.

Lemma endpoint_forward E id rq body i d : rq_body rq = Some body → authentic (app_now E) rq body →
  parsePayload parse_json parse_date body = Ok i →
  endpoint E id rq d = match recordInternalLedgerProjection E id i d with
    | (Ok r, d') => (Accepted (if pr_recorded r then 201 else 200) r, d')
    | (Throw e, d') => (Refused (error_code (message_text pg_message e)) (message_text pg_message e), d')
    end.
Proof.
  intros Hb Ha%verify_ok Hp. unfold endpoint, registerInternalLedgerProjection. rewrite Hb, Ha, Hp. done.
Qed.

(** Recorded transfers are immutable and projecting one again is idempotent.
    Through any run of requests, reconciliations and new account bindings, a
    recorded fact keeps its evidence, every fact names a positive amount between
    two different accounts bound in its currency, and no transfer is recorded
    twice. After a projection was accepted, an authentic projection of the same
    transfer is accepted exactly when it agrees with it (the time of posting
    apart), and then answers 200 and changes nothing. *)
Theorem facts_are_immutable d0 d1 : facts_ok d0 → rtc projection_step d0 d1 →
  facts_ok d1 ∧ evidence_kept d0 d1 ∧
  ∀ E id rq body i code p d2 d3 E' id' rq' body' j,
    endpoint E id rq d1 = (Accepted code p, d2) → rq_body rq = Some body → parsePayload parse_json parse_date body = Ok i →
    rtc projection_step d2 d3 →
    rq_body rq' = Some body' → authentic (app_now E') rq' body' → parsePayload parse_json parse_date body' = Ok j →
    transfer_of j = transfer_of i →
    (agrees i j → ∃ q, pr_recorded q = false ∧ endpoint E' id' rq' d3 = (Accepted 200 q, d3)) ∧
    (~ agrees i j → ∃ refused message, endpoint E' id' rq' d3 = (Refused refused message, d3)).
Proof.
  intros Hok0 Hrun. destruct (run_keeps _ _ Hrun Hok0) as (Hok1 & Hev & _). split_and!; [done..|].
  intros E id rq body i code p d2 d3 E' id' rq' body' j Hend Hb Hp Hrun2 Hb' Ha' Hp' Htr.
  destruct (request_step _ _ _ _ _ _ Hok1 Hend) as (Hok2 & _ & _).
  destruct (run_keeps _ _ Hrun2 Hok2) as (Hok3 & Hev3 & _).
  apply endpoint_cases in Hend as [(? & ? & [=] & _)|(body2 & i2 & p2 & Hb2 & _ & Hp2 & Hr & _)].
  rewrite Hb in Hb2. injection Hb2 as <-. rewrite Hp in Hp2. injection Hp2 as <-. apply parse_ok in Hp.
  destruct (accepted_on_record _ _ _ _ _ _ Hok1 Hp Hr) as (Hacc & k & f & Hor).
  destruct (on_record_kept _ _ _ _ _ Hev3 Hor) as (f3 & Hor3). pose proof (parse_ok _ _ Hp') as Hpj.
  split; intros Hag; rewrite (endpoint_forward E' id' rq' body' j d3 Hb' Ha' Hp').
  - rewrite (repeat_accepted E' id' i j d3 k f3) by done. eexists. by split; [|reflexivity].
  - destruct (recordInternalLedgerProjection E' id' j d3) as [[q|e] d4] eqn:Hr4; [|apply record_throw in Hr4 as ->; by eexists _, _].
    exfalso. apply record_ok in Hr4 as [_ (c & _ & Hf)]. destruct Hor3 as [Hk3 Ht3 Hs3].
    apply finish_cases in Hf as [_ [(_ & _ & k4 & f4 & Hk4 & Ht4 & Hs4)|(_ & _ & Hno & _)]].
    + assert (k4 = k) as -> by (eapply (fs_unique d3 Hok3); [done..|congruence]).
      assert (f4 = f3) as -> by congruence. by apply Hag, (agrees_iff i j f3).
    + apply (Hno k f3 Hk3). congruence.
Qed.
End endpoint.

(** ** A worked run *)

(** A projection of transfer 9: 2 500 from account 1 to account 2, posted at the
    instant its fields name; the parser reads this one body. *)
Definition demo_fields (posted_at : string) : json :=
  JObj [("transfer_id", JStr "9"); ("correlation_id", JStr "corr-1"); ("currency", JStr "NGN"); ("amount_minor", JStr "2500");
        ("debit_account_id", JStr "1"); ("credit_account_id", JStr "2"); ("posted_at", JStr posted_at);
        ("evidence_sha256", JStr "e3b0c44298fc1c149afbf4c8996fb92427ae41e4649b934ca495991b7852b855")].
Definition first_body : bytes := utf8_bytes "first".
Definition later_body : bytes := utf8_bytes "later".
Definition demo_json (body : bytes) : res json :=
  if bool_decide (body = first_body) then Ok (demo_fields "t1") else if bool_decide (body = later_body) then Ok (demo_fields "t2")
  else fail "Unexpected token".
Definition demo_date (s : string) : option Z := if bool_decide (s = "t1") then Some 1000 else if bool_decide (s = "t2") then Some 2000 else None.
Definition demo_key : bytes := utf8_bytes "sixteen-byte-key".
Definition demo_message (_ : pg_violation) : string := "violation".
Definition signed (ts : string) (body : bytes) : request :=
  mk_request (Some body) (Some ts) (Some (base64 (hmac_sha256 demo_key (signed_text ts body)))).
#[local] Abbreviation demo_endpoint := (endpoint demo_json demo_date (Ok demo_key) demo_message).
Definition demo_env : env := mk_env 1500 1500000 0.

Definition demo_binding (account : Z) : account_binding :=
  mk_account_binding "ref" account "provider_clearing" NGN "https://evidence" "" "seed" 0.
Definition books : db := empty_db <| ledger_account_bindings := {[1%positive := demo_binding 1; 2%positive := demo_binding 2]} |>.
Definition after_first : db := (demo_endpoint demo_env 5 (signed "t1" first_body) books).2.

Lemma books_ok : facts_ok books.
Proof.
  split; try (intros k; intros; by match goal with H : tigerbeetle_transfer_facts books !! _ = Some _ |- _ => vm_compute in H end).
  intros k k' b b' Hk Hk' He. change (ledger_account_bindings books) with ({[1%positive := demo_binding 1; 2%positive := demo_binding 2]} : gmap uuid account_binding) in *.
  apply lookup_insert_Some in Hk as [[<- <-]|[_ [<- <-]%lookup_singleton_Some]];
  apply lookup_insert_Some in Hk' as [[<- <-]|[_ [<- <-]%lookup_singleton_Some]]; done.
Qed.

Definition demo_input (posted_at : Z) : projection_input :=
  mk_projection_input "9" "corr-1" "NGN" "2500" "1" "2" posted_at "e3b0c44298fc1c149afbf4c8996fb92427ae41e4649b934ca495991b7852b855".
Lemma first_parsed : parsePayload demo_json demo_date first_body = Ok (demo_input 1000).
Proof. vm_compute. reflexivity. Qed.
Lemma later_parsed : parsePayload demo_json demo_date later_body = Ok (demo_input 2000).
Proof. vm_compute. reflexivity. Qed.
Lemma later_authentic : authentic demo_date (Ok demo_key) (app_now demo_env) (signed "t2" later_body) later_body.
Proof. by apply signed_is_authentic with 2000. Qed.
Lemma first_accepted : ∃ p, (demo_endpoint demo_env 5 (signed "t1" first_body) books).1 = Accepted 201 p.
Proof. eexists. vm_compute. reflexivity. Qed.

(** Witness of [only_signed_projections_recorded]: the signed request passes and
    is recorded; one with the signature of another body is not. *)
Lemma only_signed_projections_recorded_witness :
  verifyRequest demo_date (Ok demo_key) 1500 (signed "t1" first_body) first_body = Ok tt ∧
  (∃ p, (demo_endpoint demo_env 5 (signed "t1" first_body) books).1 = Accepted 201 p) ∧
  (∃ code message, (demo_endpoint demo_env 5 (mk_request (Some later_body) (Some "t1") (rq_signature (signed "t1" first_body))) books).1
     = Refused code message) ∧
  (∃ code message, demo_endpoint demo_env 5 (mk_request None None None) books = (Refused code message, books)).
Proof.
  pose proof (only_signed_projections_recorded demo_json demo_date (Ok demo_key) demo_message) as [Hcases Hpass].
  split; [|split; [|split]].
  - apply (Hpass demo_key "t1" 1000 1500 first_body); [reflexivity|discriminate|reflexivity|vm_compute; discriminate].
  - exact first_accepted.
  - eexists _, _. vm_compute. reflexivity.
  - destruct (Hcases demo_env 5%positive (mk_request None None None) books
      (Refused 415 "ledger projection requires an octet-stream protected body") books eq_refl) as [(c & m & H & _)|(b & i & p & c & H & _)].
    + exists c, m. rewrite <- H. reflexivity.
    + discriminate H.
Defined.

(** Witness of [facts_are_immutable]: the same transfer projected again, with
    another time of posting, is accepted and changes nothing. *)
Lemma facts_are_immutable_witness :
  ∃ q, pr_recorded q = false ∧ demo_endpoint demo_env 6 (signed "t2" later_body) after_first = (Accepted 200 q, after_first).
Proof.
  pose proof (facts_are_immutable demo_json demo_date (Ok demo_key) demo_message books books books_ok (rtc_refl _ _)) as (_ & _ & H).
  destruct first_accepted as [p Hp].
  refine (proj1 (H demo_env 5%positive (signed "t1" first_body) first_body (demo_input 1000) 201 p after_first after_first demo_env
    6%positive (signed "t2" later_body) later_body (demo_input 2000) _ eq_refl first_parsed (rtc_refl _ _) eq_refl later_authentic
    later_parsed eq_refl) _).
  - rewrite <- Hp. apply surjective_pairing.
  - repeat split.
Defined.

(** ** A departure *)

(** A second projection of a transfer that was posted at another time is taken
    for a repetition: the recorded time stands and the caller is told 200. *)
Lemma replay_ignores_posted_at :
  (demo_endpoint demo_env 6 (signed "t2" later_body) after_first).1 = Accepted 200 (mk_projection_result false "pending") ∧
  ttf_posted_at <$> tigerbeetle_transfer_facts after_first !! 5%positive = Some 1000000.
Proof. split; vm_compute; reflexivity. Qed.
