(* ===== verification/KycDocuments.v ===== *)
(** * KYC documents

    Secure upload and review of customer documents: the handlers of
    src/apps/control-plane/server/postgres.ts (lines 381 to 470), the object
    keys of storage.ts and the read of analysisSubmission.ts that lists
    documents with a verified digest. The object store (its configuration,
    signed URLs and what it serves) is an argument. *)

From S2P Require Import Prelude Js Numeric Sha256 Hmac Rows Schema.

Local Open Scope string_scope.
Local Open Scope Z_scope.

(** ** The tables *)

Definition document_mime_types : list string := ["application/pdf"; "image/jpeg"; "image/png"; "image/webp"; "image/tiff"].

Definition rules_kyc_documents : table_rules kyc_document := {|
  checks r := [(0 <=? kd_size_bytes r, CheckViolation "kyc_documents_size_bytes_check")];
  uniques t r := [unique (λ x, bool_decide (kd_storage_key x = kd_storage_key r)) "kyc_documents_storage_key_key" t];
  references d r := [fk customers "kyc_documents_customer_id_fkey" d (kd_customer_id r)] |}.

Definition rules_upload_intents : table_rules upload_intent := {|
  checks r := [(in_list document_mime_types (ui_mime_type r), CheckViolation "kyc_document_upload_intents_mime_type_check");
    ((0 <? ui_size_bytes r) && (ui_size_bytes r <=? 26214400), CheckViolation "kyc_document_upload_intents_size_bytes_check");
    (is_sha256_hex (ui_content_sha256 r), CheckViolation "kyc_document_upload_intents_content_sha256_check");
    (ui_created_at r <? ui_expires_at r, CheckViolation "kyc_document_upload_intents_check")];
  uniques t r := [unique (λ x, bool_decide (ui_storage_key x = ui_storage_key r)) "kyc_document_upload_intents_storage_key_key" t];
  references d r := [fk customers "kyc_document_upload_intents_customer_id_fkey" d (ui_customer_id r)] |}.

(** ** Object keys *)

(** [replace(/[^A-Za-z0-9._-]/g, "_")]. *)
Definition key_char (c : ascii) : bool := is_alnum c || bool_decide (c ∈ ["."; "_"; "-"]%char).
Fixpoint sanitize (s : string) : string :=
  match s with
  | EmptyString => EmptyString
  | String c s => String (if key_char c then c else "_"%char) (sanitize s)
  end.
Definition or_else (s fallback : string) : string := if truthy s then s else fallback.
Definition safe_filename (originalFilename : string) : string :=
  or_else (String.substring 0 180 (sanitize originalFilename)) "document".

(** [replace(/^\/+/, "")]. *)
Fixpoint strip_slashes (s : string) : string :=
  match s with String "/" s => strip_slashes s | _ => s end.
Definition normalizeKey (relKey : string) : res string :=
  let key := strip_slashes relKey in
  if negb (truthy key) || js_includes key ".." || js_includes key "\" then Throw (JsError "invalid object key") else Ok key.

(** [lastIndexOf(".")], as the split it is used for. *)
Fixpoint split_extension (s : string) : option (string * string) :=
  match s with
  | EmptyString => None
  | String c t =>
      match split_extension t with
      | Some (a, b) => Some (String c a, b)
      | None => if bool_decide (c = "."%char) then Some ("", s) else None
      end
  end.
Definition appendHashSuffix (hash relKey : string) : string :=
  match split_extension relKey with
  | None => relKey +:+ "_" +:+ hash
  | Some (a, b) => a +:+ "_" +:+ hash +:+ b
  end.

(** What GET on a signed URL returns. *)
Record object_response : Type := mk_object_response {
  obj_ok : bool;
  obj_content_type : option string;
  obj_body : bytes
}.

(** The object store: its configuration, the presigner and HTTP. *)
Record object_store : Type := mk_object_store {
  configured : res unit;
  sign_put : string → string → res string;
  sign_get : string → res string;
  http_get : string → res object_response
}.

Definition storageCreateUploadUrl (st : object_store) (hash relKey contentType : string) : res (string * string) :=
  match configured st with
  | Throw e => Throw e
  | Ok _ => match normalizeKey relKey with
    | Throw e => Throw e
    | Ok k => let key := appendHashSuffix hash k in
        match sign_put st key contentType with Throw e => Throw e | Ok url => Ok (key, url) end
    end
  end.
Definition storageGetSignedUrl (st : object_store) (relKey : string) : res string :=
  match configured st with
  | Throw e => Throw e
  | Ok _ => match normalizeKey relKey with Throw e => Throw e | Ok key => sign_get st key end
  end.

(** ** Upload *)

Definition lift {A} (r : res A) : Tx db A := λ d, match r with Ok a => Ok (a, d) | Throw e => Throw e end.
Definition act_lift {A} (r : res A) : Act db A := λ d, (r, d).

Record upload_input : Type := mk_upload_input {
  upi_customerId : uuid;
  upi_documentType : kyc_document_type;
  upi_originalFilename : string;
  upi_mimeType : string;
  upi_sizeBytes : Z;
  upi_contentSha256 : string
}.

Definition upload_prefix (customerId : uuid) : string := "kyc-document-intake/" +:+ uuid_text customerId +:+ "/".
Definition intent_row (E : env) (a : actor) (input : upload_input) (key : string) (expiresAt : Z) : upload_intent :=
  mk_upload_intent (upi_customerId input) (upi_documentType input) (upi_originalFilename input) (upi_mimeType input)
    (upi_sizeBytes input) (upi_contentSha256 input) key (a_openId a) (pg_of_js expiresAt) None (db_now E).

Definition createPostgresKycDocumentUploadIntent (st : object_store) (hash : string) (E : env) (a : actor) (new_id : uuid)
    (input : upload_input) : Act db (uuid * string * string * Z) :=
  _ ← transaction (customer ← select_by_id customers (upi_customerId input);
        require customer (JsError "KYC upload requires an existing canonical customer record"));
  signed ← act_lift (storageCreateUploadUrl st hash
    (upload_prefix (upi_customerId input) +:+ safe_filename (upi_originalFilename input)) (upi_mimeType input));
  let '(key, uploadUrl) := signed in
  let expiresAt := app_now E + 15 * 60 * 1000 in
  transaction (
    _ ← insert_row kyc_document_upload_intents "kyc_document_upload_intents" rules_upload_intents new_id
      (intent_row E a input key expiresAt);
    _ ← insert_activity E a "kyc_document.upload_intent_created" "kyc_document_upload_intent" (Some new_id)
      (JObj [("customerId", JUuid (upi_customerId input)); ("documentType", JStr (pg_text (upi_documentType input)));
             ("mimeType", JStr (upi_mimeType input)); ("sizeBytes", JNum (upi_sizeBytes input));
             ("contentSha256", JStr (upi_contentSha256 input)); ("storageKey", JStr key); ("expiresAt", JDate expiresAt);
             ("documentBytesPersisted", JBool false)]);
    mret (new_id, key, uploadUrl, expiresAt)).

(** [contentType?.split(";")[0]]. *)
Definition media_type (o : option string) : option string := s ← o; head (split_on ";"%char s).

Definition document_row (E : env) (a : actor) (i : upload_intent) : kyc_document :=
  mk_kyc_document (ui_customer_id i) (ui_document_type i) (ui_storage_key i) ("/storage/" +:+ ui_storage_key i)
    (ui_original_filename i) (ui_mime_type i) (ui_size_bytes i) KycSubmitted None None None (a_openId a) (db_now E).

Definition finalizePostgresKycDocumentUpload (st : object_store) (E : env) (a : actor) (new_id uploadIntentId : uuid) :
    Act db (uuid * kyc_review_status) :=
  transaction (
    found ← select_by_id kyc_document_upload_intents uploadIntentId;
    intent ← require found (JsError "KYC upload intent was not found");
    _ ← throw_if (negb (bool_decide (ui_uploaded_by intent = a_openId a)))
      (JsError "only the originating compliance operator may finalize this KYC upload");
    _ ← throw_if (is_some (ui_finalized_at intent)) (JsError "KYC upload intent has already been finalized");
    _ ← throw_if (js_of_pg (ui_expires_at intent) <=? app_now E) (JsError "KYC upload intent expired before verification");
    signedUrl ← lift (storageGetSignedUrl st (ui_storage_key intent));
    object ← lift (http_get st signedUrl);
    _ ← throw_if (negb (obj_ok object)) (JsError "uploaded KYC document is unavailable from secured storage");
    _ ← throw_if (negb (bool_decide (media_type (obj_content_type object) = Some (ui_mime_type intent))) ||
        negb (Z.of_nat (length (obj_body object)) =? ui_size_bytes intent))
      (JsError "uploaded KYC document metadata does not match its declared secure-upload intent");
    _ ← throw_if (negb (bool_decide (sha256_hex (obj_body object) = ui_content_sha256 intent)))
      (JsError "uploaded KYC document checksum does not match its declared secure-upload intent");
    _ ← insert_row kyc_documents "kyc_documents" rules_kyc_documents new_id (document_row E a intent);
    _ ← update_row kyc_document_upload_intents uploadIntentId (λ i, i <| ui_finalized_at := Some (db_now E) |>);
    _ ← insert_activity E a "kyc_document.upload_verified_and_recorded" "kyc_document" (Some new_id)
      (JObj [("uploadIntentId", JUuid uploadIntentId); ("customerId", JUuid (ui_customer_id intent));
             ("documentType", JStr (pg_text (ui_document_type intent))); ("storageKey", JStr (ui_storage_key intent));
             ("sizeBytes", JNum (ui_size_bytes intent)); ("contentSha256", JStr (ui_content_sha256 intent));
             ("documentBytesPersisted", JBool false)]);
    mret (new_id, KycSubmitted)).

(** ** Review *)

Definition kyc_review_edges (s : kyc_review_status) : list kyc_review_status :=
  match s with
  | KycSubmitted => [KycUnderReview; KycExpired]
  | KycUnderReview => [KycApproved; KycRejected; KycExpired]
  | KycApproved => [KycExpired]
  | KycRejected | KycExpired => []
  end.

Definition reviewed (E : env) (a : actor) (status : kyc_review_status) (note : string) (r : kyc_document) : kyc_document :=
  r <| kd_review_status := status |> <| kd_review_note := Some note |> <| kd_reviewed_by := Some (a_openId a) |>
    <| kd_reviewed_at := Some (db_now E) |>.

Definition updatePostgresKycDocumentReview (E : env) (a : actor) (documentId : uuid) (status : kyc_review_status) (note : string) :
    Act db (uuid * kyc_review_status) :=
  transaction (
    current ← select_by_id kyc_documents documentId;
    document ← require current (JsError "KYC document was not found");
    _ ← throw_if (negb (includes (kyc_review_edges (kd_review_status document)) status))
      (JsError "invalid KYC document review lifecycle transition");
    _ ← update_row kyc_documents documentId (reviewed E a status note);
    _ ← insert_activity E a "kyc_document.review_transitioned" "kyc_document" (Some documentId)
      (JObj [("from", JStr (pg_text (kd_review_status document))); ("to", JStr (pg_text status));
             ("reviewNoteLength", JNum (js_length (trim note))); ("documentBytesPersisted", JBool false)]);
    mret (documentId, status)).

(** ** Reads *)

(** [JOIN customers]. *)
Definition listPostgresKycDocuments (d : db) : list (uuid * kyc_document * string) :=
  omap (λ x, c ← customers d !! kd_customer_id x.2; Some (x, cust_legal_name c))
    (order_by_desc (λ x, kd_uploaded_at x.2) (map_to_list (kyc_documents d))).

(** The finalised intents under a document's key, whose digests join it. *)
Definition verified_digests (d : db) (r : kyc_document) : list string :=
  (λ x, ui_content_sha256 x.2) <$>
    select (λ _ i, bool_decide (ui_storage_key i = kd_storage_key r) && is_some (ui_finalized_at i)) (kyc_document_upload_intents d).

Definition listPostgresAnalysisReadyDocuments (d : db) : list (uuid * kyc_document * string * string) :=
  order_by_desc (λ x, kd_uploaded_at x.1.1.2)
    (flat_map (λ x, match customers d !! kd_customer_id x.2 with
       | Some c => if includes document_mime_types (kd_mime_type x.2)
                   then (λ sha, (x, cust_legal_name c, sha)) <$> verified_digests d x.2 else []
       | None => []
       end) (map_to_list (kyc_documents d))).
