(* ===== verification/KycProps.v ===== *)
(** * KYC documents: verified bytes and a forward-only review *)

From S2P Require Import Prelude Js Numeric Sha256 Hmac Rows Schema KycDocuments.

Local Open Scope string_scope.
Local Open Scope Z_scope.

(** ** What the handlers change *)

(** The upload tables of a database. *)
Definition kyc_view (d : db) : gmap uuid upload_intent * gmap uuid kyc_document := (kyc_document_upload_intents d, kyc_documents d).

Lemma lift_ok {A} (r : res A) d a d' : lift r d = Ok (a, d') ↔ r = Ok a ∧ d' = d.
Proof. unfold lift. destruct r; naive_solver. Qed.

Lemma is_some_false {A} (o : option A) : is_some o = false ↔ o = None.
Proof. unfold is_some. rewrite bool_decide_eq_false. symmetry. apply eq_None_not_Some. Qed.

(** A declared upload that no row of the table repeats. *)
Record declared (d : db) (i : upload_intent) : Prop := {
  dc_open : ui_finalized_at i = None;
  dc_size : 0 < ui_size_bytes i <= 26214400;
  dc_mime : ui_mime_type i ∈ document_mime_types;
  dc_sha : is_sha256_hex (ui_content_sha256 i) = true;
  dc_customer : is_Some (customers d !! ui_customer_id i);
  dc_key : ∀ j x, kyc_document_upload_intents d !! j = Some x → ui_storage_key x ≠ ui_storage_key i
}.

Lemma intent_effect st hash E a id input d r d' :
  createPostgresKycDocumentUploadIntent st hash E a id input d = (r, d') →
  d' = d ∨ ∃ i, kyc_view d' = (<[id := i]> (kyc_document_upload_intents d), kyc_documents d) ∧
    customers d' = customers d ∧ kyc_document_upload_intents d !! id = None ∧ declared d i ∧ log_extends d d'.
Proof.
  unfold createPostgresKycDocumentUploadIntent. unfold mbind at 1, act_bind at 1.
  destruct (transaction _ d) as [[c|e] d1] eqn:Hc.
  2: { apply transaction_throw in Hc as [_ ->]. intros [= <- <-]. by left. }
  apply transaction_ok in Hc. db_inv. unfold mbind at 1, act_bind at 1, act_lift.
  destruct (storageCreateUploadUrl _ _ _ _) as [[key url]|e]; [|intros [= <- <-]; by left]. cbv zeta.
  destruct (transaction _ d) as [[x|e] d2] eqn:Ht; intros [= <- <-]; [right|left; by apply transaction_throw in Ht as [_ ->]].
  apply transaction_ok in Ht. db_inv. eexists. split_and!; [done|done|done| |unfold log_extends; simpl; by apply prefix_app_r].
  split; simpl; try done; [unbool; lia|by eapply bool_decide_eq_true|].
  intros j x Hj Hk. eapply (proj1 (any_false _ _)) in Hj; [|done]. cbv beta in Hj. by apply bool_decide_eq_false in Hj.
Qed.

(** What the store returns under a key. *)
Definition fetched (st : object_store) (key : string) : res object_response :=
  match storageGetSignedUrl st key with Ok url => http_get st url | Throw e => Throw e end.

(** The bytes the store serves for an upload. *)
Definition served (st : object_store) (d : db) (intent : uuid) : list (string * bytes) :=
  match kyc_document_upload_intents d !! intent with
  | Some i => match fetched st (ui_storage_key i) with Ok o => [(ui_storage_key i, obj_body o)] | Throw _ => [] end
  | None => []
  end.

(** The bytes are those the upload declared. *)
Definition matches (i : upload_intent) (bs : bytes) : Prop :=
  sha256_hex bs = ui_content_sha256 i ∧ Z.of_nat (length bs) = ui_size_bytes i.

Record finalizable (st : object_store) (E : env) (a : actor) (d : db) (id intent : uuid) (i : upload_intent) (o : object_response) : Prop := {
  fz_row : kyc_document_upload_intents d !! intent = Some i;
  fz_operator : ui_uploaded_by i = a_openId a;
  fz_open : ui_finalized_at i = None;
  fz_fresh : app_now E < js_of_pg (ui_expires_at i);
  fz_served : fetched st (ui_storage_key i) = Ok o;
  fz_ok : obj_ok o = true;
  fz_type : media_type (obj_content_type o) = Some (ui_mime_type i);
  fz_bytes : matches i (obj_body o);
  fz_size : 0 <= ui_size_bytes i;
  fz_id : kyc_documents d !! id = None;
  fz_key : ∀ j x, kyc_documents d !! j = Some x → kd_storage_key x ≠ ui_storage_key i;
  fz_customer : is_Some (customers d !! ui_customer_id i)
}.

Lemma fetched_ok st key o : fetched st key = Ok o ↔ ∃ url, storageGetSignedUrl st key = Ok url ∧ http_get st url = Ok o.
Proof. unfold fetched. destruct (storageGetSignedUrl st key) as [url|]; naive_solver. Qed.

Lemma finalize_ok st E a id intent d r d' :
  finalizePostgresKycDocumentUpload st E a id intent d = (Ok r, d') →
  ∃ i o, finalizable st E a d id intent i o ∧ r = (id, KycSubmitted) ∧
    kyc_view d' = (<[intent := i <| ui_finalized_at := Some (db_now E) |>]> (kyc_document_upload_intents d),
                   <[id := document_row E a i]> (kyc_documents d)) ∧
    customers d' = customers d ∧ log_extends d d'.
Proof.
  intros H. apply transaction_ok in H. db_inv.
  repeat match goal with H : lift _ _ = Ok _ |- _ => apply lift_ok in H as [? ->] end. db_inv.
  eexists _, _. split_and!; [|done| |done|unfold log_extends; simpl; by apply prefix_app_r].
  - split; try done; [by apply is_some_false|lia|by apply fetched_ok; eauto|split; [done|lia]|lia|..].
    intros j x Hj Hk. eapply (proj1 (any_false _ _)) in Hj; [|done]. cbv beta in Hj. by apply bool_decide_eq_false in Hj.
  - unfold kyc_view. simpl. f_equal. erewrite alter_as_insert; done.
Qed.

Lemma finalize_run st E a id intent d i o : finalizable st E a d id intent i o →
  ∃ d', finalizePostgresKycDocumentUpload st E a id intent d = (Ok (id, KycSubmitted), d').
Proof.
  intros [H1 H2 H3 H4 H5 H6 H7 [H8 H8'] H9 H10 H11 H12]. apply fetched_ok in H5 as (url & Hu & Hg).
  eexists. apply transaction_ok. eapply tx_bind_run; [apply gets_run|]. cbv beta.
  eapply tx_bind_run; [by apply require_run|].
  eapply tx_bind_run; [apply throw_if_run, negb_false_iff, bool_decide_eq_true; done|].
  eapply tx_bind_run; [apply throw_if_run; unfold is_some; rewrite H3; done|].
  eapply tx_bind_run; [apply throw_if_run; lia|].
  eapply tx_bind_run; [by apply lift_ok|]. eapply tx_bind_run; [by apply lift_ok|].
  eapply tx_bind_run; [apply throw_if_run; by rewrite H6|].
  eapply tx_bind_run; [apply throw_if_run; rewrite bool_decide_eq_true_2 by done; simpl; lia|].
  eapply tx_bind_run; [apply throw_if_run, negb_false_iff, bool_decide_eq_true; done|].
  eapply (tx_bind_run _ _ _ tt).
  { apply insert_row_ok. split_and!; [repeat constructor; simpl; lia|done| | |reflexivity].
    - repeat constructor. simpl. apply negb_true_iff, any_false. intros j x Hj. apply bool_decide_eq_false. by eapply H11.
    - repeat constructor. by apply bool_decide_eq_true. }
  eapply tx_bind_run; [apply modify_run|]. eapply tx_bind_run; [apply modify_run|]. done.
Qed.

Lemma review_ok E a k status note d r d' :
  updatePostgresKycDocumentReview E a k status note d = (r, d') →
  (d' = d ∧ ∃ e, r = Throw e) ∨
  ∃ x, kyc_documents d !! k = Some x ∧ status ∈ kyc_review_edges (kd_review_status x) ∧ r = Ok (k, status) ∧
    kyc_view d' = (kyc_document_upload_intents d, <[k := reviewed E a status note x]> (kyc_documents d)) ∧
    customers d' = customers d ∧ log_extends d d'.
Proof.
  intros H. destruct r as [r|e]; [right|left; apply transaction_throw in H as [_ ->]; by eauto].
  apply transaction_ok in H. db_inv. eexists. split_and!; [done|by apply includes_true|done| |done|unfold log_extends; simpl; by apply prefix_app_r].
  unfold kyc_view. simpl. f_equal. erewrite alter_as_insert; done.
Qed.

(** ** Runs *)

(** A step, with the object the store served to it; elsewhere customers are only
    added. *)
Inductive kyc_step : list (string * bytes) → relation db :=
  | ks_intent st hash E a id input d : kyc_step [] d (createPostgresKycDocumentUploadIntent st hash E a id input d).2
  | ks_finalize st E a id intent d : kyc_step (served st d intent) d (finalizePostgresKycDocumentUpload st E a id intent d).2
  | ks_review E a k status note d : kyc_step [] d (updatePostgresKycDocumentReview E a k status note d).2
  | ks_elsewhere d d' : kyc_view d' = kyc_view d → dom (customers d) ⊆ dom (customers d') → kyc_step [] d d'.

(** A run from empty tables, with everything the store served. *)
Inductive kyc_run : list (string * bytes) → db → Prop :=
  | kr_start d : kyc_view d = (∅, ∅) → kyc_run [] d
  | kr_step o obs d d' : kyc_run obs d → kyc_step o d d' → kyc_run (o ++ obs) d'.
Definition kyc_later : relation db := rtc (λ d d', ∃ o, kyc_step o d d').

(** A document carries the declaration of a finalised upload whose bytes were
    checked; once it left [submitted], somebody reviewed it. *)
Record document_ok (obs : list (string * bytes)) (d : db) (r : kyc_document) (j : uuid) (i : upload_intent) : Prop := {
  do_intent : kyc_document_upload_intents d !! j = Some i;
  do_final : is_Some (ui_finalized_at i);
  do_key : kd_storage_key r = ui_storage_key i;
  do_url : kd_storage_url r = "/storage/" +:+ ui_storage_key i;
  do_declared : (kd_customer_id r, kd_document_type r, kd_original_filename r, kd_mime_type r, kd_size_bytes r, kd_uploaded_by r) =
    (ui_customer_id i, ui_document_type i, ui_original_filename i, ui_mime_type i, ui_size_bytes i, ui_uploaded_by i);
  do_bytes : ∃ bs, (kd_storage_key r, bs) ∈ obs ∧ matches i bs;
  do_review : kd_review_status r = KycSubmitted ↔ kd_reviewed_by r = None
}.

Record intent_ok (d : db) (i : upload_intent) : Prop := {
  io_size : 0 < ui_size_bytes i <= 26214400;
  io_mime : ui_mime_type i ∈ document_mime_types;
  io_sha : is_sha256_hex (ui_content_sha256 i) = true;
  io_customer : ui_customer_id i ∈ dom (customers d);
  io_final : is_Some (ui_finalized_at i) → ∃ k r, kyc_documents d !! k = Some r ∧ kd_storage_key r = ui_storage_key i
}.

Record kyc_ok (obs : list (string * bytes)) (d : db) : Prop := {
  ko_documents : ∀ k r, kyc_documents d !! k = Some r → ∃ j i, document_ok obs d r j i;
  ko_intents : ∀ j i, kyc_document_upload_intents d !! j = Some i → intent_ok d i;
  ko_document_keys : ∀ k k' r r', kyc_documents d !! k = Some r → kyc_documents d !! k' = Some r' →
    kd_storage_key r = kd_storage_key r' → k = k';
  ko_intent_keys : ∀ j j' i i', kyc_document_upload_intents d !! j = Some i → kyc_document_upload_intents d !! j' = Some i' →
    ui_storage_key i = ui_storage_key i' → j = j'
}.

Lemma view_eq d d' : kyc_view d' = kyc_view d →
  kyc_document_upload_intents d' = kyc_document_upload_intents d ∧ kyc_documents d' = kyc_documents d.
Proof. by intros [= -> ->]. Qed.

Lemma kyc_ok_mono obs obs' d d' : kyc_ok obs d → kyc_view d' = kyc_view d → dom (customers d) ⊆ dom (customers d') →
  obs ⊆ obs' → kyc_ok obs' d'.
Proof.
  intros [H1 H2 H3 H4] [Ei Ed]%view_eq Hc Ho. split; rewrite ?Ei, ?Ed; try done.
  - intros k r (j & i & [])%H1. exists j, i. split; rewrite ?Ei; try done. naive_solver.
  - intros j i []%H2. split; rewrite ?Ed; try done. set_solver.
Qed.

Lemma kyc_ok_intent obs d d' id i : kyc_ok obs d → declared d i → kyc_document_upload_intents d !! id = None →
  kyc_view d' = (<[id := i]> (kyc_document_upload_intents d), kyc_documents d) → customers d' = customers d → kyc_ok obs d'.
Proof.
  intros [H1 H2 H3 H4] [C1 C2 C3 C4 C5 C6] Hn [= Ei Ed] Ec. split; rewrite ?Ed, ?Ei; try done.
  - intros k r (j & x & [])%H1. exists j, x. split; try done. rewrite Ei, lookup_insert_ne; [done|]. intros ->. congruence.
  - intros j x. rewrite lookup_insert_Some. intros [[-> <-]|[_ []%H2]]; split; rewrite ?Ed, ?Ec; try done.
    + by apply elem_of_dom.
    + rewrite C1. by intros [? ?].
  - intros j j' x x'. rewrite !lookup_insert_Some.
    intros [[<- <-]|[_ Hj]] [[<- <-]|[_ Hj']] Heq; [done| | |by eapply H4].
    + by destruct (C6 _ _ Hj').
    + by destruct (C6 _ _ Hj).
Qed.

Lemma kyc_ok_finalize obs st E a id intent i o d d' : kyc_ok obs d → finalizable st E a d id intent i o →
  kyc_view d' = (<[intent := i <| ui_finalized_at := Some (db_now E) |>]> (kyc_document_upload_intents d),
                 <[id := document_row E a i]> (kyc_documents d)) → customers d' = customers d →
  kyc_ok (served st d intent ++ obs) d'.
Proof.
  intros [H1 H2 H3 H4] [F1 F2 F3 F4 F5 F6 F7 F8 F9 F10 F11 F12] [= Ei Ed] Ec.
  assert (Hs : served st d intent = [(ui_storage_key i, obj_body o)]) by (unfold served; by rewrite F1, F5).
  split; rewrite ?Ed, ?Ei.
  - intros k r [[<- <-]|[Hne Hk]]%lookup_insert_Some.
    + exists intent, (i <| ui_finalized_at := Some (db_now E) |>). split; simpl; try done.
      * by rewrite Ei, lookup_insert_eq.
      * by rewrite F2.
      * exists (obj_body o). rewrite Hs. split; [left|done].
    + destruct (H1 k r Hk) as (j & x & []). exists j, x. split; try done.
      * rewrite Ei, lookup_insert_ne; [done|]. intros ->. rewrite F1 in do_intent0. injection do_intent0 as <-.
        rewrite F3 in do_final0. by destruct do_final0.
      * destruct do_bytes0 as (bs & Hb & Hm). exists bs. split; [set_solver|done].
  - intros j x [[<- <-]|[Hne Hj]]%lookup_insert_Some.
    + destruct (H2 _ _ F1). split; simpl; rewrite ?Ec; try done. intros _. exists id, (document_row E a i).
      by rewrite Ed, lookup_insert_eq.
    + destruct (H2 _ _ Hj) as [? ? ? ? Hfin]. split; rewrite ?Ec; try done. intros (k & r & Hk & Hr)%Hfin.
      exists k, r. rewrite Ed, lookup_insert_ne; [done|]. intros ->. congruence.
  - intros k k' r r'. rewrite !lookup_insert_Some. intros [[<- <-]|[_ Hk]] [[<- <-]|[_ Hk']] Heq; [done| | |by eapply H3].
    + by destruct (F11 _ _ Hk').
    + by destruct (F11 _ _ Hk).
  - intros j j' x x'. rewrite !lookup_insert_Some. intros [[<- <-]|[_ Hj]] [[<- <-]|[_ Hj']] Heq; [done|..]; by eapply H4.
Qed.

Lemma kyc_ok_review obs E a k status note x d d' : kyc_ok obs d → kyc_documents d !! k = Some x →
  status ∈ kyc_review_edges (kd_review_status x) →
  kyc_view d' = (kyc_document_upload_intents d, <[k := reviewed E a status note x]> (kyc_documents d)) →
  customers d' = customers d → kyc_ok obs d'.
Proof.
  intros [H1 H2 H3 H4] Hx Hs [= Ei Ed] Ec.
  assert (status ≠ KycSubmitted) as Hne by (intros ->; destruct (kd_review_status x); set_solver).
  split; rewrite ?Ed, ?Ei; try done.
  - intros j r [[<- <-]|[_ Hj]]%lookup_insert_Some.
    + destruct (H1 _ _ Hx) as (j & i & []). exists j, i. split; simpl; rewrite ?Ei; try done.
    + destruct (H1 _ _ Hj) as (j' & i & []). exists j', i. split; rewrite ?Ei; done.
  - intros j i Hj. destruct (H2 _ _ Hj) as [? ? ? ? Hfin]. split; rewrite ?Ec; try done. intros (k' & r & Hk & Hr)%Hfin.
    destruct (decide (k = k')) as [<-|Hk'].
    + exists k, (reviewed E a status note x). rewrite Ed, lookup_insert_eq. split; [done|]. simpl. congruence.
    + exists k', r. by rewrite Ed, lookup_insert_ne.
  - intros j j' r r'. rewrite !lookup_insert_Some. intros [[<- <-]|[_ Hj]] [[<- <-]|[_ Hj']] Heq; [done|..]; by eapply H3.
Qed.

Lemma kyc_step_ok o obs d d' : kyc_step o d d' → kyc_ok obs d → kyc_ok (o ++ obs) d'.
Proof.
  intros [st hash E a id input|st E a id intent|E a k status note|d1 d2 Hv Hc] IH.
  - destruct (createPostgresKycDocumentUploadIntent _ _ _ _ _ _ _) as [r d2] eqn:H. simpl.
    apply intent_effect in H as [->|(i & Hv & Hc & Hn & Hd & _)]; [done|by eapply kyc_ok_intent].
  - destruct (finalizePostgresKycDocumentUpload _ _ _ _ _ _) as [[r|e] d2] eqn:H; simpl.
    + apply finalize_ok in H as (i & ob & Hf & _ & Hv & Hc & _). by eapply kyc_ok_finalize.
    + apply transaction_throw in H as [_ ->]. eapply kyc_ok_mono; [done..|]. set_solver.
  - destruct (updatePostgresKycDocumentReview _ _ _ _ _ _) as [r d2] eqn:H. simpl.
    apply review_ok in H as [[-> _]|(x & Hx & Hs & _ & Hv & Hc & _)]; [done|by eapply kyc_ok_review].
  - by eapply kyc_ok_mono.
Qed.
Lemma kyc_run_ok obs d : kyc_run obs d → kyc_ok obs d.
Proof.
  induction 1 as [d [= E1 E2]|o obs d d' _ IH Hs]; [|by eapply kyc_step_ok].
  split; rewrite ?E1, ?E2; intros *; rewrite lookup_empty; done.
Qed.

(** ** Review moves forward *)

Definition review_edge : relation kyc_review_status := λ s s', s' ∈ kyc_review_edges s.
(** Everything about a document but its review. *)
Definition document_identity (r : kyc_document) : kyc_document :=
  r <| kd_review_status := KycSubmitted |> <| kd_review_note := None |> <| kd_reviewed_by := None |> <| kd_reviewed_at := None |>.
Definition documents_kept (d d' : db) : Prop :=
  ∀ k r, kyc_documents d !! k = Some r → ∃ r', kyc_documents d' !! k = Some r' ∧
    document_identity r' = document_identity r ∧ rtc review_edge (kd_review_status r) (kd_review_status r').
#[local] Instance documents_kept_preorder : PreOrder documents_kept.
Proof.
  split; [intros d k r Hk; by exists r|].
  intros d1 d2 d3 H1 H2 k r Hk. destruct (H1 k r Hk) as (r2 & Hk2 & E2 & M2). destruct (H2 k r2 Hk2) as (r3 & Hk3 & E3 & M3).
  exists r3. split; [done|]. split; [congruence|by etrans].
Qed.

Lemma kept_same d d' : kyc_documents d' = kyc_documents d → documents_kept d d'.
Proof. intros E k r Hk. exists r. rewrite E. done. Qed.
Lemma kyc_step_kept o d d' : kyc_step o d d' → documents_kept d d'.
Proof.
  intros [st hash E a id input|st E a id intent|E a k status note|d1 d2 [_ Hv]%view_eq Hc].
  - destruct (createPostgresKycDocumentUploadIntent _ _ _ _ _ _ _) as [r d2] eqn:H. simpl.
    apply intent_effect in H as [->|(i & [= _ Hv] & _)]; by apply kept_same.
  - destruct (finalizePostgresKycDocumentUpload _ _ _ _ _ _) as [[r|e] d2] eqn:H; simpl.
    + apply finalize_ok in H as (i & ob & [] & _ & [= _ Hv] & _). intros k x Hk. exists x. rewrite Hv, lookup_insert_ne; [done|].
      intros ->. congruence.
    + apply transaction_throw in H as [_ ->]. by apply kept_same.
  - destruct (updatePostgresKycDocumentReview _ _ _ _ _ _) as [r d2] eqn:H. simpl.
    apply review_ok in H as [[-> _]|(x & Hx & Hs & _ & [= _ Hv] & _)]; [by apply kept_same|].
    intros j y Hy. destruct (decide (k = j)) as [<-|Hne].
    + exists (reviewed E a status note x). rewrite Hv, lookup_insert_eq. simplify_eq. split; [done|]. split; [done|]. by apply rtc_once.
    + exists y. by rewrite Hv, lookup_insert_ne.
  - by apply kept_same.
Qed.
Lemma kyc_later_kept d d' : kyc_later d d' → documents_kept d d'.
Proof. induction 1 as [|d1 d2 d3 [o Hs] _ IH]; [reflexivity|]. etrans; [by eapply kyc_step_kept|done]. Qed.

Lemma final_status s s' : s ∈ [KycRejected; KycExpired] → rtc review_edge s s' → s' = s.
Proof. intros Hs H. destruct H as [|s1 s2 s3 Hs1 _]; [done|]. unfold review_edge in Hs1. by destruct s1; set_solver. Qed.

(** ** Documents ready for analysis *)

Lemma verified_digest obs d r j i : kyc_ok obs d → document_ok obs d r j i → verified_digests d r = [ui_content_sha256 i].
Proof.
  intros Hok []. unfold verified_digests. rewrite (select_unique _ _ j i); [done..| |].
  - rewrite bool_decide_eq_true_2 by done. by apply bool_decide_eq_true.
  - intros j' i' Hj' [Hk%bool_decide_eq_true _]%andb_true_iff. eapply (ko_intent_keys _ _ Hok); [done..|congruence].
Qed.

(** The entry of a document. *)
Definition ready_entry (obs : list (string * bytes)) (d : db) (x : uuid * kyc_document) (e : uuid * kyc_document * string * string) : Prop :=
  e.1.1 = x ∧ (∃ c, customers d !! kd_customer_id x.2 = Some c ∧ e.1.2 = cust_legal_name c) ∧
  ∃ bs, (kd_storage_key x.2, bs) ∈ obs ∧ sha256_hex bs = e.2 ∧ Z.of_nat (length bs) = kd_size_bytes x.2.

Lemma ready_documents obs d : kyc_ok obs d →
  ∃ l, Forall2 (ready_entry obs d) (map_to_list (kyc_documents d)) l ∧ listPostgresAnalysisReadyDocuments d ≡ₚ l.
Proof.
  intros Hok. unfold listPostgresAnalysisReadyDocuments.
  assert (Hall : ∀ x, x ∈ map_to_list (kyc_documents d) → kyc_documents d !! x.1 = Some x.2) by (intros [k r]; apply elem_of_map_to_list).
  setoid_rewrite order_by_perm. induction (map_to_list (kyc_documents d)) as [|[k r] l IH]; [by exists []|].
  destruct IH as (es & Hes & Hp); [intros; apply Hall; by right|]. simpl.
  destruct (ko_documents _ _ Hok k r) as (j & i & Hd); [apply (Hall (k, r)); left|].
  pose proof (ko_intents _ _ Hok j i (do_intent _ _ _ _ _ Hd)) as Hi. pose proof (io_customer _ _ Hi) as [c Hc]%elem_of_dom.
  pose proof (do_declared _ _ _ _ _ Hd) as Hdec. injection Hdec as D1 D2 D3 D4 D5 D6.
  rewrite D1, Hc, D4, (proj2 (includes_true _ _) (io_mime _ _ Hi)), (verified_digest obs d r j i) by done. simpl.
  exists ((k, r, cust_legal_name c, ui_content_sha256 i) :: es). split; [|by rewrite Hp]. constructor; [|done].
  destruct (do_bytes _ _ _ _ _ Hd) as (bs & Hb & [Hm1 Hm2]). split; [done|]. split; [exists c; simpl; by rewrite D1|]. exists bs. simpl. by rewrite D5.
Qed.

(** C32. Recorded KYC documents are verified uploads. On every run from empty
    tables: a document carries the declaration of a finalised upload (customer,
    type, name, media type, size, uploader), and the object store served, under
    its key, bytes of that size whose digest is the declared one; no two
    documents share a key; the list of documents ready for analysis has exactly
    one entry per document, with the digest of those bytes. From then on a
    document's identity never changes, its review status moves only along the
    review edges, and a rejected or expired document stays so. *)
Theorem kyc_documents_verified obs d : kyc_run obs d →
  (∀ k r, kyc_documents d !! k = Some r → ∃ j i, document_ok obs d r j i ∧ intent_ok d i) ∧
  (∀ k k' r r', kyc_documents d !! k = Some r → kyc_documents d !! k' = Some r' → kd_storage_key r = kd_storage_key r' → k = k') ∧
  (∃ l, Forall2 (ready_entry obs d) (map_to_list (kyc_documents d)) l ∧ listPostgresAnalysisReadyDocuments d ≡ₚ l) ∧
  (∀ d' k r, kyc_later d d' → kyc_documents d !! k = Some r → ∃ r', kyc_documents d' !! k = Some r' ∧
    document_identity r' = document_identity r ∧ rtc review_edge (kd_review_status r) (kd_review_status r') ∧
    (kd_review_status r ∈ [KycRejected; KycExpired] → kd_review_status r' = kd_review_status r)).
Proof.
  intros Hok%kyc_run_ok. split_and!.
  - intros k r (j & i & Hd)%(ko_documents _ _ Hok). exists j, i. split; [done|]. by eapply (ko_intents _ _ Hok), Hd.
  - apply Hok.
  - by apply ready_documents.
  - intros d' k r Hl Hr. destruct (kyc_later_kept d d' Hl k r Hr) as (r' & Hk & He & Hm). exists r'.
    split_and!; try done. intros Hf. by eapply final_status.
Qed.

(** ** A worked run *)

Definition kyc_clerk : actor := mk_actor "clerk-1" RoleComplianceOfficer.
Definition kyc_env (t : Z) : env := mk_env (t * 1000) (t * 1000000) 0.
(** A store that serves one scan. *)
Definition scan : bytes := utf8_bytes "abc".
Definition scan_store : object_store :=
  mk_object_store (Ok tt) (λ k _, Ok ("https://put/" +:+ k)) (λ k, Ok ("https://get/" +:+ k))
    (λ _, Ok (mk_object_response true (Some "application/pdf; charset=binary") scan)).
Definition scan_upload : upload_input :=
  mk_upload_input 1 DocIdentityDocument "my id (1).pdf" "application/pdf" 3
    "ba7816bf8f01cfea414140de5dae2223b00361a396177a9cb410ff61f20015ad".

Definition kyc0 : db := empty_db <| customers := {[1%positive := mk_customer "Acme" "RC-1" CaseOpen 0 None None None None]} |>.
Definition kyc1 := (createPostgresKycDocumentUploadIntent scan_store "1a2b3c4d" (kyc_env 1) kyc_clerk 2 scan_upload kyc0).2.
Definition kyc2 := (finalizePostgresKycDocumentUpload scan_store (kyc_env 2) kyc_clerk 3 2 kyc1).2.
Definition kyc3 := (updatePostgresKycDocumentReview (kyc_env 3) kyc_clerk 3 KycUnderReview "looking" kyc2).2.
Definition kyc4 := (updatePostgresKycDocumentReview (kyc_env 4) kyc_clerk 3 KycRejected "unreadable" kyc3).2.

Lemma kyc4_run : kyc_run (served scan_store kyc1 2) kyc4.
Proof.
  pose proof (kr_start kyc0 eq_refl) as R0.
  pose proof (kr_step _ _ _ _ R0 (ks_intent scan_store "1a2b3c4d" (kyc_env 1) kyc_clerk 2 scan_upload kyc0)) as R1.
  pose proof (kr_step _ _ _ _ R1 (ks_finalize scan_store (kyc_env 2) kyc_clerk 3 2 kyc1)) as R2.
  pose proof (kr_step _ _ _ _ R2 (ks_review (kyc_env 3) kyc_clerk 3 KycUnderReview "looking" kyc2)) as R3.
  pose proof (kr_step _ _ _ _ R3 (ks_review (kyc_env 4) kyc_clerk 3 KycRejected "unreadable" kyc3)) as R4.
  rewrite !app_nil_r in R4. exact R4.
Qed.

(** Witness of [kyc_documents_verified]: the rejected scan stays rejected. *)
Lemma kyc_documents_verified_witness :
  (λ r, (kd_storage_key r, kd_review_status r)) <$> kyc_documents kyc4 !! 3%positive =
    Some ("kyc-document-intake/00000000-0000-0000-0000-000000000001/my_id__1__1a2b3c4d.pdf", KycRejected) ∧
  ∀ d', kyc_later kyc4 d' → ∃ r', kyc_documents d' !! 3%positive = Some r' ∧ kd_review_status r' = KycRejected.
Proof.
  split; [vm_compute; reflexivity|]. intros d' Hl.
  pose proof (kyc_documents_verified _ _ kyc4_run) as (_ & _ & _ & H).
  destruct (kyc_documents kyc4 !! 3%positive) as [r|] eqn:Hr; [|vm_compute in Hr; discriminate].
  destruct (H d' 3%positive r Hl Hr) as (r' & Hk & _ & _ & Hf). exists r'. split; [exact Hk|].
  assert (kd_review_status r = KycRejected) as E by (vm_compute in Hr; injection Hr as <-; reflexivity).
  rewrite E in Hf. apply Hf. left.
Defined.
