(* ===== verification/Verification.v ===== *)
(** * Consent, document analysis and reviewer decisions

    The handlers of src/apps/control-plane/server/postgres.ts (lines 757 to 907)
    that capture consents, queue analysis jobs and record evidence and
    decisions, modelProvenance.ts, which obtains the model from the
    document-intelligence service, and the consents read of
    analysisSubmission.ts. [JSON.parse], [String(v)] and the process that runs
    the selector are arguments. *)

From S2P Require Import Prelude Js Numeric Rows Schema KycDocuments.

Local Open Scope string_scope.
Local Open Scope Z_scope.

(** ** Model provenance *)

Record SelectedModelProvenance : Type := mk_provenance {
  selectedModelTag : string;
  selectedModelDigest : string;
  selectedModelRole : string
}.

Definition ModelProvenanceUnavailableError (reason : string) : error :=
  JsError ("selector-derived model provenance is unavailable: " +:+ reason).

Inductive modality : Type := ModalityImage | ModalityText.
Definition modalityForMimeType (mimeType : string) : modality :=
  if startsWith mimeType "image/" then ModalityImage else ModalityText.

Definition EXPECTED_ROLE_FOR_TAG : list (string * string) :=
  [("qwen3-vl:8b", "visual_primary"); ("deepseek-r1:8b", "text_fallback")].

(** How the selector process ended. *)
Inductive selector_run : Type :=
  | Exited (stdout : string)
  | ProcessFailed (message : string) (stderr : option string).

Section provenance.
Context (parse_json : string → res json) (string_of : json → string).

(** A field of a parsed object; anything else has none. *)
Definition field_of (j : json) (key : string) : option json :=
  match j with JObj kvs => record_get (rev kvs) key | _ => None end.

Definition parseResolverOutput (stdout : string) : res SelectedModelProvenance :=
  let unavailable reason := Throw (ModelProvenanceUnavailableError reason) in
  match parse_json stdout with
  | Throw _ => unavailable "resolver output was not valid JSON"
  | Ok ((JObj _ | JArr _) as parsed) =>
      match field_of parsed "selectedModelTag", field_of parsed "selectedModelDigest", field_of parsed "selectedModelRole" with
      | Some (JStr tag), digest, role =>
          if negb (includes ["qwen3-vl:8b"; "deepseek-r1:8b"] tag) then unavailable "resolver returned an unrecognised model tag"
          else match digest with
          | Some (JStr digest) =>
              if negb (is_sha256_hex digest) then unavailable "resolver returned a malformed model digest"
              else match role with
              | Some (JStr role) =>
                  if negb (includes ["visual_primary"; "text_fallback"] role) then unavailable "resolver returned an unrecognised model role"
                  else if negb (bool_decide (record_get EXPECTED_ROLE_FOR_TAG tag = Some role))
                  then unavailable "resolver returned a tag and role that do not correspond"
                  else Ok (mk_provenance tag digest role)
              | _ => unavailable "resolver returned an unrecognised model role"
              end
          | _ => unavailable "resolver returned a malformed model digest"
          end
      | _, _, _ => unavailable "resolver returned an unrecognised model tag"
      end
  | Ok _ => unavailable "resolver output was not an object"
  end.

(** The reason a failed process gives: the [error] of its standard error, that
    text itself when it does not parse (or parses to null), else the message. *)
Definition failure_reason (message stderr : string) : string :=
  match parse_json stderr with
  | Throw _ | Ok JNull => if truthy (trim stderr) then trim stderr else message
  | Ok parsed => match field_of parsed "error" with
      | Some v => if json_truthy v then string_of v else message
      | None => message
      end
  end.

Definition resolveSelectedModel (servicePath : option string) (run : modality → selector_run) (mimeType : string) :
    res SelectedModelProvenance :=
  if negb (truthy_opt servicePath) then Throw (ModelProvenanceUnavailableError "DOCUMENT_INTELLIGENCE_SRC_PATH is not configured")
  else match run (modalityForMimeType mimeType) with
  | Exited stdout => parseResolverOutput stdout
  | ProcessFailed message stderr => Throw (ModelProvenanceUnavailableError (failure_reason message (default "" stderr)))
  end.
End provenance.

(** ** The tables *)

Definition rules_consents : table_rules verification_consent := {|
  checks r := [(match vc_revoked_at r with Some t => vc_granted_at r <=? t | None => true end, CheckViolation "verification_consents_check");
    (match vc_expires_at r with Some t => vc_granted_at r <=? t | None => true end, CheckViolation "verification_consents_check1")];
  uniques _ _ := [];
  references _ _ := [] |}.

(** The constraint of 0010: no selection, or a whole one. *)
Definition model_selection_ok (r : analysis_job) : bool :=
  is_none (daj_selected_model_tag r) && is_none (daj_selected_model_digest r) && is_none (daj_selected_model_role r) ||
  is_some (daj_selected_model_tag r) && match daj_selected_model_digest r with Some s => is_sha256_hex s | None => false end &&
  match daj_selected_model_role r with Some s => in_list ["visual_primary"; "text_fallback"] s | None => false end.
Definition rules_analysis_jobs : table_rules analysis_job := {|
  checks r := [(is_sha256_hex (daj_source_sha256 r), CheckViolation "document_analysis_jobs_source_sha256_check");
    (match daj_completed_at r with Some t => daj_submitted_at r <=? t | None => true end, CheckViolation "document_analysis_jobs_check");
    (model_selection_ok r, CheckViolation "document_analysis_jobs_model_selection_check")];
  uniques _ _ := [];
  references d r := [fk verification_consents "document_analysis_jobs_consent_id_fkey" d (daj_consent_id r);
    fk_opt kyc_documents "document_analysis_jobs_kyc_document_id_fkey" d (daj_kyc_document_id r)] |}.
Definition rules_analysis_evidence : table_rules analysis_evidence := {|
  checks r := [(in_list ["review_required"; "insufficient_evidence"; "unavailable"] (dae_disposition r),
      CheckViolation "document_analysis_evidence_disposition_check");
    (match dae_evidence_sha256 r with Some s => is_sha256_hex s | None => true end,
      CheckViolation "document_analysis_evidence_evidence_sha256_check")];
  uniques _ _ := [];
  references d r := [fk document_analysis_jobs "document_analysis_evidence_analysis_job_id_fkey" d (dae_analysis_job_id r)] |}.
Definition rules_reviewer_decisions : table_rules reviewer_decision := {|
  checks _ := [];
  uniques t r := [unique (λ x, bool_decide (vrd_analysis_job_id x = vrd_analysis_job_id r))
    "verification_reviewer_decisions_analysis_job_id_key" t];
  references d r := [fk document_analysis_jobs "verification_reviewer_decisions_analysis_job_id_fkey" d (vrd_analysis_job_id r)] |}.

(** ** Consents *)

Record consent_input : Type := mk_consent_input {
  csi_scope : consent_scope;
  csi_subjectReference : string;
  csi_consentVersion : string;
  csi_purpose : string;
  csi_grantedAt : Z;
  csi_expiresAt : option Z
}.

Definition createPostgresVerificationConsent (E : env) (a : actor) (new_id : uuid) (input : consent_input) :
    Act db (uuid * consent_scope * string) :=
  transaction (
    _ ← insert_row verification_consents "verification_consents" rules_consents new_id
      (mk_verification_consent (csi_scope input) (csi_subjectReference input) (csi_consentVersion input) (csi_purpose input)
        (pg_of_js (csi_grantedAt input)) None (pg_of_js <$> csi_expiresAt input) (a_openId a) (db_now E));
    _ ← insert_activity E a "verification_consent.captured" "verification_consent" (Some new_id)
      (JObj [("scope", JStr (pg_text (csi_scope input))); ("subjectReference", JStr (csi_subjectReference input))]);
    mret (new_id, csi_scope input, csi_subjectReference input)).

(** [WHERE revoked_at IS NULL AND (expires_at IS NULL OR expires_at > now())]. *)
Definition listPostgresActiveVerificationConsents (E : env) (d : db) : list (uuid * verification_consent) :=
  order_by_desc (λ x, vc_granted_at x.2)
    (select (λ _ r, is_none (vc_revoked_at r) && match vc_expires_at r with Some t => db_now E <? t | None => true end)
      (verification_consents d)).

(** ** Jobs *)

Record job_input : Type := mk_job_input {
  ji_consentId : uuid;
  ji_kycDocumentId : option uuid;
  ji_caseKind : consent_scope;
  ji_documentClass : string;
  ji_sourceSha256 : string;
  ji_sourceUri : string;
  ji_mimeType : string;
  ji_selectedModelTag : option string;
  ji_selectedModelDigest : option string;
  ji_selectedModelRole : option string
}.

(** The members of [Object.prototype], which an object literal answers too. *)
Definition prototype_members : list string :=
  ["constructor"; "__defineGetter__"; "__defineSetter__"; "hasOwnProperty"; "__lookupGetter__"; "__lookupSetter__";
   "isPrototypeOf"; "propertyIsEnumerable"; "toString"; "valueOf"; "__proto__"; "toLocaleString"].

(** The role the tag implies, or why there is none. *)
Definition check_selection (tag role : string) : Tx db unit :=
  let mismatch := JsError "selected model tag and role do not correspond" in
  match record_get EXPECTED_ROLE_FOR_TAG tag with
  | Some expectedRole => throw_if (negb (bool_decide (expectedRole = role))) mismatch
  | None => throw (if includes prototype_members tag then mismatch else JsError "selected model tag is not an allowlisted analysis model")
  end.

(** The consent covers the analysis now. *)
Definition consent_active (now : Z) (kind : consent_scope) (r : verification_consent) : bool :=
  bool_decide (vc_scope r = kind) && is_none (vc_revoked_at r) &&
  match vc_expires_at r with Some t => negb (js_of_pg t <=? now) | None => true end.

Definition job_row (E : env) (a : actor) (input : job_input) : analysis_job :=
  mk_analysis_job (ji_consentId input) (ji_kycDocumentId input) (ji_caseKind input) (ji_documentClass input)
    (ji_sourceSha256 input) (ji_sourceUri input) (ji_mimeType input) JobQueued (ji_selectedModelTag input)
    (ji_selectedModelDigest input) (ji_selectedModelRole input) (a_openId a) (db_now E) None.

Definition createPostgresDocumentAnalysisJob (E : env) (a : actor) (new_id : uuid) (input : job_input) :
    Act db (uuid * analysis_job_state) :=
  transaction (
    consent ← select_by_id verification_consents (ji_consentId input);
    _ ← require (r ← consent; if consent_active (app_now E) (ji_caseKind input) r then Some r else None)
      (JsError "active consent matching the analysis scope is required");
    let hasCompleteModelSelection :=
      truthy_opt (ji_selectedModelTag input) && truthy_opt (ji_selectedModelDigest input) && truthy_opt (ji_selectedModelRole input) in
    _ ← throw_if (negb (Bool.eqb hasCompleteModelSelection
        (truthy_opt (ji_selectedModelTag input) || truthy_opt (ji_selectedModelDigest input) || truthy_opt (ji_selectedModelRole input))))
      (JsError "selected model tag, digest, and role must be supplied together");
    _ ← (if hasCompleteModelSelection
         then check_selection (default "" (ji_selectedModelTag input)) (default "" (ji_selectedModelRole input)) else mret tt);
    _ ← insert_row document_analysis_jobs "document_analysis_jobs" rules_analysis_jobs new_id (job_row E a input);
    _ ← insert_activity E a "document_analysis_job.created" "document_analysis_job" (Some new_id)
      (JObj [("caseKind", JStr (pg_text (ji_caseKind input))); ("documentClass", JStr (ji_documentClass input));
             ("sourceSha256", JStr (ji_sourceSha256 input)); ("state", JStr (pg_text JobQueued));
             ("selectedModelTag", JOpt JStr (ji_selectedModelTag input));
             ("selectedModelDigest", JOpt JStr (ji_selectedModelDigest input));
             ("selectedModelRole", JOpt JStr (ji_selectedModelRole input))]);
    mret (new_id, JobQueued)).

(** The router's procedure: the provenance of the selector overrides the input. *)
Definition with_provenance (input : job_input) (p : SelectedModelProvenance) : job_input :=
  mk_job_input (ji_consentId input) (ji_kycDocumentId input) (ji_caseKind input) (ji_documentClass input) (ji_sourceSha256 input)
    (ji_sourceUri input) (ji_mimeType input) (Some (selectedModelTag p)) (Some (selectedModelDigest p)) (Some (selectedModelRole p)).
Definition createDocumentAnalysisJob (parse_json : string → res json) (string_of : json → string) (servicePath : option string)
    (run : modality → selector_run) (E : env) (a : actor) (new_id : uuid) (input : job_input) : Act db (uuid * analysis_job_state) :=
  provenance ← act_lift (resolveSelectedModel parse_json string_of servicePath run (ji_mimeType input));
  createPostgresDocumentAnalysisJob E a new_id (with_provenance input provenance).

(** ** Evidence and decisions *)

Record evidence_input : Type := mk_evidence_input {
  evi_analysisJobId : uuid;
  evi_kind : analysis_evidence_kind;
  evi_disposition : string;
  evi_engineName : string;
  evi_engineVersion : string;
  evi_modelTag : option string;
  evi_modelDigest : option string;
  evi_promptPolicyVersion : option string;
  evi_evidenceSha256 : option string;
  evi_signals : list json;
  evi_limitations : list string
}.

Definition evidence_state (disposition : string) : analysis_job_state :=
  if bool_decide (disposition = "unavailable") then JobUnavailable else JobReviewRequired.
Definition analysed (E : env) (disposition : string) (r : analysis_job) : analysis_job :=
  r <| daj_state := evidence_state disposition |> <| daj_completed_at := Some (db_now E) |>.

Definition evidence_row (E : env) (input : evidence_input) : analysis_evidence :=
  mk_analysis_evidence (evi_analysisJobId input) (evi_kind input) (evi_disposition input) (evi_engineName input)
    (evi_engineVersion input) (evi_modelTag input) (evi_modelDigest input) (evi_promptPolicyVersion input)
    (evi_evidenceSha256 input) (JArr (evi_signals input)) (JArr (JStr <$> evi_limitations input)) (db_now E).

Definition persistPostgresDocumentAnalysisEvidence (E : env) (a : actor) (new_id : uuid) (input : evidence_input) : Act db uuid :=
  transaction (
    _ ← insert_row document_analysis_evidence "document_analysis_evidence" rules_analysis_evidence new_id
      (evidence_row E input);
    _ ← update_checked document_analysis_jobs rules_analysis_jobs (evi_analysisJobId input) (analysed E (evi_disposition input));
    _ ← insert_activity E a "document_analysis_evidence.persisted" "document_analysis_evidence" (Some new_id)
      (JObj [("analysisJobId", JUuid (evi_analysisJobId input)); ("kind", JStr (pg_text (evi_kind input)));
             ("disposition", JStr (evi_disposition input)); ("engineName", JStr (evi_engineName input));
             ("modelTag", JOpt JStr (evi_modelTag input)); ("modelDigest", JOpt JStr (evi_modelDigest input))]);
    mret new_id).

Definition createPostgresReviewerDecision (E : env) (a : actor) (new_id job : uuid) (disposition : reviewer_disposition)
    (rationale : string) : Act db uuid :=
  transaction (
    _ ← insert_row verification_reviewer_decisions "verification_reviewer_decisions" rules_reviewer_decisions new_id
      (mk_reviewer_decision job disposition rationale (a_openId a) (db_now E));
    _ ← insert_activity E a "verification_reviewer_decision.created" "verification_reviewer_decision" (Some new_id)
      (JObj [("analysisJobId", JUuid job); ("disposition", JStr (pg_text disposition))]);
    mret new_id).

(** ** Reads *)

Definition listPostgresDocumentAnalysisJobs (d : db) : list (uuid * analysis_job) :=
  order_by_desc (λ x, daj_submitted_at x.2) (map_to_list (document_analysis_jobs d)).
(** [JOIN document_analysis_jobs]: the kind and class of the job. *)
Definition listPostgresDocumentAnalysisEvidence (d : db) : list (uuid * analysis_evidence * (consent_scope * string)) :=
  omap (λ x, j ← document_analysis_jobs d !! dae_analysis_job_id x.2; Some (x, (daj_case_kind j, daj_document_class j)))
    (order_by_desc (λ x, dae_created_at x.2) (map_to_list (document_analysis_evidence d))).
Definition listPostgresReviewerDecisions (d : db) : list (uuid * reviewer_decision * (consent_scope * string)) :=
  omap (λ x, j ← document_analysis_jobs d !! vrd_analysis_job_id x.2; Some (x, (daj_case_kind j, daj_document_class j)))
    (order_by_desc (λ x, vrd_decided_at x.2) (map_to_list (verification_reviewer_decisions d))).
