(* ===== verification/VerificationProps.v ===== *)
(** * Document analysis: consent, provenance, and decisions by people *)

From S2P Require Import Prelude Js Numeric Rows Schema KycDocuments KycProps Verification.

Local Open Scope string_scope.
Local Open Scope Z_scope.

(** ** Provenance *)

(** No model, or an allowlisted one with the role its tag implies and a digest. *)
Definition selection_ok (tag digest role : option string) : Prop :=
  (tag = None ∧ digest = None ∧ role = None) ∨
  ∃ t dg r, tag = Some t ∧ digest = Some dg ∧ role = Some r ∧ (t, r) ∈ EXPECTED_ROLE_FOR_TAG ∧ is_sha256_hex dg = true.
Definition job_selection (r : analysis_job) : Prop :=
  selection_ok (daj_selected_model_tag r) (daj_selected_model_digest r) (daj_selected_model_role r).

Lemma expected_role t r : record_get EXPECTED_ROLE_FOR_TAG t = Some r ↔ (t, r) ∈ EXPECTED_ROLE_FOR_TAG.
Proof.
  unfold EXPECTED_ROLE_FOR_TAG. rewrite !elem_of_cons, elem_of_nil. simpl. repeat case_bool_decide; naive_solver.
Qed.

Lemma resolved_selection parse string_of path run mime p :
  resolveSelectedModel parse string_of path run mime = Ok p →
  selection_ok (Some (selectedModelTag p)) (Some (selectedModelDigest p)) (Some (selectedModelRole p)).
Proof.
  unfold resolveSelectedModel. destruct (negb _); [done|]. destruct (run _) as [out|]; [|done].
  unfold parseResolverOutput. destruct (parse out) as [j|]; [|done]. destruct j; try done; cbn [field_of];
    repeat (case_match; simplify_eq; try done).
  intros [= <-]. right. simpl. eexists _, _, _. unbool. split_and!; try done. by apply expected_role.
Qed.

(** ** What the handlers change *)

Definition verification_view (d : db) :=
  (verification_consents d, document_analysis_jobs d, document_analysis_evidence d, verification_reviewer_decisions d).

Definition consent_holds (E : env) (input : job_input) (d : db) : Prop :=
  ∃ c, verification_consents d !! ji_consentId input = Some c ∧ consent_active (app_now E) (ji_caseKind input) c = true.

Definition input_selection (i : job_input) : Prop :=
  selection_ok (ji_selectedModelTag i) (ji_selectedModelDigest i) (ji_selectedModelRole i).

Lemma hex_truthy s : is_sha256_hex s = true → truthy s = true.
Proof. by destruct s. Qed.
Lemma role_truthy s : in_list ["visual_primary"; "text_fallback"] s = true → truthy s = true.
Proof. by destruct s. Qed.
Lemma check_selection_ok t r d u d' : check_selection t r d = Ok (u, d') ↔ (t, r) ∈ EXPECTED_ROLE_FOR_TAG ∧ d' = d.
Proof.
  unfold check_selection. rewrite <- expected_role. destruct (record_get _ t) as [x|]; [|split; [done|naive_solver]].
  rewrite throw_if_ok, negb_false_iff, bool_decide_eq_true. naive_solver.
Qed.

(** A whole selection, as the handler and the table see it. *)
Definition complete (i : job_input) : bool :=
  truthy_opt (ji_selectedModelTag i) && truthy_opt (ji_selectedModelDigest i) && truthy_opt (ji_selectedModelRole i).
Lemma selection_accepted E a i d u d' :
  model_selection_ok (job_row E a i) = true →
  Bool.eqb (complete i) (truthy_opt (ji_selectedModelTag i) || truthy_opt (ji_selectedModelDigest i) || truthy_opt (ji_selectedModelRole i)) = true →
  (if complete i then check_selection (default "" (ji_selectedModelTag i)) (default "" (ji_selectedModelRole i)) else mret tt) d = Ok (u, d') →
  input_selection i ∧ d' = d.
Proof.
  unfold model_selection_ok, complete. simpl. intros [Hm|Hm]%orb_true_iff He Hc.
  - unfold is_none in Hm. unbool. repeat match goal with H : is_some _ = false |- _ => apply is_some_false in H end.
    rewrite H, H0, H1 in Hc. apply mret_ok in Hc as [_ ->]. split; [by left|done].
  - destruct (ji_selectedModelTag i) as [t|] eqn:Et; [|done]. destruct (ji_selectedModelDigest i) as [dg|] eqn:Edg; [|by rewrite andb_false_r in Hm].
    destruct (ji_selectedModelRole i) as [r|] eqn:Er; [|by rewrite andb_false_r in Hm]. simpl in Hm. unbool.
    simpl in *. rewrite (hex_truthy dg), (role_truthy r), ?orb_true_r, ?andb_true_r in * by done.
    apply Bool.eqb_prop in He. rewrite He in Hc. apply check_selection_ok in Hc as [Hin ->]. split; [right|done].
    rewrite Et, Edg, Er. by exists t, dg, r.
Qed.

Lemma job_effect E a id i d r d' : createPostgresDocumentAnalysisJob E a id i d = (r, d') →
  (d' = d ∧ ∃ e, r = Throw e) ∨
  (r = Ok (id, JobQueued) ∧ consent_holds E i d ∧ input_selection i ∧ is_sha256_hex (ji_sourceSha256 i) = true ∧
   (∀ k, ji_kycDocumentId i = Some k → is_Some (kyc_documents d !! k)) ∧ document_analysis_jobs d !! id = None ∧
   verification_view d' = (verification_consents d, <[id := job_row E a i]> (document_analysis_jobs d),
     document_analysis_evidence d, verification_reviewer_decisions d) ∧ kyc_documents d' = kyc_documents d ∧ log_extends d d').
Proof.
  destruct r as [r|e]; intros H; [right|left; apply transaction_throw in H as [_ ->]; by eauto].
  apply transaction_ok in H. apply tx_bind_ok in H as (c & d1 & [<- ->]%gets_ok & H).
  apply tx_bind_ok in H as (c & d1 & [Hc ->]%require_ok & H). cbv zeta in H.
  apply tx_bind_ok in H as (u & d1 & [He%negb_false_iff ->]%throw_if_ok & H).
  apply tx_bind_ok in H as (u1 & d1 & Hsel & H). apply tx_bind_ok in H as (u2 & d2 & Hins & H).
  apply insert_row_ok in Hins as (Hck & Hn & _ & Hfk & ->). apply tx_bind_ok in H as (u3 & d3 & ->%modify_ok & [-> ->]%mret_ok).
  cbn [checks rules_analysis_jobs] in Hck. rewrite !Forall_cons in Hck.
  destruct Hck as (Hsha & _ & Hm & _). rules_inv. destruct (selection_accepted E a i d u1 d1 Hm He Hsel) as [Hs ->].
  destruct (verification_consents d !! ji_consentId i) as [c0|] eqn:Hcc; [|done]. simpl in Hc.
  destruct (consent_active _ _ c0) eqn:Hact; simplify_eq. split_and!; try done; [by exists c| |unfold log_extends; simpl; by apply prefix_app_r].
  intros k Hk. match goal with H : (fk_opt _ _ _ _).1 = true |- _ => rewrite Hk in H; by apply bool_decide_eq_true in H end.
Qed.

(** The whole guard of queuing a job. *)
Record queueable (E : env) (i : job_input) (id : uuid) (d : db) : Prop := {
  qu_consent : consent_holds E i d;
  qu_selection : input_selection i;
  qu_source : is_sha256_hex (ji_sourceSha256 i) = true;
  qu_document : ∀ k, ji_kycDocumentId i = Some k → is_Some (kyc_documents d !! k);
  qu_id : document_analysis_jobs d !! id = None
}.

Lemma selection_passes E a i d : input_selection i →
  model_selection_ok (job_row E a i) = true ∧
  Bool.eqb (complete i) (truthy_opt (ji_selectedModelTag i) || truthy_opt (ji_selectedModelDigest i) || truthy_opt (ji_selectedModelRole i)) = true ∧
  (if complete i then check_selection (default "" (ji_selectedModelTag i)) (default "" (ji_selectedModelRole i)) else mret tt) d = Ok (tt, d).
Proof.
  unfold model_selection_ok, complete. simpl. intros [(-> & -> & ->)|(t & dg & r & -> & -> & -> & Hin & Hh)]; [done|].
  assert (truthy t = true ∧ in_list ["visual_primary"; "text_fallback"] r = true) as [Ht Hr]
    by (by apply elem_of_cons in Hin as [[= -> ->]|[[= -> ->]|[]%elem_of_nil]%elem_of_cons]).
  simpl. rewrite Hh, Hr, Ht, (hex_truthy dg), (role_truthy r) by done. split_and!; [done..|]. by apply check_selection_ok.
Qed.

Lemma job_run E a i id d : queueable E i id d → ∃ d', createPostgresDocumentAnalysisJob E a id i d = (Ok (id, JobQueued), d').
Proof.
  intros [(c & Hc & Ha) Hs Hh Hk Hn]. destruct (selection_passes E a i d Hs) as (S1 & S2 & S3).
  eexists. apply transaction_ok. eapply tx_bind_run; [apply gets_run|]. cbv beta. rewrite Hc.
  eapply tx_bind_run; [apply require_run; simpl; by rewrite Ha|]. cbv zeta.
  eapply tx_bind_run; [by apply throw_if_run, negb_false_iff|]. eapply tx_bind_run; [exact S3|].
  eapply (tx_bind_run _ _ _ tt); [apply insert_row_ok; split_and!; [| exact Hn|by constructor| |reflexivity]|].
  - cbn [checks rules_analysis_jobs]. rewrite !Forall_cons. split_and!; try done.
  - cbn [references rules_analysis_jobs]. rewrite !Forall_cons. split_and!; [| |by apply Forall_nil].
    + apply bool_decide_eq_true. by exists c.
    + simpl. destruct (ji_kycDocumentId i) as [k|] eqn:E'; [|done]. apply bool_decide_eq_true. by apply Hk.
  - eapply tx_bind_run; [apply modify_run|]. done.
Qed.

Lemma evidence_effect E a id i d r d' : persistPostgresDocumentAnalysisEvidence E a id i d = (r, d') →
  (d' = d ∧ ∃ e, r = Throw e) ∨
  ∃ j, r = Ok id ∧ document_analysis_jobs d !! evi_analysisJobId i = Some j ∧ document_analysis_evidence d !! id = None ∧
    evi_disposition i ∈ ["review_required"; "insufficient_evidence"; "unavailable"] ∧
    verification_view d' = (verification_consents d, <[evi_analysisJobId i := analysed E (evi_disposition i) j]> (document_analysis_jobs d),
      <[id := evidence_row E i]> (document_analysis_evidence d), verification_reviewer_decisions d) ∧
    kyc_documents d' = kyc_documents d ∧ log_extends d d'.
Proof.
  destruct r as [r|e]; intros H; [right|left; apply transaction_throw in H as [_ ->]; by eauto].
  apply transaction_ok in H. apply tx_bind_ok in H as (u & d1 & Hins & H). apply insert_row_ok in Hins as (Hck & Hn & _ & Hfk & ->).
  apply tx_bind_ok in H as (u2 & d2 & Hup & H). apply tx_bind_ok in H as (u3 & d3 & ->%modify_ok & [-> ->]%mret_ok).
  cbn [checks rules_analysis_evidence references] in Hck, Hfk. rewrite !Forall_cons in Hck, Hfk.
  destruct Hck as (Hd & _). destruct Hfk as ([j Hj]%bool_decide_eq_true & _). simpl in Hj.
  apply (update_checked_ok document_analysis_jobs _ _ _ j) in Hup as (_ & _ & ->); [|exact Hj].
  apply bool_decide_eq_true in Hd. exists j. split_and!; try done. unfold log_extends. simpl. by apply prefix_app_r.
Qed.

Lemma decision_effect E a id job disposition rationale d r d' : createPostgresReviewerDecision E a id job disposition rationale d = (r, d') →
  (d' = d ∧ ∃ e, r = Throw e) ∨
  (r = Ok id ∧ is_Some (document_analysis_jobs d !! job) ∧ verification_reviewer_decisions d !! id = None ∧
   (∀ k x, verification_reviewer_decisions d !! k = Some x → vrd_analysis_job_id x ≠ job) ∧
   verification_view d' = (verification_consents d, document_analysis_jobs d, document_analysis_evidence d,
     <[id := mk_reviewer_decision job disposition rationale (a_openId a) (db_now E)]> (verification_reviewer_decisions d)) ∧
   kyc_documents d' = kyc_documents d ∧ log_extends d d').
Proof.
  destruct r as [r|e]; intros H; [right|left; apply transaction_throw in H as [_ ->]; by eauto].
  apply transaction_ok in H. db_inv. split_and!; try done; [|unfold log_extends; simpl; by apply prefix_app_r].
  intros k y Hk He. eapply (proj1 (any_false _ _)) in Hk; [|done]. cbv beta in Hk. by apply bool_decide_eq_false in Hk.
Qed.

Lemma consent_effect E a id i d r d' : createPostgresVerificationConsent E a id i d = (r, d') →
  (d' = d ∧ ∃ e, r = Throw e) ∨
  ∃ c, r = Ok (id, csi_scope i, csi_subjectReference i) ∧ verification_consents d !! id = None ∧ vc_scope c = csi_scope i ∧
    verification_view d' = (<[id := c]> (verification_consents d), document_analysis_jobs d, document_analysis_evidence d,
      verification_reviewer_decisions d) ∧ kyc_documents d' = kyc_documents d ∧ log_extends d d'.
Proof.
  destruct r as [r|e]; intros H; [right|left; apply transaction_throw in H as [_ ->]; by eauto].
  apply transaction_ok in H. db_inv. eexists. split_and!; try done; [|unfold log_extends; simpl; by apply prefix_app_r]. done.
Qed.

(** ** Runs *)

(** A step of the verification component; elsewhere consents are only revoked or
    added, and documents only added. *)
Definition consents_kept (d d' : db) : Prop :=
  ∀ k c, verification_consents d !! k = Some c → ∃ c', verification_consents d' !! k = Some c' ∧ vc_scope c' = vc_scope c.
Inductive verification_step : relation db :=
  | vs_consent E a id i d : verification_step d (createPostgresVerificationConsent E a id i d).2
  | vs_job E a id i d : verification_step d (createPostgresDocumentAnalysisJob E a id i d).2
  | vs_router parse string_of path run E a id i d :
      verification_step d (createDocumentAnalysisJob parse string_of path run E a id i d).2
  | vs_evidence E a id i d : verification_step d (persistPostgresDocumentAnalysisEvidence E a id i d).2
  | vs_decision E a id job disposition rationale d : verification_step d (createPostgresReviewerDecision E a id job disposition rationale d).2
  | vs_elsewhere d d' : consents_kept d d' → document_analysis_jobs d' = document_analysis_jobs d →
      document_analysis_evidence d' = document_analysis_evidence d →
      verification_reviewer_decisions d' = verification_reviewer_decisions d →
      dom (kyc_documents d) ⊆ dom (kyc_documents d') → verification_step d d'.

(** Evidence about a job that puts it in a state. *)
Definition evidenced (d : db) (k : uuid) (s : analysis_job_state) : Prop :=
  ∃ e x, document_analysis_evidence d !! e = Some x ∧ dae_analysis_job_id x = k ∧ evidence_state (dae_disposition x) = s.

Record job_ok (d : db) (k : uuid) (r : analysis_job) : Prop := {
  jo_consent : ∃ c, verification_consents d !! daj_consent_id r = Some c ∧ vc_scope c = daj_case_kind r;
  jo_selection : job_selection r;
  jo_source : is_sha256_hex (daj_source_sha256 r) = true;
  jo_document : ∀ j, daj_kyc_document_id r = Some j → j ∈ dom (kyc_documents d);
  jo_state : (daj_state r = JobQueued ∧ daj_completed_at r = None ∧ ∀ s, ~ evidenced d k s) ∨
    (is_Some (daj_completed_at r) ∧ daj_state r ∈ [JobReviewRequired; JobUnavailable] ∧ evidenced d k (daj_state r))
}.

Record verification_ok (d : db) : Prop := {
  vo_jobs : ∀ k r, document_analysis_jobs d !! k = Some r → job_ok d k r;
  vo_evidence : ∀ e x, document_analysis_evidence d !! e = Some x → dae_analysis_job_id x ∈ dom (document_analysis_jobs d);
  vo_decisions : ∀ k x, verification_reviewer_decisions d !! k = Some x → vrd_analysis_job_id x ∈ dom (document_analysis_jobs d);
  vo_once : ∀ k k' x x', verification_reviewer_decisions d !! k = Some x → verification_reviewer_decisions d !! k' = Some x' →
    vrd_analysis_job_id x = vrd_analysis_job_id x' → k = k'
}.

(** Jobs, evidence and decisions on record stay; a job changes only its state. *)
Definition job_identity (r : analysis_job) : analysis_job := r <| daj_state := JobQueued |> <| daj_completed_at := None |>.
Record kept (d d' : db) : Prop := {
  kp_consents : consents_kept d d';
  kp_jobs : ∀ k r, document_analysis_jobs d !! k = Some r → ∃ r', document_analysis_jobs d' !! k = Some r' ∧
    job_identity r' = job_identity r;
  kp_evidence : document_analysis_evidence d ⊆ document_analysis_evidence d';
  kp_decisions : verification_reviewer_decisions d ⊆ verification_reviewer_decisions d'
}.

Lemma consents_same d d' : verification_consents d' = verification_consents d → consents_kept d d'.
Proof. intros E k c Hk. exists c. by rewrite E. Qed.
Lemma job_ok_mono d d' k r : consents_kept d d' → document_analysis_evidence d' = document_analysis_evidence d →
  dom (kyc_documents d) ⊆ dom (kyc_documents d') → job_ok d k r → job_ok d' k r.
Proof.
  intros Hc He Hd [(c & Hk & Hs) H2 H3 H4 H5]. split; try done.
  - destruct (Hc _ _ Hk) as (c' & Hk' & Hs'). exists c'. split; [done|congruence].
  - intros j Hj%H4. by apply Hd.
  - unfold evidenced. rewrite He. exact H5.
Qed.
Lemma kept_id d : kept d d.
Proof. split; [by apply consents_same| |done..]. intros k r Hk. exists r. done. Qed.

Lemma ok_elsewhere d d' : consents_kept d d' → document_analysis_jobs d' = document_analysis_jobs d →
  document_analysis_evidence d' = document_analysis_evidence d → verification_reviewer_decisions d' = verification_reviewer_decisions d →
  dom (kyc_documents d) ⊆ dom (kyc_documents d') → verification_ok d → verification_ok d' ∧ kept d d'.
Proof.
  intros Hc Ej Ee Er Hd [H1 H2 H3 H4]. split; [split; rewrite ?Ej, ?Ee, ?Er; try done|].
  - intros k r Hk. eapply job_ok_mono; eauto.
  - split; rewrite ?Ee, ?Er; try done. rewrite Ej. intros k r Hk. exists r. done.
Qed.

Lemma ok_job E a id i d d' : queueable E i id d →
  verification_view d' = (verification_consents d, <[id := job_row E a i]> (document_analysis_jobs d),
    document_analysis_evidence d, verification_reviewer_decisions d) → kyc_documents d' = kyc_documents d →
  verification_ok d → verification_ok d' ∧ kept d d'.
Proof.
  intros [(c & Hc & Ha) Hs Hh Hk Hn] [= Ec Ej Ee Er] Ed [H1 H2 H3 H4].
  assert (Hfresh : ∀ k r, document_analysis_jobs d !! k = Some r → id ≠ k) by (intros k r Hr ->; congruence).
  split; [split; rewrite ?Ej, ?Ee, ?Er, ?dom_insert; try done|split; rewrite ?Ee, ?Er; try done; [by apply consents_same|]].
  - intros k r [[<- <-]|[_ Hr]]%lookup_insert_Some.
    + unfold consent_active in Ha. unbool. split; try done.
      * exists c. by rewrite Ec.
      * intros j Hj. rewrite Ed. by apply elem_of_dom, Hk.
      * left. split_and!; [done..|]. intros s (e & x & Hx & Hi & _). rewrite Ee in Hx. apply H2 in Hx. rewrite Hi in Hx.
        by apply elem_of_dom in Hx as [? ?%Hfresh].
    + eapply job_ok_mono; [by apply consents_same|done| |by apply H1]. by rewrite Ed.
  - intros e x Hx. apply H2 in Hx. set_solver.
  - intros k x Hx. apply H3 in Hx. set_solver.
  - rewrite Ej. intros k r Hr. exists r. rewrite lookup_insert_ne by (by eapply Hfresh). done.
Qed.

Lemma ok_evidence E id i j d d' : document_analysis_jobs d !! evi_analysisJobId i = Some j → document_analysis_evidence d !! id = None →
  verification_view d' = (verification_consents d, <[evi_analysisJobId i := analysed E (evi_disposition i) j]> (document_analysis_jobs d),
    <[id := evidence_row E i]> (document_analysis_evidence d), verification_reviewer_decisions d) →
  kyc_documents d' = kyc_documents d → verification_ok d → verification_ok d' ∧ kept d d'.
Proof.
  intros Hj Hn [= Ec Ej Ee Er] Ed [H1 H2 H3 H4].
  assert (Hdom : dom (<[evi_analysisJobId i := analysed E (evi_disposition i) j]> (document_analysis_jobs d)) = dom (document_analysis_jobs d))
    by (apply dom_insert_lookup_L; by exists j).
  assert (Hev : ∀ k s, evidenced d k s → evidenced d' k s).
  { intros k s (e & x & Hx & Hi & Hst). exists e, x. rewrite Ee, lookup_insert_ne; [done|]. intros ->. congruence. }
  assert (Hev' : ∀ k s, evidenced d' k s → k ≠ evi_analysisJobId i → evidenced d k s).
  { intros k s (e & x & Hx & Hi & Hst) Hne. rewrite Ee in Hx. apply lookup_insert_Some in Hx as [[_ <-]|[_ Hx]]; [done|]. by exists e, x. }
  split; [split; rewrite ?Ej, ?Ee, ?Er, ?Hdom; try done|split; rewrite ?Ee, ?Er; try done; [by apply consents_same| |by apply insert_subseteq]].
  - intros k r [[<- <-]|[Hne Hr]]%lookup_insert_Some.
    + destruct (H1 _ _ Hj) as [A1 A2 A3 A4 _]. split; try done; [by rewrite Ec|intros x; rewrite Ed; by apply A4|].
      right. simpl. split; [done|]. split; [unfold evidence_state; case_bool_decide; set_solver|].
      exists id, (evidence_row E i). by rewrite Ee, lookup_insert_eq.
    + destruct (H1 _ _ Hr) as [A1 A2 A3 A4 A5]. split; try done; [by rewrite Ec|intros x; rewrite Ed; by apply A4|].
      destruct A5 as [(? & ? & A5)|(? & ? & ?)]; [left|right; split_and!; try done; by apply Hev].
      split_and!; [done..|]. intros s Hs. apply (A5 s), Hev'; [exact Hs|congruence].
  - intros e x [[_ <-]|[_ Hx]]%lookup_insert_Some; [|by eapply H2]. by apply elem_of_dom.
  - rewrite Ej. intros k r Hr. destruct (decide (evi_analysisJobId i = k)) as [<-|Hne].
    + exists (analysed E (evi_disposition i) j). rewrite lookup_insert_eq. simplify_eq. done.
    + exists r. rewrite lookup_insert_ne by done. done.
Qed.

Lemma ok_decision row id d d' : is_Some (document_analysis_jobs d !! vrd_analysis_job_id row) → verification_reviewer_decisions d !! id = None →
  (∀ k x, verification_reviewer_decisions d !! k = Some x → vrd_analysis_job_id x ≠ vrd_analysis_job_id row) →
  verification_view d' = (verification_consents d, document_analysis_jobs d, document_analysis_evidence d,
    <[id := row]> (verification_reviewer_decisions d)) →
  kyc_documents d' = kyc_documents d → verification_ok d → verification_ok d' ∧ kept d d'.
Proof.
  intros Hj Hn Hno [= Ec Ej Ee Er] Ed [H1 H2 H3 H4].
  split; [split; rewrite ?Ej, ?Ee, ?Er; try done|split; rewrite ?Ee, ?Er; try done; [by apply consents_same| |by apply insert_subseteq]].
  - intros k r Hr. eapply job_ok_mono; [by apply consents_same|done|by rewrite Ed|by apply H1].
  - intros k x [[<- <-]|[_ Hx]]%lookup_insert_Some; [by apply elem_of_dom|by eapply H3].
  - intros k k' x x'. rewrite !lookup_insert_Some. intros [[<- <-]|[_ Hx]] [[<- <-]|[_ Hx']] He; [done| | |by eapply H4].
    + by destruct (Hno _ _ Hx').
    + by destruct (Hno _ _ Hx).
  - rewrite Ej. intros k r Hr. exists r. done.
Qed.

Lemma job_step E a id i d r d' : createPostgresDocumentAnalysisJob E a id i d = (r, d') → verification_ok d → verification_ok d' ∧ kept d d'.
Proof.
  intros [[-> _]|(_ & Hc & Hs & Hh & Hk & Hn & Hv & Hd & _)]%job_effect Hok; [by split; [|apply kept_id]|]. by eapply ok_job.
Qed.

Lemma verification_step_ok d d' : verification_step d d' → verification_ok d → verification_ok d' ∧ kept d d'.
Proof.
  intros Hs Hok. pose proof (kept_id d) as Hid. destruct Hs as [E a id i d|E a id i d|parse so path run E a id i d|E a id i d|E a id job disp rat d|d d'].
  - destruct (createPostgresVerificationConsent E a id i d) as [r d'] eqn:H. simpl.
    apply consent_effect in H as [[-> _]|(c & _ & Hn & _ & [= Ec Ej Ee Er] & Hd & _)]; [done|]. apply ok_elsewhere; try done; [|by rewrite Hd].
    intros k x Hk. exists x. rewrite Ec, lookup_insert_ne; [done|]. intros ->. congruence.
  - destruct (createPostgresDocumentAnalysisJob E a id i d) as [r d'] eqn:H. by eapply job_step.
  - unfold createDocumentAnalysisJob, mbind, act_bind, act_lift. destruct (resolveSelectedModel _ _ _ _ _) as [p|e]; [|done].
    destruct (createPostgresDocumentAnalysisJob _ _ _ _ d) as [r d'] eqn:H. by eapply job_step.
  - destruct (persistPostgresDocumentAnalysisEvidence E a id i d) as [r d'] eqn:H. simpl.
    apply evidence_effect in H as [[-> _]|(j & _ & Hj & Hn & _ & Hv & Hd & _)]; [done|]. by eapply ok_evidence.
  - destruct (createPostgresReviewerDecision E a id job disp rat d) as [r d'] eqn:H. simpl.
    apply decision_effect in H as [[-> _]|(_ & Hj & Hn & Hno & Hv & Hd & _)]; [done|]. by eapply (ok_decision (mk_reviewer_decision job disp rat _ _)).
  - by apply ok_elsewhere.
Qed.

#[local] Instance kept_trans : Transitive kept.
Proof.
  intros d1 d2 d3 [A1 A2 A3 A4] [B1 B2 B3 B4]. split; [| |by etrans..].
  - intros k c Hk. destruct (A1 k c Hk) as (c2 & Hk2 & E2). destruct (B1 k c2 Hk2) as (c3 & Hk3 & E3). exists c3. split; [done|congruence].
  - intros k r Hk. destruct (A2 k r Hk) as (r2 & Hk2 & E2). destruct (B2 k r2 Hk2) as (r3 & Hk3 & E3). exists r3. split; [done|congruence].
Qed.
Lemma verification_run_ok d d' : rtc verification_step d d' → verification_ok d → verification_ok d' ∧ kept d d'.
Proof.
  induction 1 as [|d1 d2 d3 Hs _ IH]; intros Hok; [split; [done|apply kept_id]|].
  destruct (verification_step_ok _ _ Hs Hok) as [Hok2 Hk]. destruct (IH Hok2) as [Hok3 Hk3]. split; [done|by etrans].
Qed.

(** C33. Documents are analysed only under consent and by a known model, and
    analysis decides nothing. On every run: a job's consent is on record with
    the job's scope, its model is absent or allowlisted with the role its tag
    implies and a digest, its document exists; it is queued exactly while no
    evidence about it is recorded, and evidence only ever makes it
    review_required or unavailable; a job has at most one reviewer decision; and
    jobs, evidence and decisions stay on record. The router's procedure queues a
    job exactly when the selector vouches for a model and the consent is active,
    and otherwise writes nothing. *)
Theorem analysis_under_consent d0 d1 : verification_ok d0 → rtc verification_step d0 d1 →
  verification_ok d1 ∧ kept d0 d1 ∧
  ∀ parse string_of path run E a id i r d2,
    createDocumentAnalysisJob parse string_of path run E a id i d1 = (r, d2) →
    (∃ p, resolveSelectedModel parse string_of path run (ji_mimeType i) = Ok p ∧ queueable E (with_provenance i p) id d1 ∧
       r = Ok (id, JobQueued) ∧ document_analysis_jobs d2 = <[id := job_row E a (with_provenance i p)]> (document_analysis_jobs d1)) ∨
    (d2 = d1 ∧ is_ok r = false ∧
       ∀ p, resolveSelectedModel parse string_of path run (ji_mimeType i) = Ok p → ~ queueable E (with_provenance i p) id d1).
Proof.
  intros Hok0 Hrun. destruct (verification_run_ok _ _ Hrun Hok0) as [Hok1 Hk]. split_and!; [done..|].
  intros parse string_of path run E a id i r d2. unfold createDocumentAnalysisJob, mbind, act_bind, act_lift.
  destruct (resolveSelectedModel _ _ _ _ _) as [p|e]; [|intros [= <- <-]; right; split_and!; done].
  intros H. pose proof H as [[-> [e ->]]|(-> & Hc & Hs & Hh & Hd & Hn & [= _ Ej _ _] & _)]%job_effect.
  - right. split_and!; [done..|]. intros p' [= <-] Hq. destruct (job_run E a _ _ _ Hq) as [d3 H3]. congruence.
  - left. exists p. by split_and!.
Qed.

(** ** A worked run *)

Definition selector_says (tag role : string) (_ : string) : res json :=
  Ok (JObj [("selectedModelTag", JStr tag); ("selectedModelRole", JStr role);
            ("selectedModelDigest", JStr "e3b0c44298fc1c149afbf4c8996fb92427ae41e4649b934ca495991b7852b855")]).
Definition selector_up (_ : modality) : selector_run := Exited "".
Definition plain_text (_ : json) : string := "".
Definition ver0 : db := kyc4.
Definition ver1 := (createPostgresVerificationConsent (kyc_env 5) kyc_clerk 7 (mk_consent_input ScopeKyc "Acme" "v1" "onboarding" 4000 None) ver0).2.
Definition scan_job : job_input :=
  mk_job_input 7 (Some 3%positive) ScopeKyc "passport" "ba7816bf8f01cfea414140de5dae2223b00361a396177a9cb410ff61f20015ad"
    "https://storage/scan" "image/png" None None None.
Definition queue (tag role : string) (i : job_input) (d : db) :=
  createDocumentAnalysisJob (selector_says tag role) plain_text (Some "/srv/di") selector_up (kyc_env 6) kyc_clerk 8 i d.
Definition ver2 := (queue "qwen3-vl:8b" "visual_primary" scan_job ver1).2.

Lemma ver1_run : rtc verification_step ver0 ver1.
Proof. apply rtc_once, vs_consent. Qed.
Lemma ver0_ok : verification_ok ver0.
Proof. split; intros *; vm_compute; done. Qed.

(** Witness of [analysis_under_consent]: the scan is queued; once its selector
    stops answering nothing is written. *)
Lemma analysis_under_consent_witness :
  (queue "qwen3-vl:8b" "visual_primary" scan_job ver1).1 = Ok (8%positive, JobQueued) ∧
  (createDocumentAnalysisJob (selector_says "" "") plain_text None selector_up (kyc_env 6) kyc_clerk 8 scan_job ver1).2 = ver1.
Proof.
  split; [vm_compute; reflexivity|].
  pose proof (analysis_under_consent ver0 ver1 ver0_ok ver1_run) as (_ & _ & H).
  destruct (H (selector_says "" "") plain_text None selector_up (kyc_env 6) kyc_clerk 8%positive scan_job _ _ (surjective_pairing _))
    as [(p & Hp & _)|(E & _)]; [discriminate Hp|exact E].
Defined.

(** ** Departures *)

(** The digest a job names need not be that of the document it names, although
    only documents with a confirmed digest are offered for analysis. *)
Definition other_bytes : job_input :=
  mk_job_input 7 (Some 3%positive) ScopeKyc "passport" "e3b0c44298fc1c149afbf4c8996fb92427ae41e4649b934ca495991b7852b855"
    "https://elsewhere/file" "image/png" None None None.
Lemma job_source_unrelated :
  (queue "qwen3-vl:8b" "visual_primary" other_bytes ver1).1 = Ok (8%positive, JobQueued) ∧
  (λ r, verified_digests ver1 r) <$> kyc_documents ver1 !! 3%positive =
    Some ["ba7816bf8f01cfea414140de5dae2223b00361a396177a9cb410ff61f20015ad"].
Proof. split; vm_compute; reflexivity. Qed.

(** The selector's answer is not held against the kind of input: an image is
    queued for the text model. *)
Lemma image_queued_for_text_model :
  modalityForMimeType (ji_mimeType scan_job) = ModalityImage ∧
  (queue "deepseek-r1:8b" "text_fallback" scan_job ver1).1 = Ok (8%positive, JobQueued).
Proof. split; vm_compute; reflexivity. Qed.
