(* ===== verification/CustomerUseCase.v ===== *)
(** * Customer profiles and the use-case gate

    src/apps/control-plane/server/customerUseCase.ts: profiles, destination
    counterparties, Gate G1 and the composed read behind a customer's workspace,
    with listPostgresActivityEventsForObjects of postgres.ts. *)

From S2P Require Import Prelude Js Numeric Rows Schema.

Local Open Scope string_scope.
Local Open Scope Z_scope.

Definition recordActivity (E : env) (a : actor) (action : string) (objectId : uuid) (metadata : list (string * json)) : Tx db unit :=
  insert_activity E a action "customer" (Some objectId) (JObj metadata).

(** An entry that [JSON.stringify] drops when its value is undefined. *)
Definition entry {A} (key : string) (f : A → json) (o : option A) : list (string * json) :=
  match o with Some a => [(key, f a)] | None => [] end.

(** ** Profile *)

Record profile_input : Type := mk_profile_input {
  pfi_customerId : uuid;
  pfi_archetype : option customer_archetype;
  pfi_tier : option customer_tier;
  pfi_country : option corridor_code;
  pfi_useCaseNarrative : option string
}.

(** [COALESCE($n, column)]. *)
Definition coalesced {A} (o : option A) (column : option A) : option A := match o with Some a => Some a | None => column end.
Definition profiled (input : profile_input) (r : customer) : customer :=
  r <| cust_archetype ::= coalesced (pfi_archetype input) |> <| cust_tier ::= coalesced (pfi_tier input) |>
    <| cust_country ::= coalesced (pfi_country input) |> <| cust_use_case_narrative ::= coalesced (pfi_useCaseNarrative input) |>.

Definition updatePostgresCustomerProfile (E : env) (a : actor) (input : profile_input) : Act db uuid :=
  transaction (
    current ← select_by_id customers (pfi_customerId input);
    _ ← require current (JsError "customer record was not found");
    _ ← update_row customers (pfi_customerId input) (profiled input);
    _ ← recordActivity E a "customer.profile_updated" (pfi_customerId input)
      (entry "archetype" (JStr ∘ pg_text) (pfi_archetype input) ++ entry "tier" (JStr ∘ pg_text) (pfi_tier input) ++
       entry "country" (JStr ∘ pg_text) (pfi_country input) ++
       entry "useCaseNarrativeLength" (λ s, JNum (js_length (trim s))) (pfi_useCaseNarrative input))%list;
    mret (pfi_customerId input)).

(** ** Destinations *)

Definition rules_destinations : table_rules destination_counterparty := {|
  checks _ := []; uniques _ _ := [];
  references d r := [fk customers "customer_destination_counterparties_customer_id_fkey" d (cdc_customer_id r)] |}.
Definition rules_use_case_decisions : table_rules use_case_decision := {|
  checks _ := []; uniques _ _ := [];
  references d r := [fk customers "customer_use_case_gate_decisions_customer_id_fkey" d (ucd_customer_id r)] |}.

Record destination_input : Type := mk_destination_input {
  dsi_customerId : uuid;
  dsi_counterpartyName : string;
  dsi_destinationJurisdiction : string;
  dsi_invoiceReference : option string
}.

Definition destination_row (E : env) (a : actor) (input : destination_input) : destination_counterparty :=
  mk_destination_counterparty (dsi_customerId input) (dsi_counterpartyName input) (dsi_destinationJurisdiction input)
    (dsi_invoiceReference input) (a_openId a) (db_now E).

Definition recordCustomerDestinationCounterparty (E : env) (a : actor) (new_id : uuid) (input : destination_input) :
    Act db (uuid * destination_counterparty) :=
  transaction (
    customer ← select_by_id customers (dsi_customerId input);
    _ ← require customer (JsError "a canonical customer record is required before recording a destination counterparty");
    _ ← insert_row customer_destination_counterparties "customer_destination_counterparties" rules_destinations new_id
      (destination_row E a input);
    _ ← recordActivity E a "customer.destination_counterparty_added" (dsi_customerId input)
      [("counterpartyName", JStr (dsi_counterpartyName input)); ("destinationJurisdiction", JStr (dsi_destinationJurisdiction input))];
    mret (new_id, destination_row E a input)).

(** ** Gate G1 *)

Definition destinations_of (d : db) (customer : uuid) : list (uuid * destination_counterparty) :=
  select (λ _ r, bool_decide (cdc_customer_id r = customer)) (customer_destination_counterparties d).

Definition gate_row (E : env) (a : actor) (customer : uuid) (decision : onboarding_decision) (rationale : string) : use_case_decision :=
  mk_use_case_decision customer decision rationale (a_openId a) (a_role a) (db_now E).

Definition decideCustomerUseCaseGate (E : env) (a : actor) (new_id customerId : uuid) (decision : onboarding_decision) (rationale : string) :
    Act db (uuid * use_case_decision) :=
  transaction (
    found ← select_by_id customers customerId;
    customer ← require found (JsError "customer record was not found");
    _ ← (if bool_decide (decision = DecApproved) then
           _ ← throw_if (negb (truthy (trim (default "" (cust_use_case_narrative customer)))))
             (JsError "a use-case narrative is required before Gate G1 can be approved");
           counterparties ← gets (λ d, destinations_of d customerId);
           throw_if (bool_decide (length counterparties = 0%nat))
             (JsError "at least one destination counterparty is required before Gate G1 can be approved")
         else mret tt);
    _ ← insert_row customer_use_case_gate_decisions "customer_use_case_gate_decisions" rules_use_case_decisions new_id
      (gate_row E a customerId decision rationale);
    _ ← recordActivity E a "customer.use_case_gate_decided" customerId
      [("decision", JStr (pg_text decision)); ("decidedBy", JStr (a_openId a))];
    mret (new_id, gate_row E a customerId decision rationale)).

(** ** Reads *)

Definition listCustomerDestinationCounterparties (customerId : uuid) (d : db) : list (uuid * destination_counterparty) :=
  order_by_desc (λ x, cdc_created_at x.2) (destinations_of d customerId).
Definition listCustomerUseCaseGateDecisions (customerId : uuid) (d : db) : list (uuid * use_case_decision) :=
  order_by_desc (λ x, ucd_decided_at x.2)
    (select (λ _ r, bool_decide (ucd_customer_id r = customerId)) (customer_use_case_gate_decisions d)).

Definition listPostgresActivityEventsForObjects (objectIds : list uuid) (d : db) : list activity_event :=
  match objectIds with
  | [] => []
  | _ => order_by ev_occurred_at
      (List.filter (λ e, match ev_object_id e with Some k => includes objectIds k | None => false end) (activity_events d))
  end.

(** The reads of a workspace, each of which sees its own snapshot. *)
Inductive workspace_query : Type :=
  | QCustomer | QDestinations | QDecisions | QDocuments | QJobs | QActivity | QEvidence | QReviewerDecisions.

Record workspace : Type := mk_workspace {
  ws_customer : customer;
  ws_destinationCounterparties : list (uuid * destination_counterparty);
  ws_useCaseGateDecisions : list (uuid * use_case_decision);
  ws_kycDocuments : list (uuid * kyc_document);
  ws_linkedAnalysisJobs : list (uuid * analysis_job);
  ws_linkedEvidence : list (uuid * analysis_evidence);
  ws_linkedReviewerDecisions : list (uuid * reviewer_decision);
  ws_activity : list activity_event
}.

(** [WHERE key = ANY(ids)], not asked when there are none. *)
Definition linked {R} (key : R → option uuid) (at_ : R → Z) (ids : list uuid) (t : gmap uuid R) : list (uuid * R) :=
  match ids with
  | [] => []
  | _ => order_by_desc (λ x, at_ x.2) (select (λ _ r, match key r with Some k => includes ids k | None => false end) t)
  end.

Definition getCustomerWorkspace (at_ : workspace_query → db) (customerId : uuid) : option workspace :=
  customer ← customers (at_ QCustomer) !! customerId;
  let kycDocuments := order_by_desc (λ x, kd_uploaded_at x.2)
    (select (λ _ r, bool_decide (kd_customer_id r = customerId)) (kyc_documents (at_ QDocuments))) in
  let documentIds := kycDocuments.*1 in
  let linkedAnalysisJobs := linked daj_kyc_document_id daj_submitted_at documentIds (document_analysis_jobs (at_ QJobs)) in
  let analysisJobIds := linkedAnalysisJobs.*1 in
  Some (mk_workspace customer
    (listCustomerDestinationCounterparties customerId (at_ QDestinations))
    (listCustomerUseCaseGateDecisions customerId (at_ QDecisions))
    kycDocuments linkedAnalysisJobs
    (linked (Some ∘ dae_analysis_job_id) dae_created_at analysisJobIds (document_analysis_evidence (at_ QEvidence)))
    (linked (Some ∘ vrd_analysis_job_id) vrd_decided_at analysisJobIds (verification_reviewer_decisions (at_ QReviewerDecisions)))
    (listPostgresActivityEventsForObjects (customerId :: documentIds) (at_ QActivity))).
