(* ===== verification/CustomerUseCaseProps.v ===== *)
(** * The use-case gate and the customer workspace *)

From S2P Require Import Prelude Js Numeric Rows Schema CustomerUseCase.

Local Open Scope string_scope.
Local Open Scope Z_scope.

(** ** What the handlers change *)

Definition use_case_view (d : db) := (customers d, customer_destination_counterparties d, customer_use_case_gate_decisions d).

(** The basis Gate G1 needs. *)
Definition stated (r : customer) : Prop := ∃ s, cust_use_case_narrative r = Some s ∧ trim s ≠ "".
Record admissible (d : db) (customer : uuid) : Prop := {
  ad_narrative : ∃ r, customers d !! customer = Some r ∧ stated r;
  ad_destination : ∃ k x, customer_destination_counterparties d !! k = Some x ∧ cdc_customer_id x = customer
}.

Lemma stated_truthy r : truthy (trim (default "" (cust_use_case_narrative r))) = true ↔ stated r.
Proof.
  unfold stated, truthy. rewrite negb_true_iff, bool_decide_eq_false. destruct (cust_use_case_narrative r); simpl; naive_solver.
Qed.
Lemma destinations_some d customer : length (destinations_of d customer) ≠ 0%nat ↔
  ∃ k x, customer_destination_counterparties d !! k = Some x ∧ cdc_customer_id x = customer.
Proof.
  unfold destinations_of. split.
  - destruct (select _ _) as [|[k x] l] eqn:H; [done|]. intros _. exists k, x.
    assert (Hin : (k, x) ∈ select (λ _ r, bool_decide (cdc_customer_id r = customer)) (customer_destination_counterparties d)) by (rewrite H; left).
    by apply elem_of_select in Hin as [? ?%bool_decide_eq_true].
  - intros (k & x & Hk & Hx). assert (Hin : (k, x) ∈ select (λ _ r, bool_decide (cdc_customer_id r = customer)) (customer_destination_counterparties d))
      by (apply elem_of_select; split; [done|by apply bool_decide_eq_true]).
    destruct (select _ _); [by apply not_elem_of_nil in Hin|done].
Qed.

(** The decision may be taken. *)
Definition decidable_now (d : db) (id customer : uuid) (decision : onboarding_decision) : Prop :=
  is_Some (customers d !! customer) ∧ (decision = DecApproved → admissible d customer) ∧ customer_use_case_gate_decisions d !! id = None.

Lemma gate_effect E a id customer decision rationale d r d' :
  decideCustomerUseCaseGate E a id customer decision rationale d = (r, d') →
  (d' = d ∧ is_ok r = false) ∨
  (decidable_now d id customer decision ∧ r = Ok (id, gate_row E a customer decision rationale) ∧
   use_case_view d' = (customers d, customer_destination_counterparties d,
     <[id := gate_row E a customer decision rationale]> (customer_use_case_gate_decisions d)) ∧ log_extends d d').
Proof.
  destruct r as [r|e]; intros H; [right|left; by apply transaction_throw in H as [_ ->]].
  apply transaction_ok in H. apply tx_bind_ok in H as (f & d1 & [<- ->]%gets_ok & H).
  apply tx_bind_ok in H as (c & d1 & [Hc ->]%require_ok & H). apply tx_bind_ok in H as (u & d1 & Hg & H).
  assert (d1 = d ∧ (decision = DecApproved → admissible d customer)) as [-> Hadm].
  { case_bool_decide; [|apply mret_ok in Hg as [_ ->]; done].
    apply tx_bind_ok in Hg as (u1 & d2 & [Hn%negb_false_iff%stated_truthy ->]%throw_if_ok & Hg).
    apply tx_bind_ok in Hg as (l & d2 & [<- ->]%gets_ok & [Hl%bool_decide_eq_false ->]%throw_if_ok).
    split; [done|]. intros _. split; [by exists c|by apply destinations_some]. }
  apply tx_bind_ok in H as (u2 & d2 & (_ & Hn & _ & _ & ->)%insert_row_ok & H).
  apply tx_bind_ok in H as (u3 & d3 & ->%modify_ok & [-> ->]%mret_ok).
  split_and!; [split_and!; [by exists c|done..]|done..|unfold log_extends; simpl; by apply prefix_app_r].
Qed.

Lemma gate_run E a id customer decision rationale d : decidable_now d id customer decision →
  ∃ d', decideCustomerUseCaseGate E a id customer decision rationale d = (Ok (id, gate_row E a customer decision rationale), d').
Proof.
  intros ([c Hc] & Ha & Hn). eexists. apply transaction_ok. eapply tx_bind_run; [apply gets_run|]. cbv beta.
  eapply tx_bind_run; [by apply require_run|]. eapply (tx_bind_run _ _ _ tt).
  { case_bool_decide as Hd; [|done]. destruct (Ha Hd) as [(c' & Hc' & Hs) Hdest]. simplify_eq.
    eapply tx_bind_run; [by apply throw_if_run, negb_false_iff, stated_truthy|]. eapply tx_bind_run; [apply gets_run|].
    by apply throw_if_run, bool_decide_eq_false, destinations_some. }
  eapply (tx_bind_run _ _ _ tt); [apply insert_row_ok; split_and!; [by apply Forall_nil|done|by apply Forall_nil| |reflexivity]|].
  - cbn [references rules_use_case_decisions]. rewrite Forall_cons. split; [apply bool_decide_eq_true; by exists c|by apply Forall_nil].
  - eapply tx_bind_run; [apply modify_run|]. done.
Qed.

Lemma destination_effect E a id i d r d' : recordCustomerDestinationCounterparty E a id i d = (r, d') →
  d' = d ∨ (customer_destination_counterparties d !! id = None ∧
    use_case_view d' = (customers d, <[id := destination_row E a i]> (customer_destination_counterparties d), customer_use_case_gate_decisions d)).
Proof.
  destruct r as [r|e]; intros H; [right|left; by apply transaction_throw in H as [_ ->]]. apply transaction_ok in H.
  unfold recordActivity in H. by db_inv.
Qed.

Lemma profile_effect E a i d r d' : updatePostgresCustomerProfile E a i d = (r, d') →
  d' = d ∨ ∃ c, customers d !! pfi_customerId i = Some c ∧ use_case_view d' =
    (<[pfi_customerId i := profiled i c]> (customers d), customer_destination_counterparties d, customer_use_case_gate_decisions d).
Proof.
  destruct r as [r|e]; intros H; [right|left; by apply transaction_throw in H as [_ ->]]. apply transaction_ok in H.
  unfold recordActivity in H. db_inv. eexists. split; [done|]. unfold use_case_view. simpl. erewrite alter_as_insert; done.
Qed.

(** ** Runs *)

(** The narrative a profile update brings is not blank (the router trims it and
    asks for twenty characters); elsewhere customers are added and keep their
    narrative. *)
Definition worded (i : profile_input) : Prop := ∀ s, pfi_useCaseNarrative i = Some s → trim s ≠ "".
Inductive use_case_step : relation db :=
  | us_profile E a i d : worded i → use_case_step d (updatePostgresCustomerProfile E a i d).2
  | us_destination E a id i d : use_case_step d (recordCustomerDestinationCounterparty E a id i d).2
  | us_gate E a id customer decision rationale d : use_case_step d (decideCustomerUseCaseGate E a id customer decision rationale d).2
  | us_elsewhere d d' : customer_destination_counterparties d' = customer_destination_counterparties d →
      customer_use_case_gate_decisions d' = customer_use_case_gate_decisions d →
      (∀ k r, customers d !! k = Some r → ∃ r', customers d' !! k = Some r' ∧ cust_use_case_narrative r' = cust_use_case_narrative r) →
      use_case_step d d'.

(** What the basis needs to survive. *)
Record basis_kept (d d' : db) : Prop := {
  bk_customers : ∀ k r, customers d !! k = Some r → ∃ r', customers d' !! k = Some r' ∧ (stated r → stated r');
  bk_destinations : customer_destination_counterparties d ⊆ customer_destination_counterparties d';
  bk_decisions : customer_use_case_gate_decisions d ⊆ customer_use_case_gate_decisions d'
}.
#[local] Instance basis_kept_preorder : PreOrder basis_kept.
Proof.
  split; [intros d; split; [intros k r Hk; by exists r|done..]|].
  intros d1 d2 d3 [A1 A2 A3] [B1 B2 B3]. split; [|by etrans..]. intros k r Hk.
  destruct (A1 k r Hk) as (r2 & Hk2 & E2). destruct (B1 k r2 Hk2) as (r3 & Hk3 & E3). exists r3. auto.
Qed.
Lemma admissible_mono d d' k : basis_kept d d' → admissible d k → admissible d' k.
Proof.
  intros [A1 A2 _] [(r & Hr & Hs) (j & x & Hj & Hx)]. split.
  - destruct (A1 k r Hr) as (r' & Hr' & Hm). exists r'. auto.
  - exists j, x. split; [by eapply lookup_weaken|done].
Qed.

Lemma profiled_stated i r : worded i → stated r → stated (profiled i r).
Proof.
  intros Hw (s & Hs & Ht). unfold stated. simpl. destruct (pfi_useCaseNarrative i) as [t|] eqn:E; [exists t; split; [done|by apply Hw]|by exists s].
Qed.

Lemma customers_same d d' : customers d' = customers d →
  ∀ k r, customers d !! k = Some r → ∃ r', customers d' !! k = Some r' ∧ (stated r → stated r').
Proof. intros -> k r Hk. by exists r. Qed.

Lemma use_case_step_kept d d' : use_case_step d d' → basis_kept d d'.
Proof.
  intros [E a i d1 Hw|E a id i d1|E a id k dec rat d1|d1 d2 E1 E2 Hc].
  - destruct (updatePostgresCustomerProfile E a i d1) as [r d2] eqn:H. simpl.
    apply profile_effect in H as [->|(c & Hc & [= Ec Ed Eg])]; [done|]. split; rewrite ?Ed, ?Eg; try done.
    intros k x Hk. rewrite Ec. destruct (decide (pfi_customerId i = k)) as [<-|Hne].
    + exists (profiled i c). rewrite lookup_insert_eq. simplify_eq. split; [done|by apply profiled_stated].
    + exists x. by rewrite lookup_insert_ne.
  - destruct (recordCustomerDestinationCounterparty E a id i d1) as [r d2] eqn:H. simpl.
    apply destination_effect in H as [->|[Hn [= Ec Ed Eg]]]; [done|]. split; rewrite ?Ed, ?Eg; [by apply customers_same|by apply insert_subseteq|done].
  - destruct (decideCustomerUseCaseGate E a id k dec rat d1) as [r d2] eqn:H. simpl.
    apply gate_effect in H as [[-> _]|((_ & _ & Hn) & _ & [= Ec Ed Eg] & _)]; [done|].
    split; rewrite ?Ed, ?Eg; [by apply customers_same|done|by apply insert_subseteq].
  - split; rewrite ?E1, ?E2; try done. intros k r (r' & Hr' & En)%Hc. exists r'. split; [done|]. unfold stated. by rewrite En.
Qed.

Definition approvals_based (d : db) : Prop :=
  ∀ k x, customer_use_case_gate_decisions d !! k = Some x → ucd_decision x = DecApproved → admissible d (ucd_customer_id x).

Lemma use_case_step_based d d' : use_case_step d d' → approvals_based d → approvals_based d'.
Proof.
  intros Hs Hok. pose proof (use_case_step_kept _ _ Hs) as Hk. destruct Hs as [E a i d1 Hw|E a id i d1|E a id c dec rat d1|d1 d2 E1 E2 Hc].
  - destruct (updatePostgresCustomerProfile E a i d1) as [r d2] eqn:H. simpl in *.
    apply profile_effect in H as [->|(x & _ & [= _ _ Eg])]; [done|]. intros k y. rewrite Eg. intros Hy Hd. by eapply admissible_mono, Hok.
  - destruct (recordCustomerDestinationCounterparty E a id i d1) as [r d2] eqn:H. simpl in *.
    apply destination_effect in H as [->|[_ [= _ _ Eg]]]; [done|]. intros k y. rewrite Eg. intros Hy Hd. by eapply admissible_mono, Hok.
  - destruct (decideCustomerUseCaseGate E a id c dec rat d1) as [r d2] eqn:H. simpl in *.
    apply gate_effect in H as [[-> _]|((_ & Ha & _) & _ & [= _ _ Eg] & _)]; [done|].
    intros k y. rewrite Eg. intros [[<- <-]|[_ Hy]]%lookup_insert_Some Hd; eapply admissible_mono; try done; [by apply Ha|by eapply Hok].
  - intros k y. rewrite E2. intros Hy Hd. by eapply admissible_mono, Hok.
Qed.

Lemma use_case_run d d' : rtc use_case_step d d' → approvals_based d → approvals_based d' ∧ basis_kept d d'.
Proof.
  induction 1 as [|d1 d2 d3 Hs _ IH]; intros Hok; [done|]. destruct (IH (use_case_step_based _ _ Hs Hok)) as [H1 H2].
  split; [done|]. etrans; [by apply use_case_step_kept|done].
Qed.

(** Gate G1 is approved only on a basis that lasts: a decision is recorded
    exactly when the customer exists and, for an approval, has a narrative that
    is not blank and a destination counterparty on record, and is otherwise
    refused with nothing written; on every run, decisions are never changed or
    removed, and every approved customer still has its basis. *)
Theorem use_case_gate_based d0 d1 : approvals_based d0 → rtc use_case_step d0 d1 →
  approvals_based d1 ∧ basis_kept d0 d1 ∧
  ∀ E a id customer decision rationale r d2, decideCustomerUseCaseGate E a id customer decision rationale d1 = (r, d2) →
    (decidable_now d1 id customer decision ∧ r = Ok (id, gate_row E a customer decision rationale) ∧
     customer_use_case_gate_decisions d2 = <[id := gate_row E a customer decision rationale]> (customer_use_case_gate_decisions d1)) ∨
    (~ decidable_now d1 id customer decision ∧ is_ok r = false ∧ d2 = d1).
Proof.
  intros Hok Hrun. destruct (use_case_run _ _ Hrun Hok) as [H1 H2]. split_and!; [done..|].
  intros E a id customer decision rationale r d2 H. pose proof H as [[-> Hr]|(Hd & -> & [= _ _ Eg] & _)]%gate_effect; [right|by left].
  split_and!; [|done..]. intros (d3 & H3)%(gate_run E a _ _ _ rationale). rewrite H3 in H. by simplify_eq.
Qed.

(** ** The workspace *)

Lemma elem_of_linked {R} (key : R → option uuid) at_ ids t k r :
  (k, r) ∈ linked key at_ ids t ↔ t !! k = Some r ∧ ∃ j, key r = Some j ∧ j ∈ ids.
Proof.
  unfold linked. destruct ids as [|i ids]; [split; [by intros ?%not_elem_of_nil|intros (_ & j & _ & []%not_elem_of_nil)]|].
  unfold order_by_desc. rewrite order_by_perm, elem_of_select. destruct (key r) as [j|]; rewrite ?includes_true; naive_solver.
Qed.

(** The workspace of a customer traces to rows: whatever the snapshots its
    queries see, every linked job is about a listed document of that customer,
    every piece of evidence and every reviewer decision about a listed job, every
    event about the customer or a listed document, each being a row of its
    snapshot; and nothing linked in the snapshots is left out. *)
Theorem workspace_traces at_ customer w : getCustomerWorkspace at_ customer = Some w →
  customers (at_ QCustomer) !! customer = Some (ws_customer w) ∧
  (∀ k r, (k, r) ∈ ws_kycDocuments w ↔ kyc_documents (at_ QDocuments) !! k = Some r ∧ kd_customer_id r = customer) ∧
  (∀ k r, (k, r) ∈ ws_linkedAnalysisJobs w ↔ document_analysis_jobs (at_ QJobs) !! k = Some r ∧
     ∃ j doc, daj_kyc_document_id r = Some j ∧ (j, doc) ∈ ws_kycDocuments w) ∧
  (∀ k r, (k, r) ∈ ws_linkedEvidence w ↔ document_analysis_evidence (at_ QEvidence) !! k = Some r ∧
     ∃ job, (dae_analysis_job_id r, job) ∈ ws_linkedAnalysisJobs w) ∧
  (∀ k r, (k, r) ∈ ws_linkedReviewerDecisions w ↔ verification_reviewer_decisions (at_ QReviewerDecisions) !! k = Some r ∧
     ∃ job, (vrd_analysis_job_id r, job) ∈ ws_linkedAnalysisJobs w) ∧
  (∀ e, e ∈ ws_activity w ↔ e ∈ activity_events (at_ QActivity) ∧
     ∃ k, ev_object_id e = Some k ∧ (k = customer ∨ ∃ doc, (k, doc) ∈ ws_kycDocuments w)) ∧
  StronglySorted (key_le ev_occurred_at) (ws_activity w).
Proof.
  unfold getCustomerWorkspace. destruct (customers _ !! customer) as [c|]; [|done]. intros [= <-]. simpl.
  assert (Hfst : ∀ (A : Type) (l : list (uuid * A)) k, k ∈ l.*1 ↔ ∃ a, (k, a) ∈ l).
  { intros A l k. rewrite list_elem_of_fmap. split; [intros ([k' a] & -> & Hin); by exists a|intros [a Hin]; by exists (k, a)]. }
  split_and!; [done|..|apply order_by_sorted].
  - intros k r. unfold order_by_desc. by rewrite order_by_perm, elem_of_select, bool_decide_eq_true.
  - intros k r. rewrite elem_of_linked. setoid_rewrite Hfst. naive_solver.
  - intros k r. rewrite elem_of_linked. setoid_rewrite Hfst. naive_solver.
  - intros k r. rewrite elem_of_linked. setoid_rewrite Hfst. naive_solver.
  - intros e. rewrite order_by_perm, list_elem_of_In, filter_In, <- list_elem_of_In. destruct (ev_object_id e) as [k|]; [|naive_solver].
    rewrite includes_true, elem_of_cons, Hfst. naive_solver.
Qed.

(** ** A worked run *)

Definition uc_clerk : actor := mk_actor "clerk-1" RoleComplianceOfficer.
Definition uc_env (t : Z) : env := mk_env (t * 1000) (t * 1000000) 0.
Definition uc0 : db := empty_db <| customers := {[1%positive := mk_customer "Acme" "RC-1" CaseOpen 0 None None None None]} |>.
Definition uc_profile : profile_input := mk_profile_input 1 (Some ArchImporter) None None (Some "Imports machine parts from Kenya").
Definition uc1 := (updatePostgresCustomerProfile (uc_env 1) uc_clerk uc_profile uc0).2.
Definition uc2 := (recordCustomerDestinationCounterparty (uc_env 2) uc_clerk 5 (mk_destination_input 1 "Mombasa Parts" "KE" None) uc1).2.
Definition uc3 := (decideCustomerUseCaseGate (uc_env 3) uc_clerk 6 1 DecApproved "basis checked" uc2).2.

Lemma uc2_run : rtc use_case_step uc0 uc2.
Proof.
  eapply rtc_l; [apply (us_profile (uc_env 1) uc_clerk uc_profile); intros s [= <-]; vm_compute; discriminate|].
  apply rtc_once, us_destination.
Qed.
Lemma uc0_based : approvals_based uc0.
Proof. intros k x. vm_compute. done. Qed.

(** Witness of [use_case_gate_based]: approved once the basis is there, refused
    before. *)
Lemma use_case_gate_based_witness :
  admissible uc2 1 ∧ (decideCustomerUseCaseGate (uc_env 3) uc_clerk 6 1 DecApproved "basis checked" uc1).2 = uc1.
Proof.
  pose proof (use_case_gate_based uc0 uc2 uc0_based uc2_run) as (_ & _ & H). split.
  - destruct (H (uc_env 3) uc_clerk 6%positive 1%positive DecApproved "basis checked" _ _ (surjective_pairing _))
      as [((_ & Ha & _) & _)|(_ & Hr & _)]; [apply Ha; reflexivity|vm_compute in Hr; discriminate].
  - vm_compute. reflexivity.
Defined.

(** Witness of [workspace_traces]: the events of the approved customer. *)
Lemma workspace_traces_witness :
  ∃ w, getCustomerWorkspace (λ _, uc3) 1 = Some w ∧ length (ws_activity w) = 3%nat ∧
    ∀ e, e ∈ ws_activity w → e ∈ activity_events uc3.
Proof.
  destruct (getCustomerWorkspace (λ _, uc3) 1) as [w|] eqn:Hw; [|vm_compute in Hw; discriminate]. exists w. split; [reflexivity|].
  pose proof (workspace_traces _ _ _ Hw) as (_ & _ & _ & _ & _ & He & _). split.
  - vm_compute in Hw. injection Hw as <-. reflexivity.
  - intros e Hin. apply He in Hin. exact (proj1 Hin).
Defined.
