(* ===== verification/Doubles.v ===== *)
(** * JavaScript numbers

    Every finite binary64 value is an integer multiple of [2^-1074]; a finite
    number is kept as that integer. Rounding is to nearest, ties to even, with a
    53-bit significand, gradual underflow and overflow to infinity. Zero has no
    sign here: the sources never divide or compare identities of numbers.
    [Number(text)] and [String(number)] follow ECMA-262 (StringToNumber and
    Number::toString), and a number bound to a NUMERIC column goes through its
    text, as node-postgres sends it. *)

From S2P Require Import Prelude Js Numeric.

Local Open Scope string_scope.
Local Open Scope Z_scope.

Definition quantum : Z := 2 ^ 1074.
Definition overflow : Z := 2 ^ 1024 * quantum.

Inductive number : Type :=
  | Fin (v : Z)
  | Infinite (negative : bool)
  | NotANumber.
#[export] Instance number_eq_dec : EqDecision number.
Proof. solve_decision. Defined.

(** ** Rounding *)

(** Nearest integer to [n / d], ties to even. *)
Definition round_even (n d : Z) : Z :=
  let q := n / d in
  let r := n mod d in
  if 2 * r <? d then q else if d <? 2 * r then q + 1 else if Z.even q then q else q + 1.

(** The grid on which [n / d] quanta are rounded. *)
Definition grid (n d : Z) : Z := Z.max 0 (Z.log2 (n / d) - 52).
(** [n / d] quanta, rounded. *)
Definition round_quanta (n d : Z) : Z :=
  let k := grid n d in round_even n (d * 2 ^ k) * 2 ^ k.

Definition of_quanta (n d : Z) : number :=
  let v := round_quanta (Z.abs n) d in
  if overflow <=? v then Infinite (n <? 0) else Fin (Z.sgn n * v).

(** The number nearest to [s * 10^p]. *)
Definition of_decimal (s p : Z) : number :=
  of_quanta (s * 10 ^ Z.max p 0 * quantum) (10 ^ Z.max (- p) 0).

(** ** Arithmetic and comparison *)

Definition is_finite (x : number) : bool := match x with Fin _ => true | _ => false end.
Definition lt (x y : number) : bool :=
  match x, y with
  | NotANumber, _ | _, NotANumber => false
  | Fin a, Fin b => a <? b
  | Infinite true, Infinite true => false
  | Infinite true, _ => true
  | _, Infinite false => match x with Infinite false => false | _ => true end
  | _, _ => false
  end.
Definition mul (x y : number) : number :=
  match x, y with
  | Fin a, Fin b => of_quanta (a * b) quantum
  | NotANumber, _ | _, NotANumber => NotANumber
  | Infinite s, Infinite t => Infinite (xorb s t)
  | Infinite s, Fin a | Fin a, Infinite s => if a =? 0 then NotANumber else Infinite (xorb s (a <? 0))
  end.
Definition sub (x y : number) : number :=
  match x, y with
  | Fin a, Fin b => of_quanta (a - b) 1
  | NotANumber, _ | _, NotANumber => NotANumber
  | Infinite s, Infinite t => if Bool.eqb s t then NotANumber else Infinite s
  | Infinite s, Fin _ => Infinite s
  | Fin _, Infinite s => Infinite (negb s)
  end.
Definition add (x y : number) : number :=
  match x, y with
  | Fin a, Fin b => of_quanta (a + b) 1
  | NotANumber, _ | _, NotANumber => NotANumber
  | Infinite s, Infinite t => if Bool.eqb s t then Infinite s else NotANumber
  | Infinite s, Fin _ | Fin _, Infinite s => Infinite s
  end.
Definition div (x y : number) : number :=
  match x, y with
  | Fin a, Fin b =>
      if b =? 0 then if a =? 0 then NotANumber else Infinite (a <? 0)
      else of_quanta (Z.sgn b * a * quantum) (Z.abs b)
  | NotANumber, _ | _, NotANumber | Infinite _, Infinite _ => NotANumber
  | Infinite s, Fin b => Infinite (xorb s (b <? 0))
  | Fin _, Infinite _ => Fin 0
  end.
(** [Math.min] and [Math.max] of two numbers. *)
Definition math_min (x y : number) : number :=
  match x, y with NotANumber, _ | _, NotANumber => NotANumber | _, _ => if lt y x then y else x end.
Definition math_max (x y : number) : number :=
  match x, y with NotANumber, _ | _, NotANumber => NotANumber | _, _ => if lt x y then y else x end.

(** ** [Number(text)] *)

Definition split_sign (s : string) : bool * string :=
  match s with String "-" r => (true, r) | String "+" r => (false, r) | _ => (false, s) end.

(** Digits and what follows. *)
Fixpoint take_digits (s : string) : string * string :=
  match s with
  | String c r => if is_digit c then let '(d, rest) := take_digits r in (String c d, rest) else ("", s)
  | EmptyString => ("", "")
  end.

(** [[eE][+-]?[0-9]+] at the end of a literal. *)
Definition exponent_of (s : string) : option Z :=
  match s with
  | "" => Some 0
  | String c r =>
      if bool_decide (c = "e"%char) || bool_decide (c = "E"%char) then
        let '(neg, r) := split_sign r in
        let '(d, rest) := take_digits r in
        if truthy d && negb (truthy rest) then Some (if (neg : bool) then - digits_value 0 d else digits_value 0 d) else None
      else None
  end.

(** StrUnsignedDecimalLiteral, without [Infinity]: the digits and their scale. *)
Definition decimal_literal (s : string) : option (Z * Z) :=
  let '(i, rest) := take_digits s in
  let '(f, rest) := match rest with String "." r => take_digits r | _ => ("", rest) end in
  if truthy (i +:+ f) then e ← exponent_of rest; Some (digits_value 0 (i +:+ f), e - js_length f) else None.

Definition radix_digit (radix : Z) (c : ascii) : option Z :=
  let n := Z.of_nat (nat_of_ascii (to_lower_char c)) in
  let v := if is_digit c then n - 48 else n - 87 in
  if ((is_digit c) || ((97 <=? n) && (n <=? 102))) && (v <? radix) then Some v else None.
Fixpoint radix_value (radix acc : Z) (s : string) : option Z :=
  match s with
  | "" => Some acc
  | String c r => v ← radix_digit radix c; radix_value radix (acc * radix + v) r
  end.
Definition radix_of (c : ascii) : option Z :=
  match to_lower_char c with "x"%char => Some 16 | "o"%char => Some 8 | "b"%char => Some 2 | _ => None end.
(** NonDecimalIntegerLiteral. *)
Definition radix_literal (s : string) : option Z :=
  match s with
  | String z (String c (String d r)) =>
      if bool_decide (z = "0"%char) then radix ← radix_of c; radix_value radix 0 (String d r) else None
  | _ => None
  end.

Definition js_Number (text : string) : number :=
  let s := trim text in
  if negb (truthy s) then Fin 0
  else match radix_literal s with
  | Some v => of_decimal v 0
  | None =>
      let '(neg, u) := split_sign s in
      if bool_decide (u = "Infinity") then Infinite neg
      else match decimal_literal u with
      | Some (v, p) => of_decimal (if (neg : bool) then - v else v) p
      | None => NotANumber
      end
  end.

(** ** The shortest decimal that reads back *)

(** [v] quanta are below [10^n]. *)
Definition below_ten (v n : Z) : bool := v * 10 ^ Z.max (- n) 0 <? 10 ^ Z.max n 0 * quantum.
(** The least such [n]: the number of digits before the point. *)
Definition magnitude (v : Z) : Z :=
  let est := (Z.log2 v - 1074) * 30103 / 100000 in
  match List.filter (below_ten v) [est - 1; est; est + 1; est + 2] with n :: _ => n | [] => est + 3 end.

(** The decimals with exponent [p] next to [v] that read back as [v]. *)
Definition decimals_at (v p : Z) : list Z :=
  let n := v * 10 ^ Z.max (- p) 0 in
  let d := quantum * 10 ^ Z.max p 0 in
  List.filter (λ s, bool_decide (of_decimal s p = Fin v)) [round_even n d; n / d; n / d + 1].

(** [k] significant digits for [k = 1, 2, …, 17]; the exact expansion closes the
    search, whose seventeen digits always suffice. *)
Fixpoint shortest_from (fuel : nat) (k v n : Z) : Z * Z :=
  match fuel with
  | O => (v * 5 ^ 1074, - 1074)
  | S fuel => match decimals_at v (n - k) with s :: _ => (s, n - k) | [] => shortest_from fuel (k + 1) v n end
  end.
Definition shortest (v : Z) : Z * Z := shortest_from 17 1 v (magnitude v).

(** ** [String(number)] *)

Fixpoint strip_zeros (fuel : nat) (s p : Z) : Z * Z :=
  match fuel with
  | O => (s, p)
  | S fuel => if s mod 10 =? 0 then strip_zeros fuel (s / 10) (p + 1) else (s, p)
  end.
Definition zeros (n : Z) : string := String.string_of_list_ascii (replicate (Z.to_nat n) "0"%char).

(** The digits [s] of a value [s * 10^p], laid out. *)
Definition layout (s p : Z) : string :=
  let digits := int_text s in
  let k := js_length digits in
  let n := p + k in
  if (k <=? n) && (n <=? 21) then digits +:+ zeros (n - k)
  else if (0 <? n) && (n <=? 21) then String.substring 0 (Z.to_nat n) digits +:+ "." +:+ String.substring (Z.to_nat n) (Z.to_nat (k - n)) digits
  else if (-6 <? n) && (n <=? 0) then "0." +:+ zeros (- n) +:+ digits
  else let e := n - 1 in
    let exponent := "e" +:+ (if e <? 0 then "-" else "+") +:+ int_text (Z.abs e) in
    if k =? 1 then digits +:+ exponent
    else String.substring 0 1 digits +:+ "." +:+ String.substring 1 (Z.to_nat (k - 1)) digits +:+ exponent.

Definition js_String (x : number) : string :=
  match x with
  | NotANumber => "NaN"
  | Infinite neg => if (neg : bool) then "-Infinity" else "Infinity"
  | Fin v =>
      if v =? 0 then "0"
      else let '(s, p) := shortest (Z.abs v) in
        let '(s, p) := strip_zeros 40 s p in
        (if v <? 0 then "-" else "") +:+ layout s p
  end.

(** [x.toFixed(digits)]: ties go to the larger of the two, and numbers from
    [10^21] on are printed as by [String]. *)
Definition to_fixed (digits : nat) (x : number) : string :=
  match x with
  | Fin v =>
      if 10 ^ 21 * quantum <=? Z.abs v then js_String x
      else let n := (2 * Z.abs v * 10 ^ Z.of_nat digits + quantum) / (2 * quantum) in
        (if v <? 0 then "-" else "") +:+ numeric_text digits n
  | _ => js_String x
  end.

(** ** Numbers in JSON and in NUMERIC columns *)

Definition json_number (x : number) : json :=
  match x with
  | Fin v =>
      let t := Z.log2 (Z.land v (- v)) in
      if (v =? 0) || (1074 <=? t) then JNum (v / quantum) else JFrac (v / 2 ^ t) (Z.to_pos (1074 - t))
  | _ => JNull
  end.

(** [s * 10^p] stored with [scale] decimals, rounded half away from zero. *)
Definition store_decimal (scale s p : Z) : Z :=
  if 0 <=? p + scale then s * 10 ^ (p + scale) else round_half_away s (10 ^ (- (p + scale))).
Definition numeric_of_number (scale v : Z) : Z :=
  let '(s, p) := shortest (Z.abs v) in
  Z.sgn v * store_decimal scale s p.

Example number_texts :
  List.map (λ s, js_String (js_Number s)) ["0.1"; "0.000001"; " 12.50 "; "5e-324"; "0x1F"; ".5"; "9007199254740993"; "-2.5e-3"; "1e-7"; "2e308"; "1,5"; ""] =
  ["0.1"; "0.000001"; "12.5"; "5e-324"; "31"; "0.5"; "9007199254740992"; "-0.0025"; "1e-7"; "Infinity"; "NaN"; "0"].
Proof. vm_compute. reflexivity. Qed.
Example product_of_doubles : js_String (mul (js_Number "0.1") (js_Number "3")) = "0.30000000000000004".
Proof. vm_compute. reflexivity. Qed.

(** ** Rounding is exact on its range and monotone *)

Lemma round_even_exact m d : 0 < d → round_even (m * d) d = m.
Proof. intros Hd. unfold round_even. rewrite Z_div_mult, Z_mod_mult by lia. by rewrite (proj2 (Z.ltb_lt _ _)) by lia. Qed.

Lemma round_even_cases n d : 0 < d → n / d <= round_even n d <= n / d + 1.
Proof. intros Hd. unfold round_even. repeat case_match; lia. Qed.

Lemma round_even_mono n d n' d' : 0 < d → 0 < d' → n * d' <= n' * d → round_even n d <= round_even n' d'.
Proof.
  intros Hd Hd' Hle. pose proof (round_even_cases n d Hd) as C. pose proof (round_even_cases n' d' Hd') as C'.
  pose proof (Z.div_mod n d) as E. pose proof (Z.div_mod n' d') as E'.
  pose proof (Z.mod_pos_bound n d Hd) as B. pose proof (Z.mod_pos_bound n' d' Hd') as B'.
  assert (Hq : n / d <= n' / d') by (apply Z.div_le_lower_bound; [lia|]; nia).
  destruct (Z.eq_dec (n / d) (n' / d')) as [Heq|]; [|lia].
  assert (Hr : n mod d * d' <= n' mod d' * d) by nia. clear Hle Hq C C'.
  unfold round_even. rewrite Heq. repeat case_match; unbool; try lia; nia.
Qed.

Lemma round_even_ge n d m : 0 < d → m * d <= n → m <= round_even n d.
Proof. intros Hd H. rewrite <- (round_even_exact m 1) by lia. apply round_even_mono; lia. Qed.
Lemma round_even_le n d m : 0 < d → n <= m * d → round_even n d <= m.
Proof. intros Hd H. rewrite <- (round_even_exact m 1) by lia. apply round_even_mono; lia. Qed.

Lemma grid_nonneg n d : 0 <= grid n d.
Proof. unfold grid. lia. Qed.
Lemma pow_pos k : 0 <= k → 0 < 2 ^ k.
Proof. intros. by apply Z.pow_pos_nonneg. Qed.

(** On its grid a value has at most 53 bits, and 53 exactly above the finest. *)
Lemma grid_upper n d : 0 <= n → 0 < d → n < 2 ^ (grid n d + 53) * d.
Proof.
  intros Hn Hd. assert (Hq : n / d < 2 ^ (grid n d + 53)).
  { destruct (Z.eq_dec (n / d) 0) as [->|Hne]; [apply pow_pos; pose proof (grid_nonneg n d); lia|].
    pose proof (Z.div_pos n d Hn Hd). destruct (Z.log2_spec (n / d)) as [_ Hl]; [lia|].
    eapply Z.lt_le_trans; [exact Hl|]. apply Z.pow_le_mono_r; [lia|]. unfold grid. lia. }
  pose proof (Z.div_mod n d). pose proof (Z.mod_pos_bound n d Hd). nia.
Qed.
Lemma grid_lower n d : 0 <= n → 0 < d → 0 < grid n d → 2 ^ (grid n d + 52) * d <= n.
Proof.
  intros Hn Hd Hk. assert (Hg : grid n d + 52 = Z.log2 (n / d)) by (unfold grid in *; lia). rewrite Hg.
  assert (0 < n / d) by (pose proof (Z.div_pos n d Hn Hd); destruct (Z.eq_dec (n / d) 0) as [E|]; [unfold grid in Hk; rewrite E in Hk; simpl in Hk; lia|lia]).
  destruct (Z.log2_spec (n / d)) as [Hl _]; [lia|]. pose proof (Z.div_mod n d). pose proof (Z.mod_pos_bound n d Hd). nia.
Qed.

Lemma grid_mono n d n' d' : 0 <= n → 0 < d → 0 < d' → n * d' <= n' * d → grid n d <= grid n' d'.
Proof.
  intros Hn Hd Hd' Hle. unfold grid. assert (n / d <= n' / d').
  { apply Z.div_le_lower_bound; [lia|]. pose proof (Z.div_mod n d). pose proof (Z.mod_pos_bound n d Hd). nia. }
  pose proof (Z.log2_le_mono (n / d) (n' / d')). lia.
Qed.

Lemma round_quanta_mono n d n' d' : 0 <= n → 0 <= n' → 0 < d → 0 < d' → n * d' <= n' * d → round_quanta n d <= round_quanta n' d'.
Proof.
  intros Hn Hn' Hd Hd' Hle. unfold round_quanta. cbv zeta. pose proof (grid_mono n d n' d' Hn Hd Hd' Hle) as Hg.
  pose proof (grid_nonneg n d) as G. pose proof (pow_pos (grid n d) G) as P. pose proof (pow_pos (grid n' d') ltac:(lia)) as P'.
  destruct (Z.eq_dec (grid n d) (grid n' d')) as [E|Hne].
  - rewrite <- E. apply Z.mul_le_mono_nonneg_r; [lia|]. apply round_even_mono; nia.
  - transitivity (2 ^ (grid n d + 53)).
    + rewrite Z.add_comm, Z.pow_add_r by lia. apply Z.mul_le_mono_nonneg_r; [lia|]. apply round_even_le; [nia|].
      pose proof (grid_upper n d Hn Hd) as U. rewrite Z.add_comm, Z.pow_add_r in U by lia. nia.
    + transitivity (2 ^ (52 + grid n' d')); [apply Z.pow_le_mono_r; lia|].
      rewrite Z.pow_add_r by lia. apply Z.mul_le_mono_nonneg_r; [lia|]. apply round_even_ge; [nia|].
      pose proof (grid_lower n' d' Hn' Hd' ltac:(lia)) as L. rewrite Z.add_comm, Z.pow_add_r in L by lia. nia.
Qed.

(** Numbers that are on a grid already. *)
Definition on_grid (v : Z) : Prop := ∃ m k, v = m * 2 ^ k ∧ 0 <= k ∧ 0 <= m <= 2 ^ 53.
Lemma round_quanta_on_grid n d : 0 <= n → 0 < d → on_grid (round_quanta n d).
Proof.
  intros Hn Hd. exists (round_even n (d * 2 ^ grid n d)), (grid n d). pose proof (grid_nonneg n d) as G.
  pose proof (pow_pos _ G) as P. split; [done|]. split; [done|]. split.
  - apply round_even_ge; nia.
  - apply round_even_le; [nia|]. pose proof (grid_upper n d Hn Hd) as U. rewrite Z.pow_add_r in U by lia. nia.
Qed.
Lemma round_quanta_id v d : 0 < d → on_grid v → round_quanta (v * d) d = v.
Proof.
  intros Hd (m & k & -> & Hk & Hm). unfold round_quanta. cbv zeta. unfold grid. rewrite Z_div_mult by lia.
  set (g := Z.max 0 (Z.log2 (m * 2 ^ k) - 52)). assert (Hdiv : ∃ q, m * 2 ^ k = q * 2 ^ g).
  { destruct (Z.eq_dec m (2 ^ 53)) as [->|Hne].
    - exists (2 ^ (53 + k - g)). rewrite <- !Z.pow_add_r; try lia; [f_equal; lia|].
      unfold g. rewrite <- Z.pow_add_r by lia. rewrite Z.log2_pow2; lia.
    - destruct (Z.eq_dec m 0) as [->|]; [by exists 0|].
      assert (g <= k). { unfold g. rewrite Z.log2_mul_pow2 by lia. assert (Z.log2 m < 53) by (apply Z.log2_lt_pow2; lia). lia. }
      exists (m * 2 ^ (k - g)). rewrite <- Z.mul_assoc, <- Z.pow_add_r by lia. f_equal. f_equal. lia. }
  destruct Hdiv as [q ->]. assert (0 < 2 ^ g) by (apply pow_pos; lia).
  replace (q * 2 ^ g * d) with (q * (d * 2 ^ g)) by ring. rewrite round_even_exact by nia. done.
Qed.

(** A finite number. *)
Definition finite_value (v : Z) : Prop := on_grid (Z.abs v) ∧ Z.abs v < overflow.

Lemma of_quanta_finite n d v : 0 < d → of_quanta n d = Fin v → finite_value v.
Proof.
  intros Hd. unfold of_quanta. cbv zeta. destruct (Z.leb_spec overflow (round_quanta (Z.abs n) d)) as [|Hlt]; [done|].
  intros [= <-]. pose proof (round_quanta_on_grid (Z.abs n) d ltac:(lia) Hd) as Hg. destruct Hg as (m & k & E & Hk & Hm).
  assert (0 <= round_quanta (Z.abs n) d) by (rewrite E; pose proof (pow_pos k Hk); nia).
  unfold finite_value. assert (Ha : Z.abs (Z.sgn n * round_quanta (Z.abs n) d) = round_quanta (Z.abs n) d ∨
    Z.abs (Z.sgn n * round_quanta (Z.abs n) d) = 0) by (destruct (Z.sgn_spec n) as [[? ->]|[[? ->]|[? ->]]]; lia).
  destruct Ha as [-> | ->]; (split; [|unfold overflow, quantum in *; lia]); [by exists m, k|by exists 0, 0].
Qed.

Lemma of_quanta_id v d : 0 < d → finite_value v → of_quanta (v * d) d = Fin v.
Proof.
  intros Hd [Hg Ho]. unfold of_quanta. cbv zeta. rewrite Z.abs_mul, (Z.abs_eq d), round_quanta_id by (done || lia).
  rewrite (proj2 (Z.leb_gt _ _)) by done. f_equal. rewrite Z.sgn_mul, (Z.sgn_pos d), Z.mul_1_r by lia. rewrite Z.mul_comm. apply Z.abs_sgn.
Qed.

Lemma ten_pos k : 0 < 10 ^ Z.max k 0.
Proof. apply Z.pow_pos_nonneg; lia. Qed.
Lemma quantum_pos : 0 < quantum.
Proof. apply pow_pos. lia. Qed.

(** ** The shortest decimal reads back *)

Lemma of_decimal_positive s p v : of_decimal s p = Fin v → 0 < v → 0 < s.
Proof.
  unfold of_decimal, of_quanta. cbv zeta. destruct (_ <=? _); [done|]. intros [= <-].
  pose proof (round_quanta_on_grid (Z.abs (s * 10 ^ Z.max p 0 * quantum)) (10 ^ Z.max (- p) 0) ltac:(lia) (ten_pos _)) as (m & k & -> & Hk & Hm).
  intros H. destruct (Z.lt_trichotomy s 0) as [Hs|[->|?]]; [|simpl in H; lia|done].
  rewrite !Z.sgn_mul, (Z.sgn_neg s), (Z.sgn_pos (10 ^ _)), (Z.sgn_pos quantum) in H by (done || apply ten_pos || apply quantum_pos).
  pose proof (pow_pos k Hk). nia.
Qed.

Lemma shortest_from_ok fuel k v n : finite_value v → of_decimal (shortest_from fuel k v n).1 (shortest_from fuel k v n).2 = Fin v.
Proof.
  intros Hv. revert k. induction fuel as [|fuel IH]; intros k.
  - cbn [shortest_from fst snd]. unfold of_decimal. change (Z.max (-1074) 0) with 0. change (Z.max (- -1074) 0) with 1074. rewrite Z.pow_0_r, Z.mul_1_r.
    replace (v * 5 ^ 1074 * quantum) with (v * 10 ^ 1074); [by apply of_quanta_id|].
    unfold quantum. change 10 with (5 * 2). rewrite Z.pow_mul_l. ring.
  - cbn [shortest_from]. destruct (decimals_at v (n - k)) as [|s l] eqn:Hd; [apply IH|]. cbn [fst snd].
    assert (Hin : In s (decimals_at v (n - k))) by (rewrite Hd; by left). unfold decimals_at in Hin. apply filter_In in Hin as [_ Hs].
    by apply bool_decide_eq_true in Hs.
Qed.
Lemma shortest_reads_back v : finite_value v → of_decimal (shortest v).1 (shortest v).2 = Fin v.
Proof. apply shortest_from_ok. Qed.

(** ** Storing numbers keeps their order *)

(** [s * 10^p <= s' * 10^p'], over the integers. *)
Definition decimal_le (s p s' p' : Z) : Prop :=
  s * 10 ^ Z.max p 0 * 10 ^ Z.max (- p') 0 <= s' * 10 ^ Z.max p' 0 * 10 ^ Z.max (- p) 0.

Lemma of_quanta_nonneg n d v : 0 <= n → 0 < d → of_quanta n d = Fin v → 0 <= v.
Proof.
  intros Hn Hd. unfold of_quanta. cbv zeta. destruct (_ <=? _); [done|]. intros [= <-].
  destruct (round_quanta_on_grid (Z.abs n) d ltac:(lia) Hd) as (m & k & -> & Hk & Hm). pose proof (pow_pos k Hk). pose proof (Z.sgn_nonneg n). nia.
Qed.
Lemma of_quanta_mono n d n' d' v v' : 0 <= n → 0 < d → 0 < d' → n * d' <= n' * d →
  of_quanta n d = Fin v → of_quanta n' d' = Fin v' → v <= v'.
Proof.
  intros Hn Hd Hd' Hle Hv Hv'. assert (Hn' : 0 <= n') by nia. pose proof (of_quanta_nonneg n' d' v' Hn' Hd' Hv') as Hp.
  revert Hv Hv' Hp. unfold of_quanta. cbv zeta. destruct (_ <=? _); [done|]. destruct (_ <=? _); [done|]. intros [= <-] [= <-].
  pose proof (round_quanta_mono n d n' d' Hn Hn' Hd Hd' Hle). rewrite !Z.abs_eq by done.
  destruct (Z.eq_dec n 0) as [->|]; [simpl; lia|]. rewrite !Z.sgn_pos by nia. lia.
Qed.
(** Below a number there is no overflow. *)
Lemma of_quanta_below n d v : 0 <= n → 0 < d → 0 <= v → finite_value v → n <= v * d → ∃ u, of_quanta n d = Fin u ∧ 0 <= u <= v.
Proof.
  intros Hn Hd Hv [Hg Ho] Hle. rewrite Z.abs_eq in Hg, Ho by done.
  assert (Hr : round_quanta n d <= v).
  { rewrite <- (round_quanta_id v d Hd Hg) at 1. apply round_quanta_mono; nia. }
  destruct (of_quanta n d) as [u|b|] eqn:Hu; revert Hu; unfold of_quanta; cbv zeta; rewrite Z.abs_eq by done;
    destruct (Z.leb_spec overflow (round_quanta n d)); intros [=]; try lia.
  subst u. eexists. split; [done|]. destruct (round_quanta_on_grid n d Hn Hd) as (m & k & E & Hk & Hm). pose proof (pow_pos k Hk).
  pose proof (Z.sgn_nonneg n). destruct (Z.eq_dec n 0) as [->|]; [simpl; lia|]. rewrite Z.sgn_pos by lia. nia.
Qed.

Lemma of_decimal_mono s p s' p' v v' : 0 <= s → decimal_le s p s' p' → of_decimal s p = Fin v → of_decimal s' p' = Fin v' → v <= v'.
Proof.
  intros Hs Hle. pose proof (ten_pos p). pose proof quantum_pos. unfold decimal_le in Hle.
  apply of_quanta_mono; try apply ten_pos; nia.
Qed.

Lemma round_half_away_mono n d n' d' : 0 <= n → 0 <= n' → 0 < d → 0 < d' → n * d' <= n' * d → round_half_away n d <= round_half_away n' d'.
Proof.
  intros Hn Hn' Hd Hd' Hle. unfold round_half_away. rewrite !Z.abs_eq by done.
  assert (Hq : (2 * n + d) / (2 * d) <= (2 * n' + d') / (2 * d')).
  { apply Z.div_le_lower_bound; [lia|]. pose proof (Z.div_mod (2 * n + d) (2 * d)). pose proof (Z.mod_pos_bound (2 * n + d) (2 * d)). nia. }
  pose proof (Z.div_pos (2 * n + d) (2 * d)). pose proof (Z.div_pos (2 * n' + d') (2 * d')).
  destruct (Z.eq_dec n 0) as [->|]; [simpl; pose proof (Z.sgn_nonneg n'); nia|].
  assert (n' ≠ 0) by (intros ->; nia). rewrite !Z.sgn_pos by lia. lia.
Qed.
Lemma round_half_away_exact m d : 0 <= m → 0 < d → round_half_away (m * d) d = m.
Proof.
  intros Hm Hd. unfold round_half_away. rewrite Z.abs_eq by nia.
  replace (2 * (m * d) + d) with (m * (2 * d) + d) by ring. rewrite Z.div_add_l by lia. rewrite (Z.div_small d) by lia.
  destruct (Z.eq_dec m 0) as [->|]; [done|]. rewrite Z.sgn_pos by nia. lia.
Qed.

Lemma store_decimal_ratio scale s p : 0 <= scale → 0 <= s →
  store_decimal scale s p = round_half_away (s * 10 ^ Z.max p 0 * 10 ^ scale) (10 ^ Z.max (- p) 0).
Proof.
  intros Hc Hs. unfold store_decimal. destruct (Z.leb_spec 0 (p + scale)) as [Hp|Hp].
  - replace (s * 10 ^ Z.max p 0 * 10 ^ scale) with (s * 10 ^ (p + scale) * 10 ^ Z.max (- p) 0).
    + rewrite round_half_away_exact; [done|pose proof (Z.pow_nonneg 10 (p + scale)); nia|apply ten_pos].
    + rewrite <- !Z.mul_assoc, <- !Z.pow_add_r by lia. f_equal. f_equal. lia.
  - rewrite Z.max_r, Z.max_l, Z.pow_0_r, Z.mul_1_r by lia.
    replace (- p) with (- (p + scale) + scale) by lia. rewrite Z.pow_add_r by lia.
    unfold round_half_away. assert (0 < 10 ^ scale) by (apply Z.pow_pos_nonneg; lia). assert (0 < 10 ^ (- (p + scale))) by (apply Z.pow_pos_nonneg; lia).
    rewrite !Z.abs_eq by nia. rewrite Z.sgn_mul, (Z.sgn_pos (10 ^ scale)), Z.mul_1_r by lia. f_equal.
    replace (2 * (s * 10 ^ scale) + 10 ^ (- (p + scale)) * 10 ^ scale) with ((2 * s + 10 ^ (- (p + scale))) * 10 ^ scale) by ring.
    replace (2 * (10 ^ (- (p + scale)) * 10 ^ scale)) with ((2 * 10 ^ (- (p + scale))) * 10 ^ scale) by ring.
    by rewrite Z.div_mul_cancel_r by lia.
Qed.

(** A number bound to a NUMERIC column: larger numbers are stored as larger
    amounts. *)
Lemma numeric_of_number_mono_pos scale v w : 0 <= scale → finite_value v → finite_value w → 0 < v <= w →
  0 <= numeric_of_number scale v <= numeric_of_number scale w.
Proof.
  intros Hc Hv Hw Hle. unfold numeric_of_number.
  pose proof (shortest_reads_back v Hv) as Rv. pose proof (shortest_reads_back w Hw) as Rw.
  rewrite !Z.abs_eq, !Z.sgn_pos by lia. destruct (shortest v) as [s p] eqn:Es. destruct (shortest w) as [s' p'] eqn:Es'. cbn [fst snd] in *.
  pose proof (of_decimal_positive _ _ _ Rv ltac:(lia)) as Hs. pose proof (of_decimal_positive _ _ _ Rw ltac:(lia)) as Hs'.
  assert (H10 : 0 < 10 ^ scale) by (apply Z.pow_pos_nonneg; lia). pose proof (ten_pos p). pose proof (ten_pos p').
  rewrite !Z.mul_1_l, !store_decimal_ratio by lia. split; [apply round_half_away_nonneg; [nia|apply ten_pos]|].
  destruct (Z.le_gt_cases (s * 10 ^ Z.max p 0 * 10 ^ Z.max (- p') 0) (s' * 10 ^ Z.max p' 0 * 10 ^ Z.max (- p) 0)) as [Hd|Hd].
  - apply round_half_away_mono; try apply ten_pos; nia.
  - assert (w <= v) by (eapply (of_decimal_mono s' p' s p); [lia|unfold decimal_le; lia|done..]).
    assert (v = w) as -> by lia. rewrite Es in Es'. injection Es' as <- <-. lia.
Qed.
Lemma numeric_of_zero scale : numeric_of_number scale 0 = 0.
Proof. unfold numeric_of_number. by destruct (shortest (Z.abs 0)). Qed.
Lemma numeric_of_number_mono scale v w : 0 <= scale → finite_value v → finite_value w → 0 <= v <= w →
  0 <= numeric_of_number scale v <= numeric_of_number scale w.
Proof.
  intros Hc Hv Hw Hle. destruct (Z.eq_dec v 0) as [->|]; [|apply numeric_of_number_mono_pos; try done; lia].
  rewrite numeric_of_zero. split; [done|]. destruct (Z.eq_dec w 0) as [->|]; [by rewrite numeric_of_zero|].
  apply (numeric_of_number_mono_pos scale w w); try done. lia.
Qed.

(** What [Number] reads is a double. *)
Lemma finite_zero : finite_value 0.
Proof. split; [by exists 0, 0|vm_compute; reflexivity]. Qed.
Lemma js_Number_finite s v : js_Number s = Fin v → finite_value v.
Proof.
  assert (Hdec : ∀ n p w, of_decimal n p = Fin w → finite_value w) by (intros n p w; apply of_quanta_finite, ten_pos).
  unfold js_Number. case_match; [intros [= <-]; apply finite_zero|]. case_match; [apply Hdec|].
  repeat case_match; try done; apply Hdec.
Qed.
