(* ===== verification/Treasury.v ===== *)
(** * Treasury: positions, observations, recommendations, spread

    The treasury handlers of src/apps/control-plane/server/postgres.ts (lines 592
    to 648 and 1624 to 1682) and computePostgresFxSpread of
    operationalAlerts.ts, over the JavaScript numbers of [Doubles]. *)

From S2P Require Import Prelude Js Numeric Rows Schema Doubles.

Local Open Scope string_scope.
Local Open Scope Z_scope.

(** ** Liquidity positions *)

Definition rules_liquidity_positions : table_rules liquidity_position := {|
  checks r := [(fits_numeric_30_12 (lp_available_amount r), NumericOverflow "available_amount");
    (fits_numeric_30_12 (lp_reserved_amount r), NumericOverflow "reserved_amount");
    (in_list ["NGN"; "KES"; "ZAR"; "USD"; "USDC"; "USDT"] (lp_currency r), CheckViolation "liquidity_positions_currency_check");
    (in_list ["liquidity_pool"; "nostro"; "vostro"; "prefunding"; "custody_wallet"] (lp_account_kind r),
      CheckViolation "liquidity_positions_account_kind_check");
    (0 <=? lp_available_amount r, CheckViolation "liquidity_positions_available_amount_check");
    (0 <=? lp_reserved_amount r, CheckViolation "liquidity_positions_reserved_amount_check")];
  uniques _ _ := [];
  references _ _ := [] |}.

Record position_input : Type := mk_position_input {
  psi_corridor : corridor_code;
  psi_currency : string;
  psi_accountKind : string;
  psi_accountReference : string;
  psi_availableAmount : string;
  psi_reservedAmount : string;
  psi_sourceReference : string;
  psi_reconciledAt : Z
}.

(** [!Number.isFinite(x) || x < 0], with the quanta of an acceptable number. *)
Definition non_negative (x : number) : option Z := match x with Fin v => if v <? 0 then None else Some v | _ => None end.

Definition recordPostgresLiquidityPosition (E : env) (a : actor) (new_id : uuid) (input : position_input) : Act db uuid :=
  match non_negative (js_Number (psi_availableAmount input)), non_negative (js_Number (psi_reservedAmount input)) with
  | Some available, Some reserved =>
      _ ← act_throw_if (app_now E <? psi_reconciledAt input) (JsError "Liquidity reconciliation timestamp cannot be in the future");
      transaction (
        _ ← insert_row liquidity_positions "liquidity_positions" rules_liquidity_positions new_id
          (mk_liquidity_position (psi_corridor input) (psi_currency input) (psi_accountKind input) (psi_accountReference input)
            (numeric_of_number 12 available) (numeric_of_number 12 reserved) (psi_sourceReference input)
            (pg_of_js (psi_reconciledAt input)) (a_openId a));
        _ ← insert_activity E a "liquidity_position.recorded" "liquidity_position" (Some new_id)
          (JObj [("corridor", JStr (pg_text (psi_corridor input))); ("currency", JStr (psi_currency input));
                 ("accountKind", JStr (psi_accountKind input)); ("accountReference", JStr (psi_accountReference input));
                 ("sourceReference", JStr (psi_sourceReference input)); ("reconciledAt", JDate (psi_reconciledAt input));
                 ("transferInitiated", JBool false)]);
        mret new_id)
  | _, _ => λ d, (Throw (JsError "Liquidity evidence must contain non-negative finite source-backed amounts"), d)
  end.

(** ** Market observations *)

Record observation_input : Type := mk_observation_input {
  obi_integrationConnectionId : uuid;
  obi_baseAsset : asset;
  obi_quoteAsset : asset;
  obi_rate : string;
  obi_observedAt : Z;
  obi_sourceReference : string
}.

Definition recordPostgresMarketObservation (E : env) (a : actor) (new_id : uuid) (input : observation_input) : Act db uuid :=
  let refused := JsError "Market observation requires a positive source-backed cross-asset rate" in
  match js_Number (obi_rate input) with
  | Fin rate =>
      _ ← act_throw_if ((rate <=? 0) || bool_decide (obi_baseAsset input = obi_quoteAsset input)) refused;
      transaction (
        found ← select_by_id integration_connections (obi_integrationConnectionId input);
        _ ← require (source ← found;
            if includes ["fx_rate"; "stablecoin_market_data"] (ic_category source) && bool_decide (ic_state source = IntActive)
            then Some source else None)
          (JsError "An active canonical FX or stablecoin market-data integration is required");
        _ ← insert_row market_observations "market_observations" rules_market_observations new_id
          (mk_market_observation (obi_integrationConnectionId input) (obi_baseAsset input) (obi_quoteAsset input)
            (numeric_of_number 12 rate) (pg_of_js (obi_observedAt input)) (obi_sourceReference input));
        _ ← insert_activity E a "market_observation.recorded" "market_observation" (Some new_id)
          (JObj [("integrationConnectionId", JUuid (obi_integrationConnectionId input)); ("baseAsset", JStr (pg_text (obi_baseAsset input)));
                 ("quoteAsset", JStr (pg_text (obi_quoteAsset input))); ("sourceReference", JStr (obi_sourceReference input));
                 ("providerExecutionInitiated", JBool false)]);
        mret new_id)
  | _ => λ d, (Throw refused, d)
  end.

(** [ORDER BY observed_at DESC LIMIT 200]. *)
Definition listPostgresMarketObservations (d : db) : list (uuid * market_observation) :=
  take 200 (order_by_desc (λ x, mo_observed_at x.2) (map_to_list (market_observations d))).

(** ** Recommendations *)

Definition rules_recommendations : table_rules treasury_recommendation := {|
  checks r := [(fits_numeric_30_12 (trr_reconciled_available_balance r), NumericOverflow "reconciled_available_balance");
    (fits_numeric_30_12 (trr_verified_near_term_funding_gap r), NumericOverflow "verified_near_term_funding_gap");
    (fits_numeric_30_12 (trr_minimum_buffer_amount r), NumericOverflow "minimum_buffer_amount");
    (fits_numeric_30_12 (trr_target_buffer_amount r), NumericOverflow "target_buffer_amount");
    (fits_numeric_30_12 (trr_computed_recommendation_amount r), NumericOverflow "computed_recommendation_amount");
    (in_list ["NGN"; "KES"; "ZAR"] (trr_currency r), CheckViolation "treasury_rebalancing_recommendations_currency_check");
    (0 <=? trr_reconciled_available_balance r, CheckViolation "treasury_rebalancing_recommend_reconciled_available_balanc_check");
    (0 <=? trr_verified_near_term_funding_gap r, CheckViolation "treasury_rebalancing_recommend_verified_near_term_funding__check");
    (0 <=? trr_minimum_buffer_amount r, CheckViolation "treasury_rebalancing_recommendations_minimum_buffer_amount_check");
    (trr_minimum_buffer_amount r <=? trr_target_buffer_amount r, CheckViolation "treasury_rebalancing_recommendations_check");
    (0 <=? trr_computed_recommendation_amount r, CheckViolation "treasury_rebalancing_recommend_computed_recommendation_amo_check");
    (trr_proposed_at r <? trr_expires_at r, CheckViolation "treasury_rebalancing_recommendations_check1");
    (Bool.eqb (includes [RecApproved; RecRejected] (trr_status r))
       (is_some (trr_decided_by r) && is_some (trr_decided_at r) && is_some (trr_decision_reason r)),
      CheckViolation "treasury_rebalancing_recommendations_check2")];
  uniques _ _ := [];
  references d r := [fk treasury_buffer_policies "treasury_rebalancing_recommendations_buffer_policy_id_fkey" d (trr_buffer_policy_id r)] |}.

Record recommendation_input : Type := mk_recommendation_input {
  rci_bufferPolicyId : uuid;
  rci_reconciledAvailableBalance : string;
  rci_reconciledAt : Z;
  rci_balanceSourceReference : string;
  rci_verifiedNearTermFundingGap : string;
  rci_fundingGapSourceReference : string;
  rci_expiresAt : Z
}.

(** [approved_daily_outflow::text] and the percentages, read as numbers. *)
Definition policy_daily (p : treasury_buffer_policy) : number := js_Number (numeric_text 12 (tbp_approved_daily_outflow p)).
Definition policy_minimum (p : treasury_buffer_policy) : number :=
  mul (policy_daily p) (js_Number (numeric_text 6 (tbp_minimum_buffer_pct p))).
Definition policy_target (p : treasury_buffer_policy) : number :=
  mul (policy_daily p) (js_Number (numeric_text 6 (tbp_target_buffer_pct p))).
Definition policy_cap (p : treasury_buffer_policy) : number :=
  mul (policy_target p) (js_Number (numeric_text 6 (tbp_max_recommendation_pct_of_target p))).
Definition recommended (target available cap gap : number) : number :=
  math_max (Fin 0) (math_min (math_min (sub target available) cap) gap).

Definition policy_active (now : Z) (p : treasury_buffer_policy) : bool :=
  (js_of_pg (tbp_effective_from p) <=? now) && match tbp_effective_to p with Some t => now <? js_of_pg t | None => true end.

Definition calculation_evidence (input : recommendation_input) (p : treasury_buffer_policy) : list (string * json) :=
  [("bufferPolicyId", JUuid (rci_bufferPolicyId input)); ("approvedDailyOutflow", JStr (numeric_text 12 (tbp_approved_daily_outflow p)));
   ("minimumBufferPct", JStr (numeric_text 6 (tbp_minimum_buffer_pct p))); ("targetBufferPct", JStr (numeric_text 6 (tbp_target_buffer_pct p)));
   ("maxRecommendationPctOfTarget", JStr (numeric_text 6 (tbp_max_recommendation_pct_of_target p)));
   ("balanceSourceReference", JStr (rci_balanceSourceReference input)); ("fundingGapSourceReference", JStr (rci_fundingGapSourceReference input));
   ("formula", JStr "min(target - available, target * cap_pct, verified_funding_gap)")].

Record proposal : Type := mk_proposal {
  prop_id : uuid;
  prop_minimumBufferAmount : string;
  prop_targetBufferAmount : string;
  prop_recommendationAmount : string
}.

Definition recommendation_row (E : env) (a : actor) (input : recommendation_input) (p : treasury_buffer_policy)
    (available gap minimum target amount : Z) : treasury_recommendation :=
  mk_treasury_recommendation (rci_bufferPolicyId input) (tbp_corridor p) (tbp_currency p) (numeric_of_number 12 available)
    (pg_of_js (rci_reconciledAt input)) (rci_balanceSourceReference input) (numeric_of_number 12 gap)
    (rci_fundingGapSourceReference input) (numeric_of_number 12 minimum) (numeric_of_number 12 target) (numeric_of_number 12 amount)
    (JObj (calculation_evidence input p)) RecProposed (a_openId a) (db_now E) None None None (pg_of_js (rci_expiresAt input)).

(** The values every guard lets through are finite. *)
Definition finite_all (xs : list number) : option (list Z) := mapM (λ x, match x with Fin v => Some v | _ => None end) xs.

Definition createPostgresTreasuryRecommendation (E : env) (a : actor) (new_id : uuid) (input : recommendation_input) : Act db proposal :=
  transaction (
    found ← select_by_id treasury_buffer_policies (rci_bufferPolicyId input);
    p ← require (p ← found; if policy_active (app_now E) p then Some p else None)
      (JsError "Active approved treasury buffer policy is required");
    _ ← throw_if ((app_now E <? rci_reconciledAt input) || (86400000 <? app_now E - rci_reconciledAt input))
      (JsError "Reconciled balance is unavailable or stale; recommendation generation fails closed");
    _ ← throw_if (rci_expiresAt input <=? app_now E) (JsError "Recommendation expiry must be in the future");
    let available := js_Number (rci_reconciledAvailableBalance input) in
    let gap := js_Number (rci_verifiedNearTermFundingGap input) in
    values ← require (vs ← finite_all [available; gap; policy_daily p; policy_minimum p; policy_target p; policy_cap p];
        if lt available (Fin 0) || lt gap (Fin 0) then None else Some vs)
      (JsError "Invalid reconciled evidence; recommendation generation fails closed");
    let recommendation := recommended (policy_target p) available (policy_cap p) gap in
    match values, recommendation with
    | [available; gap; _; minimum; target; _], Fin amount =>
        _ ← insert_row treasury_recommendations "treasury_rebalancing_recommendations" rules_recommendations new_id
          (recommendation_row E a input p available gap minimum target amount);
        _ ← insert_activity E a "treasury_recommendation.proposed" "treasury_rebalancing_recommendation" (Some new_id)
          (JObj (calculation_evidence input p ++ [("recommendationAmount", json_number recommendation); ("executionInitiated", JBool false)])%list);
        mret (mk_proposal new_id (js_String (Fin minimum)) (js_String (Fin target)) (js_String recommendation))
    | _, _ => throw (PgError (InvalidInput "numeric"))
    end).

Definition decided_recommendation (E : env) (a : actor) (decision : recommendation_status) (reason : string) (r : treasury_recommendation) :=
  r <| trr_status := decision |> <| trr_decided_by := Some (a_openId a) |> <| trr_decided_at := Some (db_now E) |>
    <| trr_decision_reason := Some reason |>.

Definition decidePostgresTreasuryRecommendation (E : env) (a : actor) (id : uuid) (decision : recommendation_status) (reason : string) :
    Act db (uuid * recommendation_status) :=
  transaction (
    found ← gets (λ d, r ← treasury_recommendations d !! id; if bool_decide (trr_status r = RecProposed) then Some r else None);
    record ← require found (JsError "Only proposed recommendations may be decided");
    _ ← throw_if (bool_decide (trr_proposed_by record = a_openId a))
      (JsError "Independent approval is required; proposer cannot decide recommendation");
    _ ← throw_if (js_of_pg (trr_expires_at record) <=? app_now E) (JsError "Expired recommendation cannot be decided");
    _ ← update_checked treasury_recommendations rules_recommendations id (decided_recommendation E a decision reason);
    _ ← insert_activity E a ("treasury_recommendation." +:+ pg_text decision) "treasury_rebalancing_recommendation" (Some id)
      (JObj [("decisionReason", JStr reason); ("executionInitiated", JBool false)]);
    mret (id, decision)).

Definition listPostgresTreasuryRecommendations (d : db) : list (uuid * treasury_recommendation) :=
  take 100 (order_by_desc (λ x, trr_proposed_at x.2) (map_to_list (treasury_recommendations d))).
Definition listPostgresTreasuryBufferPolicies (d : db) : list (uuid * treasury_buffer_policy) :=
  take 100 (order_by_desc (λ x, tbp_effective_from x.2) (map_to_list (treasury_buffer_policies d))).

(** ** Spread *)

(** [s LIKE pattern]; a backslash takes the next character literally. *)
Fixpoint sql_like (pattern s : string) : bool :=
  match pattern with
  | "" => bool_decide (s = "")
  | String "%" p =>
      (fix tails (s : string) : bool := sql_like p s || match s with "" => false | String _ s => tails s end) s
  | String "_" p => match s with "" => false | String _ s => sql_like p s end
  | String "\" (String c p) => match s with "" => false | String x s => bool_decide (x = c) && sql_like p s end
  | String c p => match s with "" => false | String x s => bool_decide (x = c) && sql_like p s end
  end.

Record SpreadResult : Type := mk_spread {
  sp_baseAsset : asset;
  sp_quoteAsset : asset;
  sp_bid : string;
  sp_ask : string;
  sp_mid : string;
  sp_spreadBasisPoints : string;
  sp_observationCount : Z;
  sp_sourceReferences : list string;
  sp_windowStart : string;
  sp_windowEnd : string
}.

(** [rates.sort((a, b) => a - b)]. *)
Definition number_le (x y : number) : Prop := lt y x = false.
#[export] Instance number_le_dec x y : Decision (number_le x y).
Proof. unfold number_le. apply _. Defined.
Definition string_le (s t : string) : Prop := String.leb s t = true.
#[export] Instance string_le_dec s t : Decision (string_le s t).
Proof. unfold string_le. apply _. Defined.

(** The observations of the pair inside the window, whose bounds are
    microseconds. *)
Definition in_window (base quote : asset) (start stop : Z) (prefix : option string) (r : market_observation) : bool :=
  bool_decide (mo_base_asset r = base) && bool_decide (mo_quote_asset r = quote) && (start <=? mo_observed_at r) &&
  (mo_observed_at r <=? stop) && match prefix with Some p => sql_like (p +:+ "%") (mo_source_reference r) | None => true end.

(** [clock] is [clock_timestamp()]; a pinned instant replaces it. *)
Definition computePostgresFxSpread (clock : Z) (baseAsset quoteAsset : asset) (now : option Z) (windowMinutes : option Z)
    (sourcePrefix : option string) (d : db) : option SpreadResult :=
  let stop := default clock (pg_of_js <$> now) in
  let start := stop - default 60 windowMinutes * 60000000 in
  let rows := (select (λ _ r, in_window baseAsset quoteAsset start stop sourcePrefix r) (market_observations d)).*2 in
  let distinctSources := remove_dups (mo_source_reference <$> rows) in
  if (length rows <? 2)%nat || (length distinctSources <? 2)%nat then None
  else
    let rates := merge_sort number_le ((λ r, js_Number (numeric_text 12 (mo_rate r))) <$> rows) in
    bid ← head rates;
    ask ← last rates;
    let mid := div (add bid ask) (js_Number "2") in
    let spreadBasisPoints := mul (div (sub ask bid) mid) (js_Number "10000") in
    Some (mk_spread baseAsset quoteAsset (js_String bid) (js_String ask) (js_String mid) (to_fixed 4 spreadBasisPoints) (Z.of_nat (length rows))
      (merge_sort string_le distinctSources) (toISOString (js_of_pg start)) (toISOString (js_of_pg stop))).
