(* ===== verification/TreasuryProps.v ===== *)
(** * Treasury: bounded recommendations, independent decisions, observed spread *)

From S2P Require Import Prelude Js Numeric Rows Schema TableSteps Doubles Treasury.

Local Open Scope string_scope.
Local Open Scope Z_scope.

(** ** Reading NUMERIC text as a number *)

Lemma take_digits_app i s : all_chars is_digit i = true → (match s with String c _ => is_digit c = false | "" => True end) →
  take_digits (i +:+ s) = (i, s).
Proof.
  intros Hi Hs. induction i as [|c i IH]; simpl in *.
  - destruct s as [|c s]; [done|]. simpl. by rewrite Hs.
  - apply andb_true_iff in Hi as [-> Hi]. by rewrite IH.
Qed.

Lemma digit_not_space c : is_digit c = true → is_space c = false.
Proof. destruct c as [[] [] [] [] [] [] [] []]; vm_compute; congruence. Qed.
Definition numeric_char (c : ascii) : bool := is_digit c || bool_decide (c = "."%char).
Lemma numeric_char_space c : numeric_char c = true → is_space c = false.
Proof. intros [H|H]%orb_true_iff; [by apply digit_not_space|]. apply bool_decide_eq_true in H as ->. done. Qed.
Lemma trim_solid s : all_chars numeric_char s = true → trim s = s.
Proof.
  intros Hs. unfold trim. assert (trim_start s = s) as ->.
  { destruct s as [|c s]; [done|]. simpl in *. apply andb_true_iff in Hs as [Hc _]. by rewrite numeric_char_space. }
  induction s as [|c s IH]; [done|]. simpl in *. apply andb_true_iff in Hs as [Hc Hs]. rewrite IH by done.
  destruct s; [|done]. by rewrite numeric_char_space.
Qed.
Lemma radix_of_numeric c : numeric_char c = true → radix_of c = None.
Proof. destruct c as [[] [] [] [] [] [] [] []]; vm_compute; congruence. Qed.
Lemma radix_solid s : all_chars numeric_char s = true → radix_literal s = None.
Proof.
  intros Hs. destruct s as [|a [|c [|e s]]]; try done. simpl in Hs. apply andb_true_iff in Hs as [_ [Hc _]%andb_true_iff].
  simpl. rewrite (radix_of_numeric c Hc). by case_bool_decide.
Qed.
Lemma split_sign_digit c s : is_digit c = true → split_sign (String c s) = (false, String c s).
Proof. destruct c as [[] [] [] [] [] [] [] []]; vm_compute; congruence. Qed.
Lemma digits_numeric s : all_chars is_digit s = true → all_chars numeric_char s = true.
Proof.
  induction s as [|c s IH]; [done|]. simpl. intros [Hc Hs]%andb_true_iff. unfold numeric_char at 1. rewrite Hc. by apply IH.
Qed.
Lemma all_chars_append p s t : all_chars p (s +:+ t) = all_chars p s && all_chars p t.
Proof. induction s as [|c s IH]; [done|]. simpl. by rewrite IH, andb_assoc. Qed.
Lemma digits_value_append s t acc : digits_value acc (s +:+ t) = digits_value (digits_value acc s) t.
Proof. revert acc. induction s as [|c s IH]; intros acc; [done|]. simpl. apply IH. Qed.

Lemma string_app_nil s : s +:+ "" = s.
Proof. induction s as [|c s IH]; [done|]. change (String c (s +:+ "") = String c s). by rewrite IH. Qed.
Lemma truthy_app c i f : truthy (String c i +:+ f) = true.
Proof. done. Qed.

(** [Number(amount::text)]. *)
Lemma js_Number_numeric k v : 0 <= v → js_Number (numeric_text k v) = of_decimal v (- Z.of_nat k).
Proof.
  intros Hv. unfold numeric_text. rewrite (proj2 (Z.ltb_ge v 0)), Z.abs_eq by lia. change ("" +:+ ?x) with x.
  set (p := 10 ^ Z.of_nat k). assert (0 < p) by (apply Z.pow_pos_nonneg; lia).
  destruct (int_text_spec (v / p)) as [Hi1 Hi2]; [apply Z.div_pos; lia|].
  destruct (frac_digits_spec k (v mod p) "") as (Hf1 & Hf2 & Hf3); [apply Z.mod_pos_bound; lia|].
  specialize (Hf3 eq_refl). simpl in Hf1, Hf2. rewrite Nat.add_0_r in Hf2. rewrite Z.mul_1_r, Z.add_0_r, Z.mod_mod in Hf1 by (fold p; lia).
  pose proof (int_digits_length (S (Z.to_nat (Z.log2 (v / p)))) (v / p) "") as Hlen.
  destruct (int_text (v / p)) as [|c i] eqn:Ei; [exfalso; unfold int_text in Ei; rewrite Ei in Hlen; simpl in Hlen; lia|].
  set (f := frac_digits k (v mod p) "") in *.
  assert (Hsolid : all_chars numeric_char (String c i +:+ "." +:+ f) = true).
  { rewrite !all_chars_append, (digits_numeric (String c i)), (digits_numeric f) by done. done. }
  unfold js_Number. rewrite (trim_solid _ Hsolid), (radix_solid _ Hsolid).
  change (String c i +:+ "." +:+ f) with (String c (i +:+ "." +:+ f)).
  simpl in Hi2. apply andb_true_iff in Hi2 as [Hc Hi]. change (negb (truthy (String c (i +:+ "." +:+ f)))) with false. cbv iota.
  rewrite split_sign_digit by done.
  rewrite bool_decide_eq_false_2 by (intros [= -> _]; done).
  change (String c (i +:+ "." +:+ f)) with (String c i +:+ "." +:+ f). unfold decimal_literal.
  rewrite take_digits_app; [|simpl; by rewrite Hc|done]. change ("." +:+ f) with (String "." f).
  change (match String "." f with String "."%char r => take_digits r | _ => ("", String "." f) end) with (take_digits f).
  assert (take_digits f = (f, "")) as -> by (rewrite <- (string_app_nil f) at 1; by apply take_digits_app).
  rewrite truthy_app by done. cbn [exponent_of mbind option_bind]. unfold js_length. rewrite Hf2, digits_value_append.
  assert (digits_value (digits_value 0 (String c i)) f = v) as ->.
  { rewrite Hi1, digits_value_shift, Hf1, Hf2. fold p. pose proof (Z.div_mod v p). lia. }
  done.
Qed.

(** ** The formula *)

Lemma math_min_fin a b : math_min (Fin a) (Fin b) = Fin (Z.min a b).
Proof. cbn [math_min lt]. destruct (Z.ltb_spec b a); f_equal; lia. Qed.
Lemma math_max_fin a b : math_max (Fin a) (Fin b) = Fin (Z.max a b).
Proof. cbn [math_max lt]. destruct (Z.ltb_spec a b); f_equal; lia. Qed.
Lemma min_either (P : Z → Prop) a b : P a → P b → P (Z.min a b).
Proof. intros. destruct (Z.min_spec a b) as [[_ ->]|[_ ->]]; done. Qed.
Lemma max_either (P : Z → Prop) a b : P a → P b → P (Z.max a b).
Proof. intros. destruct (Z.max_spec a b) as [[_ ->]|[_ ->]]; done. Qed.

(** A recommendation is at most the funding gap, the cap and the target, and is
    nothing once the balance reaches the target. *)
Lemma recommended_spec t a cap gap : finite_value t → finite_value cap → finite_value gap → 0 <= t → 0 <= a → 0 <= cap → 0 <= gap →
  ∃ x, recommended (Fin t) (Fin a) (Fin cap) (Fin gap) = Fin x ∧ finite_value x ∧
    0 <= x <= gap ∧ x <= cap ∧ x <= t ∧ (t <= a → x = 0).
Proof.
  intros Ht Hc Hg H0t H0a H0c H0g. unfold recommended. destruct (Z.le_gt_cases a t) as [Hle|Hgt].
  - destruct (of_quanta_below (t - a) 1 t) as (u & Hu & Hb); [lia|lia|lia|done|lia|]. cbn [sub]. rewrite Hu, !math_min_fin, math_max_fin.
    assert (Hut : t <= a → u = 0). { intros. assert (t - a = 0) as E by lia. rewrite E in Hu. vm_compute in Hu. congruence. }
    eexists. split; [done|]. split; [|split_and!; lia].
    apply max_either; [apply finite_zero|]. repeat apply min_either; try done. eapply of_quanta_finite; [|exact Hu]; lia.
  - exists 0. split; [|split; [apply finite_zero|lia]]. cbn [sub]. unfold of_quanta. cbv zeta.
    rewrite (proj2 (Z.ltb_lt (t - a) 0)), Z.sgn_neg by lia.
    destruct (round_quanta_on_grid (Z.abs (t - a)) 1) as (m & k & E & Hk & Hm); [lia..|]. pose proof (pow_pos k Hk).
    assert (0 <= round_quanta (Z.abs (t - a)) 1) by (rewrite E; nia).
    destruct (_ <=? _); [done|]. rewrite !math_min_fin, math_max_fin. f_equal. lia.
Qed.

(** ** The numbers of a policy *)

(** The constraints of treasury_buffer_policies (0004). *)
Record policy_ok (p : treasury_buffer_policy) : Prop := {
  pk_daily : 0 < tbp_approved_daily_outflow p < 10 ^ 30;
  pk_minimum : 0 < tbp_minimum_buffer_pct p < tbp_target_buffer_pct p;
  pk_target : tbp_target_buffer_pct p < 10 ^ 6;
  pk_cap : 0 < tbp_max_recommendation_pct_of_target p <= 10 ^ 6;
  pk_currency : tbp_currency p ∈ ["NGN"; "KES"; "ZAR"]
}.


Lemma power_finite k : 0 <= k < 900 → finite_value (2 ^ k * quantum).
Proof.
  intros Hk. unfold finite_value, overflow. rewrite Z.abs_eq by (pose proof (pow_pos k); pose proof quantum_pos; nia). split.
  - exists 1, (k + 1074). unfold quantum. rewrite Z.pow_add_r by lia. split; [lia|]. split; [lia|]. vm_compute. split; congruence.
  - apply Z.mul_lt_mono_pos_r; [apply quantum_pos|]. apply Z.pow_lt_mono_r; lia.
Qed.

(** An amount of scale [k] reads as a number below [2^b]. *)
Lemma numeric_number k v b : 0 <= b < 900 → 0 <= v <= 2 ^ b * 10 ^ Z.of_nat k →
  ∃ x, js_Number (numeric_text k v) = Fin x ∧ 0 <= x <= 2 ^ b * quantum ∧ finite_value x.
Proof.
  intros Hb Hv. rewrite js_Number_numeric by lia. unfold of_decimal.
  pose proof (ten_pos (- - Z.of_nat k)) as Hp. pose proof quantum_pos. pose proof (pow_pos b ltac:(lia)).
  rewrite (Z.max_r (- Z.of_nat k) 0), Z.pow_0_r, Z.mul_1_r, Z.opp_involutive, Z.max_l in * by lia.
  destruct (of_quanta_below (v * quantum) (10 ^ Z.of_nat k) (2 ^ b * quantum)) as (x & Hx & Hb'); [nia..|by apply power_finite|nia|].
  exists x. split; [done|]. split; [done|]. eapply of_quanta_finite; [|exact Hx]. done.
Qed.

(** A fraction of a number. *)
Lemma mul_fraction x y : 0 <= x → finite_value x → 0 <= y <= quantum → ∃ z, mul (Fin x) (Fin y) = Fin z ∧ 0 <= z <= x ∧ finite_value z.
Proof.
  intros Hx Hf Hy. pose proof quantum_pos. cbn [mul].
  destruct (of_quanta_below (x * y) quantum x) as (z & Hz & Hb); [nia|done|done|done|nia|].
  exists z. split; [done|]. split; [done|]. eapply of_quanta_finite; [|exact Hz]. done.
Qed.

Lemma one_quantum v : 0 <= v <= 10 ^ 6 → ∃ y, js_Number (numeric_text 6 v) = Fin y ∧ 0 <= y <= quantum ∧ finite_value y.
Proof. intros Hv. destruct (numeric_number 6 v 0) as (y & Hy & Hb & Hf); [lia..|]. rewrite Z.pow_0_r, Z.mul_1_l in Hb. by exists y. Qed.

Lemma policy_numbers p : policy_ok p → ∃ daily minimum target cap,
  policy_daily p = Fin daily ∧ policy_minimum p = Fin minimum ∧ policy_target p = Fin target ∧ policy_cap p = Fin cap ∧
  0 <= minimum <= target ∧ 0 <= cap <= target ∧ finite_value minimum ∧ finite_value target ∧ finite_value cap.
Proof.
  intros [Hd Hm Ht Hc _]. unfold policy_cap, policy_target, policy_minimum, policy_daily.
  destruct (numeric_number 12 (tbp_approved_daily_outflow p) 100) as (D & HD & HDb & HDf); [lia..|]. rewrite HD.
  destruct (one_quantum (tbp_minimum_buffer_pct p)) as (x & Hx & Hxb & _); [lia|]. rewrite Hx.
  destruct (one_quantum (tbp_target_buffer_pct p)) as (y & Hy & Hyb & _); [lia|]. rewrite Hy.
  destruct (one_quantum (tbp_max_recommendation_pct_of_target p)) as (z & Hz & Hzb & _); [lia|]. rewrite Hz.
  destruct (mul_fraction D x) as (m & Hm' & Hmb & Hmf); [lia|done|done|]. destruct (mul_fraction D y) as (t & Ht' & Htb & Htf); [lia|done|done|].
  rewrite Ht'. destruct (mul_fraction t z) as (c & Hc' & Hcb & Hcf); [lia|done|done|].
  exists D, m, t, c. split_and!; try done; try lia.
  assert (Hxy : x <= y).
  { rewrite js_Number_numeric in Hx, Hy by lia. eapply of_decimal_mono; [|unfold decimal_le|exact Hx|exact Hy]; [lia|].
    pose proof (ten_pos (- Z.of_nat 6)). pose proof (ten_pos (- - Z.of_nat 6)). nia. }
  eapply of_quanta_mono; [| | | |exact Hm'|exact Ht']; [apply Z.mul_nonneg_nonneg; lia|apply quantum_pos..|].
  pose proof quantum_pos. apply Z.mul_le_mono_nonneg_r; [lia|]. apply Z.mul_le_mono_nonneg_l; lia.
Qed.

(** ** Proposing *)

#[export] Instance recommendations_laws : TableLaws treasury_recommendations.
Proof. table_laws. Qed.

(** What a proposal needs: the evidence [available] and [gap] are the numbers
    behind the texts. *)
Record proposable (E : env) (i : recommendation_input) (id : uuid) (d : db) (p : treasury_buffer_policy) (available gap : Z) : Prop := {
  pb_policy : treasury_buffer_policies d !! rci_bufferPolicyId i = Some p;
  pb_active : policy_active (app_now E) p = true;
  pb_fresh : 0 <= app_now E - rci_reconciledAt i <= 86400000;
  pb_expiry : app_now E < rci_expiresAt i;
  pb_clock : db_now E < pg_of_js (rci_expiresAt i);
  pb_available : js_Number (rci_reconciledAvailableBalance i) = Fin available;
  pb_gap : js_Number (rci_verifiedNearTermFundingGap i) = Fin gap;
  pb_signs : 0 <= available ∧ 0 <= gap;
  pb_available_fits : numeric_of_number 12 available < 10 ^ 30;
  pb_gap_fits : numeric_of_number 12 gap < 10 ^ 30;
  pb_target_fits : ∀ t, policy_target p = Fin t → numeric_of_number 12 t < 10 ^ 30;
  pb_id : treasury_recommendations d !! id = None
}.

(** The row a proposal adds. *)
Record proposed (i : recommendation_input) (E : env) (a : actor) (p : treasury_buffer_policy) (available gap : Z) (r : treasury_recommendation) : Prop := {
  pp_status : trr_status r = RecProposed ∧ trr_decided_by r = None;
  pp_by : trr_proposed_by r = a_openId a;
  pp_policy : trr_buffer_policy_id r = rci_bufferPolicyId i ∧ trr_corridor r = tbp_corridor p ∧ trr_currency r = tbp_currency p;
  pp_evidence : trr_reconciled_available_balance r = numeric_of_number 12 available ∧ trr_verified_near_term_funding_gap r = numeric_of_number 12 gap;
  pp_buffers : 0 <= trr_minimum_buffer_amount r <= trr_target_buffer_amount r;
  pp_gap : 0 <= trr_computed_recommendation_amount r <= trr_verified_near_term_funding_gap r;
  pp_target : trr_computed_recommendation_amount r <= trr_target_buffer_amount r;
  pp_funded : ∀ t, policy_target p = Fin t → t <= available → trr_computed_recommendation_amount r = 0
}.

Lemma finite_all_six a b c e f g vs : finite_all [a; b; c; e; f; g] = Some vs ↔
  ∃ a' b' c' e' f' g', vs = [a'; b'; c'; e'; f'; g'] ∧ a = Fin a' ∧ b = Fin b' ∧ c = Fin c' ∧ e = Fin e' ∧ f = Fin f' ∧ g = Fin g'.
Proof.
  split.
  - destruct a as [a'| |], b as [b'| |], c as [c'| |], e as [e'| |], f as [f'| |], g as [g'| |]; try done. intros [= <-].
    by exists a', b', c', e', f', g'.
  - intros (a' & b' & c' & e' & f' & g' & -> & -> & -> & -> & -> & -> & ->). done.
Qed.

Lemma proposed_row E a i p available gap : policy_ok p → finite_value available → finite_value gap → 0 <= available → 0 <= gap →
  ∃ minimum target cap amount, policy_minimum p = Fin minimum ∧ policy_target p = Fin target ∧ policy_cap p = Fin cap ∧
    (∃ daily, policy_daily p = Fin daily) ∧
    recommended (policy_target p) (Fin available) (policy_cap p) (Fin gap) = Fin amount ∧
    proposed i E a p available gap (recommendation_row E a i p available gap minimum target amount) ∧
    numeric_of_number 12 minimum <= numeric_of_number 12 target.
Proof.
  intros Hp Hav Hgf H0 H0g. destruct (policy_numbers p Hp) as (D & m & t & c & HD & Hm & Ht & Hc & Hmt & Hct & Fm & Ft & Fc).
  destruct (recommended_spec t available c gap) as (x & Hx & Fx & Hxg & Hxc & Hxt & Hxz); try done; try lia.
  pose proof (numeric_of_number_mono 12 m t ltac:(lia) Fm Ft Hmt) as M1.
  pose proof (numeric_of_number_mono 12 x gap ltac:(lia) Fx Hgf Hxg) as M2.
  pose proof (numeric_of_number_mono 12 x t ltac:(lia) Fx Ft ltac:(lia)) as M3.
  exists m, t, c, x. rewrite Ht, Hc. split_and!; try done; [by exists D| |lia].
  split; cbn [recommendation_row trr_status trr_decided_by trr_proposed_by trr_buffer_policy_id trr_corridor trr_currency trr_reconciled_available_balance
    trr_verified_near_term_funding_gap trr_minimum_buffer_amount trr_target_buffer_amount trr_computed_recommendation_amount]; try done; try lia.
  intros t' Ht' Hta. assert (t' = t) as -> by congruence. rewrite (Hxz Hta). apply numeric_of_zero.
Qed.

Lemma fits_nonneg v : 0 <= v → fits_numeric_30_12 v = true ↔ v < 10 ^ 30.
Proof. intros Hv. unfold fits_numeric_30_12. rewrite Z.abs_eq by done. apply Z.ltb_lt. Qed.

Lemma numeric_nonneg v : finite_value v → 0 <= v → 0 <= numeric_of_number 12 v.
Proof. intros Hf Hv. by apply (numeric_of_number_mono 12 v v). Qed.

(** The policies of a database satisfy their table's constraints. *)
Definition policies_ok (d : db) : Prop := ∀ k p, treasury_buffer_policies d !! k = Some p → policy_ok p.

Lemma recommendation_effect E a id i d r d' : policies_ok d → createPostgresTreasuryRecommendation E a id i d = (r, d') →
  (d' = d ∧ is_ok r = false) ∨
  ∃ p available gap row, proposable E i id d p available gap ∧ proposed i E a p available gap row ∧ is_ok r = true ∧
    treasury_recommendations d' = <[id := row]> (treasury_recommendations d) ∧ treasury_buffer_policies d' = treasury_buffer_policies d ∧
    log_extends d d'.
Proof.
  intros Hpol. destruct r as [r|e]; intros H; [right|left; by apply transaction_throw in H as [_ ->]].
  apply transaction_ok in H. apply tx_bind_ok in H as (f & d1 & [<- ->]%gets_ok & H).
  apply tx_bind_ok in H as (p & d1 & [Hf ->]%require_ok & H).
  destruct (treasury_buffer_policies d !! rci_bufferPolicyId i) as [p0|] eqn:Hp; [|done]. simpl in Hf.
  destruct (policy_active (app_now E) p0) eqn:Hact; simplify_eq.
  apply tx_bind_ok in H as (u1 & d1 & [Hfr ->]%throw_if_ok & H). apply tx_bind_ok in H as (u2 & d1 & [Hex ->]%throw_if_ok & H).
  cbv zeta in H. apply tx_bind_ok in H as (vs & d1 & [Hvs ->]%require_ok & H).
  destruct (finite_all _) as [vs'|] eqn:Hfa; [|done]. cbn [mbind option_bind] in Hvs.
  destruct (lt (js_Number (rci_reconciledAvailableBalance i)) (Fin 0) || lt (js_Number (rci_verifiedNearTermFundingGap i)) (Fin 0)) eqn:Hneg;
    simplify_eq.
  apply finite_all_six in Hfa as (av & gp & D & m & t & c & -> & Ha & Hg & HD & Hm & Ht & Hc).
  rewrite Ha, Hg in Hneg, H. cbn [lt] in Hneg. unbool.
  destruct (proposed_row E a i p av gp (Hpol _ _ Hp)) as (m' & t' & c' & x & Hm' & Ht' & Hc' & _ & Hx & Hrow & Hmt);
    [by eapply js_Number_finite|by eapply js_Number_finite|lia..|].
  rewrite Hx in H. simplify_eq. apply tx_bind_ok in H as (u3 & d2 & (Hck & Hn & _ & _ & ->)%insert_row_ok & H).
  apply tx_bind_ok in H as (u4 & d3 & ->%modify_ok & [-> ->]%mret_ok).
  assert (m' = m ∧ t' = t) as [-> ->] by (split; congruence).
  cbn [checks rules_recommendations] in Hck. rewrite !Forall_cons in Hck. destruct Hck as (K1 & K2 & _ & K4 & _ & _ & K7 & K8 & _ & _ & _ & K12 & _).
  cbn [fst recommendation_row trr_reconciled_available_balance trr_verified_near_term_funding_gap trr_target_buffer_amount trr_proposed_at trr_expires_at] in *.
  exists p, av, gp, (recommendation_row E a i p av gp m t x). split_and!; try done; [|unfold log_extends; simpl; by apply prefix_app_r].
  apply Z.leb_le in K7, K8. apply fits_nonneg in K1, K2; try done.
  assert (0 <= numeric_of_number 12 t) by (destruct Hrow as [_ _ _ _ Hb _ _ _]; simpl in Hb; lia). apply fits_nonneg in K4; [|done].
  split; try done; try lia. intros t2 Ht2. assert (t2 = t) as -> by congruence. done.
Qed.

Lemma recommendation_run E a id i d p available gap : policy_ok p → proposable E i id d p available gap →
  is_ok (createPostgresTreasuryRecommendation E a id i d).1 = true.
Proof.
  intros Hp [H1 H2 H3 H4 H5 H6 H7 [H8 H8'] H9 H10 H11 H12].
  pose proof (js_Number_finite _ _ H6) as Fa. pose proof (js_Number_finite _ _ H7) as Fg.
  destruct (proposed_row E a i p available gap Hp Fa Fg H8 H8') as (m & t & c & x & Hm & Ht & Hc & [D HD] & Hx & Hrow & Hmt).
  assert (∃ q d', createPostgresTreasuryRecommendation E a id i d = (Ok q, d')) as (q & d' & ->); [|done].
  eexists _, _. apply transaction_ok. eapply tx_bind_run; [apply gets_run|]. cbv beta. rewrite H1.
  eapply tx_bind_run; [apply require_run; simpl; by rewrite H2|]. eapply tx_bind_run; [apply throw_if_run; lia|].
  eapply tx_bind_run; [apply throw_if_run; lia|]. cbv zeta. rewrite H6, H7.
  eapply (tx_bind_run _ _ _ [available; gap; D; m; t; c]).
  { apply require_run. rewrite (proj2 (finite_all_six _ _ _ _ _ _ [available; gap; D; m; t; c])) by (by eexists _, _, _, _, _, _).
    cbn [mbind option_bind lt]. by rewrite !(proj2 (Z.ltb_ge _ _)) by lia. }
  rewrite Hx. eapply (tx_bind_run _ _ _ tt).
  { apply insert_row_ok. split_and!; [|done|by apply Forall_nil| |reflexivity].
    - destruct Hrow as [_ _ _ _ R1 R2 R3 _]. pose proof (numeric_nonneg _ Fa H8). pose proof (numeric_nonneg _ Fg H8'). pose proof (H11 t Ht).
      cbn [recommendation_row trr_minimum_buffer_amount trr_target_buffer_amount trr_computed_recommendation_amount trr_verified_near_term_funding_gap] in R1, R2, R3.
      cbn [checks rules_recommendations]. rewrite !Forall_cons.
      cbn [fst recommendation_row trr_reconciled_available_balance trr_verified_near_term_funding_gap trr_minimum_buffer_amount trr_target_buffer_amount
        trr_computed_recommendation_amount trr_proposed_at trr_expires_at trr_currency].
      split_and!; try (apply fits_nonneg; lia); try (apply Z.leb_le; lia); try (apply Z.ltb_lt; lia); try done.
      apply bool_decide_eq_true. apply Hp.
    - cbn [references rules_recommendations]. rewrite Forall_cons. split; [apply bool_decide_eq_true; by exists p|by apply Forall_nil]. }
  eapply tx_bind_run; [apply modify_run|]. done.
Qed.

(** ** Deciding *)

Lemma decide_effect E a id decision reason d r d' : decidePostgresTreasuryRecommendation E a id decision reason d = (r, d') →
  (d' = d ∧ is_ok r = false) ∨
  ∃ r0, treasury_recommendations d !! id = Some r0 ∧ trr_status r0 = RecProposed ∧ trr_proposed_by r0 ≠ a_openId a ∧
    app_now E < js_of_pg (trr_expires_at r0) ∧ decision ∈ [RecApproved; RecRejected] ∧ r = Ok (id, decision) ∧
    treasury_recommendations d' = <[id := decided_recommendation E a decision reason r0]> (treasury_recommendations d) ∧
    treasury_buffer_policies d' = treasury_buffer_policies d ∧ log_extends d d'.
Proof.
  destruct r as [r|e]; intros H; [right|left; by apply transaction_throw in H as [_ ->]].
  apply transaction_ok in H. apply tx_bind_ok in H as (f & d1 & [<- ->]%gets_ok & H).
  apply tx_bind_ok in H as (r0 & d1 & [Hf ->]%require_ok & H).
  destruct (treasury_recommendations d !! id) as [r1|] eqn:Hr; [|done]. simpl in Hf.
  destruct (bool_decide (trr_status r1 = RecProposed)) eqn:Hst; simplify_eq. apply bool_decide_eq_true in Hst.
  apply tx_bind_ok in H as (u1 & d1 & [Hby%bool_decide_eq_false ->]%throw_if_ok & H).
  apply tx_bind_ok in H as (u2 & d1 & [Hex%Z.leb_gt ->]%throw_if_ok & H).
  apply tx_bind_ok in H as (u3 & d2 & Hup & H). apply tx_bind_ok in H as (u4 & d3 & ->%modify_ok & [-> ->]%mret_ok).
  apply (update_checked_ok _ _ _ _ _ _ _ _ Hr) in Hup as (Hck & _ & ->).
  cbn [checks rules_recommendations] in Hck. rewrite !Forall_cons in Hck. destruct Hck as (_ & _ & _ & _ & _ & _ & _ & _ & _ & _ & _ & _ & Hd & _).
  exists r0. split_and!; try done; [|unfold log_extends; simpl; by apply prefix_app_r].
  cbn in Hd. apply Bool.eqb_prop in Hd. by apply includes_true.
Qed.

(** ** Runs *)

(** Elsewhere recommendations are left alone and policies keep their
    constraints. *)
Inductive treasury_step : relation db :=
  | ts_propose E a id i d : treasury_step d (createPostgresTreasuryRecommendation E a id i d).2
  | ts_decide E a id decision reason d : treasury_step d (decidePostgresTreasuryRecommendation E a id decision reason d).2
  | ts_elsewhere d d' : treasury_recommendations d' = treasury_recommendations d → policies_ok d' → treasury_step d d'.

(** A recommendation is bounded by its evidence; a decided one was decided by
    somebody else. *)
Record recommendation_ok (r : treasury_recommendation) : Prop := {
  ro_gap : 0 <= trr_computed_recommendation_amount r <= trr_verified_near_term_funding_gap r;
  ro_target : trr_computed_recommendation_amount r <= trr_target_buffer_amount r;
  ro_buffers : 0 <= trr_minimum_buffer_amount r <= trr_target_buffer_amount r;
  ro_status : (trr_status r = RecProposed ∧ trr_decided_by r = None) ∨
    (trr_status r ∈ [RecApproved; RecRejected] ∧ ∃ by_, trr_decided_by r = Some by_ ∧ by_ ≠ trr_proposed_by r)
}.
(** Everything but the decision. *)
Definition recommendation_terms (r : treasury_recommendation) : treasury_recommendation :=
  r <| trr_status := RecProposed |> <| trr_decided_by := None |> <| trr_decided_at := None |> <| trr_decision_reason := None |>.
Definition recommendations_kept (d d' : db) : Prop :=
  ∀ k r, treasury_recommendations d !! k = Some r → ∃ r', treasury_recommendations d' !! k = Some r' ∧
    recommendation_terms r' = recommendation_terms r ∧ (trr_status r ≠ RecProposed → r' = r).
#[local] Instance recommendations_kept_preorder : PreOrder recommendations_kept.
Proof.
  split; [intros d k r Hk; by exists r|]. intros d1 d2 d3 H1 H2 k r Hk. destruct (H1 k r Hk) as (r2 & Hk2 & E2 & F2).
  destruct (H2 k r2 Hk2) as (r3 & Hk3 & E3 & F3). exists r3. split; [done|]. split; [congruence|]. intros Hs. specialize (F2 Hs). subst r2. auto.
Qed.

Definition treasury_ok (d : db) : Prop := policies_ok d ∧ ∀ k r, treasury_recommendations d !! k = Some r → recommendation_ok r.

Lemma treasury_step_ok d d' : treasury_step d d' → treasury_ok d → treasury_ok d' ∧ recommendations_kept d d'.
Proof.
  intros Hs [Hp Hr]. assert (Hid : recommendations_kept d d) by reflexivity.
  destruct Hs as [E a id i d|E a id dec reason d|d d' Er Hp'].
  - destruct (createPostgresTreasuryRecommendation E a id i d) as [r d'] eqn:H. simpl.
    apply recommendation_effect in H as [[-> _]|(p & av & gp & row & Hpb & Hrow & _ & Ht & Hpol & _)]; [done| |done]. split; [split|].
    + unfold policies_ok. by rewrite Hpol.
    + rewrite Ht. intros k x [[_ <-]|[_ Hx]]%lookup_insert_Some; [|by eapply Hr]. destruct Hrow. split; try done. by left.
    + intros k x Hx. exists x. rewrite Ht, lookup_insert_ne; [done|]. intros ->. destruct Hpb. congruence.
  - destruct (decidePostgresTreasuryRecommendation E a id dec reason d) as [r d'] eqn:H. simpl.
    apply decide_effect in H as [[-> _]|(r0 & Hr0 & Hst & Hby & _ & Hdec & _ & Ht & Hpol & _)]; [done|]. split; [split|].
    + unfold policies_ok. by rewrite Hpol.
    + rewrite Ht. intros k x [[_ <-]|[_ Hx]]%lookup_insert_Some; [|by eapply Hr]. destruct (Hr _ _ Hr0). split; try done.
      right. split; [done|]. exists (a_openId a). done.
    + intros k x Hx. destruct (decide (id = k)) as [<-|Hne].
      * exists (decided_recommendation E a dec reason r0). rewrite Ht, lookup_insert_eq. simplify_eq. done.
      * exists x. by rewrite Ht, lookup_insert_ne.
  - split; [split; [done|by rewrite Er]|]. intros k x Hx. exists x. by rewrite Er.
Qed.

Lemma treasury_run_ok d d' : rtc treasury_step d d' → treasury_ok d → treasury_ok d' ∧ recommendations_kept d d'.
Proof.
  induction 1 as [|d1 d2 d3 Hs _ IH]; intros Hok; [done|]. destruct (treasury_step_ok _ _ Hs Hok) as [H2 K2].
  destruct (IH H2) as [H3 K3]. split; [done|by etrans].
Qed.

(** C34. A recommendation never asks for more than its evidence and is decided
    once, by somebody else. Whatever the decimal evidence, and although the
    arithmetic is on doubles, on every run: the stored amount is not negative
    and at most the stored funding gap and the stored target, the minimum buffer
    at most the target; a decided recommendation was decided by another operator
    than its proposer, before it expired, and never changes again; its terms
    never change at all. A proposal succeeds exactly under an active policy,
    with non-negative finite evidence reconciled within a day, an expiry to come
    and amounts that fit their columns; it is zero once the balance reaches the
    target. *)
Theorem recommendations_bounded d0 d1 : treasury_ok d0 → rtc treasury_step d0 d1 →
  treasury_ok d1 ∧ recommendations_kept d0 d1 ∧
  (∀ E a id i r d2, createPostgresTreasuryRecommendation E a id i d1 = (r, d2) →
    (∃ p available gap row, proposable E i id d1 p available gap ∧ proposed i E a p available gap row ∧ is_ok r = true ∧
       treasury_recommendations d2 = <[id := row]> (treasury_recommendations d1)) ∨
    (is_ok r = false ∧ d2 = d1 ∧ ∀ p available gap, ~ proposable E i id d1 p available gap)) ∧
  (∀ E a id decision reason r d2, decidePostgresTreasuryRecommendation E a id decision reason d1 = (r, d2) → is_ok r = true →
    ∃ r0, treasury_recommendations d1 !! id = Some r0 ∧ trr_status r0 = RecProposed ∧ trr_proposed_by r0 ≠ a_openId a ∧
      app_now E < js_of_pg (trr_expires_at r0)).
Proof.
  intros Hok Hrun. destruct (treasury_run_ok _ _ Hrun Hok) as [H1 K1]. split_and!; [done..| |].
  - intros E a id i r d2 H. pose proof H as H'. apply recommendation_effect in H' as [[-> Hr]|(p & av & gp & row & Hp & Hrow & Hr & Ht & _)];
      [right|left; by exists p, av, gp, row|apply H1].
    split_and!; [done..|]. intros p av gp Hp. pose proof (recommendation_run E a id i d1 p av gp) as Hrun'. rewrite H in Hrun'. simpl in Hrun'.
    rewrite Hrun' in Hr; [done|by eapply (proj1 H1), Hp|done].
  - intros E a id dec reason r d2 [[_ Hr]|(r0 & ? & ? & ? & ? & _)]%decide_effect Hok'; [congruence|]. by exists r0.
Qed.

(** ** Spread *)

#[local] Instance number_le_total : Total number_le.
Proof. intros x y. unfold number_le. destruct x as [a|[]|], y as [b|[]|]; cbn [lt]; try (by left); try (by right). lia. Qed.

(** Sorted finite numbers. *)
Lemma sorted_fin l : Sorted number_le (Fin <$> l) → StronglySorted Z.le l.
Proof.
  intros Hs. apply Sorted_StronglySorted; [intros x y z; lia|]. induction l as [|v l IH]; [constructor|].
  apply Sorted_inv in Hs as [Hs Hh]. constructor; [by apply IH|]. destruct l as [|w l]; constructor.
  apply HdRel_inv in Hh. unfold number_le in Hh. cbn [lt] in Hh. lia.
Qed.
Lemma sorted_last l hi : StronglySorted Z.le l → last l = Some hi → ∀ v, v ∈ l → v <= hi.
Proof.
  induction l as [|x l IH]; [done|]. intros [Hs Hall]%StronglySorted_inv Hl v Hv. rewrite Forall_forall in Hall.
  destruct l as [|y l]; [injection Hl as <-; by apply list_elem_of_singleton in Hv as ->|].
  apply elem_of_cons in Hv as [->|Hv]; [|by apply IH]. transitivity y; [apply Hall; left|apply IH; [done..|left]].
Qed.
Lemma sorted_bounds l lo hi : StronglySorted Z.le l → head l = Some lo → last l = Some hi → ∀ v, v ∈ l → lo <= v <= hi.
Proof.
  intros Hs Hh Hl v Hv. split; [|by eapply sorted_last]. destruct l as [|x l]; [done|]. injection Hh as ->.
  apply StronglySorted_inv in Hs as [_ Hall]. rewrite Forall_forall in Hall. apply elem_of_cons in Hv as [->|Hv]; [done|by apply Hall].
Qed.

Definition rates_ok (d : db) : Prop := ∀ k r, market_observations d !! k = Some r → 0 < mo_rate r < 10 ^ 30.
Definition observed_rate (r : market_observation) : number := js_Number (numeric_text 12 (mo_rate r)).
Definition window_rows (base quote : asset) (start stop : Z) (prefix : option string) (d : db) : list market_observation :=
  (select (λ _ r, in_window base quote start stop prefix r) (market_observations d)).*2.

Lemma observed_fin d base quote start stop prefix r : rates_ok d → r ∈ window_rows base quote start stop prefix d →
  ∃ v, observed_rate r = Fin v ∧ 0 <= v <= 2 ^ 100 * quantum ∧ finite_value v.
Proof.
  intros Hr ([k x] & -> & [Hk _]%elem_of_select)%list_elem_of_fmap. destruct (Hr k x Hk) as [H1 H2].
  apply (numeric_number 12 (mo_rate x) 100); [lia|]. split; [simpl in *; lia|]. simpl in *. etrans; [apply Z.lt_le_incl, H2|vm_compute; congruence].
Qed.

(** All of a list are finite numbers. *)
Lemma all_fin {A} (f : A → number) (P : Z → Prop) l : (∀ r, r ∈ l → ∃ v, f r = Fin v ∧ P v) → ∃ vs, f <$> l = Fin <$> vs ∧ Forall P vs.
Proof.
  induction l as [|r l IH]; intros H; [by exists []|]. destruct (H r) as (v & Hv & HP); [left|].
  destruct IH as (vs & E & Hvs); [intros; apply H; by right|]. exists (v :: vs). rewrite !fmap_cons, E, Hv. by rewrite Forall_cons.
Qed.

(** The middle of two numbers lies between them. *)
Lemma midpoint b a : finite_value b → finite_value a → 0 <= b <= a → a <= 2 ^ 100 * quantum →
  ∃ m, div (add (Fin b) (Fin a)) (js_Number "2") = Fin m ∧ b <= m <= a.
Proof.
  intros Fb Fa Hba Ha. assert (H2 : js_Number "2" = Fin (2 * quantum)) by (vm_compute; reflexivity). rewrite H2. clear H2.
  pose proof quantum_pos as Hq. cbn [add].
  destruct (of_quanta_below (b + a) 1 (2 ^ 101 * quantum)) as (s & Hs & Hsb); [lia|lia|lia|apply power_finite; lia|lia|]. rewrite Hs.
  assert (Fdouble : ∀ v, 0 <= v <= 2 ^ 100 * quantum → finite_value v → of_quanta (2 * v) 1 = Fin (2 * v)).
  { intros v Hv [(m & k & E & Hk & Hm) _]. rewrite <- (Z.mul_1_r (2 * v)) at 1. apply of_quanta_id; [lia|]. rewrite Z.abs_eq in E by lia. split.
    - exists m, (k + 1). rewrite Z.abs_eq, E, Z.pow_add_r by lia. split; [ring|]. lia.
    - rewrite Z.abs_eq by lia. assert (2 ^ 101 * quantum < overflow); [|lia]. unfold overflow. apply Z.mul_lt_mono_pos_r; [done|]. apply Z.pow_lt_mono_r; lia. }
  assert (L : 2 * b <= s) by (eapply of_quanta_mono; [| | | |apply (Fdouble b); [lia|done]|exact Hs]; lia).
  assert (U : s <= 2 * a) by (eapply of_quanta_mono; [| | | |exact Hs|apply (Fdouble a); [lia|done]]; lia).
  cbn [div]. rewrite (proj2 (Z.eqb_neq _ _)), Z.sgn_pos, Z.mul_1_l, (Z.abs_eq (2 * quantum)) by lia.
  destruct (of_quanta_below (s * quantum) (2 * quantum) a) as (m & Hm & Hmb); [nia|lia|lia|done|nia|]. exists m. split; [done|]. split; [|lia].
  eapply (of_quanta_mono (b * (2 * quantum)) (2 * quantum) (s * quantum) (2 * quantum)); [nia|lia|lia|nia| |exact Hm]. apply of_quanta_id; [lia|done].
Qed.

(** The spread the code returns: the extremes of the observed rates and the
    middle between them. *)
Definition observed_spread (rows : list market_observation) (s : SpreadResult) : Prop :=
  ∃ bid mid ask lo hi,
    sp_bid s = js_String (Fin bid) ∧ sp_mid s = js_String (Fin mid) ∧ sp_ask s = js_String (Fin ask) ∧
    lo ∈ rows ∧ hi ∈ rows ∧ observed_rate lo = Fin bid ∧ observed_rate hi = Fin ask ∧ bid <= mid <= ask ∧
    (∀ r, r ∈ rows → ∃ v, observed_rate r = Fin v ∧ bid <= v <= ask) ∧
    sp_observationCount s = Z.of_nat (length rows).

Lemma distinct_le (rows : list market_observation) : (length (remove_dups (mo_source_reference <$> rows)) ≤ length rows)%nat.
Proof.
  rewrite <- (length_fmap mo_source_reference rows). apply submseteq_length, NoDup_submseteq; [apply NoDup_remove_dups|].
  intros x. by rewrite elem_of_remove_dups.
Qed.

(** The sorted rates of a non-empty window. *)
Lemma sorted_rates d base quote start stop prefix : rates_ok d → window_rows base quote start stop prefix d ≠ [] →
  ∃ b a, let rates := merge_sort number_le (observed_rate <$> window_rows base quote start stop prefix d) in
    head rates = Some (Fin b) ∧ last rates = Some (Fin a) ∧ Fin b ∈ rates ∧ Fin a ∈ rates ∧
    (∀ v, Fin v ∈ rates → b <= v <= a ∧ 0 <= v <= 2 ^ 100 * quantum ∧ finite_value v).
Proof.
  intros Hr Hne. set (rows := window_rows base quote start stop prefix d) in *.
  destruct (all_fin id (λ v, 0 <= v <= 2 ^ 100 * quantum ∧ finite_value v) (merge_sort number_le (observed_rate <$> rows))) as (vs & E & Hvs).
  { intros x Hx. rewrite merge_sort_Permutation in Hx. apply list_elem_of_fmap in Hx as (r & -> & Hx). by eapply observed_fin. }
  rewrite list_fmap_id in E. assert (Hs : StronglySorted Z.le vs) by (apply sorted_fin; rewrite <- E; apply Sorted_merge_sort, _).
  assert (Hlen : vs ≠ []).
  { intros ->. pose proof (merge_sort_Permutation number_le (observed_rate <$> rows)) as Hp. rewrite E in Hp.
    apply Permutation_nil_l in Hp. symmetry in Hp. by apply fmap_nil_inv in Hp. }
  cbv zeta. rewrite E. destruct (last vs) as [a|] eqn:Ha; [|by apply last_None in Ha]. destruct vs as [|b vs]; [done|].
  exists b, a. rewrite fmap_last, Ha. split_and!; [done|done| | |].
  - apply list_elem_of_fmap_2. left.
  - apply list_elem_of_fmap_2. by apply last_Some_elem_of.
  - intros v (w & [= ->] & Hw)%list_elem_of_fmap. split; [by eapply sorted_bounds|]. rewrite Forall_forall in Hvs. by apply Hvs.
Qed.

(** The spread is the one the recorded market showed. For any recorded
    positive rates: the code answers null exactly when the window holds fewer
    than two distinct sources; otherwise the bid and the ask are rates some
    observations in the window have, every rate in it lies between them, and so
    does the mid although the sum and the halving are rounded; the count is the
    number of observations and the sources are the distinct ones, each once and
    in order. *)
Theorem spread_is_observed clock base quote now minutes prefix d : rates_ok d →
  let stop := default clock (pg_of_js <$> now) in
  let rows := window_rows base quote (stop - default 60 minutes * 60000000) stop prefix d in
  match computePostgresFxSpread clock base quote now minutes prefix d with
  | None => (length (remove_dups (mo_source_reference <$> rows)) < 2)%nat
  | Some s => observed_spread rows s ∧ (2 ≤ length (sp_sourceReferences s))%nat ∧ NoDup (sp_sourceReferences s) ∧
      Sorted string_le (sp_sourceReferences s) ∧ (∀ x, x ∈ sp_sourceReferences s ↔ ∃ r, r ∈ rows ∧ mo_source_reference r = x)
  end.
Proof.
  intros Hr stop rows. unfold computePostgresFxSpread. fold stop. cbv zeta. fold (window_rows base quote (stop - default 60 minutes * 60000000) stop prefix d).
  fold rows. pose proof (distinct_le rows) as Hle. destruct (_ || _) eqn:Hsmall.
  { apply orb_true_iff in Hsmall as [?%Nat.ltb_lt|?%Nat.ltb_lt]; lia. }
  apply orb_false_iff in Hsmall as [H1%Nat.ltb_ge H2%Nat.ltb_ge].
  destruct (sorted_rates d base quote (stop - default 60 minutes * 60000000) stop prefix Hr) as (b & a & Hb & Ha & Ib & Ia & Hall).
  { fold rows. intros E. rewrite E in H1. simpl in H1. lia. }
  fold rows in Hb, Ha, Ib, Ia, Hall. unfold observed_rate in Hb, Ha at 1. rewrite Hb. cbn [mbind option_bind]. rewrite Ha. cbn [mbind option_bind].
  destruct (Hall b Ib) as (Bb & Rb & Fb), (Hall a Ia) as (Ba & Ra & Fa).
  destruct (midpoint b a) as (m & Hm & Hbm); [done|done|lia|lia|]. rewrite Hm.
  cbn [sp_sourceReferences]. split_and!.
  - assert (Hin : ∀ v, Fin v ∈ merge_sort number_le (observed_rate <$> rows) → ∃ r, r ∈ rows ∧ observed_rate r = Fin v).
    { intros v Hv. rewrite merge_sort_Permutation in Hv. apply list_elem_of_fmap in Hv as (r & E & Hv). by exists r. }
    destruct (Hin b Ib) as (lo & ? & ?), (Hin a Ia) as (hi & ? & ?). exists b, m, a, lo, hi. split_and!; try done; [lia|lia|].
    intros r Hrow. destruct (observed_fin _ _ _ _ _ _ _ Hr Hrow) as (v & Hv & _). exists v. split; [done|].
    apply Hall. rewrite merge_sort_Permutation, <- Hv. by apply list_elem_of_fmap_2.
  - by rewrite merge_sort_Permutation.
  - rewrite merge_sort_Permutation. apply NoDup_remove_dups.
  - apply Sorted_merge_sort. intros x y. unfold string_le. destruct (String.leb_total x y); auto.
  - intros x. rewrite merge_sort_Permutation, elem_of_remove_dups, list_elem_of_fmap. naive_solver.
Qed.

(** ** A worked run *)

Definition treasurer : actor := mk_actor "treasury-1" RoleTreasuryOperator.
Definition controller : actor := mk_actor "treasury-2" RoleTreasuryOperator.
Definition treasury_env (t : Z) : env := mk_env (t * 1000) (t * 1000000) 0.
Definition naira_policy : treasury_buffer_policy :=
  mk_treasury_buffer_policy NIGERIA_NGN "NGN" "v1" (1000 * 10 ^ 12) 200000 600000 400000 500000 ["nostro"] 0 None.
Definition naira_evidence : recommendation_input :=
  mk_recommendation_input 1 "99.9" 3000 "bank-statement" "250.25" "payment-queue" 90000.

Definition treasury0 : db := empty_db <| treasury_buffer_policies := {[1%positive := naira_policy]} |>
  <| market_observations := {[
       1%positive := mk_market_observation 9 USD NGN 1500500000000000 3000000 "bank-a/1";
       2%positive := mk_market_observation 9 USD NGN 1499500000000000 4000000 "bank-b/1";
       3%positive := mk_market_observation 9 USD NGN 1500100000000000 5000000 "bank-a/1"]} |>.
Definition treasury1 : db := (createPostgresTreasuryRecommendation (treasury_env 4) treasurer 7 naira_evidence treasury0).2.
Definition treasury2 : db := (decidePostgresTreasuryRecommendation (treasury_env 5) controller 7 RecApproved "agreed" treasury1).2.

Lemma treasury0_ok : treasury_ok treasury0.
Proof.
  split; [|intros k r H; discriminate]. intros k p Hk. cbn in Hk. apply lookup_singleton_Some in Hk as [_ <-].
  split; cbn [naira_policy tbp_approved_daily_outflow tbp_minimum_buffer_pct tbp_target_buffer_pct tbp_max_recommendation_pct_of_target tbp_currency];
    [lia..|left].
Qed.
Lemma treasury2_run : rtc treasury_step treasury0 treasury2.
Proof.
  exact (rtc_l _ _ _ _ (ts_propose (treasury_env 4) treasurer 7 naira_evidence treasury0)
    (rtc_l _ _ _ _ (ts_decide (treasury_env 5) controller 7 RecApproved "agreed" treasury1) (rtc_refl _ treasury2))).
Qed.
Lemma treasury2_recommendation :
  (λ r, (trr_computed_recommendation_amount r, trr_status r)) <$> treasury_recommendations treasury2 !! 7%positive =
    Some (250250000000000, RecApproved).
Proof. vm_compute. reflexivity. Qed.

(** Witness of [recommendations_bounded]: the gap of 250.25 is recommended,
    approved by a second operator, and cannot be decided again. *)
Lemma recommendations_bounded_witness :
  (λ r, (trr_computed_recommendation_amount r, trr_status r)) <$> treasury_recommendations treasury2 !! 7%positive =
    Some (250250000000000, RecApproved) ∧
  is_ok (decidePostgresTreasuryRecommendation (treasury_env 6) controller 7 RecRejected "no" treasury2).1 = false.
Proof.
  split; [exact treasury2_recommendation|].
  pose proof (recommendations_bounded _ _ treasury0_ok treasury2_run) as (_ & _ & _ & H).
  destruct (decidePostgresTreasuryRecommendation _ _ _ _ _ _) as [r d2] eqn:Hd. cbn [fst].
  destruct (is_ok r) eqn:Hr; [|reflexivity]. destruct (H _ _ _ _ _ _ _ Hd Hr) as (r0 & H0 & Hs & _).
  pose proof treasury2_recommendation as Hx. rewrite H0 in Hx. cbn [fmap option_fmap option_map] in Hx. injection Hx as _ Hx. congruence.
Defined.

Lemma treasury0_rates : rates_ok treasury0.
Proof.
  intros k r Hk. cbn in Hk. rewrite !lookup_insert_Some, lookup_singleton_Some in Hk.
  destruct Hk as [[_ <-]|[_ [[_ <-]|[_ [_ <-]]]]]; cbn [mo_rate]; lia.
Qed.

Lemma treasury0_spread :
  (λ s, (sp_bid s, sp_mid s, sp_ask s, sp_spreadBasisPoints s, sp_sourceReferences s)) <$>
    computePostgresFxSpread 6000000 USD NGN None None None treasury0 =
  Some ("1499.5", "1500", "1500.5", "6.6667", ["bank-a/1"; "bank-b/1"]).
Proof. vm_compute. reflexivity. Qed.

(** Witness of [spread_is_observed]: three observations by two sources. *)
Lemma spread_is_observed_witness : ∃ s, computePostgresFxSpread 6000000 USD NGN None None None treasury0 = Some s ∧
  observed_spread (window_rows USD NGN (6000000 - 60 * 60000000) 6000000 None treasury0) s.
Proof.
  pose proof (spread_is_observed 6000000 USD NGN None None None treasury0 treasury0_rates) as H. pose proof treasury0_spread as Hs.
  destruct (computePostgresFxSpread _ _ _ _ _ _ _) as [s|]; [|discriminate Hs]. exists s. split; [reflexivity|]. exact (proj1 H).
Defined.
