(* ===== verification/Reporting.v ===== *)
(** * Legal entities, regulatory reports and counterparty risk reviews

    registerPostgresLegalEntity of legalEntityRegistry.ts, and the reporting and
    risk handlers of postgres.ts (lines 650 to 731). *)

From S2P Require Import Prelude Js Numeric Rows Schema Doubles.

Local Open Scope string_scope.
Local Open Scope Z_scope.

(** ** Legal entities *)

Definition rules_legal_entities : table_rules legal_entity := {|
  checks r := [(in_list ["Nigeria"; "Kenya"; "South Africa"] (le_jurisdiction r), CheckViolation "legal_entities_jurisdiction_check")];
  uniques t r := [unique (λ x, bool_decide (le_jurisdiction x = le_jurisdiction r) &&
      bool_decide (le_registration_identifier x = le_registration_identifier r))
    "legal_entities_jurisdiction_registration_identifier_key" t];
  references _ _ := [] |}.

Definition entity_taken (jurisdiction identifier : string) (x : legal_entity) : bool :=
  bool_decide (le_jurisdiction x = jurisdiction) && bool_decide (le_registration_identifier x = identifier).

Definition registerPostgresLegalEntity (E : env) (a : actor) (new_id : uuid) (legalName0 jurisdiction registrationIdentifier0 : string) :
    Act db (uuid * string * string) :=
  _ ← act_throw_if (negb (bool_decide (a_role a = RoleAdmin))) (JsError "Only an administrator may register a reporting legal entity");
  let legalName := trim legalName0 in
  let registrationIdentifier := trim registrationIdentifier0 in
  _ ← act_throw_if (js_length legalName <? 3) (JsError "Registered legal name is required");
  _ ← act_throw_if (js_length registrationIdentifier <? 3) (JsError "Registrar-issued registration identifier is required");
  transaction (
    taken ← gets (λ d, any (λ _ x, entity_taken jurisdiction registrationIdentifier x) (legal_entities d));
    _ ← throw_if taken (JsError "This registration identifier is already recorded for the jurisdiction");
    _ ← insert_row legal_entities "legal_entities" rules_legal_entities new_id
      (mk_legal_entity legalName jurisdiction registrationIdentifier (db_now E));
    _ ← insert_activity E a "legal_entity.registered" "legal_entity" (Some new_id)
      (JObj [("jurisdiction", JStr jurisdiction); ("registrationIdentifier", JStr registrationIdentifier)]);
    mret (new_id, legalName, jurisdiction)).

(** ** Regulatory reports *)

Definition review_states : list report_status := [RepUnderReview; RepApproved; RepPendingSubmission; RepSubmitted].

Definition rules_regulatory_reports : table_rules regulatory_report := {|
  checks r := [(in_list ["CBN"; "CBK"; "SARB"] (rr_regulator r), CheckViolation "regulatory_reports_regulator_check");
    (rr_period_start r <=? rr_period_end r, CheckViolation "regulatory_reports_check");
    (negb (includes review_states (rr_status r)) || (is_some (rr_artifact_uri r) && is_some (rr_evidence_manifest r)),
      CheckViolation "regulatory_reports_review_gate");
    (negb (bool_decide (rr_status r = RepSubmitted)) ||
       match rr_submission_reference r with Some s => 0 <? js_length (pg_trim s) | None => false end,
      CheckViolation "regulatory_reports_submission_gate")];
  uniques _ _ := [];
  references d r := [fk legal_entities "regulatory_reports_legal_entity_id_fkey" d (rr_legal_entity_id r)] |}.

Record report_input : Type := mk_report_input {
  rpi_regulator : string;
  rpi_corridor : corridor_code;
  rpi_reportType : string;
  rpi_periodStart : Z;
  rpi_periodEnd : Z;
  rpi_legalEntityId : uuid
}.

(** A [Date] sent to a DATE column is cut to the day it falls on where the
    server runs. *)
Definition draft_report (local_day : Z → Z) (E : env) (i : report_input) : regulatory_report :=
  mk_regulatory_report (rpi_regulator i) (rpi_corridor i) (rpi_reportType i) (local_day (rpi_periodStart i)) (local_day (rpi_periodEnd i))
    (rpi_legalEntityId i) RepDraft None None None (db_now E) None None None None None.

Definition createPostgresRegulatoryReport (local_day : Z → Z) (E : env) (a : actor) (new_id : uuid) (input : report_input) : Act db uuid :=
  _ ← act_throw_if (rpi_periodEnd input <? rpi_periodStart input) (JsError "Report period end must not precede period start");
  transaction (
    entity ← select_by_id legal_entities (rpi_legalEntityId input);
    _ ← require entity (JsError "Legal entity was not found");
    _ ← insert_row regulatory_reports "regulatory_reports" rules_regulatory_reports new_id (draft_report local_day E input);
    _ ← insert_activity E a "regulatory_report.drafted" "regulatory_report" (Some new_id)
      (JObj [("regulator", JStr (rpi_regulator input)); ("corridor", JStr (pg_text (rpi_corridor input)));
             ("reportType", JStr (rpi_reportType input))]);
    mret new_id).

Record report_transition : Type := mk_report_transition {
  rti_reportId : uuid;
  rti_status : report_status;
  rti_statusReason : string;
  rti_artifactUri : option string;
  rti_evidenceManifest : option json;
  rti_submissionReference : option string
}.

(** [x ?? y]; a JSON null is absent too. *)
Definition manifest_or (x y : option json) : json :=
  match x with Some JNull | None => default JNull y | Some j => j end.
Definition given_artifact (i : report_transition) (r : regulatory_report) : option string :=
  match rti_artifactUri i with Some u => Some u | None => rr_artifact_uri r end.
Definition given_manifest (i : report_transition) (r : regulatory_report) : json :=
  manifest_or (rti_evidenceManifest i) (rr_evidence_manifest r).

(** The UPDATE. [JSON.stringify(null)] is the text "null": an absent manifest is
    stored as a JSON null, not as NULL. *)
Definition moved_report (E : env) (a : actor) (i : report_transition) (r : regulatory_report) : regulatory_report :=
  let r1 := r <| rr_status := rti_status i |> <| rr_artifact_uri := given_artifact i r |>
    <| rr_evidence_manifest := Some (given_manifest i r) |>
    <| rr_submission_reference := (match rti_submissionReference i with Some s => Some s | None => rr_submission_reference r end) |>
    <| rr_status_reason := Some (rti_statusReason i) |> in
  let r2 := if bool_decide (rti_status i = RepUnderReview)
    then r1 <| rr_reviewed_by := Some (a_openId a) |> <| rr_reviewed_at := Some (db_now E) |> else r1 in
  if bool_decide (rti_status i = RepApproved)
  then r2 <| rr_approved_by := Some (a_openId a) |> <| rr_approved_at := Some (db_now E) |> else r2.

Definition transitionPostgresRegulatoryReport (E : env) (a : actor) (input : report_transition) : Act db (uuid * report_status) :=
  transaction (
    found ← select_by_id regulatory_reports (rti_reportId input);
    report ← require found (JsError "Regulatory report was not found");
    let artifactUri := given_artifact input report in
    let evidenceManifest := given_manifest input report in
    _ ← throw_if (includes review_states (rti_status input) && (negb (truthy_opt artifactUri) || negb (json_truthy evidenceManifest)))
      (JsError "Artifact URI and evidence manifest are required for the requested reporting workflow state");
    _ ← throw_if (bool_decide (rti_status input = RepSubmitted) && negb (truthy_opt (rti_submissionReference input)))
      (JsError "Verified submission reference is required before a report can be marked submitted");
    _ ← throw_if (bool_decide (rti_status input = RepApproved) && negb (bool_decide (a_role a = RoleComplianceOfficer)))
      (JsError "Only a compliance officer may approve a regulatory report");
    _ ← update_checked regulatory_reports rules_regulatory_reports (rti_reportId input) (moved_report E a input);
    _ ← insert_activity E a ("regulatory_report." +:+ pg_text (rti_status input)) "regulatory_report" (Some (rti_reportId input))
      (JObj [("statusReason", JStr (rti_statusReason input)); ("hasArtifact", JBool (truthy_opt artifactUri));
             ("hasEvidenceManifest", JBool (json_truthy evidenceManifest));
             ("submissionReferencePresent", JBool (truthy_opt (rti_submissionReference input)));
             ("providerSubmissionInitiated", JBool false)]);
    mret (rti_reportId input, rti_status input)).

(** [ORDER BY period_end DESC LIMIT 100]. *)
Definition listPostgresRegulatoryReports (d : db) : list (uuid * regulatory_report) :=
  take 100 (order_by_desc (λ x, rr_period_end x.2) (map_to_list (regulatory_reports d))).

(** ** Counterparty risk *)

Definition rules_risk_assessments : table_rules risk_assessment := {|
  checks r := [(Z.abs (cra_risk_score r) <? 10 ^ 5, NumericOverflow "risk_score");
    ((0 <=? cra_risk_score r) && (cra_risk_score r <=? 10000), CheckViolation "counterparty_risk_assessments_risk_score_check");
    (cra_assessed_at r <? cra_next_review_at r, CheckViolation "counterparty_risk_assessments_check");
    (Bool.eqb (bool_decide (cra_review_status r = RvwEscalated))
       (is_some (cra_escalation_reason r) && is_some (cra_escalated_by r) && is_some (cra_escalated_at r)),
      CheckViolation "counterparty_risk_assessments_check1")];
  uniques _ _ := [];
  references d r := [fk counterparties "counterparty_risk_assessments_counterparty_id_fkey" d (cra_counterparty_id r)] |}.

Record assessment_input : Type := mk_assessment_input {
  asi_counterpartyId : uuid;
  asi_riskLevel : counterparty_risk_level;
  asi_riskScore : string;
  asi_riskFactors : option json;
  asi_evidenceManifest : option json;
  asi_assessedAt : Z;
  asi_nextReviewAt : Z
}.

(** [!Number.isFinite(score) || score < 0 || score > 100]. *)
Definition valid_score (x : number) : option Z :=
  match x with Fin v => if (v <? 0) || lt (js_Number "100") x then None else Some v | _ => None end.

Definition assessment_row (E : env) (a : actor) (i : assessment_input) (score : Z) (factors manifest : json) : risk_assessment :=
  mk_risk_assessment (asi_counterpartyId i) (asi_riskLevel i) (numeric_of_number 2 score) factors manifest
    (pg_of_js (asi_assessedAt i)) (pg_of_js (asi_nextReviewAt i)) (a_openId a) RvwCurrent None None None (db_now E).

(** A value that is absent is sent as NULL. *)
Definition not_null (column : string) (j : option json) : Tx db json := require j (PgError (NotNullViolation column)).

Definition createPostgresCounterpartyRiskAssessment (E : env) (a : actor) (new_id : uuid) (input : assessment_input) : Act db uuid :=
  _ ← act_throw_if (asi_nextReviewAt input <=? asi_assessedAt input)
    (JsError "Counterparty next review must follow the assessment timestamp");
  match valid_score (js_Number (asi_riskScore input)) with
  | None => λ d, (Throw (JsError "Counterparty risk score must be between 0 and 100"), d)
  | Some score =>
      transaction (
        counterparty ← select_by_id counterparties (asi_counterpartyId input);
        _ ← require counterparty (JsError "Counterparty was not found");
        factors ← not_null "risk_factors" (asi_riskFactors input);
        manifest ← not_null "evidence_manifest" (asi_evidenceManifest input);
        _ ← insert_row counterparty_risk_assessments "counterparty_risk_assessments" rules_risk_assessments new_id
          (assessment_row E a input score factors manifest);
        _ ← insert_activity E a "counterparty_risk_assessment.created" "counterparty_risk_assessment" (Some new_id)
          (JObj [("counterpartyId", JUuid (asi_counterpartyId input)); ("riskLevel", JStr (pg_text (asi_riskLevel input)));
                 ("riskScore", json_number (Fin score)); ("nextReviewAt", JDate (asi_nextReviewAt input))]);
        mret new_id)
  end.

Definition escalated_review (E : env) (a : actor) (reason : string) (r : risk_assessment) : risk_assessment :=
  r <| cra_review_status := RvwEscalated |> <| cra_escalation_reason := Some reason |>
    <| cra_escalated_by := Some (a_openId a) |> <| cra_escalated_at := Some (db_now E) |>.

Definition escalatePostgresCounterpartyRiskAssessment (E : env) (a : actor) (id : uuid) (reason : string) : Act db uuid :=
  transaction (
    found ← gets (λ d, r ← counterparty_risk_assessments d !! id;
      if bool_decide (cra_review_status r = RvwEscalated) then None else Some r);
    _ ← require found (JsError "Counterparty risk assessment was not found or is already escalated");
    _ ← update_checked counterparty_risk_assessments rules_risk_assessments id (escalated_review E a reason);
    _ ← insert_activity E a "counterparty_risk_assessment.escalated" "counterparty_risk_assessment" (Some id)
      (JObj [("reason", JStr reason)]);
    mret id).

(** [WHERE review_status = 'current' AND next_review_at <= $1] and the CASE. *)
Definition review_due (now : Z) (r : risk_assessment) : bool :=
  bool_decide (cra_review_status r = RvwCurrent) && (cra_next_review_at r <=? pg_of_js now).
Definition due_status (now : Z) (r : risk_assessment) : counterparty_review_status :=
  if cra_next_review_at r <? pg_of_js now then RvwOverdue else RvwDue.
Definition evaluated_review (now : Z) (r : risk_assessment) : risk_assessment :=
  if review_due now r then r <| cra_review_status := due_status now r |> else r.

Record review_evaluation : Type := mk_review_evaluation { rev_evaluated : Z; rev_due : Z; rev_overdue : Z }.

(** The status does not touch a rule: it is never 'escalated' before or after. *)
Definition evaluatePostgresCounterpartyRiskReviews (E : env) (a : actor) (now_opt : option Z) : Act db review_evaluation :=
  let now := default (app_now E) now_opt in
  transaction (
    rows ← gets (λ d, (λ x : uuid * risk_assessment, (x.1, due_status now x.2)) <$>
      select (λ _ r, review_due now r) (counterparty_risk_assessments d));
    _ ← modify (set counterparty_risk_assessments (fmap (evaluated_review now)));
    _ ← for_each (λ row : uuid * counterparty_review_status,
          insert_activity E a ("counterparty_risk_assessment." +:+ pg_text row.2) "counterparty_risk_assessment" (Some row.1)
            (JObj [("evaluatedAt", JDate now)])) rows;
    mret (mk_review_evaluation (Z.of_nat (length rows))
      (Z.of_nat (length (List.filter (λ row, bool_decide (row.2 = RvwDue)) rows)))
      (Z.of_nat (length (List.filter (λ row, bool_decide (row.2 = RvwOverdue)) rows))))).

(** [ORDER BY next_review_at ASC, assessed_at DESC]. *)
Definition listPostgresCounterpartyRiskAssessments (d : db) : list (uuid * risk_assessment) :=
  order_by (λ x, cra_next_review_at x.2) (order_by_desc (λ x, cra_assessed_at x.2) (map_to_list (counterparty_risk_assessments d))).
