(* ===== verification/ReportingProps.v ===== *)
(** * Reports are gated and attributable; risk reviews are kept current *)

From S2P Require Import Prelude Js Numeric Rows Schema TableSteps Doubles Reporting.

Local Open Scope string_scope.
Local Open Scope Z_scope.

#[local] Instance reports_laws : TableLaws regulatory_reports.
Proof. table_laws. Qed.
#[local] Instance assessments_laws : TableLaws counterparty_risk_assessments.
Proof. table_laws. Qed.
#[local] Instance entities_laws : TableLaws legal_entities.
Proof. table_laws. Qed.

(** ** A transition *)

Lemma moved_status E a i r : rr_status (moved_report E a i r) = rti_status i.
Proof. unfold moved_report. cbv zeta. by repeat case_bool_decide. Qed.
Lemma moved_artifact E a i r : rr_artifact_uri (moved_report E a i r) = given_artifact i r.
Proof. unfold moved_report. cbv zeta. by repeat case_bool_decide. Qed.
Lemma moved_manifest E a i r : rr_evidence_manifest (moved_report E a i r) = Some (given_manifest i r).
Proof. unfold moved_report. cbv zeta. by repeat case_bool_decide. Qed.
Lemma moved_reference E a i r : rr_submission_reference (moved_report E a i r) =
  match rti_submissionReference i with Some s => Some s | None => rr_submission_reference r end.
Proof. unfold moved_report. cbv zeta. by repeat case_bool_decide. Qed.
Lemma moved_approver E a i r : rr_approved_by (moved_report E a i r) =
  if bool_decide (rti_status i = RepApproved) then Some (a_openId a) else rr_approved_by r.
Proof. unfold moved_report. cbv zeta. by repeat case_bool_decide. Qed.

(** What a report is about. *)
Definition report_identity (r : regulatory_report) : string * corridor_code * string * Z * Z * uuid * Z :=
  (rr_regulator r, rr_corridor r, rr_report_type r, rr_period_start r, rr_period_end r, rr_legal_entity_id r, rr_created_at r).
Lemma moved_identity E a i r : report_identity (moved_report E a i r) = report_identity r.
Proof. unfold moved_report. cbv zeta. by repeat case_bool_decide. Qed.

(** The gates of a transition. *)
Record report_gates (a : actor) (i : report_transition) (r : regulatory_report) : Prop := {
  rg_review : rti_status i ∈ [RepUnderReview; RepApproved; RepPendingSubmission; RepSubmitted] → truthy_opt (given_artifact i r) = true ∧ json_truthy (given_manifest i r) = true;
  rg_reference : rti_status i = RepSubmitted → ∃ s, rti_submissionReference i = Some s ∧ 0 < js_length (pg_trim s);
  rg_approver : rti_status i = RepApproved → a_role a = RoleComplianceOfficer
}.

Definition constraints_hold {R} (rules : table_rules R) (d : db) (r : R) : Prop :=
  Forall (λ c, c.1 = true) (checks rules r) ∧ Forall (λ c, c.1 = true) (references rules d r).

Lemma moved_constraints E a i r d d' : report_gates a i r → constraints_hold rules_regulatory_reports d r → legal_entities d' = legal_entities d →
  constraints_hold rules_regulatory_reports d' (moved_report E a i r).
Proof.
  intros [G1 G2 _] [Hc Hr] He. pose proof (moved_identity E a i r) as Hid. injection Hid as H1 _ _ H2 H3 H4 _.
  unfold constraints_hold in *. cbn [checks references rules_regulatory_reports] in *. rewrite !Forall_cons in *. cbn [fst] in *.
  rewrite H1, H2, H3, H4, moved_status, moved_artifact, moved_manifest, moved_reference. unfold fk in *. cbn [fst] in *. rewrite He.
  destruct Hc as (C1 & C2 & _). destruct Hr as [Hr _]. split_and!; try done.
  - destruct (includes review_states (rti_status i)) eqn:Hs; [|done]. apply includes_true in Hs. destruct (G1 Hs) as [Ha _].
    destruct (given_artifact i r); [done|discriminate].
  - destruct (bool_decide (rti_status i = RepSubmitted)) eqn:Hs; [|done]. apply bool_decide_eq_true in Hs.
    destruct (G2 Hs) as (s & -> & Hl). simpl. by apply Z.ltb_lt.
Qed.

Definition transition_event (E : env) (a : actor) (i : report_transition) (r : regulatory_report) : activity_event :=
  mk_activity_event (a_openId a) (a_role a) ("regulatory_report." +:+ pg_text (rti_status i)) "regulatory_report" (Some (rti_reportId i)) (db_now E)
    (JObj [("statusReason", JStr (rti_statusReason i)); ("hasArtifact", JBool (truthy_opt (given_artifact i r)));
           ("hasEvidenceManifest", JBool (json_truthy (given_manifest i r)));
           ("submissionReferencePresent", JBool (truthy_opt (rti_submissionReference i)));
           ("providerSubmissionInitiated", JBool false)]) None.

Definition after_transition (E : env) (a : actor) (i : report_transition) (r0 : regulatory_report) (d : db) : db :=
  set activity_events (λ l, l ++ [transition_event E a i r0])%list
    (set regulatory_reports <[rti_reportId i := moved_report E a i r0]> d).

Lemma transition_effect E a i d r d' : transitionPostgresRegulatoryReport E a i d = (r, d') →
  (d' = d ∧ is_ok r = false) ∨
  ∃ r0, regulatory_reports d !! rti_reportId i = Some r0 ∧ report_gates a i r0 ∧ is_ok r = true ∧
    constraints_hold rules_regulatory_reports d (moved_report E a i r0) ∧ d' = after_transition E a i r0 d.
Proof.
  destruct r as [r|e]; intros H; [right|left; by apply transaction_throw in H as [_ ->]].
  apply transaction_ok in H. apply tx_bind_ok in H as (f & d1 & [<- ->]%gets_ok & H).
  apply tx_bind_ok in H as (r0 & d1 & [Hr0 ->]%require_ok & H). cbv zeta in H.
  apply tx_bind_ok in H as (u1 & d1 & [G1 ->]%throw_if_ok & H). apply tx_bind_ok in H as (u2 & d1 & [G2 ->]%throw_if_ok & H).
  apply tx_bind_ok in H as (u3 & d1 & [G3 ->]%throw_if_ok & H). apply tx_bind_ok in H as (u4 & d2 & Hup & H).
  apply tx_bind_ok in H as (u5 & d3 & ->%modify_ok & [-> ->]%mret_ok). apply (update_checked_ok _ _ _ _ _ _ _ _ Hr0) in Hup as (Hck & Hf & ->).
  exists r0. split_and!; try done.
  cbn [checks rules_regulatory_reports] in Hck. rewrite !Forall_cons in Hck. destruct Hck as (_ & _ & _ & Hs & _).
  cbn [fst] in Hs. rewrite moved_status, moved_reference in Hs. split.
  - intros Hst. rewrite (proj2 (includes_true _ _) Hst) in G1. cbn in G1. apply orb_false_iff in G1 as [?%negb_false_iff ?%negb_false_iff]. done.
  - intros Hst. rewrite Hst in G2, Hs. cbn in G2, Hs. apply negb_false_iff in G2.
    destruct (rti_submissionReference i) as [s|]; [|discriminate]. exists s. split; [done|]. by apply Z.ltb_lt.
  - intros Hst. rewrite Hst in G3. cbn in G3. apply negb_false_iff in G3. by apply bool_decide_eq_true in G3.
Qed.

Lemma transition_run E a i d r0 : regulatory_reports d !! rti_reportId i = Some r0 → constraints_hold rules_regulatory_reports d r0 →
  report_gates a i r0 → is_ok (transitionPostgresRegulatoryReport E a i d).1 = true.
Proof.
  intros Hr0 Hc Hg. assert (∃ q d', transitionPostgresRegulatoryReport E a i d = (Ok q, d')) as (q & d' & ->); [|done].
  pose proof (moved_constraints E a i r0 d (set regulatory_reports <[rti_reportId i := moved_report E a i r0]> d) Hg Hc) as Hm.
  destruct Hm as [Hck Hf]; [by destruct d|]. destruct Hg as [G1 G2 G3].
  eexists _, _. apply transaction_ok. eapply tx_bind_run; [apply gets_run|]. cbv beta. eapply tx_bind_run; [by apply require_run|]. cbv zeta.
  eapply tx_bind_run; [apply throw_if_run|].
  { destruct (includes _ _) eqn:Hs; [|done]. apply includes_true in Hs. destruct (G1 Hs) as [-> ->]. done. }
  eapply tx_bind_run; [apply throw_if_run|].
  { case_bool_decide as Hs; [|done]. destruct (G2 Hs) as (s & -> & Hl). cbn. apply negb_false_iff. unfold truthy. apply negb_true_iff, bool_decide_eq_false.
    intros ->. done. }
  eapply tx_bind_run; [apply throw_if_run|].
  { case_bool_decide as Hs; [|done]. rewrite (G3 Hs). done. }
  eapply (tx_bind_run _ _ _ tt); [apply (update_checked_ok _ _ _ _ _ _ _ _ Hr0); split_and!; [exact Hck|exact Hf|reflexivity]|].
  eapply tx_bind_run; [apply modify_run|]. done.
Qed.

(** ** Drafting and registering *)

Lemma draft_effect local_day E a id i d r d' : createPostgresRegulatoryReport local_day E a id i d = (r, d') →
  (d' = d ∧ is_ok r = false) ∨
  (is_ok r = true ∧ regulatory_reports d !! id = None ∧ constraints_hold rules_regulatory_reports d (draft_report local_day E i) ∧
    regulatory_reports d' = <[id := draft_report local_day E i]> (regulatory_reports d) ∧ legal_entities d' = legal_entities d ∧
    counterparty_risk_assessments d' = counterparty_risk_assessments d ∧ log_extends d d').
Proof.
  unfold createPostgresRegulatoryReport. intros H. apply act_guard in H as [[_ Hd]|[_ H]]; [by left|].
  destruct r as [r|e]; [right|left; by apply transaction_throw in H as [_ ->]].
  apply transaction_ok in H. apply tx_bind_ok in H as (f & d1 & [<- ->]%gets_ok & H).
  apply tx_bind_ok in H as (e & d1 & [He ->]%require_ok & H).
  apply tx_bind_ok in H as (u1 & d2 & (Hck & Hn & _ & Hf & ->)%insert_row_ok & H). apply tx_bind_ok in H as (u2 & d3 & ->%modify_ok & [-> ->]%mret_ok).
  split_and!; try done. unfold log_extends. simpl. by apply prefix_app_r.
Qed.

Lemma register_effect E a id name j rid d r d' : registerPostgresLegalEntity E a id name j rid d = (r, d') →
  (d' = d ∧ is_ok r = false) ∨
  (a_role a = RoleAdmin ∧ legal_entities d !! id = None ∧ (∀ k x, legal_entities d !! k = Some x → entity_taken j (trim rid) x = false) ∧
    3 <= js_length (trim name) ∧ 3 <= js_length (trim rid) ∧
    legal_entities d' = <[id := mk_legal_entity (trim name) j (trim rid) (db_now E)]> (legal_entities d) ∧
    regulatory_reports d' = regulatory_reports d ∧ counterparty_risk_assessments d' = counterparty_risk_assessments d ∧ log_extends d d').
Proof.
  unfold registerPostgresLegalEntity. intros H. apply act_guard in H as [[_ Hd]|[Ha H]]; [by left|]. cbv zeta in H.
  apply act_guard in H as [[_ Hd]|[Hl H]]; [by left|]. apply act_guard in H as [[_ Hd]|[Hi H]]; [by left|].
  destruct r as [r|e]; [right|left; by apply transaction_throw in H as [_ ->]].
  apply transaction_ok in H. apply tx_bind_ok in H as (f & d1 & [<- ->]%gets_ok & H).
  apply tx_bind_ok in H as (e & d1 & [Ht ->]%throw_if_ok & H).
  apply tx_bind_ok in H as (u1 & d2 & (_ & Hn & _ & _ & ->)%insert_row_ok & H). apply tx_bind_ok in H as (u2 & d3 & ->%modify_ok & [-> ->]%mret_ok).
  unbool. apply Z.ltb_ge in Hl, Hi. split_and!; try done.
  - intros k x Hk. by apply (proj1 (any_false _ _) Ht k).
  - unfold log_extends. simpl. by apply prefix_app_r.
Qed.

(** ** Risk assessments *)

Definition checked {R} (rules : table_rules R) (r : R) : Prop := Forall (λ c, c.1 = true) (checks rules r).
(** The reports, entities and past are left alone. *)
Definition reports_untouched (d d' : db) : Prop :=
  regulatory_reports d' = regulatory_reports d ∧ legal_entities d' = legal_entities d ∧ log_extends d d'.

Lemma assess_effect E a id i d r d' : createPostgresCounterpartyRiskAssessment E a id i d = (r, d') →
  (d' = d ∧ is_ok r = false) ∨
  (∃ score factors manifest, valid_score (js_Number (asi_riskScore i)) = Some score ∧
    counterparty_risk_assessments d !! id = None ∧ is_Some (counterparties d !! asi_counterpartyId i) ∧
    checked rules_risk_assessments (assessment_row E a i score factors manifest) ∧
    counterparty_risk_assessments d' = <[id := assessment_row E a i score factors manifest]> (counterparty_risk_assessments d) ∧
    reports_untouched d d').
Proof.
  unfold createPostgresCounterpartyRiskAssessment. intros H. apply act_guard in H as [[_ Hd]|[_ H]]; [by left|].
  destruct (valid_score _) as [score|] eqn:Hs; [|injection H as <- <-; by left].
  destruct r as [r|e]; [right|left; by apply transaction_throw in H as [_ ->]].
  apply transaction_ok in H. apply tx_bind_ok in H as (f & d1 & [<- ->]%gets_ok & H).
  apply tx_bind_ok in H as (cp & d1 & [Hcp ->]%require_ok & H). apply tx_bind_ok in H as (fa & d1 & [_ ->]%require_ok & H).
  apply tx_bind_ok in H as (ma & d1 & [_ ->]%require_ok & H).
  apply tx_bind_ok in H as (u1 & d2 & (Hck & Hn & _ & _ & ->)%insert_row_ok & H). apply tx_bind_ok in H as (u2 & d3 & ->%modify_ok & [-> ->]%mret_ok).
  exists score, fa, ma. split_and!; try done. split_and!; try done. unfold log_extends. simpl. by apply prefix_app_r.
Qed.

Lemma escalate_effect E a id reason d r d' : escalatePostgresCounterpartyRiskAssessment E a id reason d = (r, d') →
  (d' = d ∧ is_ok r = false) ∨
  ∃ r0, counterparty_risk_assessments d !! id = Some r0 ∧ cra_review_status r0 ≠ RvwEscalated ∧ r = Ok id ∧
    checked rules_risk_assessments (escalated_review E a reason r0) ∧
    counterparty_risk_assessments d' = <[id := escalated_review E a reason r0]> (counterparty_risk_assessments d) ∧ reports_untouched d d'.
Proof.
  destruct r as [r|e]; intros H; [right|left; by apply transaction_throw in H as [_ ->]].
  apply transaction_ok in H. apply tx_bind_ok in H as (f & d1 & [<- ->]%gets_ok & H).
  apply tx_bind_ok in H as (x & d1 & [Hx ->]%require_ok & H).
  destruct (counterparty_risk_assessments d !! id) as [r0|] eqn:Hr0; [|done]. cbn [mbind option_bind] in Hx.
  case_bool_decide as Hst; [done|]. injection Hx as <-. apply tx_bind_ok in H as (u1 & d2 & Hup & H).
  apply tx_bind_ok in H as (u2 & d3 & ->%modify_ok & [-> ->]%mret_ok). apply (update_checked_ok _ _ _ _ _ _ _ _ Hr0) in Hup as (Hck & _ & ->).
  exists r0. split_and!; try done. split_and!; try done. unfold log_extends. simpl. by apply prefix_app_r.
Qed.

Lemma logged_all {A} (f : A → activity_event) l d :
  for_each (λ x, modify (set activity_events (λ es, es ++ [f x])%list)) l d =
    Ok (tt, set activity_events (λ es, es ++ (f <$> l))%list d).
Proof.
  revert d. induction l as [|x l IH]; intros d; cbn [for_each].
  - rewrite fmap_nil. destruct d. unfold set. simpl. by rewrite app_nil_r.
  - eapply tx_bind_run; [apply modify_run|]. rewrite IH. do 2 f_equal. destruct d. unfold set. simpl. by rewrite <- app_assoc.
Qed.

(** The rows an evaluation returns. *)
Definition due_rows (now : Z) (d : db) : list (uuid * counterparty_review_status) :=
  (λ x : uuid * risk_assessment, (x.1, due_status now x.2)) <$> select (λ _ r, review_due now r) (counterparty_risk_assessments d).
Definition count_status (s : counterparty_review_status) (l : list (uuid * counterparty_review_status)) : Z :=
  Z.of_nat (length (List.filter (λ row, bool_decide (row.2 = s)) l)).
Definition review_event (E : env) (a : actor) (now : Z) (row : uuid * counterparty_review_status) : activity_event :=
  mk_activity_event (a_openId a) (a_role a) ("counterparty_risk_assessment." +:+ pg_text row.2) "counterparty_risk_assessment" (Some row.1)
    (db_now E) (JObj [("evaluatedAt", JDate now)]) None.

(** An evaluation always returns. *)
Lemma evaluation_exact E a o d : let now := default (app_now E) o in
  evaluatePostgresCounterpartyRiskReviews E a o d =
    (Ok (mk_review_evaluation (Z.of_nat (length (due_rows now d))) (count_status RvwDue (due_rows now d)) (count_status RvwOverdue (due_rows now d))),
     set activity_events (λ es, es ++ (review_event E a now <$> due_rows now d))%list
       (set counterparty_risk_assessments (fmap (evaluated_review now)) d)).
Proof.
  cbv zeta. unfold evaluatePostgresCounterpartyRiskReviews. cbv zeta. apply transaction_ok. eapply tx_bind_run; [apply gets_run|].
  eapply tx_bind_run; [apply modify_run|]. eapply tx_bind_run; [apply (logged_all (review_event E a (default (app_now E) o)))|]. reflexivity.
Qed.

Lemma evaluation_untouched E a o d : reports_untouched d (evaluatePostgresCounterpartyRiskReviews E a o d).2.
Proof. rewrite evaluation_exact. split_and!; [done..|]. unfold log_extends. simpl. by apply prefix_app_r. Qed.

(** ** Runs *)

Inductive reporting_step : relation db :=
  | rs_register E a id name j rid d : reporting_step d (registerPostgresLegalEntity E a id name j rid d).2
  | rs_draft local_day E a id i d : reporting_step d (createPostgresRegulatoryReport local_day E a id i d).2
  | rs_transition E a i d : reporting_step d (transitionPostgresRegulatoryReport E a i d).2
  | rs_assess E a id i d : reporting_step d (createPostgresCounterpartyRiskAssessment E a id i d).2
  | rs_escalate E a id reason d : reporting_step d (escalatePostgresCounterpartyRiskAssessment E a id reason d).2
  | rs_evaluate E a o d : reporting_step d (evaluatePostgresCounterpartyRiskReviews E a o d).2
  | rs_elsewhere d d' : reports_untouched d d' → counterparty_risk_assessments d' = counterparty_risk_assessments d → reporting_step d d'.

Definition approval_logged (d : db) (id : uuid) (by_ : string) : Prop := ∃ e, e ∈ activity_events d ∧ ev_actor_subject e = by_ ∧
  ev_actor_role e = RoleComplianceOfficer ∧ ev_action e = "regulatory_report.approved" ∧ ev_object_id e = Some id.
Record report_ok (d : db) (id : uuid) (r : regulatory_report) : Prop := {
  rk_constraints : constraints_hold rules_regulatory_reports d r;
  rk_evidence : rr_status r ∈ [RepUnderReview; RepApproved; RepPendingSubmission; RepSubmitted] → truthy_opt (rr_artifact_uri r) = true ∧ ∃ j, rr_evidence_manifest r = Some j ∧ json_truthy j = true;
  rk_approved : rr_status r = RepApproved → is_Some (rr_approved_by r);
  rk_approver : ∀ by_, rr_approved_by r = Some by_ → approval_logged d id by_
}.
Definition reports_ok (d : db) : Prop := ∀ k r, regulatory_reports d !! k = Some r → report_ok d k r.
Definition entities_unique (d : db) : Prop := ∀ k k' x y, legal_entities d !! k = Some x → legal_entities d !! k' = Some y →
  le_jurisdiction x = le_jurisdiction y → le_registration_identifier x = le_registration_identifier y → k = k'.

(** What never changes: entities, and what a report is about. *)
Definition reports_kept (d d' : db) : Prop := legal_entities d ⊆ legal_entities d' ∧ log_extends d d' ∧
  ∀ k r, regulatory_reports d !! k = Some r → ∃ r', regulatory_reports d' !! k = Some r' ∧ report_identity r' = report_identity r.
#[local] Instance reports_kept_preorder : PreOrder reports_kept.
Proof.
  split; [intros d; split_and!; [done..|]; intros k r Hk; by exists r|]. intros d1 d2 d3 (E1 & L1 & H1) (E2 & L2 & H2).
  split_and!; [by etrans|by etrans|]. intros k r Hk. destruct (H1 k r Hk) as (r2 & Hk2 & I2). destruct (H2 k r2 Hk2) as (r3 & Hk3 & I3).
  exists r3. split; [done|congruence].
Qed.

Lemma report_ok_later d d' id r : legal_entities d ⊆ legal_entities d' → log_extends d d' → report_ok d id r → report_ok d' id r.
Proof.
  intros He Hl [[Hc Hf] H2 H3 H4]. split; [split; [done|]|done..|].
  - cbn [references rules_regulatory_reports] in *. rewrite Forall_cons in *. destruct Hf as [Hf _]. split; [|by apply Forall_nil].
    unfold fk in *. cbn [fst] in *. apply bool_decide_eq_true in Hf as [x Hx]. apply bool_decide_eq_true. exists x. by eapply lookup_weaken.
  - intros by_ (e & He' & ?)%H4. exists e. split; [|done]. destruct Hl as [l ->]. apply elem_of_app. by left.
Qed.

Lemma untouched_kept d d' : reports_untouched d d' → reports_ok d → entities_unique d →
  reports_ok d' ∧ entities_unique d' ∧ reports_kept d d'.
Proof.
  intros (E1 & E2 & Hl) Hr Hu. split; [|split; [|split; [by rewrite E2|split; [done|]]]].
  - intros k r. rewrite E1. intros Hk. apply (report_ok_later d); [by rewrite E2|done|by apply Hr].
  - intros k k' x y. rewrite E2. apply Hu.
  - intros k r Hk. exists r. by rewrite E1.
Qed.

Lemma draft_ok local_day E i d id : constraints_hold rules_regulatory_reports d (draft_report local_day E i) →
  report_ok d id (draft_report local_day E i).
Proof. intros Hc. split; [done|..]; cbn; intros; try discriminate. by repeat (apply elem_of_cons in H as [H|H]; [discriminate|]); apply not_elem_of_nil in H. Qed.

Lemma moved_ok E a i d r0 : report_ok d (rti_reportId i) r0 → report_gates a i r0 →
  constraints_hold rules_regulatory_reports d (moved_report E a i r0) →
  report_ok (after_transition E a i r0 d) (rti_reportId i) (moved_report E a i r0).
Proof.
  intros [_ _ _ H4] [G1 _ G3] Hc. assert (Hlog : activity_events (after_transition E a i r0 d) = (activity_events d ++ [transition_event E a i r0])%list) by done.
  split.
  - done.
  - rewrite moved_status, moved_artifact, moved_manifest. intros Hs. destruct (G1 Hs). eauto.
  - rewrite moved_status, moved_approver. intros ->. by eexists.
  - intros by_. rewrite moved_approver. case_bool_decide as Hs.
    + intros [= <-]. exists (transition_event E a i r0). rewrite Hlog. split; [apply elem_of_app; right; by apply list_elem_of_singleton|].
      cbn. rewrite (G3 Hs), Hs. done.
    + intros (e & He & ?)%H4. exists e. split; [|done]. rewrite Hlog. apply elem_of_app. by left.
Qed.

Lemma reporting_step_ok d d' : reporting_step d d' → reports_ok d → entities_unique d →
  reports_ok d' ∧ entities_unique d' ∧ reports_kept d d'.
Proof.
  intros Hs Hr Hu. assert (Hid : reports_ok d ∧ entities_unique d ∧ reports_kept d d) by (split_and!; done || reflexivity).
  destruct Hs as [E a id name j rid d|ld E a id i d|E a i d|E a id i d|E a id reason d|E a o d|d d' Hun _].
  - destruct (registerPostgresLegalEntity E a id name j rid d) as [r d'] eqn:H. simpl.
    apply register_effect in H as [[-> _]|(_ & Hn & Hfree & _ & _ & Hl & Er & _ & Hlog)]; [done|].
    assert (Hsub : legal_entities d ⊆ legal_entities d') by (rewrite Hl; by apply insert_subseteq). split; [|split; [|split; [done|split; [done|]]]].
    + intros k r0. rewrite Er. intros Hk. by apply (report_ok_later d), Hr.
    + intros k k' x y. rewrite Hl. intros [[<- <-]|[_ Hx]]%lookup_insert_Some [[<- <-]|[_ Hy]]%lookup_insert_Some E1 E2; [done|..|by eapply Hu].
      * pose proof (Hfree _ _ Hy) as Hf. cbn in E1, E2. unfold entity_taken in Hf. rewrite !bool_decide_eq_true_2 in Hf by done. done.
      * pose proof (Hfree _ _ Hx) as Hf. cbn in E1, E2. unfold entity_taken in Hf. rewrite !bool_decide_eq_true_2 in Hf by done. done.
    + intros k r0 Hk. exists r0. by rewrite Er.
  - destruct (createPostgresRegulatoryReport ld E a id i d) as [r d'] eqn:H. simpl.
    apply draft_effect in H as [[-> _]|(_ & Hn & Hc & Ht & El & _ & Hlog)]; [done|]. split; [|split; [intros k k' x y; rewrite El; apply Hu|split; [by rewrite El|split; [done|]]]].
    + intros k r0. rewrite Ht. intros Hk. apply (report_ok_later d); [by rewrite El|done|].
      apply lookup_insert_Some in Hk as [[<- <-]|[_ Hk]]; [by apply draft_ok|by apply Hr].
    + intros k r0 Hk. exists r0. rewrite Ht, lookup_insert_ne by congruence. done.
  - destruct (transitionPostgresRegulatoryReport E a i d) as [r d'] eqn:H. simpl.
    apply transition_effect in H as [[-> _]|(r0 & Hr0 & Hg & _ & Hc & ->)]; [done|].
    assert (Hlog : log_extends d (after_transition E a i r0 d)) by (unfold log_extends; simpl; by apply prefix_app_r).
    assert (Ht : regulatory_reports (after_transition E a i r0 d) = <[rti_reportId i := moved_report E a i r0]> (regulatory_reports d)) by done.
    split; [|split; [done|split; [done|split; [done|]]]].
    + intros k x. rewrite Ht. intros [[<- <-]|[_ Hk]]%lookup_insert_Some; [by eapply moved_ok; [apply Hr| |]|]. by apply (report_ok_later d), Hr.
    + intros k x Hk. rewrite Ht. destruct (decide (rti_reportId i = k)) as [<-|Hne].
      * eexists. rewrite lookup_insert_eq. simplify_eq. split; [done|]. apply moved_identity.
      * exists x. by rewrite lookup_insert_ne.
  - destruct (createPostgresCounterpartyRiskAssessment E a id i d) as [r d'] eqn:H. simpl.
    apply assess_effect in H as [[-> _]|(? & ? & ? & _ & _ & _ & _ & _ & Hun)]; [done|by apply untouched_kept].
  - destruct (escalatePostgresCounterpartyRiskAssessment E a id reason d) as [r d'] eqn:H. simpl.
    apply escalate_effect in H as [[-> _]|(? & _ & _ & _ & _ & _ & Hun)]; [done|by apply untouched_kept].
  - apply untouched_kept; [apply evaluation_untouched|done..].
  - by apply untouched_kept.
Qed.

(** ** Reviews along a run *)

(** The constraints the row itself must meet, and how reviews move. *)
Definition risks_ok (d : db) : Prop := ∀ k r, counterparty_risk_assessments d !! k = Some r → checked rules_risk_assessments r.
Inductive review_moves : relation counterparty_review_status :=
  | rm_due : review_moves RvwCurrent RvwDue
  | rm_overdue : review_moves RvwCurrent RvwOverdue
  | rm_escalate s : s ≠ RvwEscalated → review_moves s RvwEscalated.
(** Everything but the review. *)
Definition risk_terms (r : risk_assessment) : risk_assessment :=
  r <| cra_review_status := RvwCurrent |> <| cra_escalation_reason := None |> <| cra_escalated_by := None |> <| cra_escalated_at := None |>.
Definition risks_kept (d d' : db) : Prop := ∀ k r, counterparty_risk_assessments d !! k = Some r →
  ∃ r', counterparty_risk_assessments d' !! k = Some r' ∧ risk_terms r' = risk_terms r ∧
    rtc review_moves (cra_review_status r) (cra_review_status r') ∧ (cra_review_status r = RvwEscalated → r' = r).
#[local] Instance risks_kept_preorder : PreOrder risks_kept.
Proof.
  split; [intros d k r Hk; exists r; split_and!; done || apply rtc_refl|]. intros d1 d2 d3 H1 H2 k r Hk.
  destruct (H1 k r Hk) as (r2 & Hk2 & T2 & M2 & F2). destruct (H2 k r2 Hk2) as (r3 & Hk3 & T3 & M3 & F3).
  exists r3. split_and!; [done|congruence|by etrans|]. intros Hs. specialize (F2 Hs). subst r2. auto.
Qed.

Lemma risks_same d d' : counterparty_risk_assessments d' = counterparty_risk_assessments d → risks_ok d → risks_ok d' ∧ risks_kept d d'.
Proof.
  intros E Hr. split; [intros k r; rewrite E; apply Hr|]. intros k r Hk. exists r. rewrite E. split_and!; done || apply rtc_refl.
Qed.

Lemma evaluated_checked now r : checked rules_risk_assessments r → checked rules_risk_assessments (evaluated_review now r).
Proof.
  unfold evaluated_review, review_due. case_bool_decide as Hc; [|done]. cbn [andb]. destruct (_ <=? _); [|done]. unfold checked.
  cbn [checks rules_risk_assessments]. rewrite !Forall_cons. intros (C1 & C2 & C3 & C4 & _). cbn in *. rewrite Hc in C4.
  split_and!; try done; try by apply Forall_nil. unfold due_status. destruct (cra_next_review_at r <? _); done.
Qed.
Lemma evaluated_terms now r : risk_terms (evaluated_review now r) = risk_terms r ∧
  rtc review_moves (cra_review_status r) (cra_review_status (evaluated_review now r)) ∧ (cra_review_status r = RvwEscalated → evaluated_review now r = r).
Proof.
  unfold evaluated_review, review_due. case_bool_decide as Hc; cbn [andb]; [|split_and!; done || apply rtc_refl].
  destruct (_ <=? _); [|split_and!; done || apply rtc_refl]. split_and!; [by destruct r| |congruence].
  apply rtc_once. cbn. rewrite Hc. unfold due_status. destruct (_ <? _); constructor.
Qed.

Lemma reporting_step_risks d d' : reporting_step d d' → risks_ok d → risks_ok d' ∧ risks_kept d d'.
Proof.
  intros Hs Hr. assert (Hid : risks_ok d ∧ risks_kept d d) by (split; done || reflexivity).
  destruct Hs as [E a id name j rid d|ld E a id i d|E a i d|E a id i d|E a id reason d|E a o d|d d' _ E].
  - destruct (registerPostgresLegalEntity E a id name j rid d) as [r d'] eqn:H. simpl.
    apply register_effect in H as [[-> _]|(_ & _ & _ & _ & _ & _ & _ & He & _)]; [done|by apply risks_same].
  - destruct (createPostgresRegulatoryReport ld E a id i d) as [r d'] eqn:H. simpl.
    apply draft_effect in H as [[-> _]|(_ & _ & _ & _ & _ & He & _)]; [done|by apply risks_same].
  - destruct (transitionPostgresRegulatoryReport E a i d) as [r d'] eqn:H. simpl.
    apply transition_effect in H as [[-> _]|(r0 & _ & _ & _ & _ & ->)]; [done|by apply risks_same].
  - destruct (createPostgresCounterpartyRiskAssessment E a id i d) as [r d'] eqn:H. simpl.
    apply assess_effect in H as [[-> _]|(score & fa & ma & _ & Hn & _ & Hc & Ht & _)]; [done|]. split.
    + intros k x. rewrite Ht. intros [[_ <-]|[_ Hk]]%lookup_insert_Some; [done|by eapply Hr].
    + intros k x Hk. exists x. rewrite Ht, lookup_insert_ne by congruence. split_and!; done || apply rtc_refl.
  - destruct (escalatePostgresCounterpartyRiskAssessment E a id reason d) as [r d'] eqn:H. simpl.
    apply escalate_effect in H as [[-> _]|(r0 & Hr0 & Hne & _ & Hc & Ht & _)]; [done|]. split.
    + intros k x. rewrite Ht. intros [[_ <-]|[_ Hk]]%lookup_insert_Some; [done|by eapply Hr].
    + intros k x Hk. rewrite Ht. destruct (decide (id = k)) as [<-|Hk'].
      * simplify_eq. eexists. rewrite lookup_insert_eq. split_and!; [done|by destruct r0|apply rtc_once; by constructor|done].
      * exists x. rewrite lookup_insert_ne by done. split_and!; done || apply rtc_refl.
  - rewrite evaluation_exact. cbn [snd]. set (now := default _ _).
    assert (Ht : ∀ es, counterparty_risk_assessments (set activity_events es (set counterparty_risk_assessments (fmap (evaluated_review now)) d)) =
      evaluated_review now <$> counterparty_risk_assessments d) by done. split.
    + intros k x. rewrite Ht, lookup_fmap. intros (y & Hy & ->)%fmap_Some. by eapply evaluated_checked, Hr.
    + intros k x Hk. exists (evaluated_review now x). rewrite Ht, lookup_fmap, Hk. split; [done|]. apply evaluated_terms.
  - by apply risks_same.
Qed.

Lemma reporting_run_ok d0 d1 : rtc reporting_step d0 d1 → reports_ok d0 → entities_unique d0 →
  reports_ok d1 ∧ entities_unique d1 ∧ reports_kept d0 d1.
Proof.
  induction 1 as [|x y z Hs _ IH]; intros Hr Hu; [split_and!; done || reflexivity|].
  destruct (reporting_step_ok _ _ Hs Hr Hu) as (Hr' & Hu' & K). destruct (IH Hr' Hu') as (? & ? & ?). split_and!; [done..|by etrans].
Qed.
Lemma risk_run_ok d0 d1 : rtc reporting_step d0 d1 → risks_ok d0 → risks_ok d1 ∧ risks_kept d0 d1.
Proof.
  induction 1 as [|x y z Hs _ IH]; intros Hr; [split; done || reflexivity|].
  destruct (reporting_step_risks _ _ Hs Hr) as (Hr' & K). destruct (IH Hr') as (? & ?). split; [done|by etrans].
Qed.

(** C35. Reports are gated, attributable and keep their subject. On every run:
    reports under review, approved, pending submission or submitted have an
    artifact and an evidence manifest (a draft may be rejected with neither,
    [draft_rejected_without_evidence]), a submitted one a submission reference,
    an approved one an approver; every recorded approver logged the approval of that report as a
    compliance officer; every report names a registered legal entity, and no two
    entities share a registration identifier within a jurisdiction; what a report
    is about, the entities and the log are never altered. A transition succeeds
    exactly when the report exists and the gates of the target state are met, and
    otherwise changes nothing. *)
Theorem reports_gated d0 d1 : reports_ok d0 → entities_unique d0 → rtc reporting_step d0 d1 →
  reports_ok d1 ∧ entities_unique d1 ∧ reports_kept d0 d1 ∧
  ∀ E a i r d2, transitionPostgresRegulatoryReport E a i d1 = (r, d2) →
    (is_ok r = true ↔ ∃ r0, regulatory_reports d1 !! rti_reportId i = Some r0 ∧ report_gates a i r0) ∧
    (is_ok r = false → d2 = d1).
Proof.
  intros Hr Hu Hrun. destruct (reporting_run_ok _ _ Hrun Hr Hu) as (Hr1 & Hu1 & K). split; [done|]. split; [done|]. split; [done|].
  intros E a i r d2 H. pose proof H as H'. apply transition_effect in H' as [[-> Hf]|(r0 & Hr0 & Hg & Hok & _ & _)].
  - split; [|done]. split; [congruence|]. intros (r0 & Hr0 & Hg).
    pose proof (transition_run E a i d1 r0 Hr0 (rk_constraints _ _ _ (Hr1 _ _ Hr0)) Hg) as Hok. rewrite H in Hok. cbn [fst] in Hok. congruence.
  - split; [|congruence]. split; [by exists r0|done].
Qed.

(** ** Evaluations settle *)

Lemma evaluated_not_due now r : review_due now (evaluated_review now r) = false.
Proof.
  unfold evaluated_review. destruct (review_due now r) eqn:Hd; [|done]. unfold review_due. cbn. unfold due_status. by destruct (_ <? _).
Qed.

Lemma due_rows_counted now d : Z.of_nat (length (due_rows now d)) = count_status RvwDue (due_rows now d) + count_status RvwOverdue (due_rows now d).
Proof.
  unfold due_rows, count_status. induction (select _ _) as [|x l IH]; [done|]. rewrite fmap_cons. cbn [List.filter length snd].
  assert (due_status now x.2 = RvwDue ∨ due_status now x.2 = RvwOverdue) as [-> | ->] by (unfold due_status; destruct (_ <? _); auto).
  - rewrite bool_decide_eq_true_2, bool_decide_eq_false_2 by done. cbn [length]. lia.
  - rewrite bool_decide_eq_false_2, bool_decide_eq_true_2 by done. cbn [length]. lia.
Qed.

Lemma no_due_rows now d : (∀ k r, counterparty_risk_assessments d !! k = Some r → review_due now r = false) → due_rows now d = [].
Proof.
  intros Hn. unfold due_rows. destruct (select _ _) as [|[k r] l] eqn:Hs; [done|].
  assert (Hin : (k, r) ∈ select (λ _ r, review_due now r) (counterparty_risk_assessments d)) by (rewrite Hs; left).
  apply elem_of_select in Hin as [Hk Hd]. rewrite (Hn k r Hk) in Hd. done.
Qed.

(** Risk reviews are tracked. On every run a stored score is between 0 and
    100 to two decimals and its review follows the assessment; the terms of an
    assessment never change, its review only moves forward, and an escalation,
    complete with reason, author and time, is final. An evaluation always
    returns: it marks exactly the current assessments whose review time has come,
    overdue when that time is past and due when it is this very instant, leaves
    every other row alone, logs one event for each, and counts add up; evaluated
    again at the same instant nothing is left to mark. *)
Theorem risk_reviews_tracked d0 d1 E a o : risks_ok d0 → rtc reporting_step d0 d1 →
  let now := default (app_now E) o in
  let out := evaluatePostgresCounterpartyRiskReviews E a o d1 in
  risks_ok d1 ∧ risks_kept d0 d1 ∧
  counterparty_risk_assessments out.2 = evaluated_review now <$> counterparty_risk_assessments d1 ∧
  activity_events out.2 = (activity_events d1 ++ (review_event E a now <$> due_rows now d1))%list ∧
  (∃ v, out.1 = Ok v ∧ rev_evaluated v = rev_due v + rev_overdue v ∧ rev_evaluated v = Z.of_nat (length (due_rows now d1))) ∧
  (∀ k r, counterparty_risk_assessments out.2 !! k = Some r → cra_review_status r = RvwCurrent → pg_of_js now < cra_next_review_at r) ∧
  (evaluatePostgresCounterpartyRiskReviews E a o out.2).1 = Ok (mk_review_evaluation 0 0 0).
Proof.
  intros Hr Hrun now out. destruct (risk_run_ok _ _ Hrun Hr) as [Hr1 K].
  assert (Ht : counterparty_risk_assessments out.2 = evaluated_review now <$> counterparty_risk_assessments d1) by (unfold out; by rewrite evaluation_exact).
  assert (Hnot : ∀ k r, counterparty_risk_assessments out.2 !! k = Some r → review_due now r = false).
  { intros k r. rewrite Ht, lookup_fmap. intros (y & _ & ->)%fmap_Some. apply evaluated_not_due. }
  split; [done|]. split; [done|]. split; [done|]. split; [unfold out; by rewrite evaluation_exact|]. split; [|split].
  - unfold out. rewrite evaluation_exact. eexists. split; [done|]. cbn. split; [apply due_rows_counted|done].
  - intros k r Hk Hc. specialize (Hnot k r Hk). unfold review_due in Hnot. rewrite bool_decide_eq_true_2 in Hnot by done. cbn in Hnot. lia.
  - rewrite evaluation_exact. cbn [fst]. fold now. by rewrite (no_due_rows now out.2 Hnot).
Qed.

(** ** Departures *)

(** A review marked due is never marked overdue, however late an evaluation
    runs. *)
Theorem due_review_never_overdue E a o d k r : counterparty_risk_assessments d !! k = Some r → cra_review_status r = RvwDue →
  counterparty_risk_assessments (evaluatePostgresCounterpartyRiskReviews E a o d).2 !! k = Some r.
Proof.
  intros Hk Hs. rewrite evaluation_exact. cbn [snd].
  change (counterparty_risk_assessments (set activity_events _ _)) with (evaluated_review (default (app_now E) o) <$> counterparty_risk_assessments d).
  rewrite lookup_fmap, Hk. cbn. unfold evaluated_review, review_due. by rewrite Hs.
Qed.

Definition preparer : actor := mk_actor "officer-1" RoleComplianceOfficer.
Definition registrar : actor := mk_actor "admin-1" RoleAdmin.
Definition rep_env (t : Z) : env := mk_env (t * 1000) (t * 1000000) 0.
Definition day_of (ms : Z) : Z := ms / 86400000.
Definition rep1 := (registerPostgresLegalEntity (rep_env 1) registrar 1 " Umoja Nigeria Ltd " "Nigeria" "RC-1001" empty_db).2.
Definition rep2 := (createPostgresRegulatoryReport day_of (rep_env 2) preparer 2
  (mk_report_input "CBN" NIGERIA_NGN "monthly" 86400000 172800000 1) rep1).2.
Definition pack : report_transition :=
  mk_report_transition 2 RepUnderReview "complete" (Some "s3://reports/2") (Some (JObj [("files", JNum 3)])) None.
Definition rep3 := (transitionPostgresRegulatoryReport (rep_env 3) preparer pack rep2).2.
Definition rep4 := (transitionPostgresRegulatoryReport (rep_env 4) preparer
  (mk_report_transition 2 RepApproved "looks right" None None None) rep3).2.

(** One officer prepares, reviews and approves a report. *)
Theorem preparer_approves_own_report :
  (ev_actor_subject <$> List.filter (λ e, bool_decide (ev_object_id e = Some 2%positive)) (activity_events rep4)) =
    ["officer-1"; "officer-1"; "officer-1"] ∧
  (λ r, (rr_status r, rr_reviewed_by r, rr_approved_by r)) <$> regulatory_reports rep4 !! 2%positive =
    Some (RepApproved, Some "officer-1", Some "officer-1").
Proof. split; vm_compute; reflexivity. Qed.

(** A draft is marked submitted without review or approval. *)
Theorem draft_submitted_unapproved :
  (λ r, (rr_status r, rr_reviewed_by r, rr_approved_by r)) <$>
    regulatory_reports (transitionPostgresRegulatoryReport (rep_env 3) preparer
      (mk_report_transition 2 RepSubmitted "sent" (Some "s3://reports/2") (Some (JObj [])) (Some "CBN-77")) rep2).2 !! 2%positive =
  Some (RepSubmitted, None, None).
Proof. vm_compute. reflexivity. Qed.

(** A draft is rejected with no artifact and no manifest: the gate asks for them
    in the four states of review and submission only. *)
Theorem draft_rejected_without_evidence :
  (λ r, (rr_status r, rr_artifact_uri r)) <$>
    regulatory_reports (transitionPostgresRegulatoryReport (rep_env 3) preparer
      (mk_report_transition 2 RepRejected "withdrawn" None None None) rep2).2 !! 2%positive = Some (RepRejected, None).
Proof. vm_compute. reflexivity. Qed.

(** ** A worked run *)

Lemma rep4_run : rtc reporting_step empty_db rep4.
Proof.
  exact (rtc_l _ _ _ _ (rs_register (rep_env 1) registrar 1 " Umoja Nigeria Ltd " "Nigeria" "RC-1001" empty_db)
    (rtc_l _ _ _ _ (rs_draft day_of (rep_env 2) preparer 2 (mk_report_input "CBN" NIGERIA_NGN "monthly" 86400000 172800000 1) rep1)
    (rtc_l _ _ _ _ (rs_transition (rep_env 3) preparer pack rep2)
    (rtc_l _ _ _ _ (rs_transition (rep_env 4) preparer (mk_report_transition 2 RepApproved "looks right" None None None) rep3) (rtc_refl _ rep4))))).
Qed.
Lemma empty_reports_ok : reports_ok empty_db.
Proof. intros k r H. discriminate H. Qed.
Lemma empty_entities_unique : entities_unique empty_db.
Proof. intros k k' x y H. discriminate H. Qed.

(** Witness of [reports_gated]: the approval is on record; a submission without
    a reference is refused. *)
Lemma reports_gated_witness : approval_logged rep4 2 "officer-1" ∧
  (transitionPostgresRegulatoryReport (rep_env 5) preparer (mk_report_transition 2 RepSubmitted "sent" None None None) rep4).2 = rep4.
Proof.
  pose proof (reports_gated _ _ empty_reports_ok empty_entities_unique rep4_run) as (Hr & _ & _ & H). split.
  - destruct (regulatory_reports rep4 !! 2%positive) as [r|] eqn:Hk; [|vm_compute in Hk; discriminate Hk].
    apply (rk_approver _ _ _ (Hr _ _ Hk)). vm_compute in Hk. injection Hk as <-. reflexivity.
  - destruct (transitionPostgresRegulatoryReport _ _ _ _) as [r d2] eqn:Ht. cbn [snd]. apply (H _ _ _ _ _ Ht).
    vm_compute in Ht. injection Ht as <- _. reflexivity.
Defined.

(** Two assessments, one of them past its review. *)
Definition risk0 : db := empty_db <| counterparties := {[1%positive := mk_counterparty "Bank" "psp" "Nigeria" 0 ∅]} |>.
Definition assessment_of (score : string) (next : Z) : assessment_input :=
  mk_assessment_input 1 RiskHigh score (Some (JArr [])) (Some (JObj [])) 1000 next.
Definition risk1 := (createPostgresCounterpartyRiskAssessment (rep_env 1) preparer 5 (assessment_of "72.5" 4000) risk0).2.
Definition risk2 := (createPostgresCounterpartyRiskAssessment (rep_env 2) preparer 6 (assessment_of "10" 5000) risk1).2.

Lemma risk2_run : rtc reporting_step risk0 risk2.
Proof.
  exact (rtc_l _ _ _ _ (rs_assess (rep_env 1) preparer 5 (assessment_of "72.5" 4000) risk0)
    (rtc_l _ _ _ _ (rs_assess (rep_env 2) preparer 6 (assessment_of "10" 5000) risk1) (rtc_refl _ risk2))).
Qed.
Lemma risk0_ok : risks_ok risk0.
Proof. intros k r H. discriminate H. Qed.
Lemma risk2_evaluated :
  (λ r, (cra_risk_score r, cra_review_status r)) <$> counterparty_risk_assessments (evaluatePostgresCounterpartyRiskReviews (rep_env 5) preparer None risk2).2
    = {[5%positive := (7250, RvwOverdue); 6%positive := (1000, RvwDue)]}.
Proof. vm_compute. reflexivity. Qed.

(** Witness of [risk_reviews_tracked]: one overdue, one due at this instant, then
    nothing left. *)
Lemma risk_reviews_tracked_witness :
  (λ r, (cra_risk_score r, cra_review_status r)) <$> counterparty_risk_assessments (evaluatePostgresCounterpartyRiskReviews (rep_env 5) preparer None risk2).2
    = {[5%positive := (7250, RvwOverdue); 6%positive := (1000, RvwDue)]} ∧
  (evaluatePostgresCounterpartyRiskReviews (rep_env 5) preparer None
    (evaluatePostgresCounterpartyRiskReviews (rep_env 5) preparer None risk2).2).1 = Ok (mk_review_evaluation 0 0 0).
Proof.
  split; [exact risk2_evaluated|].
  pose proof (risk_reviews_tracked _ _ (rep_env 5) preparer None risk0_ok risk2_run) as (_ & _ & _ & _ & _ & _ & H). exact H.
Defined.
