(* ===== verification/ServiceHealth.v ===== *)
(** * Service health: collection, history, monitor and objectives

    src/apps/control-plane/server/serviceHealth.ts, serviceHealthHistory.ts,
    serviceHealthMonitor.ts and serviceHealthSlo.ts. The environment, the URL
    parser, the network and its clocks, the parser of the metrics schema and
    [new Date(text)] are arguments. *)

From S2P Require Import Prelude Js Numeric Rows Schema Zod Contracts ServiceBridge Doubles.

Local Open Scope string_scope.
Local Open Scope Z_scope.

(** ** Collection *)

Definition MONITORED_SERVICES : list ServiceName := [PaymentEngine; RiskComplianceCore; ReportingAnalytics; LedgerGateway].
Definition service_text (s : ServiceName) : string :=
  match s with
  | PaymentEngine => "payment-engine"
  | RiskComplianceCore => "risk-compliance-core"
  | ReportingAnalytics => "reporting-analytics"
  | LedgerGateway => "ledger-gateway"
  end.
Definition SERVICE_LANGUAGE (s : ServiceName) : string :=
  match s with PaymentEngine => "go" | RiskComplianceCore | LedgerGateway => "rust" | ReportingAnalytics => "python" end.
Definition HEALTH_TIMEOUT_MS : Z := 3000.

(** The shape of the metrics; other keys pass through. *)
Definition metricsSchema : list (string * zod) :=
  [("service", z_string nonempty); ("language", z_enum ["go"; "rust"; "python"]); ("uptime_seconds", z_int (Some 0));
   ("observed_at", z_string nonempty)].
Definition metrics_shape (v : json) : bool :=
  match v with JObj kvs => bool_decide (NoDup (keys kvs)) && forallb (field_ok false kvs) metricsSchema | _ => false end.

(** [metricsSchema.safeParse(v)]: the entries of the value, or the message of the
    first issue. *)
Class MetricsParser : Type := {
  metrics_parse : json → list (string * json) + string;
  metrics_accepted v kvs : metrics_parse v = inl kvs → metrics_shape v = true ∧ metrics_shape (JObj kvs) = true ∧
    ∃ kvs0, v = JObj kvs0 ∧ ∀ k, record_get kvs k = record_get kvs0 k;
  metrics_complete v : metrics_shape v = true → ∃ kvs, metrics_parse v = inl kvs
}.
Definition reference_metrics : MetricsParser.
Proof.
  refine {| metrics_parse v := match v with JObj kvs => if metrics_shape v then inl kvs else inr "invalid" | _ => inr "invalid" end |}.
  - intros v kvs. destruct v as [| | | | | |l]; try done. destruct (metrics_shape _) eqn:E; [|done]. intros [= <-]. split_and!; try done. by exists l.
  - intros v H. destruct v as [| | | | | |l]; try done. rewrite H. by eexists.
Defined.

Record healthy_report : Type := mk_healthy_report {
  hr_latencyMs : Z;
  hr_uptimeSeconds : Z;
  hr_observedAt : string;
  hr_counters : list (string * json);
  hr_posture : list (string * json)
}.
Inductive ServiceStatus : Type :=
  | NotConfigured (service : ServiceName) (reason : string)
  | Unreachable (service : ServiceName) (reason : string) (latencyMs : option Z)
  | Healthy (service : ServiceName) (report : healthy_report).
Definition status_service (s : ServiceStatus) : ServiceName :=
  match s with NotConfigured s _ | Unreachable s _ _ | Healthy s _ => s end.
Definition status_text (s : ServiceStatus) : string :=
  match s with NotConfigured _ _ => "not_configured" | Unreachable _ _ _ => "unreachable" | Healthy _ _ => "healthy" end.
Definition status_reason (s : ServiceStatus) : option string :=
  match s with NotConfigured _ r | Unreachable _ r _ => Some r | Healthy _ _ => None end.

(** The loop over [Object.entries]. A number too large for a double is Infinity,
    which [json] leaves out and both branches discard; assigning a primitive to
    [__proto__] has no effect. *)
Definition collected_keys (kvs : list (string * json)) : list (string * json) :=
  List.filter (λ kv, negb (includes ["service"; "language"; "observed_at"; "__proto__"] kv.1)) kvs.
Definition is_number (v : json) : bool := match v with JNum _ | JFrac _ _ => true | _ => false end.
Definition is_string (v : json) : bool := match v with JStr _ => true | _ => false end.
Definition counters_of (kvs : list (string * json)) : list (string * json) := List.filter (λ kv, is_number kv.2) (collected_keys kvs).
Definition posture_of (kvs : list (string * json)) : list (string * json) := List.filter (λ kv, is_string kv.2) (collected_keys kvs).
Definition text_field (kvs : list (string * json)) (k : string) : string := match record_get kvs k with Some (JStr s) => s | _ => "" end.
Definition int_field (kvs : list (string * json)) (k : string) : Z := match record_get kvs k with Some (JNum n) => n | _ => 0 end.

Section collection.
Context (parse_url : string → option service_url) (process_env : string → option string).
(** The answer to GET and the milliseconds it took. *)
Context (fetchImpl : string → service_response * Z).
Context `{MetricsParser}.

Definition collectServiceStatus (service : ServiceName) (timeoutMs : option Z) : ServiceStatus :=
  let language := SERVICE_LANGUAGE service in
  match resolveServiceEndpoint parse_url process_env service with
  | Throw e => Unreachable service (message_of e) None
  | Ok None => NotConfigured service "no endpoint is configured for this service, so it is disabled"
  | Ok (Some endpoint) =>
      let '(response, latencyMs) := fetchImpl (endpoint +:+ "/v1/metrics") in
      match response with
      | Failed name message =>
          Unreachable service
            (if bool_decide (name = "AbortError")
             then "service did not respond within " +:+ pretty (default HEALTH_TIMEOUT_MS timeoutMs) +:+ "ms"
             else "service could not be reached: " +:+ message) (Some latencyMs)
      | Answered status body =>
          if negb ((200 <=? status) && (status <=? 299)) then
            Unreachable service ("service returned HTTP " +:+ pretty status) (Some latencyMs)
          else match body with
          | None => Unreachable service "service returned a non-JSON body" (Some latencyMs)
          | Some decoded =>
              match metrics_parse decoded with
              | inr message => Unreachable service ("metrics did not match the expected shape: " +:+ message) (Some latencyMs)
              | inl data =>
                  if negb (bool_decide (text_field data "language" = language)) then
                    Unreachable service ("endpoint reports itself as " +:+ text_field data "language" +:+ ", but " +:+ service_text service +:+
                      " is implemented in " +:+ language +:+ "; the endpoint is misconfigured") (Some latencyMs)
                  else Healthy service (mk_healthy_report latencyMs (int_field data "uptime_seconds") (text_field data "observed_at")
                         (counters_of data) (posture_of data))
              end
          end
      end
  end.

Definition collectAllServiceStatuses (timeoutMs : option Z) : list ServiceStatus :=
  (λ service, collectServiceStatus service timeoutMs) <$> MONITORED_SERVICES.
End collection.

(** ** History *)

Definition fits_int4 (n : Z) : bool := (- 2 ^ 31 <=? n) && (n <? 2 ^ 31).
Definition rules_health_samples : table_rules health_sample := {|
  checks r := [(match shs_latency_ms r with Some n => fits_int4 n | None => true end, NumericOverflow "latency_ms");
    (in_list ["payment-engine"; "risk-compliance-core"; "ledger-gateway"; "reporting-analytics"] (shs_service r),
      CheckViolation "service_health_samples_service_known");
    (in_list ["go"; "rust"; "python"] (shs_language r), CheckViolation "service_health_samples_language_known");
    (in_list ["healthy"; "unreachable"; "not_configured"] (shs_status r), CheckViolation "service_health_samples_status_known");
    (negb (bool_decide (shs_status r = "healthy")) || is_some (shs_latency_ms r), CheckViolation "service_health_samples_latency_coherent");
    (bool_decide (shs_status r = "healthy") || match shs_reason r with Some s => 0 <? js_length (pg_trim s) | None => false end,
      CheckViolation "service_health_samples_reason_present")];
  uniques _ _ := [];
  references _ _ := [] |}.

Section history.
(** [new Date(text)], when it is a date. *)
Context (date_of : string → option Z).

(** The row of a status; an invalid date is sent as text that is no timestamp. *)
Definition sample_row (collectedAt : Z) (s : ServiceStatus) : res health_sample :=
  let base latency uptime counters posture observed :=
    mk_health_sample (service_text (status_service s)) (SERVICE_LANGUAGE (status_service s)) (status_text s) latency uptime
      (JObj counters) (JObj posture) (status_reason s) (pg_of_js collectedAt) observed in
  match s with
  | Healthy _ h =>
      if truthy (hr_observedAt h) then
        match date_of (hr_observedAt h) with
        | Some t => Ok (base (Some (hr_latencyMs h)) (Some (hr_uptimeSeconds h)) (hr_counters h) (hr_posture h) (Some (pg_of_js t)))
        | None => Throw (PgError (InvalidInput "timestamp with time zone"))
        end
      else Ok (base (Some (hr_latencyMs h)) (Some (hr_uptimeSeconds h)) (hr_counters h) (hr_posture h) None)
  | _ => Ok (base None None [] [] None)
  end.

Definition insert_sample (collectedAt : Z) (x : uuid * ServiceStatus) : Tx db unit :=
  match sample_row collectedAt x.2 with
  | Throw e => throw e
  | Ok row => insert_row service_health_samples "service_health_samples" rules_health_samples x.1 row
  end.

(** [ids i] is the identifier the database generates for the [i]-th status. *)
Definition recordServiceHealthSamples (ids : nat → uuid) (statuses : list ServiceStatus) (collectedAt : Z) : Act db Z :=
  if bool_decide (statuses = []) then λ d, (Ok 0, d)
  else transaction (
    _ ← for_each (insert_sample collectedAt) (imap (λ i s, (ids i, s)) statuses);
    mret (Z.of_nat (length statuses))).
End history.

Definition clamp (value low high : Z) : Z := Z.min (Z.max value low) high.
Definition in_history (E : env) (minutes : Z) (r : health_sample) : bool := db_now E - minutes * 60000000 <=? shs_collected_at r.

(** [ORDER BY collected_at ASC, service ASC]. *)
Definition sample_le (x y : uuid * health_sample) : Prop :=
  shs_collected_at x.2 < shs_collected_at y.2 ∨
  shs_collected_at x.2 = shs_collected_at y.2 ∧ String.leb (shs_service x.2) (shs_service y.2) = true.
#[export] Instance sample_le_dec x y : Decision (sample_le x y).
Proof. unfold sample_le. apply _. Defined.

Definition listServiceHealthHistory (E : env) (sinceMinutes : option Z) (service : option string) (limit : option Z) (d : db) :
    list (uuid * health_sample) :=
  take (Z.to_nat (clamp (default 2000 limit) 1 20000))
    (merge_sort sample_le
      (select (λ _ r, in_history E (clamp (default 60 sinceMinutes) 1 43200) r &&
          match service with Some s => bool_decide (shs_service r = s) | None => true end) (service_health_samples d))).

(** ** Availability *)

Definition of_int (n : Z) : number := Fin (n * quantum).

(** [percentile_cont(0.5)] of whole numbers, in double precision. *)
Definition median (l : list Z) : option number :=
  let sorted := merge_sort Z.le l in
  let n := length sorted in
  lo ← sorted !! ((n - 1) / 2)%nat;
  hi ← sorted !! (n / 2)%nat;
  Some (if (n mod 2 =? 1)%nat then of_int lo else add (of_int lo) (mul (Fin (quantum / 2)) (sub (of_int hi) (of_int lo)))).

Record summary : Type := mk_summary {
  su_service : string;
  su_language : string;
  su_samples : Z;
  su_healthySamples : Z;
  su_availability : option number;
  su_medianLatencyMs : option number;
  su_lastStatus : string;
  su_lastCollectedAt : Z
}.

Definition string_max (s t : string) : string := if String.leb s t then t else s.

(** One group; the latest sample of a tie is any of them. *)
Definition summarise (rows : list health_sample) (service : string) : option summary :=
  let mine := List.filter (λ r, bool_decide (shs_service r = service)) rows in
  latest ← head (order_by_desc shs_collected_at mine);
  let samples := Z.of_nat (length mine) in
  let healthy := Z.of_nat (length (List.filter (λ r, bool_decide (shs_status r = "healthy")) mine)) in
  Some (mk_summary service (foldr string_max "" (shs_language <$> mine)) samples healthy
    (if 0 <? samples then Some (div (of_int healthy) (of_int samples)) else None)
    (median (omap shs_latency_ms mine)) (shs_status latest) (js_of_pg (shs_collected_at latest))).

(** [ORDER BY service]: the four names in order. *)
Definition service_names : list string := ["ledger-gateway"; "payment-engine"; "reporting-analytics"; "risk-compliance-core"].
Definition summariseServiceAvailability (E : env) (sinceMinutes : Z) (d : db) : list summary :=
  let rows := (select (λ _ r, in_history E (clamp sinceMinutes 1 43200) r) (service_health_samples d)).*2 in
  omap (summarise rows) service_names.

(** ** Objectives *)

Inductive slo_status : Type := InsufficientEvidence | WithinTarget | SloBreach.
#[export] Instance slo_status_eq_dec : EqDecision slo_status.
Proof. solve_decision. Defined.

Record ServiceHealthSlo : Type := mk_slo {
  slo_summary : summary;
  slo_state : slo_status;
  slo_targetAvailability : number;
  slo_minimumSamples : Z;
  slo_reason : string
}.

Definition number_text (n : Z) : string := pretty n.
Definition boundedInteger (value : option number) (fallback minimum maximum : Z) : res Z :=
  let refused := Throw (JsError ("value must be an integer between " +:+ number_text minimum +:+ " and " +:+ number_text maximum)) in
  match default (of_int fallback) value with
  | Fin v => if (v mod quantum =? 0) && (minimum <=? v / quantum) && (v / quantum <=? maximum) then Ok (v / quantum) else refused
  | _ => refused
  end.
Definition boundedRatio (value : option number) (fallback : number) : res number :=
  let candidate := default fallback value in
  match candidate with
  | Fin _ => if lt candidate (js_Number "0.9") || lt (of_int 1) candidate
             then Throw (JsError "availability target must be between 0.9 and 1") else Ok candidate
  | _ => Throw (JsError "availability target must be between 0.9 and 1")
  end.

Definition percent (x : number) : string := to_fixed 3 (mul x (of_int 100)).
Definition judge (targetAvailability : number) (minimumSamples : Z) (s : summary) : ServiceHealthSlo :=
  match su_availability s with
  | Some availability =>
      if su_samples s <? minimumSamples then
        mk_slo s InsufficientEvidence targetAvailability minimumSamples
          ("observed " +:+ number_text (su_samples s) +:+ " samples; at least " +:+ number_text minimumSamples +:+
           " are required before an SLO claim")
      else if lt availability targetAvailability then
        mk_slo s SloBreach targetAvailability minimumSamples
          ("observed availability " +:+ percent availability +:+ "% is below target " +:+ percent targetAvailability +:+ "%")
      else mk_slo s WithinTarget targetAvailability minimumSamples
          ("observed availability " +:+ percent availability +:+ "% meets the configured target")
  | None => mk_slo s InsufficientEvidence targetAvailability minimumSamples
      ("observed " +:+ number_text (su_samples s) +:+ " samples; at least " +:+ number_text minimumSamples +:+
       " are required before an SLO claim")
  end.

Definition evaluateServiceHealthSlo (E : env) (sinceMinutes targetAvailability minimumSamples : option number) (d : db) :
    res (list ServiceHealthSlo) :=
  since ← boundedInteger sinceMinutes 1440 60 43200;
  target ← boundedRatio targetAvailability (js_Number "0.995");
  least ← boundedInteger minimumSamples 288 1 20000;
  Ok (judge target least <$> summariseServiceAvailability E since d).

(** ** The monitor *)

Definition MIN_INTERVAL_SECONDS : Z := 60.
Definition MAX_INTERVAL_SECONDS : Z := 3600.
Definition strictEnabled (value : option string) : res bool :=
  match value with
  | None => Ok false
  | Some v => if bool_decide (v = "") || bool_decide (v = "false") then Ok false
      else if bool_decide (v = "true") then Ok true
      else Throw (JsError "UMOJA_SERVICE_HEALTH_MONITOR_ENABLED must be true or false")
  end.
Definition configuredInterval (value : option string) : res Z :=
  match value with
  | None | Some "" => Ok 300
  | Some v =>
      if negb (all_chars is_digit v) then Throw (JsError "UMOJA_SERVICE_HEALTH_MONITOR_INTERVAL_SECONDS must be an integer")
      else match js_Number v with
      | Fin x =>
          if (x mod quantum =? 0) && (x / quantum <=? MAX_SAFE) && (MIN_INTERVAL_SECONDS <=? x / quantum) && (x / quantum <=? MAX_INTERVAL_SECONDS)
          then Ok (x / quantum)
          else Throw (JsError ("UMOJA_SERVICE_HEALTH_MONITOR_INTERVAL_SECONDS must be between 60 and 3600"))
      | _ => Throw (JsError ("UMOJA_SERVICE_HEALTH_MONITOR_INTERVAL_SECONDS must be between 60 and 3600"))
      end
  end.

(** The advisory lock is held by a database session. *)
Record monitor_world : Type := mk_monitor_world { mw_db : db; mw_leader : option positive }.

Inductive HealthMonitorResult : Type :=
  | Collected (written : Z) (observedAt : string)
  | LeaderUnavailable
  | MonitorFailed (reason : string).

(** What happens around a round: a failure to connect or to ask for the lock,
    whether the unlock statement succeeds, and what is collected when. *)
Record round : Type := mk_round {
  rd_session : positive;
  rd_connect : option string;
  rd_unlocks : bool;
  rd_services : list ServiceStatus;
  rd_observedAt : Z;
  rd_now : Z;
  rd_ids : nat → uuid
}.

(** [pg_try_advisory_lock]: granted when the lock is free (or already this
    session's). *)
Definition acquirePostgresLeader (r : round) (w : monitor_world) : res bool * monitor_world :=
  match rd_connect r with
  | Some message => (Throw (JsError message), w)
  | None =>
      match mw_leader w with
      | Some other => if bool_decide (other = rd_session r) then (Ok true, w) else (Ok false, w)
      | None => (Ok true, mk_monitor_world (mw_db w) (Some (rd_session r)))
      end
  end.
Definition release (r : round) (w : monitor_world) : monitor_world :=
  if rd_unlocks r && bool_decide (mw_leader w = Some (rd_session r)) then mk_monitor_world (mw_db w) None else w.

(** The text of an error in a result. *)
Definition runServiceHealthMonitorRound (pg_message : pg_violation → string) (date_of : string → option Z) (r : round) (w : monitor_world) :
    HealthMonitorResult * monitor_world :=
  let text e := match e with JsError m => m | PgError v => pg_message v end in
  match acquirePostgresLeader r w with
  | (Throw e, w) => (MonitorFailed (text e), w)
  | (Ok false, w) => (LeaderUnavailable, w)
  | (Ok true, w) =>
      let '(recorded, d) := recordServiceHealthSamples date_of (rd_ids r) (rd_services r) (rd_now r) (mw_db w) in
      let w := mk_monitor_world d (mw_leader w) in
      (match recorded with
       | Ok written => Collected written (toISOString (rd_observedAt r))
       | Throw e => MonitorFailed (text e)
       end, release r w)
  end.

(** The scheduler inside one process: a round is running, or a timer is armed,
    or neither. *)
Record scheduler : Type := mk_scheduler { sc_stopped : bool; sc_timer : bool; sc_running : nat }.
Inductive scheduler_event : Type := RoundStarts | RoundEnds | Stop.
Definition startServiceHealthMonitor (process_env : string → option string) : res (option (Z * scheduler)) :=
  enabled ← strictEnabled (process_env "UMOJA_SERVICE_HEALTH_MONITOR_ENABLED");
  if (enabled : bool) then
    seconds ← configuredInterval (process_env "UMOJA_SERVICE_HEALTH_MONITOR_INTERVAL_SECONDS");
    Ok (Some (seconds * 1000, mk_scheduler false false 1))
  else Ok None.
(** A timer that fires starts a round; a round that ends arms the timer unless
    stopped; stopping clears the timer. *)
Inductive scheduler_step : scheduler → scheduler_event → scheduler → Prop :=
  | fires s : sc_timer s = true → scheduler_step s RoundStarts (mk_scheduler (sc_stopped s) false (S (sc_running s)))
  | ends s n : sc_running s = S n → scheduler_step s RoundEnds (mk_scheduler (sc_stopped s) (sc_timer s || negb (sc_stopped s)) n)
  | stops s : scheduler_step s Stop (mk_scheduler true false (sc_running s)).
