(* ===== verification/ServiceHealthProps.v ===== *)
(** * What is shown as healthy was observed, and what is claimed is evidenced *)

From S2P Require Import Prelude Js Numeric Rows Schema Zod Contracts ServiceBridge Doubles ServiceHealth.

Local Open Scope string_scope.
Local Open Scope Z_scope.

(** ** Reasons *)

Definition explained (reason : string) : Prop := 0 < js_length (pg_trim reason).
Lemma pg_trim_end_solid c s : c ≠ " "%char → pg_trim_end (String c s) ≠ "".
Proof. intros Hc. simpl. destruct (pg_trim_end s); [|done]. by destruct c as [[] [] [] [] [] [] [] []]. Qed.
Lemma explained_solid c s : c ≠ " "%char → explained (String c s).
Proof.
  intros Hc. unfold explained, pg_trim. assert (pg_trim_start (String c s) = String c s) as ->.
  { by destruct c as [[] [] [] [] [] [] [] []]. }
  pose proof (pg_trim_end_solid c s Hc) as Hn. destruct (pg_trim_end (String c s)) as [|x r]; [done|]. unfold js_length. simpl. lia.
Qed.

(** ** Collection *)

Lemma endpoint_error parse_url process_env s e : resolveServiceEndpoint parse_url process_env s = Throw e → explained (message_of e).
Proof.
  unfold resolveServiceEndpoint. cbv zeta. destruct (process_env _) as [raw|]; [|done]. case_bool_decide; [done|].
  assert (Hv : ∀ t, explained (ENDPOINT_ENV s +:+ t)) by (intros t; destruct s; by apply explained_solid).
  destruct (parse_url _) as [u|]; [|intros [= <-]; apply Hv]. unfold check, mbind, res_bind. repeat (destruct (_ && _)); try destruct (_ || _);
    intros [= <-]; apply Hv.
Qed.

Section collection.
Context (parse_url : string → option service_url) (process_env : string → option string).
Context (fetchImpl : string → service_response * Z) `{MetricsParser}.

(** What a service must have answered to be shown as healthy. *)
Record observed_healthy (service : ServiceName) (kvs : list (string * json)) (latency : Z) : Prop := {
  oh_answer : ∃ endpoint status, resolveServiceEndpoint parse_url process_env service = Ok (Some endpoint) ∧
    fetchImpl (endpoint +:+ "/v1/metrics") = (Answered status (Some (JObj kvs)), latency) ∧ 200 <= status <= 299;
  oh_shape : metrics_shape (JObj kvs) = true;
  oh_language : record_get kvs "language" = Some (JStr (SERVICE_LANGUAGE service))
}.
(** A report is the answer: its figures are the ones given, and every counter and
    posture is an entry of it. *)
Record reports (kvs : list (string * json)) (latency : Z) (h : healthy_report) : Prop := {
  rp_latency : hr_latencyMs h = latency;
  rp_uptime : record_get kvs "uptime_seconds" = Some (JNum (hr_uptimeSeconds h)) ∧ 0 <= hr_uptimeSeconds h;
  rp_observed : record_get kvs "observed_at" = Some (JStr (hr_observedAt h));
  rp_counters : ∀ k v, (k, v) ∈ hr_counters h ↔
    record_get kvs k = Some v ∧ is_number v = true ∧ k ∉ ["service"; "language"; "observed_at"; "__proto__"];
  rp_posture : ∀ k v, (k, v) ∈ hr_posture h ↔
    record_get kvs k = Some v ∧ is_string v = true ∧ k ∉ ["service"; "language"; "observed_at"; "__proto__"]
}.

Lemma record_get_found {A} (kvs : list (string * A)) k x : record_get kvs k = Some x → (k, x) ∈ kvs.
Proof.
  induction kvs as [|[k' y] kvs IH]; [done|]. simpl. case_bool_decide; [intros [= <-]; subst; left|]. intros. right. auto.
Qed.
Lemma entry_iff {A} (kvs : list (string * A)) k x : NoDup kvs.*1 → (k, x) ∈ kvs ↔ record_get kvs k = Some x.
Proof.
  intros Hn. split; [|apply record_get_found]. induction kvs as [|[k' y] kvs IH]; [by intros ?%not_elem_of_nil|].
  rewrite fmap_cons, NoDup_cons in Hn. destruct Hn as [Hk Hn]. rewrite elem_of_cons. simpl. case_bool_decide as He.
  - subst. intros [[= ->]|Hin]; [done|]. exfalso. apply Hk. apply list_elem_of_fmap. by exists (k', x).
  - intros [[= -> ->]|Hin]; [done|auto].
Qed.

(** The three required fields of a shape. *)
Lemma shape_fields kvs : metrics_shape (JObj kvs) = true → NoDup kvs.*1 ∧
  (∃ l, record_get kvs "language" = Some (JStr l)) ∧ (∃ n, record_get kvs "uptime_seconds" = Some (JNum n) ∧ 0 <= n) ∧
  (∃ o, record_get kvs "observed_at" = Some (JStr o) ∧ o ≠ "").
Proof.
  unfold metrics_shape. intros [Hn%bool_decide_eq_true Hf]%andb_true_iff. split; [done|]. cbn [forallb metricsSchema] in Hf.
  rewrite !andb_true_iff in Hf. destruct Hf as (_ & Hl & Hu & Ho & _). unfold field_ok in *. cbn [fst snd] in *. split_and!.
  - destruct (record_get kvs "language") as [[]|]; try done. by eexists.
  - destruct (record_get kvs "uptime_seconds") as [[]|]; try done. eexists. split; [done|]. cbn in Hu. lia.
  - destruct (record_get kvs "observed_at") as [[]|]; try done. eexists. split; [done|]. intros ->. done.
Qed.

Lemma filtered_entries (p : json → bool) data kvs k v : NoDup data.*1 → (∀ k, record_get data k = record_get kvs k) →
  (k, v) ∈ List.filter (λ kv, p kv.2) (collected_keys data) ↔
  record_get kvs k = Some v ∧ p v = true ∧ k ∉ ["service"; "language"; "observed_at"; "__proto__"].
Proof.
  intros Hn He. unfold collected_keys. rewrite list_elem_of_In, !filter_In, <- list_elem_of_In, entry_iff, He by done. cbn [fst snd].
  rewrite negb_true_iff. unfold includes. rewrite bool_decide_eq_false. naive_solver.
Qed.

Lemma collect_healthy service timeout kvs latency : observed_healthy service kvs latency →
  ∃ h, collectServiceStatus parse_url process_env fetchImpl service timeout = Healthy service h ∧ reports kvs latency h.
Proof.
  intros [(ep & st & Hr & Hf & Hst) Hs Hl]. unfold collectServiceStatus. cbv zeta. rewrite Hr, Hf.
  rewrite (proj2 (Z.leb_le 200 st)), (proj2 (Z.leb_le st 299)) by lia. cbn [andb negb].
  destruct (metrics_complete _ Hs) as [data Hd]. rewrite Hd.
  destruct (metrics_accepted _ _ Hd) as (_ & Hs' & kvs0 & [= <-] & Hsame).
  destruct (shape_fields _ Hs') as (Hn & _ & (n & Hu & Hn0) & (o & Ho & _)).
  unfold text_field, int_field. rewrite (Hsame "language"), Hl, bool_decide_eq_true_2, Hu, Ho by done. cbn [negb]. eexists. split; [done|].
  split; cbn; [done|rewrite <- Hsame; done|by rewrite <- Hsame|..]; intros k v; by apply filtered_entries.
Qed.

Lemma healthy_answer service kvs latency ep r lat : observed_healthy service kvs latency →
  resolveServiceEndpoint parse_url process_env service = Ok (Some ep) → fetchImpl (ep +:+ "/v1/metrics") = (r, lat) →
  ∃ st, r = Answered st (Some (JObj kvs)) ∧ 200 <= st <= 299 ∧ metrics_shape (JObj kvs) = true ∧
    record_get kvs "language" = Some (JStr (SERVICE_LANGUAGE service)).
Proof. intros [(x & st & Hx & Hf & Hst) Hs Hl] Hr Hg. rewrite Hr in Hx. injection Hx as <-. rewrite Hg in Hf. injection Hf as -> ->. by exists st. Qed.

Lemma collect_unhealthy service timeout :
  (∃ kvs latency, observed_healthy service kvs latency) ∨
  ∃ s reason, collectServiceStatus parse_url process_env fetchImpl service timeout = s ∧ status_service s = service ∧
    status_reason s = Some reason ∧ explained reason ∧ ∀ kvs latency, ~ observed_healthy service kvs latency.
Proof.
  unfold collectServiceStatus. cbv zeta. destruct (resolveServiceEndpoint parse_url process_env service) as [[ep|]|e] eqn:Hr.
  2:{ right. eexists _, _. split_and!; [done..|by apply explained_solid|]. intros kvs l [(? & ? & ? & _) _ _]. congruence. }
  2:{ right. eexists _, _. split_and!; [done..|by eapply endpoint_error|]. intros kvs l [(? & ? & ? & _) _ _]. congruence. }
  destruct (fetchImpl (ep +:+ "/v1/metrics")) as [resp lat] eqn:Hf. pose proof (λ kvs l Ho, healthy_answer service kvs l ep resp lat Ho Hr Hf) as Hans.
  destruct resp as [st body|name message].
  2:{ right. eexists _, _. split_and!; [done..|case_bool_decide; by apply explained_solid|]. by intros kvs l (? & ? & _)%Hans. }
  destruct (negb _) eqn:Hst.
  { right. eexists _, _. split_and!; [done..|by apply explained_solid|]. intros kvs l (st' & [= -> ->] & ? & _)%Hans.
    apply negb_true_iff, andb_false_iff in Hst as [?%Z.leb_gt|?%Z.leb_gt]; lia. }
  apply negb_false_iff, andb_true_iff in Hst as [?%Z.leb_le ?%Z.leb_le]. destruct body as [decoded|].
  2:{ right. eexists _, _. split_and!; [done..|by apply explained_solid|]. by intros kvs l (? & ? & _)%Hans. }
  destruct (metrics_parse decoded) as [data|m] eqn:Hd.
  2:{ right. eexists _, _. split_and!; [done..|by apply explained_solid|]. intros kvs l (? & [= -> ->] & _ & Hs & _)%Hans.
      destruct (metrics_complete _ Hs). congruence. }
  destruct (metrics_accepted _ _ Hd) as (Hs & Hs' & kvs0 & -> & Hsame). destruct (shape_fields _ Hs') as (_ & (l & Hl) & _).
  unfold text_field. rewrite Hl. case_bool_decide as Hlang; cbn [negb].
  - left. exists kvs0, lat. split; [by exists ep, st|done|]. rewrite <- Hsame. by rewrite Hl, Hlang.
  - right. eexists _, _. split_and!; [done..|by apply explained_solid|]. intros kvs l' (? & [= -> ->] & _ & _ & Hl')%Hans.
    rewrite <- Hsame, Hl in Hl'. by injection Hl' as ->.
Qed.
End collection.

(** ** Recording *)

Section recording.
Context (date_of : string → option Z) (at_ : Z).

(** A status the table takes. *)
Definition recordable (s : ServiceStatus) : Prop :=
  match s with
  | Healthy _ h => (hr_observedAt h = "" ∨ is_Some (date_of (hr_observedAt h))) ∧ - 2 ^ 31 <= hr_latencyMs h < 2 ^ 31
  | NotConfigured _ r | Unreachable _ r _ => explained r
  end.

Lemma service_listed s : in_list ["payment-engine"; "risk-compliance-core"; "ledger-gateway"; "reporting-analytics"] (service_text s) = true.
Proof. by destruct s. Qed.
Lemma language_listed s : in_list ["go"; "rust"; "python"] (SERVICE_LANGUAGE s) = true.
Proof. by destruct s. Qed.

Lemma sample_checks s row : sample_row date_of at_ s = Ok row →
  Forall (λ c, c.1 = true) (checks rules_health_samples row) ↔ recordable s.
Proof.
  intros Hs. assert (Hrow : shs_service row = service_text (status_service s) ∧ shs_language row = SERVICE_LANGUAGE (status_service s) ∧
    shs_status row = status_text s ∧ shs_reason row = status_reason s ∧
    shs_latency_ms row = match s with Healthy _ h => Some (hr_latencyMs h) | _ => None end ∧
    match s with Healthy _ h => hr_observedAt h = "" ∨ is_Some (date_of (hr_observedAt h)) | _ => True end).
  { revert Hs. unfold sample_row. destruct s as [s r|s r l|s h]; [intros [= <-]; done..|]. destruct (truthy _) eqn:Ht.
    - destruct (date_of _) eqn:Hd; [|done]. intros [= <-]. split_and!; try done. right. by eexists.
    - intros [= <-]. split_and!; try done. left. unfold truthy in Ht. by apply negb_false_iff, bool_decide_eq_true in Ht. }
  destruct Hrow as (E1 & E2 & E3 & E4 & E5 & E6). cbn [checks rules_health_samples]. rewrite !Forall_cons. cbn [fst].
  rewrite E1, E2, E3, E4, E5, service_listed, language_listed. unfold recordable.
  destruct s as [s r|s r l|s h]; cbn [status_text status_reason is_some].
  - rewrite !(bool_decide_eq_false_2 (_ = "healthy")) by done. cbn [negb orb]. unfold explained. rewrite Z.ltb_lt. split; [intros H; apply H|].
    intros H. split_and!; done || by apply Forall_nil.
  - rewrite !(bool_decide_eq_false_2 (_ = "healthy")) by done. cbn [negb orb]. unfold explained. rewrite Z.ltb_lt. split; [intros H; apply H|].
    intros H. split_and!; done || by apply Forall_nil.
  - unfold fits_int4. rewrite andb_true_iff, Z.leb_le, Z.ltb_lt. split; [intros [H _]; split; [done|lia]|].
    intros [_ H]. split_and!; try done; try lia.
Qed.

Lemma recordable_row s : recordable s → ∃ row, sample_row date_of at_ s = Ok row.
Proof.
  unfold sample_row. destruct s as [s r|s r l|s h]; [by eexists..|]. intros [[->|[t Ht]] _]; [by eexists|]. destruct (truthy _); [|by eexists].
  rewrite Ht. by eexists.
Qed.

Lemma insert_sample_ok k s d u d' : insert_sample date_of at_ (k, s) d = Ok (u, d') ↔
  ∃ row, sample_row date_of at_ s = Ok row ∧ recordable s ∧ service_health_samples d !! k = None ∧
    d' = set service_health_samples <[k := row]> d.
Proof.
  unfold insert_sample. cbn [fst snd]. destruct (sample_row date_of at_ s) as [row|e] eqn:Hs.
  - rewrite insert_row_ok, (sample_checks s row Hs). split; [intros (? & ? & _ & _ & ->); by exists row|].
    intros (row' & [= <-] & ? & ? & ->). split_and!; try done; by apply Forall_nil.
  - split; [done|]. by intros (? & ? & _).
Qed.

(** The rows of a round are all there, under the identifiers given. *)
Record round_written (l : list (uuid * ServiceStatus)) (d d' : db) : Prop := {
  rw_rows : ∀ k s, (k, s) ∈ l → ∃ row, sample_row date_of at_ s = Ok row ∧ service_health_samples d !! k = None ∧
    service_health_samples d' !! k = Some row;
  rw_rest : ∀ k, k ∉ l.*1 → service_health_samples d' !! k = service_health_samples d !! k;
  rw_log : activity_events d' = activity_events d
}.
Definition round_takes (l : list (uuid * ServiceStatus)) (d : db) : Prop :=
  NoDup l.*1 ∧ ∀ k s, (k, s) ∈ l → recordable s ∧ service_health_samples d !! k = None.

Lemma samples_set k row d : service_health_samples (set service_health_samples <[k := row]> d) = <[k := row]> (service_health_samples d).
Proof. by destruct d. Qed.

Lemma insert_samples l d : round_takes l d → ∃ d', for_each (insert_sample date_of at_) l d = Ok (tt, d') ∧ round_written l d d'.
Proof.
  revert d. induction l as [|[k s] l IH]; intros d [Hn Ht].
  - exists d. split; [done|]. split; [by intros ? ? ?%not_elem_of_nil|done..].
  - rewrite fmap_cons, NoDup_cons in Hn. destruct Hn as [Hk Hn]. destruct (Ht k s) as [Hs Hf]; [left|]. destruct (recordable_row s Hs) as [row Hrow].
    destruct (IH (set service_health_samples <[k := row]> d)) as (d' & Hd' & [W1 W2 W3]).
    { split; [done|]. intros k' s' Hin. destruct (Ht k' s') as [? ?]; [by right|]. split; [done|]. rewrite samples_set, lookup_insert_ne; [done|].
      intros <-. apply Hk. apply list_elem_of_fmap. by exists (k, s'). }
    exists d'. split; [cbn [for_each]; eapply tx_bind_run; [apply (insert_sample_ok k s d tt); by exists row|exact Hd']|]. split.
    + intros k' s' [[= -> ->]|Hin]%elem_of_cons.
      * exists row. split; [done|]. split; [done|]. rewrite W2 by done. by rewrite samples_set, lookup_insert_eq.
      * destruct (W1 k' s' Hin) as (row' & E1 & E2 & E3). exists row'. split_and!; [done| |done]. by apply (Ht k' s'); right.
    + intros k' Hk'. rewrite fmap_cons, not_elem_of_cons in Hk'. destruct Hk' as [Hne Hk']. rewrite W2 by done. by rewrite samples_set, lookup_insert_ne.
    + rewrite W3. by destruct d.
Qed.

Lemma inserted_samples l d u d' : for_each (insert_sample date_of at_) l d = Ok (u, d') → round_takes l d.
Proof.
  revert d. induction l as [|[k s] l IH]; intros d; cbn [for_each].
  - intros _. split; [constructor|by intros ? ? ?%not_elem_of_nil].
  - intros (x & d1 & (row & Hrow & Hs & Hf & ->)%insert_sample_ok & Hl)%tx_bind_ok. destruct (IH _ Hl) as [Hn Ht].
    assert (Hk : k ∉ l.*1).
    { intros ([k' s'] & -> & Hin)%list_elem_of_fmap. destruct (Ht _ _ Hin) as [_ Hc]. cbn [fst] in *. by rewrite samples_set, lookup_insert_eq in Hc. }
    split; [by rewrite fmap_cons, NoDup_cons|]. intros k' s' [[= -> ->]|Hin]%elem_of_cons; [done|]. destruct (Ht _ _ Hin) as [? Hc]. split; [done|].
    rewrite samples_set, lookup_insert_ne in Hc; [done|]. intros ->. apply Hk. apply list_elem_of_fmap. by exists (k', s').
Qed.

(** A round is written whole or not at all. *)
Lemma record_exact ids statuses d : let l := imap (λ i s, (ids i, s)) statuses in
  let out := recordServiceHealthSamples date_of ids statuses at_ d in
  (round_takes l d ∧ out.1 = Ok (Z.of_nat (length statuses)) ∧ round_written l d out.2) ∨
  (~ round_takes l d ∧ is_ok out.1 = false ∧ out.2 = d).
Proof.
  cbv zeta. unfold recordServiceHealthSamples. case_bool_decide as He.
  { subst. left. split; [split; [constructor|by intros ? ? ?%not_elem_of_nil]|]. split; [done|]. split; [by intros ? ? ?%not_elem_of_nil|done..]. }
  set (l := imap _ _). unfold transaction. unfold mbind, tx_bind. destruct (for_each (insert_sample date_of at_) l d) as [[u d']|e] eqn:Hf.
  - left. pose proof (inserted_samples _ _ _ _ Hf) as Ht. split; [done|]. destruct (insert_samples l d Ht) as (d2 & Hf2 & Hw). rewrite Hf in Hf2. injection Hf2 as -> ->. split; [done|exact Hw].
  - right. split; [|done]. intros (d2 & Hf2 & _)%insert_samples. congruence.
Qed.
End recording.

(** C36. Nothing is shown or stored as healthy that was not observed. A service
    is collected as healthy exactly when its endpoint resolves and answers 2xx
    with metrics of the expected shape in the service's own language; then the
    figures are the ones it gave, and the counters and posture are precisely the
    numeric and textual entries of its answer, none added; in every other case
    the status carries a non-blank reason. A round is written whole, every row at
    one collection time, exactly when identifiers are fresh and distinct, latencies fit and the
    reported times are dates, and otherwise not at all. A monitor round whose
    lock is held elsewhere writes nothing; one that gets the lock gives it back
    when the unlock succeeds. *)
Theorem health_is_observed parse_url process_env fetchImpl (P : MetricsParser) date_of pg_message :
  (∀ service timeout, let s := collectServiceStatus parse_url process_env fetchImpl service timeout in
    (∃ kvs latency h, observed_healthy parse_url process_env fetchImpl service kvs latency ∧ s = Healthy service h ∧ reports kvs latency h) ∨
    (∃ reason, status_service s = service ∧ status_reason s = Some reason ∧ explained reason ∧
      ∀ kvs latency, ~ observed_healthy parse_url process_env fetchImpl service kvs latency)) ∧
  (∀ ids statuses t d, let l := imap (λ i s, (ids i, s)) statuses in
    let out := recordServiceHealthSamples date_of ids statuses t d in
    (round_takes date_of l d ∧ out.1 = Ok (Z.of_nat (length statuses)) ∧ round_written date_of t l d out.2) ∨
    (~ round_takes date_of l d ∧ is_ok out.1 = false ∧ out.2 = d)) ∧
  (∀ r w, let out := runServiceHealthMonitorRound pg_message date_of r w in
    match mw_leader w with
    | Some other => other = rd_session r ∨ mw_db out.2 = mw_db w ∧ mw_leader out.2 = Some other
    | None => mw_db out.2 = (if is_some (rd_connect r) then mw_db w
        else (recordServiceHealthSamples date_of (rd_ids r) (rd_services r) (rd_now r) (mw_db w)).2) ∧
        (rd_unlocks r = false ∨ mw_leader out.2 = None)
    end).
Proof.
  split; [|split].
  - intros service timeout. cbv zeta. destruct (collect_unhealthy parse_url process_env fetchImpl service timeout) as [(kvs & lat & Ho)|(s & r & <- & H)].
    + left. destruct (collect_healthy parse_url process_env fetchImpl service timeout kvs lat Ho) as (h & Hh & Hr). by exists kvs, lat, h.
    + right. exists r. done.
  - intros ids statuses t d. apply record_exact.
  - intros r w. cbv zeta. unfold runServiceHealthMonitorRound, acquirePostgresLeader.
    destruct (mw_leader w) as [other|] eqn:Hl; destruct (rd_connect r); cbn; auto.
    + case_bool_decide; [by left|]. right. done.
    + destruct (recordServiceHealthSamples _ _ _ _ _) as [rr d']. cbn. unfold release. cbn. rewrite bool_decide_eq_true_2, andb_true_r by done.
      destruct (rd_unlocks r); cbn; auto.
Qed.

(** ** Objectives *)

Definition window_samples (E : env) (minutes : Z) (d : db) : list health_sample :=
  (select (λ _ r, in_history E (clamp minutes 1 43200) r) (service_health_samples d)).*2.
Definition of_service (service : string) (rows : list health_sample) : list health_sample :=
  List.filter (λ r, bool_decide (shs_service r = service)) rows.
Definition healthy_rows (rows : list health_sample) : list health_sample := List.filter (λ r, bool_decide (shs_status r = "healthy")) rows.

Lemma filter_length {A} (p : A → bool) l : (length (List.filter p l) ≤ length l)%nat.
Proof. induction l as [|x l IH]; simpl; [done|]. destruct (p x); simpl; lia. Qed.

Lemma one_finite : finite_value quantum.
Proof. split; [exists 1, 1074; split; [rewrite Z.abs_eq by (pose proof quantum_pos; lia); unfold quantum; ring|vm_compute; intuition congruence]|vm_compute; reflexivity]. Qed.

(** A ratio of counts as a double: at most one, and monotone against every
    representable number. *)
Lemma ratio h n : 0 <= h <= n → 0 < n → ∃ v, div (of_int h) (of_int n) = Fin v ∧ 0 <= v <= quantum ∧
  (∀ t, 0 <= t → finite_value t → t * n <= h * quantum → t <= v) ∧ (∀ t, 0 <= t → finite_value t → h * quantum <= t * n → v <= t).
Proof.
  intros Hh Hn. pose proof quantum_pos as Hq. unfold of_int, div.
  rewrite (proj2 (Z.eqb_neq (n * quantum) 0)), Z.sgn_pos, Z.mul_1_l, Z.abs_eq by nia.
  destruct (of_quanta_below (h * quantum * quantum) (n * quantum) quantum) as (v & Hv & Hb); [nia|nia|lia|apply one_finite|nia|].
  exists v. split; [done|]. split; [done|]. split; intros t Ht Hf Hle.
  - assert (Hid : of_quanta (t * (n * quantum)) (n * quantum) = Fin t) by (apply of_quanta_id; [nia|done]).
    apply (of_quanta_mono (t * (n * quantum)) (n * quantum) (h * quantum * quantum) (n * quantum)); [nia..| |exact Hid|exact Hv].
    rewrite (Z.mul_assoc t n quantum). repeat (apply Z.mul_le_mono_nonneg_r; [nia|]). exact Hle.
  - assert (Hid : of_quanta (t * (n * quantum)) (n * quantum) = Fin t) by (apply of_quanta_id; [nia|done]).
    apply (of_quanta_mono (h * quantum * quantum) (n * quantum) (t * (n * quantum)) (n * quantum)); [nia..| |exact Hv|exact Hid].
    rewrite (Z.mul_assoc t n quantum). repeat (apply Z.mul_le_mono_nonneg_r; [nia|]). exact Hle.
Qed.

Lemma summarise_some rows service s : summarise rows service = Some s → su_service s = service ∧
  su_samples s = Z.of_nat (length (of_service service rows)) ∧ 0 < su_samples s ∧
  su_healthySamples s = Z.of_nat (length (healthy_rows (of_service service rows))) ∧
  su_availability s = Some (div (of_int (su_healthySamples s)) (of_int (su_samples s))) ∧
  ∃ r, r ∈ of_service service rows ∧ su_lastStatus s = shs_status r ∧ ∀ r', r' ∈ of_service service rows → shs_collected_at r' <= shs_collected_at r.
Proof.
  unfold summarise. fold (of_service service rows). cbv zeta. set (mine := of_service service rows).
  pose proof (order_by_perm (λ r, - shs_collected_at r) mine) as Hp. pose proof (order_by_sorted (λ r, - shs_collected_at r) mine) as Hs.
  unfold order_by_desc. destruct (order_by _ mine) as [|r l] eqn:Ho; [done|]. cbn [head hd_error mbind option_bind]. intros [= <-].
  assert (Hlen : (0 < length mine)%nat) by (rewrite <- Hp; simpl; lia). cbn [su_service su_samples su_healthySamples su_availability su_lastStatus].
  split_and!; [done|done|lia|done|by rewrite (proj2 (Z.ltb_lt _ _)) by lia|].
  exists r. split; [rewrite <- Hp; left|]. split; [done|]. intros r' Hr'. rewrite <- Hp in Hr'. apply StronglySorted_inv in Hs as [_ Hall].
  rewrite Forall_forall in Hall. apply elem_of_cons in Hr' as [->|Hr']; [done|]. specialize (Hall r' Hr'). unfold key_le in Hall. lia.
Qed.

Lemma summarise_none rows service : summarise rows service = None ↔ of_service service rows = [].
Proof.
  unfold summarise. fold (of_service service rows). cbv zeta. unfold order_by_desc.
  pose proof (order_by_perm (λ r, - shs_collected_at r) (of_service service rows)) as Hp. destruct (order_by _ _) as [|r l].
  - split; [|done]. intros _. by apply Permutation_nil_l in Hp.
  - split; [done|]. intros E. rewrite E in Hp. by apply Permutation_nil_r in Hp.
Qed.

Lemma boundedInteger_ok value fallback low high n : boundedInteger value fallback low high = Ok n → low <= n <= high.
Proof.
  unfold boundedInteger. cbv zeta. destruct (default _ _) as [v| |]; try done. destruct (_ && _) eqn:H; [|done]. intros [= <-].
  rewrite !andb_true_iff in H. lia.
Qed.

(** A number of JavaScript: finite ones are doubles. *)
Definition is_double (x : number) : Prop := match x with Fin v => finite_value v | _ => True end.
Lemma js_Number_double s : is_double (js_Number s).
Proof. destruct (js_Number s) as [v| |] eqn:H; [|done..]. by eapply js_Number_finite. Qed.

Lemma nine_tenths : ∃ x, js_Number "0.9" = Fin x ∧ 0 < x.
Proof. eexists. split; [vm_compute; reflexivity|reflexivity]. Qed.
Lemma boundedRatio_ok value fallback t : is_double (default fallback value) → boundedRatio value fallback = Ok t →
  ∃ v, t = Fin v ∧ finite_value v ∧ 0 < v <= quantum ∧ lt (Fin v) (js_Number "0.9") = false.
Proof.
  destruct nine_tenths as (x & Hx & Hx0). unfold boundedRatio. rewrite Hx. cbv zeta. unfold of_int. rewrite Z.mul_1_l.
  destruct (default fallback value) as [v| |]; [|discriminate..]. cbn [is_double lt]. intros Hd.
  destruct (v <? x) eqn:H1; [discriminate|]. destruct (quantum <? v) eqn:H2; [discriminate|]. cbn [orb]. intros [= <-]. exists v.
  split; [reflexivity|]. split; [exact Hd|]. split; [lia|exact H1].
Qed.

(** What a judgement means, in exact arithmetic: [mine] are the samples of the
    service in the window and [t] the target in quanta. *)
Record evidenced (mine : list health_sample) (t least : Z) (x : ServiceHealthSlo) : Prop := {
  ev_samples : su_samples (slo_summary x) = Z.of_nat (length mine) ∧ 0 < su_samples (slo_summary x);
  ev_healthy : su_healthySamples (slo_summary x) = Z.of_nat (length (healthy_rows mine));
  ev_last : ∃ r, r ∈ mine ∧ su_lastStatus (slo_summary x) = shs_status r ∧ ∀ r', r' ∈ mine → shs_collected_at r' <= shs_collected_at r;
  ev_insufficient : slo_state x = InsufficientEvidence ↔ su_samples (slo_summary x) < least;
  ev_breach : slo_state x = SloBreach → su_healthySamples (slo_summary x) * quantum < t * su_samples (slo_summary x);
  ev_within : slo_state x = WithinTarget → ∀ t', 0 <= t' < t → finite_value t' →
    t' * su_samples (slo_summary x) <= su_healthySamples (slo_summary x) * quantum;
  ev_perfect : su_healthySamples (slo_summary x) = su_samples (slo_summary x) → slo_state x ≠ SloBreach
}.

Lemma judge_evidenced rows service s t least : summarise rows service = Some s → finite_value t → 0 < t <= quantum →
  evidenced (of_service service rows) t least (judge (Fin t) least s).
Proof.
  intros (_ & Hn & Hpos & Hh & Ha & Hl)%summarise_some Hf Ht. unfold judge. rewrite Ha. pose proof quantum_pos as Hq.
  pose proof (filter_length (λ r, bool_decide (shs_status r = "healthy")) (of_service service rows)) as Hle.
  fold (healthy_rows (of_service service rows)) in Hle.
  destruct (ratio (su_healthySamples s) (su_samples s)) as (v & Hv & Hvb & Hlow & Hup); [lia|lia|]. rewrite Hv. cbn [lt].
  destruct (su_samples s <? least) eqn:Hless; [|destruct (v <? t) eqn:Hlt]; split; cbn [slo_summary slo_state]; try done; try lia.
  - split; [lia|done].
  - split; [done|lia].
  - intros _. destruct (Z.lt_ge_cases (su_healthySamples s * quantum) (t * su_samples s)) as [|Hge]; [done|]. pose proof (Hlow t ltac:(lia) Hf Hge). lia.
  - intros He. exfalso. assert (t <= v); [|lia]. apply Hlow; [lia|done|]. nia.
  - split; [done|lia].
  - intros _ t' Ht' Hf'. destruct (Z.le_gt_cases (t' * su_samples s) (su_healthySamples s * quantum)) as [|Hgt]; [done|].
    pose proof (Hup t' ltac:(lia) Hf' ltac:(lia)). lia.
Qed.

(** An objective is claimed only on evidence. When an evaluation answers,
    the window is between an hour and thirty days and the target between 0.9 and
    1; exactly the services with a sample in the window are judged, each once;
    each is judged on its own samples in the window: insufficient exactly below
    the minimum number, never a breach when every sample is healthy, a breach only
    when the exact ratio is below the target, and within target only when the
    ratio is at least every double below the target; the last status is that of
    a latest sample. *)
Theorem slo_is_evidenced E since target least d l :
  is_double (default (js_Number "0.995") target) → evaluateServiceHealthSlo E since target least d = Ok l →
  ∃ minutes t n, 60 <= minutes <= 43200 ∧ 1 <= n <= 20000 ∧ 0 < t <= quantum ∧ lt (Fin t) (js_Number "0.9") = false ∧
    (λ x, su_service (slo_summary x)) <$> l = List.filter (λ s, negb (bool_decide (of_service s (window_samples E minutes d) = []))) service_names ∧
    ∀ x, x ∈ l → slo_targetAvailability x = Fin t ∧ slo_minimumSamples x = n ∧
      evidenced (of_service (su_service (slo_summary x)) (window_samples E minutes d)) t n x.
Proof.
  intros Hd. unfold evaluateServiceHealthSlo. unfold mbind, res_bind. destruct (boundedInteger since _ _ _) as [minutes|] eqn:Hm; [|done].
  destruct (boundedRatio _ _) as [tn|] eqn:Ht; [|done]. destruct (boundedInteger least _ _ _) as [n|] eqn:Hn; [|done]. intros [= <-].
  apply boundedInteger_ok in Hm, Hn. destruct (boundedRatio_ok _ _ _ Hd Ht) as (t & -> & Hf & Hb & H9). exists minutes, t, n.
  split; [exact Hm|]. split; [exact Hn|]. split; [exact Hb|]. split; [exact H9|]. clear Hd Ht H9. split.
  - unfold summariseServiceAvailability. fold (window_samples E minutes d). generalize service_names. intros names. induction names as [|s names IH]; [done|].
    cbn [omap list_omap List.filter]. destruct (summarise (window_samples E minutes d) s) as [x|] eqn:Hs.
    + assert (of_service s (window_samples E minutes d) ≠ []) by (intros E0; apply summarise_none in E0; congruence).
      rewrite bool_decide_eq_false_2 by done. cbn [negb]. rewrite !fmap_cons. apply summarise_some in Hs as (<- & _). f_equal; [|exact IH].
      unfold judge. destruct (su_availability x); [destruct (_ <? _); [|destruct (lt _ _)]|]; done.
    + rewrite bool_decide_eq_true_2 by (by apply summarise_none). exact IH.
  - intros x (s & -> & Hs)%list_elem_of_fmap. unfold summariseServiceAvailability in Hs. fold (window_samples E minutes d) in Hs.
    apply list_elem_of_omap in Hs as (service & _ & Hs). pose proof (judge_evidenced _ _ _ t n Hs Hf Hb) as He.
    assert (slo_summary (judge (Fin t) n s) = s ∧ slo_targetAvailability (judge (Fin t) n s) = Fin t ∧ slo_minimumSamples (judge (Fin t) n s) = n) as (E1 & E2 & E3).
    { unfold judge. destruct (su_availability s); [destruct (_ <? _); [|destruct (lt _ _)]|]; done. }
    rewrite E1. apply summarise_some in Hs as (-> & _). done.
Qed.

(** ** The scheduler *)

Inductive scheduler_run : scheduler → list scheduler_event → scheduler → Prop :=
  | sr_nil s : scheduler_run s [] s
  | sr_cons s e s1 es s2 : scheduler_step s e s1 → scheduler_run s1 es s2 → scheduler_run s (e :: es) s2.

Definition alternating (s : scheduler) : Prop := (sc_running s + (if sc_timer s then 1 else 0) ≤ 1)%nat ∧ (sc_stopped s = true → sc_timer s = false).
Lemma scheduler_step_alternating s e s' : scheduler_step s e s' → alternating s → alternating s'.
Proof.
  intros [x Ht|x n Hr|x] [H1 H2]; unfold alternating; cbn.
  - rewrite Ht in H1. split; [lia|done].
  - rewrite Hr in H1. destruct (sc_timer x); [lia|]. cbn. destruct (sc_stopped x); cbn; split; try done; lia.
  - split; [destruct (sc_timer x); lia|done].
Qed.
Lemma stopped_quiet s es s' : scheduler_run s es s' → alternating s → sc_stopped s = true → RoundStarts ∉ es.
Proof.
  induction 1 as [|s e s1 es s2 Hs _ IH]; intros Ha Hst; [apply not_elem_of_nil|]. pose proof (scheduler_step_alternating _ _ _ Hs Ha) as Ha1.
  apply not_elem_of_cons. destruct Ha as [_ Ht]. specialize (Ht Hst). destruct Hs as [x Hx|x n Hr|x]; [congruence| |]; (split; [done|]); by apply IH.
Qed.

(** A monitor that starts has an interval between a minute and an hour, never
    runs two rounds at once, and starts none after it is stopped. *)
Theorem monitor_is_bounded process_env ms s0 es s : startServiceHealthMonitor process_env = Ok (Some (ms, s0)) → scheduler_run s0 es s →
  60000 <= ms <= 3600000 ∧ (sc_running s ≤ 1)%nat ∧ ∀ es' s', sc_stopped s = true → scheduler_run s es' s' → RoundStarts ∉ es'.
Proof.
  unfold startServiceHealthMonitor, mbind, res_bind. destruct (strictEnabled _) as [[]|]; [|done..].
  destruct (configuredInterval _) as [n|] eqn:Hi; [|done]. intros [= <- <-] Hrun.
  assert (Hn : 60 <= n <= 3600).
  { revert Hi. unfold configuredInterval, MIN_INTERVAL_SECONDS, MAX_INTERVAL_SECONDS. destruct (process_env _) as [[|c v]|]; [intros [= <-]; lia| |intros [= <-]; lia].
    destruct (negb _); [done|]. destruct (js_Number _) as [x| |]; [|done..]. destruct (_ && _) eqn:Hb; [|done]. intros [= <-]. rewrite !andb_true_iff in Hb. lia. }
  assert (Ha : alternating s).
  { assert (alternating (mk_scheduler false false 1)) as H0 by (split; done). revert H0. induction Hrun as [|? ? ? ? ? Hs _ IH]; [done|].
    intros H0. by eapply IH, scheduler_step_alternating. }
  split; [lia|]. split; [destruct Ha as [Ha _]; lia|]. intros es' s' Hst Hr. by eapply stopped_quiet.
Qed.

(** ** A worked collection *)

Definition metrics_answer (observed : string) : json :=
  JObj [("service", JStr "payment-engine"); ("language", JStr "go"); ("uptime_seconds", JNum 77); ("observed_at", JStr observed);
        ("orders_validated", JNum 4); ("provider_execution", JStr "disabled"); ("nested", JObj [])].
Definition local_url (s : string) : option service_url := Some (mk_service_url "http:" "localhost" "" "" s "").
Definition one_service (v : string) : option string := if bool_decide (v = "UMOJA_PAYMENT_ENGINE_URL") then Some "http://localhost:1" else None.
Definition metrics_server (observed url : string) : service_response * Z := (Answered 200 (Some (metrics_answer observed)), 12).
Definition two_dates (s : string) : option Z := if bool_decide (s = "2026-01-01T00:00:00Z") then Some 1767225600000 else None.
Definition collected (observed : string) : list ServiceStatus :=
  @collectAllServiceStatuses local_url one_service (metrics_server observed) reference_metrics None.
Definition sample_ids (i : nat) : uuid := Pos.of_succ_nat i.

Lemma collected_texts : status_text <$> collected "2026-01-01T00:00:00Z" = ["healthy"; "not_configured"; "not_configured"; "not_configured"].
Proof. vm_compute. reflexivity. Qed.

(** Witness of [health_is_observed]: one service answers, and its counters are
    the numbers it gave. *)
Lemma health_is_observed_witness : ∃ kvs latency h,
  @collectServiceStatus local_url one_service (metrics_server "2026-01-01T00:00:00Z") reference_metrics PaymentEngine None = Healthy PaymentEngine h ∧
  reports kvs latency h ∧ hr_counters h = [("uptime_seconds", JNum 77); ("orders_validated", JNum 4)] ∧
  is_ok (recordServiceHealthSamples two_dates sample_ids (collected "2026-01-01T00:00:00Z") 5 empty_db).1 = true.
Proof.
  destruct (proj1 (health_is_observed local_url one_service (metrics_server "2026-01-01T00:00:00Z") reference_metrics two_dates (λ _, "")) PaymentEngine None)
    as [(kvs & lat & h & _ & Hs & Hr)|(reason & _ & Hs & _)]; [|vm_compute in Hs; discriminate Hs].
  exists kvs, lat, h. split; [exact Hs|]. split; [exact Hr|]. split; [|vm_compute; reflexivity].
  vm_compute in Hs. injection Hs as <-. reflexivity.
Defined.

(** ** Departures *)

(** One service that reports a time that is no date, and nothing of the round is
    recorded: neither its own sample nor those of the other services. *)
Theorem unreadable_time_loses_round :
  status_text <$> collected "soon" = ["healthy"; "not_configured"; "not_configured"; "not_configured"] ∧
  recordServiceHealthSamples two_dates sample_ids (collected "soon") 5 empty_db =
    (Throw (PgError (InvalidInput "timestamp with time zone")), empty_db).
Proof. split; vm_compute; reflexivity. Qed.

(** Two replicas whose rounds do not overlap both record: the lock is free in
    between. *)
Definition replica_round (session : positive) (now : Z) (ids : nat → uuid) : round :=
  mk_round session None true (collected "2026-01-01T00:00:00Z") now now ids.
Theorem staggered_replicas_both_record :
  let run := runServiceHealthMonitorRound (λ _, "") two_dates in
  let '(r1, w1) := run (replica_round 1 1000 sample_ids) (mk_monitor_world empty_db None) in
  let '(r2, w2) := run (replica_round 2 1001 (λ i, Pos.of_succ_nat (i + 10))) w1 in
  r1 = Collected 4 "1970-01-01T00:00:01.000Z" ∧ r2 = Collected 4 "1970-01-01T00:00:01.001Z" ∧ size (service_health_samples (mw_db w2)) = 8%nat.
Proof. vm_compute. split; [reflexivity|]. split; reflexivity. Qed.

(** ** A worked objective *)

Definition health1 : db := (recordServiceHealthSamples two_dates sample_ids (collected "2026-01-01T00:00:00Z") 5 empty_db).2.
Definition health_env : env := mk_env 60000 60000000 0.
Definition slo_states (r : res (list ServiceHealthSlo)) : list (string * slo_status) :=
  match r with Ok l => (λ x, (su_service (slo_summary x), slo_state x)) <$> l | Throw _ => [] end.
Lemma health1_slo : slo_states (evaluateServiceHealthSlo health_env None None (Some (of_int 1)) health1) =
  [("ledger-gateway", SloBreach); ("payment-engine", WithinTarget); ("reporting-analytics", SloBreach); ("risk-compliance-core", SloBreach)].
Proof. vm_compute. reflexivity. Qed.
Lemma default_target_double : is_double (js_Number "0.995").
Proof. apply js_Number_double. Qed.

(** Witness of [slo_is_evidenced]. *)
Lemma slo_is_evidenced_witness : ∃ l minutes t n, evaluateServiceHealthSlo health_env None None (Some (of_int 1)) health1 = Ok l ∧ length l = 4%nat ∧
  ∀ x, x ∈ l → evidenced (of_service (su_service (slo_summary x)) (window_samples health_env minutes health1)) t n x.
Proof.
  pose proof health1_slo as Hs. destruct (evaluateServiceHealthSlo health_env None None (Some (of_int 1)) health1) as [l|e] eqn:He; [|discriminate Hs].
  destruct (slo_is_evidenced health_env None None (Some (of_int 1)) health1 l default_target_double He) as (minutes & t & n & _ & _ & _ & _ & _ & H).
  exists l, minutes, t, n. split; [reflexivity|]. split; [|intros x Hx; apply H; exact Hx].
  cbn [slo_states] in Hs. apply (f_equal length) in Hs. rewrite length_fmap in Hs. exact Hs.
Defined.
