(* ===== verification/Scheduled.v ===== *)
(** * Scheduled work

    src/apps/control-plane/server/scheduled: the authentication of a scheduler
    and its four handlers, each a composition of handlers modelled elsewhere, and
    the jobs of postgres.ts (lines 733 to 744 and 1583 to 1601). *)

From S2P Require Import Prelude Js Numeric Sha256 Hmac Rows Schema RateLocks PaymentWorkflow OperationalAlerts Policies Integrations Lakehouse Zod Contracts ServiceBridge Doubles Reporting ServiceHealth.

Local Open Scope string_scope.
Local Open Scope Z_scope.

(** ** Jobs *)

Definition rules_scheduled_jobs : table_rules scheduled_job := {|
  checks r := [(in_list ["regulatory_deadline_reminders"; "counterparty_risk_reviews"] (sj_purpose r), InvalidInput "scheduled_job_purpose")];
  uniques t r := [unique (λ x, bool_decide (sj_purpose x = sj_purpose r)) "scheduled_jobs_purpose_key" t;
    unique (λ x, is_some (sj_schedule_cron_task_uid r) && bool_decide (sj_schedule_cron_task_uid x = sj_schedule_cron_task_uid r))
      "scheduled_jobs_schedule_cron_task_uid_key" t];
  references _ _ := [] |}.

Definition createPostgresScheduledJob (E : env) (a : actor) (new_id : uuid) (purpose taskUid cronExpression : string) : Act db (uuid * scheduled_job) :=
  transaction (
    taken ← gets (λ d, any (λ _ x, bool_decide (sj_purpose x = purpose) && sj_enabled x) (scheduled_jobs d));
    _ ← throw_if taken (JsError "An enabled scheduled job already exists for this purpose");
    let job := mk_scheduled_job purpose (Some taskUid) cronExpression true None (a_openId a) (db_now E) in
    _ ← insert_row scheduled_jobs "scheduled_jobs" rules_scheduled_jobs new_id job;
    _ ← Postgres.recordActivity E a "scheduled_job.created" "scheduled_job" new_id
      [("purpose", JStr purpose); ("cronExpression", JStr cronExpression); ("taskUid", JStr taskUid)];
    mret (new_id, job)).

Definition has_task (taskUid : string) (x : scheduled_job) : bool := bool_decide (sj_schedule_cron_task_uid x = Some taskUid).
Definition getPostgresScheduledJobByTaskUid (taskUid : string) (d : db) : option scheduled_job :=
  snd <$> head (select (λ _ x, has_task taskUid x) (scheduled_jobs d)).
Definition markPostgresScheduledJobExecuted (E : env) (taskUid : string) (d : db) : db :=
  set scheduled_jobs (fmap (λ x, if has_task taskUid x then x <| sj_last_executed_at := Some (db_now E) |> else x)) d.

(** ** The scheduler *)

(** [/^[A-Za-z0-9][A-Za-z0-9._:-]{2,127}$/]. *)
Definition uid_char (c : ascii) : bool := is_alnum c || includes ["."; "_"; ":"; "-"] (String c "").
Definition task_uid_ok (s : string) : bool :=
  match s with
  | String c r => is_alnum c && all_chars uid_char r && (2 <=? js_length r) && (js_length r <=? 127)
  | EmptyString => false
  end.

Record ScheduledInvocation : Type := mk_invocation { si_taskUid : string; si_openId : string }.

(** The answers of the handlers. *)
Inductive scheduled_answer (A : Type) : Type :=
  | SchedulerOnly
  | SkippedOrphan
  | Handled (result : A)
  | HandlerError (message : string).
Arguments SchedulerOnly {A}. Arguments SkippedOrphan {A}. Arguments Handled {A}. Arguments HandlerError {A}.

Section handlers.
(** The configured token and the headers of the request. *)
Context (expected : option string) (header : string → option string).

(** [timingSafeEqual] on buffers of one length is equality. *)
Definition authenticateScheduledInvocation : option ScheduledInvocation :=
  match expected, header "x-umoja-scheduler-token", header "x-umoja-schedule-id" with
  | Some token, Some provided, Some taskUid =>
      if negb (truthy token) || negb (truthy provided) || negb (truthy taskUid) || negb (task_uid_ok taskUid) then None
      else if bool_decide (token = provided) then Some (mk_invocation taskUid ("scheduler:" +:+ taskUid)) else None
  | _, _, _ => None
  end.

(** The clock at each statement, what other handlers do in between, and the text
    of a database error. *)
Context (clock : nat → env) (others : nat → db → db) (pg_message : pg_violation → string).
Definition error_text (e : error) : string := match e with JsError m => m | PgError v => pg_message v end.

Definition enabled_for (purpose : string) (job : option scheduled_job) : bool :=
  match job with Some j => sj_enabled j && bool_decide (sj_purpose j = purpose) | None => false end.

Definition regulatoryDeadlineReminders (local_day : Z → Z) (webhook : string → string → bool) (corr : uuid → uuid) (evaluation : uuid) (d : db) :
    scheduled_answer (Z * list uuid * (Z * Z * Z)) * db :=
  match authenticateScheduledInvocation with
  | None => (SchedulerOnly, d)
  | Some invocation =>
      if negb (enabled_for "regulatory_deadline_reminders" (getPostgresScheduledJobByTaskUid (si_taskUid invocation) d)) then (SkippedOrphan, d)
      else
        let actor := mk_actor (si_openId invocation) RoleAuditor in
        match expirePostgresRateLocks (clock 0) actor (others 0 d) with
        | (Throw e, d) => (HandlerError (error_text e), d)
        | (Ok rateLocks, d) =>
            match evaluatePostgresRegulatoryDeadlines local_day (clock 1) webhook corr evaluation actor None (others 1 d) with
            | (Throw e, d) => (HandlerError (error_text e), d)
            | (Ok deadlines, d) =>
                (Handled (rateLocks, deadlines), markPostgresScheduledJobExecuted (clock 2) (si_taskUid invocation) (others 2 d))
            end
        end
  end.

Definition counterpartyRiskReviews (d : db) : scheduled_answer review_evaluation * db :=
  match authenticateScheduledInvocation with
  | None => (SchedulerOnly, d)
  | Some invocation =>
      if negb (enabled_for "counterparty_risk_reviews" (getPostgresScheduledJobByTaskUid (si_taskUid invocation) d)) then (SkippedOrphan, d)
      else match evaluatePostgresCounterpartyRiskReviews (clock 0) (mk_actor (si_openId invocation) RoleAdmin) None (others 0 d) with
      | (Throw e, d) => (HandlerError (error_text e), d)
      | (Ok result, d) => (Handled result, markPostgresScheduledJobExecuted (clock 1) (si_taskUid invocation) (others 1 d))
      end
  end.

Definition lakehouseControlEvidenceDrain (parse_url : string → option url) (process_env : string → option string)
    (catalog : url → string → json → fetch_result) (d : db) : scheduled_answer drain_result * db :=
  match authenticateScheduledInvocation with
  | None => (SchedulerOnly, d)
  | Some _ => match drainLakehouseControlEvidence parse_url process_env catalog clock None None d with (Ok r, d) => (Handled r, d) | (Throw e, d) => (HandlerError (error_text e), d) end
  end.

Definition serviceHealthCollector (date_of : string → option Z) (ids : nat → uuid) (services : list ServiceStatus) (d : db) :
    scheduled_answer (Z * list (string * string)) * db :=
  match authenticateScheduledInvocation with
  | None => (SchedulerOnly, d)
  | Some _ =>
      match recordServiceHealthSamples date_of ids services (app_now (clock 0)) d with
      | (Ok written, d) => (Handled (written, (λ s, (service_text (status_service s), status_text s)) <$> services), d)
      | (Throw e, d) => (HandlerError (error_text e), d)
      end
  end.
End handlers.
