(* ===== verification/ScheduledProps.v ===== *)
(** * Scheduled work fails closed and repeats harmlessly *)

From S2P Require Import Prelude Js Numeric Sha256 Hmac Rows Schema RateLocks PaymentWorkflow PaymentProps OperationalAlerts Policies PoliciesProps Integrations Lakehouse Zod Contracts ServiceBridge Doubles Reporting ServiceHealth Scheduled.

Local Open Scope string_scope.
Local Open Scope Z_scope.

(** ** Authentication *)

Lemma authenticated_iff expected header inv : authenticateScheduledInvocation expected header = Some inv ↔
  ∃ token uid, expected = Some token ∧ token ≠ "" ∧ header "x-umoja-scheduler-token" = Some token ∧
    header "x-umoja-schedule-id" = Some uid ∧ task_uid_ok uid = true ∧ inv = mk_invocation uid ("scheduler:" +:+ uid).
Proof.
  unfold authenticateScheduledInvocation. split.
  - destruct expected as [token|]; [|done]. destruct (header "x-umoja-scheduler-token") as [p|]; [|done].
    destruct (header "x-umoja-schedule-id") as [uid|]; [|done]. destruct (_ || _) eqn:H; [done|]. case_bool_decide; [|done]. intros [= <-]. subst p.
    rewrite !orb_false_iff, !negb_false_iff in H. destruct H as [[[Ht _] _] Hu]. exists token, uid. split_and!; try done.
    intros ->. done.
  - intros (token & uid & -> & Hne & -> & -> & Hu & ->). assert (truthy token = true) as Ht by (unfold truthy; by rewrite bool_decide_eq_false_2).
    assert (truthy uid = true) as -> by (destruct uid; done). rewrite Ht, Hu. cbn [negb orb]. by rewrite bool_decide_eq_true_2.
Qed.

(** ** Frames *)

(** Notifying writes the log and the deliveries and nothing else. *)
Lemma notify_writes (R : relation db) `{!PreOrder R} E webhook a t n :
  (∀ f d, R d (set activity_events f d)) → (∀ f d, R d (set notification_deliveries f d)) →
  respects R (notifyPostgresAlertPolicies E webhook a t n).
Proof.
  intros H1 H2. unfold notifyPostgresAlertPolicies, notifyOwner, Postgres.recordActivity, insert_activity, insert_delivery.
  apply respects_bind; [apply _|apply respects_gets, _|]. intros rows. cbv zeta. destruct (rows.*1); [apply respects_ret, _|].
  repeat first [apply respects_for_each; [apply _|] | apply respects_bind; [apply _|..] | apply respects_gets, _
    | apply respects_require, _ | apply respects_throw_if, _ | apply respects_ret, _
    | apply respects_modify; intros d; first [apply H1|apply H2] | intros ?].
Qed.

Definition same_jobs (d d' : db) : Prop := scheduled_jobs d' = scheduled_jobs d.
#[local] Instance same_jobs_preorder : PreOrder same_jobs.
Proof. split; [by intros d|]. unfold same_jobs. intros x y z. congruence. Qed.

Lemma evaluate_jobs local_day E webhook corr ev a o d r d' :
  evaluatePostgresRegulatoryDeadlines local_day E webhook corr ev a o d = (r, d') → scheduled_jobs d' = scheduled_jobs d.
Proof.
  destruct r as [r|e]; intros H; [|by apply transaction_throw in H as [_ ->]]. apply transaction_ok in H.
  match type of H with ?m d = _ => enough (respects same_jobs m) as HR by exact (HR _ _ _ H) end. clear H.
  apply respects_bind; [apply _|apply respects_gets, _|]. intros rows. apply respects_bind; [apply _| |].
  { apply respects_for_each; [apply _|]. intros x. unfold remind. destruct (not_due _ _ _); [apply respects_ret, _|].
    apply respects_bind; [apply _|apply notify_writes; [apply _|by intros f []..]|]. intros _. unfold update_row. apply respects_modify. by intros []. }
  intros _. cbv zeta. apply respects_bind; [apply _|apply respects_gets, _|]. intros n.
  apply respects_bind; [apply _|apply respects_modify; by intros []|]. intros _.
  apply respects_bind; [apply _|unfold Postgres.recordActivity, insert_activity; apply respects_modify; by intros []|]. intros _. apply respects_ret, _.
Qed.

Lemma select_fmap {A} (p : A → bool) (f : A → A) (t : gmap uuid A) : (∀ x, p (f x) = p x) →
  select (λ _ x, p x) (f <$> t) = (λ kx : uuid * A, (kx.1, f kx.2)) <$> select (λ _ x, p x) t.
Proof.
  intros Hp. unfold select. rewrite map_to_list_fmap. induction (map_to_list t) as [|[k x] l IH]; [done|]. cbn. rewrite Hp.
  destruct (p x); [|exact IH]. rewrite fmap_cons. by f_equal.
Qed.

Lemma mark_keeps E uid purpose d : enabled_for purpose (getPostgresScheduledJobByTaskUid uid (markPostgresScheduledJobExecuted E uid d)) =
  enabled_for purpose (getPostgresScheduledJobByTaskUid uid d).
Proof.
  unfold getPostgresScheduledJobByTaskUid, markPostgresScheduledJobExecuted.
  change (scheduled_jobs (set scheduled_jobs _ d)) with ((λ x, if has_task uid x then x <| sj_last_executed_at := Some (db_now E) |> else x) <$> scheduled_jobs d).
  rewrite (select_fmap (has_task uid)); [|intros x; by destruct (has_task uid x) eqn:H; [unfold has_task in *; simpl|]].
  destruct (select (λ _ x, has_task uid x) (scheduled_jobs d)) as [|[k x] l]; [done|]. cbn. by destruct (has_task uid x).
Qed.

(** ** Running again *)

Lemma fmap_fixed {A} (f : A → A) (t : gmap uuid A) : (∀ k x, t !! k = Some x → f x = x) → f <$> t = t.
Proof. intros H. apply map_eq. intros k. rewrite lookup_fmap. destruct (t !! k) as [x|] eqn:Hk; [|done]. cbn. by rewrite (H k x). Qed.

Lemma expire_nothing E a d : (∀ k l, rate_locks d !! k = Some l → lock_elapsed (db_now E) l = false) →
  expirePostgresRateLocks E a d = (Ok (0, []), d).
Proof.
  intros Hn. rewrite expire_run. cbv zeta.
  assert (select (λ _ l, lock_elapsed (db_now E) l) (rate_locks d) = []) as ->.
  { apply elem_of_nil_inv. intros [k l] [Hk Hl]%elem_of_select. rewrite (Hn k l Hk) in Hl. done. }
  cbn [length fmap list_fmap]. do 2 f_equal. destruct d. unfold set. cbn in *. rewrite app_nil_r, fmap_fixed; [done|].
  intros k l Hk. unfold expire_lock. by rewrite (Hn k l Hk).
Qed.

Lemma expired_twice now db_now l : lock_elapsed db_now (expire now (expire_lock db_now l)) = false.
Proof.
  unfold expire. destruct (elapsed now _) eqn:He; [by unfold lock_elapsed|]. by apply expire_lock_elapsed.
Qed.

Section again.
Context (expected : option string) (header : string → option string) (E : env) (pg_message : pg_violation → string).
Context (local_day : Z → Z) (webhook : string → string → bool) (corr : uuid → uuid).
Let handler (ev : uuid) (d : db) := regulatoryDeadlineReminders expected header (λ _, E) (λ _ d, d) pg_message local_day webhook corr ev d.

Lemma run_again ev ev' d r d' : handler ev d = (Handled r, d') →
  ∃ n d'', handler ev' d' = (Handled ((0, []), (n, 0, 0)), d'') ∧ rate_locks d'' = rate_locks d' ∧
    regulatory_deadlines d'' = regulatory_deadlines d' ∧ notification_deliveries d'' = notification_deliveries d'.
Proof.
  unfold handler, regulatoryDeadlineReminders. destruct (authenticateScheduledInvocation expected header) as [[uid who]|]; [|done].
  cbn [si_taskUid si_openId]. destruct (negb _) eqn:Hen; [done|]. cbv zeta. rewrite expire_run. cbv zeta.
  match goal with |- context [evaluatePostgresRegulatoryDeadlines local_day E webhook corr ev (mk_actor who RoleAuditor) None ?x] => set (d1 := x) end.
  destruct (evaluatePostgresRegulatoryDeadlines local_day E webhook corr ev (mk_actor who RoleAuditor) None d1) as [[res|e] d2] eqn:Hev; [|done].
  intros [= _ <-]. pose proof (evaluate_jobs _ _ _ _ _ _ _ _ _ _ Hev) as Hjobs. set (now := default (app_now E) None).
  pose proof (evaluate_tables local_day E webhook corr (mk_actor who RoleAuditor) now ev None d1 res d2 eq_refl Hev) as [Ed El].
  set (d3 := markPostgresScheduledJobExecuted E uid d2).
  assert (Hen3 : negb (enabled_for "regulatory_deadline_reminders" (getPostgresScheduledJobByTaskUid uid d3)) = false).
  { unfold d3. rewrite mark_keeps. unfold getPostgresScheduledJobByTaskUid in *. rewrite Hjobs. exact Hen. }
  rewrite Hen3. assert (Hl3 : rate_locks d3 = expire now <$> (expire_lock (db_now E) <$> rate_locks d)) by exact El.
  assert (Hd3 : regulatory_deadlines d3 = reminded_row local_day now <$> regulatory_deadlines d1) by exact Ed.
  rewrite expire_nothing.
  2:{ intros k l. rewrite Hl3, !lookup_fmap. destruct (rate_locks d !! k) as [x|]; [|done]. cbn. intros [= <-]. apply expired_twice. }
  destruct (second_evaluation_quiet local_day E webhook corr (mk_actor who RoleAuditor) now ev' None d3 eq_refl) as (d4 & Hd4 & Hn4).
  { intros k x. rewrite Hd3, lookup_fmap. intros (y & _ & ->)%fmap_Some. apply reminded_not_due. }
  { intros k x. rewrite Hl3, lookup_fmap. intros (y & _ & ->)%fmap_Some. apply expired_not_elapsed. }
  rewrite Hd4. pose proof (evaluate_tables local_day E webhook corr (mk_actor who RoleAuditor) now ev' None d3 _ d4 eq_refl Hd4) as [Ed4 El4].
  eexists _, _. split; [reflexivity|]. split; [|split].
  - change (rate_locks d4 = rate_locks d3). rewrite El4. apply fmap_fixed. intros k x. rewrite Hl3, lookup_fmap. intros (y & _ & ->)%fmap_Some.
    unfold expire at 1. by rewrite expired_not_elapsed.
  - change (regulatory_deadlines d4 = regulatory_deadlines d3). rewrite Ed4. apply fmap_fixed. intros k x. rewrite Hd3, lookup_fmap.
    intros (y & _ & ->)%fmap_Some. unfold reminded_row at 1. by rewrite reminded_not_due.
  - exact Hn4.
Qed.
End again.

(** C37. Scheduled work fails closed and repeats harmlessly. A request is taken
    for the scheduler's exactly when a non-empty token is configured and given
    and the schedule identifier is well formed; without that, and whatever else
    happens, all four handlers answer 403 and leave the database alone; the two
    that belong to a job leave it alone too unless the job of that identifier is
    enabled for their purpose. A reminder run that succeeded, repeated at the
    same instant, reminds of nothing, expires nothing, delivers nothing and
    leaves every deadline and rate lock as it is. *)
Theorem schedules_fail_closed expected header pg_message :
  (∀ inv, authenticateScheduledInvocation expected header = Some inv ↔
    ∃ token uid, expected = Some token ∧ token ≠ "" ∧ header "x-umoja-scheduler-token" = Some token ∧
      header "x-umoja-schedule-id" = Some uid ∧ task_uid_ok uid = true ∧ inv = mk_invocation uid ("scheduler:" +:+ uid)) ∧
  (authenticateScheduledInvocation expected header = None → ∀ clock others d local_day webhook corr ev parse_url process_env catalog date_of ids services,
    regulatoryDeadlineReminders expected header clock others pg_message local_day webhook corr ev d = (SchedulerOnly, d) ∧
    counterpartyRiskReviews expected header clock others pg_message d = (SchedulerOnly, d) ∧
    lakehouseControlEvidenceDrain expected header clock pg_message parse_url process_env catalog d = (SchedulerOnly, d) ∧
    serviceHealthCollector expected header clock pg_message date_of ids services d = (SchedulerOnly, d)) ∧
  (∀ inv, authenticateScheduledInvocation expected header = Some inv → ∀ clock others d local_day webhook corr ev,
    (enabled_for "regulatory_deadline_reminders" (getPostgresScheduledJobByTaskUid (si_taskUid inv) d) = false →
      regulatoryDeadlineReminders expected header clock others pg_message local_day webhook corr ev d = (SkippedOrphan, d)) ∧
    (enabled_for "counterparty_risk_reviews" (getPostgresScheduledJobByTaskUid (si_taskUid inv) d) = false →
      counterpartyRiskReviews expected header clock others pg_message d = (SkippedOrphan, d))) ∧
  (∀ E local_day webhook corr ev ev' d r d',
    let handler ev d := regulatoryDeadlineReminders expected header (λ _, E) (λ _ d, d) pg_message local_day webhook corr ev d in
    handler ev d = (Handled r, d') → ∃ n d'', handler ev' d' = (Handled ((0, []), (n, 0, 0)), d'') ∧ rate_locks d'' = rate_locks d' ∧
      regulatory_deadlines d'' = regulatory_deadlines d' ∧ notification_deliveries d'' = notification_deliveries d').
Proof.
  split; [intros inv; apply authenticated_iff|]. split; [|split].
  - intros Hn. intros. unfold regulatoryDeadlineReminders, counterpartyRiskReviews, lakehouseControlEvidenceDrain, serviceHealthCollector. by rewrite Hn.
  - intros inv Hi. intros. unfold regulatoryDeadlineReminders, counterpartyRiskReviews. rewrite Hi. by split; intros ->.
  - intros E local_day webhook corr ev ev' d r d'. apply run_again.
Qed.

(** ** A worked schedule *)

Definition cron_header (name : string) : option string :=
  if bool_decide (name = "x-umoja-scheduler-token") then Some "s3cret" else if bool_decide (name = "x-umoja-schedule-id") then Some "job-1" else None.
Definition sched0 : db := (createPostgresScheduledJob reg_env regwatch 8 "regulatory_deadline_reminders" "job-1" "0 6 * * *" reg2).2.
Definition cron (E : env) (d : db) := regulatoryDeadlineReminders (Some "s3cret") cron_header (λ _, E) (λ _ d, d) (λ _, "") utc_day (λ _ _, true) (λ id, id) 9 d.
Definition sched1 : db := (cron reg_env sched0).2.
Lemma sched1_handled : cron reg_env sched0 = (Handled ((0, []), (1, 1, 0)), sched1).
Proof. vm_compute. reflexivity. Qed.

(** Witness of [schedules_fail_closed]: one reminder, and none on repetition. *)
Lemma schedules_fail_closed_witness : length (notification_deliveries sched1) = 1%nat ∧
  ∃ n d'', cron reg_env sched1 = (Handled ((0, []), (n, 0, 0)), d'') ∧ notification_deliveries d'' = notification_deliveries sched1.
Proof.
  split; [vm_compute; reflexivity|].
  destruct (proj2 (proj2 (proj2 (schedules_fail_closed (Some "s3cret") cron_header (λ _, "")))) reg_env utc_day (λ _ _, true) (λ id, id) 9%positive 9%positive
    sched0 ((0, []), (1, 1, 0)) sched1 sched1_handled) as (n & d'' & H & _ & _ & Hn).
  exists n, d''. split; [exact H|exact Hn].
Defined.

(** A deadline that was notified is notified again the next day. *)
Theorem reminded_again_next_day : let tomorrow := mk_env 486400000 486400000000 5 in
  length (notification_deliveries sched1) = 1%nat ∧ length (notification_deliveries (cron tomorrow sched1).2) = 2%nat.
Proof. split; vm_compute; reflexivity. Qed.
