(* ===== verification/Dossiers.v ===== *)
(** * Sandbox dossiers, supervisory profiles and remittance readiness

    src/apps/control-plane/server/cbnSandbox.ts, vaspReadiness.ts and
    imtoReadiness.ts. Five registers collect evidence items by category and say
    what is missing; [readiness_register] names them, and what differs is given
    by the definitions over it. *)

From S2P Require Import Prelude Js Numeric Sha256 Hmac Rows Schema Readiness SodMonitor.

Local Open Scope string_scope.
Local Open Scope Z_scope.

(** ** Registers *)

Definition vaspCategories : list string :=
  ["corporate_governance"; "ownership"; "financial_capacity"; "aml_cft_cpf"; "consumer_protection"; "cybersecurity"; "data_protection";
   "operational_resilience"; "business_continuity"; "stablecoin_governance"; "reserve_attestation"; "redemption"; "custody_key_management";
   "third_party_oversight"; "testing_plan"].
Definition dataEnabledCategories : list string :=
  ["corporate_governance"; "ownership"; "financial_capacity"; "aml_cft_cpf"; "consumer_protection"; "cybersecurity"; "data_protection";
   "operational_resilience"; "business_continuity"; "third_party_oversight"; "testing_plan"].
Definition supervisoryEvidenceCategories : list string :=
  ["incorporation_and_governing_documents"; "resident_leadership_and_principal_officers"; "legal_adviser_or_solicitor"; "nfiu_registration";
   "financial_capacity_and_fidelity_bond"; "aml_cft_cpf_and_travel_rule_programme"; "technology_and_cybersecurity_controls";
   "consumer_protection_and_complaint_handling"; "operational_reporting_and_incident_plan"; "transition_or_orderly_exit_plan"].
Definition travelRuleEvidenceCategories : list string :=
  ["originator_information_schema"; "beneficiary_information_schema"; "secure_counterparty_exchange_design";
   "counterparty_identity_and_authorisation"; "exception_and_rejection_handling"].
Definition offshoreExposureEvidenceCategories : list string :=
  ["jurisdictional_authorisation_scope"; "ownership_and_control"; "sanctions_and_adverse_media_process"; "travel_rule_interoperability";
   "data_protection_and_retention"; "incident_and_exit_contact"].
Definition imtoEvidenceCategories : list string :=
  ["cbn_imto_licence_or_application"; "permitted_remittance_scope"; "settlement_account_and_authorised_bank";
   "aml_cft_cpf_and_sanctions_programme"; "customer_disclosure_and_complaints"; "agent_fintech_and_partner_oversight";
   "reconciliation_and_safeguarding"; "incident_reporting_and_business_continuity"; "controlled_test_and_wind_down"].

(** The categories an evidence table admits. *)
Definition categories (R : readiness_register) : list string :=
  match R with
  | RegSandbox => vaspCategories
  | RegSupervisory => supervisoryEvidenceCategories
  | RegTravelRule => travelRuleEvidenceCategories
  | RegOffshore => offshoreExposureEvidenceCategories
  | RegImto => imtoEvidenceCategories
  end.

Definition readiness_items (R : readiness_register) (d : db) : gmap uuid readiness_item := default ∅ (readiness_item_tables d !! R).
Definition readiness_assessments (R : readiness_register) (d : db) : gmap uuid readiness_assessment :=
  default ∅ (readiness_assessment_tables d !! R).
#[export] Instance readiness_items_setter R : Setter (readiness_items R) := λ f d, d <| readiness_item_tables ::= <[R := f (readiness_items R d)]> |>.
#[export] Instance readiness_assessments_setter R : Setter (readiness_assessments R) := λ f d,
  d <| readiness_assessment_tables ::= <[R := f (readiness_assessments R d)]> |>.

Definition between (low high : Z) (s : string) : bool := (low <=? char_length s) && (char_length s <=? high).
Definition https (s : string) : bool := startsWith s "https://".

(** The foreign keys of a register's rows. *)
Definition subject_fk (R : readiness_register) (d : db) (subject : uuid) (counterparty : option uuid) : list (bool * pg_violation) :=
  match R with
  | RegSandbox => [fk cbn_sandbox_dossiers "dossier_id_fkey" d subject]
  | RegSupervisory => [fk vasp_regulatory_profiles "profile_id_fkey" d subject]
  | RegTravelRule => [fk cbn_sandbox_dossiers "dossier_id_fkey" d subject; fk_opt counterparties "counterparty_id_fkey" d counterparty]
  | RegOffshore => [fk vasp_offshore_counterparty_profiles "profile_id_fkey" d subject]
  | RegImto => [fk imto_readiness_profiles "profile_id_fkey" d subject]
  end.
Definition same_item (x y : readiness_item) : bool :=
  bool_decide (rit_subject x = rit_subject y) && bool_decide (rit_counterparty x = rit_counterparty y) &&
  bool_decide (rit_category x = rit_category y) && bool_decide (rit_evidence_sha256 x = rit_evidence_sha256 y).
Definition rules_readiness_items (R : readiness_register) : table_rules readiness_item := {|
  checks r := [(in_list (categories R) (rit_category r), InvalidInput "evidence category");
    (https (rit_evidence_uri r), CheckViolation "evidence_uri_check");
    (is_sha256_hex (rit_evidence_sha256 r), CheckViolation "evidence_sha256_check")];
  uniques t r := [unique (same_item r) "subject_category_evidence_sha256_key" t];
  references d r := subject_fk R d (rit_subject r) (rit_counterparty r) |}.
(** The offshore table has no upper bound on the rationale. *)
Definition rules_readiness_assessments (R : readiness_register) : table_rules readiness_assessment := {|
  checks r := [(if bool_decide (R = RegOffshore) then 20 <=? char_length (ras_reviewer_rationale r) else between 20 4000 (ras_reviewer_rationale r),
      CheckViolation "reviewer_rationale_check")];
  uniques _ _ := [];
  references d r := subject_fk R d (ras_subject r) (ras_counterparty r) |}.

Record evidence_item_input : Type := mk_evidence_item_input {
  eii_category : string;
  eii_evidenceUri : string;
  eii_evidenceSha256 : string
}.
(** [INSERT … ON CONFLICT (…, category, evidence_sha256) DO NOTHING RETURNING id]. *)
Definition record_item (R : readiness_register) (E : env) (a : actor) (new_id subject : uuid) (counterparty : option uuid)
    (input : evidence_item_input) : Tx db (option uuid) :=
  let row := mk_readiness_item subject counterparty (eii_category input) (eii_evidenceUri input) (eii_evidenceSha256 input) (a_openId a) (db_now E) in
  insert_or_nothing (readiness_items R) (pg_text R +:+ "_evidence_items") (rules_readiness_items R) (same_item row) new_id row.

(** What a subject has on record, and what it lacks. *)
Definition items_of (R : readiness_register) (subject : uuid) (counterparty : option uuid) (d : db) : list string :=
  (λ x : uuid * readiness_item, rit_category x.2) <$>
    select (λ _ x, bool_decide (rit_subject x = subject) && bool_decide (rit_counterparty x = counterparty)) (readiness_items R d).
Definition missing_of (required recorded : list string) : list string := List.filter (λ c, negb (includes recorded c)) required.
Definition complete_text : string := "internal_record_complete_pending_external_review".
Definition incomplete_text : string := "internal_record_incomplete".
Definition inconsistent_text : string := "internal_record_inconsistent".

(** [INSERT … ON CONFLICT (…) DO UPDATE SET … = EXCLUDED.…]: the columns of the
    given row replace those of the row with its key. *)
Definition upsert_row {R} (tbl : db → gmap uuid R) `{!Setter tbl} (name : string) (rules : table_rules R) (same : R → R → bool)
    (new_id : uuid) (row : R) : Tx db uuid :=
  _ ← enforce (checks rules row);
  there ← gets (λ d, head (select (λ _ x, same row x) (tbl d)));
  match there with
  | Some x => _ ← update_row tbl x.1 (λ _, row); mret x.1
  | None => _ ← insert_row tbl name rules new_id row; mret new_id
  end.

(** ** The sandbox *)

(** [{ ...metadata, source, authoritative }]. *)
Definition sandbox_activity (E : env) (a : actor) (action objectType : string) (objectId : uuid) (metadata : list (string * json)) : Tx db unit :=
  insert_activity E a action objectType (Some objectId)
    (JObj (metadata ++ [("source", JStr "cbn-sandbox-readiness"); ("authoritative", JBool false)])%list).
Definition no_claims (keys : list string) : list (string * json) := (λ k, (k, JBool false)) <$> keys.

Definition rules_dossiers : table_rules cbn_sandbox_dossier := {|
  checks r := [(in_list ["vasp"; "data_enabled_non_vasp"] (csd_track r), InvalidInput "cbn_sandbox_track");
    (between 3 255 (csd_product_name r), CheckViolation "cbn_sandbox_dossiers_product_name_check");
    (between 50 4000 (csd_product_summary r), CheckViolation "cbn_sandbox_dossiers_product_summary_check");
    (Bool.eqb (bool_decide (csd_status r = "external_submission_pending")) (is_some (csd_external_submission_reference r)),
      CheckViolation "cbn_sandbox_dossiers_check")];
  uniques t r := [unique (λ x, bool_decide (csd_legal_entity_id x = csd_legal_entity_id r) && bool_decide (csd_track x = csd_track r))
    "cbn_sandbox_dossiers_legal_entity_id_track_key" t];
  references d r := [fk legal_entities "cbn_sandbox_dossiers_legal_entity_id_fkey" d (csd_legal_entity_id r)] |}.

(** [JOIN legal_entities … ORDER BY updated_at DESC]. *)
Definition listCbnSandboxDossiers (d : db) : list (uuid * cbn_sandbox_dossier * string) :=
  omap (λ x : uuid * cbn_sandbox_dossier, (λ e, (x.1, x.2, le_legal_name e)) <$> legal_entities d !! csd_legal_entity_id x.2)
    (order_by_desc (λ x, csd_updated_at x.2) (map_to_list (cbn_sandbox_dossiers d))).

Definition createCbnSandboxDossier (E : env) (a : actor) (new_id legalEntityId : uuid) (track productName productSummary : string) : Act db (uuid * string) :=
  transaction (
    entity ← select_by_id legal_entities legalEntityId;
    _ ← require (e ← entity; if bool_decide (le_jurisdiction e = "Nigeria") then Some e else None)
      (JsError "A canonical Nigeria legal entity is required for a CBN sandbox dossier");
    _ ← insert_row cbn_sandbox_dossiers "cbn_sandbox_dossiers" rules_dossiers new_id
      (mk_cbn_sandbox_dossier legalEntityId track productName productSummary (a_openId a) "draft" None (db_now E) (db_now E));
    _ ← sandbox_activity E a "cbn_sandbox_dossier.created" "cbn_sandbox_dossier" new_id
      (("track", JStr track) :: ("status", JStr "draft") :: no_claims ["externalSubmission"; "admissionClaimed"; "providerActivation"]);
    mret (new_id, "draft")).

Definition require_dossier (dossierId : uuid) : Tx db cbn_sandbox_dossier :=
  found ← select_by_id cbn_sandbox_dossiers dossierId;
  require found (JsError "CBN sandbox dossier does not exist").

Definition recordCbnSandboxEvidence (E : env) (a : actor) (new_id dossierId : uuid) (input : evidence_item_input) : Act db (option uuid) :=
  transaction (
    _ ← require_dossier dossierId;
    id ← record_item RegSandbox E a new_id dossierId None input;
    _ ← (if is_some id then sandbox_activity E a "cbn_sandbox_evidence.recorded" "cbn_sandbox_dossier" dossierId
           [("category", JStr (eii_category input)); ("evidenceSha256", JStr (eii_evidenceSha256 input)); ("evidenceSupplied", JBool true);
            ("verified", JBool false)]
         else mret tt);
    mret id).

Definition rules_test_plans : table_rules test_plan := {|
  checks r := [(between 20 1000 (ctp_permitted_use r), CheckViolation "cbn_sandbox_test_plans_permitted_use_check");
    (between 3 255 (ctp_user_category r), CheckViolation "cbn_sandbox_test_plans_user_category_check");
    ((- 2 ^ 31 <=? ctp_max_transactions r) && (ctp_max_transactions r <? 2 ^ 31), NumericOverflow "max_transactions");
    (0 <? ctp_max_transactions r, CheckViolation "cbn_sandbox_test_plans_max_transactions_check");
    (fits_numeric_30_12 (ctp_max_aggregate_exposure r), NumericOverflow "max_aggregate_exposure");
    (0 <? ctp_max_aggregate_exposure r, CheckViolation "cbn_sandbox_test_plans_max_aggregate_exposure_check");
    (https (ctp_success_metrics_uri r), CheckViolation "cbn_sandbox_test_plans_success_metrics_uri_check");
    (https (ctp_wind_down_uri r), CheckViolation "cbn_sandbox_test_plans_wind_down_uri_check");
    (ctp_starts_at r <? ctp_ends_at r, CheckViolation "cbn_sandbox_test_plans_check")];
  uniques t r := [unique (λ x, bool_decide (ctp_dossier_id x = ctp_dossier_id r)) "cbn_sandbox_test_plans_dossier_id_key" t];
  references d r := [fk cbn_sandbox_dossiers "cbn_sandbox_test_plans_dossier_id_fkey" d (ctp_dossier_id r)] |}.

Record test_plan_input : Type := mk_test_plan_input {
  tpi_dossierId : uuid;
  tpi_permittedUse : string;
  tpi_userCategory : string;
  tpi_maxTransactions : Z;
  tpi_maxAggregateExposure : string;
  tpi_startsAt : Z;
  tpi_endsAt : Z;
  tpi_successMetricsUri : string;
  tpi_windDownUri : string
}.
(** The router admits only the texts [is_amount_text] describes. *)
Definition createCbnSandboxTestPlan (E : env) (a : actor) (new_id : uuid) (input : test_plan_input) : Act db (uuid * string) :=
  transaction (
    _ ← require_dossier (tpi_dossierId input);
    _ ← throw_if (negb (is_amount_text (tpi_maxAggregateExposure input))) (PgError (InvalidInput "numeric"));
    id ← upsert_row cbn_sandbox_test_plans "cbn_sandbox_test_plans" rules_test_plans (λ r x, bool_decide (ctp_dossier_id x = ctp_dossier_id r)) new_id
      (mk_test_plan (tpi_dossierId input) "documented" (tpi_permittedUse input) (tpi_userCategory input) (tpi_maxTransactions input)
        (numeric_of_text (tpi_maxAggregateExposure input)) (pg_of_js (tpi_startsAt input)) (pg_of_js (tpi_endsAt input))
        (tpi_successMetricsUri input) (tpi_windDownUri input) (a_openId a) (db_now E));
    _ ← sandbox_activity E a "cbn_sandbox_test_plan.documented" "cbn_sandbox_test_plan" id
      (("dossierId", JUuid (tpi_dossierId input)) :: ("maxTransactions", JNum (tpi_maxTransactions input)) ::
       ("maxAggregateExposure", JStr (tpi_maxAggregateExposure input)) ::
       no_claims ["executionPermitted"; "settlementPermitted"; "externalApprovalAsserted"]);
    mret (id, "documented")).

Definition required_of (track : string) : list string := if bool_decide (track = "vasp") then vaspCategories else dataEnabledCategories.
Definition plan_of (dossierId : uuid) (d : db) : option test_plan :=
  snd <$> head (select (λ _ x, bool_decide (ctp_dossier_id x = dossierId)) (cbn_sandbox_test_plans d)).

Record sandbox_readiness : Type := mk_sandbox_readiness {
  sr_track : string;
  sr_dossierStatus : string;
  sr_readiness : string;
  sr_missingEvidenceCategories : list string;
  sr_documentedTestPlan : bool
}.
Definition getCbnSandboxReadiness (dossierId : uuid) (d : db) : res sandbox_readiness :=
  match cbn_sandbox_dossiers d !! dossierId with
  | None => Throw (JsError "CBN sandbox dossier does not exist")
  | Some row =>
      let missing := missing_of (required_of (csd_track row)) (items_of RegSandbox dossierId None d) in
      let planned := is_some (plan_of dossierId d) in
      Ok (mk_sandbox_readiness (csd_track row) (csd_status row)
        (if bool_decide (missing = []) && planned then "evidence_complete_pending_external_review" else "incomplete") missing planned)
  end.

(** [SELECT DISTINCT category … ORDER BY category] follows the enumeration. *)
Definition recorded_in_order (R : readiness_register) (recorded : list string) : list string := List.filter (includes recorded) (categories R).

Record completeness : Type := mk_completeness {
  co_track : string;
  co_requiredCategories : list string;
  co_recordedCategories : list string;
  co_missingCategories : list string;
  co_documentedTestPlan : bool;
  co_inconsistencyCodes : list string;
  co_outcome : string
}.
Definition inconsistencies (plan : option test_plan) : list string :=
  match plan with
  | None => []
  | Some p => ((if bool_decide (ctp_status p = "documented") then [] else ["test_plan_not_documented"]) ++
      (if js_of_pg (ctp_ends_at p) <=? js_of_pg (ctp_starts_at p) then ["test_plan_window_invalid"] else []))%list
  end.
Definition evidence_completeness (dossierId : uuid) (row : cbn_sandbox_dossier) (d : db) : completeness :=
  let recordedCategories := recorded_in_order RegSandbox (items_of RegSandbox dossierId None d) in
  let missingCategories := missing_of (required_of (csd_track row)) recordedCategories in
  let plan := plan_of dossierId d in
  let codes := inconsistencies plan in
  mk_completeness (csd_track row) (required_of (csd_track row)) recordedCategories missingCategories (is_some plan) codes
    (if negb (bool_decide (codes = [])) then inconsistent_text
     else if bool_decide (missingCategories = []) && is_some plan then complete_text else incomplete_text).
Definition buildEvidenceCompleteness (dossierId : uuid) : Tx db completeness :=
  row ← require_dossier dossierId;
  gets (evidence_completeness dossierId row).

Definition jstrings (l : list string) : json := JArr (JStr <$> l).
Definition assessCbnSandboxEvidenceCompleteness (E : env) (a : actor) (new_id dossierId : uuid) (reviewerRationale : string) :
    Act db (uuid * completeness) :=
  transaction (
    c ← buildEvidenceCompleteness dossierId;
    _ ← insert_row (readiness_assessments RegSandbox) "cbn_sandbox_evidence_assessments" (rules_readiness_assessments RegSandbox) new_id
      (mk_readiness_assessment dossierId None (co_requiredCategories c) (co_recordedCategories c) (co_missingCategories c)
        (co_inconsistencyCodes c) (co_documentedTestPlan c) (co_outcome c) reviewerRationale (a_openId a) (db_now E));
    _ ← sandbox_activity E a "cbn_sandbox_evidence.assessed" "cbn_sandbox_evidence_assessment" new_id
      (("dossierId", JUuid dossierId) :: ("track", JStr (co_track c)) :: ("outcome", JStr (co_outcome c)) ::
       ("missingCategories", jstrings (co_missingCategories c)) :: ("inconsistencyCodes", jstrings (co_inconsistencyCodes c)) ::
       no_claims ["externalEligibility"; "externalSubmission"; "admission"; "licence"; "providerActivation"]);
    mret (new_id, c)).

Definition latestCbnSandboxEvidenceAssessment (dossierId : uuid) (d : db) : option (uuid * readiness_assessment) :=
  head (order_by_desc (λ x, ras_assessed_at x.2)
    (select (λ _ x, bool_decide (ras_subject x = dossierId)) (readiness_assessments RegSandbox d))).

Definition rules_consumer_records : table_rules consumer_record := {|
  checks r := [(in_list ["disclosure_acceptance"; "complaint"] (ccr_record_kind r), CheckViolation "cbn_sandbox_consumer_records_record_kind_check");
    (https (ccr_evidence_uri r), CheckViolation "cbn_sandbox_consumer_records_evidence_uri_check");
    (between 10 4000 (ccr_details r), CheckViolation "cbn_sandbox_consumer_records_details_check");
    (in_list ["recorded"; "under_review"; "resolved"] (ccr_status r), CheckViolation "cbn_sandbox_consumer_records_status_check");
    (bool_decide (ccr_record_kind r = "disclosure_acceptance") && is_some (ccr_disclosure_version r) && bool_decide (ccr_status r = "recorded") ||
     bool_decide (ccr_record_kind r = "complaint"), CheckViolation "cbn_sandbox_consumer_records_check")];
  uniques _ _ := [];
  references d r := [fk cbn_sandbox_dossiers "cbn_sandbox_consumer_records_dossier_id_fkey" d (ccr_dossier_id r);
    fk customers "cbn_sandbox_consumer_records_customer_id_fkey" d (ccr_customer_id r)] |}.

Record consumer_record_input : Type := mk_consumer_record_input {
  cri_dossierId : uuid;
  cri_customerId : uuid;
  cri_recordKind : string;
  cri_disclosureVersion : option string;
  cri_evidenceUri : string;
  cri_details : string
}.
Definition recordCbnSandboxConsumerRecord (E : env) (a : actor) (new_id : uuid) (input : consumer_record_input) : Act db (uuid * string) :=
  let status := if bool_decide (cri_recordKind input = "complaint") then "under_review" else "recorded" in
  transaction (
    _ ← insert_row cbn_sandbox_consumer_records "cbn_sandbox_consumer_records" rules_consumer_records new_id
      (mk_consumer_record (cri_dossierId input) (cri_customerId input) (cri_recordKind input) (cri_disclosureVersion input)
        (cri_evidenceUri input) (cri_details input) status (a_openId a) (db_now E));
    _ ← sandbox_activity E a ("cbn_sandbox_consumer_" +:+ cri_recordKind input +:+ ".recorded") "cbn_sandbox_consumer_record" new_id
      [("dossierId", JUuid (cri_dossierId input)); ("customerId", JUuid (cri_customerId input)); ("status", JStr status);
       ("externalNotification", JBool false)];
    mret (new_id, status)).

(** A submission is referenced exactly when it was made. *)
Definition submission_check (status : string) (reference : option string) : bool :=
  Bool.eqb (bool_decide (status = "submitted")) (is_some reference).
Definition rules_incidents : table_rules sandbox_incident := {|
  checks r := [(in_list ["cybersecurity"; "fraud"; "consumer_harm"; "operational_resilience"] (csi_kind r), InvalidInput "cbn_sandbox_incident_kind");
    (in_list ["low"; "medium"; "high"; "critical"] (csi_severity r), CheckViolation "cbn_sandbox_incidents_severity_check");
    (https (csi_evidence_uri r), CheckViolation "cbn_sandbox_incidents_evidence_uri_check");
    (between 20 4000 (csi_summary r), CheckViolation "cbn_sandbox_incidents_summary_check");
    (csi_occurred_at r <=? csi_detected_at r, CheckViolation "cbn_sandbox_incidents_check");
    (submission_check (csi_notification_status r) (csi_submission_reference r), CheckViolation "cbn_sandbox_incidents_check1")];
  uniques _ _ := [];
  references d r := [fk cbn_sandbox_dossiers "cbn_sandbox_incidents_dossier_id_fkey" d (csi_dossier_id r)] |}.

Record incident_input : Type := mk_incident_input {
  ini_dossierId : uuid;
  ini_kind : string;
  ini_severity : string;
  ini_occurredAt : Z;
  ini_detectedAt : Z;
  ini_evidenceUri : string;
  ini_summary : string
}.
Definition recordCbnSandboxIncident (E : env) (a : actor) (new_id : uuid) (input : incident_input) : Act db (uuid * string) :=
  transaction (
    _ ← insert_row cbn_sandbox_incidents "cbn_sandbox_incidents" rules_incidents new_id
      (mk_sandbox_incident (ini_dossierId input) (ini_kind input) (ini_severity input) (pg_of_js (ini_occurredAt input))
        (pg_of_js (ini_detectedAt input)) (ini_evidenceUri input) (ini_summary input) "not_submitted" None (a_openId a) (db_now E));
    _ ← sandbox_activity E a "cbn_sandbox_incident.recorded" "cbn_sandbox_incident" new_id
      [("dossierId", JUuid (ini_dossierId input)); ("kind", JStr (ini_kind input)); ("severity", JStr (ini_severity input));
       ("notificationStatus", JStr "not_submitted"); ("externalNotification", JBool false)];
    mret (new_id, "not_submitted")).

(** *** Reporting packs *)

Definition rules_reporting_packs : table_rules reporting_pack := {|
  checks r := [(https (crp_artifact_uri r), CheckViolation "cbn_sandbox_reporting_packs_artifact_uri_check");
    (is_sha256_hex (crp_artifact_sha256 r), CheckViolation "cbn_sandbox_reporting_packs_artifact_sha256_check");
    (crp_period_start r <? crp_period_end r, CheckViolation "cbn_sandbox_reporting_packs_check");
    (submission_check (crp_submission_status r) (crp_submission_reference r), CheckViolation "cbn_sandbox_reporting_packs_check1")];
  uniques t r := [unique (λ x, bool_decide (crp_dossier_id x = crp_dossier_id r) && bool_decide (crp_period_start x = crp_period_start r) &&
    bool_decide (crp_period_end x = crp_period_end r)) "cbn_sandbox_reporting_packs_dossier_id_period_start_period_end_key" t];
  references d r := [fk cbn_sandbox_dossiers "cbn_sandbox_reporting_packs_dossier_id_fkey" d (crp_dossier_id r)] |}.

(** [ORDER BY category, evidence_sha256]: the enumeration's order, and that of
    the 64 hexadecimal digits read as a number. *)
Fixpoint position (x : string) (l : list string) : Z :=
  match l with [] => 0 | y :: l => if bool_decide (x = y) then 0 else 1 + position x l end.
Definition hex_digit_value (c : ascii) : Z :=
  let n := Z.of_nat (nat_of_ascii c) in if n <? 58 then n - 48 else n - 87.
Fixpoint hex_value (acc : Z) (s : string) : Z :=
  match s with EmptyString => acc | String c s => hex_value (16 * acc + hex_digit_value c) s end.
Definition item_key (x : readiness_item) : Z :=
  position (rit_category x) (categories RegSandbox) * 2 ^ 256 + hex_value 0 (rit_evidence_sha256 x).

(** The manifest as node-postgres parses it: jsonb keeps its keys by length. *)
Record pack_manifest : Type := mk_pack_manifest {
  pm_evidence : list (string * string);
  pm_incidents : list (string * string * string);
  pm_consumer_records : list (string * string * string)
}.
(** [timestamptz_text] is how jsonb writes an instant in the session's zone. *)
Definition manifest_of (timestamptz_text : Z → string) (dossierId : uuid) (from upto : Z) (d : db) : pack_manifest :=
  let within t := (from <=? t) && (t <? upto) in
  mk_pack_manifest
    ((λ x : uuid * readiness_item, (rit_evidence_sha256 x.2, rit_category x.2)) <$>
      order_by (λ x, item_key x.2) (select (λ _ x, bool_decide (rit_subject x = dossierId)) (readiness_items RegSandbox d)))
    ((λ x : uuid * sandbox_incident, (csi_kind x.2, csi_severity x.2, timestamptz_text (csi_occurred_at x.2))) <$>
      order_by (λ x, csi_occurred_at x.2)
        (select (λ _ x, bool_decide (csi_dossier_id x = dossierId) && within (csi_occurred_at x)) (cbn_sandbox_incidents d)))
    ((λ x : uuid * consumer_record, (ccr_record_kind x.2, ccr_status x.2, timestamptz_text (ccr_recorded_at x.2))) <$>
      order_by (λ x, ccr_recorded_at x.2)
        (select (λ _ x, bool_decide (ccr_dossier_id x = dossierId) && within (ccr_recorded_at x)) (cbn_sandbox_consumer_records d))).

Definition json_object (fields : list (string * string)) : string :=
  "{" +:+ join "," ((λ kv : string * string, json_string kv.1 +:+ ":" +:+ kv.2) <$> fields) +:+ "}".
Definition json_array (texts : list string) : string := "[" +:+ join "," texts +:+ "]".
(** [JSON.stringify(manifest)]. *)
Definition manifest_text (m : pack_manifest) : string :=
  json_object
    [("evidence", json_array ((λ x : string * string, json_object [("sha256", json_string x.1); ("category", json_string x.2)]) <$> pm_evidence m));
     ("incidents", json_array ((λ x : string * string * string,
        json_object [("kind", json_string x.1.1); ("severity", json_string x.1.2); ("occurred_at", json_string x.2)]) <$> pm_incidents m));
     ("consumer_records", json_array ((λ x : string * string * string,
        json_object [("kind", json_string x.1.1); ("status", json_string x.1.2); ("recorded_at", json_string x.2)]) <$> pm_consumer_records m))].

Record reporting_pack_result : Type := mk_reporting_pack_result {
  rpr_id : uuid;
  rpr_submissionStatus : string;
  rpr_artifactSha256 : string;
  rpr_manifest : pack_manifest
}.
(** The SELECT has no FROM clause and always gives a row: a dossier that does not
    exist is refused by the foreign key. *)
Definition createCbnSandboxReportingPack (timestamptz_text : Z → string) (E : env) (a : actor) (new_id dossierId : uuid) (periodStart periodEnd : Z)
    (artifactUri : string) : Act db reporting_pack_result :=
  transaction (
    manifest ← gets (manifest_of timestamptz_text dossierId (pg_of_js periodStart) (pg_of_js periodEnd));
    let digest := sha256 (manifest_text manifest) in
    _ ← insert_row cbn_sandbox_reporting_packs "cbn_sandbox_reporting_packs" rules_reporting_packs new_id
      (mk_reporting_pack dossierId (pg_of_js periodStart) (pg_of_js periodEnd) artifactUri digest "not_submitted" None (a_openId a) (db_now E));
    _ ← sandbox_activity E a "cbn_sandbox_reporting_pack.created" "cbn_sandbox_reporting_pack" new_id
      [("dossierId", JUuid dossierId); ("artifactSha256", JStr digest); ("submissionStatus", JStr "not_submitted"); ("externalSubmission", JBool false)];
    mret (mk_reporting_pack_result new_id "not_submitted" digest manifest)).

(** ** Supervisory, travel-rule and offshore records of virtual-asset providers *)

(** [{ ...metadata, …extra }]: a key given twice keeps its place and takes the
    later value. *)
Definition spread (metadata extra : list (string * json)) : list (string * json) :=
  fold_left (λ fields kv, if existsb (λ x : string * json, bool_decide (x.1 = kv.1)) fields
    then (λ x : string * json, if bool_decide (x.1 = kv.1) then kv else x) <$> fields else (fields ++ [kv])%list) extra metadata.
Definition vasp_activity (E : env) (a : actor) (action objectType : string) (objectId : uuid) (metadata : list (string * json)) : Tx db unit :=
  insert_activity E a action objectType (Some objectId)
    (JObj (spread metadata (("source", JStr "vasp-regulatory-readiness") ::
      no_claims ["authoritative"; "externalTransmission"; "providerActivation"; "licenceClaimed"]))).

Definition requireVaspDossier (dossierId : uuid) : Tx db unit :=
  found ← select_by_id cbn_sandbox_dossiers dossierId;
  _ ← require (row ← found; if bool_decide (csd_track row = "vasp") then Some row else None) (JsError "A canonical VASP dossier is required");
  mret tt.
Definition require_counterparty (counterpartyId : uuid) : Tx db unit :=
  found ← select_by_id counterparties counterpartyId;
  _ ← require found (JsError "Counterparty does not exist");
  mret tt.

Definition rules_vasp_profiles : table_rules regulatory_profile := {|
  checks r := [(in_list ["sec_arip"; "sec_full_registration"; "other_supervisory_path"] (vrp_supervisory_path r), InvalidInput "vasp_supervisory_path");
    (between 50 4000 (vrp_operational_model_summary r), CheckViolation "vasp_regulatory_profiles_operational_model_summary_check")];
  uniques t r := [unique (λ x, bool_decide (vrp_dossier_id x = vrp_dossier_id r)) "vasp_regulatory_profiles_dossier_id_key" t];
  references d r := [fk cbn_sandbox_dossiers "vasp_regulatory_profiles_dossier_id_fkey" d (vrp_dossier_id r)] |}.

Record profile_row : Type := mk_profile_row {
  pr_id : uuid;
  pr_profile : regulatory_profile;
  pr_legalEntityId : uuid;
  pr_legalEntityName : string;
  pr_productName : string
}.
Definition listVaspRegulatoryProfiles (d : db) : list profile_row :=
  omap (λ x : uuid * regulatory_profile,
    dossier ← cbn_sandbox_dossiers d !! vrp_dossier_id x.2; entity ← legal_entities d !! csd_legal_entity_id dossier;
    Some (mk_profile_row x.1 x.2 (csd_legal_entity_id dossier) (le_legal_name entity) (csd_product_name dossier)))
    (order_by_desc (λ x, vrp_recorded_at x.2) (map_to_list (vasp_regulatory_profiles d))).

Definition createVaspRegulatoryProfile (E : env) (a : actor) (new_id dossierId : uuid) (supervisoryPath operationalModelSummary : string) : Act db uuid :=
  transaction (
    _ ← requireVaspDossier dossierId;
    id ← upsert_row vasp_regulatory_profiles "vasp_regulatory_profiles" rules_vasp_profiles
      (λ r x, bool_decide (vrp_dossier_id x = vrp_dossier_id r)) new_id
      (mk_regulatory_profile dossierId supervisoryPath operationalModelSummary (a_openId a) (db_now E));
    _ ← vasp_activity E a "vasp_supervisory_profile.recorded" "vasp_regulatory_profile" id
      (("dossierId", JUuid dossierId) :: ("supervisoryPath", JStr supervisoryPath) :: no_claims ["externalSubmission"; "approvalInPrinciple"]);
    mret id).

(** [if (id) await activity(…)]. *)
Definition when_recorded (id : option uuid) (log : uuid → Tx db unit) : Tx db unit :=
  match id with Some id => log id | None => mret tt end.

Definition recordVaspSupervisoryEvidence (E : env) (a : actor) (new_id profileId : uuid) (input : evidence_item_input) : Act db (option uuid) :=
  transaction (
    profile ← select_by_id vasp_regulatory_profiles profileId;
    _ ← require profile (JsError "VASP supervisory profile does not exist");
    id ← record_item RegSupervisory E a new_id profileId None input;
    _ ← when_recorded id (λ id, vasp_activity E a "vasp_supervisory_evidence.recorded" "vasp_regulatory_evidence_item" id
      [("profileId", JUuid profileId); ("category", JStr (eii_category input)); ("verified", JBool false)]);
    mret id).

Definition recordVaspTravelRuleEvidence (E : env) (a : actor) (new_id dossierId counterpartyId : uuid) (input : evidence_item_input) :
    Act db (option uuid) :=
  transaction (
    _ ← requireVaspDossier dossierId;
    _ ← require_counterparty counterpartyId;
    id ← record_item RegTravelRule E a new_id dossierId (Some counterpartyId) input;
    _ ← when_recorded id (λ id, vasp_activity E a "vasp_travel_rule_evidence.recorded" "vasp_travel_rule_evidence_item" id
      [("dossierId", JUuid dossierId); ("counterpartyId", JUuid counterpartyId); ("category", JStr (eii_category input));
       ("transmissionAttempted", JBool false)]);
    mret id).

(** The order of [SELECT DISTINCT] is the planner's, [arrange]. *)
Record record_summary : Type := mk_record_summary {
  rs_requiredCategories : list string;
  rs_recordedCategories : list string;
  rs_missingCategories : list string;
  rs_outcome : string
}.
Definition category_summary (arrange : list string → list string) (R : readiness_register) (subject : uuid) (counterparty : option uuid) (d : db) : record_summary :=
  let recordedCategories := arrange (recorded_in_order R (items_of R subject counterparty d)) in
  let missingCategories := missing_of (categories R) recordedCategories in
  mk_record_summary (categories R) recordedCategories missingCategories
    (if bool_decide (missingCategories = []) then complete_text else incomplete_text).

Definition supervisoryCompleteness (arrange : list string → list string) (profileId : uuid) (d : db) : record_summary :=
  category_summary arrange RegSupervisory profileId None d.
Definition getVaspSupervisoryReadiness (arrange : list string → list string) (profileId : uuid) (d : db) : res record_summary :=
  match vasp_regulatory_profiles d !! profileId with
  | None => Throw (JsError "VASP supervisory profile does not exist")
  | Some _ => Ok (supervisoryCompleteness arrange profileId d)
  end.

(** The INSERT of an assessment; these tables have no columns for test plans. *)
Definition insert_assessment (R : readiness_register) (E : env) (a : actor) (new_id subject : uuid) (counterparty : option uuid) (s : record_summary)
    (reviewerRationale : string) : Tx db unit :=
  insert_row (readiness_assessments R) (pg_text R +:+ "_assessments") (rules_readiness_assessments R) new_id
    (mk_readiness_assessment subject counterparty (rs_requiredCategories s) (rs_recordedCategories s) (rs_missingCategories s) [] false
      (rs_outcome s) reviewerRationale (a_openId a) (db_now E)).

Definition assessVaspTravelRuleRoute (arrange : list string → list string) (E : env) (a : actor) (new_id dossierId counterpartyId : uuid)
    (reviewerRationale : string) : Act db (uuid * record_summary) :=
  transaction (
    _ ← requireVaspDossier dossierId;
    s ← gets (category_summary arrange RegTravelRule dossierId (Some counterpartyId));
    _ ← insert_assessment RegTravelRule E a new_id dossierId (Some counterpartyId) s reviewerRationale;
    _ ← vasp_activity E a "vasp_travel_rule_route.assessed" "vasp_travel_rule_route_assessment" new_id
      (("dossierId", JUuid dossierId) :: ("counterpartyId", JUuid counterpartyId) :: ("outcome", JStr (rs_outcome s)) ::
       ("missingCategories", jstrings (rs_missingCategories s)) :: no_claims ["counterpartyVerified"; "travelRuleTransmission"]);
    mret (new_id, s)).

Definition listVaspTravelRuleAssessments (dossierId : option uuid) (d : db) : list (uuid * readiness_assessment) :=
  order_by_desc (λ x, ras_assessed_at x.2)
    (select (λ _ x, match dossierId with None => true | Some k => bool_decide (ras_subject x = k) end) (readiness_assessments RegTravelRule d)).

Definition rules_offshore_profiles : table_rules offshore_profile := {|
  checks r := [(2 <=? char_length (vop_home_jurisdiction r), CheckViolation "vasp_offshore_counterparty_profiles_home_jurisdiction_check");
    (in_list ["standard"; "heightened"; "prohibited_review"] (vop_exposure_tier r), CheckViolation "vasp_offshore_counterparty_profiles_exposure_tier_check");
    (50 <=? char_length (vop_operating_summary r), CheckViolation "vasp_offshore_counterparty_profiles_operating_summary_check")];
  uniques t r := [unique (λ x, bool_decide (vop_dossier_id x = vop_dossier_id r) && bool_decide (vop_counterparty_id x = vop_counterparty_id r))
    "vasp_offshore_counterparty_profiles_dossier_id_counterparty_id_key" t];
  references d r := [fk cbn_sandbox_dossiers "vasp_offshore_counterparty_profiles_dossier_id_fkey" d (vop_dossier_id r);
    fk counterparties "vasp_offshore_counterparty_profiles_counterparty_id_fkey" d (vop_counterparty_id r)] |}.

Definition createVaspOffshoreCounterpartyProfile (E : env) (a : actor) (new_id dossierId counterpartyId : uuid)
    (homeJurisdiction exposureTier operatingSummary : string) : Act db uuid :=
  transaction (
    _ ← requireVaspDossier dossierId;
    _ ← require_counterparty counterpartyId;
    id ← upsert_row vasp_offshore_counterparty_profiles "vasp_offshore_counterparty_profiles" rules_offshore_profiles
      (λ r x, bool_decide (vop_dossier_id x = vop_dossier_id r) && bool_decide (vop_counterparty_id x = vop_counterparty_id r)) new_id
      (mk_offshore_profile dossierId counterpartyId homeJurisdiction exposureTier operatingSummary (a_openId a) (db_now E));
    _ ← vasp_activity E a "vasp_offshore_counterparty_profile.recorded" "vasp_offshore_counterparty_profile" id
      (("dossierId", JUuid dossierId) :: ("counterpartyId", JUuid counterpartyId) :: no_claims ["externalVerification"; "providerActivation"]);
    mret id).

Definition recordVaspOffshoreCounterpartyEvidence (E : env) (a : actor) (new_id profileId : uuid) (input : evidence_item_input) :
    Act db (option uuid) :=
  transaction (
    id ← record_item RegOffshore E a new_id profileId None input;
    _ ← when_recorded id (λ id, vasp_activity E a "vasp_offshore_counterparty_evidence.recorded" "vasp_offshore_counterparty_evidence_item" id
      [("profileId", JUuid profileId); ("category", JStr (eii_category input)); ("externalVerification", JBool false)]);
    mret id).

Definition assessVaspOffshoreCounterpartyProfile (arrange : list string → list string) (E : env) (a : actor) (new_id profileId : uuid)
    (reviewerRationale : string) : Act db (uuid * record_summary) :=
  transaction (
    s ← gets (category_summary arrange RegOffshore profileId None);
    _ ← insert_assessment RegOffshore E a new_id profileId None s reviewerRationale;
    _ ← vasp_activity E a "vasp_offshore_counterparty.assessed" "vasp_offshore_counterparty_assessment" new_id
      (("profileId", JUuid profileId) :: ("outcome", JStr (rs_outcome s)) :: ("missingCategories", jstrings (rs_missingCategories s)) ::
       no_claims ["externalVerification"; "providerActivation"; "custodyAuthority"; "valueMovement"]);
    mret (new_id, s)).

(** ** Remittance readiness *)

Definition audit (E : env) (a : actor) (action : string) (id : uuid) (metadata : list (string * json)) : Tx db unit :=
  insert_activity E a action "imto_readiness_profile" (Some id)
    (JObj (spread metadata
      (no_claims ["authoritative"; "externalLicenceVerification"; "providerActivation"; "remittanceExecution"; "settlementExecution"]))).

Definition rules_imto_profiles : table_rules imto_profile := {|
  checks r := [(between 50 4000 (imp_operating_model_summary r), CheckViolation "imto_readiness_profiles_operating_model_summary_check")];
  uniques t r := [unique (λ x, bool_decide (imp_legal_entity_id x = imp_legal_entity_id r)) "imto_readiness_profiles_legal_entity_id_key" t];
  references d r := [fk legal_entities "imto_readiness_profiles_legal_entity_id_fkey" d (imp_legal_entity_id r)] |}.

Definition createImtoReadinessProfile (E : env) (a : actor) (new_id legalEntityId : uuid) (operatingModelSummary : string) : Act db uuid :=
  transaction (
    entity ← select_by_id legal_entities legalEntityId;
    _ ← require (e ← entity; if bool_decide (le_jurisdiction e = "Nigeria") then Some e else None)
      (JsError "A canonical Nigeria legal entity is required");
    id ← upsert_row imto_readiness_profiles "imto_readiness_profiles" rules_imto_profiles
      (λ r x, bool_decide (imp_legal_entity_id x = imp_legal_entity_id r)) new_id
      (mk_imto_profile legalEntityId operatingModelSummary (a_openId a) (db_now E));
    _ ← audit E a "imto_readiness_profile.recorded" id [("legalEntityId", JUuid legalEntityId)];
    mret id).

Definition recordImtoReadinessEvidence (E : env) (a : actor) (new_id profileId : uuid) (input : evidence_item_input) : Act db (option uuid) :=
  transaction (
    id ← record_item RegImto E a new_id profileId None input;
    _ ← when_recorded id (λ _, audit E a "imto_readiness_evidence.recorded" profileId
      [("category", JStr (eii_category input)); ("evidenceRecorded", JBool true)]);
    mret id).

Definition assessImtoReadiness (arrange : list string → list string) (E : env) (a : actor) (new_id profileId : uuid)
    (reviewerRationale : string) : Act db (uuid * record_summary) :=
  transaction (
    s ← gets (category_summary arrange RegImto profileId None);
    _ ← insert_assessment RegImto E a new_id profileId None s reviewerRationale;
    _ ← audit E a "imto_readiness.assessed" profileId
      [("outcome", JStr (rs_outcome s)); ("missingCategories", jstrings (rs_missingCategories s))];
    mret (new_id, s)).
