(* ===== verification/DossiersProps.v ===== *)
(** * Readiness is never overstated, and nothing is ever said to be submitted *)

From S2P Require Import Prelude Js Numeric Sha256 Hmac Rows Schema Readiness SodMonitor Dossiers.

Local Open Scope string_scope.
Local Open Scope Z_scope.

(** ** What holds of the rows *)

(** Evidence of a category is on record for a subject. *)
Definition evidenced (R : readiness_register) (d : db) (subject : uuid) (counterparty : option uuid) (c : string) : Prop :=
  ∃ k x, readiness_items R d !! k = Some x ∧ rit_subject x = subject ∧ rit_counterparty x = counterparty ∧ rit_category x = c.
Definition planned (d : db) (dossierId : uuid) : Prop := ∃ k p, cbn_sandbox_test_plans d !! k = Some p ∧ ctp_dossier_id p = dossierId.
Definition of_track (d : db) (dossierId : uuid) (track : string) : Prop :=
  ∃ row, cbn_sandbox_dossiers d !! dossierId = Some row ∧ csd_track row = track.

(** The categories an assessment must have asked for. *)
Definition asked (R : readiness_register) (d : db) (subject : uuid) (required : list string) : Prop :=
  match R with
  | RegSandbox => ∃ track, of_track d subject track ∧ required = required_of track
  | RegTravelRule => of_track d subject "vasp" ∧ required = categories R
  | _ => required = categories R
  end.

Record assessment_ok (R : readiness_register) (d : db) (x : readiness_assessment) : Prop := {
  ao_asked : asked R d (ras_subject x) (ras_required_categories x);
  ao_recorded : ∀ c, c ∈ ras_recorded_categories x → evidenced R d (ras_subject x) (ras_counterparty x) c;
  ao_missing : ras_missing_categories x = missing_of (ras_required_categories x) (ras_recorded_categories x);
  ao_codes : ras_inconsistency_codes x = [];
  ao_outcome : ras_outcome x = if bool_decide (ras_missing_categories x = []) && (ras_documented_test_plan x || negb (bool_decide (R = RegSandbox)))
    then complete_text else incomplete_text;
  ao_plan : ras_documented_test_plan x = true → planned d (ras_subject x)
}.

Definition item_ok (R : readiness_register) (x : readiness_item) : Prop :=
  rit_category x ∈ categories R ∧ https (rit_evidence_uri x) = true ∧ is_sha256_hex (rit_evidence_sha256 x) = true.
Definition dossier_ok (x : cbn_sandbox_dossier) : Prop := csd_status x = "draft" ∧ csd_external_submission_reference x = None.
(** A plan was given in JavaScript instants. *)
Definition plan_ok (p : test_plan) : Prop := ctp_status p = "documented" ∧ 0 < ctp_max_transactions p ∧ 0 < ctp_max_aggregate_exposure p ∧
  ∃ s e, ctp_starts_at p = pg_of_js s ∧ ctp_ends_at p = pg_of_js e ∧ s < e.
Definition incident_ok (x : sandbox_incident) : Prop := csi_notification_status x = "not_submitted" ∧ csi_submission_reference x = None.
Definition pack_ok (x : reporting_pack) : Prop := crp_submission_status x = "not_submitted" ∧ crp_submission_reference x = None.

Record dossiers_sound (d : db) : Prop := {
  ds_items : ∀ R, map_Forall (λ _, item_ok R) (readiness_items R d);
  ds_assessments : ∀ R, map_Forall (λ _, assessment_ok R d) (readiness_assessments R d);
  ds_dossiers : map_Forall (λ _, dossier_ok) (cbn_sandbox_dossiers d);
  ds_plans : map_Forall (λ _, plan_ok) (cbn_sandbox_test_plans d);
  ds_incidents : map_Forall (λ _, incident_ok) (cbn_sandbox_incidents d);
  ds_packs : map_Forall (λ _, pack_ok) (cbn_sandbox_reporting_packs d)
}.

(** What is never lost. *)
Record dossiers_kept (d d' : db) : Prop := {
  dk_items : ∀ R, readiness_items R d ⊆ readiness_items R d';
  dk_assessments : ∀ R, readiness_assessments R d ⊆ readiness_assessments R d';
  dk_dossiers : cbn_sandbox_dossiers d ⊆ cbn_sandbox_dossiers d';
  dk_plans : ∀ x, planned d x → planned d' x;
  dk_records : cbn_sandbox_consumer_records d ⊆ cbn_sandbox_consumer_records d';
  dk_incidents : cbn_sandbox_incidents d ⊆ cbn_sandbox_incidents d';
  dk_packs : cbn_sandbox_reporting_packs d ⊆ cbn_sandbox_reporting_packs d';
  dk_log : log_extends d d'
}.
#[local] Instance dossiers_kept_preorder : PreOrder dossiers_kept.
Proof.
  split; [intros d; split; auto; by unfold log_extends|]. intros x y z K1 K2. split; [intros R|intros R|..];
    try (etrans; [by apply K1|by apply K2]). intros w Hw. by apply (dk_plans _ _ K2), (dk_plans _ _ K1).
Qed.

Lemma assessment_later R d d' x : dossiers_kept d d' → assessment_ok R d x → assessment_ok R d' x.
Proof.
  intros K [H1 H2 H3 H4 H5 H6]. split; try done.
  - assert (∀ k t, of_track d k t → of_track d' k t) as Ht.
    { intros k t (row & Hr & <-). exists row. split; [|done]. eapply lookup_weaken; [done|by apply dk_dossiers]. }
    destruct R; cbn in *; [|done| |done..]; [destruct H1 as (t & H1 & ->); eauto|destruct H1; eauto].
  - intros c (k & y & Hk & Hy)%H2. exists k, y. split; [|done]. eapply lookup_weaken; [done|by apply dk_items].
  - intros Hp. by eapply dk_plans, H6.
Qed.

(** A step keeps what is on record, and what holds of it. *)
Definition tended (d d' : db) : Prop := dossiers_kept d d' ∧ (dossiers_sound d → dossiers_sound d').
#[local] Instance tended_preorder : PreOrder tended.
Proof. split; [intros d; split; [reflexivity|done]|]. intros x y z [K1 S1] [K2 S2]. split; [by etrans|auto]. Qed.

(** The tables of the dossiers. *)
Definition dossier_tables (d : db) := (readiness_item_tables d, readiness_assessment_tables d, cbn_sandbox_dossiers d, cbn_sandbox_test_plans d,
  cbn_sandbox_consumer_records d, cbn_sandbox_incidents d, cbn_sandbox_reporting_packs d).
Definition dossiers_untouched (d d' : db) : Prop := dossier_tables d' = dossier_tables d ∧ log_extends d d'.
Lemma untouched_tended d d' : dossiers_untouched d d' → tended d d'.
Proof.
  intros [H L]. injection H as E1 E2 E3 E4 E5 E6 E7.
  assert (dossiers_kept d d') as K.
  { split; unfold readiness_items, readiness_assessments, planned; rewrite ?E1, ?E2, ?E3, ?E4, ?E5, ?E6, ?E7; done. }
  split; [done|]. intros [S1 S2 S3 S4 S5 S6]. split; unfold readiness_items, readiness_assessments in *; rewrite ?E1, ?E2, ?E3, ?E4, ?E5, ?E6, ?E7; try done.
  intros R k x Hk. eapply assessment_later, S2, Hk. done.
Qed.

(** Nothing but the assessments depends on other rows. *)
Lemma tended_intro d d' : dossiers_kept d d' →
  (dossiers_sound d → (∀ R, map_Forall (λ _, item_ok R) (readiness_items R d')) ∧
    (∀ R k x, readiness_assessments R d' !! k = Some x → readiness_assessments R d !! k = Some x ∨ assessment_ok R d' x) ∧
    map_Forall (λ _, dossier_ok) (cbn_sandbox_dossiers d') ∧ map_Forall (λ _, plan_ok) (cbn_sandbox_test_plans d') ∧
    map_Forall (λ _, incident_ok) (cbn_sandbox_incidents d') ∧ map_Forall (λ _, pack_ok) (cbn_sandbox_reporting_packs d')) → tended d d'.
Proof.
  intros K H. split; [done|]. intros S. destruct (H S) as (H1 & H2 & H3 & H4 & H5 & H6). split; try done.
  intros R k x Hk. destruct (H2 R k x Hk) as [Ho|Hn]; [|done]. eapply assessment_later; [done|]. by eapply ds_assessments.
Qed.

(** ** Statements *)

Lemma items_set R R' f d : readiness_items R' (set (readiness_items R) f d) = if bool_decide (R = R') then f (readiness_items R d) else readiness_items R' d.
Proof.
  change (readiness_items R' (set (readiness_items R) f d)) with (default ∅ (<[R := f (readiness_items R d)]> (readiness_item_tables d) !! R')).
  case_bool_decide as H; [subst; by rewrite lookup_insert_eq|by rewrite lookup_insert_ne].
Qed.
Lemma assessments_set R R' f d : readiness_assessments R' (set (readiness_assessments R) f d) =
  if bool_decide (R = R') then f (readiness_assessments R d) else readiness_assessments R' d.
Proof.
  change (readiness_assessments R' (set (readiness_assessments R) f d)) with
    (default ∅ (<[R := f (readiness_assessments R d)]> (readiness_assessment_tables d) !! R')).
  case_bool_decide as H; [subst; by rewrite lookup_insert_eq|by rewrite lookup_insert_ne].
Qed.

(** What a statement on another table leaves alone. *)
Ltac frame := first [by intros ?; reflexivity | unfold log_extends; reflexivity | exact (λ _ H, H) | intros ? ? ? Hj; left; exact Hj | eassumption].

Lemma insert_item_tended R k x d : readiness_items R d !! k = None → item_ok R x → tended d (set (readiness_items R) <[k := x]> d).
Proof.
  intros Hn Hx. apply tended_intro.
  - split; try frame. intros R'. rewrite items_set. case_bool_decide; [subst R'|done]. by apply insert_subseteq.
  - intros S. pose proof S as [S1 S2 S3 S4 S5 S6]. split_and!; try frame. intros R'. rewrite items_set. case_bool_decide; [subst R'|done]. by apply map_Forall_insert_2.
Qed.
Lemma insert_assessment_tended R k x d : readiness_assessments R d !! k = None → (dossiers_sound d → assessment_ok R d x) →
  tended d (set (readiness_assessments R) <[k := x]> d).
Proof.
  intros Hn Hx.
  assert (dossiers_kept d (set (readiness_assessments R) <[k := x]> d)) as K.
  { split; try frame. intros R'. rewrite assessments_set. case_bool_decide; [subst R'|done]. by apply insert_subseteq. }
  apply tended_intro; [done|]. intros S. pose proof S as [S1 S2 S3 S4 S5 S6]. split_and!; try frame. intros R' j y. rewrite assessments_set. case_bool_decide; [subst R'|by left]. intros [[<- <-]|[_ Hj]]%lookup_insert_Some; [|by left].
  right. by eapply assessment_later, Hx.
Qed.

Lemma record_item_tended R E a id subject cp input : respects tended (record_item R E a id subject cp input).
Proof.
  intros d o d' [Hc [(_ & -> & _)|(_ & H & _)]]%insert_or_nothing_ok; [reflexivity|]. apply insert_row_ok in H as (_ & Hn & _ & _ & ->).
  apply insert_item_tended; [done|]. cbn [checks rules_readiness_items] in Hc. rewrite !Forall_cons in Hc. destruct Hc as (C1 & C2 & C3 & _).
  cbn [fst] in *. unfold in_list in C1. by apply bool_decide_eq_true in C1.
Qed.

(** The other tables. *)
Ltac tend := intros; apply tended_intro; [split; try frame; by apply insert_subseteq|];
  intros S; pose proof S as [S1 S2 S3 S4 S5 S6]; split_and!; try frame; by apply map_Forall_insert_2.
Lemma insert_dossier_tended k x d : cbn_sandbox_dossiers d !! k = None → dossier_ok x → tended d (set cbn_sandbox_dossiers <[k := x]> d).
Proof. tend. Qed.
Lemma insert_record_tended k x d : cbn_sandbox_consumer_records d !! k = None → tended d (set cbn_sandbox_consumer_records <[k := x]> d).
Proof. tend. Qed.
Lemma insert_incident_tended k x d : cbn_sandbox_incidents d !! k = None → incident_ok x → tended d (set cbn_sandbox_incidents <[k := x]> d).
Proof. tend. Qed.
Lemma insert_pack_tended k x d : cbn_sandbox_reporting_packs d !! k = None → pack_ok x → tended d (set cbn_sandbox_reporting_packs <[k := x]> d).
Proof. tend. Qed.

(** A plan is stored in place of its dossier's plan. *)
Lemma store_plan_tended f k p d : f (cbn_sandbox_test_plans d) = <[k := p]> (cbn_sandbox_test_plans d) → plan_ok p →
  (∀ q, cbn_sandbox_test_plans d !! k = Some q → ctp_dossier_id q = ctp_dossier_id p) → tended d (set cbn_sandbox_test_plans f d).
Proof.
  intros Hf Hp Hq. assert (cbn_sandbox_test_plans (set cbn_sandbox_test_plans f d) = <[k := p]> (cbn_sandbox_test_plans d)) as Ht by exact Hf.
  apply tended_intro.
  - split; try frame. intros y (j & q & Hj & Hy). unfold planned. rewrite Ht. destruct (decide (j = k)) as [->|Hne].
    + exists k, p. split; [apply lookup_insert_eq|]. by rewrite <- (Hq q).
    + exists j, q. by rewrite lookup_insert_ne.
  - intros S. pose proof S as [S1 S2 S3 S4 S5 S6]. split_and!; try frame. rewrite Ht. by apply map_Forall_insert_2.
Qed.

Lemma upsert_row_ok {R} (tbl : db → gmap uuid R) `{!Setter tbl} name rules same id row d k d' :
  upsert_row tbl name rules same id row d = Ok (k, d') →
  Forall (λ c, c.1 = true) (checks rules row) ∧
  ((∃ x, tbl d !! k = Some x ∧ same row x = true ∧ d' = set tbl (alter (λ _, row) k) d) ∨
   (k = id ∧ tbl d !! k = None ∧ d' = set tbl <[k := row]> d)).
Proof.
  unfold upsert_row. intros H. apply tx_bind_ok in H as (u & d1 & [Hc ->]%enforce_ok & H). split; [done|].
  apply tx_bind_ok in H as (there & d1 & [<- ->]%gets_ok & H). destruct (head _) as [[j x]|] eqn:Hh.
  - apply tx_bind_ok in H as (u1 & d1 & ->%modify_ok & [-> ->]%mret_ok). left. exists x. apply head_Some_elem_of, elem_of_select in Hh as [Hx Hs].
    done.
  - apply tx_bind_ok in H as (u1 & d1 & (_ & Hn & _ & _ & ->)%insert_row_ok & [-> ->]%mret_ok). by right.
Qed.

Lemma activity_tended E a action kind oid md : respects tended (insert_activity E a action kind oid md).
Proof. apply respects_modify. intros d. apply untouched_tended. split; [by destruct d|]. unfold log_extends. simpl. by apply prefix_app_r. Qed.

(** A profile is none of these tables. *)
Lemma upsert_elsewhere {R} (tbl : db → gmap uuid R) `{!Setter tbl} name rules same id row :
  (∀ f d, dossiers_untouched d (set tbl f d)) → respects tended (upsert_row tbl name rules same id row).
Proof. intros H d k d' [_ [(x & _ & _ & ->)|(_ & _ & ->)]]%upsert_row_ok; apply untouched_tended, H. Qed.

(** ** What an assessment says *)

Lemma items_evidenced R subject cp d c : c ∈ items_of R subject cp d ↔ evidenced R d subject cp c.
Proof.
  unfold items_of, evidenced. rewrite list_elem_of_fmap. split.
  - intros ([k x] & -> & [Hk Hp]%elem_of_select). apply andb_true_iff in Hp as [?%bool_decide_eq_true ?%bool_decide_eq_true]. by exists k, x.
  - intros (k & x & Hk & <- & <- & <-). exists (k, x). split; [done|]. apply elem_of_select. split; [done|]. by rewrite !bool_decide_eq_true_2.
Qed.
Lemma recorded_evidenced R subject cp d c :
  c ∈ recorded_in_order R (items_of R subject cp d) ↔ c ∈ categories R ∧ evidenced R d subject cp c.
Proof. unfold recorded_in_order. by rewrite elem_of_List_filter, includes_true, items_evidenced. Qed.
Lemma missing_nil required recorded : missing_of required recorded = [] ↔ ∀ c, c ∈ required → c ∈ recorded.
Proof.
  unfold missing_of. split.
  - intros H c Hc. destruct (includes recorded c) eqn:Hi; [by apply includes_true|]. exfalso.
    assert (c ∈ ([] : list string)) as []%elem_of_nil. rewrite <- H. apply elem_of_List_filter. by rewrite Hi.
  - intros H. apply elem_of_nil_inv. intros c [Hc Hn]%elem_of_List_filter. by rewrite (proj2 (includes_true _ _) (H c Hc)) in Hn.
Qed.

Section summaries.
Context (arrange : list string → list string) (arrange_perm : ∀ l, arrange l ≡ₚ l).

Lemma summary_evidenced R subject cp d c : c ∈ rs_recordedCategories (category_summary arrange R subject cp d) ↔ c ∈ categories R ∧ evidenced R d subject cp c.
Proof. cbn. by rewrite arrange_perm, recorded_evidenced. Qed.
(** Complete means evidence in every category, and the reverse. *)
Lemma summary_exact R subject cp d :
  rs_outcome (category_summary arrange R subject cp d) = complete_text ↔ ∀ c, c ∈ categories R → evidenced R d subject cp c.
Proof.
  transitivity (missing_of (categories R) (rs_recordedCategories (category_summary arrange R subject cp d)) = []); [|rewrite missing_nil; split].
  - unfold category_summary. cbv zeta. cbn [rs_outcome rs_recordedCategories]. by case_bool_decide.
  - intros H c Hc. by apply H, summary_evidenced in Hc as [_ Hc].
  - intros H c Hc. apply summary_evidenced. auto.
Qed.

Lemma summary_row_ok R E a subject cp rationale d : R ≠ RegSandbox → asked R d subject (categories R) →
  let s := category_summary arrange R subject cp d in
  assessment_ok R d (mk_readiness_assessment subject cp (rs_requiredCategories s) (rs_recordedCategories s) (rs_missingCategories s) [] false
    (rs_outcome s) rationale (a_openId a) (db_now E)).
Proof.
  intros Hs Ha s. split; try done.
  - intros c Hc. by apply summary_evidenced in Hc as [_ Hc].
  - cbn. rewrite (bool_decide_eq_false_2 _ Hs). by rewrite andb_true_r.
Qed.
End summaries.

Lemma plan_of_planned k d : is_some (plan_of k d) = true ↔ planned d k.
Proof.
  unfold plan_of, is_some, planned. rewrite bool_decide_eq_true, fmap_is_Some. split.
  - intros [[j p] H]. apply head_Some_elem_of, elem_of_select in H as [Hj Hp]. apply bool_decide_eq_true in Hp. by exists j, p.
  - intros (j & p & Hj & Hp). destruct (head _) eqn:H; [done|]. apply head_None in H. exfalso.
    assert ((j, p) ∈ ([] : list (uuid * test_plan))) as []%elem_of_nil. rewrite <- H. apply elem_of_select. by rewrite bool_decide_eq_true_2.
Qed.
Lemma no_inconsistencies k d : dossiers_sound d → inconsistencies (plan_of k d) = [].
Proof.
  intros [_ _ _ Hp _ _]. unfold plan_of. destruct (head _) as [[j p]|] eqn:H; [|done]. apply head_Some_elem_of, elem_of_select in H as [Hj _].
  destruct (Hp j p Hj) as (Hs & _ & _ & s & e & Es & Ee & Hlt). cbn [fmap option_fmap option_map snd inconsistencies].
  rewrite Hs, Es, Ee, !js_of_pg_of_js. rewrite bool_decide_eq_true_2 by done. by replace (e <=? s) with false by (symmetry; apply Z.leb_gt; lia).
Qed.

(** The sandbox's own completeness. *)
Lemma completeness_row_ok E a k row rationale d : dossiers_sound d → cbn_sandbox_dossiers d !! k = Some row →
  let c := evidence_completeness k row d in
  assessment_ok RegSandbox d (mk_readiness_assessment k None (co_requiredCategories c) (co_recordedCategories c) (co_missingCategories c)
    (co_inconsistencyCodes c) (co_documentedTestPlan c) (co_outcome c) rationale (a_openId a) (db_now E)).
Proof.
  intros S Hk c. pose proof (no_inconsistencies k d S) as Hi. split.
  - exists (csd_track row). split; [by exists row|reflexivity].
  - intros x Hx. by apply recorded_evidenced in Hx as [_ Hx].
  - reflexivity.
  - exact Hi.
  - unfold c, evidence_completeness. cbv zeta. cbn [ras_outcome ras_missing_categories ras_documented_test_plan co_outcome co_missingCategories
      co_documentedTestPlan]. rewrite Hi, (bool_decide_eq_true_2 (@nil string = [])) by reflexivity.
    rewrite (bool_decide_eq_true_2 (RegSandbox = RegSandbox)) by reflexivity. cbn [negb]. by rewrite orb_false_r.
  - apply plan_of_planned.
Qed.
Lemma completeness_exact k row d : dossiers_sound d →
  co_outcome (evidence_completeness k row d) = complete_text ↔
    (∀ c, c ∈ required_of (csd_track row) → evidenced RegSandbox d k None c) ∧ planned d k.
Proof.
  intros S. unfold evidence_completeness. cbv zeta. cbn [co_outcome]. rewrite (no_inconsistencies k d S), <- plan_of_planned.
  assert (∀ c, c ∈ required_of (csd_track row) → c ∈ categories RegSandbox) as Hsub.
  { unfold required_of. case_bool_decide; [done|]. intros c Hc. revert c Hc. apply (proj1 (Forall_forall (λ c, c ∈ categories RegSandbox) _)).
    by apply (bool_decide_unpack (Forall (λ c, c ∈ categories RegSandbox) dataEnabledCategories)). }
  transitivity (missing_of (required_of (csd_track row)) (recorded_in_order RegSandbox (items_of RegSandbox k None d)) = [] ∧ is_some (plan_of k d) = true).
  - rewrite (bool_decide_eq_true_2 (@nil string = [])) by reflexivity. cbn [negb]. case_bool_decide as H; cbn [andb]; [|split; [done|by intros [? _]]].
    destruct (is_some _); [done|]. split; [done|by intros [_ ?]].
  - rewrite missing_nil. split; intros [H1 H2]; split; try done; intros c Hc; [by apply H1, recorded_evidenced in Hc as [_ Hc]|].
    apply recorded_evidenced. auto.
Qed.

(** ** Handlers *)

Lemma insert_respects {R} (tbl : db → gmap uuid R) `{!Setter tbl} name rules id row :
  (∀ d, tbl d !! id = None → tended d (set tbl <[id := row]> d)) → respects tended (insert_row tbl name rules id row).
Proof. intros H d u d' (_ & Hn & _ & _ & ->)%insert_row_ok. by apply H. Qed.

(** Profiles are not among the tables of the dossiers. *)
Ltac profile := apply upsert_elsewhere; intros f d; split; [reflexivity|unfold log_extends; reflexivity].
Ltac tended_step := lazymatch goal with
  | |- respects _ (insert_row _ _ _ _ _) => apply insert_respects; intros d Hn
  | |- respects _ (upsert_row _ _ _ _ _ _) => profile
  | |- respects _ (insert_activity _ _ _ _ _ _) => apply activity_tended
  | |- respects _ (record_item _ _ _ _ _ _ _) => apply record_item_tended
  | |- respects _ (select_by_id _ _) => apply respects_gets, _
  | |- respects _ (gets _) => apply respects_gets, _
  | |- respects _ (require _ _) => apply respects_require, _
  | |- respects _ (throw_if _ _) => apply respects_throw_if, _
  | |- respects _ (mret _) => apply respects_ret, _
  | |- respects _ (match ?b with _ => _ end) => destruct b
  | |- respects _ (mbind _ _) => apply respects_bind; [apply _|..]
  | |- respects _ _ => progress cbv zeta
  | |- ∀ _, _ => intros ?
  end.
Ltac tended_steps := apply transaction_respects; [apply _|];
  unfold require_dossier, requireVaspDossier, require_counterparty, sandbox_activity, vasp_activity, audit, when_recorded; repeat tended_step.

Lemma create_dossier_tended E a id le track name text : act_respects tended (createCbnSandboxDossier E a id le track name text).
Proof. tended_steps. by apply insert_dossier_tended. Qed.
Lemma evidence_tended E a id k i : act_respects tended (recordCbnSandboxEvidence E a id k i).
Proof. tended_steps. Qed.

Lemma plan_tended E a id i : act_respects tended (createCbnSandboxTestPlan E a id i).
Proof.
  apply transaction_respects; [apply _|]. unfold require_dossier, sandbox_activity. do 2 (apply respects_bind; [apply _|repeat tended_step|intros _]).
  apply respects_bind; [apply _| |repeat tended_step]. set (row := mk_test_plan _ _ _ _ _ _ _ _ _ _ _ _). intros d k d' [Hc Hr]%upsert_row_ok.
  assert (plan_ok row) as Hp.
  { cbn [checks rules_test_plans] in Hc. rewrite !Forall_cons in Hc. destruct Hc as (_ & _ & _ & C1 & _ & C2 & _ & _ & C3 & _). cbn [fst] in *.
    apply Z.ltb_lt in C1, C2, C3. split_and!; try done. exists (tpi_startsAt i), (tpi_endsAt i). split_and!; [done..|].
    unfold row in C3. cbn [ctp_starts_at ctp_ends_at] in C3. unfold pg_of_js in C3. lia. }
  destruct Hr as [(x & Hx & Hs & ->)|(_ & Hn & ->)]; apply (store_plan_tended _ k row); try done.
  - by apply (alter_as_insert _ _ _ _ Hx).
  - intros q Hq. apply bool_decide_eq_true in Hs. congruence.
  - intros q Hq. congruence.
Qed.

Lemma assess_sandbox_tended E a id k rationale : act_respects tended (assessCbnSandboxEvidenceCompleteness E a id k rationale).
Proof.
  apply transaction_respects; [apply _|]. intros d x d' H. apply tx_bind_ok in H as (c & d1 & Hc & H).
  apply tx_bind_ok in Hc as (row & d2 & Hrow & [<- ->]%gets_ok). apply tx_bind_ok in Hrow as (f & d3 & [<- ->]%gets_ok & [Hrow ->]%require_ok).
  apply tx_bind_ok in H as (u & d4 & (_ & Hn & _ & _ & ->)%insert_row_ok & H). etransitivity.
  - apply insert_assessment_tended; [exact Hn|]. intros S. exact (completeness_row_ok E a k row rationale d S Hrow).
  - apply tx_bind_ok in H as (u2 & d5 & Ha & [-> ->]%mret_ok). exact (activity_tended _ _ _ _ _ _ _ _ _ Ha).
Qed.

(** The tail of an assessment of the other registers. *)
Lemma insert_summary_tended arrange R E a id subject cp rationale d u d' : (∀ l, arrange l ≡ₚ l) → R ≠ RegSandbox → asked R d subject (categories R) →
  insert_assessment R E a id subject cp (category_summary arrange R subject cp d) rationale d = Ok (u, d') → tended d d'.
Proof.
  intros Hp Hs Ha (_ & Hn & _ & _ & ->)%insert_row_ok. apply insert_assessment_tended; [exact Hn|]. intros _. by apply summary_row_ok.
Qed.

Section assessments.
Context (arrange : list string → list string) (arrange_perm : ∀ l, arrange l ≡ₚ l).

Lemma assess_route_tended E a id k cp rationale : act_respects tended (assessVaspTravelRuleRoute arrange E a id k cp rationale).
Proof.
  apply transaction_respects; [apply _|]. intros d x d' H. apply tx_bind_ok in H as (c & d1 & Hc & H).
  apply tx_bind_ok in Hc as (f & d2 & [<- ->]%gets_ok & Hc). apply tx_bind_ok in Hc as (row & d2 & [Hrow ->]%require_ok & [_ ->]%mret_ok).
  destruct (cbn_sandbox_dossiers d !! k) as [row'|] eqn:Hk; [|done]. cbn [mbind option_bind] in Hrow. case_bool_decide as Ht; [|done].
  apply tx_bind_ok in H as (s & d2 & [<- ->]%gets_ok & H). apply tx_bind_ok in H as (u & d2 & Hi & H). etransitivity.
  - eapply insert_summary_tended, Hi; [done|done|]. split; [by exists row'|done].
  - apply tx_bind_ok in H as (u2 & d5 & Ha & [-> ->]%mret_ok). exact (activity_tended _ _ _ _ _ _ _ _ _ Ha).
Qed.
Lemma assess_offshore_tended E a id k rationale : act_respects tended (assessVaspOffshoreCounterpartyProfile arrange E a id k rationale).
Proof.
  apply transaction_respects; [apply _|]. intros d x d' H. apply tx_bind_ok in H as (s & d2 & [<- ->]%gets_ok & H).
  apply tx_bind_ok in H as (u & d2 & Hi & H). etransitivity; [by eapply insert_summary_tended, Hi|].
  apply tx_bind_ok in H as (u2 & d5 & Ha & [-> ->]%mret_ok). exact (activity_tended _ _ _ _ _ _ _ _ _ Ha).
Qed.
Lemma assess_imto_tended E a id k rationale : act_respects tended (assessImtoReadiness arrange E a id k rationale).
Proof.
  apply transaction_respects; [apply _|]. intros d x d' H. apply tx_bind_ok in H as (s & d2 & [<- ->]%gets_ok & H).
  apply tx_bind_ok in H as (u & d2 & Hi & H). etransitivity; [by eapply insert_summary_tended, Hi|].
  apply tx_bind_ok in H as (u2 & d5 & Ha & [-> ->]%mret_ok). exact (activity_tended _ _ _ _ _ _ _ _ _ Ha).
Qed.
End assessments.

Lemma consumer_record_tended E a id i : act_respects tended (recordCbnSandboxConsumerRecord E a id i).
Proof. tended_steps. by apply insert_record_tended. Qed.
Lemma incident_tended E a id i : act_respects tended (recordCbnSandboxIncident E a id i).
Proof. tended_steps. by apply insert_incident_tended. Qed.
Lemma pack_tended tt E a id k s e uri : act_respects tended (createCbnSandboxReportingPack tt E a id k s e uri).
Proof. tended_steps. by apply insert_pack_tended. Qed.
Lemma vasp_profile_tended E a id k path text : act_respects tended (createVaspRegulatoryProfile E a id k path text).
Proof. tended_steps. Qed.
Lemma supervisory_evidence_tended E a id k i : act_respects tended (recordVaspSupervisoryEvidence E a id k i).
Proof. tended_steps. Qed.
Lemma route_evidence_tended E a id k cp i : act_respects tended (recordVaspTravelRuleEvidence E a id k cp i).
Proof. tended_steps. Qed.
Lemma offshore_profile_tended E a id k cp home tier text : act_respects tended (createVaspOffshoreCounterpartyProfile E a id k cp home tier text).
Proof. tended_steps. Qed.
Lemma offshore_evidence_tended E a id k i : act_respects tended (recordVaspOffshoreCounterpartyEvidence E a id k i).
Proof. tended_steps. Qed.
Lemma imto_profile_tended E a id k text : act_respects tended (createImtoReadinessProfile E a id k text).
Proof. tended_steps. Qed.
Lemma imto_evidence_tended E a id k i : act_respects tended (recordImtoReadinessEvidence E a id k i).
Proof. tended_steps. Qed.

(** ** Runs *)

Inductive dossier_step (d : db) : db → Prop :=
  | dt_dossier E a id le track name text : dossier_step d (createCbnSandboxDossier E a id le track name text d).2
  | dt_evidence E a id k i : dossier_step d (recordCbnSandboxEvidence E a id k i d).2
  | dt_plan E a id i : dossier_step d (createCbnSandboxTestPlan E a id i d).2
  | dt_assess E a id k rationale : dossier_step d (assessCbnSandboxEvidenceCompleteness E a id k rationale d).2
  | dt_record E a id i : dossier_step d (recordCbnSandboxConsumerRecord E a id i d).2
  | dt_incident E a id i : dossier_step d (recordCbnSandboxIncident E a id i d).2
  | dt_pack text E a id k s e uri : dossier_step d (createCbnSandboxReportingPack text E a id k s e uri d).2
  | dt_profile E a id k path text : dossier_step d (createVaspRegulatoryProfile E a id k path text d).2
  | dt_supervisory E a id k i : dossier_step d (recordVaspSupervisoryEvidence E a id k i d).2
  | dt_route E a id k cp i : dossier_step d (recordVaspTravelRuleEvidence E a id k cp i d).2
  | dt_assess_route arrange E a id k cp rationale : (∀ l, arrange l ≡ₚ l) → dossier_step d (assessVaspTravelRuleRoute arrange E a id k cp rationale d).2
  | dt_offshore E a id k cp home tier text : dossier_step d (createVaspOffshoreCounterpartyProfile E a id k cp home tier text d).2
  | dt_exposure E a id k i : dossier_step d (recordVaspOffshoreCounterpartyEvidence E a id k i d).2
  | dt_assess_offshore arrange E a id k rationale :
      (∀ l, arrange l ≡ₚ l) → dossier_step d (assessVaspOffshoreCounterpartyProfile arrange E a id k rationale d).2
  | dt_imto E a id k text : dossier_step d (createImtoReadinessProfile E a id k text d).2
  | dt_remittance E a id k i : dossier_step d (recordImtoReadinessEvidence E a id k i d).2
  | dt_assess_imto arrange E a id k rationale : (∀ l, arrange l ≡ₚ l) → dossier_step d (assessImtoReadiness arrange E a id k rationale d).2
  | dt_elsewhere d' : dossiers_untouched d d' → dossier_step d d'.

Lemma dossier_step_tended d d' : dossier_step d d' → tended d d'.
Proof.
  intros [E a id le track name text|E a id k i|E a id i|E a id k rationale|E a id i|E a id i|text E a id k s e uri|E a id k path text|E a id k i
    |E a id k cp i|arrange E a id k cp rationale Hp|E a id k cp home tier text|E a id k i|arrange E a id k rationale Hp|E a id k text|E a id k i
    |arrange E a id k rationale Hp|d'' Hu].
  - apply create_dossier_tended.
  - apply evidence_tended.
  - apply plan_tended.
  - apply assess_sandbox_tended.
  - apply consumer_record_tended.
  - apply incident_tended.
  - apply pack_tended.
  - apply vasp_profile_tended.
  - apply supervisory_evidence_tended.
  - apply route_evidence_tended.
  - by apply assess_route_tended.
  - apply offshore_profile_tended.
  - apply offshore_evidence_tended.
  - by apply assess_offshore_tended.
  - apply imto_profile_tended.
  - apply imto_evidence_tended.
  - by apply assess_imto_tended.
  - by apply untouched_tended.
Qed.
Lemma dossier_run_tended d d' : rtc dossier_step d d' → tended d d'.
Proof. induction 1 as [|d0 d1 d2 Hs _ IH]; [reflexivity|]. etransitivity; [by apply dossier_step_tended|done]. Qed.

(** An assessment's rows say no more than the records do. *)
Lemma complete_is_evidenced R d x : assessment_ok R d x → dossiers_sound d → ras_outcome x = complete_text →
  (∀ c, c ∈ ras_required_categories x → ∃ k it, readiness_items R d !! k = Some it ∧ rit_subject it = ras_subject x ∧
    rit_counterparty it = ras_counterparty x ∧ rit_category it = c ∧ item_ok R it) ∧ (R = RegSandbox → planned d (ras_subject x)).
Proof.
  intros [_ H2 H3 _ H5 H6] S Hc. rewrite H5 in Hc. destruct (_ && _) eqn:Hb; [|done].
  apply andb_true_iff in Hb as [Hm%bool_decide_eq_true Hp]. rewrite Hm in H3. symmetry in H3. rewrite missing_nil in H3. split.
  - intros c Hin. destruct (H2 c (H3 c Hin)) as (k & it & Hk & Hs & Hcp & Hcat). exists k, it. split_and!; try done; by eapply ds_items.
  - intros ->. apply H6. by rewrite bool_decide_eq_true_2, orb_false_r in Hp.
Qed.

(** What an assessment answers. *)
Lemma assess_sandbox_answer E a id k rationale d id' c d' : assessCbnSandboxEvidenceCompleteness E a id k rationale d = (Ok (id', c), d') →
  ∃ row, cbn_sandbox_dossiers d !! k = Some row ∧ c = evidence_completeness k row d.
Proof.
  intros H%transaction_ok. apply tx_bind_ok in H as (c' & d1 & Hc & H).
  apply tx_bind_ok in Hc as (row & d2 & Hrow & [<- ->]%gets_ok). apply tx_bind_ok in Hrow as (f & d3 & [<- ->]%gets_ok & [Hrow ->]%require_ok).
  apply tx_bind_ok in H as (u & d4 & _ & H). apply tx_bind_ok in H as (u2 & d5 & _ & [Hr _]%mret_ok). injection Hr as -> ->. by exists row.
Qed.

Section answers.
Context (arrange : list string → list string).
Lemma assess_route_answer E a id k cp rationale d id' s d' : assessVaspTravelRuleRoute arrange E a id k cp rationale d = (Ok (id', s), d') →
  s = category_summary arrange RegTravelRule k (Some cp) d.
Proof.
  intros H%transaction_ok. apply tx_bind_ok in H as (c & d1 & Hc & H).
  apply tx_bind_ok in Hc as (f & d2 & [<- ->]%gets_ok & Hc). apply tx_bind_ok in Hc as (row & d2 & [Hrow ->]%require_ok & [_ ->]%mret_ok).
  apply tx_bind_ok in H as (s' & d2 & [<- ->]%gets_ok & H). apply tx_bind_ok in H as (u & d2 & _ & H).
  apply tx_bind_ok in H as (u2 & d5 & _ & [Hr _]%mret_ok). by injection Hr as -> ->.
Qed.
Lemma assess_offshore_answer E a id k rationale d id' s d' :
  assessVaspOffshoreCounterpartyProfile arrange E a id k rationale d = (Ok (id', s), d') → s = category_summary arrange RegOffshore k None d.
Proof.
  intros H%transaction_ok. apply tx_bind_ok in H as (s' & d2 & [<- ->]%gets_ok & H). apply tx_bind_ok in H as (u & d2 & _ & H).
  apply tx_bind_ok in H as (u2 & d5 & _ & [Hr _]%mret_ok). by injection Hr as -> ->.
Qed.
Lemma assess_imto_answer E a id k rationale d id' s d' :
  assessImtoReadiness arrange E a id k rationale d = (Ok (id', s), d') → s = category_summary arrange RegImto k None d.
Proof.
  intros H%transaction_ok. apply tx_bind_ok in H as (s' & d2 & [<- ->]%gets_ok & H). apply tx_bind_ok in H as (u & d2 & _ & H).
  apply tx_bind_ok in H as (u2 & d5 & _ & [Hr _]%mret_ok). by injection Hr as -> ->.
Qed.
End answers.

(** C38. Readiness is never overstated. On every run of the seventeen handlers, in
    any order and between other work, evidence items, assessments, dossiers,
    consumer records, incidents and reporting packs are never changed or lost
    and the log only grows; a stored assessment asked for the categories its
    register (in the sandbox: its dossier's track) requires, lists as missing
    exactly those it did not find, is never inconsistent, and when it says
    complete, every category it asked for still has an item on record, over
    https and with a digest (in the sandbox there is a test plan too); no
    dossier, incident or pack is ever marked submitted. An assessment answers
    complete exactly when every required category has an item at that moment. *)
Theorem readiness_not_overstated d d' : dossiers_sound d → rtc dossier_step d d' →
  dossiers_kept d d' ∧ dossiers_sound d' ∧
  (∀ R k x, readiness_assessments R d' !! k = Some x →
    asked R d' (ras_subject x) (ras_required_categories x) ∧ ras_inconsistency_codes x = [] ∧
    ras_missing_categories x = missing_of (ras_required_categories x) (ras_recorded_categories x) ∧
    (ras_outcome x = complete_text ∨ ras_outcome x = incomplete_text) ∧
    (ras_outcome x = complete_text →
      (∀ c, c ∈ ras_required_categories x → ∃ j it, readiness_items R d' !! j = Some it ∧ rit_subject it = ras_subject x ∧
        rit_counterparty it = ras_counterparty x ∧ rit_category it = c ∧ item_ok R it) ∧ (R = RegSandbox → planned d' (ras_subject x)))) ∧
  (∀ k x, cbn_sandbox_dossiers d' !! k = Some x → csd_status x = "draft" ∧ csd_external_submission_reference x = None) ∧
  (∀ k x, cbn_sandbox_incidents d' !! k = Some x → csi_notification_status x = "not_submitted") ∧
  (∀ k x, cbn_sandbox_reporting_packs d' !! k = Some x → crp_submission_status x = "not_submitted") ∧
  (∀ E a id k rationale id' c d'', assessCbnSandboxEvidenceCompleteness E a id k rationale d' = (Ok (id', c), d'') →
    (co_outcome c = complete_text ↔ (∀ x, x ∈ required_of (co_track c) → evidenced RegSandbox d' k None x) ∧ planned d' k)) ∧
  (∀ arrange E a id k rationale id' s d'', (∀ l, arrange l ≡ₚ l) →
    (∀ cp, assessVaspTravelRuleRoute arrange E a id k cp rationale d' = (Ok (id', s), d'') →
      (rs_outcome s = complete_text ↔ ∀ c, c ∈ travelRuleEvidenceCategories → evidenced RegTravelRule d' k (Some cp) c)) ∧
    (assessVaspOffshoreCounterpartyProfile arrange E a id k rationale d' = (Ok (id', s), d'') →
      (rs_outcome s = complete_text ↔ ∀ c, c ∈ offshoreExposureEvidenceCategories → evidenced RegOffshore d' k None c)) ∧
    (assessImtoReadiness arrange E a id k rationale d' = (Ok (id', s), d'') →
      (rs_outcome s = complete_text ↔ ∀ c, c ∈ imtoEvidenceCategories → evidenced RegImto d' k None c))).
Proof.
  intros S [K H]%dossier_run_tended. pose proof (H S) as S'. split; [done|]. split; [done|]. split.
  { intros R k x Hk. pose proof (ds_assessments _ S' R k x Hk) as Ha. split; [apply Ha|]. split; [apply Ha|]. split; [apply Ha|]. split.
    - rewrite (ao_outcome _ _ _ Ha). destruct (_ && _); [by left|by right].
    - by apply complete_is_evidenced. }
  split; [intros k x Hk; apply (ds_dossiers _ S' k x Hk)|]. split; [intros k x Hk; apply (ds_incidents _ S' k x Hk)|].
  split; [intros k x Hk; apply (ds_packs _ S' k x Hk)|]. split.
  - intros E a id k rationale id' c d'' (row & _ & ->)%assess_sandbox_answer. by apply completeness_exact.
  - intros arrange E a id k rationale id' s d'' Hp. split_and!.
    + intros cp ->%assess_route_answer. by apply summary_exact.
    + intros ->%assess_offshore_answer. by apply summary_exact.
    + intros ->%assess_imto_answer. by apply summary_exact.
Qed.

(** ** A remittance register that becomes complete *)

Definition dos_env (t : Z) : env := mk_env (t * 1000) (t * 1000000) 0.
Definition dos_officer : actor := mk_actor "officer" RoleComplianceOfficer.
Definition dos_model : string := "Inbound remittances are paid out in naira through an authorised dealer bank.".
Definition dos_digest : string := "0123456789abcdef0123456789abcdef0123456789abcdef0123456789abcdef".
Definition dos0 : db := empty_db <| legal_entities := {[1%positive := mk_legal_entity "Umoja Nigeria Ltd" "Nigeria" "RC-1001" 0]} |>.
Definition dos1 : db := (createImtoReadinessProfile (dos_env 1) dos_officer 2 1 dos_model dos0).2.
Definition dos_item (d : db) (kc : positive * string) : db :=
  (recordImtoReadinessEvidence (dos_env 2) dos_officer kc.1 2 (mk_evidence_item_input kc.2 "https://evidence.example/imto" dos_digest) d).2.
Definition dos2 : db := (assessImtoReadiness id (dos_env 3) dos_officer 20 2 "Reviewed before the records were collected" dos1).2.
Definition dos3 : db := foldl dos_item dos2 (zip (Pos.of_nat <$> seq 3 9) imtoEvidenceCategories).
Definition dos4 : db := (assessImtoReadiness id (dos_env 4) dos_officer 21 2 "Reviewed with every record collected" dos3).2.

Lemma dos_items_run l d : rtc dossier_step d (foldl dos_item d l).
Proof.
  revert d. induction l as [|[k c] l IH]; intros d; [apply rtc_refl|]. cbn [foldl].
  exact (rtc_l _ _ _ _ (dt_remittance d (dos_env 2) dos_officer k 2 (mk_evidence_item_input c "https://evidence.example/imto" dos_digest)) (IH _)).
Qed.
Lemma dos4_run : rtc dossier_step dos0 dos4.
Proof.
  refine (rtc_l _ _ _ _ (dt_imto dos0 (dos_env 1) dos_officer 2 1 dos_model) _).
  refine (rtc_l _ _ _ _ (dt_assess_imto dos1 id (dos_env 3) dos_officer 20 2 "Reviewed before the records were collected" (λ l, Permutation_refl l)) _).
  exact (rtc_r _ _ _ (dos_items_run _ dos2)
    (dt_assess_imto dos3 id (dos_env 4) dos_officer 21 2 "Reviewed with every record collected" (λ l, Permutation_refl l))).
Qed.
Lemma dos0_sound : dossiers_sound dos0.
Proof. split; [intros R|intros R|..]; apply map_Forall_empty. Qed.
Lemma readiness_not_overstated_witness :
  (ras_outcome <$> readiness_assessments RegImto dos4 !! 20%positive) = Some incomplete_text ∧
  (ras_outcome <$> readiness_assessments RegImto dos4 !! 21%positive) = Some complete_text ∧ dossiers_kept dos0 dos4.
Proof.
  split; [vm_compute; reflexivity|]. split; [vm_compute; reflexivity|].
  exact (proj1 (readiness_not_overstated dos0 dos4 dos0_sound dos4_run)).
Defined.

(** ** Reporting packs *)

Lemma enforce_throws rs d e : enforce rs d = Throw e → ∃ v, e = PgError v.
Proof.
  induction rs as [|[b v] rs IH]; cbn [enforce]; [done|]. unfold mbind, tx_bind, throw_if. destruct b; cbn [negb]; [exact IH|].
  intros [= <-]. by exists v.
Qed.
Lemma insert_row_throws {R} (tbl : db → gmap uuid R) `{!Setter tbl} name rules id row d e :
  insert_row tbl name rules id row d = Throw e → ∃ v, e = PgError v.
Proof.
  unfold insert_row, mbind, tx_bind, gets, modify, throw_if. destruct (enforce _ d) as [[]|] eqn:H1; [|intros [= <-]; by eapply enforce_throws].
  destruct (bool_decide _); [intros [= <-]; by eexists|]. destruct (enforce (uniques _ _ _) _) as [[]|] eqn:H2; [|intros [= <-]; by eapply enforce_throws].
  apply enforce_throws.
Qed.

(** A pack carries the digest of what the dossier has on record: its evidence in
    the order of the enumeration and of the digests, and the incidents and
    consumer records of the period, each in the order of time. *)
Theorem pack_is_a_digest text E a id k s e uri d r d' : createCbnSandboxReportingPack text E a id k s e uri d = (Ok r, d') →
  let m := manifest_of text k (pg_of_js s) (pg_of_js e) d in
  rpr_manifest r = m ∧ rpr_artifactSha256 r = sha256 (manifest_text m) ∧ is_Some (cbn_sandbox_dossiers d !! k) ∧
  (∃ p, cbn_sandbox_reporting_packs d' !! id = Some p ∧ crp_artifact_sha256 p = sha256 (manifest_text m) ∧ crp_dossier_id p = k) ∧
  (∀ h c, (h, c) ∈ pm_evidence m ↔ ∃ j x, readiness_items RegSandbox d !! j = Some x ∧ rit_subject x = k ∧ rit_evidence_sha256 x = h ∧ rit_category x = c) ∧
  (∀ kind severity t, (kind, severity, t) ∈ pm_incidents m ↔ ∃ j x, cbn_sandbox_incidents d !! j = Some x ∧ csi_dossier_id x = k ∧
    pg_of_js s <= csi_occurred_at x < pg_of_js e ∧ csi_kind x = kind ∧ csi_severity x = severity ∧ text (csi_occurred_at x) = t).
Proof.
  intros H%transaction_ok m. apply tx_bind_ok in H as (m' & d1 & [<- ->]%gets_ok & H). cbv zeta in H.
  apply tx_bind_ok in H as (u & d1 & (_ & Hn & _ & Hf & ->)%insert_row_ok & H). apply tx_bind_ok in H as (u2 & d2 & ->%modify_ok & [-> ->]%mret_ok).
  split; [reflexivity|]. split; [reflexivity|]. split.
  { cbn [references rules_reporting_packs] in Hf. rewrite Forall_cons in Hf. destruct Hf as [Hf _]. exact (bool_decide_eq_true_1 _ Hf). }
  split; [eexists; split; [apply lookup_insert_eq|split; reflexivity]|]. split.
  - intros h c. unfold m, manifest_of. cbv zeta. cbn [pm_evidence]. rewrite list_elem_of_fmap. split.
    + intros ([j x] & [= -> ->] & Hx). rewrite order_by_perm in Hx. apply elem_of_select in Hx as [Hj Hk]. apply bool_decide_eq_true in Hk. by exists j, x.
    + intros (j & x & Hj & <- & <- & <-). exists (j, x). split; [done|]. rewrite order_by_perm. apply elem_of_select. by rewrite bool_decide_eq_true_2.
  - intros kind severity t. unfold m, manifest_of. cbv zeta. cbn [pm_incidents]. rewrite list_elem_of_fmap. split.
    + intros ([j x] & [= -> -> ->] & Hx). rewrite order_by_perm in Hx. apply elem_of_select in Hx as [Hj Hk]. unbool. exists j, x. split_and!; try done; lia.
    + intros (j & x & Hj & <- & Hw & <- & <- & <-). exists (j, x). split; [done|]. rewrite order_by_perm. apply elem_of_select.
      split; [done|]. rewrite bool_decide_eq_true_2 by done. cbn [andb]. apply andb_true_iff. split; [apply Z.leb_le|apply Z.ltb_lt]; lia.
Qed.

(** Departure: the handler means to answer that a dossier does not exist, and
    never does: its query always gives a row, and for such a dossier the insert
    fails on a constraint, with the database's error. *)
Theorem missing_dossier_not_announced text E a id k s e uri d : cbn_sandbox_dossiers d !! k = None →
  ∃ v, createCbnSandboxReportingPack text E a id k s e uri d = (Throw (PgError v), d).
Proof.
  intros Hk. unfold createCbnSandboxReportingPack, transaction, mbind, tx_bind, gets. cbv zeta.
  match goal with |- context [insert_row ?t ?n ?r ?i ?row d] => destruct (insert_row t n r i row d) as [[u d1]|err] eqn:H end.
  - exfalso. apply insert_row_ok in H as (_ & _ & _ & Hf & ->). cbn [references rules_reporting_packs] in Hf. rewrite Forall_cons in Hf.
    destruct Hf as [Hf _]. apply bool_decide_eq_true in Hf. change (is_Some (cbn_sandbox_dossiers d !! k)) in Hf. rewrite Hk in Hf. by destruct Hf.
  - apply insert_row_throws in H as [v ->]. by exists v.
Qed.
