(* ===== verification/Identity.v ===== *)
(** * Who is calling

    src/apps/control-plane/server: keycloakIdentity.ts, keycloakFederation.ts,
    _core/oidc.ts and _core/context.ts. An operator signs in with the identity
    provider (an authorisation code with PKCE) and gets a session cookie, or
    presents a bearer token of that provider; the context of a request then
    looks the operating role up in the database.

    The process environment, the URL parser, the verification of the provider's
    tokens against its published keys, the token endpoint, the clock and random
    values are arguments; the tokens the server signs itself are an interface. *)

From S2P Require Import Prelude Js Numeric Sha256 Hmac Rows Schema Parties Access.

Local Open Scope string_scope.
Local Open Scope Z_scope.

Definition claims : Type := list (string * json).
Definition claim_text (c : claims) (k : string) : option string :=
  match record_get c k with Some (JStr s) => Some s | _ => None end.
(** [===] of two values that were parsed apart: objects are never the same. *)
Definition strictly_equal (a b : option json) : bool :=
  match a, b with
  | None, None => true
  | Some JNull, Some JNull => true
  | Some (JBool x), Some (JBool y) => Bool.eqb x y
  | Some (JNum x), Some (JNum y) => x =? y
  | Some (JFrac m e), Some (JFrac n f) => (m =? n) && (e =? f)%positive
  | Some (JStr x), Some (JStr y) => bool_decide (x = y)
  | _, _ => false
  end.
Definition slice (n : nat) (s : string) : string := String.substring 0 n s.

(** ** One identity per subject *)

Definition deriveOpenId (subject : string) : string := "kc_" +:+ slice 61 (sha256 subject).

(** ** Tokens the server signs *)

(** [sign] and [verify] of oidc.ts over [SignJWT] and [jwtVerify] with HS256. A
    token verifies under the secret it was signed with, until it expires, and
    gives what was signed with the times of issue and of expiry. *)
Class SessionTokens (token : Type) : Type := {
  jwt_sign : Z → string → claims → Z → token;
  jwt_verify : Z → string → token → option claims;
  jwt_signed now secret c ttl now' : now / 1000 <= now' / 1000 < now / 1000 + ttl →
    jwt_verify now' secret (jwt_sign now secret c ttl) = Some (c ++ [("iat", JNum (now / 1000)); ("exp", JNum (now / 1000 + ttl))])%list
}.

(** ** Roles and assurance in a provider's token *)

Definition ROLE_BY_REALM_ROLE : list (string * operating_role) :=
  [("umojaflowos_admin", RoleAdmin); ("umojaflowos_compliance_officer", RoleComplianceOfficer);
   ("umojaflowos_treasury_operator", RoleTreasuryOperator); ("umojaflowos_auditor", RoleAuditor)].

(** Looking up a key of an object literal also finds what [Object.prototype]
    has, which is no role but is truthy. *)
Definition object_prototype : list string :=
  ["constructor"; "toString"; "toLocaleString"; "valueOf"; "hasOwnProperty"; "isPrototypeOf"; "propertyIsEnumerable"; "__proto__";
   "__defineGetter__"; "__defineSetter__"; "__lookupGetter__"; "__lookupSetter__"].
Inductive selected_role : Type :=
  | Platform (r : operating_role)
  | Inherited (key : string).
#[export] Instance selected_role_eq_dec : EqDecision selected_role.
Proof. solve_decision. Defined.
Definition realm_role (name : string) : option selected_role :=
  match record_get ROLE_BY_REALM_ROLE name with
  | Some r => Some (Platform r)
  | None => if includes object_prototype name then Some (Inherited name) else None
  end.

Definition json_texts (xs : list json) : list string := omap (λ x, match x with JStr s => Some s | _ => None end) xs.
Definition selectedRole (payload : claims) : option selected_role :=
  match record_get payload "realm_access" with
  | Some (JObj access) =>
      match record_get access "roles" with
      | Some (JArr roles) => match omap realm_role (json_texts roles) with [r] => Some r | _ => None end
      | _ => None
      end
  | _ => None
  end.

Definition mfaAssured (payload : claims) : bool :=
  let amr := match record_get payload "amr" with Some (JArr xs) => json_texts xs | _ => [] end in
  let acr := match claim_text payload "acr" with Some s => toLowerCase s | None => "" end in
  existsb (λ value, includes ["otp"; "mfa"; "2fa"] (toLowerCase value)) amr || existsb (js_includes acr) ["mfa"; "2fa"; "loa2"; "loa3"].

(** [PlatformIdentity]; its three times are one. *)
Record platform_identity : Type := mk_identity {
  pi_openId : string;
  pi_name : option string;
  pi_email : option string;
  pi_loginMethod : string;
  pi_role : selected_role;
  pi_at : Z
}.

(** The properties of a [URL] the code reads, and [toString()]. *)
Record issuer_url : Type := mk_issuer_url {
  iu_protocol : string;
  iu_hostname : string;
  iu_username : string;
  iu_password : string;
  iu_search : string;
  iu_hash : string;
  iu_text : string
}.
Definition bare (u : issuer_url) : bool :=
  negb (truthy (iu_username u) || truthy (iu_password u) || truthy (iu_search u) || truthy (iu_hash u)).
Definition issuer_text (u : issuer_url) : string := strip_slash (iu_text u).

Section identity.
Context (process_env : string → option string) (parse_url : string → option issuer_url).
(** [new URL(path, base).toString()], and with [searchParams.set] of each pair. *)
Context (resolve_url : string → string → string) (with_params : string → list (string * string) → string).
(** [jwtVerify(token, createRemoteJWKSet(certs), { issuer, audience })] at a time. *)
Context (jwks_verify : Z → string → string → string → string → option claims).

(** An environment variable that is there and not empty. *)
Definition env_text (k : string) : option string :=
  match process_env k with Some s => if truthy s then Some s else None | None => None end.

(** ** Bearer tokens *)

Record keycloak_configuration : Type := mk_keycloak_configuration {
  kc_issuer : issuer_url;
  kc_audience : string
}.
Definition loopbackHost (hostname : string) : bool := includes ["localhost"; "127.0.0.1"; "::1"] hostname.
Definition configuredKeycloak : option keycloak_configuration :=
  rawIssuer ← env_text "UMOJA_KEYCLOAK_ISSUER"; audience ← env_text "UMOJA_KEYCLOAK_AUDIENCE";
  issuer ← parse_url rawIssuer;
  if negb (bare issuer) then None else
  let allowInsecureLoopback := bool_decide (process_env "UMOJA_KEYCLOAK_ALLOW_INSECURE_LOOPBACK" = Some "true") in
  if bool_decide (iu_protocol issuer = "https:") ||
     bool_decide (iu_protocol issuer = "http:") && allowInsecureLoopback && loopbackHost (iu_hostname issuer)
  then Some (mk_keycloak_configuration issuer audience) else None.

Definition authorizationToken (header : string → option string) : option string :=
  if negb (bool_decide (header "x-umoja-identity-provider" = Some "keycloak")) then None else
  value ← header "authorization";
  if negb (startsWith value "Bearer ") then None else
  let token := trim (String.substring 7 (String.length value) value) in
  if truthy token then Some token else None.

Definition certs_url (issuer : issuer_url) : string := resolve_url "protocol/openid-connect/certs" (issuer_text issuer +:+ "/").
Definition short_name (payload : claims) : option string := slice 500 <$> claim_text payload "name".
Definition short_email (payload : claims) : option string :=
  e ← claim_text payload "email"; if js_length e <=? 320 then Some e else None.

Definition resolveKeycloakUser (now : Z) (header : string → option string) : option platform_identity :=
  token ← authorizationToken header;
  configuration ← configuredKeycloak;
  payload ← jwks_verify now (certs_url (kc_issuer configuration)) (issuer_text (kc_issuer configuration)) (kc_audience configuration) token;
  role ← selectedRole payload;
  subject ← (s ← claim_text payload "sub"; if truthy (trim s) then Some s else None);
  if negb (mfaAssured payload) then None
  else Some (mk_identity (deriveOpenId subject) (short_name payload) (short_email payload) "keycloak" role now).

(** ** Sessions *)

Context {token : Type} `{!SessionTokens token}.

Definition COOKIE_NAME : string := "app_session_id".
Definition OIDC_TRANSACTION_COOKIE : string := "__Host-umoja-oidc".
Definition SESSION_TTL_SECONDS : Z := 8 * 60 * 60.
Definition TRANSACTION_TTL_SECONDS : Z := 10 * 60.

(** [None] stands for the exception of a missing or short secret. *)
Definition secret : option string :=
  value ← env_text "UMOJA_SESSION_SECRET"; if js_length value <? 32 then None else Some value.
Definition sign (now : Z) (value : claims) (expiresIn : Z) : option token := (λ s, jwt_sign now s value expiresIn) <$> secret.
(** A bad token and a missing secret are both caught. *)
Definition verify (now : Z) (t : option token) : option claims := t ← t; s ← secret; jwt_verify now s t.

Record oidc_configuration : Type := mk_oidc_configuration {
  oc_issuer : issuer_url;
  oc_clientId : string;
  oc_clientSecret : option string;
  oc_audience : string;
  oc_publicBaseUrl : issuer_url
}.
Definition configuration : option oidc_configuration :=
  rawIssuer ← env_text "UMOJA_KEYCLOAK_ISSUER"; clientId ← env_text "UMOJA_KEYCLOAK_CLIENT_ID";
  audience ← (match process_env "UMOJA_KEYCLOAK_AUDIENCE" with Some a => if truthy a then Some a else None | None => Some clientId end);
  rawBaseUrl ← env_text "UMOJA_PUBLIC_BASE_URL";
  issuer ← parse_url rawIssuer; publicBaseUrl ← parse_url rawBaseUrl;
  let localDev := bool_decide (iu_protocol publicBaseUrl = "http:") && includes ["localhost"; "127.0.0.1"] (iu_hostname publicBaseUrl) in
  if negb (bool_decide (iu_protocol issuer = "https:")) && negb (localDev && bool_decide (iu_protocol issuer = "http:")) ||
     negb (bool_decide (iu_protocol publicBaseUrl = "https:")) && negb localDev then None
  else if negb (bare issuer) || negb (bare publicBaseUrl) then None
  else Some (mk_oidc_configuration issuer clientId (process_env "UMOJA_KEYCLOAK_CLIENT_SECRET") audience publicBaseUrl).

Definition safeReturnTo (value : option string) : string :=
  match value with Some s => if startsWith s "/" && negb (startsWith s "//") then s else "/console" | None => "/console" end.
Definition redirectUri (config : oidc_configuration) : string := resolve_url "/auth/callback" (iu_text (oc_publicBaseUrl config)).
Definition endpoint (name : string) (config : oidc_configuration) : string :=
  resolve_url ("protocol/openid-connect/" +:+ name) (issuer_text (oc_issuer config) +:+ "/").
Definition platformUser (now : Z) (subject : string) (payload : claims) : platform_identity :=
  mk_identity (deriveOpenId subject) (short_name payload) (short_email payload) "keycloak" (Platform RoleAuditor) now.

(** [cookies] is what the cookie library reads in the header. *)
Definition authenticateSession (now : Z) (cookies : string → option token) : option platform_identity :=
  c ← verify now (cookies COOKIE_NAME);
  openId ← claim_text c "openId";
  if truthy openId then
    Some (mk_identity openId (claim_text c "name") (claim_text c "email") (default "keycloak" (claim_text c "loginMethod")) (Platform RoleAuditor) now)
  else None.
Definition sessionIdToken (now : Z) (cookies : string → option token) : option string :=
  c ← verify now (cookies COOKIE_NAME); claim_text c "idToken".

(** ** Signing in and out *)

Inductive cookie_action : Type :=
  | SetCookie (name : string) (value : token) (secure : bool) (maxAge : Z)
  | ClearCookie (name : string) (secure : bool).
(** [Unhandled]: an exception outside any [try]. *)
Inductive oidc_reply : Type :=
  | Refuse (status : Z) (message : string)
  | Redirect (location : option string)
  | Unhandled.
Definition oidc_response : Type := list cookie_action * oidc_reply.
Definition secured (config : option oidc_configuration) : bool :=
  match config with Some config => bool_decide (iu_protocol (oc_publicBaseUrl config) = "https:") | None => false end.

(** [base64url]: the URL alphabet without padding. *)
Fixpoint url_alphabet (s : string) : string :=
  match s with
  | EmptyString => ""
  | String c r =>
      if bool_decide (c = "="%char) then url_alphabet r
      else String (if bool_decide (c = "+"%char) then "-"%char else if bool_decide (c = "/"%char) then "_"%char else c) (url_alphabet r)
  end.
Definition base64url (bs : bytes) : string := url_alphabet (base64 bs).

Definition transaction_claims (state nonce verifier returnTo : string) : claims :=
  [("state", JStr state); ("nonce", JStr nonce); ("verifier", JStr verifier); ("returnTo", JStr returnTo)].

(** [GET /auth/login], with the random bytes of the three values. *)
Definition login (now : Z) (state_bytes nonce_bytes verifier_bytes : bytes) (returnTo : option string) : oidc_response :=
  match configuration with
  | None => ([], Refuse 503 "identity provider is not configured")
  | Some config =>
      let state := base64url state_bytes in let nonce := base64url nonce_bytes in let verifier := base64url verifier_bytes in
      let challenge := base64url (sha256_bytes (utf8_bytes verifier)) in
      let auth := with_params (endpoint "auth" config)
        [("client_id", oc_clientId config); ("redirect_uri", redirectUri config); ("response_type", "code"); ("scope", "openid profile email");
         ("state", state); ("nonce", nonce); ("code_challenge", challenge); ("code_challenge_method", "S256")] in
      match sign now (transaction_claims state nonce verifier (safeReturnTo returnTo)) TRANSACTION_TTL_SECONDS with
      | None => ([], Unhandled)
      | Some t => ([SetCookie OIDC_TRANSACTION_COOKIE t (secured (Some config)) (TRANSACTION_TTL_SECONDS * 1000)], Redirect (Some auth))
      end
  end.

(** The token endpoint: the body of an accepted exchange. *)
Context (exchange : string → list (string * string) → option json).

(** [async] part of [GET /auth/callback] inside its [try]: the token the session
    is built from. *)
Definition verified_login (now : Z) (config : oidc_configuration) (code : string) (transaction : claims) : option (string * claims * string) :=
  body ← exchange (endpoint "token" config)
    ([("grant_type", "authorization_code"); ("client_id", oc_clientId config); ("code", code); ("redirect_uri", redirectUri config);
      ("code_verifier", default "undefined" (claim_text transaction "verifier"))] ++
     match oc_clientSecret config with Some s => if truthy s then [("client_secret", s)] else [] | None => [] end)%list;
  id_token ← (match body with JObj fields => s ← claim_text fields "id_token"; if truthy s then Some s else None | _ => None end);
  payload ← jwks_verify now (certs_url (oc_issuer config)) (issuer_text (oc_issuer config)) (oc_audience config) id_token;
  if negb (strictly_equal (record_get payload "nonce") (record_get transaction "nonce")) then None else
  subject ← (s ← claim_text payload "sub"; if truthy s then Some s else None);
  Some (id_token, payload, subject).

Definition session_claims (user : platform_identity) (idToken : string) : claims :=
  [("openId", JStr (pi_openId user)); ("name", JStr (default "" (pi_name user))); ("email", JStr (default "" (pi_email user)));
   ("loginMethod", JStr "keycloak"); ("idToken", JStr idToken)].

Definition callback (now : Z) (code state : option string) (cookies : string → option token) : oidc_response :=
  let config := configuration in
  let transaction := verify now (cookies OIDC_TRANSACTION_COOKIE) in
  let cleared := ClearCookie OIDC_TRANSACTION_COOKIE (secured config) in
  let refused := ([cleared], Refuse 403 "invalid OIDC login transaction") in
  match config, (c ← code; if truthy c then Some c else None), (s ← state; if truthy s then Some s else None), transaction with
  | Some config, Some code, Some state, Some transaction =>
      if negb (strictly_equal (Some (JStr state)) (record_get transaction "state")) then refused else
      match (found ← verified_login now config code transaction;
             let user := platformUser now found.2 found.1.2 in
             sign now (session_claims user found.1.1) SESSION_TTL_SECONDS) with
      | None => ([cleared], Refuse 401 "identity verification failed")
      | Some t => ([cleared; SetCookie COOKIE_NAME t (secured (Some config)) (SESSION_TTL_SECONDS * 1000)],
                   Redirect (claim_text transaction "returnTo"))
      end
  | _, _, _, _ => refused
  end.

Definition logout (now : Z) (cookies : string → option token) : oidc_response :=
  let config := configuration in
  let cleared := ClearCookie COOKIE_NAME (secured config) in
  match config with
  | None => ([cleared], Redirect (Some "/"))
  | Some config =>
      ([cleared], Redirect (Some (with_params (endpoint "logout" config)
        [match sessionIdToken now cookies with
         | Some t => if truthy t then ("id_token_hint", t) else ("client_id", oc_clientId config)
         | None => ("client_id", oc_clientId config)
         end; ("post_logout_redirect_uri", iu_text (oc_publicBaseUrl config))])))
  end.

(** ** The context of a request *)

Record platform_user : Type := mk_platform_user {
  pu_identity : platform_identity;
  pu_role : operating_role
}.
Record trpc_context : Type := mk_trpc_context {
  cx_user : option platform_user;
  cx_pendingIdentity : option (string * option string * option string)
}.
(** With the call it leaves running, whose failure is ignored. *)
Definition createContext (E : env) (now : Z) (header : string → option string) (cookies : string → option token) (d : db) :
    trpc_context * option (Act db unit) :=
  let user := match authenticateSession now cookies with Some u => Some u | None => resolveKeycloakUser now header end in
  match user with
  | None => (mk_trpc_context None None, None)
  | Some u =>
      match resolvePostgresOperatingRole (pi_openId u) d with
      | Some role => (mk_trpc_context (Some (mk_platform_user u role)) None, None)
      | None => (mk_trpc_context None (Some (pi_openId u, pi_name u, pi_email u)),
                 Some (recordOperatorAccessAttempt E (pi_openId u) (pi_name u) (pi_email u)))
      end
  end.
End identity.
