(* ===== verification/IdentityProps.v ===== *)
(** * Identities are verified and authority is recorded *)

From S2P Require Import Prelude Js Numeric Sha256 Hmac Rows Schema Parties Access Identity.

Local Open Scope string_scope.
Local Open Scope Z_scope.

(** ** Texts *)

Lemma substring_length n s : (n <= String.length s)%nat → String.length (String.substring 0 n s) = n.
Proof. revert n. induction s as [|c s IH]; intros [|n] H; cbn in *; try lia. f_equal. apply IH. lia. Qed.
Lemma substring_all (p : ascii → bool) n s : all_chars p s = true → all_chars p (String.substring 0 n s) = true.
Proof. revert n. induction s as [|c s IH]; intros [|n] H; cbn in *; try done. apply andb_true_iff in H as [-> H]. by apply IH. Qed.

(** An identity is 64 characters whatever the subject. *)
Lemma deriveOpenId_shape subject : ∃ h, deriveOpenId subject = "kc_" +:+ h ∧ String.length h = 61%nat ∧ all_chars is_hex_char h = true.
Proof.
  pose proof (sha256_is_hex subject) as [Hl Ha]%andb_true_iff. exists (slice 61 (sha256 subject)). split; [done|].
  apply Nat.eqb_eq in Hl. unfold slice. split; [apply substring_length; rewrite Hl; lia|by apply substring_all].
Qed.

Lemma safeReturnTo_local v : startsWith (safeReturnTo v) "/" = true ∧ startsWith (safeReturnTo v) "//" = false.
Proof. unfold safeReturnTo. destruct v as [s|]; [|done]. destruct (startsWith s "/") eqn:H1; [|done]. by destruct (startsWith s "//") eqn:H2. Qed.

Lemma strictly_equal_text s b : strictly_equal (Some (JStr s)) b = true ↔ b = Some (JStr s).
Proof.
  unfold strictly_equal. split; [|intros ->; by rewrite bool_decide_eq_true_2].
  destruct b as [[]|]; try done. intros ->%bool_decide_eq_true. done.
Qed.
Lemma claim_text_iff c k s : claim_text c k = Some s ↔ record_get c k = Some (JStr s).
Proof. unfold claim_text. destruct (record_get c k) as [[]|]; split; try done; by intros [= ->]. Qed.

Lemma truthy_iff s : truthy s = true ↔ s ≠ "".
Proof. unfold truthy. by rewrite negb_true_iff, bool_decide_eq_false. Qed.

(** ** What a provider's token says *)

Lemma startsWith_iff s p : startsWith s p = true ↔ ∃ rest, s = p +:+ rest.
Proof.
  revert s. induction p as [|a p IH]; intros s; [split; [intros _; by exists s|intros _; by destruct s]|].
  destruct s as [|b s]; cbn [startsWith]; [split; [done|by intros [? ?]]|].
  rewrite andb_true_iff, bool_decide_eq_true, IH. split.
  - intros [-> [rest ->]]. by exists rest.
  - intros [rest [= -> ->]]. eauto.
Qed.
Lemma js_includes_iff s w : js_includes s w = true ↔ ∃ before after, s = before +:+ w +:+ after.
Proof.
  induction s as [|c s IH]; cbn [js_includes]; rewrite orb_true_iff, startsWith_iff.
  - split; [intros [[r ->]|H]; [by exists "", r|done]|]. intros (a & b & H). left. exists b. by destruct a.
  - rewrite IH. split.
    + intros [[r ->]|(a & b & ->)]; [by exists "", r|by exists (String c a), b].
    + intros ([|c' a] & b & H); [left; by exists b|right]. injection H as -> ->. by exists a, b.
Qed.
Lemma omap_nil {A B} (f : A → option B) l : omap f l = [] ↔ ∀ x, x ∈ l → f x = None.
Proof.
  induction l as [|x l IH]; [split; [intros _ x H; by apply not_elem_of_nil in H|done]|].
  cbn. destruct (f x) eqn:Hx; [split; [done|]|rewrite IH]; [intros H; specialize (H x (list_elem_of_here _ _)); congruence|].
  split; [intros H y [->|Hy]%elem_of_cons; eauto|intros H y Hy; apply H; by constructor].
Qed.
(** A partial map keeps one element: one place of the list gives it, no other gives any. *)
Lemma omap_singleton {A B} (f : A → option B) l y : omap f l = [y] ↔
  ∃ before x after, l = (before ++ x :: after)%list ∧ f x = Some y ∧ ∀ z, z ∈ (before ++ after)%list → f z = None.
Proof.
  split.
  - induction l as [|x l IH]; [done|]. cbn. destruct (f x) eqn:Hx.
    + intros [= -> H]. exists [], x, l. split_and!; [done|done|]. by apply omap_nil.
    + intros (b & x' & a & -> & Hf & Hn)%IH. exists (x :: b), x', a. split_and!; [done|done|].
      intros z [->|Hz]%elem_of_cons; [done|by apply Hn].
  - intros (b & x & a & -> & Hf & Hn). rewrite omap_app. cbn. rewrite Hf.
    rewrite (proj2 (omap_nil f b)), (proj2 (omap_nil f a)); [done| |]; [intros z Hz; apply Hn, elem_of_app; by right|intros z Hz; apply Hn, elem_of_app; by left].
Qed.

(** What the name of a realm role stands for: one of the platform's four, or, as
    every object has these properties, the property of that name. *)
Inductive denotes : string → selected_role → Prop :=
  | denotes_admin : denotes "umojaflowos_admin" (Platform RoleAdmin)
  | denotes_compliance : denotes "umojaflowos_compliance_officer" (Platform RoleComplianceOfficer)
  | denotes_treasury : denotes "umojaflowos_treasury_operator" (Platform RoleTreasuryOperator)
  | denotes_auditor : denotes "umojaflowos_auditor" (Platform RoleAuditor)
  | denotes_property name : name ∈ object_prototype → denotes name (Inherited name).
Lemma realm_role_iff name role : realm_role name = Some role ↔ denotes name role.
Proof.
  split.
  - unfold realm_role. destruct (record_get ROLE_BY_REALM_ROLE name) as [r|] eqn:Hr.
    + intros [= <-]. cbn in Hr. repeat (case_bool_decide; [subst name; injection Hr as <-; constructor|]). done.
    + destruct (includes _ _) eqn:Hi; [|done]. intros [= <-]. constructor. by apply includes_true.
  - intros []; try reflexivity. assert (Forall (λ n, realm_role n = Some (Inherited n)) object_prototype) as Ha by (repeat constructor).
    by apply (proj1 (Forall_forall _ _) Ha).
Qed.
(** Among the realm roles of a token one entry stands for something, and no other entry does. *)
Definition names_one_role (payload : claims) (role : selected_role) : Prop :=
  ∃ access roles before name after, record_get payload "realm_access" = Some (JObj access) ∧ record_get access "roles" = Some (JArr roles) ∧
    roles = (before ++ JStr name :: after)%list ∧ denotes name role ∧
    ∀ other r, JStr other ∈ (before ++ after)%list → ¬ denotes other r.
Lemma selectedRole_iff payload role : selectedRole payload = Some role ↔ names_one_role payload role.
Proof.
  assert (∀ xs, omap realm_role (json_texts xs) = omap (λ x, match x with JStr s => realm_role s | _ => None end) xs) as Hfuse.
  { unfold json_texts. induction xs as [|[] xs IH]; cbn; try exact IH; try done. by destruct (realm_role s); rewrite IH. }
  unfold selectedRole, names_one_role. split.
  - destruct (record_get payload "realm_access") as [[| | | | | |l]|]; try done. destruct (record_get l "roles") as [[]|] eqn:Hroles; try done.
    rewrite Hfuse. destruct (omap _ _) as [|r [|]] eqn:Ho; try done. intros [= <-]. apply omap_singleton in Ho as (b & x & a & -> & Hx & Hn).
    destruct x as [| | | |name| |]; try done. exists l, (b ++ JStr name :: a)%list, b, name, a. split_and!; try done; [by apply realm_role_iff|].
    intros other r' Ho Hd%realm_role_iff. specialize (Hn _ Ho). cbn in Hn. congruence.
  - intros (access & roles & b & name & a & -> & -> & -> & Hd & Hn). rewrite Hfuse.
    rewrite (proj2 (omap_singleton _ _ role)); [done|]. exists b, (JStr name), a. split_and!; [done|by apply realm_role_iff|].
    intros [] Hz; try done. destruct (realm_role s) eqn:Hr; [|done]. apply realm_role_iff in Hr. by apply Hn in Hr.
Qed.

(** A method among the token's is one of three, or its context class has one of
    four words somewhere in it, whatever stands around the word; letters of either case. *)
Definition factor_claimed (payload : claims) : Prop :=
  (∃ methods v, record_get payload "amr" = Some (JArr methods) ∧ JStr v ∈ methods ∧ toLowerCase v ∈ ["otp"; "mfa"; "2fa"]) ∨
  (∃ class before w after, record_get payload "acr" = Some (JStr class) ∧ w ∈ ["mfa"; "2fa"; "loa2"; "loa3"] ∧ toLowerCase class = before +:+ w +:+ after).
Lemma mfaAssured_iff payload : mfaAssured payload = true ↔ factor_claimed payload.
Proof.
  unfold mfaAssured, factor_claimed. cbv zeta. rewrite orb_true_iff, !existsb_exists. apply Morphisms_Prop.or_iff_morphism; split.
  - intros (v & Hv & Hi%includes_true). destruct (record_get payload "amr") as [[]|]; try done.
    apply list_elem_of_In in Hv. unfold json_texts in Hv. apply list_elem_of_omap in Hv as (x & Hx & Hs). destruct x; try done. injection Hs as ->. eauto.
  - intros (ms & v & -> & Hv & Hi). exists v. split; [|by apply includes_true]. apply list_elem_of_In. unfold json_texts.
    apply list_elem_of_omap. by exists (JStr v).
  - intros (w & Hw & (b & a & He)%js_includes_iff). unfold claim_text in He. destruct (record_get payload "acr") as [[| | | |s| |]|]; 
      try (by destruct b; [cbn in Hw; destruct Hw as [<-|[<-|[<-|[<-|[]]]]]|]).
    exists s, b, w, a. split_and!; try done. by apply list_elem_of_In.
  - intros (class & b & w & a & Hc & Hw & He). exists w. split; [by apply list_elem_of_In|]. unfold claim_text. rewrite Hc. apply js_includes_iff. eauto.
Qed.

Section identity.
Context (process_env : string → option string) (parse_url : string → option issuer_url).
Context (resolve_url : string → string → string) (with_params : string → list (string * string) → string).
Context (jwks_verify : Z → string → string → string → string → option claims).
Context {token : Type} `{!SessionTokens token}.
Context (exchange : string → list (string * string) → option json).

Local Abbreviation configuredKeycloak0 := (Identity.configuredKeycloak process_env parse_url).
Local Abbreviation resolveKeycloakUser0 := (Identity.resolveKeycloakUser process_env parse_url resolve_url jwks_verify).
Local Abbreviation configuration0 := (Identity.configuration process_env parse_url).
Local Abbreviation verify0 := (Identity.verify process_env (token := token)).
Local Abbreviation authenticateSession0 := (Identity.authenticateSession process_env (token := token)).
Local Abbreviation createContext0 := (Identity.createContext process_env parse_url resolve_url jwks_verify (token := token)).
Local Abbreviation callback0 := (Identity.callback process_env parse_url resolve_url jwks_verify exchange (token := token)).
Local Abbreviation login0 := (Identity.login process_env parse_url resolve_url with_params (token := token)).
Local Abbreviation verified_login0 := (Identity.verified_login resolve_url jwks_verify exchange).

(** ** Bearer tokens *)

(** An issuer the server will talk to. *)
Definition issuer_accepted (u : issuer_url) : Prop := bare u = true ∧
  (iu_protocol u = "https:" ∨
   iu_protocol u = "http:" ∧ process_env "UMOJA_KEYCLOAK_ALLOW_INSECURE_LOOPBACK" = Some "true" ∧ iu_hostname u ∈ ["localhost"; "127.0.0.1"; "::1"]).

Lemma configuredKeycloak_ok c : configuredKeycloak0 = Some c → issuer_accepted (kc_issuer c) ∧ kc_audience c ≠ "".
Proof.
  unfold Identity.configuredKeycloak. intros H. apply bind_Some in H as (raw & _ & H). apply bind_Some in H as (aud & Ha & H).
  apply bind_Some in H as (u & _ & H). destruct (bare u) eqn:Hb; [|done]. cbn [negb] in H. cbv zeta in H. destruct (_ || _) eqn:Hp; [|done].
  injection H as <-. cbn. split.
  - split; [done|]. apply orb_true_iff in Hp as [Hp%bool_decide_eq_true|Hp]; [by left|right].
    apply andb_true_iff in Hp as [[H1%bool_decide_eq_true H2%bool_decide_eq_true]%andb_true_iff H3%includes_true]. done.
  - unfold env_text in Ha. destruct (process_env "UMOJA_KEYCLOAK_AUDIENCE") as [a|]; [|done]. destruct (truthy a) eqn:Ht; [|done].
    injection Ha as ->. by apply truthy_iff.
Qed.

(** What a bearer token must show. *)
Definition bearer_shows (now : Z) (header : string → option string) (payload : claims) (role : selected_role) (subject : string) : Prop :=
  header "x-umoja-identity-provider" = Some "keycloak" ∧
  ∃ t c, authorizationToken header = Some t ∧ t ≠ "" ∧ configuredKeycloak0 = Some c ∧ issuer_accepted (kc_issuer c) ∧
    jwks_verify now (certs_url resolve_url (kc_issuer c)) (issuer_text (kc_issuer c)) (kc_audience c) t = Some payload ∧
    names_one_role payload role ∧ record_get payload "sub" = Some (JStr subject) ∧ trim subject ≠ "" ∧ factor_claimed payload.

Lemma bearer_exact now header u : resolveKeycloakUser0 now header = Some u ↔
  ∃ payload role subject, bearer_shows now header payload role subject ∧
    u = mk_identity (deriveOpenId subject) (short_name payload) (short_email payload) "keycloak" role now.
Proof.
  unfold Identity.resolveKeycloakUser. split.
  - intros H. apply bind_Some in H as (t & Ht & H). apply bind_Some in H as (c & Hc & H). apply bind_Some in H as (payload & Hv & H).
    apply bind_Some in H as (role & Hr & H). apply bind_Some in H as (subject & Hs & H). apply bind_Some in Hs as (s & Hs & Hn).
    destruct (truthy (trim s)) eqn:Htr; [|done]. injection Hn as <-. destruct (mfaAssured payload) eqn:Hm; [|done]. injection H as <-.
    exists payload, role, s. split; [|done]. pose proof Ht as Ht'. unfold authorizationToken in Ht'.
    destruct (bool_decide _) eqn:Hh; [|done]. apply bool_decide_eq_true in Hh. split; [done|].
    exists t, c. split; [done|]. split.
    { cbn [negb] in Ht'. apply bind_Some in Ht' as (v & _ & Ht'). destruct (startsWith v _); [|done]. cbn [negb] in Ht'. cbv zeta in Ht'.
      match type of Ht' with (if truthy ?x then _ else _) = _ => destruct (truthy x) eqn:E; [|done] end. injection Ht' as <-. by apply truthy_iff. }
    split; [done|]. split; [by apply configuredKeycloak_ok|].
    split_and!; [done|by apply selectedRole_iff|by apply claim_text_iff|by apply truthy_iff|by apply mfaAssured_iff].
  - intros (payload & role & subject & (_ & t & c & Ht & _ & Hc & _ & Hv & Hr%selectedRole_iff & Hs%claim_text_iff & Hn & Hm%mfaAssured_iff) & ->).
    rewrite Ht. cbn [mbind option_bind].  rewrite Hc. cbn [mbind option_bind]. rewrite Hv. cbn [mbind option_bind].
    rewrite Hr. cbn [mbind option_bind]. rewrite Hs. cbn [mbind option_bind]. apply truthy_iff in Hn. rewrite Hn. cbn [mbind option_bind]. by rewrite Hm.
Qed.

(** ** Sessions *)

Lemma secret_long s : secret process_env = Some s → 32 <= js_length s.
Proof.
  unfold secret. intros H. apply bind_Some in H as (v & _ & H). destruct (js_length v <? 32) eqn:Hl; [done|]. injection H as <-. by apply Z.ltb_ge.
Qed.
Lemma verify_iff now t c : verify0 now t = Some c ↔ ∃ t0 s, t = Some t0 ∧ secret process_env = Some s ∧ jwt_verify now s t0 = Some c.
Proof.
  unfold Identity.verify. split.
  - intros H. apply bind_Some in H as (t0 & -> & H). apply bind_Some in H as (s & Hs & H). by exists t0, s.
  - intros (t0 & s & -> & Hs & H). cbn [mbind option_bind]. rewrite Hs. exact H.
Qed.

(** The claims a session was established from. *)
Definition session_shows (now : Z) (cookies : string → option token) (c : claims) : Prop :=
  ∃ t s, cookies COOKIE_NAME = Some t ∧ secret process_env = Some s ∧ 32 <= js_length s ∧ jwt_verify now s t = Some c.
Lemma session_exact now cookies u : authenticateSession0 now cookies = Some u ↔
  ∃ c openId, session_shows now cookies c ∧ claim_text c "openId" = Some openId ∧ openId ≠ "" ∧
    u = mk_identity openId (claim_text c "name") (claim_text c "email") (default "keycloak" (claim_text c "loginMethod")) (Platform RoleAuditor) now.
Proof.
  unfold Identity.authenticateSession. split.
  - intros H. apply bind_Some in H as (c & Hv & H). apply bind_Some in H as (o & Ho & H). destruct (truthy o) eqn:Ht; [|done]. injection H as <-.
    apply verify_iff in Hv as (t & s & Hc & Hs & Hv). exists c, o. split; [exists t, s; split_and!; try done; by apply secret_long|].
    split_and!; try done. by apply truthy_iff.
  - intros (c & o & (t & s & Hc & Hs & _ & Hv) & Ho & Hn & ->).
    assert (verify0 now (cookies COOKIE_NAME) = Some c) as Hvc by (apply verify_iff; by exists t, s).  rewrite Hvc.
    cbn [mbind option_bind]. rewrite Ho. cbn [mbind option_bind]. apply truthy_iff in Hn. by rewrite Hn.
Qed.

(** ** Contexts *)

Lemma context_cases E now header cookies d :
  (authenticateSession0 now cookies = None ∧ resolveKeycloakUser0 now header = None ∧
    createContext0 E now header cookies d = (mk_trpc_context None None, None)) ∨
  ∃ u, (authenticateSession0 now cookies = Some u ∨ authenticateSession0 now cookies = None ∧ resolveKeycloakUser0 now header = Some u) ∧
    createContext0 E now header cookies d =
      match resolvePostgresOperatingRole (pi_openId u) d with
      | Some role => (mk_trpc_context (Some (mk_platform_user u role)) None, None)
      | None => (mk_trpc_context None (Some (pi_openId u, pi_name u, pi_email u)),
                 Some (recordOperatorAccessAttempt E (pi_openId u) (pi_name u) (pi_email u)))
      end.
Proof.
  unfold Identity.createContext.  cbv zeta.
  destruct (authenticateSession0 now cookies) as [u|]; [right; exists u; by split; [left|]|].
  destruct (resolveKeycloakUser0 now header) as [u|]; [right; exists u; by split; [right|]|by left].
Qed.

(** The identity a context speaks of was verified. *)
Definition verified_identity (now : Z) (header : string → option string) (cookies : string → option token) (u : platform_identity) : Prop :=
  (∃ c, session_shows now cookies c ∧ claim_text c "openId" = Some (pi_openId u) ∧ pi_openId u ≠ "") ∨
  (∃ payload role subject, bearer_shows now header payload role subject ∧ pi_openId u = deriveOpenId subject).
Lemma established_verified now header cookies u :
  authenticateSession0 now cookies = Some u ∨ authenticateSession0 now cookies = None ∧ resolveKeycloakUser0 now header = Some u →
  verified_identity now header cookies u.
Proof.
  intros [(c & o & Hs & Ho & Hn & ->)%session_exact|[_ (payload & role & subject & Hb & ->)%bearer_exact]].
  - left. by exists c.
  - right. by exists payload, role, subject.
Qed.

Lemma attempt_grants_nothing E s n e d subject :
  resolvePostgresOperatingRole subject (recordOperatorAccessAttempt E s n e d).2 = resolvePostgresOperatingRole subject d.
Proof. reflexivity. Qed.

(** C8. Authority is recorded, never claimed. Whatever headers and cookies a
    request carries, the user its context has was verified, by a session signed
    with a secret of at least 32 characters or by a bearer token that names the
    provider, verifies against the keys of the configured issuer and, among its
    realm roles, has exactly one that is found in the platform's table (one of
    the four platform roles or a name every object has,
    [prototype_key_counts_as_a_role]), a subject, and a method or a context class
    the server takes for a second factor (any class with one of four words in
    it, [denied_factor_counts_as_assurance]). Its role is the one the database
    gives that identity now, whatever the token says. Where nothing verifies
    there is neither a user nor a pending identity and nothing is written; a
    verified identity without a role is pending, and recording the attempt
    changes no role. *)
Theorem authority_is_recorded E now header cookies d :
  let '(ctx, attempt) := createContext0 E now header cookies d in
  (∀ u, cx_user ctx = Some u → verified_identity now header cookies (pu_identity u) ∧
    resolvePostgresOperatingRole (pi_openId (pu_identity u)) d = Some (pu_role u) ∧ cx_pendingIdentity ctx = None ∧ attempt = None) ∧
  ((∀ u, ¬ verified_identity now header cookies u) → ctx = mk_trpc_context None None ∧ attempt = None) ∧
  (∀ openId name email, cx_pendingIdentity ctx = Some (openId, name, email) → cx_user ctx = None ∧ resolvePostgresOperatingRole openId d = None ∧
    ∃ u, verified_identity now header cookies u ∧ pi_openId u = openId) ∧
  (∀ act, attempt = Some act → ∀ d' subject, resolvePostgresOperatingRole subject (act d').2 = resolvePostgresOperatingRole subject d').
Proof.
  destruct (context_cases E now header cookies d) as [(Hs & Hb & ->)|(u & Hu & ->)]; [split_and!; done|].
  destruct (resolvePostgresOperatingRole (pi_openId u) d) as [role|] eqn:Hr; split_and!; try done.
  - intros x [= <-]. split_and!; try done. by apply established_verified.
  - intros Hn. destruct (Hn u). by apply established_verified.
  - intros Hn. destruct (Hn u). by apply established_verified.
  - intros o n e [= <- <- <-]. split_and!; try done. exists u. split; [by apply established_verified|done].
  - intros act [= <-] d' subject. apply attempt_grants_nothing.
Qed.

(** ** Signing in *)

Lemma verified_login_ok now config code transaction id_token payload subject :
  verified_login0 now config code transaction = Some (id_token, payload, subject) →
  jwks_verify now (certs_url resolve_url (oc_issuer config)) (issuer_text (oc_issuer config)) (oc_audience config) id_token = Some payload ∧
  strictly_equal (record_get payload "nonce") (record_get transaction "nonce") = true ∧
  claim_text payload "sub" = Some subject ∧ subject ≠ "".
Proof.
  unfold Identity.verified_login. intros H. apply bind_Some in H as (body & _ & H). apply bind_Some in H as (t & _ & H).
  apply bind_Some in H as (p & Hp & H). destruct (strictly_equal _ _) eqn:Hn; [|done]. cbn [negb] in H.
  apply bind_Some in H as (sub & Hs & H). apply bind_Some in Hs as (sub' & Hs & Ht). destruct (truthy sub') eqn:Htr; [|done].
  injection Ht as <-. injection H as <- <- <-. split_and!; try done. by apply truthy_iff.
Qed.

(** Whatever sets a session cookie was a completed login of this browser. *)
Definition login_completed (now : Z) (code state : option string) (cookies : string → option token) (t : token) : Prop :=
  ∃ config tr st secret_text id_token payload subject,
    configuration0 = Some config ∧ state = Some st ∧ st ≠ "" ∧ is_Some code ∧
    verify0 now (cookies OIDC_TRANSACTION_COOKIE) = Some tr ∧ claim_text tr "state" = Some st ∧
    strictly_equal (record_get payload "nonce") (record_get tr "nonce") = true ∧
    jwks_verify now (certs_url resolve_url (oc_issuer config)) (issuer_text (oc_issuer config)) (oc_audience config) id_token = Some payload ∧
    claim_text payload "sub" = Some subject ∧ subject ≠ "" ∧ secret process_env = Some secret_text ∧
    t = jwt_sign now secret_text (session_claims (platformUser now subject payload) id_token) SESSION_TTL_SECONDS.
Lemma callback_sound now code state cookies t secure maxAge :
  SetCookie COOKIE_NAME t secure maxAge ∈ (callback0 now code state cookies).1 → login_completed now code state cookies t.
Proof.
  unfold Identity.callback. cbv zeta. destruct configuration0 as [config|] eqn:Hc; [|by intros ?%list_elem_of_singleton].
  destruct code as [c|]; cbn [mbind option_bind]; [|by intros ?%list_elem_of_singleton].
  destruct (truthy c); [|by intros ?%list_elem_of_singleton].
  destruct state as [st|]; cbn [mbind option_bind]; [|by intros ?%list_elem_of_singleton].
  destruct (truthy st) eqn:Hst; [|by intros ?%list_elem_of_singleton].
  destruct (verify0 now _) as [tr|] eqn:Htr; [|by intros ?%list_elem_of_singleton].
  destruct (strictly_equal _ _) eqn:He; [|by intros ?%list_elem_of_singleton]. cbn [negb].
  destruct (verified_login0 now config c tr) as [[[it payload] subject]|] eqn:Hl; [|by intros ?%list_elem_of_singleton].
  cbn [mbind option_bind fst snd]. unfold sign. destruct (secret process_env) as [sec|] eqn:Hsec; [|by intros ?%list_elem_of_singleton].
  cbn [fmap option_fmap option_map fst]. intros [H|H%list_elem_of_singleton]%elem_of_cons; [done|]. injection H as -> _ _.
  apply verified_login_ok in Hl as (H1 & H2 & H3 & H4). apply strictly_equal_text in He.
  exists config, tr, st, sec, it, payload, subject. split_and!; try done; [by apply truthy_iff|by apply claim_text_iff].
Qed.

(** The two kinds of token do not pass for each other. *)
Lemma session_claims_openId u it rest : claim_text (session_claims u it ++ rest)%list "openId" = Some (pi_openId u).
Proof. reflexivity. Qed.

Section sign_in.
Context (config : oidc_configuration) (sec : string) (Hconfig : configuration0 = Some config) (Hsecret : secret process_env = Some sec).

Lemma login_run now st nn vf returnTo : login0 now st nn vf returnTo =
  ([SetCookie OIDC_TRANSACTION_COOKIE
     (jwt_sign now sec (transaction_claims (base64url st) (base64url nn) (base64url vf) (safeReturnTo returnTo)) TRANSACTION_TTL_SECONDS)
     (secured (Some config)) (TRANSACTION_TTL_SECONDS * 1000)],
   Redirect (Some (with_params (endpoint resolve_url "auth" config)
     [("client_id", oc_clientId config); ("redirect_uri", redirectUri resolve_url config); ("response_type", "code"); ("scope", "openid profile email");
      ("state", base64url st); ("nonce", base64url nn); ("code_challenge", base64url (sha256_bytes (utf8_bytes (base64url vf))));
      ("code_challenge_method", "S256")]))).
Proof. unfold Identity.login, sign. rewrite Hconfig, Hsecret. reflexivity. Qed.

Lemma signed_verifies now now' c ttl : now / 1000 <= now' / 1000 < now / 1000 + ttl →
  verify0 now' (Some (jwt_sign now sec c ttl)) = Some (c ++ [("iat", JNum (now / 1000)); ("exp", JNum (now / 1000 + ttl))])%list.
Proof. intros H. apply verify_iff. exists (jwt_sign now sec c ttl), sec. split_and!; try done. by apply jwt_signed. Qed.

(** A session opened at [now] is its owner's until it expires. *)
Lemma session_run now now' subject payload it cookies : now / 1000 <= now' / 1000 < now / 1000 + SESSION_TTL_SECONDS →
  cookies COOKIE_NAME = Some (jwt_sign now sec (session_claims (platformUser now subject payload) it) SESSION_TTL_SECONDS) →
  ∃ u, authenticateSession0 now' cookies = Some u ∧ pi_openId u = deriveOpenId subject.
Proof.
  intros Ht Hc. eexists. split; [apply session_exact|].
  - eexists _, (deriveOpenId subject). split.
    + eexists _, sec. split; [exact Hc|]. split; [done|]. split; [by apply secret_long|]. by apply jwt_signed.
    + split; [reflexivity|]. split; [|reflexivity]. destruct (deriveOpenId_shape subject) as (h & -> & _). done.
  - reflexivity.
Qed.
End sign_in.

Lemma other_state_refused now code st cookies tr : configuration0 ≠ None → verify0 now (cookies OIDC_TRANSACTION_COOKIE) = Some tr →
  record_get tr "state" ≠ Some (JStr st) →
  callback0 now code (Some st) cookies = ([ClearCookie OIDC_TRANSACTION_COOKIE (secured configuration0)], Refuse 403 "invalid OIDC login transaction").
Proof.
  intros Hc Htr Hst. unfold Identity.callback. cbv zeta. rewrite Htr. destruct configuration0 as [config|]; [|done].
  destruct code as [c|]; cbn [mbind option_bind]; [|done]. destruct (truthy c); [|done]. destruct (truthy st); [|done].
  destruct (strictly_equal _ _) eqn:He; [|done]. by apply strictly_equal_text in He.
Qed.

Definition only (name : string) (t : token) (k : string) : option token := if bool_decide (k = name) then Some t else None.
Lemma only_same name t : only name t name = Some t.
Proof. unfold only. by rewrite bool_decide_eq_true_2. Qed.

Section round_trip.
Context (config : oidc_configuration) (sec : string) (now now1 : Z) (st nn vf : bytes) (returnTo : option string).
Context (Hconfig : configuration0 = Some config) (Hsecret : secret process_env = Some sec).
Let c0 : claims := transaction_claims (base64url st) (base64url nn) (base64url vf) (safeReturnTo returnTo).
Let t0 : token := jwt_sign now sec c0 TRANSACTION_TTL_SECONDS.
Let c1 : claims := (c0 ++ [("iat", JNum (now / 1000)); ("exp", JNum (now / 1000 + TRANSACTION_TTL_SECONDS))])%list.
Context (Htime : now / 1000 <= now1 / 1000 < now / 1000 + TRANSACTION_TTL_SECONDS).

Lemma transaction_verifies : verify0 now1 (only OIDC_TRANSACTION_COOKIE t0 OIDC_TRANSACTION_COOKIE) = Some c1.
Proof. rewrite only_same. unfold t0, c1. by apply signed_verifies. Qed.

Lemma callback_run code id_token payload subject : base64url st ≠ "" → code ≠ "" → verified_login0 now1 config code c1 = Some (id_token, payload, subject) →
  callback0 now1 (Some code) (Some (base64url st)) (only OIDC_TRANSACTION_COOKIE t0) =
    ([ClearCookie OIDC_TRANSACTION_COOKIE (secured (Some config));
      SetCookie COOKIE_NAME (jwt_sign now1 sec (session_claims (platformUser now1 subject payload) id_token) SESSION_TTL_SECONDS)
        (secured (Some config)) (SESSION_TTL_SECONDS * 1000)], Redirect (Some (safeReturnTo returnTo))).
Proof.
  intros Hst%truthy_iff Hc%truthy_iff Hl. unfold Identity.callback. cbv zeta. rewrite transaction_verifies, Hconfig. cbn [mbind option_bind].
  rewrite Hc, Hst. assert (strictly_equal (Some (JStr (base64url st))) (record_get c1 "state") = true) as ->
    by (apply strictly_equal_text; reflexivity). cbn [negb]. rewrite Hl. cbn [mbind option_bind fst snd]. unfold sign. rewrite Hsecret. reflexivity.
Qed.
Lemma transaction_is_no_session : authenticateSession0 now1 (only COOKIE_NAME t0) = None.
Proof.
  destruct (authenticateSession0 _ _) as [u|] eqn:Hu; [|done]. exfalso.
  apply session_exact in Hu as (c & o & (t & s & Hc & Hs & _ & Hv) & Ho & _). rewrite only_same in Hc. injection Hc as <-.
  rewrite Hsecret in Hs. injection Hs as <-. unfold t0 in Hv. rewrite jwt_signed in Hv by done. injection Hv as <-. done.
Qed.
End round_trip.

(** C9. Signing in round-trips and cannot be spliced. A login's cookie, brought
    back within ten minutes with the state of that login and a code whose
    identity token verifies with its nonce, opens a session and returns to a
    path of this site; for eight hours that session authenticates the identity
    derived from the token's subject, the one a bearer token of the same subject
    gives. With any other state the callback answers 403 and sets no session;
    a login's cookie is no session and a session's cookie is no login; and
    whatever sets a session cookie was such a completed login. *)
Theorem sign_in_round_trip config sec now now1 st nn vf returnTo code id_token payload subject :
  configuration0 = Some config → secret process_env = Some sec →
  now / 1000 <= now1 / 1000 < now / 1000 + TRANSACTION_TTL_SECONDS → base64url st ≠ "" → code ≠ "" →
  verified_login0 now1 config code (transaction_claims (base64url st) (base64url nn) (base64url vf) (safeReturnTo returnTo) ++
    [("iat", JNum (now / 1000)); ("exp", JNum (now / 1000 + TRANSACTION_TTL_SECONDS))])%list = Some (id_token, payload, subject) →
  ∃ t0 t1, (login0 now st nn vf returnTo).1 = [SetCookie OIDC_TRANSACTION_COOKIE t0 (secured (Some config)) (TRANSACTION_TTL_SECONDS * 1000)] ∧
    callback0 now1 (Some code) (Some (base64url st)) (only OIDC_TRANSACTION_COOKIE t0) =
      ([ClearCookie OIDC_TRANSACTION_COOKIE (secured (Some config)); SetCookie COOKIE_NAME t1 (secured (Some config)) (SESSION_TTL_SECONDS * 1000)],
       Redirect (Some (safeReturnTo returnTo))) ∧
    startsWith (safeReturnTo returnTo) "/" = true ∧ startsWith (safeReturnTo returnTo) "//" = false ∧
    (∀ now2, now1 / 1000 <= now2 / 1000 < now1 / 1000 + SESSION_TTL_SECONDS →
      ∃ u, authenticateSession0 now2 (only COOKIE_NAME t1) = Some u ∧ pi_openId u = deriveOpenId subject ∧
        ∀ header payload' role v, bearer_shows now2 header payload' role subject → resolveKeycloakUser0 now2 header = Some v → pi_openId v = pi_openId u) ∧
    (∀ code' state, state ≠ base64url st → callback0 now1 code' (Some state) (only OIDC_TRANSACTION_COOKIE t0) =
      ([ClearCookie OIDC_TRANSACTION_COOKIE (secured (Some config))], Refuse 403 "invalid OIDC login transaction")) ∧
    authenticateSession0 now1 (only COOKIE_NAME t0) = None ∧
    (∀ code' state, callback0 now1 code' (Some state) (only OIDC_TRANSACTION_COOKIE t1) =
      ([ClearCookie OIDC_TRANSACTION_COOKIE (secured (Some config))], Refuse 403 "invalid OIDC login transaction")) ∧
    (∀ now' code' state cookies t secure maxAge, SetCookie COOKIE_NAME t secure maxAge ∈ (callback0 now' code' state cookies).1 →
      login_completed now' code' state cookies t).
Proof.
  intros Hc Hs Ht Hst Hcode Hl. eexists _, _. split; [by rewrite (login_run config sec Hc Hs)|].
  split; [exact (callback_run config sec now now1 st nn vf returnTo Hc Hs Ht code id_token payload subject Hst Hcode Hl)|].
  split; [apply safeReturnTo_local|]. split; [apply safeReturnTo_local|]. split.
  { intros now2 H2. destruct (session_run sec Hs now1 now2 subject payload id_token _ H2 (only_same _ _)) as (u & Hu & Ho).
    exists u. split; [exact Hu|]. split; [done|]. intros header payload' role v Hb (p & r & s' & Hb' & ->)%bearer_exact. cbn [pi_openId]. rewrite Ho.
    f_equal. destruct Hb as (_ & t & c & A1 & _ & A2 & _ & A3 & _ & A4 & _). destruct Hb' as (_ & t' & c' & B1 & _ & B2 & _ & B3 & _ & B4 & _).
    congruence. }
  split.
  { intros code' state Hne. rewrite <- Hc. eapply other_state_refused; [by rewrite Hc|exact (transaction_verifies sec now now1 st nn vf returnTo Hs Ht)|].
    change (Some (JStr (base64url st)) ≠ Some (JStr state)). congruence. }
  split; [exact (transaction_is_no_session sec now now1 st nn vf returnTo Hs Ht)|]. split.
  - intros code' state. rewrite <- Hc. eapply other_state_refused; [by rewrite Hc| |].
    + rewrite only_same. apply (signed_verifies sec Hs). unfold SESSION_TTL_SECONDS. lia.
    + done.
  - intros now' code' state cookies t secure maxAge. apply callback_sound.
Qed.
End identity.

(** ** An example *)

Definition demo_token : Type := Z * string * claims * Z.
Definition demo_verify (now : Z) (secret : string) (t : demo_token) : option claims :=
  let '(issued, s, c, ttl) := t in
  if bool_decide (s = secret) && (now / 1000 <? issued / 1000 + ttl)
  then Some (c ++ [("iat", JNum (issued / 1000)); ("exp", JNum (issued / 1000 + ttl))])%list else None.
#[local] Instance demo_tokens : SessionTokens demo_token.
Proof.
  refine {| jwt_sign now secret c ttl := (now, secret, c, ttl); jwt_verify := demo_verify |}.
  intros now secret c ttl now' [_ H]. unfold demo_verify. rewrite bool_decide_eq_true_2 by done. apply Z.ltb_lt in H. by rewrite H.
Defined.

Definition demo_env (k : string) : option string :=
  record_get [("UMOJA_KEYCLOAK_ISSUER", "https://id.example/realms/umoja"); ("UMOJA_KEYCLOAK_AUDIENCE", "umoja"); ("UMOJA_KEYCLOAK_CLIENT_ID", "umoja");
    ("UMOJA_PUBLIC_BASE_URL", "https://console.example"); ("UMOJA_SESSION_SECRET", "0123456789abcdef0123456789abcdef")] k.
Definition demo_url (s : string) : option issuer_url := Some (mk_issuer_url "https:" "id.example" "" "" "" "" s).
Definition demo_resolve (path base : string) : string := base +:+ path.
Definition demo_payload (nonce : string) : claims :=
  [("sub", JStr "user-1"); ("nonce", JStr nonce); ("realm_access", JObj [("roles", JArr [JStr "umojaflowos_auditor"])]); ("amr", JArr [JStr "pwd"])].
Definition demo_nonce : bytes := [7; 8; 9].
(** The provider's keys verify one token. *)
Definition demo_jwks (_ : Z) (_ _ _ t : string) : option claims :=
  if bool_decide (t = "id-token") then Some (demo_payload (base64url demo_nonce)) else None.
Definition demo_exchange (_ : string) (_ : list (string * string)) : option json := Some (JObj [("id_token", JStr "id-token")]).
Definition demo_config : oidc_configuration :=
  mk_oidc_configuration (mk_issuer_url "https:" "id.example" "" "" "" "" "https://id.example/realms/umoja") "umoja" None "umoja"
    (mk_issuer_url "https:" "id.example" "" "" "" "" "https://console.example").

Lemma demo_login_verified : verified_login demo_resolve demo_jwks demo_exchange 61000 demo_config "code-1"
  (transaction_claims (base64url [1; 2; 3]) (base64url demo_nonce) (base64url [4; 5; 6]) (safeReturnTo (Some "/console/cases")) ++
    [("iat", JNum (1000 / 1000)); ("exp", JNum (1000 / 1000 + TRANSACTION_TTL_SECONDS))])%list =
  Some ("id-token", demo_payload (base64url demo_nonce), "user-1").
Proof. vm_compute. reflexivity. Qed.

Lemma sign_in_round_trip_witness : ∃ t0 t1,
  (login demo_env demo_url demo_resolve (λ u _, u) 1000 [1; 2; 3] demo_nonce [4; 5; 6] (Some "/console/cases")).1 =
    [SetCookie OIDC_TRANSACTION_COOKIE t0 true (TRANSACTION_TTL_SECONDS * 1000)] ∧
  (callback demo_env demo_url demo_resolve demo_jwks demo_exchange 61000 (Some "code-1") (Some (base64url [1; 2; 3])) (only OIDC_TRANSACTION_COOKIE t0)).2 =
    Redirect (Some "/console/cases") ∧ authenticateSession demo_env 61000 (only COOKIE_NAME t1) ≠ None.
Proof.
  destruct (sign_in_round_trip demo_env demo_url demo_resolve (λ u _, u) demo_jwks demo_exchange demo_config "0123456789abcdef0123456789abcdef"
    1000 61000 [1; 2; 3] demo_nonce [4; 5; 6] (Some "/console/cases") "code-1" "id-token" (demo_payload (base64url demo_nonce)) "user-1")
    as (t0 & t1 & H1 & H2 & _ & _ & H3 & _); [reflexivity|reflexivity|split; vm_compute; done|done|done|exact demo_login_verified|].
  exists t0, t1. split; [exact H1|]. split; [by rewrite H2|]. destruct (H3 61000) as (u & Hu & _); [split; vm_compute; done|]. by rewrite Hu.
Defined.

(** ** Departures *)

(** Departure: a realm role named like a property of every object counts as a
    platform role, so a bearer token passes with no role of this platform. *)
Theorem prototype_key_counts_as_a_role key now header payload_of subject process_env parse_url resolve_url jwks_verify :
  key ∈ object_prototype →
  (∀ c t, configuredKeycloak process_env parse_url = Some c → authorizationToken header = Some t →
    jwks_verify now (certs_url resolve_url (kc_issuer c)) (issuer_text (kc_issuer c)) (kc_audience c) t =
      Some ([("realm_access", JObj [("roles", JArr [JStr key])]); ("sub", JStr subject); ("amr", JArr [JStr "otp"])] ++ payload_of)%list) →
  is_Some (configuredKeycloak process_env parse_url) → is_Some (authorizationToken header) → trim subject ≠ "" →
  ∃ u, resolveKeycloakUser process_env parse_url resolve_url jwks_verify now header = Some u ∧ pi_role u = Inherited key.
Proof.
  intros Hk Hv [c Hc] [t Ht] Hs. unfold resolveKeycloakUser. rewrite Ht. cbn [mbind option_bind]. rewrite Hc. cbn [mbind option_bind].
  rewrite (Hv c t Hc Ht). cbn [mbind option_bind].
  assert (selectedRole ([("realm_access", JObj [("roles", JArr [JStr key])]); ("sub", JStr subject); ("amr", JArr [JStr "otp"])] ++ payload_of)%list
    = Some (Inherited key)) as ->.
  { revert key Hk Hv. apply (proj1 (Forall_forall (λ key, _ → selectedRole _ = Some (Inherited key)) object_prototype)).
    unfold object_prototype. repeat (apply Forall_cons; split; [intros _; vm_compute; reflexivity|]). by apply Forall_nil. }
  cbn [mbind option_bind app]. change (claim_text _ "sub") with (Some subject). cbn [mbind option_bind]. apply truthy_iff in Hs. rewrite Hs.
  cbn [mbind option_bind]. change (mfaAssured _) with true. cbn [negb]. by eexists.
Qed.

(** Departure: a context class that says there was no second factor counts as one,
    since the test looks for a word anywhere in it. *)
Theorem denied_factor_counts_as_assurance rest : mfaAssured (("acr", JStr "no-mfa") :: ("amr", JArr [JStr "pwd"]) :: rest) = true.
Proof. reflexivity. Qed.

(** Departure: what a bearer token must show, a second factor, a session need not:
    a login whose token shows a password only opens a session, and the same claims
    in a bearer token are refused. *)
Theorem session_needs_no_second_factor : mfaAssured (demo_payload (base64url demo_nonce)) = false ∧
  ∃ t1, (callback demo_env demo_url demo_resolve demo_jwks demo_exchange 61000 (Some "code-1") (Some (base64url [1; 2; 3]))
    (only OIDC_TRANSACTION_COOKIE (1000, "0123456789abcdef0123456789abcdef",
      transaction_claims (base64url [1; 2; 3]) (base64url demo_nonce) (base64url [4; 5; 6]) "/console", TRANSACTION_TTL_SECONDS))).1 =
    [ClearCookie OIDC_TRANSACTION_COOKIE true; SetCookie COOKIE_NAME t1 true (SESSION_TTL_SECONDS * 1000)] ∧
  resolveKeycloakUser demo_env demo_url demo_resolve demo_jwks 61000
    (record_get [("x-umoja-identity-provider", "keycloak"); ("authorization", "Bearer id-token")]) = None.
Proof. split; [reflexivity|]. eexists. split; [vm_compute; reflexivity|vm_compute; reflexivity]. Qed.
