(* ===== verification/Router.v ===== *)
(** * The router

    src/apps/control-plane/server/routers.ts, _core/trpc.ts and
    _core/systemRouter.ts. Every procedure has a guard, a schema of its input
    and the calls its body makes with the caller as their actor; the guard runs
    first. [serve] is what the router does with a request: it refuses, or it
    makes the calls with an actor and the parsed arguments, whose effect is
    modelled in the files of the components.

    zod is a library: its tests of identifiers, addresses and URLs and the
    coercion of dates are arguments, and a date sent by the client is a JSON
    value that [coerce_date] reads. *)

From S2P Require Import Prelude Js Numeric Sha256 Hmac Rows Schema Parties Access Readiness SodMonitor Dossiers Zod Contracts ServiceBridge Identity.

Local Open Scope string_scope.
Local Open Scope Z_scope.

(** ** Guards *)

(** [None] is [publicProcedure]. *)
Definition guard : Type := option (list operating_role).
Definition publicProcedure : guard := None.
Definition adminProcedure : guard := Some [RoleAdmin].
Definition complianceProcedure : guard := Some [RoleAdmin; RoleComplianceOfficer].
Definition complianceOnlyProcedure : guard := Some [RoleComplianceOfficer].
Definition treasuryProcedure : guard := Some [RoleAdmin; RoleTreasuryOperator].
Definition complianceOrTreasuryProcedure : guard := Some [RoleAdmin; RoleComplianceOfficer; RoleTreasuryOperator].
Definition auditorProcedure : guard := Some [RoleAdmin; RoleComplianceOfficer; RoleTreasuryOperator; RoleAuditor].
Definition assuranceVerifierProcedure : guard := Some [RoleAdmin; RoleAuditor].
Definition providerContactProcedure : guard := Some [RoleProviderContact].
Definition cbnLiaisonProcedure : guard := Some [RoleCbnLiaison].

(** [procedureForRoles]: the caller it lets through. *)
Definition passes_guard (g : guard) (ctx : trpc_context) : bool :=
  match g with
  | None => true
  | Some roles => match cx_user ctx with Some u => includes roles (pu_role u) | None => false end
  end.

(** ** Inputs *)

(** What a schema returns. *)
Inductive value : Type :=
  | Undefined
  | Null
  | Text (s : string)
  | Number (j : json)
  | Flag (b : bool)
  | Instant (ms : Z)
  | Any (j : json)
  | Items (vs : list value)
  | Fields (fs : list (string * value)).
(** A schema reads a value that may be missing. *)
Definition schema : Type := option json → option value.

Definition get (k : string) (v : value) : value :=
  match v with Fields fs => default Undefined (record_get fs k) | _ => Undefined end.
Definition value_truthy (v : value) : bool :=
  match v with
  | Undefined | Null => false
  | Text s => truthy s
  | Flag b => b
  | Number j | Any j => json_truthy j
  | _ => true
  end.
Definition is_text (v : value) (s : string) : bool := match v with Text t => bool_decide (t = s) | _ => false end.

(** A check of a string, or a change of it. *)
Definition text_check : Type := string → option string.
Definition s_test (p : string → bool) : text_check := λ s, if p s then Some s else None.
Definition s_trim : text_check := λ s, Some (trim s).
Definition s_upper : text_check := λ s, Some (toUpperCase s).
Definition s_min (n : Z) : text_check := s_test (λ s, n <=? js_length s).
Definition s_max (n : Z) : text_check := s_test (λ s, js_length s <=? n).
Definition s_length (n : Z) : text_check := s_test (λ s, js_length s =? n).
Definition s_https : text_check := s_test (λ s, startsWith s "https://").
(** [/^\d+(\.\d{1,k})?$/]. *)
Definition is_decimal (k : nat) (s : string) : bool :=
  let '(i, f) := split_dot s in
  (1 <=? String.length i)%nat && all_chars is_digit i &&
  match f with None => true | Some f => (1 <=? String.length f)%nat && (String.length f <=? k)%nat && all_chars is_digit f end.

Fixpoint run_checks (cs : list text_check) (s : string) : option string :=
  match cs with [] => Some s | c :: cs => s ← c s; run_checks cs s end.
Definition r_string (cs : list text_check) : schema := λ raw,
  match raw with Some (JStr s) => Text <$> run_checks cs s | _ => None end.
Definition r_trimmed (low high : Z) : schema := r_string [s_trim; s_min low; s_max high].
Definition r_sha256 : schema := r_string [s_test is_sha256_hex].
Definition r_enum (xs : list string) : schema := λ raw,
  match raw with Some (JStr s) => if includes xs s then Some (Text s) else None | _ => None end.
Definition r_boolean : schema := λ raw, match raw with Some (JBool b) => Some (Flag b) | _ => None end.
Definition r_int (low high : option Z) : schema := λ raw,
  match raw with
  | Some (JNum n) => if safe n && match low with Some l => l <=? n | None => true end && match high with Some h => n <=? h | None => true end
                     then Some (Number (JNum n)) else None
  | _ => None
  end.
(** [z.number().min(0.9).max(1)]; 0.9 is the double [8106479329266893 / 2^53]. *)
Definition r_availability : schema := λ raw,
  match raw with
  | Some (JNum n) => if n =? 1 then Some (Number (JNum n)) else None
  | Some (JFrac m e) => if (8106479329266893 * 2 ^ Zpos e <=? m * 2 ^ 53) && (m <=? 2 ^ Zpos e) then Some (Number (JFrac m e)) else None
  | _ => None
  end.
(** [z.number().min(0)]. *)
Definition r_nonnegative : schema := λ raw,
  match raw with
  | Some (JNum n) => if 0 <=? n then Some (Number (JNum n)) else None
  | Some (JFrac m e) => if 0 <=? m then Some (Number (JFrac m e)) else None
  | _ => None
  end.
Definition r_unknown : schema := λ raw, Some (match raw with Some j => Any j | None => Undefined end).
Definition r_record : schema := λ raw, match raw with Some (JObj kvs) => Some (Any (JObj kvs)) | _ => None end.
Definition r_optional (a : schema) : schema := λ raw, match raw with None => Some Undefined | _ => a raw end.
Definition r_nullish (a : schema) : schema := λ raw, match raw with None => Some Undefined | Some JNull => Some Null | _ => a raw end.
Definition r_default (v : value) (a : schema) : schema := λ raw, match raw with None => Some v | _ => a raw end.
Definition r_refine (p : value → bool) (a : schema) : schema := λ raw, v ← a raw; if p v then Some v else None.
Definition r_array (low : Z) (high : option Z) (a : schema) : schema := λ raw,
  match raw with
  | Some (JArr xs) =>
      let n := Z.of_nat (length xs) in
      if (low <=? n) && match high with Some h => n <=? h | None => true end then Items <$> mapM (λ x, a (Some x)) xs else None
  | _ => None
  end.
(** Keys outside the shape are dropped. *)
Definition r_object (shape : list (string * schema)) : schema := λ raw,
  match raw with
  | Some (JObj kvs) => Fields <$> mapM (λ f : string * schema, (λ v, (f.1, v)) <$> f.2 (record_get kvs f.1)) shape
  | _ => None
  end.

(** The refinements of whole inputs. *)
Definition instants (v : value) (first second : string) (p : Z → Z → bool) : bool :=
  match get first v, get second v with Instant x, Instant y => p x y | _, _ => false end.
Definition window_ordered (v : value) : bool := instants v "startsAt" "endsAt" (λ s e, s <? e).
Definition period_ordered (v : value) : bool := instants v "periodStart" "periodEnd" (λ s e, s <? e).
Definition detected_after (v : value) : bool := instants v "occurredAt" "detectedAt" (λ o d, o <=? d).
Definition not_in_future (now : Z) (v : value) : bool := match v with Instant t => t <=? now | _ => false end.
Definition assets_differ (v : value) : bool :=
  match get "baseAsset" v, get "quoteAsset" v with Text b, Text q => negb (bool_decide (b = q)) | _, _ => false end.
Definition acceptance_versioned (v : value) : bool :=
  negb (is_text (get "recordKind" v) "disclosure_acceptance" && negb (value_truthy (get "disclosureVersion" v))).
Definition subject_matches_role (v : value) : bool :=
  Bool.eqb (is_text (get "role" v) "provider_contact") (value_truthy (get "counterpartyId" v)) &&
  Bool.eqb (is_text (get "role" v) "cbn_liaison") (value_truthy (get "dossierId" v)).

(** ** Procedures *)

(** The actor a body passes on. *)
Inductive actor_form : Type := NoActor | UserActor | LegacyActor | UserSubject.

Record procedure : Type := mk_procedure {
  p_path : string;
  p_guard : guard;
  p_mutation : bool;
  p_input : option schema;
  p_calls : list string;
  p_actor : actor_form;
  p_arguments : list (value → value)
}.
Definition whole (v : value) : value := v.
Definition field (k : string) (v : value) : value := get k v.
Definition field_or (k : string) (n : Z) (v : value) : value := match get k v with Undefined => Number (JNum n) | w => w end.
Definition or_empty (v : value) : value := match v with Undefined => Fields [] | w => w end.
Definition extended (k s : string) (v : value) : value :=
  match v with Fields fs => Fields (List.filter (λ x : string * value, negb (bool_decide (x.1 = k))) fs ++ [(k, Text s)])%list | w => w end.
Definition renamed (k k' : string) (v : value) : value := Fields [(k, get k' v)].

Section procedures.
Context `{!ZodParser} (zod_uuid zod_email : string → bool) (zod_url : string → option string) (coerce_date : json → option Z) (now : Z).

Definition s_uuid : text_check := s_test zod_uuid.
Definition s_email : text_check := s_test zod_email.
Definition s_url : text_check := zod_url.
Definition r_uuid : schema := r_string [s_uuid].
Definition r_url : schema := r_string [s_url].
Definition r_https : schema := r_string [s_url; s_https].
Definition r_date : schema := λ raw, match raw with Some j => Instant <$> coerce_date j | None => None end.
(** The schemas of the service bridge. *)
Definition r_service (s : zod) : schema := λ raw, j ← raw; Any <$> zod_parse s j.

Definition query (path : string) (g : guard) (input : option schema) (calls : list string) (a : actor_form) (args : list (value → value)) : procedure :=
  mk_procedure path g false input calls a args.
Definition mutation (path : string) (g : guard) (input : option schema) (calls : list string) (a : actor_form) (args : list (value → value)) : procedure :=
  mk_procedure path g true input calls a args.

Definition system_procedures : list procedure :=
  [query "system.health" publicProcedure (Some (r_object [("timestamp", r_nonnegative)])) [] NoActor [];
   mutation "system.notifyOwner" adminProcedure (Some (r_object [("title", r_string [s_min 1]); ("content", r_string [s_min 1])])) ["notifyOwner"] NoActor [whole]].

Definition auth_procedures : list procedure :=
  [query "auth.me" publicProcedure None [] NoActor [];
   query "auth.pendingAccessStatus" publicProcedure None [] NoActor []].

Definition postgres_procedures_1 : list procedure :=
  [query "postgres.readiness" auditorProcedure None ["getPostgresReadiness"] NoActor [];
   query "postgres.dashboardSnapshot" auditorProcedure None ["getPostgresDashboardSnapshot"] NoActor [];
   query "postgres.cutoverReadiness" auditorProcedure None ["getPostgresCutoverReadiness"] NoActor [];
   query "postgres.cbnSandboxDossiers" auditorProcedure None ["listCbnSandboxDossiers"] NoActor [];
   query "postgres.vaspRegulatoryProfiles" auditorProcedure None ["listVaspRegulatoryProfiles"] NoActor [];
   query "postgres.vaspTravelRuleAssessments" auditorProcedure (Some (r_optional (r_object [("dossierId", r_optional r_uuid)])))
      ["listVaspTravelRuleAssessments"] NoActor [field "dossierId"];
   query "postgres.vaspSupervisoryReadiness" auditorProcedure (Some (r_object [("profileId", r_uuid)])) ["getVaspSupervisoryReadiness"] NoActor
      [field "profileId"];
   mutation "postgres.createImtoReadinessProfile" adminProcedure (Some (r_object [("legalEntityId", r_uuid); ("operatingModelSummary", r_trimmed 50
      4000)])) ["createImtoReadinessProfile"] UserActor [whole];
   mutation "postgres.recordImtoReadinessEvidence" complianceProcedure (Some (r_object [("profileId", r_uuid); ("category", r_enum
      imtoEvidenceCategories); ("evidenceUri", r_https); ("evidenceSha256", r_sha256)])) ["recordImtoReadinessEvidence"] UserActor [whole];
   mutation "postgres.assessImtoReadiness" complianceProcedure (Some (r_object [("profileId", r_uuid); ("reviewerRationale", r_trimmed 20 4000)]))
      ["assessImtoReadiness"] UserActor [whole];
   mutation "postgres.createVaspRegulatoryProfile" adminProcedure (Some (r_object [("dossierId", r_uuid); ("supervisoryPath", r_enum ["sec_arip";
      "sec_full_registration"; "other_supervisory_path"]); ("operationalModelSummary", r_trimmed 50 4000)])) ["createVaspRegulatoryProfile"] UserActor
      [whole];
   mutation "postgres.initialiseReadinessAssurance" adminProcedure (Some (r_object [("dossierId", r_uuid)])) ["initialiseReadinessAssurance"]
      UserActor [field "dossierId"];
   query "postgres.readinessAssurance" auditorProcedure (Some (r_object [("dossierId", r_uuid)])) ["listReadinessAssurance"] NoActor [field
      "dossierId"];
   query "postgres.assessReadinessAssurance" auditorProcedure (Some (r_object [("dossierId", r_uuid)])) ["assessReadinessAssurance"] NoActor [field
      "dossierId"];
   mutation "postgres.recordReadinessAssuranceEvidence" complianceProcedure (Some (r_object [("dossierId", r_uuid); ("area", r_enum (pg_text <$>
      readinessAssuranceAreas)); ("evidenceUri", r_https); ("evidenceSha256", r_sha256)])) ["recordReadinessAssuranceEvidence"] UserActor [whole];
   mutation "postgres.verifyReadinessAssuranceEvidence" assuranceVerifierProcedure (Some (r_object [("dossierId", r_uuid); ("area", r_enum (pg_text
      <$> readinessAssuranceAreas)); ("externalVerifier", r_trimmed 3 255); ("externalAttestationUri", r_https); ("externalAttestationSha256",
      r_sha256); ("rationale", r_trimmed 20 4000)])) ["verifyReadinessAssuranceEvidence"] UserActor [whole];
   mutation "postgres.rejectReadinessAssuranceEvidence" assuranceVerifierProcedure (Some (r_object [("dossierId", r_uuid); ("area", r_enum (pg_text
      <$> readinessAssuranceAreas)); ("rationale", r_trimmed 20 4000)])) ["rejectReadinessAssuranceEvidence"] UserActor [whole];
   mutation "postgres.recordVaspSupervisoryEvidence" complianceProcedure (Some (r_object [("profileId", r_uuid); ("category", r_enum
      supervisoryEvidenceCategories); ("evidenceUri", r_https); ("evidenceSha256", r_sha256)])) ["recordVaspSupervisoryEvidence"] UserActor [whole];
   mutation "postgres.recordVaspTravelRuleEvidence" complianceProcedure (Some (r_object [("dossierId", r_uuid); ("counterpartyId", r_uuid);
      ("category", r_enum travelRuleEvidenceCategories); ("evidenceUri", r_https); ("evidenceSha256", r_sha256)])) ["recordVaspTravelRuleEvidence"]
      UserActor [whole];
   mutation "postgres.assessVaspTravelRuleRoute" complianceProcedure (Some (r_object [("dossierId", r_uuid); ("counterpartyId", r_uuid);
      ("reviewerRationale", r_trimmed 20 4000)])) ["assessVaspTravelRuleRoute"] UserActor [whole];
   mutation "postgres.createVaspOffshoreCounterpartyProfile" adminProcedure (Some (r_object [("dossierId", r_uuid); ("counterpartyId", r_uuid);
      ("homeJurisdiction", r_trimmed 2 120); ("exposureTier", r_enum ["standard"; "heightened"; "prohibited_review"]); ("operatingSummary", r_trimmed 50
      4000)])) ["createVaspOffshoreCounterpartyProfile"] UserActor [whole];
   mutation "postgres.recordVaspOffshoreCounterpartyEvidence" complianceProcedure (Some (r_object [("profileId", r_uuid); ("category", r_enum
      offshoreExposureEvidenceCategories); ("evidenceUri", r_https); ("evidenceSha256", r_sha256)])) ["recordVaspOffshoreCounterpartyEvidence"]
      UserActor [whole];
   mutation "postgres.assessVaspOffshoreCounterpartyProfile" complianceProcedure (Some (r_object [("profileId", r_uuid); ("reviewerRationale",
      r_trimmed 20 4000)])) ["assessVaspOffshoreCounterpartyProfile"] UserActor [whole];
   query "postgres.cbnSandboxReadiness" auditorProcedure (Some (r_object [("dossierId", r_uuid)])) ["getCbnSandboxReadiness"] NoActor [field
      "dossierId"];
   query "postgres.cbnSandboxLatestEvidenceAssessment" auditorProcedure (Some (r_object [("dossierId", r_uuid)]))
      ["latestCbnSandboxEvidenceAssessment"] NoActor [field "dossierId"];
   mutation "postgres.createCbnSandboxDossier" adminProcedure (Some (r_object [("legalEntityId", r_uuid); ("track", r_enum ["vasp";
      "data_enabled_non_vasp"]); ("productName", r_trimmed 3 255); ("productSummary", r_trimmed 50 4000)])) ["createCbnSandboxDossier"] UserActor
      [whole];
   mutation "postgres.recordCbnSandboxEvidence" complianceProcedure (Some (r_object [("dossierId", r_uuid); ("category", r_enum
      ["corporate_governance"; "ownership"; "financial_capacity"; "aml_cft_cpf"; "consumer_protection"; "cybersecurity"; "data_protection";
      "operational_resilience"; "business_continuity"; "stablecoin_governance"; "reserve_attestation"; "redemption"; "custody_key_management";
      "third_party_oversight"; "testing_plan"]); ("evidenceUri", r_https); ("evidenceSha256", r_sha256)])) ["recordCbnSandboxEvidence"] UserActor
      [whole];
   mutation "postgres.assessCbnSandboxEvidenceCompleteness" complianceProcedure (Some (r_object [("dossierId", r_uuid); ("reviewerRationale",
      r_trimmed 20 4000)])) ["assessCbnSandboxEvidenceCompleteness"] UserActor [whole];
   mutation "postgres.createCbnSandboxTestPlan" adminProcedure (Some (r_refine window_ordered (r_object [("dossierId", r_uuid); ("permittedUse",
      r_trimmed 20 1000); ("userCategory", r_trimmed 3 255); ("maxTransactions", r_int (Some 1) (Some 1000000)); ("maxAggregateExposure", r_string
      [s_test (is_decimal 12)]); ("startsAt", r_date); ("endsAt", r_date); ("successMetricsUri", r_https); ("windDownUri", r_https)])))
      ["createCbnSandboxTestPlan"] UserActor [whole];
   mutation "postgres.recordCbnSandboxConsumerRecord" complianceProcedure (Some (r_refine acceptance_versioned (r_object [("dossierId", r_uuid);
      ("customerId", r_uuid); ("recordKind", r_enum ["disclosure_acceptance"; "complaint"]); ("disclosureVersion", r_optional (r_trimmed 1 128));
      ("evidenceUri", r_https); ("details", r_trimmed 10 4000)]))) ["recordCbnSandboxConsumerRecord"] UserActor [whole];
   mutation "postgres.recordCbnSandboxIncident" complianceProcedure (Some (r_refine detected_after (r_object [("dossierId", r_uuid); ("kind", r_enum
      ["cybersecurity"; "fraud"; "consumer_harm"; "operational_resilience"]); ("severity", r_enum ["low"; "medium"; "high"; "critical"]); ("occurredAt",
      r_date); ("detectedAt", r_date); ("evidenceUri", r_https); ("summary", r_trimmed 20 4000)]))) ["recordCbnSandboxIncident"] UserActor [whole];
   mutation "postgres.createCbnSandboxReportingPack" complianceProcedure (Some (r_refine period_ordered (r_object [("dossierId", r_uuid);
      ("periodStart", r_date); ("periodEnd", r_date); ("artifactUri", r_https)]))) ["createCbnSandboxReportingPack"] UserActor [whole];
   mutation "postgres.assignExternalStakeholder" adminProcedure (Some (r_refine subject_matches_role (r_object [("role", r_enum ["provider_contact";
      "cbn_liaison"]); ("stakeholderSubject", r_trimmed 3 255); ("counterpartyId", r_optional r_uuid); ("dossierId", r_optional r_uuid)])))
      ["assignExternalStakeholder"] UserActor [whole];
   query "postgres.operatorAccessRequests" adminProcedure None ["listOperatorAccessRequests"] NoActor [];
   query "postgres.operators" adminProcedure None ["listOperators"] NoActor [];
   mutation "postgres.changeOperatorRole" adminProcedure (Some (r_object [("subject", r_trimmed 3 255); ("role", r_enum ["admin";
      "compliance_officer"; "treasury_operator"; "auditor"])])) ["changeOperatorRole"] UserActor [whole];
   mutation "postgres.deactivateOperator" adminProcedure (Some (r_object [("keycloakUserId", r_trimmed 1 255); ("subject", r_trimmed 3 255);
      ("reason", r_trimmed 10 2000)])) ["deactivateOperator"] UserActor [whole];
   query "postgres.operatorOnboardingRecords" adminProcedure None ["listOperatorOnboardingRecords"] NoActor [];
   mutation "postgres.startOperatorOnboarding" adminProcedure (Some (r_object [("subject", r_trimmed 3 255)])) ["startOperatorOnboarding"] UserActor
      [whole];
   mutation "postgres.recordSodMatrixReview" adminProcedure (Some (r_object [("onboardingId", r_uuid); ("note", r_trimmed 10 2000)]))
      ["recordSodMatrixReview"] UserActor [whole]].

Definition postgres_procedures_2 : list procedure :=
  [mutation "postgres.recordLmsEnrolment" complianceProcedure (Some (r_object [("onboardingId", r_uuid); ("certReference", r_trimmed 1 255)]))
      ["recordLmsEnrolment"] UserActor [whole];
   mutation "postgres.recordShadowPeriodSupervision" adminProcedure (Some (r_object [("onboardingId", r_uuid); ("supervisedBy", r_trimmed 1 255)]))
      ["recordShadowPeriodSupervision"] UserActor [whole];
   mutation "postgres.recordOperatorRecertification" complianceProcedure (Some (r_object [("onboardingId", r_uuid); ("nextRecertDueAt", r_date)]))
      ["recordOperatorRecertification"] UserActor [whole];
   query "postgres.auditorEngagements" adminProcedure None ["listAuditorEngagements"] NoActor [];
   mutation "postgres.startAuditorEngagement" adminProcedure (Some (r_object [("auditorFirmName", r_trimmed 2 255); ("engagementReference", r_trimmed
      2 255)])) ["startAuditorEngagement"] UserActor [whole];
   mutation "postgres.recordEngagementLetter" adminProcedure (Some (r_object [("engagementId", r_uuid); ("engagementLetterUri", r_url); ("scopeNote",
      r_trimmed 10 2000)])) ["recordEngagementLetter"] UserActor [whole];
   mutation "postgres.recordAccessProvisioning" adminProcedure (Some (r_object [("engagementId", r_uuid); ("auditorSubject", r_trimmed 3 255)]))
      ["recordAccessProvisioning"] UserActor [whole];
   mutation "postgres.recordAuditFieldwork" adminProcedure (Some (r_object [("engagementId", r_uuid); ("fieldworkNote", r_trimmed 10 2000)]))
      ["recordAuditFieldwork"] UserActor [whole];
   mutation "postgres.recordAnnualReview" adminProcedure (Some (r_object [("engagementId", r_uuid); ("nextAnnualReviewDueAt", r_date)]))
      ["recordAnnualReview"] UserActor [whole];
   mutation "postgres.grantOperatingRole" adminProcedure (Some (r_object [("subject", r_trimmed 3 255); ("role", r_enum ["admin";
      "compliance_officer"; "treasury_operator"; "auditor"])])) ["grantOperatingRole"] UserActor [whole];
   query "postgres.operatorAccountCreationAvailable" adminProcedure None ["operatorAccountCreationAvailable"] NoActor [];
   mutation "postgres.onboardOperator" adminProcedure (Some (r_refine subject_matches_role (r_object [("name", r_trimmed 2 120); ("email", r_string
      [s_trim; s_email; s_max 320]); ("role", r_enum ["admin"; "compliance_officer"; "treasury_operator"; "auditor"; "provider_contact";
      "cbn_liaison"]); ("counterpartyId", r_optional r_uuid); ("dossierId", r_optional r_uuid)]))) ["onboardOperator"] UserActor [whole];
   query "postgres.providerContactAssignments" providerContactProcedure None ["listProviderContactAssignments"] UserSubject [];
   query "postgres.cbnLiaisonAssignments" cbnLiaisonProcedure None ["listCbnLiaisonAssignments"] UserSubject [];
   mutation "postgres.recordProviderContactEvidence" providerContactProcedure (Some (r_object [("assignmentId", r_uuid); ("category", r_enum
      ["provider_licensing"; "product_entitlement"; "technical_endpoint"; "callback_configuration"; "operating_runbook"]); ("evidenceUri", r_https);
      ("evidenceSha256", r_sha256)])) ["recordExternalStakeholderEvidence"] UserActor [whole];
   mutation "postgres.recordCbnLiaisonEvidence" cbnLiaisonProcedure (Some (r_object [("assignmentId", r_uuid); ("category", r_enum
      ["application_correspondence"; "review_request"; "review_response"]); ("evidenceUri", r_https); ("evidenceSha256", r_sha256)]))
      ["recordExternalStakeholderEvidence"] UserActor [whole];
   query "postgres.counterparties" auditorProcedure None ["listPostgresCounterparties"] NoActor [];
   query "postgres.counterpartyOnboardings" auditorProcedure None ["listCounterpartyOnboardings"] NoActor [];
   mutation "postgres.createCounterpartyOnboarding" adminProcedure (Some (r_object [("counterpartyId", r_uuid); ("countryOverlays", r_array 1 (Some
      3) (r_enum ["NIGERIA_NGN"; "KENYA_KES"; "SOUTH_AFRICA_ZAR"])); ("legalEvidenceUri", r_url); ("recertificationDueAt", r_date)]))
      ["createCounterpartyOnboarding"] UserActor [whole];
   mutation "postgres.decideCounterpartyOnboardingGate" complianceOnlyProcedure (Some (r_object [("onboardingId", r_uuid); ("gate", r_enum ["legal";
      "pilot"]); ("decision", r_enum ["approved"; "blocked"]); ("evidenceUri", r_url); ("rationale", r_trimmed 10 4000)]))
      ["decideCounterpartyOnboardingGate"] UserActor [whole];
   mutation "postgres.decideTechnicalOnboardingGate" adminProcedure (Some (r_object [("onboardingId", r_uuid); ("decision", r_enum ["approved";
      "blocked"]); ("evidenceUri", r_url); ("rationale", r_trimmed 10 4000)])) ["decideCounterpartyOnboardingGate"] UserActor [extended "gate"
      "technical"];
   mutation "postgres.decideTreasuryPilotOnboardingGate" treasuryProcedure (Some (r_object [("onboardingId", r_uuid); ("decision", r_enum
      ["approved"; "blocked"]); ("evidenceUri", r_url); ("rationale", r_trimmed 10 4000)])) ["decideCounterpartyOnboardingGate"] UserActor [extended
      "gate" "pilot"];
   mutation "postgres.beginCounterpartyRecertification" complianceProcedure (Some (r_object [("onboardingId", r_uuid); ("legalEvidenceUri", r_url);
      ("recertificationDueAt", r_date)])) ["beginCounterpartyRecertification"] UserActor [field "onboardingId"; field "legalEvidenceUri"; field
      "recertificationDueAt"];
   query "postgres.customers" auditorProcedure None ["listPostgresCustomers"] NoActor [];
   query "postgres.customerWorkspace" auditorProcedure (Some (r_object [("customerId", r_uuid)])) ["getCustomerWorkspace"] NoActor [field
      "customerId"];
   query "postgres.beneficiaries" auditorProcedure (Some (r_optional (r_object [("customerId", r_optional r_uuid)]))) ["listPostgresBeneficiaries"]
      NoActor [field "customerId"];
   mutation "postgres.createCustomer" complianceProcedure (Some (r_object [("legalName", r_trimmed 2 255); ("registrationIdentifier", r_trimmed 2
      255)])) ["createPostgresCustomer"] UserActor [whole];
   mutation "postgres.updateCustomerProfile" complianceProcedure (Some (r_object [("customerId", r_uuid); ("archetype", r_optional (r_enum
      ["importer"; "exporter"; "intercompany_rebalancing"; "payroll_operator"])); ("tier", r_optional (r_enum ["smb"; "mid"; "enterprise"]));
      ("country", r_optional (r_enum ["NIGERIA_NGN"; "KENYA_KES"; "SOUTH_AFRICA_ZAR"])); ("useCaseNarrative", r_optional (r_trimmed 20 4000))]))
      ["updatePostgresCustomerProfile"] UserActor [whole];
   mutation "postgres.recordCustomerDestinationCounterparty" complianceProcedure (Some (r_object [("customerId", r_uuid); ("counterpartyName",
      r_trimmed 2 255); ("destinationJurisdiction", r_trimmed 2 120); ("invoiceReference", r_optional (r_trimmed 1 2000))]))
      ["recordCustomerDestinationCounterparty"] UserActor [whole];
   mutation "postgres.decideCustomerUseCaseGate" complianceProcedure (Some (r_object [("customerId", r_uuid); ("decision", r_enum ["approved";
      "blocked"]); ("rationale", r_trimmed 10 4000)])) ["decideCustomerUseCaseGate"] UserActor [whole];
   mutation "postgres.createBeneficiary" complianceProcedure (Some (r_object [("customerId", r_uuid); ("legalName", r_trimmed 2 255); ("countryCode",
      r_string [s_trim; s_length 2; s_upper]); ("bankOrWalletReference", r_trimmed 4 512)])) ["createPostgresBeneficiary"] UserActor [whole];
   mutation "postgres.recordBeneficiaryScreening" complianceProcedure (Some (r_object [("beneficiaryId", r_uuid); ("integrationConnectionId",
      r_uuid); ("correlationId", r_trimmed 8 255); ("screeningState", r_enum ["clear"; "potential_match"; "confirmed_match"; "source_unavailable"]);
      ("providerReference", r_trimmed 3 512); ("sourceVersion", r_trimmed 1 255); ("evidenceSha256", r_sha256); ("screenedAt", r_refine (not_in_future
      now) r_date)])) ["recordPostgresBeneficiaryScreening"] UserActor [whole];
   query "postgres.counterpartyAuthorizations" auditorProcedure None ["listPostgresCounterpartyAuthorizations"] NoActor [];
   mutation "postgres.transitionCounterpartyAuthorization" adminProcedure (Some (r_object [("authorizationId", r_uuid); ("status", r_enum
      ["pending_review"; "verified"; "expired"; "suspended"; "rejected"])])) ["transitionPostgresCounterpartyAuthorization"] UserActor [whole];
   query "postgres.legalEntities" auditorProcedure None ["listPostgresLegalEntities"] NoActor [];
   query "postgres.integrationConnections" auditorProcedure None ["listPostgresIntegrationConnections"] NoActor [];
   query "postgres.corridorPolicies" auditorProcedure None ["listPostgresCorridorPolicies"] NoActor [];
   query "postgres.rateLocks" auditorProcedure None ["listPostgresRateLocks"] NoActor [];
   mutation "postgres.evaluateLiquidityThresholds" treasuryProcedure None ["evaluatePostgresLiquidityThresholds"] UserActor [];
   mutation "postgres.evaluatePaymentFailures" treasuryProcedure None ["evaluatePostgresPaymentFailures"] UserActor []].

Definition postgres_procedures_3 : list procedure :=
  [mutation "postgres.evaluateComplianceFlags" complianceProcedure None ["evaluatePostgresComplianceFlags"] UserActor [];
   query "postgres.complianceAlerts" auditorProcedure (Some (r_optional (r_object [("state", r_optional (r_enum ["open"; "acknowledged"; "escalated";
      "dismissed"])); ("limit", r_optional (r_int (Some 1) (Some 500)))]))) ["listPostgresComplianceAlerts"] NoActor [or_empty];
   mutation "postgres.raiseComplianceAlert" complianceProcedure (Some (r_object [("alertPolicyId", r_uuid); ("severity", r_enum ["low"; "medium";
      "high"; "critical"]); ("sourceReference", r_trimmed 8 512); ("evidence", r_unknown); ("detectedAt", r_date); ("paymentOrderId", r_nullish r_uuid);
      ("customerId", r_nullish r_uuid); ("counterpartyId", r_nullish r_uuid)])) ["raisePostgresComplianceAlert"] UserActor [whole];
   mutation "postgres.acknowledgeComplianceAlert" complianceProcedure (Some (r_object [("alertId", r_uuid); ("note", r_trimmed 8 2000)]))
      ["acknowledgePostgresComplianceAlert"] UserActor [whole];
   mutation "postgres.escalateComplianceAlert" complianceProcedure (Some (r_object [("alertId", r_uuid); ("caseId", r_uuid)]))
      ["escalatePostgresComplianceAlert"] UserActor [whole];
   mutation "postgres.dismissComplianceAlert" complianceProcedure (Some (r_object [("alertId", r_uuid); ("reason", r_trimmed 8 2000)]))
      ["dismissPostgresComplianceAlert"] UserActor [whole];
   query "postgres.fxSpread" auditorProcedure (Some (r_object [("baseAsset", r_enum ["NGN"; "KES"; "ZAR"; "USD"; "USDC"; "USDT"]); ("quoteAsset",
      r_enum ["NGN"; "KES"; "ZAR"; "USD"; "USDC"; "USDT"]); ("windowMinutes", r_optional (r_int (Some 1) (Some 1440)))])) ["computePostgresFxSpread"]
      NoActor [field "baseAsset"; field "quoteAsset"; renamed "windowMinutes" "windowMinutes"];
   query "postgres.alertPolicies" auditorProcedure None ["listPostgresAlertPolicies"] NoActor [];
   mutation "postgres.createIntegrationConnection" adminProcedure (Some (r_object [("counterpartyId", r_uuid); ("category", r_enum ["payment_rail";
      "fx_rate"; "stablecoin_market_data"; "kyc_kyb"; "sanctions"; "chain_analytics"; "notification"; "regulatory_submission"]); ("environment", r_enum
      ["sandbox"; "production"]); ("documentationUrl", r_url)])) ["createPostgresIntegrationConnection"] UserActor [whole];
   query "postgres.integrationCredentialStatus" adminProcedure None ["listPostgresIntegrationCredentialStatus"] NoActor [];
   query "postgres.integrationCredentialAuditTrail" adminProcedure (Some (r_object [("integrationConnectionId", r_uuid); ("limit", r_optional (r_int
      (Some 1) (Some 200)))])) ["listPostgresCredentialAuditTrail"] NoActor [whole];
   query "postgres.serviceStatus" auditorProcedure None ["collectAllServiceStatuses"] NoActor [];
   query "postgres.serviceHealthHistory" auditorProcedure (Some (r_optional (r_object [("sinceMinutes", r_optional (r_int (Some 1) (Some 43200)));
      ("service", r_optional (r_string []))]))) ["listServiceHealthHistory"] NoActor [or_empty];
   query "postgres.serviceAvailabilitySummary" auditorProcedure (Some (r_optional (r_object [("sinceMinutes", r_optional (r_int (Some 1) (Some
      43200)))]))) ["summariseServiceAvailability"] NoActor [field_or "sinceMinutes" 60];
   query "postgres.serviceHealthSlo" auditorProcedure (Some (r_optional (r_object [("sinceMinutes", r_optional (r_int (Some 60) (Some 43200)));
      ("targetAvailability", r_optional r_availability); ("minimumSamples", r_optional (r_int (Some 1) (Some 20000)))]))) ["evaluateServiceHealthSlo"]
      NoActor [or_empty];
   mutation "postgres.captureServiceHealthSample" adminProcedure None ["collectAllServiceStatuses"; "recordServiceHealthSamples"] NoActor [];
   mutation "postgres.configureIntegrationCredential" adminProcedure (Some (r_object [("integrationConnectionId", r_uuid); ("secretReference",
      r_trimmed 3 64); ("endpointUrl", r_url)])) ["configurePostgresIntegrationCredential"] UserActor [whole];
   mutation "postgres.activateIntegrationConnection" adminProcedure (Some (r_object [("integrationConnectionId", r_uuid)]))
      ["listPostgresIntegrationCredentialStatus"; "probeProviderEndpoint"; "activatePostgresIntegrationConnection"] UserActor [whole];
   mutation "postgres.suspendIntegrationConnection" adminProcedure (Some (r_object [("integrationConnectionId", r_uuid); ("reason", r_trimmed 10
      500)])) ["suspendPostgresIntegrationConnection"] UserActor [whole];
   mutation "postgres.createCorridorPolicy" complianceProcedure (Some (r_object [("corridor", r_enum ["NIGERIA_NGN"; "KENYA_KES";
      "SOUTH_AFRICA_ZAR"]); ("regulator", r_enum ["CBN"; "CBK"; "SARB"]); ("policyVersion", r_trimmed 1 64); ("effectiveFrom", r_date); ("effectiveTo",
      r_optional r_date); ("requiresTravelRule", r_boolean); ("requiresAuthorisedFxIntermediary", r_boolean); ("policyDocumentUri", r_url)]))
      ["createPostgresCorridorPolicy"] UserActor [whole];
   query "postgres.paymentOrders" auditorProcedure None ["listPostgresPaymentOrders"] NoActor [];
   query "postgres.paymentLegs" auditorProcedure (Some (r_optional (r_object [("paymentOrderId", r_optional r_uuid)]))) ["listPostgresPaymentLegs"]
      NoActor [field "paymentOrderId"];
   mutation "postgres.expireRateLocks" treasuryProcedure None ["expirePostgresRateLocks"] LegacyActor [];
   mutation "postgres.createPaymentOrder" treasuryProcedure (Some (r_object [("idempotencyKey", r_string [s_min 8; s_max 120]); ("customerId",
      r_uuid); ("beneficiaryId", r_uuid); ("rateLockId", r_uuid); ("sourceAmount", r_string [s_test (is_decimal 8)])])) ["createPostgresPaymentOrder"]
      LegacyActor [whole];
   mutation "postgres.createPaymentLeg" treasuryProcedure (Some (r_object [("paymentOrderId", r_uuid); ("sequenceNumber", r_int (Some 1) (Some 20));
      ("legKind", r_string [s_min 3; s_max 60]); ("counterpartyId", r_uuid)])) ["createPostgresPaymentLeg"] LegacyActor [whole];
   mutation "postgres.transitionPaymentOrder" treasuryProcedure (Some (r_object [("paymentOrderId", r_uuid); ("status", r_enum
      ["pending_policy_decision"; "blocked"; "manual_review"; "approved"; "cancelled"]); ("reason", r_string [s_min 10; s_max 2000])]))
      ["transitionPostgresPaymentOrder"] LegacyActor [whole];
   mutation "postgres.transitionPaymentLeg" treasuryProcedure (Some (r_object [("paymentLegId", r_uuid); ("status", r_enum
      ["pending_policy_decision"; "blocked"; "manual_review"; "approved"; "cancelled"]); ("reason", r_string [s_min 10; s_max 2000])]))
      ["transitionPostgresPaymentLeg"] LegacyActor [whole];
   mutation "postgres.createRateLock" treasuryProcedure (Some (r_object [("marketObservationId", r_uuid); ("corridor", r_enum ["NIGERIA_NGN";
      "KENYA_KES"; "SOUTH_AFRICA_ZAR"]); ("expiresAt", r_date)])) ["createPostgresRateLock"] LegacyActor [whole];
   mutation "postgres.cancelRateLock" treasuryProcedure (Some (r_object [("rateLockId", r_uuid)])) ["cancelPostgresRateLock"] UserActor [field
      "rateLockId"];
   mutation "postgres.createRegulatoryDeadline" complianceProcedure (Some (r_object [("regulator", r_enum ["CBN"; "CBK"; "SARB"]); ("corridor",
      r_enum ["NIGERIA_NGN"; "KENYA_KES"; "SOUTH_AFRICA_ZAR"]); ("title", r_trimmed 4 255); ("dueAt", r_date); ("sourceReference", r_trimmed 4 512)]))
      ["createPostgresRegulatoryDeadline"] UserActor [whole];
   mutation "postgres.evaluateRegulatoryDeadlines" adminProcedure None ["evaluatePostgresRegulatoryDeadlines"] UserActor [];
   mutation "postgres.createAlertPolicy" adminProcedure (Some (r_object [("alertType", r_enum ["liquidity_threshold"; "payment_failure";
      "compliance_flag"; "regulatory_deadline"]); ("corridor", r_optional (r_enum ["NIGERIA_NGN"; "KENYA_KES"; "SOUTH_AFRICA_ZAR"])); ("threshold",
      r_record)])) ["createPostgresAlertPolicy"] UserActor [whole];
   query "postgres.liquidityPositions" auditorProcedure None ["listPostgresLiquidityPositions"] NoActor [];
   query "postgres.marketObservations" auditorProcedure None ["listPostgresMarketObservations"] NoActor [];
   query "postgres.counterpartyRiskAssessments" auditorProcedure None ["listPostgresCounterpartyRiskAssessments"] NoActor [];
   query "postgres.kycDocuments" auditorProcedure None ["listPostgresKycDocuments"] NoActor [];
   mutation "postgres.createKycDocumentUploadIntent" complianceProcedure (Some (r_object [("customerId", r_uuid); ("documentType", r_enum
      ["registration_certificate"; "identity_document"; "proof_of_address"; "beneficial_ownership"; "source_of_funds"; "other"; "ng_nin_reference";
      "ng_cac_registration"; "ng_tax_identifier"; "ng_director_identity"; "ke_national_id_or_passport"; "ke_business_registration_or_cr12";
      "ke_kra_pin"; "ke_beneficial_ownership"; "za_cipc_registration"; "za_sars_tax_reference"; "za_director_identity"]); ("originalFilename", r_trimmed
      1 255); ("mimeType", r_enum ["application/pdf"; "image/jpeg"; "image/png"; "image/webp"; "image/tiff"]); ("sizeBytes", r_int (Some 1) (Some
      26214400)); ("contentSha256", r_sha256)])) ["createPostgresKycDocumentUploadIntent"] UserActor [whole];
   mutation "postgres.finalizeKycDocumentUpload" complianceProcedure (Some (r_object [("uploadIntentId", r_uuid)]))
      ["finalizePostgresKycDocumentUpload"] UserActor [field "uploadIntentId"];
   mutation "postgres.updateKycDocumentReview" complianceProcedure (Some (r_object [("documentId", r_uuid); ("reviewStatus", r_enum ["under_review";
      "approved"; "rejected"; "expired"]); ("reviewNote", r_trimmed 4 4000)])) ["updatePostgresKycDocumentReview"] UserActor [whole];
   query "postgres.complianceCases" auditorProcedure None ["listPostgresComplianceCases"] NoActor []].

Definition postgres_procedures_4 : list procedure :=
  [query "postgres.sarStrFilings" auditorProcedure None ["listPostgresSarStrFilings"] NoActor [];
   query "postgres.regulatoryReports" auditorProcedure None ["listPostgresRegulatoryReports"] NoActor [];
   query "postgres.regulatoryDeadlines" auditorProcedure None ["listPostgresRegulatoryDeadlines"] NoActor [];
   query "postgres.notificationDeliveries" auditorProcedure None ["listPostgresNotificationDeliveries"] NoActor [];
   query "postgres.documentAnalysisJobs" auditorProcedure None ["listPostgresDocumentAnalysisJobs"] NoActor [];
   query "postgres.documentAnalysisEvidence" auditorProcedure None ["listPostgresDocumentAnalysisEvidence"] NoActor [];
   query "postgres.reviewerDecisions" auditorProcedure None ["listPostgresReviewerDecisions"] NoActor [];
   query "postgres.activeVerificationConsents" auditorProcedure None ["listPostgresActiveVerificationConsents"] NoActor [];
   query "postgres.analysisReadyDocuments" auditorProcedure None ["listPostgresAnalysisReadyDocuments"] NoActor [];
   mutation "postgres.createVerificationConsent" complianceProcedure (Some (r_object [("scope", r_enum ["kyc"; "kyb"]); ("subjectReference",
      r_trimmed 3 255); ("consentVersion", r_trimmed 1 128); ("purpose", r_trimmed 10 1000); ("grantedAt", r_date); ("expiresAt", r_optional r_date)]))
      ["createPostgresVerificationConsent"] UserActor [whole];
   mutation "postgres.createDocumentAnalysisJob" complianceProcedure (Some (r_object [("consentId", r_uuid); ("kycDocumentId", r_optional r_uuid);
      ("caseKind", r_enum ["kyc"; "kyb"]); ("documentClass", r_trimmed 3 128); ("sourceSha256", r_sha256); ("sourceUri", r_url); ("mimeType", r_enum
      ["application/pdf"; "image/jpeg"; "image/png"; "image/webp"; "image/tiff"])])) ["resolveSelectedModel"; "createPostgresDocumentAnalysisJob"]
      UserActor [whole];
   mutation "postgres.persistDocumentAnalysisEvidence" complianceProcedure (Some (r_object [("analysisJobId", r_uuid); ("kind", r_enum ["ocr";
      "document_structure"; "visual_consistency"; "presentation_attack_risk"; "engine_unavailable"]); ("disposition", r_enum ["review_required";
      "insufficient_evidence"; "unavailable"]); ("engineName", r_trimmed 2 128); ("engineVersion", r_trimmed 1 128); ("modelTag", r_optional (r_string
      [s_trim; s_max 128])); ("modelDigest", r_optional (r_string [s_trim; s_max 256])); ("promptPolicyVersion", r_optional (r_string [s_trim; s_max
      128])); ("evidenceSha256", r_optional r_sha256); ("signals", r_array 0 (Some 100) r_unknown); ("limitations", r_array 1 (Some 50) (r_trimmed 1
      1200))])) ["persistPostgresDocumentAnalysisEvidence"] UserActor [whole];
   mutation "postgres.createReviewerDecision" complianceProcedure (Some (r_object [("analysisJobId", r_uuid); ("disposition", r_enum ["approved";
      "rejected"; "needs_information"; "escalated"]); ("rationale", r_trimmed 10 4000)])) ["createPostgresReviewerDecision"] UserActor [whole];
   mutation "postgres.disposeComplianceCase" complianceProcedure (Some (r_object [("complianceCaseId", r_uuid); ("status", r_enum ["under_review";
      "cleared"; "escalated"; "reported"; "closed"]); ("decisionReason", r_trimmed 20 4000)])) ["disposeComplianceCase"] UserActor [whole];
   mutation "postgres.createComplianceCase" complianceProcedure (Some (r_object [("caseType", r_enum ["kyc"; "sanctions"; "transaction_monitoring";
      "travel_rule"; "counterparty"; "sar_str"]); ("severity", r_enum ["low"; "medium"; "high"; "critical"]); ("sourceReference", r_trimmed 4 512);
      ("decisionReason", r_optional (r_trimmed 4 4000))])) ["createPostgresComplianceCase"] UserActor [whole];
   mutation "postgres.createSarStrFiling" complianceOnlyProcedure (Some (r_object [("complianceCaseId", r_uuid); ("corridor", r_enum ["NIGERIA_NGN";
      "KENYA_KES"; "SOUTH_AFRICA_ZAR"]); ("filingType", r_enum ["sar"; "str"]); ("filingAuthority", r_trimmed 2 255); ("sourceReference", r_trimmed 4
      512)])) ["createPostgresSarStrFiling"] LegacyActor [whole];
   mutation "postgres.transitionSarStrFiling" complianceOnlyProcedure (Some (r_object [("filingId", r_uuid); ("status", r_enum ["under_review";
      "approved_for_submission"; "pending_submission"; "submitted"; "submission_unavailable"; "rejected"]); ("submissionReference", r_optional
      (r_trimmed 1 255))])) ["transitionPostgresSarStrFiling"] UserActor [whole];
   mutation "postgres.registerLegalEntity" adminProcedure (Some (r_object [("legalName", r_trimmed 3 255); ("jurisdiction", r_enum ["Nigeria";
      "Kenya"; "South Africa"]); ("registrationIdentifier", r_trimmed 3 128)])) ["registerPostgresLegalEntity"] LegacyActor [whole];
   mutation "postgres.createRegulatoryReport" complianceProcedure (Some (r_object [("regulator", r_enum ["CBN"; "CBK"; "SARB"]); ("corridor", r_enum
      ["NIGERIA_NGN"; "KENYA_KES"; "SOUTH_AFRICA_ZAR"]); ("reportType", r_trimmed 2 255); ("periodStart", r_date); ("periodEnd", r_date);
      ("legalEntityId", r_uuid)])) ["createPostgresRegulatoryReport"] UserActor [whole];
   mutation "postgres.transitionRegulatoryReport" complianceProcedure (Some (r_object [("reportId", r_uuid); ("status", r_enum ["under_review";
      "approved"; "pending_submission"; "submitted"; "rejected"]); ("statusReason", r_trimmed 4 4000); ("artifactUri", r_optional r_url);
      ("evidenceManifest", r_optional r_unknown); ("submissionReference", r_optional (r_trimmed 1 255))])) ["transitionPostgresRegulatoryReport"]
      UserActor [whole];
   mutation "postgres.recordLiquidityPosition" treasuryProcedure (Some (r_object [("corridor", r_enum ["NIGERIA_NGN"; "KENYA_KES";
      "SOUTH_AFRICA_ZAR"]); ("currency", r_enum ["NGN"; "KES"; "ZAR"; "USD"; "USDC"; "USDT"]); ("accountKind", r_enum ["liquidity_pool"; "nostro";
      "vostro"; "prefunding"; "custody_wallet"]); ("accountReference", r_trimmed 2 255); ("availableAmount", r_trimmed 1 64); ("reservedAmount",
      r_trimmed 1 64); ("sourceReference", r_trimmed 4 512); ("reconciledAt", r_date)])) ["recordPostgresLiquidityPosition"] UserActor [whole];
   mutation "postgres.recordMarketObservation" treasuryProcedure (Some (r_refine assets_differ (r_object [("integrationConnectionId", r_uuid);
      ("baseAsset", r_enum ["NGN"; "KES"; "ZAR"; "USD"; "USDC"; "USDT"]); ("quoteAsset", r_enum ["NGN"; "KES"; "ZAR"; "USD"; "USDC"; "USDT"]); ("rate",
      r_trimmed 1 64); ("observedAt", r_date); ("sourceReference", r_url)]))) ["recordPostgresMarketObservation"] UserActor [whole];
   query "postgres.treasuryRecommendations" auditorProcedure None ["listPostgresTreasuryRecommendations"] NoActor [];
   query "postgres.treasuryBufferPolicies" auditorProcedure None ["listPostgresTreasuryBufferPolicies"] NoActor [];
   mutation "postgres.createTreasuryRecommendation" treasuryProcedure (Some (r_object [("bufferPolicyId", r_uuid); ("reconciledAvailableBalance",
      r_trimmed 1 64); ("reconciledAt", r_date); ("balanceSourceReference", r_trimmed 4 512); ("verifiedNearTermFundingGap", r_trimmed 1 64);
      ("fundingGapSourceReference", r_trimmed 4 512); ("expiresAt", r_date)])) ["createPostgresTreasuryRecommendation"] UserActor [whole];
   mutation "postgres.decideTreasuryRecommendation" treasuryProcedure (Some (r_object [("recommendationId", r_uuid); ("decision", r_enum ["approved";
      "rejected"]); ("decisionReason", r_trimmed 4 4000)])) ["decidePostgresTreasuryRecommendation"] UserActor [whole];
   mutation "postgres.createCounterpartyRiskAssessment" complianceProcedure (Some (r_object [("counterpartyId", r_uuid); ("riskLevel", r_enum ["low";
      "medium"; "high"; "critical"]); ("riskScore", r_trimmed 1 32); ("riskFactors", r_unknown); ("evidenceManifest", r_unknown); ("assessedAt",
      r_date); ("nextReviewAt", r_date)])) ["createPostgresCounterpartyRiskAssessment"] UserActor [whole];
   mutation "postgres.escalateCounterpartyRiskAssessment" adminProcedure (Some (r_object [("assessmentId", r_uuid); ("reason", r_trimmed 4 4000)]))
      ["escalatePostgresCounterpartyRiskAssessment"] UserActor [whole];
   mutation "postgres.createCounterparty" adminProcedure (Some (r_object [("legalName", r_trimmed 2 255); ("counterpartyType", r_enum
      ["licensed_psp"; "correspondent_bank"; "stablecoin_provider"; "fx_liquidity_provider"; "custody_provider"; "kyc_provider"; "sanctions_provider";
      "chain_analytics_provider"; "notification_provider"; "regulatory_submission_provider"; "travel_rule_provider"; "adverse_media_provider"]);
      ("jurisdiction", r_trimmed 2 64)])) ["createPostgresCounterparty"] UserActor [whole];
   query "postgres.liquidityProviders" auditorProcedure None ["listLiquidityProviders"] NoActor [];
   query "postgres.liquidityProviderWorkspace" auditorProcedure (Some (r_object [("counterpartyId", r_uuid)])) ["getLiquidityProviderWorkspace"]
      NoActor [field "counterpartyId"];
   mutation "postgres.updateCounterpartyLpArchetype" complianceProcedure (Some (r_object [("counterpartyId", r_uuid); ("archetype", r_enum
      ["principal_market_maker"; "regional_liquidity_desk"; "stablecoin_fiat_conversion_desk"; "otc_counterparty"])])) ["updateCounterpartyLpArchetype"]
      UserActor [whole];
   mutation "postgres.recordCounterpartyEvidenceItem" complianceProcedure (Some (r_object [("counterpartyId", r_uuid); ("evidenceType", r_enum
      ["mm_otc_licence"; "incountry_vasp_licence"; "beneficial_ownership_disclosure"; "sanctions_pep_attestation"; "audited_financials";
      "aml_cft_policy"; "travel_rule_policy"; "mlro_appointment_letter"; "market_microstructure_policy"; "reference_list"; "insurance_certificate";
      "regulatory_disciplinary_history"]); ("evidenceUri", r_url); ("note", r_optional (r_trimmed 1 2000))])) ["recordCounterpartyEvidenceItem"]
      UserActor [whole];
   mutation "postgres.decideFinancialSoundnessGate" treasuryProcedure (Some (r_object [("onboardingId", r_uuid); ("decision", r_enum ["approved";
      "blocked"]); ("rationale", r_trimmed 10 4000)])) ["decideFinancialSoundnessGate"] UserActor [whole];
   query "postgres.bankingPartners" auditorProcedure None ["listBankingPartners"] NoActor [];
   query "postgres.bankingPartnerWorkspace" auditorProcedure (Some (r_object [("counterpartyId", r_uuid)])) ["getBankingPartnerWorkspace"] NoActor
      [field "counterpartyId"];
   mutation "postgres.updateCounterpartyBankArchetype" complianceProcedure (Some (r_object [("counterpartyId", r_uuid); ("archetype", r_enum
      ["correspondent_bank"; "receiving_bank"; "settlement_bank"; "custodian_bank"; "issuing_bank"])])) ["updateCounterpartyBankArchetype"] UserActor
      [whole];
   mutation "postgres.recordBankEvidenceItem" complianceProcedure (Some (r_object [("counterpartyId", r_uuid); ("evidenceType", r_enum
      ["banking_licence"; "aml_cft_attestation"; "correspondent_agreement_template"; "nostro_account_confirmation"; "sanctions_policy";
      "travel_rule_readiness_attestation"; "swift_message_support_confirmation"; "fee_schedule"; "audit_reports"; "regulator_no_objection_letter";
      "cyber_bcm_evidence"; "settlement_cutoff_calendar"]); ("evidenceUri", r_url); ("note", r_optional (r_trimmed 1 2000))]))
      ["recordBankEvidenceItem"] UserActor [whole];
   mutation "postgres.decideCryptoPostureGate" complianceProcedure (Some (r_object [("onboardingId", r_uuid); ("decision", r_enum ["approved";
      "blocked"]); ("rationale", r_trimmed 10 4000)])) ["decideCryptoPostureGate"] UserActor [whole];
   query "postgres.payoutPsps" auditorProcedure None ["listPayoutPsps"] NoActor []].

Definition postgres_procedures_5 : list procedure :=
  [query "postgres.payoutPspWorkspace" auditorProcedure (Some (r_object [("counterpartyId", r_uuid)])) ["getPayoutPspWorkspace"] NoActor [field
      "counterpartyId"];
   mutation "postgres.updateCounterpartyPspArchetype" complianceProcedure (Some (r_object [("counterpartyId", r_uuid); ("archetype", r_enum
      ["bank_instant_rail"; "mobile_money"; "virtual_card_issuer"; "otc_cash_pickup"; "aggregator_psp"])])) ["updateCounterpartyPspArchetype"] UserActor
      [whole];
   mutation "postgres.recordPspEvidenceItem" complianceProcedure (Some (r_object [("counterpartyId", r_uuid); ("evidenceType", r_enum ["psp_licence";
      "mobile_money_authorisation"; "aggregator_licence"; "sanctions_pep_attestation"; "aml_cft_policy"; "beneficial_ownership_disclosure";
      "cutoff_settlement_calendar"; "fee_schedule_fx_margin"; "reconciliation_file_format_spec"; "dispute_recall_channel_sla"; "audited_financials";
      "cyber_bcp_attestation"]); ("evidenceUri", r_url); ("note", r_optional (r_trimmed 1 2000))])) ["recordPspEvidenceItem"] UserActor [whole];
   mutation "postgres.decidePspLicenceRailGate" complianceProcedure (Some (r_object [("onboardingId", r_uuid); ("decision", r_enum ["approved";
      "blocked"]); ("rationale", r_trimmed 10 4000)])) ["decidePspGate"] UserActor [extended "gate" "licence_rail_coverage"];
   mutation "postgres.decidePspSettlementCutoffGate" treasuryProcedure (Some (r_object [("onboardingId", r_uuid); ("decision", r_enum ["approved";
      "blocked"]); ("rationale", r_trimmed 10 4000)])) ["decidePspGate"] UserActor [extended "gate" "settlement_cutoff_validation"];
   mutation "postgres.decidePspBoundedLiveGate" complianceProcedure (Some (r_object [("onboardingId", r_uuid); ("decision", r_enum ["approved";
      "blocked"]); ("rationale", r_trimmed 10 4000)])) ["decidePspGate"] UserActor [extended "gate" "bounded_live"];
   mutation "postgres.decidePspFailoverGate" adminProcedure (Some (r_object [("onboardingId", r_uuid); ("decision", r_enum ["approved"; "blocked"]);
      ("rationale", r_trimmed 10 4000)])) ["decidePspGate"] UserActor [extended "gate" "failover_rail"];
   query "postgres.stablecoinIssuers" auditorProcedure None ["listStablecoinIssuers"] NoActor [];
   query "postgres.stablecoinIssuerWorkspace" auditorProcedure (Some (r_object [("counterpartyId", r_uuid)])) ["getStablecoinIssuerWorkspace"]
      NoActor [field "counterpartyId"];
   mutation "postgres.updateCounterpartyStablecoinIssuerArchetype" complianceProcedure (Some (r_object [("counterpartyId", r_uuid); ("archetype",
      r_enum ["regulated_issuer"; "open_issuer"; "network"])])) ["updateCounterpartyStablecoinIssuerArchetype"] UserActor [whole];
   mutation "postgres.recordStablecoinIssuerEvidenceItem" complianceProcedure (Some (r_object [("counterpartyId", r_uuid); ("evidenceType", r_enum
      ["issuer_regulatory_licence"; "reserve_attestation"; "reserve_asset_composition"; "aml_cft_policy"; "sanctions_ofac_attestation";
      "blockchain_finality_posture"; "custody_provider_licence_insurance"; "network_fee_schedule"; "principal_beneficial_ownership_kyb";
      "audited_financials"; "smart_contract_audit"]); ("evidenceUri", r_url); ("note", r_optional (r_trimmed 1 2000))]))
      ["recordStablecoinIssuerEvidenceItem"] UserActor [whole];
   mutation "postgres.decideStablecoinIssuerLicenceReservePostureGate" complianceOrTreasuryProcedure (Some (r_object [("onboardingId", r_uuid);
      ("decision", r_enum ["approved"; "blocked"]); ("rationale", r_trimmed 10 4000)])) ["decideStablecoinIssuerGate"] UserActor [extended "gate"
      "licence_reserve_posture"];
   mutation "postgres.decideStablecoinIssuerMintRedeemGate" treasuryProcedure (Some (r_object [("onboardingId", r_uuid); ("decision", r_enum
      ["approved"; "blocked"]); ("rationale", r_trimmed 10 4000)])) ["decideStablecoinIssuerGate"] UserActor [extended "gate"
      "mint_redeem_technical_proof"];
   mutation "postgres.decideStablecoinIssuerChainReadinessGate" adminProcedure (Some (r_object [("onboardingId", r_uuid); ("decision", r_enum
      ["approved"; "blocked"]); ("rationale", r_trimmed 10 4000)])) ["decideStablecoinIssuerGate"] UserActor [extended "gate" "chain_readiness"];
   mutation "postgres.decideStablecoinIssuerOperatingPostureGate" complianceOrTreasuryProcedure (Some (r_object [("onboardingId", r_uuid);
      ("decision", r_enum ["approved"; "blocked"]); ("rationale", r_trimmed 10 4000)])) ["decideStablecoinIssuerGate"] UserActor [extended "gate"
      "operating_posture"];
   query "postgres.complianceVendors" auditorProcedure None ["listComplianceVendors"] NoActor [];
   query "postgres.complianceVendorWorkspace" auditorProcedure (Some (r_object [("counterpartyId", r_uuid)])) ["getComplianceVendorWorkspace"]
      NoActor [field "counterpartyId"];
   mutation "postgres.updateCounterpartyComplianceVendorArchetype" complianceProcedure (Some (r_object [("counterpartyId", r_uuid); ("archetype",
      r_enum ["kyc_kyb_platform"; "sanctions_screening"; "chain_analytics"; "travel_rule_vendor"; "adverse_media"])]))
      ["updateCounterpartyComplianceVendorArchetype"] UserActor [whole];
   mutation "postgres.recordComplianceVendorEvidenceItem" complianceProcedure (Some (r_object [("counterpartyId", r_uuid); ("evidenceType", r_enum
      ["soc2_or_iso27001_report"; "information_security_policy"; "privacy_policy_dpa_template"; "penetration_test_summary"; "insurance_certificate";
      "beneficial_ownership_disclosure"; "vendor_sanctions_compliance_posture"; "list_data_sourcing_summary"; "sub_processor_list";
      "sla_template_uptime_commitment"]); ("evidenceUri", r_url); ("note", r_optional (r_trimmed 1 2000))])) ["recordComplianceVendorEvidenceItem"]
      UserActor [whole];
   mutation "postgres.decideComplianceVendorSecurityPostureGate" complianceProcedure (Some (r_object [("onboardingId", r_uuid); ("decision", r_enum
      ["approved"; "blocked"]); ("rationale", r_trimmed 10 4000)])) ["decideComplianceVendorGate"] UserActor [extended "gate" "security_posture"];
   mutation "postgres.decideComplianceVendorCoverageFeasibilityGate" complianceProcedure (Some (r_object [("onboardingId", r_uuid); ("decision",
      r_enum ["approved"; "blocked"]); ("rationale", r_trimmed 10 4000)])) ["decideComplianceVendorGate"] UserActor [extended "gate"
      "coverage_feasibility"];
   mutation "postgres.decideComplianceVendorFalsePositiveCeilingGate" complianceProcedure (Some (r_object [("onboardingId", r_uuid); ("decision",
      r_enum ["approved"; "blocked"]); ("rationale", r_trimmed 10 4000)])) ["decideComplianceVendorGate"] UserActor [extended "gate"
      "false_positive_ceiling"];
   mutation "postgres.decideComplianceVendorAnnualReviewGate" complianceProcedure (Some (r_object [("onboardingId", r_uuid); ("decision", r_enum
      ["approved"; "blocked"]); ("rationale", r_trimmed 10 4000)])) ["decideComplianceVendorGate"] UserActor [extended "gate" "annual_review"];
   mutation "postgres.createCounterpartyAuthorization" adminProcedure (Some (r_object [("counterpartyId", r_uuid); ("regulator", r_enum ["CBN";
      "CBK"; "SARB"; "SEC"; "CMA"; "FSCA"; "FIC"]); ("licenceReference", r_trimmed 1 255); ("scopeDescription", r_string [s_trim; s_min 10]);
      ("evidenceUri", r_url); ("validFrom", r_date); ("validTo", r_optional r_date); ("status", r_default (Text "pending_review") (r_enum
      ["pending_review"; "verified"; "expired"; "suspended"; "rejected"]))])) ["createPostgresCounterpartyAuthorization"] UserActor [whole]].

Definition contracts_procedures : list procedure :=
  [mutation "contracts.parseGoPaymentOrderValidated" complianceProcedure (Some r_unknown) ["parseGoPaymentOrderValidatedEvent"] NoActor [whole];
   mutation "contracts.parseRustPolicyDecision" complianceProcedure (Some r_unknown) ["parseRustNonExecutablePolicyDecisionEvent"] NoActor [whole];
   mutation "contracts.parsePythonBronzeManifest" complianceProcedure (Some r_unknown) ["parsePythonBronzeBatchManifest"] NoActor [whole];
   mutation "contracts.parseGoAuditTrail" complianceProcedure (Some r_unknown) ["parseGoAuditTrailEnvelope"] NoActor [whole];
   mutation "contracts.parseRustMonitoringResult" complianceProcedure (Some r_unknown) ["parseRustMonitoringResult"] NoActor [whole];
   mutation "contracts.parseRustCounterpartyRisk" complianceProcedure (Some r_unknown) ["parseRustCounterpartyRisk"] NoActor [whole];
   mutation "contracts.parsePythonAssembledReport" complianceProcedure (Some r_unknown) ["parsePythonAssembledReport"] NoActor [whole];
   mutation "contracts.parsePythonStablecoinExposure" complianceProcedure (Some r_unknown) ["parsePythonStablecoinExposure"] NoActor [whole];
   mutation "contracts.parseRustLedgerValidation" complianceProcedure (Some r_unknown) ["parseRustLedgerValidation"] NoActor [whole];
   mutation "contracts.parseRustLedgerReconciliation" complianceProcedure (Some r_unknown) ["parseRustLedgerReconciliation"] NoActor [whole];
   query "contracts.serviceConfiguration" auditorProcedure None ["describeServiceConfiguration"] NoActor [];
   mutation "contracts.evaluateMonitoringViaService" complianceProcedure (Some ((r_service monitoringInputSchema))) ["evaluateMonitoringViaService"]
      NoActor [whole];
   mutation "contracts.assessCounterpartyRiskViaService" complianceProcedure (Some ((r_service counterpartyRiskInputSchema)))
      ["assessCounterpartyRiskViaService"] NoActor [whole];
   mutation "contracts.validateLedgerPostingsViaService" complianceProcedure (Some ((r_service (Zod.z_array 1 ledgerPostingSchema))))
      ["validateLedgerPostingsViaService"] NoActor [whole];
   mutation "contracts.reconcileLedgerProjectionViaService" complianceProcedure (Some ((r_service ledgerReconciliationInputSchema)))
      ["reconcileLedgerProjectionViaService"] NoActor [whole]].

Definition procedures : list procedure := (system_procedures ++ auth_procedures ++ postgres_procedures_1 ++ postgres_procedures_2 ++ postgres_procedures_3 ++ postgres_procedures_4 ++ postgres_procedures_5 ++ contracts_procedures)%list.

(** ** Serving a request *)

Inductive refusal : Type := NotFound | MethodNotSupported | Forbidden | BadRequest.
(** What the body is called with. *)
Inductive caller : Type :=
  | Nobody
  | Acting (a : actor)
  | Subject (openId : string).
Inductive outcome : Type :=
  | Refused (r : refusal)
  | Invoked (calls : list string) (c : caller) (arguments : list value).

Definition user_actor (u : platform_user) : actor := mk_actor (pi_openId (pu_identity u)) (pu_role u).
(** [legacyActor] refuses the roles of external stakeholders. *)
Definition legacyActor (u : platform_user) : option actor :=
  if includes legacyOperatingRoles (pu_role u) then Some (user_actor u) else None.
Definition caller_of (form : actor_form) (ctx : trpc_context) : option caller :=
  match form, cx_user ctx with
  | NoActor, _ => Some Nobody
  | UserActor, Some u => Some (Acting (user_actor u))
  | LegacyActor, Some u => Acting <$> legacyActor u
  | UserSubject, Some u => Some (Subject (pi_openId (pu_identity u)))
  | _, None => None
  end.

Definition find_procedure (path : string) : option procedure := List.find (λ p, bool_decide (p_path p = path)) procedures.
Definition serve (ctx : trpc_context) (path : string) (as_mutation : bool) (raw : option json) : outcome :=
  match find_procedure path with
  | None => Refused NotFound
  | Some p =>
      if negb (Bool.eqb (p_mutation p) as_mutation) then Refused MethodNotSupported
      else if negb (passes_guard (p_guard p) ctx) then Refused Forbidden
      else
        match (match p_input p with Some s => s raw | None => Some Undefined end) with
        | None => Refused BadRequest
        | Some v =>
            match caller_of (p_actor p) ctx with
            | None => Refused Forbidden
            | Some c => Invoked (p_calls p) c ((λ f, f v) <$> p_arguments p)
            end
        end
  end.
End procedures.
