(* ===== verification/AccessMatrix.v ===== *)
(** * Who may do what

    The access matrix of the application: for every procedure of the router,
    by its path, whether it reads or writes and the roles that may call it.
    [authority_rows] is the matrix the repository documents in
    src/apps/control-plane/docs/role-authority-matrix.md, row by row, with the
    procedures that carry out the action of each row. Neither is computed from
    the guards of Router.v, which RouterProps.v compares with them. *)

From S2P Require Import Prelude Js Rows.

Local Open Scope string_scope.

(** Read by anyone, signed in or not. *)
Definition public_reads : list string :=
  ["system.health"; "auth.me"; "auth.pendingAccessStatus"].
(** Read by the four operator roles. *)
Definition operator_reads : list string :=
  ["postgres.readiness"; "postgres.dashboardSnapshot"; "postgres.cutoverReadiness"; "postgres.cbnSandboxDossiers"; "postgres.vaspRegulatoryProfiles";
   "postgres.vaspTravelRuleAssessments"; "postgres.vaspSupervisoryReadiness"; "postgres.readinessAssurance"; "postgres.assessReadinessAssurance";
   "postgres.cbnSandboxReadiness"; "postgres.cbnSandboxLatestEvidenceAssessment"; "postgres.counterparties"; "postgres.counterpartyOnboardings";
   "postgres.customers"; "postgres.customerWorkspace"; "postgres.beneficiaries"; "postgres.counterpartyAuthorizations"; "postgres.legalEntities";
   "postgres.integrationConnections"; "postgres.corridorPolicies"; "postgres.rateLocks"; "postgres.complianceAlerts"; "postgres.fxSpread";
   "postgres.alertPolicies"; "postgres.serviceStatus"; "postgres.serviceHealthHistory"; "postgres.serviceAvailabilitySummary";
   "postgres.serviceHealthSlo"; "postgres.paymentOrders"; "postgres.paymentLegs"; "postgres.liquidityPositions"; "postgres.marketObservations";
   "postgres.counterpartyRiskAssessments"; "postgres.kycDocuments"; "postgres.complianceCases"; "postgres.sarStrFilings";
   "postgres.regulatoryReports"; "postgres.regulatoryDeadlines"; "postgres.notificationDeliveries"; "postgres.documentAnalysisJobs";
   "postgres.documentAnalysisEvidence"; "postgres.reviewerDecisions"; "postgres.activeVerificationConsents"; "postgres.analysisReadyDocuments";
   "postgres.treasuryRecommendations"; "postgres.treasuryBufferPolicies"; "postgres.liquidityProviders"; "postgres.liquidityProviderWorkspace";
   "postgres.bankingPartners"; "postgres.bankingPartnerWorkspace"; "postgres.payoutPsps"; "postgres.payoutPspWorkspace"; "postgres.stablecoinIssuers";
   "postgres.stablecoinIssuerWorkspace"; "postgres.complianceVendors"; "postgres.complianceVendorWorkspace"; "contracts.serviceConfiguration"].
(** Read by administrators only. *)
Definition administrator_reads : list string :=
  ["postgres.operatorAccessRequests"; "postgres.operators"; "postgres.operatorOnboardingRecords"; "postgres.auditorEngagements";
   "postgres.operatorAccountCreationAvailable"; "postgres.integrationCredentialStatus"; "postgres.integrationCredentialAuditTrail"].
(** Written by administrators only. *)
Definition administrator_writes : list string :=
  ["system.notifyOwner"; "postgres.createImtoReadinessProfile"; "postgres.createVaspRegulatoryProfile"; "postgres.initialiseReadinessAssurance";
   "postgres.createVaspOffshoreCounterpartyProfile"; "postgres.createCbnSandboxDossier"; "postgres.createCbnSandboxTestPlan";
   "postgres.assignExternalStakeholder"; "postgres.changeOperatorRole"; "postgres.deactivateOperator"; "postgres.startOperatorOnboarding";
   "postgres.recordSodMatrixReview"; "postgres.recordShadowPeriodSupervision"; "postgres.startAuditorEngagement"; "postgres.recordEngagementLetter";
   "postgres.recordAccessProvisioning"; "postgres.recordAuditFieldwork"; "postgres.recordAnnualReview"; "postgres.grantOperatingRole";
   "postgres.onboardOperator"; "postgres.createCounterpartyOnboarding"; "postgres.decideTechnicalOnboardingGate";
   "postgres.transitionCounterpartyAuthorization"; "postgres.createIntegrationConnection"; "postgres.captureServiceHealthSample";
   "postgres.configureIntegrationCredential"; "postgres.activateIntegrationConnection"; "postgres.suspendIntegrationConnection";
   "postgres.evaluateRegulatoryDeadlines"; "postgres.createAlertPolicy"; "postgres.registerLegalEntity";
   "postgres.escalateCounterpartyRiskAssessment"; "postgres.createCounterparty"; "postgres.decidePspFailoverGate";
   "postgres.decideStablecoinIssuerChainReadinessGate"; "postgres.createCounterpartyAuthorization"].
(** Written by compliance officers and administrators. *)
Definition compliance_writes : list string :=
  ["postgres.recordImtoReadinessEvidence"; "postgres.assessImtoReadiness"; "postgres.recordReadinessAssuranceEvidence";
   "postgres.recordVaspSupervisoryEvidence"; "postgres.recordVaspTravelRuleEvidence"; "postgres.assessVaspTravelRuleRoute";
   "postgres.recordVaspOffshoreCounterpartyEvidence"; "postgres.assessVaspOffshoreCounterpartyProfile"; "postgres.recordCbnSandboxEvidence";
   "postgres.assessCbnSandboxEvidenceCompleteness"; "postgres.recordCbnSandboxConsumerRecord"; "postgres.recordCbnSandboxIncident";
   "postgres.createCbnSandboxReportingPack"; "postgres.recordLmsEnrolment"; "postgres.recordOperatorRecertification";
   "postgres.beginCounterpartyRecertification"; "postgres.createCustomer"; "postgres.updateCustomerProfile";
   "postgres.recordCustomerDestinationCounterparty"; "postgres.decideCustomerUseCaseGate"; "postgres.createBeneficiary";
   "postgres.recordBeneficiaryScreening"; "postgres.evaluateComplianceFlags"; "postgres.raiseComplianceAlert"; "postgres.acknowledgeComplianceAlert";
   "postgres.escalateComplianceAlert"; "postgres.dismissComplianceAlert"; "postgres.createCorridorPolicy"; "postgres.createRegulatoryDeadline";
   "postgres.createKycDocumentUploadIntent"; "postgres.finalizeKycDocumentUpload"; "postgres.updateKycDocumentReview";
   "postgres.createVerificationConsent"; "postgres.createDocumentAnalysisJob"; "postgres.persistDocumentAnalysisEvidence";
   "postgres.createReviewerDecision"; "postgres.disposeComplianceCase"; "postgres.createComplianceCase"; "postgres.createRegulatoryReport";
   "postgres.transitionRegulatoryReport"; "postgres.createCounterpartyRiskAssessment"; "postgres.updateCounterpartyLpArchetype";
   "postgres.recordCounterpartyEvidenceItem"; "postgres.updateCounterpartyBankArchetype"; "postgres.recordBankEvidenceItem";
   "postgres.decideCryptoPostureGate"; "postgres.updateCounterpartyPspArchetype"; "postgres.recordPspEvidenceItem";
   "postgres.decidePspLicenceRailGate"; "postgres.decidePspBoundedLiveGate"; "postgres.updateCounterpartyStablecoinIssuerArchetype";
   "postgres.recordStablecoinIssuerEvidenceItem"; "postgres.updateCounterpartyComplianceVendorArchetype";
   "postgres.recordComplianceVendorEvidenceItem"; "postgres.decideComplianceVendorSecurityPostureGate";
   "postgres.decideComplianceVendorCoverageFeasibilityGate"; "postgres.decideComplianceVendorFalsePositiveCeilingGate";
   "postgres.decideComplianceVendorAnnualReviewGate"; "contracts.parseGoPaymentOrderValidated"; "contracts.parseRustPolicyDecision";
   "contracts.parsePythonBronzeManifest"; "contracts.parseGoAuditTrail"; "contracts.parseRustMonitoringResult"; "contracts.parseRustCounterpartyRisk";
   "contracts.parsePythonAssembledReport"; "contracts.parsePythonStablecoinExposure"; "contracts.parseRustLedgerValidation";
   "contracts.parseRustLedgerReconciliation"; "contracts.evaluateMonitoringViaService"; "contracts.assessCounterpartyRiskViaService";
   "contracts.validateLedgerPostingsViaService"; "contracts.reconcileLedgerProjectionViaService"].
(** Written by compliance officers only, no administrator. *)
Definition officer_writes : list string :=
  ["postgres.decideCounterpartyOnboardingGate"; "postgres.createSarStrFiling"; "postgres.transitionSarStrFiling"].
(** Written by treasury operators and administrators. *)
Definition treasury_writes : list string :=
  ["postgres.decideTreasuryPilotOnboardingGate"; "postgres.evaluateLiquidityThresholds"; "postgres.evaluatePaymentFailures";
   "postgres.expireRateLocks"; "postgres.createPaymentOrder"; "postgres.createPaymentLeg"; "postgres.transitionPaymentOrder";
   "postgres.transitionPaymentLeg"; "postgres.createRateLock"; "postgres.cancelRateLock"; "postgres.recordLiquidityPosition";
   "postgres.recordMarketObservation"; "postgres.createTreasuryRecommendation"; "postgres.decideTreasuryRecommendation";
   "postgres.decideFinancialSoundnessGate"; "postgres.decidePspSettlementCutoffGate"; "postgres.decideStablecoinIssuerMintRedeemGate"].
(** Written by compliance officers, treasury operators and administrators. *)
Definition joint_writes : list string :=
  ["postgres.decideStablecoinIssuerLicenceReservePostureGate"; "postgres.decideStablecoinIssuerOperatingPostureGate"].
(** Written by auditors and administrators. *)
Definition verifier_writes : list string :=
  ["postgres.verifyReadinessAssuranceEvidence"; "postgres.rejectReadinessAssuranceEvidence"].

(** A caller is a role, or nobody. *)
Definition operators : list (option operating_role) :=
  [Some RoleAdmin; Some RoleComplianceOfficer; Some RoleTreasuryOperator; Some RoleAuditor].
Definition everyone : list (option operating_role) :=
  (operators ++ [Some RoleProviderContact; Some RoleCbnLiaison; Some RoleSystemMonitor; None])%list.

(** Who, whether they write, and what. *)
Definition access_matrix : list (list (option operating_role) * bool * list string) :=
  [(everyone, false, public_reads);
   (operators, false, operator_reads);
   ([Some RoleAdmin], false, administrator_reads);
   ([Some RoleAdmin], true, administrator_writes);
   ([Some RoleAdmin; Some RoleComplianceOfficer], true, compliance_writes);
   ([Some RoleComplianceOfficer], true, officer_writes);
   ([Some RoleAdmin; Some RoleTreasuryOperator], true, treasury_writes);
   ([Some RoleAdmin; Some RoleComplianceOfficer; Some RoleTreasuryOperator], true, joint_writes);
   ([Some RoleAdmin; Some RoleAuditor], true, verifier_writes);
   ([Some RoleProviderContact], false, ["postgres.providerContactAssignments"]);
   ([Some RoleProviderContact], true, ["postgres.recordProviderContactEvidence"]);
   ([Some RoleCbnLiaison], false, ["postgres.cbnLiaisonAssignments"]);
   ([Some RoleCbnLiaison], true, ["postgres.recordCbnLiaisonEvidence"])].

Definition listed (path : string) (writes : bool) : bool :=
  existsb (λ row : list (option operating_role) * bool * list string, Bool.eqb row.1.2 writes && includes row.2 path) access_matrix.
Definition entitled (who : option operating_role) (path : string) (writes : bool) : bool :=
  existsb (λ row : list (option operating_role) * bool * list string,
    includes row.1.1 who && Bool.eqb row.1.2 writes && includes row.2 path) access_matrix.

(** ** The documented matrix *)

(** A row: the action, the procedures that carry it out, the roles that say yes. *)
Definition authority_rows : list (string * list string * list operating_role) :=
  let both := [RoleAdmin; RoleComplianceOfficer] in
  let desk := [RoleAdmin; RoleTreasuryOperator] in
  [("Read all ledgers and evidence",
     (operator_reads ++ ["postgres.operatorOnboardingRecords"; "postgres.auditorEngagements"; "postgres.integrationCredentialAuditTrail"])%list,
     [RoleAdmin; RoleComplianceOfficer; RoleTreasuryOperator; RoleAuditor]);
   ("Register counterparty", ["postgres.createCounterparty"], both);
   ("Transition licence authorisation", ["postgres.transitionCounterpartyAuthorization"], [RoleAdmin]);
   ("Onboard customer, create beneficiary", ["postgres.createCustomer"; "postgres.createBeneficiary"], both);
   ("Capture verification consent", ["postgres.createVerificationConsent"], both);
   ("Create KYC/KYB analysis job", ["postgres.createDocumentAnalysisJob"], both);
   ("Record reviewer decision on evidence", ["postgres.createReviewerDecision"], both);
   ("Review KYC document state", ["postgres.updateKycDocumentReview"], both);
   ("Create or transition compliance case", ["postgres.createComplianceCase"; "postgres.disposeComplianceCase"], both);
   ("File and transition SAR/STR", ["postgres.createSarStrFiling"; "postgres.transitionSarStrFiling"], [RoleComplianceOfficer]);
   ("Invoke multi-language contract parsers",
     ["contracts.parseGoPaymentOrderValidated"; "contracts.parseRustPolicyDecision"; "contracts.parsePythonBronzeManifest";
      "contracts.parseGoAuditTrail"; "contracts.parseRustMonitoringResult"; "contracts.parseRustCounterpartyRisk";
      "contracts.parsePythonAssembledReport"; "contracts.parsePythonStablecoinExposure"; "contracts.parseRustLedgerValidation";
      "contracts.parseRustLedgerReconciliation"], both);
   ("Draft payment order, add payment leg", ["postgres.createPaymentOrder"; "postgres.createPaymentLeg"], desk);
   ("Transition payment order or leg (internal states)", ["postgres.transitionPaymentOrder"; "postgres.transitionPaymentLeg"], desk);
   ("Record market observation", ["postgres.recordMarketObservation"], desk);
   ("Create or cancel rate lock, evaluate expiry", ["postgres.createRateLock"; "postgres.cancelRateLock"; "postgres.expireRateLocks"], desk);
   ("Record reconciled liquidity position", ["postgres.recordLiquidityPosition"], desk);
   ("Propose treasury rebalancing recommendation", ["postgres.createTreasuryRecommendation"], desk);
   ("Decide a treasury recommendation", ["postgres.decideTreasuryRecommendation"], desk);
   ("Draft regulatory report", ["postgres.createRegulatoryReport"], both);
   ("Transition regulatory report lifecycle", ["postgres.transitionRegulatoryReport"], both);
   ("Configure integration connection", ["postgres.createIntegrationConnection"; "postgres.configureIntegrationCredential"], both);
   ("Set corridor policy, alert policy, deadline",
     ["postgres.createCorridorPolicy"; "postgres.createAlertPolicy"; "postgres.createRegulatoryDeadline"], both);
   ("Escalate counterparty risk", ["postgres.escalateCounterpartyRiskAssessment"], [RoleAdmin])].
(** Granted by the document to other operators as well, and by the router to administrators only. *)
Definition narrower_than_documented : list string :=
  ["postgres.operatorOnboardingRecords"; "postgres.auditorEngagements"; "postgres.integrationCredentialAuditTrail";
   "postgres.createCounterparty"; "postgres.createIntegrationConnection"; "postgres.configureIntegrationCredential"; "postgres.createAlertPolicy"].
