(* ===== verification/RouterProps.v ===== *)
(** * Requests are authorised before anything else, and inputs fit the tables *)

From S2P Require Import Prelude Js Numeric Sha256 Hmac Rows Schema Parties Access Readiness SodMonitor Dossiers Zod Contracts ServiceBridge Identity IdentityProps Router AccessMatrix.

Local Open Scope string_scope.
Local Open Scope Z_scope.

Section router.
Context `{Z0 : !ZodParser} (zod_uuid zod_email : string → bool) (zod_url : string → option string) (coerce_date : json → option Z) (now : Z).
Local Abbreviation procedures0 := (Router.procedures zod_uuid zod_email zod_url coerce_date now).
Local Abbreviation find_procedure0 := (Router.find_procedure zod_uuid zod_email zod_url coerce_date now).
Local Abbreviation serve0 := (Router.serve zod_uuid zod_email zod_url coerce_date now).

(** ** The table *)

Lemma procedures_all (check : procedure → bool) : forallb check procedures0 = true → ∀ p, p ∈ procedures0 → check p = true.
Proof. intros H p Hp%list_elem_of_In. by apply (proj1 (forallb_forall _ _) H). Qed.
Lemma found_in path p : find_procedure0 path = Some p → p ∈ procedures0 ∧ p_path p = path.
Proof. unfold Router.find_procedure. intros [H1%list_elem_of_In H2%bool_decide_eq_true]%find_some. done. Qed.

(** Every path names one procedure. *)
Lemma paths_distinct : NoDup (p_path <$> procedures0).
Proof. apply (bool_decide_unpack _). vm_compute. exact I. Qed.

(** Whom a guard lets through. *)
Definition lets (g : guard) (who : option operating_role) : bool :=
  match g, who with None, _ => true | Some roles, Some r => includes roles r | Some _, None => false end.
Definition who (ctx : trpc_context) : option operating_role := pu_role <$> cx_user ctx.
Lemma passes_lets g ctx : passes_guard g ctx = lets g (who ctx).
Proof. unfold passes_guard, who. destruct g; [|done]. by destruct (cx_user ctx). Qed.
Lemma everyone_all w : w ∈ everyone.
Proof. apply list_elem_of_In. destruct w as [[]|]; vm_compute; tauto. Qed.

(** ** The access matrix *)

(** The guard of a procedure and its row agree on every caller, and it has no
    row of the other kind. *)
Definition matrix_agrees (p : procedure) : bool :=
  forallb (λ w, Bool.eqb (lets (p_guard p) w) (entitled w (p_path p) (p_mutation p))) everyone && listed (p_path p) (p_mutation p).
Lemma matrix_table : forallb matrix_agrees procedures0 = true.
Proof. vm_compute. reflexivity. Qed.
(** Every entry of the matrix is a procedure. *)
Lemma matrix_known : forallb (λ row : list (option operating_role) * bool * list string,
  forallb (λ path, match find_procedure0 path with Some p => Bool.eqb (p_mutation p) row.1.2 | None => false end) row.2) access_matrix = true.
Proof. vm_compute. reflexivity. Qed.

Lemma guard_granted p ctx : p ∈ procedures0 → passes_guard (p_guard p) ctx = entitled (who ctx) (p_path p) (p_mutation p).
Proof.
  intros Hp. pose proof (procedures_all matrix_agrees matrix_table p Hp) as [H _]%andb_true_iff. rewrite passes_lets.
  apply eqb_prop. apply (proj1 (forallb_forall _ _) H). apply list_elem_of_In, everyone_all.
Qed.
Lemma listed_iff path m : listed path m = true ↔ ∃ p, find_procedure0 path = Some p ∧ p_mutation p = m.
Proof.
  split.
  - unfold listed. intros (row & Hr & [Hk%eqb_prop Hp%includes_true]%andb_true_iff)%existsb_exists.
    pose proof (proj1 (forallb_forall _ _) (proj1 (forallb_forall _ _) matrix_known row Hr) path (proj1 (list_elem_of_In _ _) Hp)) as H. cbv beta in H.
    destruct (find_procedure0 path) as [p|]; [|done]. apply eqb_prop in H. exists p. by rewrite H, Hk.
  - intros (p & [Hp <-]%found_in & <-). by pose proof (procedures_all matrix_agrees matrix_table p Hp) as [_ H]%andb_true_iff.
Qed.

(** The documented matrix says what the matrix has, apart from the entries where
    the guards are narrower. *)
Lemma documented_table : forallb (λ row : string * list string * list operating_role,
  forallb (λ path, Bool.eqb (includes narrower_than_documented path)
    (negb (forallb (λ w, Bool.eqb (existsb (entitled w path) [false; true]) (includes (Some <$> row.2) w)) everyone))) row.1.2) authority_rows = true.
Proof. vm_compute. reflexivity. Qed.
Lemma documented_rows action paths roles path r : (action, paths, roles) ∈ authority_rows → path ∈ paths → path ∉ narrower_than_documented →
  r ∈ roles ↔ ∃ m, entitled (Some r) path m = true.
Proof.
  intros Hrow%list_elem_of_In Hpath%list_elem_of_In Hn.
  pose proof (proj1 (forallb_forall _ _) (proj1 (forallb_forall _ _) documented_table _ Hrow) path Hpath) as H. cbv beta in H.
  apply eqb_prop in H. replace (includes narrower_than_documented path) with false in H by (symmetry; by apply bool_decide_eq_false).
  symmetry in H. apply negb_false_iff in H.
  pose proof (proj1 (forallb_forall _ _) H (Some r) (proj1 (list_elem_of_In _ _) (everyone_all _))) as He. apply eqb_prop in He. cbn [snd] in He.
  assert (r ∈ roles ↔ includes (Some <$> roles) (Some r) = true) as ->.
  { rewrite includes_true, list_elem_of_fmap. split; [by exists r|]. by intros (x & [= ->] & Hx). }
  rewrite <- He, existsb_exists. split; [intros (m & _ & Hm); by exists m|intros [[] Hm]]; [exists true|exists false]; (split; [cbn; tauto|done]).
Qed.

(** [legacyActor] refuses nobody its guards let in, and a body that needs a user
    is behind a guard. *)
Definition actor_given (p : procedure) : bool :=
  match p_actor p, p_guard p with
  | NoActor, _ => true
  | LegacyActor, Some roles => forallb (includes legacyOperatingRoles) roles
  | _, Some _ => true
  | _, None => false
  end.
Lemma actors_table : forallb actor_given procedures0 = true.
Proof. vm_compute. reflexivity. Qed.

(** ** Serving *)

Lemma serve_invoked ctx path m raw calls c args : serve0 ctx path m raw = Invoked calls c args →
  ∃ p, p ∈ procedures0 ∧ p_path p = path ∧ p_mutation p = m ∧ p_calls p = calls ∧ passes_guard (p_guard p) ctx = true ∧ caller_of (p_actor p) ctx = Some c.
Proof.
  unfold Router.serve. destruct (find_procedure0 path) as [p|] eqn:Hf; [|done]. apply found_in in Hf as [Hp Hpath].
  destruct (Bool.eqb (p_mutation p) m) eqn:Hm; [|done]. cbn [negb]. apply eqb_prop in Hm. destruct (passes_guard _ _) eqn:Ha; [|done]. cbn [negb].
  destruct (match p_input p with Some s => s raw | None => _ end) as [v|]; [|done]. destruct (caller_of _ _) as [c'|] eqn:Hc; [|done].
  intros [= <- <- <-]. by exists p.
Qed.

Lemma caller_given p ctx : p ∈ procedures0 → passes_guard (p_guard p) ctx = true → is_Some (caller_of (p_actor p) ctx).
Proof.
  intros Hp Ha. pose proof (procedures_all actor_given actors_table p Hp) as Hg.
  unfold actor_given, passes_guard, caller_of, legacyActor in *. destruct (p_actor p); [done|..]; destruct (p_guard p) as [roles|]; try done;
    destruct (cx_user ctx) as [u|]; try done.
  rewrite (proj1 (forallb_forall _ _) Hg); [done|]. by apply list_elem_of_In, includes_true.
Qed.

(** Who the caller of a body is. *)
Definition speaks_for (c : caller) (u : platform_user) : Prop :=
  match c with
  | Nobody => True
  | Acting a => a_openId a = pi_openId (pu_identity u) ∧ a_role a = pu_role u
  | Subject s => s = pi_openId (pu_identity u)
  end.
Lemma caller_speaks form ctx c u : caller_of form ctx = Some c → cx_user ctx = Some u → speaks_for c u.
Proof.
  unfold caller_of, legacyActor. intros Hc Hu. rewrite Hu in Hc. destruct form; [by injection Hc as <-|by injection Hc as <-| |by injection Hc as <-].
  destruct (includes _ _); [|done]. by injection Hc as <-.
Qed.

Lemma nobody_reads path m : entitled None path m = true → path ∈ public_reads.
Proof.
  unfold entitled. intros (row & Hr & [[Hw%includes_true _]%andb_true_iff Hp%includes_true]%andb_true_iff)%existsb_exists.
  apply list_elem_of_In in Hr. unfold access_matrix in Hr. apply elem_of_cons in Hr as [->|Hr]; [done|]. exfalso. revert row Hr Hw Hp.
  refine (λ row Hr Hw _, _). assert (Forall (λ row : list (option operating_role) * bool * list string, None ∉ row.1.1) (tail access_matrix)) as Hf
    by (apply (bool_decide_unpack _); vm_compute; exact I). by apply (proj1 (Forall_forall _ _) Hf row Hr).
Qed.

(** ** Inputs *)

Lemma run_checks_app cs1 cs2 s t : run_checks (cs1 ++ cs2) s = Some t ↔ ∃ u, run_checks cs1 s = Some u ∧ run_checks cs2 u = Some t.
Proof.
  revert s. induction cs1 as [|c cs1 IH]; intros s; cbn [run_checks app].
  - split; [intros H; by exists s|by intros (u & [= ->] & H)].
  - destruct (c s) as [s'|]; cbn [mbind option_bind]; [apply IH|]. split; [done|by intros (u & ? & _)].
Qed.
Lemma s_test_Some q s t : s_test q s = Some t ↔ q s = true ∧ t = s.
Proof. unfold s_test. destruct (q s); [|naive_solver]. split; [by intros [= ->]|by intros [_ ->]]. Qed.
Lemma r_string_Some cs raw v : r_string cs raw = Some v ↔ ∃ s t, raw = Some (JStr s) ∧ run_checks cs s = Some t ∧ v = Text t.
Proof.
  unfold r_string. split.
  - destruct raw as [[]|]; try done. intros (t & Ht & ->)%fmap_Some. by exists s, t.
  - intros (s & t & -> & Ht & ->). by rewrite Ht.
Qed.

(** What is left when a test comes last. *)
Lemma r_string_last cs q raw v : r_string (cs ++ [s_test q]) raw = Some v → ∃ t, v = Text t ∧ q t = true.
Proof.
  intros (s & t & _ & H & ->)%r_string_Some. apply run_checks_app in H as (u & _ & H). cbn [run_checks] in H.
  destruct (s_test q u) as [w|] eqn:Hq; [|done]. injection H as ->. apply s_test_Some in Hq as [Hq ->]. by exists u.
Qed.
Lemma r_https_Some raw v : r_https zod_url raw = Some v → ∃ t, v = Text t ∧ https t = true.
Proof. apply (r_string_last [s_url zod_url]). Qed.
Lemma r_sha256_Some raw v : r_sha256 raw = Some v → ∃ t, v = Text t ∧ is_sha256_hex t = true.
Proof. apply (r_string_last []). Qed.
Lemma r_enum_Some xs raw v : r_enum xs raw = Some v → ∃ t, v = Text t ∧ t ∈ xs.
Proof. unfold r_enum. destruct raw as [[]|]; try done. destruct (includes xs s) eqn:H; [|done]. intros [= <-]. exists s. by apply includes_true in H. Qed.
Lemma r_trimmed_Some low high raw v : r_trimmed low high raw = Some v → ∃ t, v = Text t ∧ low <= js_length t <= high.
Proof.
  intros (s & t & _ & H & ->)%r_string_Some. exists t. split; [done|]. cbn [run_checks] in H. unfold s_trim in H. cbn [mbind option_bind] in H.
  destruct (s_min low (trim s)) as [a|] eqn:H1; [|done]. apply (s_test_Some (λ s, low <=? js_length s)) in H1 as [H1 ->]. cbn [mbind option_bind] in H.
  destruct (s_max high (trim s)) as [b|] eqn:H2; [|done]. apply (s_test_Some (λ s, js_length s <=? high)) in H2 as [H2 ->]. cbn [mbind option_bind] in H.
  injection H as <-. by apply Z.leb_le in H1, H2.
Qed.
Lemma r_date_Some raw v : r_date coerce_date raw = Some v → ∃ t, v = Instant t.
Proof. unfold r_date. destruct raw; [|done]. intros (t & _ & ->)%fmap_Some. by exists t. Qed.

(** Membership in a literal list. *)
Ltac listed := first [apply list_elem_of_here | apply list_elem_of_further; listed].

(** A field of an object was read by its schema. *)
Lemma r_object_field shape raw v k a : NoDup shape.*1 → (k, a) ∈ shape → r_object shape raw = Some v → ∃ x, a x = Some (get k v).
Proof.
  unfold r_object. destruct raw as [[| | | | | |kvs]|]; try done. intros Hn Hin (fs & Hfs & ->)%fmap_Some. exists (record_get kvs k).
  cbn [get]. revert fs Hfs Hn Hin. induction shape as [|[k' a'] shape IH]; intros fs Hfs Hn Hin; [by apply elem_of_nil in Hin|].
  cbn [mapM] in Hfs. apply bind_Some in Hfs as ([k0 w] & Hw & Hfs). apply bind_Some in Hfs as (ws & Hws & [= <-]).
  apply fmap_Some in Hw as (w' & Hw & [= -> ->]). rewrite fmap_cons in Hn. apply NoDup_cons in Hn as [Hk Hn]. cbn [fst snd] in *.
  apply elem_of_cons in Hin as [[= -> ->]|Hin].
  - cbn [record_get]. by rewrite bool_decide_eq_true_2.
  - cbn [record_get]. rewrite bool_decide_eq_false_2; [by apply IH|]. intros ->. apply Hk. apply list_elem_of_fmap. by exists (k', a).
Qed.

(** A mutation whose body gets the parsed input. *)
Lemma serve_input ctx path g s calls form raw calls' c v : find_procedure0 path = Some (mutation path g (Some s) calls form [whole]) →
  serve0 ctx path true raw = Invoked calls' c [v] → s raw = Some v.
Proof.
  unfold Router.serve. intros ->. cbn [p_mutation mutation negb Bool.eqb p_guard p_input]. destruct (passes_guard g ctx); [|done]. cbn [negb].
  destruct (s raw) as [w|]; [|done]. destruct (caller_of _ _); [|done]. by intros [= _ _ <-].
Qed.

Definition evidence_path (R : readiness_register) : string :=
  match R with
  | RegSandbox => "postgres.recordCbnSandboxEvidence"
  | RegSupervisory => "postgres.recordVaspSupervisoryEvidence"
  | RegTravelRule => "postgres.recordVaspTravelRuleEvidence"
  | RegOffshore => "postgres.recordVaspOffshoreCounterpartyEvidence"
  | RegImto => "postgres.recordImtoReadinessEvidence"
  end.
(** The keys of the subject in front of the evidence. *)
Definition subject_keys (R : readiness_register) : list string :=
  match R with RegSandbox => ["dossierId"] | RegTravelRule => ["dossierId"; "counterpartyId"] | _ => ["profileId"] end.
Definition evidence_shape (R : readiness_register) : list (string * schema) :=
  (((λ k, (k, r_uuid zod_uuid)) <$> subject_keys R) ++
   [("category", r_enum (categories R)); ("evidenceUri", r_https zod_url); ("evidenceSha256", r_sha256)])%list.
Definition evidence_calls (R : readiness_register) : list string :=
  match R with
  | RegSandbox => ["recordCbnSandboxEvidence"]
  | RegSupervisory => ["recordVaspSupervisoryEvidence"]
  | RegTravelRule => ["recordVaspTravelRuleEvidence"]
  | RegOffshore => ["recordVaspOffshoreCounterpartyEvidence"]
  | RegImto => ["recordImtoReadinessEvidence"]
  end.
Lemma evidence_procedure R :
  find_procedure0 (evidence_path R) = Some (mutation (evidence_path R) complianceProcedure (Some (r_object (evidence_shape R))) (evidence_calls R) UserActor [whole]).
Proof. destruct R; reflexivity. Qed.

Definition assess_path (R : readiness_register) : string :=
  match R with
  | RegSandbox => "postgres.assessCbnSandboxEvidenceCompleteness"
  | RegTravelRule => "postgres.assessVaspTravelRuleRoute"
  | RegOffshore => "postgres.assessVaspOffshoreCounterpartyProfile"
  | RegImto => "postgres.assessImtoReadiness"
  | RegSupervisory => ""
  end.
Definition assess_calls (R : readiness_register) : list string :=
  match R with
  | RegSandbox => ["assessCbnSandboxEvidenceCompleteness"]
  | RegTravelRule => ["assessVaspTravelRuleRoute"]
  | RegOffshore => ["assessVaspOffshoreCounterpartyProfile"]
  | RegImto => ["assessImtoReadiness"]
  | RegSupervisory => []
  end.
Definition assess_shape (R : readiness_register) : list (string * schema) :=
  (((λ k, (k, r_uuid zod_uuid)) <$> subject_keys R) ++ [("reviewerRationale", r_trimmed 20 4000)])%list.
Lemma assess_procedure R : R ≠ RegSupervisory →
  find_procedure0 (assess_path R) = Some (mutation (assess_path R) complianceProcedure (Some (r_object (assess_shape R))) (assess_calls R) UserActor [whole]).
Proof. destruct R; [|done|..]; intros _; reflexivity. Qed.

Definition incident_shape : list (string * schema) :=
  [("dossierId", r_uuid zod_uuid); ("kind", r_enum ["cybersecurity"; "fraud"; "consumer_harm"; "operational_resilience"]);
   ("severity", r_enum ["low"; "medium"; "high"; "critical"]); ("occurredAt", r_date coerce_date); ("detectedAt", r_date coerce_date);
   ("evidenceUri", r_https zod_url); ("summary", r_trimmed 20 4000)].
Lemma incident_procedure : find_procedure0 "postgres.recordCbnSandboxIncident" =
  Some (mutation "postgres.recordCbnSandboxIncident" complianceProcedure (Some (r_refine detected_after (r_object incident_shape)))
    ["recordCbnSandboxIncident"] UserActor [whole]).
Proof. reflexivity. Qed.
Definition pack_shape : list (string * schema) :=
  [("dossierId", r_uuid zod_uuid); ("periodStart", r_date coerce_date); ("periodEnd", r_date coerce_date); ("artifactUri", r_https zod_url)].
Lemma pack_procedure : find_procedure0 "postgres.createCbnSandboxReportingPack" =
  Some (mutation "postgres.createCbnSandboxReportingPack" complianceProcedure (Some (r_refine period_ordered (r_object pack_shape)))
    ["createCbnSandboxReportingPack"] UserActor [whole]).
Proof. reflexivity. Qed.

Lemma r_refine_Some q a raw v : r_refine q a raw = Some v → a raw = Some v ∧ q v = true.
Proof. unfold r_refine. intros H. apply bind_Some in H as (w & Hw & H). destruct (q w) eqn:E; [|done]. by injection H as <-. Qed.

Lemma evidence_admitted R raw v : r_object (evidence_shape R) raw = Some v → ∃ cat uri sha,
  get "category" v = Text cat ∧ get "evidenceUri" v = Text uri ∧ get "evidenceSha256" v = Text sha ∧
  cat ∈ categories R ∧ https uri = true ∧ is_sha256_hex sha = true.
Proof.
  intros H. assert (NoDup (evidence_shape R).*1) as Hn by (apply (bool_decide_unpack _); destruct R; vm_compute; exact I).
  unfold evidence_shape in *.
  destruct (r_object_field _ raw v "category" (r_enum (categories R)) Hn ltac:(apply elem_of_app; right; listed) H) as [x1 H1].
  destruct (r_object_field _ raw v "evidenceUri" (r_https zod_url) Hn ltac:(apply elem_of_app; right; listed) H) as [x2 H2].
  destruct (r_object_field _ raw v "evidenceSha256" r_sha256 Hn ltac:(apply elem_of_app; right; listed) H) as [x3 H3].
  apply r_enum_Some in H1 as (cat & E1 & C1). apply r_https_Some in H2 as (uri & E2 & C2). apply r_sha256_Some in H3 as (sha & E3 & C3).
  by exists cat, uri, sha.
Qed.
Lemma rationale_admitted R raw v : r_object (assess_shape R) raw = Some v → ∃ t, get "reviewerRationale" v = Text t ∧ 20 <= js_length t <= 4000.
Proof.
  intros H. assert (NoDup (assess_shape R).*1) as Hn by (apply (bool_decide_unpack _); destruct R; vm_compute; exact I). unfold assess_shape in *.
  destruct (r_object_field _ raw v "reviewerRationale" (r_trimmed 20 4000) Hn ltac:(apply elem_of_app; right; listed) H) as [x H1].
  by apply r_trimmed_Some in H1.
Qed.

Lemma incident_admitted raw v : r_refine detected_after (r_object incident_shape) raw = Some v → ∃ kind severity occurred detected uri text,
  get "kind" v = Text kind ∧ get "severity" v = Text severity ∧ get "occurredAt" v = Instant occurred ∧ get "detectedAt" v = Instant detected ∧
  get "evidenceUri" v = Text uri ∧ get "summary" v = Text text ∧
  kind ∈ ["cybersecurity"; "fraud"; "consumer_harm"; "operational_resilience"] ∧ severity ∈ ["low"; "medium"; "high"; "critical"] ∧
  occurred <= detected ∧ https uri = true ∧ 20 <= js_length text <= 4000.
Proof.
  intros [H Hd]%r_refine_Some. assert (NoDup incident_shape.*1) as Hn by (apply (bool_decide_unpack _); vm_compute; exact I).
  pose proof (λ k a Hin, r_object_field incident_shape raw v k a Hn Hin H) as F.
  destruct (F "kind" (r_enum ["cybersecurity"; "fraud"; "consumer_harm"; "operational_resilience"]) ltac:(listed)) as [x1 (t1 & E1 & C1)%r_enum_Some].
  destruct (F "severity" (r_enum ["low"; "medium"; "high"; "critical"]) ltac:(listed)) as [x2 (t2 & E2 & C2)%r_enum_Some].
  destruct (F "occurredAt" (r_date coerce_date) ltac:(listed)) as [x3 (t3 & E3)%r_date_Some].
  destruct (F "detectedAt" (r_date coerce_date) ltac:(listed)) as [x4 (t4 & E4)%r_date_Some].
  destruct (F "evidenceUri" (r_https zod_url) ltac:(listed)) as [x5 (t5 & E5 & C5)%r_https_Some].
  destruct (F "summary" (r_trimmed 20 4000) ltac:(listed)) as [x6 (t6 & E6 & C6)%r_trimmed_Some].
  unfold detected_after, instants in Hd. rewrite E3, E4 in Hd. apply Z.leb_le in Hd. by exists t1, t2, t3, t4, t5, t6.
Qed.
Lemma pack_admitted raw v : r_refine period_ordered (r_object pack_shape) raw = Some v → ∃ s e uri,
  get "periodStart" v = Instant s ∧ get "periodEnd" v = Instant e ∧ get "artifactUri" v = Text uri ∧ s < e ∧ https uri = true.
Proof.
  intros [H Hd]%r_refine_Some. assert (NoDup pack_shape.*1) as Hn by (apply (bool_decide_unpack _); vm_compute; exact I).
  pose proof (λ k a Hin, r_object_field pack_shape raw v k a Hn Hin H) as F.
  destruct (F "periodStart" (r_date coerce_date) ltac:(listed)) as [x1 (t1 & E1)%r_date_Some].
  destruct (F "periodEnd" (r_date coerce_date) ltac:(listed)) as [x2 (t2 & E2)%r_date_Some].
  destruct (F "artifactUri" (r_https zod_url) ltac:(listed)) as [x3 (t3 & E3 & C3)%r_https_Some].
  unfold period_ordered, instants in Hd. rewrite E1, E2 in Hd. apply Z.ltb_lt in Hd. by exists t1, t2, t3.
Qed.

Definition passes {R} (rules : table_rules R) (row : R) : Prop := Forall (λ c, c.1 = true) (checks rules row).
(** Every CHECK passes, apart from one that is named. *)
Definition passes_but {R} (name : string) (rules : table_rules R) (row : R) : Prop :=
  Forall (λ c, c.1 = true ∨ c.2 = CheckViolation name) (checks rules row).

(** C11. What the router admits, and what the tables accept. When a request to
    record readiness evidence or to create a reporting pack reaches its handler,
    the parsed input has the fields the handler stores, and the row it builds
    passes every CHECK and enumeration of its table, whatever the other columns
    are: a constraint can refuse it only for a reference or a duplicate. An
    incident passes every CHECK and enumeration but the one that counts the
    characters of its summary, and an assessment's rationale has one CHECK, which
    counts too: the router counts UTF-16 units, 20 to 4000 of them, and the
    database code points. Such a text has at most 4000 and at least 10 code
    points, so the CHECK can only find it too short, and never when every code
    point is one unit, as all are in the Basic Multilingual Plane. *)
Theorem admitted_inputs_meet_checks ctx raw calls c v :
  (∀ R, serve0 ctx (evidence_path R) true raw = Invoked calls c [v] → ∃ cat uri sha,
    get "category" v = Text cat ∧ get "evidenceUri" v = Text uri ∧ get "evidenceSha256" v = Text sha ∧
    ∀ subject counterparty by_ at_, passes (rules_readiness_items R) (mk_readiness_item subject counterparty cat uri sha by_ at_)) ∧
  (∀ R, R ≠ RegSupervisory → serve0 ctx (assess_path R) true raw = Invoked calls c [v] → ∃ rationale, get "reviewerRationale" v = Text rationale ∧
    20 <= js_length rationale <= 4000) ∧
  (serve0 ctx "postgres.recordCbnSandboxIncident" true raw = Invoked calls c [v] → ∃ kind severity occurred detected uri text,
    get "kind" v = Text kind ∧ get "severity" v = Text severity ∧ get "occurredAt" v = Instant occurred ∧ get "detectedAt" v = Instant detected ∧
    get "evidenceUri" v = Text uri ∧ get "summary" v = Text text ∧ 20 <= js_length text <= 4000 ∧
    ∀ dossier by_ at_, passes_but "cbn_sandbox_incidents_summary_check" rules_incidents
      (mk_sandbox_incident dossier kind severity (pg_of_js occurred) (pg_of_js detected) uri text "not_submitted" None by_ at_)) ∧
  (serve0 ctx "postgres.createCbnSandboxReportingPack" true raw = Invoked calls c [v] → ∃ s e uri,
    get "periodStart" v = Instant s ∧ get "periodEnd" v = Instant e ∧ get "artifactUri" v = Text uri ∧
    ∀ dossier manifest by_ at_, passes rules_reporting_packs
      (mk_reporting_pack dossier (pg_of_js s) (pg_of_js e) uri (sha256 (manifest_text manifest)) "not_submitted" None by_ at_)) ∧
  (∀ text, 20 <= utf16_length text <= 4000 → 10 <= code_point_count text <= 4000 ∧
    (Forall (λ point, point < 65536) text → 20 <= code_point_count text <= 4000)).
Proof.
  split_and!.
  - intros R H. apply (serve_input _ _ _ _ _ _ _ _ _ _ (evidence_procedure R)) in H as (cat & uri & sha & E1 & E2 & E3 & C1 & C2 & C3)%evidence_admitted.
    exists cat, uri, sha. split_and!; try done. intros subject cp by_ at_. unfold passes. cbn [checks rules_readiness_items]. rewrite !Forall_cons.
    split_and!; try done. by apply bool_decide_eq_true.
  - intros R Hr H. apply (serve_input _ _ _ _ _ _ _ _ _ _ (assess_procedure R Hr)) in H. by apply rationale_admitted in H.
  - intros H. apply (serve_input _ _ _ _ _ _ _ _ _ _ incident_procedure) in H
      as (kind & sev & o & d & uri & text & E1 & E2 & E3 & E4 & E5 & E6 & C1 & C2 & C3 & C4 & C5)%incident_admitted.
    exists kind, sev, o, d, uri, text. split_and!; try done; [lia..|]. intros dossier by_ at_. unfold passes_but. cbn [checks rules_incidents]. rewrite !Forall_cons.
    split_and!; try (by left); cbn [fst snd csi_occurred_at csi_detected_at];
      [left; by apply bool_decide_eq_true..|by right|left; apply Z.leb_le; unfold pg_of_js; lia].
  - intros H. apply (serve_input _ _ _ _ _ _ _ _ _ _ pack_procedure) in H as (s & e & uri & E1 & E2 & E3 & C1 & C2)%pack_admitted.
    exists s, e, uri. split_and!; try done. intros dossier manifest by_ at_. unfold passes. cbn [checks rules_reporting_packs]. rewrite !Forall_cons.
    split; [exact C2|]. split; [apply sha256_is_hex|]. split; [cbn [fst crp_period_start crp_period_end]; apply Z.ltb_lt; unfold pg_of_js; lia|].
    split; [reflexivity|by apply Forall_nil].
  - intros text Ht. pose proof (utf16_bounds text). split; [lia|]. intros Hb%utf16_bmp. lia.
Qed.

(** ** Departures *)

(** Departure: the document grants the auditor no write path; two mutations let
    an auditor through, and no others. *)
Theorem auditor_has_write_paths : (p_path <$> List.filter (λ p, p_mutation p && lets (p_guard p) (Some RoleAuditor)) procedures0) =
  ["postgres.verifyReadinessAssuranceEvidence"; "postgres.rejectReadinessAssuranceEvidence"].
Proof. vm_compute. reflexivity. Qed.
(** Departure: registering a counterparty, configuring an integration connection
    and setting an alert policy are the compliance officer's too in the document,
    and reading ledgers every operator's; these procedures let administrators
    through and nobody else. *)
Theorem router_narrower_than_documented path : path ∈ narrower_than_documented →
  (∃ action paths roles, (action, paths, roles) ∈ authority_rows ∧ path ∈ paths ∧ RoleComplianceOfficer ∈ roles) ∧
  p_guard <$> find_procedure0 path = Some adminProcedure.
Proof.
  intros Hp. assert (Forall (λ path, existsb (λ row : string * list string * list operating_role,
      includes row.1.2 path && includes row.2 RoleComplianceOfficer) authority_rows = true ∧ p_guard <$> find_procedure0 path = Some adminProcedure)
    narrower_than_documented) as H by (repeat (apply Forall_cons; split; [split; vm_compute; reflexivity|]); by apply Forall_nil).
  destruct (proj1 (Forall_forall _ _) H path Hp) as [(row & Hr%list_elem_of_In & [H1%includes_true H2%includes_true]%andb_true_iff)%existsb_exists Hg].
  split; [|done]. by exists row.1.1, row.1.2, row.2; destruct row as [[]].
Qed.

(** Departure: a summary or a rationale of ten characters outside the Basic
    Multilingual Plane has the 20 units the router asks for and not the 20
    characters of the CHECK, which then refuses what the router admitted. *)
Theorem ten_emoji_pass_the_router : let text := replicate 10 128512 in
  (20 <=? utf16_length text) && (utf16_length text <=? 4000) = true ∧ (20 <=? code_point_count text) && (code_point_count text <=? 4000) = false.
Proof. split; reflexivity. Qed.

(** Requests with their context. *)
Context (process_env : string → option string) (parse_url : string → option issuer_url) (resolve_url : string → string → string).
Context (jwks_verify : Z → string → string → string → string → option claims) {token : Type} `{!SessionTokens token}.
Local Abbreviation createContext0 := (Identity.createContext process_env parse_url resolve_url jwks_verify (token := token)).

(** C10. Requests are authorised before anything else, as the access matrix
    says. Whatever headers, cookies and input a request has: if it makes any
    call, the matrix grants its path and kind to the caller, and outside the
    three public reads the caller is a verified identity with the role the
    database gives it now, and the actor of the call is that identity with that
    role, never something the input says. A path and kind outside the matrix is
    refused as unknown; one inside it is refused as forbidden, whatever the
    input, exactly when the matrix does not grant it to the caller, be it one of
    the seven roles or nobody. The rows of the documented authority matrix have
    exactly the roles they name, apart from seven entries where the router is
    narrower than the document. *)
Theorem requests_are_authorised E header cookies d path m raw :
  let ctx := (createContext0 E now header cookies d).1 in
  (∀ calls c args, serve0 ctx path m raw = Invoked calls c args → entitled (who ctx) path m = true ∧
    (path ∉ public_reads → ∃ u, cx_user ctx = Some u ∧ verified_identity process_env parse_url resolve_url jwks_verify now header cookies (pu_identity u) ∧
      resolvePostgresOperatingRole (pi_openId (pu_identity u)) d = Some (pu_role u) ∧ speaks_for c u)) ∧
  (listed path m = false → serve0 ctx path m raw = Refused NotFound ∨ serve0 ctx path m raw = Refused MethodNotSupported) ∧
  (listed path m = true → serve0 ctx path m raw = Refused Forbidden ↔ entitled (who ctx) path m = false) ∧
  (∀ action paths roles r, (action, paths, roles) ∈ authority_rows → path ∈ paths → path ∉ narrower_than_documented →
    r ∈ roles ↔ ∃ kind, entitled (Some r) path kind = true).
Proof.
  intros ctx. split_and!.
  - intros calls c args (p & Hp & <- & <- & _ & Ha & Hc)%serve_invoked. rewrite guard_granted in Ha by done. split; [done|].
    intros Hpub. destruct (cx_user ctx) as [u|] eqn:Hu; [|by destruct Hpub; apply nobody_reads with (p_mutation p); unfold who in Ha; rewrite Hu in Ha].
    exists u. split; [done|].
    destruct (context_cases process_env parse_url resolve_url jwks_verify E now header cookies d) as [(_ & _ & Hx)|(v & Hv & Hx)];
      unfold ctx in Hu; rewrite Hx in Hu; [done|]. destruct (resolvePostgresOperatingRole (pi_openId v) d) as [role|] eqn:Hr; [|done].
    injection Hu as <-. split; [by apply established_verified|]. split; [done|]. eapply caller_speaks; [exact Hc|]. unfold ctx. by rewrite Hx.
  - intros Hl. unfold Router.serve. destruct (find_procedure0 path) as [p|] eqn:Hf; [|by left]. right.
    destruct (Bool.eqb (p_mutation p) m) eqn:Hm; [|done]. apply eqb_prop in Hm. rewrite (proj2 (listed_iff path m)) in Hl; [done|by exists p].
  - intros (p & Hf & Hm)%listed_iff. pose proof Hf as [Hp Hpath]%found_in. rewrite <- Hpath, <- Hm, <- guard_granted by done. rewrite Hpath.
    unfold Router.serve. rewrite Hf, eqb_reflx. cbn [negb]. destruct (passes_guard (p_guard p) ctx) eqn:Ha; cbn [negb]; [|done]. split; [|done].
    destruct (match p_input p with Some s => s raw | None => _ end); [|done]. by destruct (caller_given p ctx Hp Ha) as [c ->].
  - intros action paths roles r. apply documented_rows.
Qed.
End router.
