(* ===== verification/Queries.v ===== *)
(** * Reads of the data layer

    The queries of src/apps/control-plane/server/postgres.ts that only read: the
    dashboard, listings, the credential history of an integration, the cutover
    and privilege reports, and the sizes of the connection pool. A listing gives
    the rows with their identifiers; columns are renamed and not repeated here.
    Rows that tie in the order of a query come in any order. *)

From S2P Require Import Prelude Js Numeric Rows Schema Zod Contracts.

Local Open Scope string_scope.
Local Open Scope Z_scope.

(** ** The connection pool *)

(** [/^[0-9]+$/], then [Number(value)] safe and positive. *)
Definition positiveInteger (value : option string) (fallback : Z) (name : string) : res Z :=
  match value with
  | None => Ok fallback
  | Some v =>
      if negb (truthy v) then Ok fallback
      else if negb (all_chars is_digit v) then Throw (JsError (name +:+ " must be an integer"))
      else
        let parsed := digits_value 0 v in
        if (2 ^ 53 - 1 <? parsed) || (parsed <=? 0) then Throw (JsError (name +:+ " must be positive")) else Ok parsed
  end.

Record pool_options : Type := mk_pool_options {
  po_max : Z;
  po_connectionTimeoutMillis : Z;
  po_idleTimeoutMillis : Z;
  po_statement_timeout : Z;
  po_lock_timeout : Z;
  po_connectionString : option string
}.
Definition getPool (process_env : string → option string) : res pool_options :=
  max ← positiveInteger (process_env "POSTGRES_POOL_MAX") 10 "POSTGRES_POOL_MAX";
  connection ← positiveInteger (process_env "POSTGRES_CONNECTION_TIMEOUT_MS") 5000 "POSTGRES_CONNECTION_TIMEOUT_MS";
  idle ← positiveInteger (process_env "POSTGRES_IDLE_TIMEOUT_MS") 30000 "POSTGRES_IDLE_TIMEOUT_MS";
  statement ← positiveInteger (process_env "POSTGRES_STATEMENT_TIMEOUT_MS") 30000 "POSTGRES_STATEMENT_TIMEOUT_MS";
  lock ← positiveInteger (process_env "POSTGRES_LOCK_TIMEOUT_MS") 5000 "POSTGRES_LOCK_TIMEOUT_MS";
  Ok (mk_pool_options max connection idle statement lock
    (match process_env "POSTGRES_DATABASE_URL" with Some url => if truthy url then Some url else None | None => None end)).

(** ** The dashboard *)

(** [SELECT state, count(…) … GROUP BY state]. *)
Definition group_counts {A} (state : A → string) (t : gmap uuid A) : list (string * Z) :=
  let states := state <$> (map_to_list t).*2 in
  (λ s, (s, Z.of_nat (length (List.filter (λ x, bool_decide (x = s)) states)))) <$> remove_dups states.

Record dashboard : Type := mk_dashboard {
  da_counterpartyCounts : list (string * Z);
  da_integrationCounts : list (string * Z);
  da_paymentCounts : list (string * Z);
  da_caseCounts : list (string * Z);
  da_reportCounts : list (string * Z);
  da_latestEvents : list activity_event
}.
(** [ORDER BY … DESC LIMIT n]. *)
Definition newest {A} (at_ : A → Z) (n : nat) (l : list A) : list A := take n (order_by_desc at_ l).
Definition getPostgresDashboardSnapshot (d : db) : dashboard :=
  mk_dashboard (group_counts cp_counterparty_type (counterparties d)) (group_counts (λ c, pg_text (ic_state c)) (integration_connections d))
    (group_counts (λ o, pg_text (po_status o)) (payment_orders d)) (group_counts (λ c, pg_text (cc_status c)) (compliance_cases d))
    (group_counts (λ r, pg_text (rr_status r)) (regulatory_reports d)) (newest ev_occurred_at 12 (activity_events d)).

(** ** Listings *)

Definition rows_of {A} (t : gmap uuid A) : list (uuid * A) := map_to_list t.
Definition newest_rows {A} (at_ : A → Z) (n : nat) (l : list (uuid * A)) : list (uuid * A) := newest (λ x, at_ x.2) n l.
Definition by_time {A} (at_ : A → Z) (l : list (uuid * A)) : list (uuid * A) := order_by_desc (λ x, at_ x.2) l.

Definition listPostgresCounterparties (d : db) : list (uuid * counterparty) := by_time cp_created_at (rows_of (counterparties d)).

(** A customer with the numbers of its documents and of the approved ones. *)
Definition documents_of (customerId : uuid) (d : db) : list kyc_document :=
  (select (λ _ x, bool_decide (kd_customer_id x = customerId)) (kyc_documents d)).*2.
Definition customer_progress (d : db) (x : uuid * customer) : uuid * customer * Z * Z :=
  let documents := documents_of x.1 d in
  (x.1, x.2, Z.of_nat (length documents), Z.of_nat (length (List.filter (λ k, bool_decide (kd_review_status k = KycApproved)) documents))).
Definition listPostgresCustomers (d : db) : list (uuid * customer * Z * Z) :=
  customer_progress d <$> newest_rows cust_created_at 200 (rows_of (customers d)).

Definition listPostgresBeneficiaries (customerId : option uuid) (d : db) : list (uuid * beneficiary) :=
  newest_rows ben_created_at 200
    (match customerId with
     | Some k => select (λ _ b, bool_decide (ben_customer_id b = k)) (beneficiaries d)
     | None => rows_of (beneficiaries d)
     end).
Definition listPostgresSarStrFilings (d : db) : list (uuid * sar_str_filing) := by_time ssf_created_at (rows_of (sar_str_filings d)).
Definition listPostgresComplianceCases (d : db) : list (uuid * compliance_case) := newest_rows cc_opened_at 200 (rows_of (compliance_cases d)).
Definition listPostgresRegulatoryDeadlines (d : db) : list (uuid * regulatory_deadline) :=
  order_by (λ x, rd_due_at x.2) (rows_of (regulatory_deadlines d)).
Definition listPostgresNotificationDeliveries (d : db) : list notification_delivery := order_by_desc nd_created_at (notification_deliveries d).
(** [ORDER BY reconciled_at DESC, created_at DESC]; the second column is not in
    the rows, so positions reconciled at one instant are a tie here. *)
Definition listPostgresLiquidityPositions (d : db) : list (uuid * liquidity_position) :=
  newest_rows lp_reconciled_at 200 (rows_of (liquidity_positions d)).
(** [JOIN counterparties]. *)
Definition with_counterparty (d : db) (l : list (uuid * integration_connection)) : list (uuid * integration_connection * string) :=
  omap (λ x : uuid * integration_connection, (λ c, (x.1, x.2, cp_legal_name c)) <$> counterparties d !! ic_counterparty_id x.2) l.
Definition listPostgresIntegrationConnections (d : db) : list (uuid * integration_connection * string) :=
  with_counterparty d (by_time ic_created_at (rows_of (integration_connections d))).
Definition listPostgresIntegrationCredentialStatus (d : db) : list (uuid * integration_connection * string * bool) :=
  (λ x : uuid * integration_connection * string, (x.1.1, x.1.2, x.2, is_some (ic_secret_reference x.1.2))) <$> listPostgresIntegrationConnections d.
Definition listPostgresCorridorPolicies (d : db) : list (uuid * corridor_policy) := by_time cpol_created_at (rows_of (corridor_policies d)).
Definition listPostgresRateLocks (d : db) : list (uuid * rate_lock) := by_time rl_created_at (rows_of (rate_locks d)).
Definition listPostgresAlertPolicies (d : db) : list (uuid * alert_policy) := by_time ap_created_at (rows_of (alert_policies d)).

(** [legal_name] sorts by the collation of the database. *)
Definition listPostgresLegalEntities (collate : relation string) `{!∀ x y, Decision (collate x y)} (d : db) : list (uuid * legal_entity) :=
  merge_sort (λ x y, collate (le_legal_name x.2) (le_legal_name y.2)) (rows_of (legal_entities d)).

(** ** The credential history of an integration *)

Definition credential_actions : list string :=
  ["integration_connection.created"; "integration_connection.credential_configured"; "integration_connection.activated";
   "integration_connection.activation_refused"; "integration_connection.suspended"].
Definition credential_event (id : uuid) (e : activity_event) : bool :=
  bool_decide (ev_object_type e = "integration_connection") && bool_decide (ev_object_id e = Some id) && includes credential_actions (ev_action e).
Definition audit_limit (limit : option Z) : Z := Z.min (Z.max (default 50 limit) 1) 200.
Definition listPostgresCredentialAuditTrail (id : uuid) (limit : option Z) (d : db) : list activity_event :=
  newest ev_occurred_at (Z.to_nat (audit_limit limit)) (List.filter (credential_event id) (activity_events d)).

(** ** The schema and its privileges *)

Definition canonicalTables : list string :=
  ["activity_events"; "alert_policies"; "beneficiaries"; "compliance_cases"; "corridor_policies"; "counterparties"; "counterparty_authorizations";
   "counterparty_onboardings"; "counterparty_onboarding_gate_decisions"; "counterparty_evidence_items"; "counterparty_financial_soundness_decisions";
   "bank_evidence_items"; "counterparty_crypto_posture_decisions"; "psp_evidence_items"; "psp_gate_decisions"; "stablecoin_issuer_evidence_items";
   "stablecoin_issuer_gate_decisions"; "compliance_vendor_evidence_items"; "compliance_vendor_gate_decisions"; "operator_onboarding_records";
   "auditor_engagement_records"; "counterparty_risk_assessments"; "customers"; "customer_destination_counterparties"; "customer_use_case_gate_decisions";
   "document_analysis_evidence"; "document_analysis_jobs"; "integration_connections"; "kyc_documents"; "kyc_document_upload_intents"; "legal_entities";
   "liquidity_positions"; "market_observations"; "notification_deliveries"; "payment_legs"; "payment_orders"; "policy_decisions"; "rate_locks";
   "regulatory_deadlines"; "regulatory_reports"; "sar_str_filings"; "scheduled_jobs"; "treasury_buffer_policies";
   "treasury_rebalancing_recommendations"; "treasury_stress_test_runs"; "user_role_assignments"; "verification_consents";
   "verification_reviewer_decisions"].
Record cutover_readiness : Type := mk_cutover_readiness {
  cr_ready : bool;
  cr_expectedTableCount : Z;
  cr_presentTableCount : Z;
  cr_missingTables : list string
}.
(** [tables] are the names in [pg_tables]; the fixed text the report ends with is
    left out. *)
Definition getPostgresCutoverReadiness (tables : list string) : cutover_readiness :=
  let missingTables := List.filter (λ t, negb (includes tables t)) canonicalTables in
  mk_cutover_readiness (bool_decide (missingTables = [])) (Z.of_nat (length canonicalTables)) (Z.of_nat (length (remove_dups tables))) missingTables.

Record table_privileges : Type := mk_table_privileges {
  tp_table : string;
  tp_insert : bool;
  tp_update : bool;
  tp_delete : bool
}.
Definition appendOnlyEvidenceTables : list string :=
  ["activity_events"; "document_analysis_evidence"; "verification_reviewer_decisions"; "policy_decisions"; "postgres_cutover_runs";
   "postgres_cutover_table_reconciliations"; "notification_deliveries"; "counterparty_risk_assessments"; "market_observations"].
Record privilege_boundary : Type := mk_privilege_boundary {
  pb_tables : list table_privileges;
  pb_appendOnlyViolations : list string;
  pb_deletableTables : list string;
  pb_ownsSchemaObjects : bool;
  pb_canCreateInSchema : bool
}.
(** The rows of [pg_tables] with the privileges of the current role, how many of
    them it owns, and whether it may create. *)
Definition getPostgresPrivilegeBoundary (rows : list table_privileges) (owned : Z) (canCreate : bool) : privilege_boundary :=
  mk_privilege_boundary rows
    (tp_table <$> List.filter (λ r, tp_update r || tp_delete r) (List.filter (λ r, includes appendOnlyEvidenceTables (tp_table r)) rows))
    (tp_table <$> List.filter tp_delete rows) (0 <? owned) canCreate.

Definition countPostgresRows (table : string) (d : db) : res Z :=
  if bool_decide (table = "document_analysis_jobs") then Ok (Z.of_nat (size (document_analysis_jobs d)))
  else if bool_decide (table = "activity_events") then Ok (Z.of_nat (length (activity_events d)))
  else if bool_decide (table = "kyc_documents") then Ok (Z.of_nat (size (kyc_documents d)))
  else if bool_decide (table = "verification_consents") then Ok (Z.of_nat (size (verification_consents d)))
  else Throw (JsError "table is not permitted for row counting").
