(* ===== verification/QueriesProps.v ===== *)
(** * Properties of the reads of the data layer

    A dashboard counts every row once; a bounded listing keeps the newest rows;
    the credential history of an integration, the cutover report and the
    privilege report say exactly what the database holds; a pool is never opened
    with a size or a timeout of zero. *)

From S2P Require Import Prelude Js Numeric Rows Schema Zod Contracts Queries.

Local Open Scope string_scope.
Local Open Scope Z_scope.

(** ** Newest rows first *)

(** [top at_ n l r]: [r] holds [n] rows of [l], or all of them, newest first,
    and no row left out is newer than one that is kept. *)
Definition top {A} (at_ : A → Z) (n : nat) (l r : list A) : Prop :=
  length r = Nat.min n (length l) ∧ StronglySorted (λ x y, at_ y <= at_ x) r ∧
  ∃ older, l ≡ₚ (r ++ older)%list ∧ ∀ x y, x ∈ r → y ∈ older → at_ y <= at_ x.

Lemma StronglySorted_app_split {A} (R : relation A) (l k : list A) :
  StronglySorted R (l ++ k)%list → StronglySorted R l ∧ ∀ x y, x ∈ l → y ∈ k → R x y.
Proof.
  induction l as [|a l IH]; cbn.
  - intros _. split; [constructor|]. by intros x y []%elem_of_nil.
  - intros [[H1 H2]%IH Ha]%StronglySorted_inv. apply Forall_app in Ha as [Hl Hk]. split; [by constructor|].
    intros x y [->|Hx]%elem_of_cons Hy; [|by apply H2]. rewrite Forall_forall in Hk. by apply Hk.
Qed.

Lemma StronglySorted_weaken {A} (R S : relation A) (l : list A) :
  (∀ x y, R x y → S x y) → StronglySorted R l → StronglySorted S l.
Proof. intros HRS. induction 1 as [|a l Hl IH Ha]; constructor; [done|]. by eapply Forall_impl; [exact Ha|]; cbn; auto. Qed.

Lemma newest_top {A} (at_ : A → Z) n l : top at_ n l (newest at_ n l).
Proof.
  unfold newest, order_by_desc. set (key := λ x, - at_ x). pose proof (order_by_perm key l) as Hp.
  pose proof (order_by_sorted key l) as Hs. rewrite <- (take_drop n (order_by key l)) in Hs.
  apply StronglySorted_app_split in Hs as [Hs Ho]. split; [|split].
  - by rewrite length_take, (Permutation_length Hp).
  - revert Hs. apply StronglySorted_weaken. unfold key_le, key. lia.
  - exists (drop n (order_by key l)). rewrite take_drop. split; [done|].
    intros x y Hx Hy. specialize (Ho x y Hx Hy). unfold key_le, key in Ho. lia.
Qed.

(** Every row is in a listing that has no bound, once. *)
Lemma by_time_complete {A} (at_ : A → Z) (t : gmap uuid A) k a : (k, a) ∈ by_time at_ (rows_of t) ↔ t !! k = Some a.
Proof. unfold by_time, order_by_desc, rows_of. by rewrite order_by_perm, elem_of_map_to_list. Qed.

(** ** Group counts *)

Section counts.
Context {A : Type} (state : A → string).
Implicit Types (t : gmap uuid A).

Definition rows_in (s : string) t : list (uuid * A) := select (λ _ a, bool_decide (state a = s)) t.
Definition total (counts : list (string * Z)) : Z := foldr (λ x n, x.2 + n) 0 counts.

Lemma occurrences_in (s : string) (l : list (uuid * A)) :
  length (List.filter (λ x, bool_decide (x = s)) (state <$> l.*2)) = length (List.filter (λ r, bool_decide (state r.2 = s)) l).
Proof. induction l as [|[k a] l IH]; cbn; [done|]. case_bool_decide; cbn; by rewrite IH. Qed.

Lemma states_occur (s : string) t : s ∈ state <$> (map_to_list t).*2 ↔ rows_in s t ≠ [].
Proof.
  unfold rows_in, select. rewrite list_elem_of_fmap. split.
  - intros (a & -> & ([k b] & -> & Hr)%list_elem_of_fmap) Hn.
    assert ((k, b) ∈ ([] : list (uuid * A))) as []%elem_of_nil. rewrite <- Hn. apply elem_of_List_filter. cbn. by rewrite bool_decide_eq_true_2.
  - intros Hn. destruct (List.filter _ _) as [|[k a] l] eqn:Hf; [done|].
    assert ((k, a) ∈ (k, a) :: l) as Hin by (apply elem_of_cons; by left). rewrite <- Hf in Hin. apply elem_of_List_filter in Hin as [Hin Hs].
    cbn in Hs. apply bool_decide_eq_true in Hs. exists a. split; [done|]. apply list_elem_of_fmap. by exists (k, a).
Qed.

Lemma group_counts_exact t s n :
  (s, n) ∈ group_counts state t ↔ n = Z.of_nat (length (rows_in s t)) ∧ 0 < n.
Proof.
  unfold group_counts. rewrite list_elem_of_fmap. unfold rows_in, select. setoid_rewrite elem_of_remove_dups. setoid_rewrite states_occur.
  setoid_rewrite occurrences_in. unfold rows_in, select. split.
  - intros (s' & [= -> ->] & Hne). split; [done|]. destruct (List.filter _ _); [done|cbn; lia].
  - intros [-> Hpos]. exists s. split; [done|]. intros Hn. rewrite Hn in Hpos. cbn in Hpos. lia.
Qed.

(** The sizes of the groups of a list over distinct values covering it. *)
Lemma group_total (xs : list string) (ks : list string) :
  NoDup ks → (∀ x, x ∈ xs → x ∈ ks) →
  total ((λ s, (s, Z.of_nat (length (List.filter (λ x, bool_decide (x = s)) xs)))) <$> ks) = Z.of_nat (length xs).
Proof.
  revert xs. induction ks as [|s ks IH]; intros xs Hd Hc; cbn [fmap list_fmap total foldr].
  - destruct xs as [|x xs]; [done|]. by specialize (Hc x ltac:(apply elem_of_cons; by left)) as []%elem_of_nil.
  - apply NoDup_cons in Hd as [Hs Hd]. cbn [snd]. fold (total ((λ s, (s, Z.of_nat (length (List.filter (λ x, bool_decide (x = s)) xs)))) <$> ks)).
    set (others := List.filter (λ x, negb (bool_decide (x = s))) xs).
    specialize (IH others Hd). rewrite <- (filter_length (λ x, bool_decide (x = s)) xs), Nat2Z.inj_add. fold others. f_equal.
    rewrite <- IH.
    + f_equal. apply list_fmap_ext. intros i k Hk. f_equal. f_equal. unfold others. symmetry.
      assert (k ≠ s) as Hks by (intros ->; apply Hs; eapply list_elem_of_lookup_2, Hk). clear -Hks.
      induction xs as [|x xs IH]; cbn; [done|]. destruct (decide (x = s)) as [->|Hx]; case_bool_decide; try done; cbn; [| by case_bool_decide; cbn; rewrite IH].
      rewrite (bool_decide_eq_false_2 (s = k)); [done|congruence].
    + unfold others. intros x [Hx Hn]%elem_of_List_filter. apply negb_true_iff, bool_decide_eq_false in Hn.
      apply Hc in Hx. apply elem_of_cons in Hx as [->|Hx]; done.
Qed.

Lemma group_counts_total t : total (group_counts state t) = Z.of_nat (size t).
Proof.
  unfold group_counts. rewrite group_total.
  - by rewrite !length_fmap, length_map_to_list.
  - apply NoDup_remove_dups.
  - intros x. by rewrite elem_of_remove_dups.
Qed.
End counts.

(** Each figure of the dashboard is the number of rows in that state, a state is
    shown exactly when some row has it, the figures of a table sum to its size, and
    the events shown are the twelve newest. *)
Theorem dashboard_is_exact (d : db) :
  let s := getPostgresDashboardSnapshot d in
  (∀ st n, (st, n) ∈ da_paymentCounts s ↔ n = Z.of_nat (length (rows_in (λ o, pg_text (po_status o)) st (payment_orders d))) ∧ 0 < n) ∧
  (∀ st n, (st, n) ∈ da_caseCounts s ↔ n = Z.of_nat (length (rows_in (λ c, pg_text (cc_status c)) st (compliance_cases d))) ∧ 0 < n) ∧
  total (da_counterpartyCounts s) = Z.of_nat (size (counterparties d)) ∧
  total (da_integrationCounts s) = Z.of_nat (size (integration_connections d)) ∧
  total (da_paymentCounts s) = Z.of_nat (size (payment_orders d)) ∧
  total (da_caseCounts s) = Z.of_nat (size (compliance_cases d)) ∧
  total (da_reportCounts s) = Z.of_nat (size (regulatory_reports d)) ∧
  top ev_occurred_at 12 (activity_events d) (da_latestEvents s).
Proof.
  cbn. split_and!; intros; first [apply group_counts_total | apply newest_top | apply group_counts_exact].
Qed.

(** ** The credential history *)

(** The trail is the newest of exactly the events of that connection that touch
    its credential; an unspecified limit is 50 and any other is brought into
    1 to 200. *)
Theorem credential_trail_exact (id : uuid) (limit : option Z) (d : db) :
  let l := audit_limit limit in
  1 <= l <= 200 ∧ (∀ n, limit = Some n → 1 <= n <= 200 → l = n) ∧
  top ev_occurred_at (Z.to_nat l) (List.filter (credential_event id) (activity_events d)) (listPostgresCredentialAuditTrail id limit d) ∧
  ∀ e, e ∈ listPostgresCredentialAuditTrail id limit d →
    e ∈ activity_events d ∧ ev_object_type e = "integration_connection" ∧ ev_object_id e = Some id ∧ ev_action e ∈ credential_actions.
Proof.
  cbn. unfold audit_limit. split; [lia|]. split; [intros n -> ?; cbn; lia|]. split; [apply newest_top|].
  intros e He. destruct (newest_top ev_occurred_at (Z.to_nat (audit_limit limit)) (List.filter (credential_event id) (activity_events d)))
    as (_ & _ & older & Hp & _).
  assert (e ∈ List.filter (credential_event id) (activity_events d)) as [Hin Hc]%elem_of_List_filter.
  { rewrite Hp. apply elem_of_app. by left. }
  unfold credential_event in Hc. apply andb_true_iff in Hc as [[H1 H2]%andb_true_iff H3].
  apply bool_decide_eq_true in H1, H2. by apply includes_true in H3.
Qed.

(** ** The schema and its privileges *)

(** The database is ready for cutover exactly when no canonical table is missing;
    the tables reported missing are those, and the count expected has no
    repetition in it. *)
Theorem cutover_ready_exact (tables : list string) :
  let r := getPostgresCutoverReadiness tables in
  (cr_ready r = true ↔ ∀ t, t ∈ canonicalTables → t ∈ tables) ∧
  (∀ t, t ∈ cr_missingTables r ↔ t ∈ canonicalTables ∧ t ∉ tables) ∧
  (cr_ready r = true → cr_expectedTableCount r <= cr_presentTableCount r).
Proof.
  assert (∀ t, t ∈ List.filter (λ t, negb (includes tables t)) canonicalTables ↔ t ∈ canonicalTables ∧ t ∉ tables) as Hm.
  { intros t. rewrite elem_of_List_filter, negb_true_iff, <- not_true_iff_false, includes_true. done. }
  assert (bool_decide (List.filter (λ t, negb (includes tables t)) canonicalTables = []) = true ↔ ∀ t, t ∈ canonicalTables → t ∈ tables) as Hr.
  { rewrite bool_decide_eq_true. split.
    - intros He t Ht. destruct (decide (t ∈ tables)) as [|Hn]; [done|].
      assert (t ∈ ([] : list string)) as []%elem_of_nil. rewrite <- He. by apply Hm.
    - intros H. apply elem_of_nil_inv. intros t [Ht Hn]%Hm. by apply Hn, H. }
  cbn [getPostgresCutoverReadiness cr_ready cr_missingTables cr_expectedTableCount cr_presentTableCount]. split; [exact Hr|]. split; [exact Hm|].
  intros Hready. pose proof (proj1 Hr Hready) as H. apply Nat2Z.inj_le, submseteq_length, NoDup_submseteq.
  - apply (bool_decide_eq_true (NoDup canonicalTables)). vm_compute. reflexivity.
  - intros t Ht. apply elem_of_remove_dups. by apply H.
Qed.

(** A table is reported as an append-only violation exactly when it is one of the
    evidence tables and the role may update or delete its rows, and every such
    table it may delete from is also among the deletable ones. *)
Theorem append_only_violations_exact (rows : list table_privileges) (owned : Z) (canCreate : bool) :
  let b := getPostgresPrivilegeBoundary rows owned canCreate in
  (∀ t, t ∈ pb_appendOnlyViolations b ↔
    t ∈ appendOnlyEvidenceTables ∧ ∃ r, r ∈ rows ∧ tp_table r = t ∧ (tp_update r = true ∨ tp_delete r = true)) ∧
  (∀ t, t ∈ pb_deletableTables b ↔ ∃ r, r ∈ rows ∧ tp_table r = t ∧ tp_delete r = true) ∧
  (pb_ownsSchemaObjects b = true ↔ 0 < owned).
Proof.
  cbn [getPostgresPrivilegeBoundary pb_appendOnlyViolations pb_deletableTables pb_ownsSchemaObjects]. split; [|split].
  - intros t. rewrite list_elem_of_fmap. setoid_rewrite elem_of_List_filter. setoid_rewrite elem_of_List_filter.
    setoid_rewrite includes_true. setoid_rewrite orb_true_iff. naive_solver.
  - intros t. rewrite list_elem_of_fmap. setoid_rewrite elem_of_List_filter. naive_solver.
  - apply Z.ltb_lt.
Qed.

(** ** The pool *)

Lemma positiveInteger_bounds value fallback name n :
  0 < fallback < 2 ^ 53 → positiveInteger value fallback name = Ok n → 0 < n < 2 ^ 53.
Proof.
  intros Hf. unfold positiveInteger. destruct value as [v|]; [|by intros [= <-]].
  repeat case_match; try done; [by intros [= <-]|]. intros [= <-]. apply orb_false_iff in H1 as [H1 H2]. lia.
Qed.

(** A pool is opened with its sizes and timeouts positive and exact as doubles,
    and refused otherwise. *)
Theorem pool_sizes_positive (process_env : string → option string) (o : pool_options) :
  getPool process_env = Ok o →
  0 < po_max o < 2 ^ 53 ∧ 0 < po_connectionTimeoutMillis o < 2 ^ 53 ∧ 0 < po_idleTimeoutMillis o < 2 ^ 53 ∧
  0 < po_statement_timeout o < 2 ^ 53 ∧ 0 < po_lock_timeout o < 2 ^ 53.
Proof.
  unfold getPool. intros H.
  repeat match type of H with
  | mbind _ ?m = Ok _ => let E := fresh "E" in destruct m as [?|?] eqn:E; cbn [mbind res_bind] in H; [apply positiveInteger_bounds in E; [|done]|done]
  end.
  injection H as <-. done.
Qed.

(** A count is given for four tables only, and is the number of rows. *)
Theorem row_counts_allowlisted (table : string) (d : db) (n : Z) :
  countPostgresRows table d = Ok n →
  table ∈ ["document_analysis_jobs"; "activity_events"; "kyc_documents"; "verification_consents"] ∧ 0 <= n.
Proof. unfold countPostgresRows. intros H. repeat case_bool_decide; subst; simplify_eq; (split; [set_solver|lia]). Qed.
