(* ===== verification/KeycloakAdmin.v ===== *)
(** * Accounts at the identity provider

    src/apps/control-plane/server/keycloakAdmin.ts: the service account of the
    control plane, its cached token, and the three calls on the accounts of the
    realm (list, enable or disable, create).

    The environment, the URL parser and the provider are arguments; what the
    provider answers may depend on everything sent to it before. The state is the
    module's cached token, the readings taken of the clock and the exchanges with
    the provider. *)

From S2P Require Import Prelude Js Numeric Sha256 Hmac Rows Schema SodMonitor Access Identity.

Local Open Scope string_scope.
Local Open Scope Z_scope.

(** ** Requests and answers *)

Inductive request_body : Type :=
  | NoBody
  | FormBody (fields : list (string * string))
  | JsonBody (value : json).
(** A request without the content type of its body and the ten-second limit. *)
Record http_request : Type := mk_http_request {
  rq_method : string;
  rq_url : string;
  rq_bearer : option string;
  rq_body : request_body
}.

(** A user representation; the identifier of an account is a UUID. *)
Record user_representation : Type := mk_user_representation {
  ur_id : uuid;
  ur_username : string;
  ur_email : option string;
  ur_firstName : option string;
  ur_lastName : option string;
  ur_enabled : option bool
}.
(** What [response.json()] gives, when it does. *)
Inductive response_body : Type :=
  | TokenBody (access_token : option string) (expires_in : option Z)
  | UsersBody (users : list user_representation)
  | NotJson.
Record http_response : Type := mk_http_response {
  rs_status : Z;
  rs_location : option string;
  rs_body : response_body
}.
Definition rs_ok (r : http_response) : bool := (200 <=? rs_status r) && (rs_status r <=? 299).

(** [x_reads] counts the readings of the clock before the request was sent;
    [None] is a failed or timed-out [fetch]. *)
Record kc_exchange : Type := mk_kc_exchange {
  x_reads : nat;
  x_request : http_request;
  x_response : option http_response
}.
Record admin_state : Type := mk_admin_state {
  as_cachedToken : option (string * Z);
  as_reads : nat;
  as_sent : list kc_exchange
}.

(** ** Texts *)

(** A text from which [/\/realms\/[^/]+\/?$/] matches at its first character. *)
Definition realms_tail (s : string) : bool :=
  startsWith s "/realms/" &&
  (let r := strip_slash (String.substring 8 (String.length s) s) in
   truthy r && all_chars (λ c, negb (bool_decide (c = "/"%char))) r).
Fixpoint replace_realms (s : string) : string :=
  if realms_tail s then "/" else match s with EmptyString => "" | String c r => String c (replace_realms r) end.
Example replace_realms_ex : replace_realms "https://id.example/auth/realms/umoja/" = "https://id.example/auth/".
Proof. vm_compute. reflexivity. Qed.

(** [s.split(/\s+/)]. *)
Fixpoint split_spaces (inside : bool) (s : string) : list string :=
  match s with
  | EmptyString => [""]
  | String c r =>
      if is_space c then if inside then split_spaces true r else "" :: split_spaces true r
      else match split_spaces false r with
           | [] => [String c ""]
           | x :: xs => String c x :: xs
           end
  end.
Example split_spaces_ex : split_spaces false "Ada  King Lovelace" = ["Ada"; "King"; "Lovelace"].
Proof. vm_compute. reflexivity. Qed.

Definition generatePassword (random : bytes) : string := base64url random.

(** ** Configuration *)

Record admin_configuration : Type := mk_admin_configuration {
  ac_issuer : issuer_url;
  ac_adminBaseUrl : issuer_url;
  ac_realm : string;
  ac_clientId : string;
  ac_clientSecret : string
}.

Section admin.
Context (process_env : string → option string) (parse_url : string → option issuer_url) (pathname : issuer_url → string).
Context (resolve_url : string → string → string) (with_params : string → list (string * string) → string).
Context (fetch : list kc_exchange → http_request → option http_response) (Date_now : nat → Z).

Definition adminConfiguration : option admin_configuration :=
  rawIssuer ← env_text process_env "UMOJA_KEYCLOAK_ISSUER";
  clientId ← env_text process_env "UMOJA_KEYCLOAK_ADMIN_CLIENT_ID";
  clientSecret ← env_text process_env "UMOJA_KEYCLOAK_ADMIN_CLIENT_SECRET";
  issuer ← parse_url rawIssuer;
  realm ← last (List.filter truthy (split_on "/" (pathname issuer)));
  adminBaseUrl ← (match env_text process_env "UMOJA_KEYCLOAK_ADMIN_BASE_URL" with
                  | Some raw => parse_url raw
                  | None => parse_url (replace_realms (iu_text issuer))
                  end);
  Some (mk_admin_configuration issuer adminBaseUrl realm clientId clientSecret).
Definition operatorAccountCreationAvailable : bool := is_some adminConfiguration.

(** ** The token *)

Definition kc_throw {A} (message : string) : Act admin_state A := λ s, (Throw (JsError message), s).
Definition kc_send (rq : http_request) : Act admin_state http_response := λ s,
  let answer := fetch (as_sent s) rq in
  let s' := mk_admin_state (as_cachedToken s) (as_reads s) (as_sent s ++ [mk_kc_exchange (as_reads s) rq answer])%list in
  (match answer with Some r => Ok r | None => Throw (JsError "fetch failed") end, s').
Definition read_clock : Act admin_state Z := λ s,
  (Ok (Date_now (as_reads s)), mk_admin_state (as_cachedToken s) (S (as_reads s)) (as_sent s)).
Definition cached_token : Act admin_state (option (string * Z)) := λ s, (Ok (as_cachedToken s), s).
Definition store_token (t : string * Z) : Act admin_state unit := λ s, (Ok tt, mk_admin_state (Some t) (as_reads s) (as_sent s)).

Definition token_url (config : admin_configuration) : string :=
  resolve_url "protocol/openid-connect/token" (strip_slash (iu_text (ac_issuer config)) +:+ "/").
Definition token_request (config : admin_configuration) : http_request :=
  mk_http_request "POST" (token_url config) None
    (FormBody [("grant_type", "client_credentials"); ("client_id", ac_clientId config); ("client_secret", ac_clientSecret config)]).
Definition token_expiry (now : Z) (expires_in : option Z) : Z := now + Z.max 0 (default 60 expires_in - 10) * 1000.

Definition fresh_token (config : admin_configuration) : Act admin_state string :=
  response ← kc_send (token_request config);
  if negb (rs_ok response) then kc_throw "identity provider rejected the admin service-account credential" else
  match rs_body response with
  | NotJson => kc_throw "the body is not JSON"
  | TokenBody (Some access_token) expires_in =>
      if truthy access_token then
        now ← read_clock;
        _ ← store_token (access_token, token_expiry now expires_in);
        mret access_token
      else kc_throw "identity provider returned no admin access token"
  | _ => kc_throw "identity provider returned no admin access token"
  end.
Definition adminToken (config : admin_configuration) : Act admin_state string :=
  cached ← cached_token;
  match cached with
  | None => fresh_token config
  | Some (value, expiresAt) => now ← read_clock; if now <? expiresAt then mret value else fresh_token config
  end.

(** ** Accounts *)

Definition usersEndpoint (config : admin_configuration) : string :=
  resolve_url ("admin/realms/" +:+ ac_realm config +:+ "/users") (iu_text (ac_adminBaseUrl config)).
Definition require_configuration (message : string) : Act admin_state admin_configuration :=
  match adminConfiguration with Some config => mret config | None => kc_throw message end.
Definition directory_unconfigured : string :=
  "operator directory is not configured: UMOJA_KEYCLOAK_ADMIN_CLIENT_ID/SECRET are not set".

Definition account_summary (user : user_representation) : KeycloakAccountSummary :=
  let name := join " " (List.filter truthy (omap id [ur_firstName user; ur_lastName user])) in
  mk_account (ur_id user) (deriveOpenId (uuid_text (ur_id user))) (if truthy name then name else ur_username user)
    (default (ur_username user) (ur_email user)) (negb (bool_decide (ur_enabled user = Some false))).

Definition listKeycloakAccounts : Act admin_state (list KeycloakAccountSummary) :=
  config ← require_configuration directory_unconfigured;
  token ← adminToken config;
  let url := with_params (usersEndpoint config) [("max", "1000"); ("briefRepresentation", "true")] in
  response ← kc_send (mk_http_request "GET" url (Some token) NoBody);
  if negb (rs_ok response) then
    kc_throw ("identity provider rejected the account listing (status " +:+ pretty (rs_status response) +:+ ")") else
  match rs_body response with
  | UsersBody users => mret (account_summary <$> users)
  | _ => kc_throw "the body is not a list"
  end.

Definition setKeycloakAccountEnabled (keycloakUserId : uuid) (enabled : bool) : Act admin_state unit :=
  config ← require_configuration directory_unconfigured;
  token ← adminToken config;
  let url := resolve_url (uuid_text keycloakUserId) (usersEndpoint config +:+ "/") in
  response ← kc_send (mk_http_request "PUT" url (Some token) (JsonBody (JObj [("enabled", JBool enabled)])));
  if negb (rs_ok response) then
    kc_throw ("identity provider rejected the account " +:+ (if enabled then "activation" else "deactivation") +:+
      " (status " +:+ pretty (rs_status response) +:+ ")")
  else mret tt.

Definition account_body (name email password : string) : json :=
  let words := split_spaces false (trim name) in
  let firstName := default "" (head words) in let lastName := join " " (tail words) in
  JObj ([("username", JStr email); ("email", JStr email); ("firstName", JStr (if truthy firstName then firstName else name))] ++
        (if truthy lastName then [("lastName", JStr lastName)] else []) ++
        [("enabled", JBool true); ("emailVerified", JBool true); ("requiredActions", JArr []);
         ("credentials", JArr [JObj [("type", JStr "password"); ("value", JStr password); ("temporary", JBool false)]])])%list.
(** [location?.split("/").pop()], not empty. *)
Definition created_id (response : http_response) : option string :=
  location ← rs_location response; id ← last (split_on "/" location); if truthy id then Some id else None.

Definition createOperatorAccount (random : bytes) (name email : string) : Act admin_state (string * string) :=
  config ← require_configuration "account creation is not configured: UMOJA_KEYCLOAK_ADMIN_CLIENT_ID/SECRET are not set";
  token ← adminToken config;
  let password := generatePassword random in
  response ← kc_send (mk_http_request "POST" (usersEndpoint config) (Some token) (JsonBody (account_body name email password)));
  if rs_status response =? 409 then
    kc_throw ("an identity provider account already exists for " +:+ email +:+ "; this path only creates new accounts")
  else if negb (rs_status response =? 201) then
    kc_throw ("identity provider rejected account creation (status " +:+ pretty (rs_status response) +:+ ")") else
  match created_id response with
  | Some subjectId => mret (deriveOpenId subjectId, password)
  | None => kc_throw "identity provider did not return the created account's identifier"
  end.
End admin.
