(* ===== verification/KeycloakAdminProps.v ===== *)
(** * Properties of the calls on the provider's accounts

    A token is used only while the provider's grant of it still has ten seconds
    to run, or right after it was granted; the client's secret goes to the token
    endpoint alone; an account counts as created, enabled or disabled only when
    the provider said so. *)

From S2P Require Import Prelude Js Numeric Sha256 Hmac Rows Schema SodMonitor Access Identity KeycloakAdmin.

Local Open Scope string_scope.
Local Open Scope Z_scope.

(** ** Reasoning about calls that leave a state also when they fail *)

Section triples.
Context {S : Type} (J : S → Prop).

(** From [J] and [P], [m] keeps [J] whatever happens and gives [Q] when it
    returns. *)
Definition keeps {A} (P : S → Prop) (m : Act S A) (Q : A → S → Prop) : Prop :=
  ∀ s, J s → P s → J (m s).2 ∧ ∀ a, (m s).1 = Ok a → Q a (m s).2.

Lemma keeps_ret {A} (a : A) (P : S → Prop) : keeps P (mret a) (λ b s, b = a ∧ P s).
Proof. intros s HJ HP. cbn. split; [done|]. by intros b [= <-]. Qed.
Lemma keeps_bind {A B} P (m : Act S A) Q (k : A → Act S B) (R : B → S → Prop) :
  keeps P m Q → (∀ a, keeps (Q a) (k a) R) → keeps P (mbind k m) R.
Proof.
  intros Hm Hk s HJ HP. unfold mbind, act_bind. destruct (Hm s HJ HP) as [H1 H2].
  destruct (m s) as [[a|e] s']; cbn in *; [by apply Hk; auto|done].
Qed.
Lemma keeps_weaken {A} (P P' : S → Prop) (m : Act S A) (Q Q' : A → S → Prop) :
  keeps P' m Q' → (∀ s, P s → P' s) → (∀ a s, Q' a s → Q a s) → keeps P m Q.
Proof. intros H HP HQ s HJ Hs. destruct (H s HJ (HP s Hs)) as [H1 H2]. split; [done|]. intros a Ha. by apply HQ, H2. Qed.
End triples.

Lemma keeps_throw {A} J P message (Q : A → admin_state → Prop) : keeps J P (kc_throw message) Q.
Proof. intros s HJ _. by split. Qed.

Section admin_props.
Context (process_env : string → option string) (parse_url : string → option issuer_url) (pathname : issuer_url → string).
Context (resolve_url : string → string → string) (with_params : string → list (string * string) → string).
Context (fetch : list kc_exchange → http_request → option http_response) (Date_now : nat → Z).

Let configuration := adminConfiguration process_env parse_url pathname.
Let adminToken0 := adminToken resolve_url fetch Date_now.
Let token_request0 := token_request resolve_url.
Let list0 := listKeycloakAccounts process_env parse_url pathname resolve_url with_params fetch Date_now.
Let enable0 := setKeycloakAccountEnabled process_env parse_url pathname resolve_url fetch Date_now.
Let create0 := createOperatorAccount process_env parse_url pathname resolve_url fetch Date_now.

(** ** Tokens *)

(** The provider granted [t] in the exchange [x], for [life] seconds. *)
Definition granted (x : kc_exchange) (t : string) (life : option Z) : Prop :=
  ∃ config r, configuration = Some config ∧ x_request x = token_request0 config ∧ x_response x = Some r ∧
    rs_ok r = true ∧ rs_body r = TokenBody (Some t) life.
(** When the answer of [x] was read, and the end of the grant less ten seconds. *)
Definition usable_until (x : kc_exchange) (life : option Z) : Z := token_expiry (Date_now (x_reads x)) life.

(** [t] may be sent after [reads] readings of the clock: the last one was before
    the end of its grant, or was the one taken on receiving it. *)
Definition usable (sent : list kc_exchange) (reads : nat) (t : string) : Prop :=
  ∃ x life, x ∈ sent ∧ granted x t life ∧ (reads = S (x_reads x) ∨ Date_now (pred reads) < usable_until x life).

Record provider_ok (s : admin_state) : Prop := mk_provider_ok {
  po_cached t e : as_cachedToken s = Some (t, e) → ∃ x life, x ∈ as_sent s ∧ granted x t life ∧ e = usable_until x life;
  po_bearer i y t : as_sent s !! i = Some y → rq_bearer (x_request y) = Some t → usable (take i (as_sent s)) (x_reads y) t;
  po_anonymous y : y ∈ as_sent s → rq_bearer (x_request y) = None → ∃ config, configuration = Some config ∧ x_request y = token_request0 config;
  po_form y fields : y ∈ as_sent s → rq_body (x_request y) = FormBody fields → rq_bearer (x_request y) = None
}.

Lemma provider_ok_send s rq : provider_ok s →
  match rq_bearer rq with
  | Some t => usable (as_sent s) (as_reads s) t ∧ (∀ fields, rq_body rq ≠ FormBody fields)
  | None => ∃ config, configuration = Some config ∧ rq = token_request0 config
  end → provider_ok (kc_send fetch rq s).2.
Proof.
  intros [H1 H2 H3 H4] Hrq. unfold kc_send. cbn [snd]. constructor; cbn [as_cachedToken as_sent as_reads].
  - intros t e (x & life & Hx & Hg)%H1. exists x, life. split; [apply elem_of_app; by left|done].
  - intros i y t Hi Hb. apply lookup_app_Some in Hi as [Hi|[Hlen Hi]].
    + rewrite take_app_le by (apply lookup_lt_Some in Hi; lia). by eapply H2.
    + apply list_lookup_singleton_Some in Hi as [Hz <-]. cbn in *. rewrite Hb in Hrq.
      replace i with (length (as_sent s)) by lia. rewrite take_app_length. apply Hrq.
  - intros y [Hy|Hy]%elem_of_app Hb; [by apply H3|]. apply list_elem_of_singleton in Hy as ->. cbn in *. by rewrite Hb in Hrq.
  - intros y fields [Hy|Hy]%elem_of_app Hb; [by eapply H4|]. apply list_elem_of_singleton in Hy as ->. cbn in *.
    destruct (rq_bearer rq); [|done]. by apply Hrq in Hb.
Qed.

Lemma fresh_token_usable config P : configuration = Some config →
  keeps provider_ok P (fresh_token resolve_url fetch Date_now config) (λ t s, usable (as_sent s) (as_reads s) t).
Proof.
  intros Hc s HJ _. unfold fresh_token, mbind, act_bind.
  assert (provider_ok (kc_send fetch (token_request0 config) s).2) as Hs by (apply provider_ok_send; [done|by exists config]).
  unfold kc_send in *. fold (token_request0 config). cbn [snd] in Hs.
  destruct (fetch (as_sent s) (token_request0 config)) as [r|] eqn:Hf; [|by split].
  destruct (rs_ok r) eqn:Hok; cbn [negb]; [|by split].
  destruct (rs_body r) as [[t|] life|users|] eqn:Hb; [|by split..]. destruct (truthy t) eqn:Ht; [|by split].
  unfold read_clock, store_token, mret, act_ret. cbn [fst snd as_reads as_sent as_cachedToken] in *.
  set (x := mk_kc_exchange (as_reads s) (token_request0 config) (Some r)) in *.
  assert (granted x t life) as Hg by (by exists config, r).
  assert (x ∈ (as_sent s ++ [x])%list) as Hx by (apply elem_of_app; right; by apply list_elem_of_singleton).
  destruct Hs as [H1 H2 H3 H4]. split.
  - constructor; cbn [as_cachedToken as_sent as_reads]; [|done..]. intros t' e [= <- <-]. by exists x, life.
  - intros a [= <-]. exists x, life. split; [done|]. split; [done|]. by left.
Qed.

Lemma adminToken_usable config P : configuration = Some config →
  keeps provider_ok P (adminToken0 config) (λ t s, usable (as_sent s) (as_reads s) t).
Proof.
  intros Hc. eapply keeps_bind with (Q := λ cached s, as_cachedToken s = cached).
  { intros s HJ _. split; [done|]. by intros a [= <-]. }
  intros [[value e]|]; [|by apply fresh_token_usable].
  eapply keeps_bind with (Q := λ now s, as_cachedToken s = Some (value, e) ∧ now = Date_now (pred (as_reads s))).
  { intros s HJ Hk. split; [destruct HJ; by constructor|]. by intros a [= <-]. }
  intros now. destruct (Z.ltb_spec now e) as [Hlt|Hge]; [|by apply fresh_token_usable].
  intros s HJ [Hk ->]. split; [done|]. intros a [= <-]. destruct (po_cached _ HJ _ _ Hk) as (x & life & Hx & Hg & ->).
  exists x, life. split; [done|]. split; [done|]. by right.
Qed.

(** The part every call starts with, and its request. *)
Lemma call_keeps {A} message (rq : admin_configuration → string → http_request) (k : http_response → Act admin_state A) :
  (∀ config t, rq_bearer (rq config t) = Some t ∧ ∀ fields, rq_body (rq config t) ≠ FormBody fields) →
  (∀ r, keeps provider_ok (λ _, True) (k r) (λ _ _, True)) →
  keeps provider_ok (λ _, True)
    (config ← require_configuration process_env parse_url pathname message; token ← adminToken0 config; r ← kc_send fetch (rq config token); k r) (λ _ _, True).
Proof.
  intros Hrq Hk. eapply keeps_bind with (Q := λ config _, configuration = Some config).
  { intros s HJ _. unfold require_configuration. fold configuration. destruct configuration as [config|]; [|by split]. split; [done|]. by intros a [= <-]. }
  intros config. eapply keeps_bind with (Q := λ t s, usable (as_sent s) (as_reads s) t).
  { intros s HJ Hc. exact (adminToken_usable config (λ _, True) Hc s HJ I). }
  intros t. eapply keeps_bind with (Q := λ _ _, True); [|intros r; apply Hk].
  intros s HJ Hu. destruct (Hrq config t) as [Hb Hf]. split; [|done]. apply provider_ok_send; [done|]. by rewrite Hb.
Qed.

(** ** Runs *)

Inductive kc_call : Type :=
  | CallList
  | CallEnable (id : uuid) (enabled : bool)
  | CallCreate (random : bytes) (name email : string).
Definition run_call (s : admin_state) (c : kc_call) : admin_state :=
  match c with
  | CallList => (list0 s).2
  | CallEnable id enabled => (enable0 id enabled s).2
  | CallCreate random name email => (create0 random name email s).2
  end.
Definition run_calls (cs : list kc_call) : admin_state := foldl run_call (mk_admin_state None 0 []) cs.

Ltac ends := intros r; repeat case_match; first [apply keeps_throw | by eapply keeps_weaken; [apply (keeps_ret _ _ (λ _, True))|..]].

Lemma run_call_ok s c : provider_ok s → provider_ok (run_call s c).
Proof.
  intros HJ. destruct c as [|id enabled|random name email]; cbn [run_call].
  - refine (proj1 (call_keeps _ (λ config token, mk_http_request "GET" (with_params (usersEndpoint resolve_url config) _) (Some token) NoBody) _ _ _ s HJ I)); [done|ends].
  - refine (proj1 (call_keeps _ (λ config token, mk_http_request "PUT" _ (Some token) (JsonBody _)) _ _ _ s HJ I)); [done|ends].
  - refine (proj1 (call_keeps _ (λ config token, mk_http_request "POST" _ (Some token) (JsonBody _)) _ _ _ s HJ I)); [done|ends].
Qed.

(** Whatever the provider answers and however the clock moves, a token is sent
    only after the provider granted it, and only when the last reading of the clock
    was within the grant less ten seconds or was taken on receiving it; a form,
    which holds the client's secret, goes to the token endpoint alone. *)
Theorem tokens_used_while_granted (cs : list kc_call) :
  let sent := as_sent (run_calls cs) in
  (∀ i y t, sent !! i = Some y → rq_bearer (x_request y) = Some t → usable (take i sent) (x_reads y) t) ∧
  (∀ y fields, y ∈ sent → rq_body (x_request y) = FormBody fields → ∃ config, configuration = Some config ∧ x_request y = token_request0 config).
Proof.
  assert (∀ cs s, provider_ok s → provider_ok (foldl run_call s cs)) as Hrun.
  { clear cs. induction cs as [|c cs IH]; intros s Hs; cbn; [done|]. by apply IH, run_call_ok. }
  destruct (Hrun cs (mk_admin_state None 0 [])) as [_ H2 H3 H4].
  { constructor; cbn; [done|done|by intros y []%elem_of_nil|by intros y f []%elem_of_nil]. }
  split; [exact H2|]. intros y fields Hy Hf. apply H3; [done|]. by eapply H4.
Qed.

(** ** What the provider said *)

Lemma kc_send_ok rq s r s' : kc_send fetch rq s = (Ok r, s') → last (as_sent s') = Some (mk_kc_exchange (as_reads s') rq (Some r)).
Proof. unfold kc_send. destruct (fetch _ rq) as [r'|] eqn:Hf; [|done]. intros [= <- <-]. cbn. by rewrite last_snoc. Qed.

Lemma call_ok {A} message (rq : admin_configuration → string → http_request) (k : http_response → Act admin_state A) s a s' :
  (config ← require_configuration process_env parse_url pathname message; token ← adminToken0 config; r ← kc_send fetch (rq config token); k r) s = (Ok a, s') →
  ∃ config token r s1, configuration = Some config ∧ last (as_sent s1) = Some (mk_kc_exchange (as_reads s1) (rq config token) (Some r)) ∧ k r s1 = (Ok a, s').
Proof.
  intros (config & s0 & Hc & (token & s2 & _ & (r & s1 & Hr & Hk)%act_bind_ok)%act_bind_ok)%act_bind_ok.
  exists config, token, r, s1. split; [|split; [by apply kc_send_ok in Hr|done]].
  unfold require_configuration, configuration in *. destruct (adminConfiguration _ _ _) as [c|]; [by injection Hc as -> _|done].
Qed.

(** The last exchange was this request with a token, answered so. *)
Definition answered (s : admin_state) (rq : string → http_request) (r : http_response) : Prop :=
  ∃ token y, last (as_sent s) = Some y ∧ x_request y = rq token ∧ x_response y = Some r.

(** An account counts as created only when the provider answered 201 to a request
    for that address with the very password that is handed out; the subject is the
    one the directory shows for the account with the identifier it gave. *)
Theorem created_account_is_real random name email s subject password s' :
  create0 random name email s = (Ok (subject, password), s') →
  ∃ config r id, configuration = Some config ∧
    answered s' (λ token, mk_http_request "POST" (usersEndpoint resolve_url config) (Some token) (JsonBody (account_body name email password))) r ∧
    rs_status r = 201 ∧ created_id r = Some id ∧ subject = deriveOpenId id ∧ password = generatePassword random ∧
    ∀ u, uuid_text (ur_id u) = id → acc_subject (account_summary u) = subject.
Proof.
  intros H. destruct (call_ok _ (λ config token, mk_http_request "POST" (usersEndpoint resolve_url config) (Some token)
    (JsonBody (account_body name email (generatePassword random)))) _ _ _ _ H) as (config & token & r & s1 & Hc & Hl & Hk).
  destruct (Z.eqb_spec (rs_status r) 409); [done|]. destruct (Z.eqb_spec (rs_status r) 201) as [Hs|]; [|done]. cbn [negb] in Hk.
  destruct (created_id r) as [id|] eqn:Hi; [|done]. injection Hk as <- <- <-.
  exists config, r, id. split; [done|]. split; [exists token; eexists; by split; [exact Hl|]|]. split; [done|]. split; [done|]. split; [done|]. split; [done|].
  intros u <-. reflexivity.
Qed.

(** Enabling or disabling an account returns only when the provider accepted
    that change for that account. *)
Theorem account_change_is_accepted id enabled s s' :
  enable0 id enabled s = (Ok (), s') →
  ∃ config r, configuration = Some config ∧ rs_ok r = true ∧
    answered s' (λ token, mk_http_request "PUT" (resolve_url (uuid_text id) (usersEndpoint resolve_url config +:+ "/")) (Some token)
      (JsonBody (JObj [("enabled", JBool enabled)]))) r.
Proof.
  intros H. destruct (call_ok _ (λ config token, mk_http_request "PUT" (resolve_url (uuid_text id) (usersEndpoint resolve_url config +:+ "/"))
    (Some token) (JsonBody (JObj [("enabled", JBool enabled)]))) _ _ _ _ H) as (config & token & r & s1 & Hc & Hl & Hk).
  destruct (rs_ok r) eqn:Hok; [|done]. injection Hk as <-. exists config, r. split; [done|]. split; [done|]. exists token; eexists; by split; [exact Hl|].
Qed.

(** Without a configuration nothing is sent and no call succeeds. *)
Theorem unconfigured_sends_nothing s c : configuration = None → run_call s c = s ∧ operatorAccountCreationAvailable process_env parse_url pathname = false.
Proof.
  intros Hn. unfold operatorAccountCreationAvailable. fold configuration. rewrite Hn. split; [|done].
  unfold configuration in Hn.
  destruct c; cbn [run_call]; unfold list0, enable0, create0, listKeycloakAccounts, setKeycloakAccountEnabled, createOperatorAccount, require_configuration;
    by rewrite Hn.
Qed.
End admin_props.

(** ** Passwords *)

Lemma sextets_url s : sextets (url_alphabet s) = sextets s.
Proof.
  induction s as [|c s IH]; [done|]. cbn [url_alphabet]. case_bool_decide as H1; [subst c; exact IH|].
  cbn [sextets]. rewrite IH. case_bool_decide as H2; [by subst c|]. case_bool_decide as H3; by subst.
Qed.

(** The password is as random as the bytes it is made of: decoding it gives them
    back. *)
Theorem password_keeps_randomness random : Forall is_byte random → from_base64 (generatePassword random) = random.
Proof. intros Hb. unfold generatePassword, base64url, from_base64. rewrite sextets_url. by apply base64_round_trip. Qed.
