(* ===== verification/SodSchedule.v ===== *)
(** * The schedule of the segregation-of-duties monitor

    [startSegregationOfDutiesMonitor] of
    src/apps/control-plane/server/segregationOfDutiesMonitor.ts: a round at once, and
    the next one an interval after a round has ended, until stopped. The steps of
    the scheduler are those of the service-health monitor, whose loop is the same. *)

From S2P Require Import Prelude Js Numeric Sha256 Rows Schema Zod Contracts ServiceBridge OperationalAlerts ComplianceAlerts ServiceHealth ServiceHealthProps SodMonitor.

Local Open Scope string_scope.
Local Open Scope Z_scope.

Definition startSegregationOfDutiesMonitor (process_env : string → option string) : res (option (Z * scheduler)) :=
  enabled ← SodMonitor.strictEnabled (process_env "UMOJA_SOD_MONITOR_ENABLED");
  if (enabled : bool) then
    seconds ← SodMonitor.configuredInterval (process_env "UMOJA_SOD_MONITOR_INTERVAL_SECONDS");
    _ ← configuredSubject (process_env "UMOJA_SOD_MONITOR_SUBJECT");
    Ok (Some (seconds * 1000, mk_scheduler false false 1))
  else Ok None.

(** A round with a subject that was accepted always reports a result. *)
Lemma round_reports localeCompare webhook path pg_message E cfg pool ids d subject : configuredSubject (mc_subject cfg) = Ok subject →
  ∃ r, (runSegregationOfDutiesMonitorRound localeCompare webhook path pg_message E cfg pool ids d).1 = Ok r.
Proof.
  intros Hs. unfold runSegregationOfDutiesMonitorRound. rewrite Hs. cbv zeta.
  assert (∀ a e d, ∃ r, (record_failure localeCompare path pg_message E a ids e d).1 = Ok r) as Hf.
  { intros a e d0. unfold record_failure. cbv zeta. match goal with |- context [match ?m with _ => _ end] => destruct m as [[]] end; cbn; by eexists. }
  destruct (acquireLeader _ _ _).1 as [[]|]; [|by eexists|by apply Hf].
  destruct (evaluate_round _ _ _ _ _ _ _) as [[r|e] d']; [by eexists|by apply Hf].
Qed.

(** The monitor has a round running or the next one scheduled. *)
Definition alive (s : scheduler) : Prop := sc_stopped s = false → sc_timer s = true ∨ (0 < sc_running s)%nat.
Lemma scheduler_step_alive s e s' : scheduler_step s e s' → alive s → alive s'.
Proof. intros [x Ht|x n Hr|x] Ha; unfold alive in *; cbn; [right; lia| |done]. intros ->. left. by rewrite orb_true_r. Qed.

Lemma scheduler_run_invariant s es s' : scheduler_run s es s' → alternating s → alive s → alternating s' ∧ alive s'.
Proof.
  induction 1 as [|s e s1 es s2 Hs _ IH]; [done|]. intros Ha Hl. apply IH; [by eapply scheduler_step_alternating|by eapply scheduler_step_alive].
Qed.

(** A monitor that starts has an interval between a minute and an hour and an
    accepted subject, so that none of its rounds ends without a result; until it is
    stopped one round is running or scheduled, never two; and afterwards none
    starts. *)
Theorem sod_monitor_keeps_going localeCompare webhook path pg_message process_env ms s0 :
  startSegregationOfDutiesMonitor process_env = Ok (Some (ms, s0)) →
  60000 <= ms <= 3600000 ∧
  (∀ E attempts backoff pool ids d, ∃ r, (runSegregationOfDutiesMonitorRound localeCompare webhook path pg_message E
    (mk_monitor_config (process_env "UMOJA_SOD_MONITOR_SUBJECT") attempts backoff) pool ids d).1 = Ok r) ∧
  ∀ es s, scheduler_run s0 es s →
    (sc_running s + (if sc_timer s then 1 else 0) ≤ 1)%nat ∧ (sc_stopped s = false → sc_timer s = true ∨ (0 < sc_running s)%nat) ∧
    ∀ es' s', sc_stopped s = true → scheduler_run s es' s' → RoundStarts ∉ es'.
Proof.
  unfold startSegregationOfDutiesMonitor, mbind, res_bind. destruct (SodMonitor.strictEnabled _) as [[]|]; [|done..].
  destruct (SodMonitor.configuredInterval _) as [n|] eqn:Hi; [|done]. destruct (configuredSubject _) as [subject|] eqn:Hs; [|done]. intros [= <- <-].
  assert (Hn : 60 <= n <= 3600).
  { revert Hi. unfold SodMonitor.configuredInterval, configured_integer, SodMonitor.MIN_INTERVAL_SECONDS, SodMonitor.MAX_INTERVAL_SECONDS.
    destruct (process_env "UMOJA_SOD_MONITOR_INTERVAL_SECONDS") as [[|c v]|]; [intros [= <-]; lia| |intros [= <-]; lia].
    destruct (negb _); [done|]. destruct ((_ || _) || _) eqn:Hb; [done|]. intros [= <-]. rewrite !orb_false_iff, !Z.ltb_ge in Hb. exact (conj (proj2 (proj1 Hb)) (proj2 Hb)). }
  split; [lia|]. split; [intros; by eapply round_reports|]. intros es s Hr.
  destruct (scheduler_run_invariant _ _ _ Hr) as [Ha Hl]; [by split|intros _; right; cbn; lia|].
  split; [apply Ha|]. split; [exact Hl|]. intros es' s' Hst Hr'. by eapply stopped_quiet.
Qed.
