(* ===== verification/Console.v ===== *)
(** * What the console offers

    The decisions of the React client, src/apps/control-plane/client/src: which
    actions, modules and lifecycle steps an operator is offered, by role and by
    the state of a record (lib/roleCapabilities.ts, lib/consoleActionVisibility.ts,
    the exported predicates and tables of components/ and pages/Home.tsx, the
    routes of App.tsx). What a component draws around them is not modelled.

    A role is [None] while nobody is signed in. A role the types of the client do
    not name can still arrive from the server; the functions are total on it, as
    the JavaScript is. *)

From S2P Require Import Prelude Js Numeric Sha256 Hmac Rows Schema EvidencePacks Identity.

Local Open Scope string_scope.
Local Open Scope Z_scope.

Definition role_is (role : option operating_role) (r : operating_role) : bool := bool_decide (role = Some r).
Definition role_in (role : option operating_role) (rs : list operating_role) : bool := existsb (role_is role) rs.
(** [table[key] ?? []]. *)
Definition table_entry (table : list (string * list string)) (key : string) : list string := default [] (record_get table key).

(** ** Actions *)

Inductive ConsoleAction : Type :=
  | ActCounterparty | ActIntegration | ActAlert | ActPolicy | ActCase | ActKycDocument | ActSarStr | ActReport | ActDeadline | ActCustomer
  | ActBeneficiary | ActLiquidity | ActMarket | ActRateLock | ActPayment | ActPaymentLeg | ActEvaluateDeadlines.
#[export] Instance ConsoleAction_eq_dec : EqDecision ConsoleAction.
Proof. solve_decision. Defined.
Inductive ComposerAction : Type :=
  | Console (a : ConsoleAction)
  | ActAuthorization
  | ActConsent
  | ActAnalysis.
#[export] Instance ComposerAction_eq_dec : EqDecision ComposerAction.
Proof. solve_decision. Defined.

Definition canPerformConsoleAction (role : option operating_role) (action : ConsoleAction) : bool :=
  match role with
  | None | Some RoleAuditor | Some RoleProviderContact | Some RoleCbnLiaison => false
  | Some RoleAdmin => true
  | Some RoleComplianceOfficer => includes [ActPolicy; ActCase; ActKycDocument; ActSarStr; ActReport; ActDeadline] action
  | Some _ => includes [ActCustomer; ActBeneficiary; ActLiquidity; ActMarket; ActRateLock; ActPayment; ActPaymentLeg] action
  end.
Definition canOpenConsoleComposer (role : option operating_role) (action : ComposerAction) : bool :=
  match action with
  | ActAuthorization => role_is role RoleAdmin
  | Console ActSarStr => role_is role RoleComplianceOfficer
  | ActConsent | ActAnalysis => role_is role RoleComplianceOfficer
  | Console a => canPerformConsoleAction role a
  end.

Inductive ConsoleModule : Type :=
  | ModRegistry | ModIntegrations | ModGovernance | ModTreasury | ModMarkets | ModPayments | ModCompliance | ModReports | ModAlerts.
Definition console_modules : list ConsoleModule :=
  [ModRegistry; ModIntegrations; ModGovernance; ModTreasury; ModMarkets; ModPayments; ModCompliance; ModReports; ModAlerts].
Definition consoleModuleActions (m : ConsoleModule) : list (string * ComposerAction) :=
  match m with
  | ModRegistry => [("Record", Console ActCounterparty); ("Licence", ActAuthorization)]
  | ModIntegrations => [("New connection", Console ActIntegration)]
  | ModGovernance => [("New policy", Console ActPolicy)]
  | ModTreasury => [("New position", Console ActLiquidity)]
  | ModMarkets => [("Observe", Console ActMarket); ("Lock", Console ActRateLock)]
  | ModPayments => [("Draft", Console ActPayment); ("Leg", Console ActPaymentLeg)]
  | ModCompliance => [("New case", Console ActCase); ("KYC evidence", Console ActKycDocument); ("Consent", ActConsent); ("Analyse", ActAnalysis);
                      ("SAR/STR", Console ActSarStr)]
  | ModReports => [("Report", Console ActReport); ("Deadline", Console ActDeadline)]
  | ModAlerts => [("Policy", Console ActAlert); ("Evaluate", Console ActEvaluateDeadlines)]
  end.
Definition visible_actions (role : option operating_role) (m : ConsoleModule) : list (string * ComposerAction) :=
  List.filter (λ x, canOpenConsoleComposer role x.2) (consoleModuleActions m).
Definition visibleConsoleModuleActions (role : option operating_role) (m : ConsoleModule) : list string := (visible_actions role m).*1.
(** A button of [ConsoleModuleActions] that can be pressed. *)
Definition pressable (role : option operating_role) (m : ConsoleModule) (disabledActions : list ComposerAction) : list ComposerAction :=
  List.filter (λ a, negb (includes disabledActions a)) (visible_actions role m).*2.

(** [openComposer] of Home.tsx: the composer that is open, and whether the action
    was refused with a notice. *)
Definition openComposer (role : option operating_role) (kind : ComposerAction) (composer : option ComposerAction) : option ComposerAction * bool :=
  if canOpenConsoleComposer role kind then (Some kind, false) else (composer, true).
(** The procedure whose form a module's panel shows for the composer that is
    open. *)
Definition registry_form (composer : ComposerAction) : option string :=
  match composer with
  | Console ActCounterparty => Some "postgres.createCounterparty"
  | ActAuthorization => Some "postgres.createCounterpartyAuthorization"
  | _ => None
  end.
Definition integrations_form (composer : ComposerAction) : option string :=
  match composer with Console ActIntegration => Some "postgres.createIntegrationConnection" | _ => None end.
Definition governance_form (composer : ComposerAction) : option string :=
  match composer with Console ActPolicy => Some "postgres.createCorridorPolicy" | _ => None end.
Definition treasury_form (composer : ComposerAction) : option string :=
  match composer with Console ActLiquidity => Some "postgres.recordLiquidityPosition" | _ => None end.
Definition compliance_form (composer : ComposerAction) : option string :=
  match composer with
  | ActConsent => Some "postgres.createVerificationConsent"
  | ActAnalysis => Some "postgres.createDocumentAnalysisJob"
  | Console ActCase => Some "postgres.createComplianceCase"
  | Console ActKycDocument => Some "postgres.createKycDocumentUploadIntent"
  | Console ActSarStr => Some "postgres.createSarStrFiling"
  | _ => None
  end.
Definition reports_form (composer : ComposerAction) : option string :=
  match composer with
  | Console ActReport => Some "postgres.createRegulatoryReport"
  | Console ActDeadline => Some "postgres.createRegulatoryDeadline"
  | _ => None
  end.
Definition alerts_form (composer : ComposerAction) : option string :=
  match composer with Console ActAlert => Some "postgres.createAlertPolicy" | _ => None end.
Definition composer_form (m : ConsoleModule) (composer : option ComposerAction) : option string :=
  c ← composer;
  match m with
  | ModRegistry => registry_form c
  | ModIntegrations => integrations_form c
  | ModGovernance => governance_form c
  | ModTreasury => treasury_form c
  | ModCompliance => compliance_form c
  | ModReports => reports_form c
  | ModAlerts => alerts_form c
  | ModMarkets | ModPayments => None
  end.
(** The buttons a module's page disables whatever the role. *)
Definition disabled_actions (m : ConsoleModule) (evaluating : bool) : list ComposerAction :=
  match m with
  | ModMarkets => [Console ActMarket; Console ActRateLock]
  | ModAlerts => if evaluating then [Console ActEvaluateDeadlines] else []
  | _ => []
  end.

(** ** Controls by role *)

Definition canOperatePayments (role : option operating_role) : bool := role_is role RoleTreasuryOperator || role_is role RoleAdmin.
Definition canManageRateLocks (role : option operating_role) : bool := role_is role RoleTreasuryOperator || role_is role RoleAdmin.
Definition canProposeRebalancing (role : option operating_role) : bool := role_is role RoleTreasuryOperator || role_is role RoleAdmin.
Definition canConfigureCredentials (role : option operating_role) : bool := role_is role RoleAdmin.
Definition REVIEW_DECISION_ROLES : list operating_role := [RoleComplianceOfficer; RoleAdmin].
Definition EVIDENCE_READER_ROLES : list operating_role := [RoleAdmin; RoleComplianceOfficer; RoleTreasuryOperator; RoleAuditor].
Definition canRecordReviewerDecision (role : option operating_role) : bool :=
  match role with Some r => includes REVIEW_DECISION_ROLES r | None => false end.
Definition canReadKycEvidence (role : option operating_role) : bool :=
  match role with Some r => includes EVIDENCE_READER_ROLES r | None => false end.
(** [canManage], [canAdmin], [canEdit], [canCompliance], [canVerify] of the
    workspaces. *)
Definition canAdmin (role : option operating_role) : bool := role_is role RoleAdmin.
Definition canEdit (role : option operating_role) : bool := role_is role RoleAdmin || role_is role RoleComplianceOfficer.
Definition canVerify (role : option operating_role) : bool := role_is role RoleAdmin || role_is role RoleAuditor.
Definition canDispose (role : option operating_role) : bool := role_is role RoleComplianceOfficer.
Definition canManageFilings (role : option operating_role) : bool := canPerformConsoleAction role ActSarStr.
Definition canReview (role : option operating_role) : bool := canPerformConsoleAction role ActCase.

(** A section of a dedicated gate: the gate, the roles of its [canDecide] and the
    procedure of its button. *)
Definition gate_section : Type := string * list operating_role * string.
Definition canDecide (role : option operating_role) (s : gate_section) : bool := role_in role s.1.2.
Definition lp_sections : list gate_section := [("financial_soundness", [RoleAdmin; RoleTreasuryOperator], "postgres.decideFinancialSoundnessGate")].
Definition bank_sections : list gate_section := [("crypto_posture", [RoleAdmin; RoleComplianceOfficer], "postgres.decideCryptoPostureGate")].
Definition psp_sections : list gate_section :=
  [("licence_rail_coverage", [RoleAdmin; RoleComplianceOfficer], "postgres.decidePspLicenceRailGate");
   ("settlement_cutoff_validation", [RoleAdmin; RoleTreasuryOperator], "postgres.decidePspSettlementCutoffGate");
   ("bounded_live", [RoleAdmin; RoleComplianceOfficer], "postgres.decidePspBoundedLiveGate");
   ("failover_rail", [RoleAdmin], "postgres.decidePspFailoverGate")].
Definition issuer_sections : list gate_section :=
  [("licence_reserve_posture", [RoleAdmin; RoleComplianceOfficer; RoleTreasuryOperator], "postgres.decideStablecoinIssuerLicenceReservePostureGate");
   ("mint_redeem_technical_proof", [RoleAdmin; RoleTreasuryOperator], "postgres.decideStablecoinIssuerMintRedeemGate");
   ("chain_readiness", [RoleAdmin], "postgres.decideStablecoinIssuerChainReadinessGate");
   ("operating_posture", [RoleAdmin; RoleComplianceOfficer; RoleTreasuryOperator], "postgres.decideStablecoinIssuerOperatingPostureGate")].
Definition vendor_sections : list gate_section :=
  [("security_posture", [RoleAdmin; RoleComplianceOfficer], "postgres.decideComplianceVendorSecurityPostureGate");
   ("coverage_feasibility", [RoleAdmin; RoleComplianceOfficer], "postgres.decideComplianceVendorCoverageFeasibilityGate");
   ("false_positive_ceiling", [RoleAdmin; RoleComplianceOfficer], "postgres.decideComplianceVendorFalsePositiveCeilingGate");
   ("annual_review", [RoleAdmin; RoleComplianceOfficer], "postgres.decideComplianceVendorAnnualReviewGate")].

(** The workspaces of the counterparties and of the customers are for the four
    operators; anyone else is shown a notice in their place. *)
Definition workspaceShown (role : option operating_role) : bool :=
  role_in role [RoleAdmin; RoleComplianceOfficer; RoleAuditor; RoleTreasuryOperator].
(** The form that starts an onboarding record, in the gates of a payout provider,
    an issuer or a vendor: shown in the workspace while there is none. *)
Definition offersOnboardingStart (role : option operating_role) (onboarding : option uuid) : bool := workspaceShown role && is_none onboarding.

(** ** Lifecycles *)

Definition internalPaymentTransitions : list (string * list string) :=
  [("draft", ["pending_policy_decision"; "cancelled"]); ("pending_policy_decision", ["blocked"; "manual_review"; "approved"; "cancelled"]);
   ("manual_review", ["blocked"; "approved"; "cancelled"]); ("blocked", ["manual_review"; "cancelled"]); ("approved", ["cancelled"])].
Definition providerDependentPaymentStates : list string := ["executing"; "partially_completed"; "completed"; "failed"].
Definition availablePaymentTransitions (status : string) : list string := table_entry internalPaymentTransitions status.
Definition availableLegTransitions (status : string) : list string := table_entry internalPaymentTransitions status.

Definition CASE_TRANSITIONS : list (string * list string) :=
  [("open", ["under_review"; "closed"]); ("under_review", ["cleared"; "escalated"; "reported"; "closed"]);
   ("escalated", ["reported"; "cleared"; "closed"]); ("cleared", ["closed"]); ("reported", ["closed"]); ("closed", [])].
Definition allowedCaseTransitions (status : string) : list string := table_entry CASE_TRANSITIONS status.
Definition dispositionTargets (status : string) : list string :=
  List.filter (λ next, negb (bool_decide (next = "open"))) (allowedCaseTransitions status).

Definition filingTransitions : list (string * list string) :=
  [("draft", ["under_review"]); ("under_review", ["approved_for_submission"; "rejected"]); ("approved_for_submission", ["pending_submission"]);
   ("pending_submission", ["submitted"; "submission_unavailable"]); ("submission_unavailable", ["pending_submission"])].
Definition kycReviewTransitions : list (string * list string) :=
  [("submitted", ["under_review"; "expired"]); ("under_review", ["approved"; "rejected"; "expired"]); ("approved", ["expired"])].
(** The options of the lifecycle selector of a licence, whatever its state. *)
Definition authorizationOptions : list string := ["pending_review"; "verified"; "expired"; "suspended"; "rejected"].

(** A lock or a recommendation as the listing gives it: [expiresAt] is a [Date]. *)
Definition isCancellableRateLock (status : string) (expiresAt now : Z) : bool := bool_decide (status = "locked") && (now <? expiresAt).
Definition liveRateLocks {A} (status : A → string) (expiresAt : A → Z) (locks : list A) (now : Z) : list A :=
  List.filter (λ l, bool_decide (status l = "locked") && (now <? expiresAt l)) locks.
Definition canDecideRecommendation (role : option operating_role) (status proposedBy : string) (expiresAt : Z)
    (currentSubject : option string) (now : Z) : bool :=
  if negb (canProposeRebalancing role) then false
  else if negb (bool_decide (status = "proposed")) then false
  else if expiresAt <=? now then false
  else match currentSubject with Some s => negb (bool_decide (proposedBy = s)) | None => false end.

Definition gateForStage (stage : onboarding_stage) : option onboarding_gate :=
  match stage with
  | StageLegalOnboarding => Some GateLegal
  | StageTechnicalReadiness => Some GateTechnical
  | StagePilot => Some GatePilot
  | _ => None
  end.
Definition mayDecide (role : option operating_role) (gate : option onboarding_gate) : bool :=
  match gate with
  | None => false
  | Some GateLegal => role_is role RoleComplianceOfficer
  | Some GateTechnical => role_is role RoleAdmin
  | Some GatePilot => role_is role RoleComplianceOfficer || role_is role RoleTreasuryOperator
  end.
(** The procedure [GateDecisionForm] submits to. *)
Definition decision_path (role : option operating_role) (gate : onboarding_gate) : string :=
  match gate with
  | GateTechnical => "postgres.decideTechnicalOnboardingGate"
  | GatePilot => if role_is role RoleTreasuryOperator then "postgres.decideTreasuryPilotOnboardingGate" else "postgres.decideCounterpartyOnboardingGate"
  | GateLegal => "postgres.decideCounterpartyOnboardingGate"
  end.
Definition mayRecertify (role : option operating_role) (stage : onboarding_stage) : bool :=
  bool_decide (stage = StageSteadyState) && (role_is role RoleComplianceOfficer || role_is role RoleAdmin).

(** The control of a row of the credential table. *)
Inductive credential_control : Type :=
  | AdministratorOnly
  | Suspend
  | RunHealthCheck
  | ConfigureFirst.
Definition configurable (state : string) : bool := negb (bool_decide (state = "active")).
Definition credentialControl (canManage : bool) (state : string) (credentialConfigured : bool) : credential_control :=
  if negb canManage then AdministratorOnly
  else if bool_decide (state = "active") then Suspend
  else if credentialConfigured then RunHealthCheck else ConfigureFirst.

(** ** Evidence packs *)

Definition lp_pack : list string :=
  ["mm_otc_licence"; "incountry_vasp_licence"; "beneficial_ownership_disclosure"; "sanctions_pep_attestation"; "audited_financials"; "aml_cft_policy";
   "travel_rule_policy"; "mlro_appointment_letter"; "market_microstructure_policy"; "reference_list"; "insurance_certificate";
   "regulatory_disciplinary_history"].
Definition bank_pack : list string :=
  ["banking_licence"; "aml_cft_attestation"; "correspondent_agreement_template"; "nostro_account_confirmation"; "sanctions_policy";
   "travel_rule_readiness_attestation"; "swift_message_support_confirmation"; "fee_schedule"; "audit_reports"; "regulator_no_objection_letter";
   "cyber_bcm_evidence"; "settlement_cutoff_calendar"].
Definition psp_pack : list string :=
  ["psp_licence"; "mobile_money_authorisation"; "aggregator_licence"; "sanctions_pep_attestation"; "aml_cft_policy"; "beneficial_ownership_disclosure";
   "cutoff_settlement_calendar"; "fee_schedule_fx_margin"; "reconciliation_file_format_spec"; "dispute_recall_channel_sla"; "audited_financials";
   "cyber_bcp_attestation"].
Definition issuer_pack : list string :=
  ["issuer_regulatory_licence"; "reserve_attestation"; "reserve_asset_composition"; "aml_cft_policy"; "sanctions_ofac_attestation";
   "blockchain_finality_posture"; "custody_provider_licence_insurance"; "network_fee_schedule"; "principal_beneficial_ownership_kyb";
   "audited_financials"; "smart_contract_audit"].
Definition vendor_pack : list string :=
  ["soc2_or_iso27001_report"; "information_security_policy"; "privacy_policy_dpa_template"; "penetration_test_summary"; "insurance_certificate";
   "beneficial_ownership_disclosure"; "vendor_sanctions_compliance_posture"; "list_data_sourcing_summary"; "sub_processor_list";
   "sla_template_uptime_commitment"].
Definition documentedCount (pack recorded : list string) : Z :=
  Z.of_nat (length (List.filter (λ item, existsb (λ row, bool_decide (row = item)) recorded) pack)).
(** [decisions.find(…)]: the listing is newest first. *)
Definition latestByGate {A} (gate_of : A → string) (decisions : list A) (gate : string) : option A :=
  List.find (λ x, bool_decide (gate_of x = gate)) decisions.

(** The pack of an enterprise customer: what an item is recorded as, when it has a
    place. *)
Inductive pack_home : Type :=
  | NotStructured
  | DocumentOf (documentType : string)
  | Narrative
  | Invoice.
Definition customer_pack : list (string * pack_home) :=
  [("Certificate of incorporation (or equivalent)", DocumentOf "registration_certificate"); ("Memorandum + Articles of Association", NotStructured);
   ("Register of directors and shareholders (≤ 90 days old)", NotStructured); ("Tax residency certificate and TIN", NotStructured);
   ("Authorised signatory list with specimen signatures", NotStructured);
   ("Beneficial-ownership declaration (≥ 10% threshold)", DocumentOf "beneficial_ownership"); ("Sanctions / PEP screening attestation", NotStructured);
   ("Adverse media sweep (≤ 12 months)", NotStructured); ("Two years of audited financial statements", NotStructured);
   ("Trade licence or sector regulator proof", NotStructured); ("Use-case narrative + destination counterparty list", Narrative);
   ("Per-counterparty invoice or contract excerpt", Invoice); ("Sample inbound payment confirmation", NotStructured);
   ("Sample outbound payment confirmation", NotStructured); ("Data-protection / privacy compliance evidence", NotStructured);
   ("Sanctions-policy attestation by customer", NotStructured)].
(** Of the workspace: the types of the documents, the narrative, and the invoice
    references of the destination counterparties. *)
Definition item_present (documents : list string) (narrative : option string) (invoices : list (option string)) (h : pack_home) : bool :=
  match h with
  | DocumentOf t => existsb (λ x, bool_decide (x = t)) documents
  | Narrative => match narrative with Some n => truthy (trim n) | None => false end && negb (bool_decide (invoices = []))
  | Invoice => existsb (λ i, match i with Some x => truthy x | None => false end) invoices
  | NotStructured => false
  end.
Definition customerDocumentedCount (documents : list string) (narrative : option string) (invoices : list (option string)) : Z :=
  Z.of_nat (length (List.filter (λ item, item_present documents narrative invoices item.2) customer_pack)).

Definition evidenceCategories : list string :=
  ["corporate_governance"; "ownership"; "financial_capacity"; "aml_cft_cpf"; "consumer_protection"; "cybersecurity"; "data_protection";
   "operational_resilience"; "business_continuity"; "stablecoin_governance"; "reserve_attestation"; "redemption"; "custody_key_management";
   "third_party_oversight"; "testing_plan"].
Definition supervisoryCategories : list string :=
  ["incorporation_and_governing_documents"; "resident_leadership_and_principal_officers"; "legal_adviser_or_solicitor"; "nfiu_registration";
   "financial_capacity_and_fidelity_bond"; "aml_cft_cpf_and_travel_rule_programme"; "technology_and_cybersecurity_controls";
   "consumer_protection_and_complaint_handling"; "operational_reporting_and_incident_plan"; "transition_or_orderly_exit_plan"].
Definition travelRuleCategories : list string :=
  ["originator_information_schema"; "beneficiary_information_schema"; "secure_counterparty_exchange_design"; "counterparty_identity_and_authorisation";
   "exception_and_rejection_handling"].

(** ** Navigation *)

Definition menuItems : list string :=
  ["/console"; "/console/payments"; "/console/treasury"; "/console/markets"; "/console/compliance"; "/console/reports"; "/console/sandbox";
   "/console/registry"; "/console/integrations"; "/console/governance"; "/console/alerts"; "/console/admins"].
Definition auditableModulePaths : list string := List.filter (λ p, negb (bool_decide (p = "/console/admins"))) menuItems.
(** [None] is [null], or no table_entry: everything. *)
Definition modulesByRole (role : operating_role) : option (list string) :=
  match role with
  | RoleAdmin => None
  | RoleAuditor => Some auditableModulePaths
  | RoleComplianceOfficer =>
      Some ["/console"; "/console/compliance"; "/console/reports"; "/console/sandbox"; "/console/registry"; "/console/governance"; "/console/alerts"]
  | RoleTreasuryOperator =>
      Some ["/console"; "/console/payments"; "/console/treasury"; "/console/markets"; "/console/compliance"; "/console/registry";
            "/console/integrations"; "/console/alerts"]
  | RoleProviderContact => Some ["/console"]
  | RoleCbnLiaison => Some ["/console"]
  | RoleSystemMonitor => None
  end.
Definition visibleMenuItems (role : option operating_role) : list string :=
  match role with
  | None => menuItems
  | Some r => match modulesByRole r with None => menuItems | Some allowed => List.filter (includes allowed) menuItems end
  end.

Definition module_path (m : ConsoleModule) : string :=
  "/console/" +:+
  match m with
  | ModRegistry => "registry" | ModIntegrations => "integrations" | ModGovernance => "governance" | ModTreasury => "treasury"
  | ModMarkets => "markets" | ModPayments => "payments" | ModCompliance => "compliance" | ModReports => "reports" | ModAlerts => "alerts"
  end.

Definition moduleMeta : list string :=
  ["overview"; "payments"; "treasury"; "markets"; "compliance"; "reports"; "sandbox"; "registry"; "integrations"; "governance"; "alerts"; "admins"].
(** The [in] operator also finds what every object inherits. *)
Definition moduleFromPath (path : string) : string :=
  match last (List.filter truthy (split_on "/" path)) with
  | Some part => if includes (moduleMeta ++ object_prototype)%list part then part else "overview"
  | None => "overview"
  end.

(** The routes of App.tsx, in order, with the module paths that redirect. *)
Inductive page : Type :=
  | PublicLanding
  | StakeholderOnboarding
  | Home
  | RedirectTo (path : string)
  | NotFoundPage.
#[export] Instance page_eq_dec : EqDecision page.
Proof. solve_decision. Defined.
Definition redirected : list string :=
  ["overview"; "registry"; "integrations"; "governance"; "treasury"; "markets"; "payments"; "compliance"; "reports"; "alerts"].
Definition routes : list (string * page) :=
  ([("/", PublicLanding); ("/enroll", StakeholderOnboarding); ("/console", Home); ("/console/:module", Home)] ++
   ((λ m, ("/" +:+ m, RedirectTo (if bool_decide (m = "overview") then "/console" else "/console/" +:+ m))) <$> redirected) ++
   [("/404", NotFoundPage)])%list.
(** [Switch] with the route patterns of the routing library: the first that
    matches, or the last route. *)
Definition shown (matches : string → string → bool) (path : string) : page :=
  match List.find (λ r, matches r.1 path) routes with Some r => r.2 | None => NotFoundPage end.
(** Where an operator ends up, a redirection followed. *)
Definition lands (matches : string → string → bool) (path : string) : page :=
  match shown matches path with RedirectTo p => shown matches p | p => p end.

(** ** Portals and journeys *)

Definition portalCards (role : operating_role) : list string :=
  match role with
  | RoleAdmin => ["registry"; "integrations"; "governance"]
  | RoleComplianceOfficer => ["compliance"; "sandbox"; "reports"]
  | RoleTreasuryOperator => ["treasury"; "markets"; "payments"]
  | RoleAuditor => ["registry"; "integrations"; "reports"]
  | _ => []
  end.
Definition portal_target (target : string) : string := "/console/" +:+ target.

Record OnboardingSignals : Type := mk_signals {
  sg_counterparties : Z;
  sg_integrations : Z;
  sg_customers : Z;
  sg_consents : Z;
  sg_documents : Z;
  sg_liquidityPositions : Z;
  sg_marketObservations : Z;
  sg_paymentOrders : Z;
  sg_complianceCases : Z;
  sg_reports : Z;
  sg_auditEvents : Z
}.
Record JourneyStep : Type := mk_step {
  js_title : string;
  js_module : string;
  js_completed : OnboardingSignals → bool
}.
Definition journeys (role : operating_role) : list JourneyStep :=
  let has (f : OnboardingSignals → Z) s := 0 <? f s in
  match role with
  | RoleAdmin =>
      [mk_step "Record a regulated counterparty" "registry" (has sg_counterparties);
       mk_step "Register a connection" "integrations" (has sg_integrations);
       mk_step "Review credential governance" "integrations" (λ s, has sg_integrations s && has sg_auditEvents s);
       mk_step "Review operating posture" "overview" (has sg_auditEvents)]
  | RoleComplianceOfficer =>
      [mk_step "Create the evidence subject" "compliance" (has sg_customers);
       mk_step "Record verification consent" "compliance" (has sg_consents);
       mk_step "Store an authorised document" "compliance" (has sg_documents);
       mk_step "Review evidence and decide" "compliance" (has sg_complianceCases);
       mk_step "Prepare reportable follow-up" "reports" (has sg_reports)]
  | RoleTreasuryOperator =>
      [mk_step "Record a reconciled position" "treasury" (has sg_liquidityPositions);
       mk_step "Review market evidence" "markets" (has sg_marketObservations);
       mk_step "Draft a payment order" "payments" (has sg_paymentOrders);
       mk_step "Review the settlement path" "payments" (λ s, has sg_paymentOrders s && has sg_counterparties s)]
  | RoleAuditor =>
      [mk_step "Review operating posture" "overview" (has sg_auditEvents);
       mk_step "Inspect service observations" "integrations" (has sg_integrations);
       mk_step "Inspect payment and treasury records" "payments" (λ s, has sg_paymentOrders s || has sg_liquidityPositions s);
       mk_step "Inspect compliance and reporting evidence" "reports" (λ s, has sg_complianceCases s || has sg_reports s)]
  | RoleProviderContact =>
      [mk_step "Review the assigned counterparty" "registry" (has sg_counterparties);
       mk_step "Supply licensing and entitlement evidence" "registry" (has sg_auditEvents);
       mk_step "Supply technical readiness material" "integrations" (has sg_integrations)]
  | RoleCbnLiaison =>
      [mk_step "Review the assigned CBN dossier" "sandbox" (has sg_auditEvents);
       mk_step "Record review correspondence" "sandbox" (λ s, has sg_reports s || has sg_auditEvents s);
       mk_step "Confirm external review boundary" "reports" (has sg_reports)]
  | RoleSystemMonitor => []
  end.
Definition completedCount (steps : list JourneyStep) (s : OnboardingSignals) : Z :=
  Z.of_nat (length (List.filter (λ x, js_completed x s) steps)).
Definition nextStep (steps : list JourneyStep) (s : OnboardingSignals) : option JourneyStep :=
  List.find (λ x, negb (js_completed x s)) steps.
(** [onNavigate] of Home.tsx. *)
Definition step_target (x : JourneyStep) : string := "/" +:+ js_module x.
