(* ===== verification/ConsoleControls.v ===== *)
(** * The controls of the console that write

    Every place of the React client, src/apps/control-plane/client/src, that
    submits to a mutation: the component, the procedure, and the roles the form
    or the button is shown to, on a record in the state it is for. [hooks] lists
    the [useMutation] declarations of the components; [controls] what is drawn
    of them. *)

From S2P Require Import Prelude Js Numeric Sha256 Hmac Rows Schema EvidencePacks Identity Console.

Local Open Scope string_scope.
Local Open Scope Z_scope.

(** ** Declared mutations *)

Definition auditor_engagement_workspace_hooks : list string :=
  ["recordEngagementLetter"; "recordAccessProvisioning"; "recordAuditFieldwork"; "recordAnnualReview"; "startAuditorEngagement"].
Definition banking_partner_workspace_hooks : list string :=
  ["updateCounterpartyBankArchetype"; "recordBankEvidenceItem"; "createCounterpartyOnboarding"; "decideCounterpartyOnboardingGate";
   "decideTechnicalOnboardingGate"; "decideTreasuryPilotOnboardingGate"; "beginCounterpartyRecertification"; "decideCryptoPostureGate"].
Definition cbn_sandbox_workspace_hooks : list string :=
  ["createCbnSandboxDossier"; "recordCbnSandboxEvidence"; "createCbnSandboxTestPlan"; "recordCbnSandboxConsumerRecord"; "recordCbnSandboxIncident";
   "createCbnSandboxReportingPack"; "assessCbnSandboxEvidenceCompleteness"; "createVaspRegulatoryProfile"; "recordVaspSupervisoryEvidence";
   "recordVaspTravelRuleEvidence"; "assessVaspTravelRuleRoute"; "initialiseReadinessAssurance"; "recordReadinessAssuranceEvidence";
   "verifyReadinessAssuranceEvidence"].
Definition compliance_vendor_workspace_hooks : list string :=
  ["updateCounterpartyComplianceVendorArchetype"; "recordComplianceVendorEvidenceItem"; "createCounterpartyOnboarding";
   "decideComplianceVendorSecurityPostureGate"; "decideComplianceVendorCoverageFeasibilityGate"; "decideComplianceVendorFalsePositiveCeilingGate";
   "decideComplianceVendorAnnualReviewGate"].
Definition enterprise_customers_workspace_hooks : list string :=
  ["updateCustomerProfile"; "recordCustomerDestinationCounterparty"; "createKycDocumentUploadIntent"; "finalizeKycDocumentUpload";
   "updateKycDocumentReview"; "decideCustomerUseCaseGate"; "createCustomer"].
Definition home_hooks : list string :=
  ["createCounterparty"; "configureIntegrationCredential"; "activateIntegrationConnection"; "suspendIntegrationConnection";
   "createCounterpartyAuthorization"; "transitionCounterpartyAuthorization"; "createCounterpartyOnboarding"; "decideCounterpartyOnboardingGate";
   "decideTechnicalOnboardingGate"; "decideTreasuryPilotOnboardingGate"; "beginCounterpartyRecertification"; "createIntegrationConnection";
   "createCorridorPolicy"; "recordLiquidityPosition"; "createTreasuryRecommendation"; "decideTreasuryRecommendation"; "createPaymentOrder";
   "transitionPaymentOrder"; "expireRateLocks"; "createPaymentLeg"; "transitionPaymentLeg"; "createRateLock"; "cancelRateLock"; "registerLegalEntity";
   "createDocumentAnalysisJob"; "createVerificationConsent"; "disposeComplianceCase"; "createComplianceCase"; "createSarStrFiling";
   "transitionSarStrFiling"; "updateKycDocumentReview"; "createKycDocumentUploadIntent"; "finalizeKycDocumentUpload"; "createRegulatoryReport";
   "transitionRegulatoryReport"; "createRegulatoryDeadline"; "createAlertPolicy"; "evaluateRegulatoryDeadlines"; "createReviewerDecision"].
Definition liquidity_provider_workspace_hooks : list string :=
  ["updateCounterpartyLpArchetype"; "recordCounterpartyEvidenceItem"; "createCounterpartyOnboarding"; "decideCounterpartyOnboardingGate";
   "decideTechnicalOnboardingGate"; "decideTreasuryPilotOnboardingGate"; "beginCounterpartyRecertification"; "decideFinancialSoundnessGate"].
Definition operator_onboarding_controls_hooks : list string :=
  ["onboardOperator"; "grantOperatingRole"; "assignExternalStakeholder"].
Definition operators_workspace_hooks : list string :=
  ["changeOperatorRole"; "deactivateOperator"; "startOperatorOnboarding"; "recordSodMatrixReview"; "recordLmsEnrolment";
   "recordShadowPeriodSupervision"; "recordOperatorRecertification"].
Definition payout_psp_workspace_hooks : list string :=
  ["updateCounterpartyPspArchetype"; "recordPspEvidenceItem"; "createCounterpartyOnboarding"; "decidePspLicenceRailGate";
   "decidePspSettlementCutoffGate"; "decidePspBoundedLiveGate"; "decidePspFailoverGate"].
Definition stablecoin_issuer_workspace_hooks : list string :=
  ["updateCounterpartyStablecoinIssuerArchetype"; "recordStablecoinIssuerEvidenceItem"; "createCounterpartyOnboarding";
   "decideStablecoinIssuerLicenceReservePostureGate"; "decideStablecoinIssuerMintRedeemGate"; "decideStablecoinIssuerChainReadinessGate";
   "decideStablecoinIssuerOperatingPostureGate"].
Definition stakeholder_portal_hooks : list string :=
  ["recordProviderContactEvidence"; "recordCbnLiaisonEvidence"].
Definition hooks : list (string * list string) :=
  [("AuditorEngagementWorkspace", auditor_engagement_workspace_hooks);
   ("BankingPartnerWorkspace", banking_partner_workspace_hooks);
   ("CbnSandboxWorkspace", cbn_sandbox_workspace_hooks);
   ("ComplianceVendorWorkspace", compliance_vendor_workspace_hooks);
   ("EnterpriseCustomersWorkspace", enterprise_customers_workspace_hooks);
   ("Home", home_hooks);
   ("LiquidityProviderWorkspace", liquidity_provider_workspace_hooks);
   ("OperatorOnboardingControls", operator_onboarding_controls_hooks);
   ("OperatorsWorkspace", operators_workspace_hooks);
   ("PayoutPspWorkspace", payout_psp_workspace_hooks);
   ("StablecoinIssuerWorkspace", stablecoin_issuer_workspace_hooks);
   ("StakeholderPortal", stakeholder_portal_hooks)].

(** ** Controls *)

Record control : Type := mk_control {
  ct_where : string;
  ct_procedure : string;
  ct_offered : option operating_role → bool
}.
Definition ct_path (c : control) : string := "postgres." +:+ ct_procedure c.
Definition offer (component : string) (offered : option operating_role → bool) (procedures : list string) : list control :=
  (λ p, mk_control component p offered) <$> procedures.

(** The buttons of the modules that open a form, and the form they open. *)
Definition strip_router (path : string) : string := if startsWith path "postgres." then String.substring 9 (String.length path - 9) path else path.
Definition composer_controls : list control :=
  flat_map (λ m, omap (λ x : string * ComposerAction,
    (λ p, mk_control "Home" (strip_router p) (λ r, canOpenConsoleComposer r x.2)) <$> composer_form m (Some x.2)) (consoleModuleActions m)) console_modules.
(** The rest of the pages of Home.tsx. The upload of a document has two requests. *)
Definition home_controls : list control :=
  (offer "Home" canAdmin ["transitionCounterpartyAuthorization"; "registerLegalEntity"] ++
   offer "Home" canConfigureCredentials ["configureIntegrationCredential"; "activateIntegrationConnection"; "suspendIntegrationConnection"] ++
   offer "Home" canProposeRebalancing ["createTreasuryRecommendation"; "decideTreasuryRecommendation"] ++
   offer "Home" canManageRateLocks ["createRateLock"; "cancelRateLock"] ++
   offer "Home" canOperatePayments ["createPaymentOrder"; "createPaymentLeg"; "expireRateLocks"; "transitionPaymentOrder"; "transitionPaymentLeg"] ++
   offer "Home" (λ r, canOpenConsoleComposer r (Console ActKycDocument)) ["finalizeKycDocumentUpload"] ++
   offer "Home" canDispose ["createVerificationConsent"; "disposeComplianceCase"] ++
   offer "Home" canRecordReviewerDecision ["createReviewerDecision"] ++
   offer "Home" canReview ["updateKycDocumentReview"] ++
   offer "Home" canManageFilings ["transitionSarStrFiling"] ++
   offer "Home" (λ r, canPerformConsoleAction r ActReport) ["createRegulatoryReport"; "transitionRegulatoryReport"])%list.

(** [CounterpartyOnboardingControls], in three places: the form that starts a
    record, the decision of the gate of its stage and its recertification. *)
Definition gate_offered (path : string) (role : option operating_role) : bool :=
  existsb (λ g, mayDecide role (Some g) && bool_decide (decision_path role g = path)) [GateLegal; GateTechnical; GatePilot].
Definition lifecycle_controls (component : string) (shown : option operating_role → bool) : list control :=
  (offer component (λ r, shown r && role_is r RoleAdmin) ["createCounterpartyOnboarding"] ++
   ((λ p, mk_control component p (λ r, shown r && gate_offered ("postgres." +:+ p) r)) <$>
      ["decideCounterpartyOnboardingGate"; "decideTechnicalOnboardingGate"; "decideTreasuryPilotOnboardingGate"]) ++
   offer component (λ r, shown r && mayRecertify r StageSteadyState) ["beginCounterpartyRecertification"])%list.
Definition anywhere (_ : option operating_role) : bool := true.

(** The workspaces of the five kinds of counterparty. *)
Definition section_controls (component : string) (sections : list gate_section) : list control :=
  (λ s : gate_section, mk_control component (strip_router s.2) (λ r, workspaceShown r && canDecide r s)) <$> sections.
Definition pack_controls (component : string) (procedures : list string) : list control :=
  offer component (λ r, workspaceShown r && canEdit r) procedures.
Definition start_controls (component : string) : list control :=
  offer component (λ r, offersOnboardingStart r None) ["createCounterpartyOnboarding"].
Definition lp_controls : list control :=
  (lifecycle_controls "LiquidityProviderWorkspace" workspaceShown ++
   pack_controls "LiquidityProviderWorkspace" ["updateCounterpartyLpArchetype"; "recordCounterpartyEvidenceItem"] ++
   section_controls "LiquidityProviderWorkspace" lp_sections)%list.
Definition bank_controls : list control :=
  (lifecycle_controls "BankingPartnerWorkspace" workspaceShown ++
   pack_controls "BankingPartnerWorkspace" ["updateCounterpartyBankArchetype"; "recordBankEvidenceItem"] ++
   section_controls "BankingPartnerWorkspace" bank_sections)%list.
Definition psp_controls : list control :=
  (start_controls "PayoutPspWorkspace" ++ pack_controls "PayoutPspWorkspace" ["updateCounterpartyPspArchetype"; "recordPspEvidenceItem"] ++
   section_controls "PayoutPspWorkspace" psp_sections)%list.
Definition issuer_controls : list control :=
  (start_controls "StablecoinIssuerWorkspace" ++
   pack_controls "StablecoinIssuerWorkspace" ["updateCounterpartyStablecoinIssuerArchetype"; "recordStablecoinIssuerEvidenceItem"] ++
   section_controls "StablecoinIssuerWorkspace" issuer_sections)%list.
Definition vendor_controls : list control :=
  (start_controls "ComplianceVendorWorkspace" ++
   pack_controls "ComplianceVendorWorkspace" ["updateCounterpartyComplianceVendorArchetype"; "recordComplianceVendorEvidenceItem"] ++
   section_controls "ComplianceVendorWorkspace" vendor_sections)%list.
Definition customer_controls : list control :=
  pack_controls "EnterpriseCustomersWorkspace"
    ["createCustomer"; "updateCustomerProfile"; "recordCustomerDestinationCounterparty"; "createKycDocumentUploadIntent"; "finalizeKycDocumentUpload";
     "updateKycDocumentReview"; "decideCustomerUseCaseGate"].

(** The readiness workspaces, the administration of operators and auditors, and
    the portal of external stakeholders. *)
Definition sandbox_controls : list control :=
  (offer "CbnSandboxWorkspace" canAdmin ["createCbnSandboxDossier"; "createCbnSandboxTestPlan"; "createVaspRegulatoryProfile"; "initialiseReadinessAssurance"] ++
   offer "CbnSandboxWorkspace" canEdit
     ["recordCbnSandboxEvidence"; "recordCbnSandboxConsumerRecord"; "recordCbnSandboxIncident"; "createCbnSandboxReportingPack";
      "assessCbnSandboxEvidenceCompleteness"; "recordVaspSupervisoryEvidence"; "recordVaspTravelRuleEvidence"; "assessVaspTravelRuleRoute";
      "recordReadinessAssuranceEvidence"] ++
   offer "CbnSandboxWorkspace" canVerify ["verifyReadinessAssuranceEvidence"])%list.
Definition operator_controls : list control :=
  offer "OperatorsWorkspace" canAdmin
    ["changeOperatorRole"; "deactivateOperator"; "startOperatorOnboarding"; "recordSodMatrixReview"; "recordLmsEnrolment";
     "recordShadowPeriodSupervision"; "recordOperatorRecertification"].
Definition access_controls : list control :=
  offer "OperatorOnboardingControls" canAdmin ["onboardOperator"; "grantOperatingRole"; "assignExternalStakeholder"].
Definition engagement_controls : list control :=
  offer "AuditorEngagementWorkspace" canAdmin
    ["startAuditorEngagement"; "recordEngagementLetter"; "recordAccessProvisioning"; "recordAuditFieldwork"; "recordAnnualReview"].
Definition portal_controls : list control :=
  (offer "StakeholderPortal" (λ r, role_is r RoleProviderContact) ["recordProviderContactEvidence"] ++
   offer "StakeholderPortal" (λ r, role_is r RoleCbnLiaison) ["recordCbnLiaisonEvidence"])%list.

Definition controls : list control :=
  (composer_controls ++ home_controls ++ lifecycle_controls "Home" anywhere ++ lp_controls ++ bank_controls ++ psp_controls ++ issuer_controls ++
   vendor_controls ++ customer_controls ++ sandbox_controls ++ operator_controls ++ access_controls ++ engagement_controls ++ portal_controls)%list.
