(* ===== verification/ConsoleProps.v ===== *)
(** * The console against the server

    For every control of the console and every role, whether it is shown is
    compared with the guard of the procedure it submits to, and where the console
    shows less, or more, is listed; a lifecycle step it offers on a record is one
    the handler takes on that record. *)

From S2P Require Import Prelude Js Numeric Sha256 Hmac Rows Schema Parties RateLocks PaymentWorkflow ComplianceAlerts Onboarding EvidencePacks KycDocuments Treasury Access Dossiers Zod Contracts Identity Router AccessMatrix RouterProps Console ConsoleControls.

Local Open Scope string_scope.
Local Open Scope Z_scope.

(** A decidable statement about closed data. *)
Ltac decided := apply (bool_decide_unpack _); vm_compute; exact I.

(** ** Roles *)

(** The roles the types of the client name. *)
Definition console_roles : list operating_role :=
  [RoleAdmin; RoleComplianceOfficer; RoleTreasuryOperator; RoleAuditor; RoleProviderContact; RoleCbnLiaison].

(** What the router would let a role do and the console does not show it. *)
Definition withheld : list (string * string * operating_role) :=
  [("Home", "createVerificationConsent", RoleAdmin); ("Home", "createDocumentAnalysisJob", RoleAdmin); ("Home", "disposeComplianceCase", RoleAdmin);
   ("Home", "decideTreasuryPilotOnboardingGate", RoleAdmin); ("LiquidityProviderWorkspace", "decideTreasuryPilotOnboardingGate", RoleAdmin);
   ("BankingPartnerWorkspace", "decideTreasuryPilotOnboardingGate", RoleAdmin);
   ("OperatorsWorkspace", "recordLmsEnrolment", RoleComplianceOfficer); ("OperatorsWorkspace", "recordOperatorRecertification", RoleComplianceOfficer)].
(** What the console shows a role and the router refuses it. *)
Definition shown_in_vain : list (string * string * operating_role) :=
  ([("Home", "recordLiquidityPosition", RoleSystemMonitor); ("Home", "transitionSarStrFiling", RoleAdmin)] ++
   flat_map (λ w, (λ r, (w, "createCounterpartyOnboarding", r)) <$> [RoleComplianceOfficer; RoleTreasuryOperator; RoleAuditor])
     ["PayoutPspWorkspace"; "StablecoinIssuerWorkspace"; "ComplianceVendorWorkspace"])%list.
Definition listed_in (exceptions : list (string * string * operating_role)) (c : control) (w : option operating_role) : bool :=
  match w with Some r => includes exceptions (ct_where c, ct_procedure c, r) | None => false end.

(** ** Lifecycles *)

(** A rejection by the code of the handler, not by a rule of the tables. *)
Definition refuses {A} (r : res A) : bool := match r with Throw (JsError _) => true | _ => false end.

Ltac run_handler H :=
  unfold transaction, act_throw_if, mbind, act_bind, tx_bind, select_by_id, gets, require, throw_if, update_row, insert_activity, modify, mret, tx_ret;
  repeat match goal with Hl : _ <= js_length _ |- _ => rewrite (proj2 (Z.ltb_ge _ _) Hl); clear Hl end;
  cbn beta iota; rewrite H; cbn beta iota.

Lemma case_offers E a ev id c s reason d : compliance_cases d !! id = Some c → 20 <= js_length (trim reason) →
  refuses (disposeComplianceCase E a ev id s reason d).1 = negb (includes (dispositionTargets (pg_text (cc_status c))) (pg_text s)).
Proof.
  intros Hc Hl. unfold disposeComplianceCase. cbv zeta. run_handler Hc.
  destruct (includes (ALLOWED_CASE_TRANSITIONS _) _) eqn:Hi; cbn [negb fst refuses]; revert Hi; destruct (cc_status c), s; vm_compute; congruence.
Qed.
Lemma filing_offers E a id f s reference d : sar_str_filings d !! id = Some f → s ≠ FilingSubmitted →
  refuses (transitionPostgresSarStrFiling E a id s reference d).1 = negb (includes (table_entry filingTransitions (pg_text (ssf_status f))) (pg_text s)).
Proof.
  intros Hc Hs. unfold transitionPostgresSarStrFiling. run_handler Hc. rewrite (bool_decide_eq_false_2 _ Hs).
  destruct (includes (filing_allowed _) _) eqn:Hi; cbn [negb fst refuses andb]; revert Hi; destruct (ssf_status f), s; vm_compute; congruence.
Qed.
Lemma review_offers E a id k s note d : kyc_documents d !! id = Some k →
  refuses (updatePostgresKycDocumentReview E a id s note d).1 = negb (includes (table_entry kycReviewTransitions (pg_text (kd_review_status k))) (pg_text s)).
Proof.
  intros Hc. unfold updatePostgresKycDocumentReview. run_handler Hc.
  destruct (includes (kyc_review_edges _) _) eqn:Hi; cbn [negb fst refuses]; revert Hi; destruct (kd_review_status k), s; vm_compute; congruence.
Qed.
Lemma order_offers E a id o s reason d : payment_orders d !! id = Some o → 10 <= js_length (trim reason) →
  (s ≠ "approved" ∨ is_Some (po_policy_decision_id o)) →
  refuses (transitionPostgresPaymentOrder E a id s reason d).1 = negb (includes (availablePaymentTransitions (pg_text (po_status o))) s).
Proof.
  intros Ho Hl Hp. unfold transitionPostgresPaymentOrder. rewrite act_throw_if_bind.
  unfold availablePaymentTransitions, table_entry. change internalPaymentTransitions with internalOrderTransitions.
  destruct (includes providerDependentOrderStates s) eqn:Hs.
  - cbn [fst refuses]. symmetry. apply negb_true_iff, not_true_iff_false. rewrite includes_true. apply includes_true in Hs.
    intros Hi. unfold providerDependentOrderStates in Hs. destruct (po_status o); vm_compute in Hi; set_solver.
  - run_handler Ho. unfold table_allows. destruct (record_get _ _) as [l|] eqn:Ht; [|reflexivity]. change (default [] (Some l)) with l. destruct (includes l s) eqn:Hi; cbn beta iota delta [negb]; [|reflexivity].
    replace (bool_decide (s = "approved") && bool_decide (po_policy_decision_id o = None)) with false.
    + assert (is_Some (of_text (A := payment_status) s)) as [n Hn]; [|by rewrite Hn].
      apply includes_true in Hi. destruct (po_status o); vm_compute in Ht; simplify_eq; set_unfold in Hi; naive_solver.
    + symmetry. apply andb_false_iff. destruct Hp as [Hp|[x Hx]]; [left; by apply bool_decide_eq_false|right; by rewrite Hx].
Qed.

Lemma lock_offers E a id l now d : rate_locks d !! id = Some l →
  isCancellableRateLock (pg_text (rl_status l)) (js_of_pg (rl_expires_at l)) now = true → refuses (Postgres.cancelPostgresRateLock E a id d).1 = false.
Proof.
  intros Hl. unfold isCancellableRateLock. intros [Hs _]%andb_true_iff. unfold Postgres.cancelPostgresRateLock. run_handler Hl.
  destruct (rl_status l); [reflexivity|by vm_compute in Hs..].
Qed.

Lemma enforce_rejects_by_rule rs d : refuses (enforce rs d) = false.
Proof. induction rs as [|[b v] rs IH]; [done|]. cbn [enforce]. unfold mbind, tx_bind, throw_if. by destruct b. Qed.
Lemma update_rejects_by_rule {R} (tbl : db → gmap uuid R) `{!Setter tbl} rules id f d : refuses (update_checked tbl rules id f d) = false.
Proof.
  unfold update_checked, mbind, tx_bind, gets. destruct (tbl d !! id) as [r|]; [|done].
  pose proof (enforce_rejects_by_rule (checks rules (f r)) d) as H. destruct (enforce _ d) as [[]|[]]; try done.
  cbn. apply enforce_rejects_by_rule.
Qed.

(** The decision is offered to an operator exactly when the handler would take
    it, for the same clock. *)
Lemma recommendation_offers E a role id r decision reason d : treasury_recommendations d !! id = Some r → canProposeRebalancing role = true →
  canDecideRecommendation role (pg_text (trr_status r)) (trr_proposed_by r) (js_of_pg (trr_expires_at r)) (Some (a_openId a)) (app_now E) =
  negb (refuses (decidePostgresTreasuryRecommendation E a id decision reason d).1).
Proof.
  intros Hr Hc. unfold canDecideRecommendation, decidePostgresTreasuryRecommendation. rewrite Hc. cbn [negb]. run_handler Hr.
  unfold mbind, option_bind.
  destruct (trr_status r); try reflexivity. change (bool_decide (pg_text RecProposed = "proposed")) with true.
  rewrite (bool_decide_eq_true_2 (RecProposed = RecProposed)) by done. cbn beta iota delta [negb].
  destruct (js_of_pg (trr_expires_at r) <=? app_now E); destruct (bool_decide (trr_proposed_by r = a_openId a)); try reflexivity.
  cbn beta iota. pose proof (update_rejects_by_rule treasury_recommendations rules_recommendations id (decided_recommendation E a decision reason) d) as Hu.
  by destruct (update_checked _ _ _ _ d) as [[]|[]].
Qed.

Section console.
Context `{Z0 : !ZodParser} (zod_uuid zod_email : string → bool) (zod_url : string → option string) (coerce_date : json → option Z) (now : Z).
Local Abbreviation find_procedure0 := (Router.find_procedure zod_uuid zod_email zod_url coerce_date now).

(** A control and the guard of its procedure, for every caller. *)
Definition control_exact (c : control) : bool :=
  match find_procedure0 (ct_path c) with
  | None => false
  | Some p => p_mutation p && forallb (λ w, Bool.eqb (ct_offered c w)
      (lets (p_guard p) w && negb (listed_in withheld c w) || listed_in shown_in_vain c w)) everyone
  end.
Lemma controls_table : forallb control_exact controls = true.
Proof. vm_compute. reflexivity. Qed.
Lemma controls_exact c ctx : c ∈ controls → ∃ p, find_procedure0 (ct_path c) = Some p ∧ p_mutation p = true ∧
  ct_offered c (who ctx) = passes_guard (p_guard p) ctx && negb (listed_in withheld c (who ctx)) || listed_in shown_in_vain c (who ctx).
Proof.
  intros Hc%list_elem_of_In. pose proof (proj1 (forallb_forall _ _) controls_table c Hc) as H. unfold control_exact in H.
  destruct (find_procedure0 (ct_path c)) as [p|]; [|done]. apply andb_true_iff in H as [Hm H]. exists p. split_and!; [done|done|].
  rewrite passes_lets. apply eqb_prop. apply (proj1 (forallb_forall _ _) H). apply list_elem_of_In, everyone_all.
Qed.
Lemma nobody_is_offered : forallb (λ c, negb (ct_offered c None)) controls = true.
Proof. vm_compute. reflexivity. Qed.
(** Every declared mutation but one has a control. *)
Lemma hooks_table : forallb (λ h : string * list string, forallb (λ name, bool_decide (name = "evaluateRegulatoryDeadlines") ||
    existsb (λ c, bool_decide (ct_where c = h.1) && bool_decide (ct_procedure c = name)) controls) h.2) hooks = true.
Proof. vm_compute. reflexivity. Qed.
Lemma hooks_drawn component names name : (component, names) ∈ hooks → name ∈ names → name ≠ "evaluateRegulatoryDeadlines" →
  ∃ c, c ∈ controls ∧ ct_where c = component ∧ ct_procedure c = name.
Proof.
  intros Hh%list_elem_of_In Hn%list_elem_of_In Hne.
  pose proof (proj1 (forallb_forall _ _) (proj1 (forallb_forall _ _) hooks_table _ Hh) name Hn) as H. cbv beta in H.
  rewrite (bool_decide_eq_false_2 _ Hne) in H. cbn [orb fst] in H.
  apply existsb_exists in H as (c & Hc%list_elem_of_In & [H1%bool_decide_eq_true H2%bool_decide_eq_true]%andb_true_iff). by exists c.
Qed.

Lemma gate_table : forallb (λ w, forallb (λ g, negb (mayDecide w (Some g)) ||
  match find_procedure0 (decision_path w g) with Some p => lets (p_guard p) w | None => false end) [GateLegal; GateTechnical; GatePilot]) everyone = true.
Proof. vm_compute. reflexivity. Qed.

(** C39. The console shows a control exactly to those the server lets use it, up
    to two lists of exceptions. Every mutation a component declares has a control,
    apart from the evaluation of deadlines, which none calls; and for every
    control and every caller, of any of the seven roles or nobody: the procedure
    it submits to is a mutation of the router, and the control is shown if and
    only if the router's guard lets the caller in and the pair is not withheld
    (eight pairs: consents, analyses, dispositions and pilot gates from an
    administrator, two training steps from a compliance officer), or the pair is
    one of the eleven that are shown in vain (the steps of a filing to an
    administrator, three forms that start an onboarding record to the three other
    operators, liquidity positions to a system monitor). Nobody who is not signed
    in is shown any. The decision form of an onboarding stage belongs to the gate
    the server expects at that stage, and calls a procedure open to the role it is
    shown to. *)
Theorem console_offers_what_is_granted ctx :
  (∀ component names name, (component, names) ∈ hooks → name ∈ names → name ≠ "evaluateRegulatoryDeadlines" →
    ∃ c, c ∈ controls ∧ ct_where c = component ∧ ct_procedure c = name) ∧
  (∀ c, c ∈ controls → ∃ p, find_procedure0 (ct_path c) = Some p ∧ p_mutation p = true ∧
    (ct_offered c (who ctx) = true ↔
      passes_guard (p_guard p) ctx = true ∧ listed_in withheld c (who ctx) = false ∨ listed_in shown_in_vain c (who ctx) = true)) ∧
  (∀ c, c ∈ controls → ct_offered c None = false) ∧
  (∀ stage gate, gateForStage stage = Some gate → stageForGate gate = stage ∧
    (mayDecide (who ctx) (Some gate) = true → ∃ p, find_procedure0 (decision_path (who ctx) gate) = Some p ∧ passes_guard (p_guard p) ctx = true)).
Proof.
  split_and!.
  - intros component names name. apply hooks_drawn.
  - intros c Hc. destruct (controls_exact c ctx Hc) as (p & Hp & Hm & ->). exists p. split_and!; try done.
    by rewrite orb_true_iff, andb_true_iff, negb_true_iff.
  - intros c Hc%list_elem_of_In. apply negb_true_iff. by apply (proj1 (forallb_forall _ _) nobody_is_offered).
  - intros stage gate Hg. split; [destruct stage; cbn in Hg; by simplify_eq|]. intros Hm.
    pose proof (proj1 (forallb_forall _ _) gate_table (who ctx) (proj1 (list_elem_of_In _ _) (everyone_all _))) as H.
    pose proof (proj1 (forallb_forall _ _) H gate ltac:(destruct gate; cbn; tauto)) as Hp. cbv beta in Hp.
    rewrite Hm in Hp. destruct (find_procedure0 _) as [p|]; [|done]. exists p. split; [done|]. by rewrite passes_lets.
Qed.

(** Departure: the controls of a suspicious-activity filing are shown to an
    administrator, although the composer withholds that action from one and the
    server keeps the procedure to compliance officers. *)
Theorem filings_shown_to_administrators :
  canManageFilings (Some RoleAdmin) = true ∧ canOpenConsoleComposer (Some RoleAdmin) (Console ActSarStr) = false ∧
  (λ p, lets (p_guard p) (Some RoleAdmin)) <$> find_procedure0 "postgres.transitionSarStrFiling" = Some false.
Proof. vm_compute. done. Qed.

(** Departure: the form that starts an onboarding record is shown to all four
    operators in three workspaces, and only an administrator may send it. *)
Theorem onboarding_start_shown_to_operators r :
  (offersOnboardingStart (Some r) None = true ↔ r ∈ [RoleAdmin; RoleComplianceOfficer; RoleTreasuryOperator; RoleAuditor]) ∧
  ((λ p, lets (p_guard p) (Some r)) <$> find_procedure0 "postgres.createCounterpartyOnboarding" = Some true ↔ r = RoleAdmin).
Proof. destruct r; (split; [split; [intros _; set_solver|done]|split; [intros H; vm_compute in H; done|by intros]]) || (split; split; intros H; try done; set_solver). Qed.

(** Departure: a role that the list of actions does not name is given the
    treasury operator's: the form for a liquidity position is shown to a system
    monitor, whom the server refuses. *)
Theorem unnamed_role_gets_treasury_actions :
  canPerformConsoleAction (Some RoleSystemMonitor) ActLiquidity = true ∧
  (λ p, lets (p_guard p) (Some RoleSystemMonitor)) <$> find_procedure0 "postgres.recordLiquidityPosition" = Some false.
Proof. vm_compute. done. Qed.

(** Departure: consent capture and analysis are kept from an administrator by the
    console, not by the server. *)
Theorem consent_open_to_administrators : canOpenConsoleComposer (Some RoleAdmin) ActConsent = false ∧
  (λ p, lets (p_guard p) (Some RoleAdmin)) <$> find_procedure0 "postgres.createVerificationConsent" = Some true.
Proof. vm_compute. done. Qed.
End console.

(** Departure: the button that evaluates deadlines can be pressed by an
    administrator and opens a composer that no module shows a form for; the
    procedure is not called. *)
Theorem evaluate_button_does_nothing :
  Console ActEvaluateDeadlines ∈ pressable (Some RoleAdmin) ModAlerts (disabled_actions ModAlerts false) ∧
  openComposer (Some RoleAdmin) (Console ActEvaluateDeadlines) None = (Some (Console ActEvaluateDeadlines), false) ∧
  (∀ m, composer_form m (Some (Console ActEvaluateDeadlines)) = None) ∧
  "evaluateRegulatoryDeadlines" ∈ home_hooks ∧ "evaluateRegulatoryDeadlines" ∉ (ct_procedure <$> controls).
Proof.
  split; [by apply (bool_decide_unpack _)|]. split; [done|]. split; [by intros []|]. split; decided.
Qed.

(** A step the console offers on a record is one the handler of the server takes
    on that record, and one it does not offer the handler refuses: for cases,
    filings, documents, orders and recommendations, with the reasons the forms ask
    for. A lock offered for cancelling is one the handler cancels. *)
Theorem console_steps_are_taken E a d :
  (∀ ev id c s reason, compliance_cases d !! id = Some c → 20 <= js_length (trim reason) →
    includes (dispositionTargets (pg_text (cc_status c))) (pg_text s) = negb (refuses (disposeComplianceCase E a ev id s reason d).1)) ∧
  (∀ id f s reference, sar_str_filings d !! id = Some f → s ≠ FilingSubmitted →
    includes (table_entry filingTransitions (pg_text (ssf_status f))) (pg_text s) = negb (refuses (transitionPostgresSarStrFiling E a id s reference d).1)) ∧
  (∀ id k s note, kyc_documents d !! id = Some k →
    includes (table_entry kycReviewTransitions (pg_text (kd_review_status k))) (pg_text s) =
      negb (refuses (updatePostgresKycDocumentReview E a id s note d).1)) ∧
  (∀ id o s reason, payment_orders d !! id = Some o → 10 <= js_length (trim reason) → s ≠ "approved" ∨ is_Some (po_policy_decision_id o) →
    includes (availablePaymentTransitions (pg_text (po_status o))) s = negb (refuses (transitionPostgresPaymentOrder E a id s reason d).1)) ∧
  (∀ status, availableLegTransitions status = allowedInternalLegTransitions status) ∧
  (∀ id l now, rate_locks d !! id = Some l → isCancellableRateLock (pg_text (rl_status l)) (js_of_pg (rl_expires_at l)) now = true →
    refuses (Postgres.cancelPostgresRateLock E a id d).1 = false) ∧
  (∀ role id r decision reason, treasury_recommendations d !! id = Some r → canProposeRebalancing role = true →
    canDecideRecommendation role (pg_text (trr_status r)) (trr_proposed_by r) (js_of_pg (trr_expires_at r)) (Some (a_openId a)) (app_now E) =
      negb (refuses (decidePostgresTreasuryRecommendation E a id decision reason d).1)).
Proof.
  split_and!; intros; try (by eapply lock_offers); try (by apply recommendation_offers); try reflexivity.
  - by erewrite case_offers, negb_involutive.
  - by erewrite filing_offers, negb_involutive.
  - by erewrite review_offers, negb_involutive.
  - by erewrite order_offers, negb_involutive.
Qed.

(** Departure: the licence selector offers every state from every state. *)
Theorem licence_selector_offers_refused_steps :
  "verified" ∈ authorizationOptions ∧ table_allows authorizationTransitions "rejected" "verified" = false.
Proof. split; [set_solver|reflexivity]. Qed.

(** ** Evidence packs and categories *)

(** A workspace asks for exactly the evidence its table takes, so the count it
    shows reaches the size of the pack exactly when every kind is recorded; its
    gates, and who may decide them, are those of the module. *)
Lemma documented_all pack recorded : documentedCount pack recorded = Z.of_nat (length pack) ↔ ∀ k, k ∈ pack → k ∈ recorded.
Proof.
  unfold documentedCount. rewrite Nat2Z.inj_iff. induction pack as [|x pack IH]; cbn; [set_solver|].
  pose proof (List.filter_length_le (λ item, existsb (λ row, bool_decide (row = item)) recorded) pack) as Hle.
  destruct (existsb _ recorded) eqn:Hx; cbn.
  - apply existsb_exists in Hx as (y & Hy%list_elem_of_In & ->%bool_decide_eq_true). set_solver by lia.
  - split; [lia|]. intros H. exfalso. apply not_true_iff_false in Hx. apply Hx, existsb_exists. exists x.
    split; [apply list_elem_of_In, H; set_solver|by apply bool_decide_eq_true].
Qed.

Definition workspaces : list (chapter * list string * list gate_section) :=
  [(LiquidityProvider.ch, lp_pack, lp_sections); (BankingPartner.ch, bank_pack, bank_sections); (PayoutPsp.ch, psp_pack, psp_sections);
   (StablecoinIssuer.ch, issuer_pack, issuer_sections); (ComplianceVendor.ch, vendor_pack, vendor_sections)].
Theorem workspaces_follow_their_chapters C pack sections : (C, pack, sections) ∈ workspaces →
  pack = ch_evidence_types C ∧ sections.*1.*1 = ch_gates C ∧
  (∀ recorded, documentedCount pack recorded = Z.of_nat (length pack) ↔ ∀ k, k ∈ ch_evidence_types C → k ∈ recorded) ∧
  (∀ permitted s r, ch_permitted C = Some permitted → s ∈ sections → canDecide (Some r) s = includes (permitted s.1.1) r).
Proof.
  unfold workspaces. intros H. repeat (apply elem_of_cons in H as [[= -> -> ->]|H]); [..|by apply elem_of_nil in H];
    (split; [reflexivity|]; split; [reflexivity|]; split; [intros; apply documented_all|]); intros permitted s r Hp Hs; try done; injection Hp as <-;
    repeat (apply elem_of_cons in Hs as [->|Hs]; [by destruct r|]); by apply elem_of_nil in Hs.
Qed.

Lemma b2z_four a b c d : Z.b2z a + Z.b2z b + Z.b2z c + Z.b2z d = 4 ↔ a = true ∧ b = true ∧ c = true ∧ d = true.
Proof. destruct a, b, c, d; cbn; naive_solver lia. Qed.
Lemma customer_count documents narrative invoices : let here := item_present documents narrative invoices in
  customerDocumentedCount documents narrative invoices =
  Z.b2z (here (DocumentOf "registration_certificate")) + Z.b2z (here (DocumentOf "beneficial_ownership")) + Z.b2z (here Narrative) + Z.b2z (here Invoice).
Proof.
  cbv zeta. unfold customerDocumentedCount, customer_pack. cbn [List.filter snd].
  change (item_present documents narrative invoices NotStructured) with false. cbn beta iota.
  destruct (item_present _ _ _ (DocumentOf "registration_certificate")), (item_present _ _ _ (DocumentOf "beneficial_ownership")),
    (item_present _ _ _ Narrative), (item_present _ _ _ Invoice); reflexivity.
Qed.
(** The counter of a customer's pack stops at four of its sixteen items, which it
    reaches exactly with both documents, a narrative and an invoice. Departure: the
    panel says that thirteen items have no place in the system; twelve have none. *)
Theorem customer_pack_stops_at_four documents narrative invoices :
  customerDocumentedCount documents narrative invoices <= 4 < Z.of_nat (length customer_pack) ∧
  (customerDocumentedCount documents narrative invoices = 4 ↔
    "registration_certificate" ∈ documents ∧ "beneficial_ownership" ∈ documents ∧ (∃ n, narrative = Some n ∧ trim n ≠ "") ∧
    ∃ i, Some i ∈ invoices ∧ i ≠ "") ∧
  Z.of_nat (length (List.filter (λ x, match x.2 with NotStructured => true | _ => false end) customer_pack)) = 12.
Proof.
  assert (∀ t, existsb (λ x, bool_decide (x = t)) documents = true ↔ t ∈ documents) as Hd.
  { intros t. rewrite existsb_exists. setoid_rewrite bool_decide_eq_true. setoid_rewrite <- list_elem_of_In. naive_solver. }
  assert (item_present documents narrative invoices Invoice = true ↔ ∃ i, Some i ∈ invoices ∧ i ≠ "") as Hi.
  { cbn. rewrite existsb_exists. setoid_rewrite <- list_elem_of_In. split; [intros ([[]|] & ? & ?); naive_solver|].
    intros (i & ? & ?). exists (Some i). split; [done|]. by destruct i. }
  assert (item_present documents narrative invoices Narrative = true ↔ (∃ n, narrative = Some n ∧ trim n ≠ "") ∧ invoices ≠ []) as Hn.
  { cbn. rewrite andb_true_iff, negb_true_iff, bool_decide_eq_false. destruct narrative as [n|]; [|naive_solver].
    assert (truthy (trim n) = true ↔ trim n ≠ "") as -> by (by destruct (trim n)). naive_solver. }
  rewrite customer_count. specialize (Hd "registration_certificate") as H1. specialize (Hd "beneficial_ownership") as H2. clear Hd.
  change (existsb _ documents) with (item_present documents narrative invoices (DocumentOf "registration_certificate")) in H1.
  change (existsb _ documents) with (item_present documents narrative invoices (DocumentOf "beneficial_ownership")) in H2.
  split; [|split; [|reflexivity]].
  - split; [|reflexivity]. destruct (item_present _ _ _ _), (item_present _ _ _ _), (item_present _ _ _ _), (item_present _ _ _ _); cbn; lia.
  - rewrite <- H1, <- H2, <- Hi. etrans; [apply b2z_four|]. rewrite Hn, Hi. split; [naive_solver|]. intros (? & ? & ? & i & Hin & ?).
    split_and!; try done; [|by exists i]. intros ->. by apply elem_of_nil in Hin.
Qed.

(** The categories of the readiness forms are those the server asks for. *)
Theorem categories_agree :
  supervisoryCategories = supervisoryEvidenceCategories ∧ travelRuleCategories = travelRuleEvidenceCategories ∧
  (∀ c, c ∈ evidenceCategories ↔ c ∈ vaspCategories ∨ c ∈ dataEnabledCategories).
Proof.
  split; [done|]. split; [done|]. change evidenceCategories with vaspCategories.
  assert (Forall (λ c, c ∈ vaspCategories) dataEnabledCategories) as H by (apply (bool_decide_unpack _); vm_compute; exact I).
  rewrite Forall_forall in H. naive_solver.
Qed.

(** ** Navigation *)

(** Signed in, an operator finds in the sidebar every module with an action for the
    role, and every module a portal card opens; each entry of the sidebar leads to
    a module of the console. *)
Theorem navigation_is_complete r : r ∈ console_roles →
  (∀ m, visible_actions (Some r) m ≠ [] → module_path m ∈ visibleMenuItems (Some r)) ∧
  (∀ target, target ∈ portalCards r → portal_target target ∈ visibleMenuItems (Some r)) ∧
  (∀ path, path ∈ visibleMenuItems (Some r) → path = "/console" ∨ moduleFromPath path ∈ moduleMeta ∧ path = "/console/" +:+ moduleFromPath path) ∧
  ("/console/admins" ∈ visibleMenuItems (Some r) ↔ r = RoleAdmin).
Proof.
  intros Hr. split; [|split; [|split]].
  - intros m Hm. destruct r, m; first [by exfalso; apply Hm | decided].
  - apply Forall_forall. destruct r; decided.
  - apply Forall_forall. destruct r; decided.
  - split; [|by intros ->; decided]. intros Ha. destruct r; [done|..]; exfalso; revert Hr Ha; apply (bool_decide_unpack (_ → _ → False)); vm_compute; exact I.
Qed.

(** A path of lower-case words. *)
Definition plain (path : string) : bool := all_chars (λ c, is_lower c || bool_decide (c = "/"%char)) path.
(** What the routing library documents of the patterns used here, on such paths: a
    pattern without a parameter matches itself, a parameter one segment. *)
Record follows_patterns (matches : string → string → bool) : Prop := mk_follows {
  fp_static pattern path : pattern ∈ routes.*1 → pattern ≠ "/console/:module" → plain path = true → matches pattern path = bool_decide (pattern = path);
  fp_module m : m ∈ moduleMeta → matches "/console/:module" ("/console/" +:+ m) = true;
  fp_other path : plain path = true → startsWith path "/console/" = false → matches "/console/:module" path = false
}.

Definition by_pattern (pattern path : string) : bool :=
  if bool_decide (pattern = "/console/:module") then startsWith path "/console/" else bool_decide (pattern = path).
Definition expected (path : string) : Prop :=
  plain path = true ∧ (startsWith path "/console/" = false ∨ ∃ m, m ∈ moduleMeta ∧ path = "/console/" +:+ m).
Lemma find_ext_in {A} (p q : A → bool) l : (∀ x, x ∈ l → p x = q x) → List.find p l = List.find q l.
Proof. induction l as [|x l IH]; intros H; cbn; [done|]. rewrite (H x) by set_solver. destruct (q x); [done|]. apply IH. set_solver. Qed.
Lemma shown_by_pattern matches path : follows_patterns matches → expected path → shown matches path = shown by_pattern path.
Proof.
  intros [H1 H2 H3] [Hp Hc]. unfold shown. rewrite (find_ext_in _ (λ r, by_pattern r.1 path)); [done|].
  intros r Hr. unfold by_pattern. case_bool_decide as Hm; [|by apply H1; [by apply list_elem_of_fmap_2| |]]. rewrite Hm.
  destruct Hc as [Hc|(m & Hin & ->)]; [by rewrite H3|rewrite H2; [by destruct m|done]].
Qed.
Lemma lands_by_pattern matches path : follows_patterns matches → expected path → (∀ q, shown by_pattern path = RedirectTo q → expected q) →
  lands matches path = lands by_pattern path.
Proof.
  intros Hm He Hq. unfold lands. rewrite (shown_by_pattern matches) by done. destruct (shown by_pattern path); try done.
  apply shown_by_pattern; [done|]. by apply Hq.
Qed.
(** The paths of the modules, with and without the console before them. *)
Lemma console_path m : m ∈ moduleMeta → expected ("/console/" +:+ m).
Proof.
  intros Hm. split; [|right; by exists m]. revert m Hm. apply Forall_forall. decided.
Qed.
Lemma bare_path m : m ∈ moduleMeta → expected ("/" +:+ m).
Proof. intros Hm. split; [|left]; revert m Hm; apply Forall_forall; decided. Qed.
Lemma redirection m q : m ∈ moduleMeta → shown by_pattern ("/" +:+ m) = RedirectTo q → expected q.
Proof.
  intros Hm Hq. destruct (decide (q = "/console")) as [->|Hne]; [split; [done|by left]|].
  assert (q = "/console/" +:+ m) as ->; [|by apply console_path].
  assert (Forall (λ m, shown by_pattern ("/" +:+ m) ∈ [NotFoundPage; RedirectTo "/console"; RedirectTo ("/console/" +:+ m)]) moduleMeta) as H by decided.
  rewrite Forall_forall in H. apply H in Hm. rewrite Hq in Hm. set_solver.
Qed.

(** A portal card leads to the console. Departure: a step of a journey leads there
    too, unless its module is the sandbox, which has no redirection: the two steps
    of a liaison that name it lead to the page for unknown addresses. *)
Theorem journeys_lose_the_sandbox matches : follows_patterns matches →
  (∀ r target, target ∈ portalCards r → lands matches (portal_target target) = Home) ∧
  (∀ r x, x ∈ journeys r → lands matches (step_target x) = if bool_decide (js_module x = "sandbox") then NotFoundPage else Home) ∧
  (js_module <$> journeys RoleCbnLiaison) = ["sandbox"; "sandbox"; "reports"].
Proof.
  intros Hm. split; [|split; [|done]].
  - intros r target Ht. assert (target ∈ moduleMeta) as Hd by (revert target Ht; apply Forall_forall; destruct r; decided).
    unfold portal_target. rewrite (lands_by_pattern matches); [|done|by apply console_path|].
    + revert target Ht Hd. assert (Forall (λ t, lands by_pattern ("/console/" +:+ t) = Home) moduleMeta) as H by decided.
      rewrite Forall_forall in H. auto.
    + intros q Hq. exfalso. assert (Forall (λ t, shown by_pattern ("/console/" +:+ t) = Home) moduleMeta) as H by decided.
      rewrite Forall_forall in H. rewrite H in Hq; done.
  - intros r x Hx. assert (js_module x ∈ moduleMeta) as Hd by (destruct r; cbn in Hx; set_unfold in Hx; naive_solver (decided)).
    unfold step_target. rewrite (lands_by_pattern matches); [|done|by apply bare_path|by intros q; apply redirection].
    destruct r; cbn in Hx; set_unfold in Hx; naive_solver (by vm_compute).
Qed.

(** The counter of a journey is full exactly when no step is next. *)
Theorem journey_done_exact steps s : completedCount steps s = Z.of_nat (length steps) ↔ nextStep steps s = None.
Proof.
  unfold completedCount, nextStep. rewrite Nat2Z.inj_iff. induction steps as [|x steps IH]; cbn; [done|].
  pose proof (List.filter_length_le (λ x, js_completed x s) steps). destruct (js_completed x s); cbn; [|split; [lia|done]].
  rewrite <- IH. lia.
Qed.
