(* ===== verification/ConsoleState.v ===== *)
(** * What the console keeps and computes

    The state and the computations of src/apps/control-plane/client/src/components
    that decide what an operator reads: the feedback of a submission and the resend
    of a failed one (SubmitFeedback.tsx), the series of the trend charts
    (ServiceTrendCharts.tsx), and the sentences of a credential's history
    (IntegrationCredentialControls.tsx). *)

From S2P Require Import Prelude Js Numeric Rows Schema.

Local Open Scope string_scope.
Local Open Scope Z_scope.

(** ** Feedback on a submission *)

Definition unambiguousTransport : list string :=
  ["econnrefused"; "econnreset"; "etimedout"; "enotfound"; "socket hang up"; "fetch failed"; "failed to fetch"].
Definition refusal : list string :=
  ["permission"; "forbidden"; "unauthorized"; "unauthorised"; "not found"; "already"; "invalid"; "required"; "refused"; "must "; "cannot "; "no active";
   "not configured"; "expired"; "consumed"; "conflict"; "duplicate"].
Definition transport : list string :=
  ["network"; "timeout"; "timed out"; "aborted"; "502"; "503"; "504"; "bad gateway"; "service unavailable"; "gateway timeout"; "internal server error"].
(** Whether a retry is offered. *)
Definition classifyFailure (message : string) : bool :=
  let text := toLowerCase message in
  if existsb (js_includes text) unambiguousTransport then true
  else if existsb (js_includes text) refusal then false
  else existsb (js_includes text) transport.

Inductive SubmitFeedbackState : Type :=
  | Idle
  | Submitting (slow : bool)
  | Failure (message : string) (retryable : bool).
Definition SLOW_THRESHOLD_MS : Z := 2000.

(** The hook between renders: the [pending] its effect last ran for, [slow], and
    when the timer that is running is due. *)
Record feedback : Type := mk_feedback {
  fb_pending : option bool;
  fb_slow : bool;
  fb_timer : option Z
}.
Definition feedback0 : feedback := mk_feedback None false None.
(** A render with [pending] at an instant (its effect runs when [pending] changed),
    and an instant at which a timer that is due fires. *)
Inductive feedback_event : Type :=
  | Render (pending : bool) (now : Z)
  | Elapse (now : Z).
Definition feedback_step (s : feedback) (e : feedback_event) : feedback :=
  match e with
  | Render pending now =>
      if bool_decide (fb_pending s = Some pending) then s
      else if pending then mk_feedback (Some true) false (Some (now + SLOW_THRESHOLD_MS))
      else mk_feedback (Some false) false None
  | Elapse now =>
      match fb_timer s with
      | Some due => if due <=? now then mk_feedback (fb_pending s) true None else s
      | None => s
      end
  end.
(** What a render with these properties returns. *)
Definition useSubmitFeedback (s : feedback) (pending : bool) (error : option string) : SubmitFeedbackState :=
  if pending then Submitting (fb_slow s)
  else match error with
       | Some message => if truthy message then Failure message (classifyFailure message) else Idle
       | None => Idle
       end.

(** The last payload, and what was sent. *)
Record retryable (I : Type) : Type := mk_retryable {
  rt_last : option I;
  rt_sent : list I
}.
Arguments mk_retryable {I} _ _.
Arguments rt_last {I} _.
Arguments rt_sent {I} _.
Inductive submit_event (I : Type) : Type :=
  | Run (input : I)
  | Retry.
Arguments Run {I} input.
Arguments Retry {I}.
Definition useRetryableSubmit {I} (s : retryable I) (e : submit_event I) : retryable I :=
  match e with
  | Run input => mk_retryable (Some input) (rt_sent s ++ [input])%list
  | Retry => match rt_last s with Some input => mk_retryable (Some input) (rt_sent s ++ [input])%list | None => s end
  end.
Definition hasAttempt {I} (s : retryable I) : bool := is_some (rt_last s).

(** ** Trend charts *)

Record TrendSample : Type := mk_sample {
  ts_service : string;
  ts_healthy : bool;
  ts_latencyMs : option Z;
  ts_counters : list (string * Z);
  ts_collectedAt : Z
}.
(** [Array.prototype.sort] keeps the order of equal elements. *)
Fixpoint insert_by {A} (key : A → Z) (x : A) (l : list A) : list A :=
  match l with
  | [] => [x]
  | y :: l => if key x <? key y then x :: y :: l else y :: insert_by key x l
  end.
Definition stable_sort {A} (key : A → Z) (l : list A) : list A := foldl (λ acc x, insert_by key x acc) [] l.

(** A row: its time and a column for each service. Its label is the time in the
    operator's locale. *)
Record series_row (V : Type) : Type := mk_row {
  sr_time : Z;
  sr_values : gmap string V
}.
Arguments mk_row {V} _ _.
Arguments sr_time {V} _.
Arguments sr_values {V} _.

(** [row[service] = value] in the row of a time, which is added at the end when
    there is none. *)
Fixpoint put {V} (time : Z) (service : string) (v : V) (rows : list (series_row V)) : list (series_row V) :=
  match rows with
  | [] => [mk_row time {[service := v]}]
  | r :: rows => if sr_time r =? time then mk_row time (<[service := v]> (sr_values r)) :: rows else r :: put time service v rows
  end.
Definition latency_of (s : TrendSample) : option Z := if ts_healthy s then ts_latencyMs s else None.
Definition buildLatencySeries (samples : list TrendSample) : list (series_row (option Z)) :=
  stable_sort sr_time (foldl (λ rows s, put (ts_collectedAt s) (ts_service s) (latency_of s) rows) [] samples).

(** One turn of the loop of [buildThroughputSeries]. *)
Definition throughput_step (counterName : string) (st : gmap string Z * list (series_row Z)) (s : TrendSample) : gmap string Z * list (series_row Z) :=
  let '(previous, rows) := st in
  if negb (ts_healthy s) then st else
  match record_get (ts_counters s) counterName with
  | None => st
  | Some value =>
      let previous' := <[ts_service s := value]> previous in
      match previous !! ts_service s with
      | None => (previous', rows)
      | Some last =>
          let delta := js_sub value last in
          if delta <? 0 then (previous', rows) else (previous', put (ts_collectedAt s) (ts_service s) delta rows)
      end
  end.
Definition buildThroughputSeries (samples : list TrendSample) (counterName : string) : list (series_row Z) :=
  (foldl (throughput_step counterName) (∅, []) (stable_sort ts_collectedAt samples)).2.

Definition formatUptime (seconds : Z) : string :=
  if seconds <? 60 then pretty seconds +:+ "s"
  else if seconds <? 3600 then pretty (seconds / 60) +:+ "m " +:+ pretty (seconds mod 60) +:+ "s"
  else pretty (seconds / 3600) +:+ "h " +:+ pretty (seconds mod 3600 / 60) +:+ "m".

(** ** A credential's history *)

Record CredentialAuditRow : Type := mk_audit_row {
  car_action : string;
  car_secretReference : option string;
  car_previousSecretReference : option string;
  car_httpStatus : option Z;
  car_detail : option string;
  car_reason : option string
}.
(** [`${x}`] of a nullable text, and [` (HTTP ${status})`] when there is one. *)
Definition shown_text (o : option string) : string := default "null" o.
Definition http_suffix (o : option Z) : string :=
  match o with Some n => if n =? 0 then "" else " (HTTP " +:+ pretty n +:+ ")" | None => "" end.
Definition describeEntry (e : CredentialAuditRow) : string :=
  let acts action := bool_decide (car_action e = action) in
  if acts "integration_connection.created" then "Connection registered. No credential was supplied and no provider was contacted."
  else if acts "integration_connection.credential_configured" then
    match car_previousSecretReference e with
    | Some p => if truthy p then "Credential reference changed from " +:+ p +:+ " to " +:+ shown_text (car_secretReference e) +:+ "."
                else "Credential reference set to " +:+ shown_text (car_secretReference e) +:+ "."
    | None => "Credential reference set to " +:+ shown_text (car_secretReference e) +:+ "."
    end
  else if acts "integration_connection.activated" then
    "Provider contacted and responded successfully" +:+ http_suffix (car_httpStatus e) +:+ ". Connection is live."
  else if acts "integration_connection.activation_refused" then
    "Activation refused: " +:+ default "the provider did not respond successfully" (car_detail e) +:+ http_suffix (car_httpStatus e) +:+ "."
  else if acts "integration_connection.suspended" then "Connection suspended. Reason: " +:+ default "not stated" (car_reason e) +:+ "."
  else car_action e.
