(* ===== verification/ConsoleStateProps.v ===== *)
(** * What the console shows is what happened

    The notice of a slow submission, the resend of a failed one, the series of the
    trend charts and the sentences of a credential's history. *)

From S2P Require Import Prelude Js Numeric Rows Schema Queries ConsoleState.

Local Open Scope string_scope.
Local Open Scope Z_scope.

(** ** Feedback on a submission *)

(** The first render of the unbroken run of renders with [pending] that the events
    end in. *)
Definition since_step (p : option Z) (e : feedback_event) : option Z :=
  match e with
  | Render true now => Some (default now p)
  | Render false _ => None
  | Elapse _ => p
  end.
Definition pending_since (es : list feedback_event) : option Z := foldl since_step None es.
Definition feedback_run (es : list feedback_event) : feedback := foldl feedback_step feedback0 es.

Lemma feedback_snoc es e : feedback_run (es ++ [e])%list = feedback_step (feedback_run es) e.
Proof. apply foldl_snoc. Qed.
Lemma since_snoc es e : pending_since (es ++ [e])%list = since_step (pending_since es) e.
Proof. apply foldl_snoc. Qed.

(** The state of the hook, from what happened. *)
Lemma feedback_inv es : let s := feedback_run es in
  match pending_since es with
  | Some t0 => fb_pending s = Some true ∧
      (fb_slow s = false ∧ fb_timer s = Some (t0 + SLOW_THRESHOLD_MS) ∨
       fb_slow s = true ∧ fb_timer s = None ∧ ∃ now, Elapse now ∈ es ∧ t0 + SLOW_THRESHOLD_MS <= now)
  | None => fb_pending s ≠ Some true ∧ fb_slow s = false ∧ fb_timer s = None
  end.
Proof.
  induction es as [|e es IH] using rev_ind; [done|]. cbv zeta in *. rewrite feedback_snoc, since_snoc.
  destruct e as [[|] now|now]; cbn [feedback_step since_step].
  - destruct (pending_since es) as [t0|]; cbn [default].
    + destruct IH as [Hp IH]. rewrite bool_decide_eq_true_2 by done. split; [done|].
      destruct IH as [IH|(? & ? & n & ? & ?)]; [by left|right; set_solver].
    + destruct IH as [Hp _]. rewrite bool_decide_eq_false_2 by done. split; [done|]. by left.
  - case_bool_decide as Hd; [|done]. destruct (pending_since es) as [t0|]; [destruct IH; congruence|exact IH].
  - destruct (pending_since es) as [t0|]; [|destruct IH as (? & ? & Ht); by rewrite Ht]. destruct IH as [Hp [[Hs Ht]|(Hs & Ht & n & Hn & Hl)]]; rewrite Ht.
    + destruct (Z.leb_spec (t0 + SLOW_THRESHOLD_MS) now) as [Hle|Hgt]; cbn; [|by split; [|left]].
      split; [done|]. right. split; [done|]. split; [done|]. exists now. set_solver.
    + split; [done|]. right. set_solver.
Qed.

(** A submission is called slow only while it is pending, and only when the
    threshold has passed since it became so; once it has passed, the next instant
    says so. An error shows only when nothing is pending, with a retry exactly as
    the failure is classified. *)
Theorem slow_notice_exact es error :
  (useSubmitFeedback (feedback_run es) true error = Submitting true →
    ∃ t0 now, pending_since es = Some t0 ∧ Elapse now ∈ es ∧ t0 + SLOW_THRESHOLD_MS <= now) ∧
  (∀ t0 now, pending_since es = Some t0 → t0 + SLOW_THRESHOLD_MS <= now →
    useSubmitFeedback (feedback_run (es ++ [Elapse now])%list) true error = Submitting true) ∧
  (∀ pending message retry, useSubmitFeedback (feedback_run es) pending error = Failure message retry →
    pending = false ∧ error = Some message ∧ retry = classifyFailure message).
Proof.
  pose proof (feedback_inv es) as H. cbv zeta in H. split_and!.
  - intros [= Hs]. destruct (pending_since es) as [t0|]; [|destruct H as (_ & ? & _); congruence].
    destruct H as [_ [[? _]|(_ & _ & now & ? & ?)]]; [congruence|]. by exists t0, now.
  - intros t0 now Ht Hle. rewrite Ht in H. rewrite feedback_snoc. cbn. f_equal. destruct H as [_ [[Hs Hd]|(Hs & Hd & _)]]; rewrite Hd; [|done].
    by rewrite (proj2 (Z.leb_le _ _) Hle).
  - intros [] message retry; [done|]. cbn. destruct error as [m|]; [|done]. destruct (truthy m); [|done]. by intros [= -> <-].
Qed.

Definition submitted {I} (es : list (submit_event I)) : retryable I := foldl useRetryableSubmit (mk_retryable None []) es.
(** The input of the last [run]. *)
Definition last_run {I} (es : list (submit_event I)) : option I := last (omap (λ e, match e with Run i => Some i | Retry => None end) es).

(** A retry sends the payload of the last submission again, and nothing when there
    was none; nothing is ever sent that was not submitted. *)
Theorem retry_resends_the_last {I} (es : list (submit_event I)) :
  rt_sent (submitted (es ++ [Retry])%list) = (rt_sent (submitted es) ++ option_list (last_run es))%list ∧
  (hasAttempt (submitted es) = true ↔ is_Some (last_run es)) ∧
  (∀ i, i ∈ rt_sent (submitted es) → Run i ∈ es).
Proof.
  assert (rt_last (submitted es) = last_run es ∧ ∀ i, i ∈ rt_sent (submitted es) → Run i ∈ es) as [Hl Hs].
  { induction es as [|e es [IHl IHs]] using rev_ind; [split; [done|]; by intros i ?%elem_of_nil|].
    unfold submitted, last_run in *. rewrite foldl_snoc, omap_app. destruct e as [x|]; cbn.
    - rewrite last_snoc. split; [done|]. set_solver.
    - rewrite app_nil_r, IHl. destruct (last _) as [x|] eqn:Hx; cbn; [|set_solver]. split; [done|]. intros i.
      rewrite elem_of_app, list_elem_of_singleton. intros [Hi| ->]; [set_solver|]. apply last_Some_elem_of, list_elem_of_omap in Hx as ([y|] & Hy & [= ->]). set_solver. }
  split; [|split; [|done]].
  - unfold submitted at 1. rewrite foldl_snoc. cbn. fold (submitted es). rewrite Hl. destruct (last_run es); cbn; [done|by rewrite app_nil_r].
  - unfold hasAttempt. rewrite Hl. destruct (last_run es); cbn; split; try done; by intros [].
Qed.

(** ** Trend charts *)

Lemma insert_by_perm {A} (key : A → Z) x l : insert_by key x l ≡ₚ x :: l.
Proof. induction l as [|y l IH]; cbn; [done|]. destruct (_ <? _); [done|]. rewrite IH. constructor. Qed.
Lemma stable_sort_snoc {A} (key : A → Z) l x : stable_sort key (l ++ [x])%list = insert_by key x (stable_sort key l).
Proof. unfold stable_sort. by rewrite foldl_snoc. Qed.
Lemma stable_sort_perm {A} (key : A → Z) l : stable_sort key l ≡ₚ l.
Proof.
  induction l as [|x l IH] using rev_ind; [done|]. rewrite stable_sort_snoc, insert_by_perm, IH. apply Permutation_cons_append.
Qed.
Definition ascending {A} (key : A → Z) (l : list A) : Prop := StronglySorted (λ x y, key x <= key y) l.
Lemma insert_by_sorted {A} (key : A → Z) x l : ascending key l → ascending key (insert_by key x l).
Proof.
  unfold ascending. induction 1 as [|y l Hs IH Hf]; cbn; [by repeat constructor|].
  destruct (Z.ltb_spec (key x) (key y)) as [Hlt|Hge]; constructor; try done.
  - by constructor.
  - constructor; [lia|]. eapply Forall_impl; [done|]. cbn. lia.
  - rewrite insert_by_perm. by constructor.
Qed.
Lemma stable_sort_sorted {A} (key : A → Z) l : ascending key (stable_sort key l).
Proof. induction l as [|x l IH] using rev_ind; [constructor|]. rewrite stable_sort_snoc. by apply insert_by_sorted. Qed.
(** Elements of one key keep their order. *)
Lemma insert_by_key {A} (key : A → Z) k x l : ascending key l →
  List.filter (λ y, key y =? k) (insert_by key x l) = List.filter (λ y, key y =? k) (l ++ [x])%list.
Proof.
  unfold ascending. induction 1 as [|y l Hs IH Hf]; cbn; [done|]. destruct (Z.ltb_spec (key x) (key y)) as [Hlt|Hge]; cbn; [|by rewrite IH].
  rewrite List.filter_app. cbn. destruct (Z.eqb_spec (key x) k) as [<-|]; [|by rewrite app_nil_r].
  rewrite (proj2 (Z.eqb_neq (key y) (key x))) by lia. replace (List.filter _ l) with (@nil A); [done|]. clear -Hf Hlt.
  induction Hf as [|z l Hz _ IH]; cbn; [done|]. by rewrite (proj2 (Z.eqb_neq (key z) (key x))) by lia.
Qed.
Lemma stable_sort_key {A} (key : A → Z) k l : List.filter (λ y, key y =? k) (stable_sort key l) = List.filter (λ y, key y =? k) l.
Proof.
  induction l as [|x l IH] using rev_ind; [done|]. rewrite stable_sort_snoc, insert_by_key by apply stable_sort_sorted.
  by rewrite !List.filter_app, IH.
Qed.

(** A chart has a value for a service at a time. *)
Definition plots {V} (rows : list (series_row V)) (time : Z) (service : string) (v : V) : Prop :=
  ∃ r, r ∈ rows ∧ sr_time r = time ∧ sr_values r !! service = Some v.
Definition times {V} (rows : list (series_row V)) : list Z := sr_time <$> rows.

Lemma put_times {V} time service (v : V) rows : times (put time service v rows) = if decide (time ∈ times rows) then times rows else (times rows ++ [time])%list.
Proof.
  unfold times. induction rows as [|r rows IH]; cbn; [by rewrite decide_False by set_solver|].
  destruct (Z.eqb_spec (sr_time r) time) as [<-|Hne]; cbn; [by rewrite decide_True by set_solver|]. rewrite IH.
  do 2 case_decide; set_solver.
Qed.
Lemma put_nodup {V} time service (v : V) rows : NoDup (times rows) → NoDup (times (put time service v rows)).
Proof.
  intros H. rewrite put_times. case_decide; [done|]. apply NoDup_app. split; [done|]. split; [set_solver|]. apply NoDup_singleton.
Qed.
Lemma put_plots {V} time service (v : V) rows t s w : NoDup (times rows) →
  plots (put time service v rows) t s w ↔ if decide (t = time ∧ s = service) then w = v else plots rows t s w.
Proof.
  unfold plots, times. induction rows as [|r rows IH]; cbn; [intros _|intros [Hn Hd]%NoDup_cons].
  - setoid_rewrite list_elem_of_singleton. split.
    + intros (? & -> & <- & Hl). cbn in *. apply lookup_singleton_Some in Hl as [<- ->]. by rewrite decide_True.
    + case_decide as Hc; [destruct Hc as [-> ->]; intros ->; eexists; split; [done|]; cbn; by rewrite lookup_singleton_eq|].
      by intros (? & ?%elem_of_nil & _).
  - destruct (Z.eqb_spec (sr_time r) time) as [<-|Hne]; cbn.
    + setoid_rewrite elem_of_cons. split.
      * intros (r' & [->|Hr'] & <- & Hl); cbn in *.
        { destruct (decide (service = s)) as [<-|Hs]; [rewrite lookup_insert_eq in Hl; rewrite decide_True by done; congruence|].
          rewrite lookup_insert_ne in Hl by done. rewrite decide_False by naive_solver. exists r. set_solver. }
        rewrite decide_False; [exists r'; set_solver|]. intros [Ht _]. apply Hn. rewrite <- Ht. by apply list_elem_of_fmap_2.
      * case_decide as Hc.
        { intros ->. destruct Hc as [-> ->]. eexists. split; [by left|]. cbn. by rewrite lookup_insert_eq. }
        intros (r' & [->|Hr']%elem_of_cons & <- & Hl); [|exists r'; set_solver]. eexists. split; [by left|]. cbn.
        rewrite lookup_insert_ne by naive_solver. done.
    + specialize (IH Hd). revert IH. case_decide as Hc; intros IH; setoid_rewrite elem_of_cons; split.
      * intros (r' & [->|Hr'] & Ht & Hl); [naive_solver|]. apply IH. eauto.
      * intros Hw. apply IH in Hw as (r' & ? & ?). eauto.
      * intros (r' & [->|Hr'] & Ht & Hl); [eauto|]. destruct (proj1 IH) as (r2 & ? & ?); eauto.
      * intros (r' & [->|Hr'] & Ht & Hl); [eauto|]. destruct (proj2 IH) as (r2 & ? & ?); eauto.
Qed.
Lemma plots_perm {V} (rows rows' : list (series_row V)) t s v : rows ≡ₚ rows' → plots rows t s v ↔ plots rows' t s v.
Proof. intros H. unfold plots. by setoid_rewrite H. Qed.

(** The last sample of a service at a time. *)
Definition at_time (time : Z) (service : string) (x : TrendSample) : bool := (ts_collectedAt x =? time) && bool_decide (ts_service x = service).
Definition last_sample (samples : list TrendSample) (time : Z) (service : string) : option TrendSample :=
  last (List.filter (at_time time service) samples).

Lemma latency_rows samples : let rows := foldl (λ rows s, put (ts_collectedAt s) (ts_service s) (latency_of s) rows) [] samples in
  NoDup (times rows) ∧ ∀ t s v, plots rows t s v ↔ latency_of <$> last_sample samples t s = Some v.
Proof.
  cbv zeta. induction samples as [|x samples [IHn IHp]] using rev_ind.
  - split; [constructor|]. intros t s v. split; [by intros (? & ?%elem_of_nil & _)|done].
  - rewrite foldl_snoc. split; [by apply put_nodup|]. intros t s v. rewrite put_plots by done.
    unfold last_sample. rewrite List.filter_app. cbn. unfold at_time at 2.
    destruct (Z.eqb_spec (ts_collectedAt x) t) as [<-|]; cbn; [|rewrite app_nil_r; case_decide; [naive_solver|apply IHp]].
    case_bool_decide as Hs; [subst s; rewrite last_snoc, decide_True by done; cbn; naive_solver|].
    rewrite app_nil_r. case_decide; [naive_solver|apply IHp].
Qed.

Lemma distinct_ascending {V} (rows : list (series_row V)) : ascending sr_time rows → NoDup (times rows) → StronglySorted Z.lt (times rows).
Proof.
  unfold ascending, times. induction 1 as [|r rows Hs IH Hf]; cbn; [constructor|]. intros [Hn Hd]%NoDup_cons. constructor; [by apply IH|].
  apply Forall_fmap, Forall_forall. intros x Hx. rewrite Forall_forall in Hf. specialize (Hf x Hx). cbn in *.
  assert (sr_time r ≠ sr_time x); [|lia]. intros He. apply Hn. rewrite He. by apply list_elem_of_fmap_2.
Qed.

(** The latency chart has one row per time, in order, and for a service at a time
    exactly what its last sample of that time says: a gap when the service was not
    healthy, never a zero. *)
Theorem latency_series_exact samples :
  StronglySorted Z.lt (times (buildLatencySeries samples)) ∧
  (∀ t s v, plots (buildLatencySeries samples) t s v ↔ ∃ x, last_sample samples t s = Some x ∧ v = if ts_healthy x then ts_latencyMs x else None).
Proof.
  destruct (latency_rows samples) as [Hn Hp]. unfold buildLatencySeries. split.
  - apply distinct_ascending; [apply stable_sort_sorted|]. unfold times. by rewrite stable_sort_perm.
  - intros t s v. rewrite (plots_perm _ _ _ _ _ (stable_sort_perm sr_time _)), Hp. rewrite fmap_Some. done.
Qed.

(** The counter a sample reports, and the last that a service reported. *)
Definition counter_of (name : string) (x : TrendSample) : option Z := if ts_healthy x then record_get (ts_counters x) name else None.
Definition last_counter (name : string) (samples : list TrendSample) (service : string) : option Z :=
  last (omap (λ x, if decide (ts_service x = service) then counter_of name x else None) samples).
(** The samples end an interval of a service at a time, with a change of the
    counter. *)
Definition interval (name : string) (samples : list TrendSample) (time : Z) (service : string) (delta : Z) : Prop :=
  ∃ before x after was new, samples = (before ++ x :: after)%list ∧ ts_service x = service ∧ ts_collectedAt x = time ∧
    last_counter name before service = Some was ∧ counter_of name x = Some new ∧ delta = js_sub new was.

Lemma last_counter_snoc name samples x service : last_counter name (samples ++ [x])%list service =
  match counter_of name x with
  | Some v => if decide (ts_service x = service) then Some v else last_counter name samples service
  | None => last_counter name samples service
  end.
Proof.
  unfold last_counter. rewrite omap_app. cbn. destruct (decide (ts_service x = service)); destruct (counter_of name x); cbn;
    by rewrite ?last_snoc, ?app_nil_r.
Qed.
Lemma interval_snoc name samples x t s v : interval name (samples ++ [x])%list t s v ↔
  interval name samples t s v ∨
  ts_service x = s ∧ ts_collectedAt x = t ∧ ∃ was new, last_counter name samples s = Some was ∧ counter_of name x = Some new ∧ v = js_sub new was.
Proof.
  split.
  - intros (before & y & after & was & new & He & Hs). destruct after as [|z after _] using rev_ind.
    + apply app_inj_tail in He as [<- <-]. right. naive_solver.
    + left. exists before, y, after, was, new. split; [|done]. rewrite app_comm_cons, app_assoc in He. by apply app_inj_tail in He as [? _].
  - intros [(before & y & after & was & new & -> & H)|(? & ? & was & new & ?)].
    + exists before, y, (after ++ [x])%list, was, new. split; [|done]. by rewrite <- app_assoc.
    + exists samples, x, [], was, new. naive_solver.
Qed.

Lemma put_plotted {V} time service (v : V) rows t s w : NoDup (times rows) → plots rows t s w → ∃ u, plots (put time service v rows) t s u.
Proof. intros Hn Hp. setoid_rewrite put_plots; [|done]. case_decide; [by eexists|by exists w]. Qed.
Lemma strict_nodup l : StronglySorted Z.lt l → NoDup l.
Proof. induction 1 as [|x l Hs IH Hf]; constructor; [|done]. intros Hx. rewrite Forall_forall in Hf. specialize (Hf x Hx). lia. Qed.

(** What one turn of the loop keeps, from the samples so far. *)
Definition throughput_inv (name : string) (samples : list TrendSample) (st : gmap string Z * list (series_row Z)) : Prop :=
  (∀ s, st.1 !! s = last_counter name samples s) ∧
  StronglySorted Z.lt (times st.2) ∧
  (∀ t, t ∈ times st.2 → t ∈ ts_collectedAt <$> samples) ∧
  (∀ t s v, plots st.2 t s v → 0 <= v ∧ interval name samples t s v) ∧
  (∀ t s v, interval name samples t s v → 0 <= v → ∃ w, plots st.2 t s w).

Lemma put_sorted time service (v : Z) rows : StronglySorted Z.lt (times rows) → (∀ t, t ∈ times rows → t <= time) →
  StronglySorted Z.lt (times (put time service v rows)).
Proof.
  intros Hs Hle. rewrite put_times. case_decide as Ht; [done|]. apply StronglySorted_app_2; [|done|by repeat constructor].
  intros x y Hx ->%list_elem_of_singleton. specialize (Hle x Hx). assert (x ≠ time) by congruence. lia.
Qed.

Lemma throughput_keeps name samples st x : ascending ts_collectedAt (samples ++ [x])%list → throughput_inv name samples st →
  throughput_inv name (samples ++ [x])%list (throughput_step name st x).
Proof.
  intros Ha (Hc & Hs & Ht & Hp & Hi). destruct st as [previous rows]. cbn [fst snd] in *.
  assert (∀ t, t ∈ times rows → t <= ts_collectedAt x) as Hle.
  { intros t (y & -> & Hy)%Ht%list_elem_of_fmap. apply (StronglySorted_app_1_elem_of _ _ _ y x Ha Hy). set_solver. }
  assert (∀ t, t ∈ times rows → t ∈ ts_collectedAt <$> (samples ++ [x])%list) as Ht' by (rewrite fmap_app; set_solver).
  unfold throughput_step. unfold throughput_inv. setoid_rewrite last_counter_snoc. setoid_rewrite interval_snoc.
  assert (counter_of name x = if negb (ts_healthy x) then None else record_get (ts_counters x) name) as Hx by (unfold counter_of; by destruct (ts_healthy x)).
  destruct (negb (ts_healthy x)); [rewrite Hx; split_and!; naive_solver|].
  destruct (record_get _ _) as [value|]; rewrite Hx; [|split_and!; naive_solver].
  assert (∀ s, (<[ts_service x := value]> previous : gmap string Z) !! s = if decide (ts_service x = s) then Some value else last_counter name samples s) as Hc'.
  { intros s. case_decide as Hd; [subst s; by rewrite lookup_insert_eq|by rewrite lookup_insert_ne]. }
  destruct (previous !! ts_service x) as [was|] eqn:Hw; rewrite Hc in Hw; [destruct (Z.ltb_spec (js_sub value was) 0) as [Hneg|Hpos]|].
  - split_and!; try done; [naive_solver|]. intros t s v [Hv|(<- & <- & w & new & Hl & [= <-] & ->)]; [by apply Hi|]. rewrite Hw in Hl. simplify_eq. lia.
  - cbn [fst snd]. pose proof (strict_nodup _ Hs) as Hn. split_and!.
    + done.
    + by apply put_sorted.
    + intros t. rewrite put_times. case_decide; [apply Ht'|]. rewrite elem_of_app, list_elem_of_singleton. intros [?| ->]; [by apply Ht'|].
      rewrite fmap_app. set_solver.
    + intros t s v. rewrite put_plots by done. case_decide as Hd; [destruct Hd as [-> ->]; intros ->; naive_solver|naive_solver].
    + intros t s v [Hv|(<- & <- & _)] H0; [destruct (Hi t s v Hv H0); by eapply put_plotted|].
      eexists. apply put_plots; [done|]. by rewrite decide_True.
  - split_and!; try done; [naive_solver|]. intros t s v [Hv|(<- & <- & w & new & Hl & _)]; [by apply Hi|]. by rewrite Hw in Hl.
Qed.

(** The throughput chart has one row per time, in order; each value is the change
    of a service's counter over an interval between two of its healthy samples, and
    never negative; and an interval whose change is not negative is drawn. *)
Theorem throughput_series_exact samples name : let ordered := stable_sort ts_collectedAt samples in
  StronglySorted Z.lt (times (buildThroughputSeries samples name)) ∧
  (∀ t s v, plots (buildThroughputSeries samples name) t s v → 0 <= v ∧ interval name ordered t s v) ∧
  (∀ t s v, interval name ordered t s v → 0 <= v → ∃ w, plots (buildThroughputSeries samples name) t s w).
Proof.
  cbv zeta. unfold buildThroughputSeries. pose proof (stable_sort_sorted ts_collectedAt samples) as Ha. revert Ha.
  generalize (stable_sort ts_collectedAt samples) as ordered. intros ordered Ha.
  assert (throughput_inv name ordered (foldl (throughput_step name) (∅, []) ordered)) as (_ & Hs & _ & Hp & Hi); [|done].
  induction ordered as [|x ordered IH] using rev_ind.
  - split; [done|]. split; [constructor|]. split; [set_solver|]. split; [by intros t s v (? & ?%elem_of_nil & _)|].
    intros t s v (before & ? & ? & ? & ? & He & _). by destruct before.
  - rewrite foldl_snoc. apply throughput_keeps; [done|]. apply IH. by eapply StronglySorted_app_1_l.
Qed.

(** ** A credential's history *)

(** Every event of the history the server returns is told as a sentence of its
    own, and only an activation that passed its check is told as one that reached
    the provider. *)
Theorem history_is_told e : car_action e ∈ credential_actions →
  describeEntry e ≠ car_action e ∧
  (startsWith (describeEntry e) "Provider contacted" = true ↔ car_action e = "integration_connection.activated").
Proof.
  destruct e as [action now was status detail reason]. unfold describeEntry. cbn [car_action]. intros H. unfold credential_actions in H.
  repeat (apply elem_of_cons in H as [->|H]); [..|by apply elem_of_nil in H]; cbn; try done;
    destruct was as [p|]; cbn; try (destruct (truthy p)); cbn; done.
Qed.
