(* ===== verification/ConsoleUpload.v ===== *)
(** * The upload form

    The submission of a KYC document from the console
    (src/apps/control-plane/client/src/components/KycDocumentUploadControls.tsx) and,
    composed with the router, the handlers of the server and the object store, what
    becomes of the file. The procedures the form calls and the browser's [fetch] are
    arguments, as they are properties of the component. *)

From S2P Require Import Prelude Js Numeric Sha256 Hmac Rows Schema Parties Access Zod Contracts Identity Router KycDocuments KycProps.

Local Open Scope string_scope.
Local Open Scope Z_scope.

(** ** The form *)

(** A selected [File]. *)
Record File : Type := mk_file {
  file_name : string;
  file_type : string;
  file_bytes : bytes
}.
Definition file_size (f : File) : Z := Z.of_nat (length (file_bytes f)).

Definition allowedMimes : list string := ["application/pdf"; "image/jpeg"; "image/png"; "image/webp"; "image/tiff"].
Definition maxBytes : Z := 26214400.

(** [byte.toString(16).padStart(2, "0")], of each byte, joined. *)
Definition byte_text (b : Z) : string := hex_digits 2 b "".
Definition hex_text (bs : bytes) : string := foldr (λ b s, byte_text b +:+ s) "" bs.
Definition file_sha256 (f : File) : string := hex_text (sha256_bytes (file_bytes f)).

(** What is said of a selection that is not sent. *)
Definition file_refusal (file : option File) : option string :=
  match file with
  | None => Some "Select a non-empty authorised document file."
  | Some f =>
      if file_size f =? 0 then Some "Select a non-empty authorised document file."
      else if maxBytes <? file_size f then Some "The document exceeds the 25 MiB secure-upload limit."
      else if negb (includes allowedMimes (file_type f)) then Some "Only PDF, JPEG, PNG, WEBP, and TIFF evidence files are accepted."
      else None
  end.

Definition intent_request (customerId : uuid) (documentType : kyc_document_type) (f : File) : upload_input :=
  mk_upload_input customerId documentType (file_name f) (file_type f) (file_size f) (file_sha256 f).

Inductive upload_outcome : Type :=
  | Refused (message : string)
  | Failed (cause : error)
  | Completed.

Section form.
Context {W : Type} (createIntent : upload_input → Act W (uuid * string)) (put : string → string → bytes → Act W Z) (finalize : uuid → Act W unit).

(** The [try] block: [upload.ok] is a status of 200 to 299. *)
Definition send (customerId : uuid) (documentType : kyc_document_type) (f : File) : Act W unit :=
  intent ← createIntent (intent_request customerId documentType f);
  status ← put intent.2 (file_type f) (file_bytes f);
  _ ← act_throw_if (negb ((200 <=? status) && (status <=? 299))) (JsError ("Secure document upload failed (" +:+ pretty status +:+ ")"));
  finalize intent.1.
Definition onSubmit (customerId : uuid) (documentType : kyc_document_type) (file : option File) (w : W) : upload_outcome * W :=
  match file_refusal file, file with
  | Some message, _ => (Refused message, w)
  | None, Some f => match send customerId documentType f w with (Ok _, w) => (Completed, w) | (Throw cause, w) => (Failed cause, w) end
  | None, None => (Completed, w)
  end.
End form.

(** ** Its composition with the server *)

(** The database and the object store. *)
Definition world : Type := db * object_store.

(** What the client sends, and the input a handler is called with: the fields the
    schema returned. Identifiers and the kind of a document are read back from
    their texts. *)
Definition intent_json (i : upload_input) : json :=
  JObj [("customerId", JUuid (upi_customerId i)); ("documentType", JStr (pg_text (upi_documentType i))); ("originalFilename", JStr (upi_originalFilename i));
    ("mimeType", JStr (upi_mimeType i)); ("sizeBytes", JNum (upi_sizeBytes i)); ("contentSha256", JStr (upi_contentSha256 i))].
Definition intent_argument (i : upload_input) (v : value) : option upload_input :=
  match get "originalFilename" v, get "mimeType" v, get "sizeBytes" v, get "contentSha256" v with
  | Text name, Text mime, Number (JNum size), Text sha =>
      if is_text (get "customerId" v) (uuid_text (upi_customerId i)) && is_text (get "documentType" v) (pg_text (upi_documentType i))
      then Some (mk_upload_input (upi_customerId i) (upi_documentType i) name mime size sha) else None
  | _, _, _, _ => None
  end.
Definition finalize_json (id : uuid) : json := JObj [("uploadIntentId", JUuid id)].

Section routed.
Context `{Z0 : !ZodParser} (zod_uuid zod_email : string → bool) (zod_url : string → option string) (coerce_date : json → option Z) (now : Z).
(** The message of the error the client raises for a refusal. *)
Context (trpc_message : refusal → string).
Local Abbreviation serve0 := (Router.serve zod_uuid zod_email zod_url coerce_date now).
Local Abbreviation find_procedure0 := (Router.find_procedure zod_uuid zod_email zod_url coerce_date now).

(** The two procedures as the form reaches them, in the context of the caller:
    the guard, the schema, then the handler with the caller as its actor. *)
Definition createIntent (ctx : trpc_context) (hash : string) (E : env) (new_id : uuid) (input : upload_input) : Act world (uuid * string) := λ w,
  match serve0 ctx "postgres.createKycDocumentUploadIntent" true (Some (intent_json input)) with
  | Router.Refused r => (Throw (JsError (trpc_message r)), w)
  | Invoked _ (Acting a) [v] =>
      match intent_argument input v with
      | Some argument =>
          match createPostgresKycDocumentUploadIntent w.2 hash E a new_id argument w.1 with
          | (Ok (id, _, uploadUrl, _), d) => (Ok (id, uploadUrl), (d, w.2))
          | (Throw e, d) => (Throw e, (d, w.2))
          end
      | None => (Throw (JsError (trpc_message BadRequest)), w)
      end
  | Invoked _ _ _ => (Throw (JsError (trpc_message BadRequest)), w)
  end.
Definition finalize (ctx : trpc_context) (E : env) (new_id : uuid) (uploadIntentId : uuid) : Act world unit := λ w,
  match serve0 ctx "postgres.finalizeKycDocumentUpload" true (Some (finalize_json uploadIntentId)) with
  | Router.Refused r => (Throw (JsError (trpc_message r)), w)
  | Invoked _ (Acting a) [v] =>
      if is_text v (uuid_text uploadIntentId) then
        match finalizePostgresKycDocumentUpload w.2 E a new_id uploadIntentId w.1 with
        | (Ok _, d) => (Ok tt, (d, w.2))
        | (Throw e, d) => (Throw e, (d, w.2))
        end
      else (Throw (JsError (trpc_message BadRequest)), w)
  | Invoked _ _ _ => (Throw (JsError (trpc_message BadRequest)), w)
  end.

(** ** The router's part *)

(** A caller whose role may upload, and a file name the schema takes. *)
Definition may_upload (ctx : trpc_context) : Prop := ∃ u, cx_user ctx = Some u ∧ pu_role u ∈ [RoleAdmin; RoleComplianceOfficer].
Definition name_fits (name : string) : Prop := 1 <= js_length (trim name) <= 255.
#[export] Instance may_upload_dec ctx : Decision (may_upload ctx).
Proof.
  destruct (cx_user ctx) as [u|] eqn:Hu; [destruct (decide (pu_role u ∈ [RoleAdmin; RoleComplianceOfficer])) as [H|H]|].
  - left. by exists u.
  - right. intros (v & Hv & H'). congruence.
  - right. intros (v & Hv & _). congruence.
Defined.

Lemma guard_upload ctx : passes_guard complianceProcedure ctx = bool_decide (may_upload ctx).
Proof.
  unfold passes_guard, complianceProcedure. symmetry. destruct (cx_user ctx) as [u|] eqn:Hu.
  - apply eq_bool_prop_intro. rewrite bool_decide_spec, !Is_true_true, includes_true. split; [intros (v & Hv & H)|intros H; by exists u].
    rewrite Hu in Hv. by injection Hv as <-.
  - apply bool_decide_eq_false_2. intros (v & Hv & _). congruence.
Qed.

Definition intent_shape : list (string * schema) :=
  [("customerId", r_uuid zod_uuid); ("documentType", r_enum (pg_text <$> pg_values kyc_document_type)); ("originalFilename", r_trimmed 1 255);
   ("mimeType", r_enum allowedMimes); ("sizeBytes", r_int (Some 1) (Some 26214400)); ("contentSha256", r_sha256)].
Lemma intent_procedure : find_procedure0 "postgres.createKycDocumentUploadIntent" =
  Some (mutation "postgres.createKycDocumentUploadIntent" complianceProcedure (Some (r_object intent_shape))
    ["createPostgresKycDocumentUploadIntent"] UserActor [whole]).
Proof. reflexivity. Qed.
Lemma finalize_procedure : find_procedure0 "postgres.finalizeKycDocumentUpload" =
  Some (mutation "postgres.finalizeKycDocumentUpload" complianceProcedure (Some (r_object [("uploadIntentId", r_uuid zod_uuid)]))
    ["finalizePostgresKycDocumentUpload"] UserActor [field "uploadIntentId"]).
Proof. reflexivity. Qed.

Lemma r_uuid_run id : zod_uuid (uuid_text id) = true → r_uuid zod_uuid (Some (JUuid id)) = Some (Text (uuid_text id)).
Proof. intros H. unfold r_uuid, r_string, s_uuid, s_test, JUuid. cbn [run_checks]. by rewrite H. Qed.
Lemma r_enum_run xs s : s ∈ xs → r_enum xs (Some (JStr s)) = Some (Text s).
Proof. intros H%includes_true. unfold r_enum. by rewrite H. Qed.
Lemma r_name_run name : r_trimmed 1 255 (Some (JStr name)) = if decide (name_fits name) then Some (Text (trim name)) else None.
Proof.
  unfold r_trimmed, r_string, s_trim, s_min, s_max, s_test, name_fits. cbn [run_checks mbind option_bind].
  destruct (1 <=? js_length (trim name)) eqn:H1; cbn [mbind option_bind]; [|rewrite decide_False; [done|lia]].
  destruct (js_length (trim name) <=? 255) eqn:H2; cbn [mbind option_bind]; [rewrite decide_True; [done|lia]|rewrite decide_False; [done|lia]].
Qed.
Lemma r_size_run n : 0 < n <= 26214400 → r_int (Some 1) (Some 26214400) (Some (JNum n)) = Some (Number (JNum n)).
Proof.
  intros H. unfold r_int, safe, MAX_SAFE. replace (_ && _ && _) with true; [done|]. symmetry. rewrite !andb_true_iff, !Z.leb_le. lia.
Qed.
Lemma r_digest_run s : is_sha256_hex s = true → r_sha256 (Some (JStr s)) = Some (Text s).
Proof. intros H. unfold r_sha256, r_string, s_test. cbn [run_checks]. by rewrite H. Qed.

Definition intent_fields (i : upload_input) : value :=
  Fields [("customerId", Text (uuid_text (upi_customerId i))); ("documentType", Text (pg_text (upi_documentType i)));
    ("originalFilename", Text (trim (upi_originalFilename i))); ("mimeType", Text (upi_mimeType i)); ("sizeBytes", Number (JNum (upi_sizeBytes i)));
    ("contentSha256", Text (upi_contentSha256 i))].
Lemma intent_schema i : zod_uuid (uuid_text (upi_customerId i)) = true → upi_mimeType i ∈ allowedMimes → 0 < upi_sizeBytes i <= 26214400 →
  is_sha256_hex (upi_contentSha256 i) = true →
  r_object intent_shape (Some (intent_json i)) = if decide (name_fits (upi_originalFilename i)) then Some (intent_fields i) else None.
Proof.
  intros H1 H2 H3 H4. unfold r_object, intent_json, intent_shape. cbn [mapM fst snd].
  change (record_get _ "customerId") with (Some (JUuid (upi_customerId i))). rewrite r_uuid_run by done.
  change (record_get _ "documentType") with (Some (JStr (pg_text (upi_documentType i)))).
  rewrite r_enum_run by (apply list_elem_of_In; destruct (upi_documentType i); cbn; tauto).
  change (record_get _ "originalFilename") with (Some (JStr (upi_originalFilename i))). rewrite r_name_run.
  change (record_get _ "mimeType") with (Some (JStr (upi_mimeType i))). rewrite r_enum_run by done.
  change (record_get _ "sizeBytes") with (Some (JNum (upi_sizeBytes i))). rewrite r_size_run by done.
  change (record_get _ "contentSha256") with (Some (JStr (upi_contentSha256 i))). rewrite r_digest_run by done.
  by destruct (decide (name_fits _)).
Qed.

(** What becomes of the first request: refused by the guard, by the schema, or
    handed to the handler with the trimmed name. *)
Definition trimmed (i : upload_input) : upload_input :=
  mk_upload_input (upi_customerId i) (upi_documentType i) (trim (upi_originalFilename i)) (upi_mimeType i) (upi_sizeBytes i) (upi_contentSha256 i).
Lemma intent_refused ctx hash E id i w : zod_uuid (uuid_text (upi_customerId i)) = true → upi_mimeType i ∈ allowedMimes →
  0 < upi_sizeBytes i <= 26214400 → is_sha256_hex (upi_contentSha256 i) = true → ¬ (may_upload ctx ∧ name_fits (upi_originalFilename i)) →
  ∃ e, createIntent ctx hash E id i w = (Throw e, w).
Proof.
  intros H1 H2 H3 H4 Hn. unfold createIntent, Router.serve. rewrite intent_procedure. cbn [mutation p_mutation Bool.eqb negb p_guard p_input].
  rewrite guard_upload. case_bool_decide as Hu; cbn [negb]; [|by eexists]. rewrite intent_schema by done.
  rewrite decide_False by naive_solver. by eexists.
Qed.
Lemma intent_served ctx u hash E id i w : zod_uuid (uuid_text (upi_customerId i)) = true → upi_mimeType i ∈ allowedMimes →
  0 < upi_sizeBytes i <= 26214400 → is_sha256_hex (upi_contentSha256 i) = true →
  cx_user ctx = Some u → may_upload ctx → name_fits (upi_originalFilename i) →
  createIntent ctx hash E id i w =
    match createPostgresKycDocumentUploadIntent w.2 hash E (user_actor u) id (trimmed i) w.1 with
    | (Ok (id, _, uploadUrl, _), d) => (Ok (id, uploadUrl), (d, w.2))
    | (Throw e, d) => (Throw e, (d, w.2))
    end.
Proof.
  intros H1 H2 H3 H4 Hu Hm Hn. unfold createIntent, Router.serve. rewrite intent_procedure. cbn [mutation p_mutation Bool.eqb negb p_guard p_input].
  rewrite guard_upload, bool_decide_eq_true_2 by done. cbn [negb]. rewrite intent_schema, decide_True by done.
  unfold caller_of. cbn [mutation p_actor p_calls p_arguments]. rewrite Hu. cbn [fmap list_fmap].
  assert (intent_argument i (whole (intent_fields i)) = Some (trimmed i)) as ->; [|done].
  unfold intent_argument, whole. change (get "originalFilename" (intent_fields i)) with (Text (trim (upi_originalFilename i))).
  change (get "mimeType" (intent_fields i)) with (Text (upi_mimeType i)). change (get "sizeBytes" (intent_fields i)) with (Number (JNum (upi_sizeBytes i))).
  change (get "contentSha256" (intent_fields i)) with (Text (upi_contentSha256 i)).
  change (get "customerId" (intent_fields i)) with (Text (uuid_text (upi_customerId i))).
  change (get "documentType" (intent_fields i)) with (Text (pg_text (upi_documentType i))). unfold is_text. by rewrite !bool_decide_eq_true_2.
Qed.
Lemma finalize_schema id : zod_uuid (uuid_text id) = true →
  r_object [("uploadIntentId", r_uuid zod_uuid)] (Some (finalize_json id)) = Some (Fields [("uploadIntentId", Text (uuid_text id))]).
Proof.
  intros H. unfold r_object, finalize_json. cbn [mapM fst snd].
  change (record_get _ "uploadIntentId") with (Some (JUuid id)). by rewrite r_uuid_run.
Qed.
Lemma finalize_served ctx u E id intent w : zod_uuid (uuid_text intent) = true → cx_user ctx = Some u → may_upload ctx →
  finalize ctx E id intent w =
    match finalizePostgresKycDocumentUpload w.2 E (user_actor u) id intent w.1 with
    | (Ok _, d) => (Ok tt, (d, w.2))
    | (Throw e, d) => (Throw e, (d, w.2))
    end.
Proof.
  intros H1 Hu Hm. unfold finalize, Router.serve. rewrite finalize_procedure. cbn [mutation p_mutation Bool.eqb negb p_guard p_input].
  rewrite guard_upload, bool_decide_eq_true_2 by done. cbn [negb]. rewrite finalize_schema by done.
  unfold caller_of. cbn [mutation p_actor p_calls p_arguments]. rewrite Hu.
  change (fmap (M := list) _ _) with [Text (uuid_text intent)]. unfold is_text. by rewrite bool_decide_eq_true_2.
Qed.

(** ** Digests *)

Lemma low_digit n : n mod 256 mod 16 = n mod 16.
Proof. Z.to_euclidean_division_equations; lia. Qed.
Lemma high_digit n : n mod 256 / 16 mod 16 = n / 16 mod 16.
Proof. Z.to_euclidean_division_equations; lia. Qed.
(** The digest the browser computes is the one the server computes. *)
Lemma be_bytes_text w : hex_text (be_bytes 4 w) = hex_digits 8 w "".
Proof.
  unfold hex_text, be_bytes, byte_text. cbn -[Z.div Z.modulo Z.shiftr hex_digit Z.mul]. rewrite !Z.shiftr_div_pow2 by lia.
  rewrite !low_digit, !high_digit, !Z.div_div by lia.
  change (2 ^ (8 * Z.of_nat 0)) with 1. change (2 ^ (8 * Z.of_nat 1)) with 256. change (2 ^ (8 * Z.of_nat 2)) with 65536.
  change (2 ^ (8 * Z.of_nat 3)) with 16777216. by rewrite Z.div_1_r.
Qed.
Lemma text_app_assoc a b c : a +:+ b +:+ c = (a +:+ b) +:+ c.
Proof. induction a as [|x a IH]; [done|]. change (String x (a +:+ b +:+ c) = String x ((a +:+ b) +:+ c)). by rewrite IH. Qed.
Lemma text_app_nil a : a +:+ "" = a.
Proof. induction a as [|x a IH]; [done|]. change (String x (a +:+ "") = String x a). by rewrite IH. Qed.
Lemma hex_text_app a b : hex_text (a ++ b)%list = hex_text a +:+ hex_text b.
Proof. induction a as [|x a IH]; [done|]. cbn [app hex_text foldr]. fold (hex_text (a ++ b)%list) (hex_text a). by rewrite IH, text_app_assoc. Qed.
Lemma file_sha256_hex f : file_sha256 f = sha256_hex (file_bytes f).
Proof.
  unfold file_sha256, sha256_bytes, sha256_hex. generalize (sha256_of_bytes (file_bytes f)). intros r. cbn [flat_map].
  rewrite !hex_text_app, !be_bytes_text. cbn [hex_text foldr]. by rewrite text_app_nil.
Qed.
Lemma file_sha256_is_hex f : is_sha256_hex (file_sha256 f) = true.
Proof.
  rewrite file_sha256_hex. unfold is_sha256_hex, sha256_hex. generalize (sha256_of_bytes (file_bytes f)). intros r.
  rewrite !all_chars_app, !string_length_app. by rewrite !(λ n, proj1 (hex_digits_spec 8 n "" eq_refl)), !(λ n, proj2 (hex_digits_spec 8 n "" eq_refl)).
Qed.

(** What the form sends is what the server's table takes. *)
Lemma refusal_exact f : file_refusal (Some f) = None ↔ file_type f ∈ document_mime_types ∧ 0 < file_size f <= 26214400.
Proof.
  unfold file_refusal, maxBytes. pose proof (Nat2Z.is_nonneg (length (file_bytes f))) as Hp. fold (file_size f) in Hp.
  destruct (Z.eqb_spec (file_size f) 0); [split; [done|lia]|]. destruct (Z.ltb_spec 26214400 (file_size f)); [split; [done|lia]|].
  change allowedMimes with document_mime_types. destruct (includes _ _) eqn:Hi; cbn [negb].
  - apply includes_true in Hi. split; [|done]. intros _. split; [done|lia].
  - split; [done|]. intros [Ht _]. apply includes_true in Ht. congruence.
Qed.
Lemma media_type_sent m : m ∈ document_mime_types → media_type (Some m) = Some m.
Proof. revert m. apply Forall_forall. by repeat constructor. Qed.

(** The intent the server creates for a request. *)
Lemma create_intent_run st hash E a id input key url d : is_Some (customers d !! upi_customerId input) →
  storageCreateUploadUrl st hash (upload_prefix (upi_customerId input) +:+ safe_filename (upi_originalFilename input)) (upi_mimeType input) = Ok (key, url) →
  upi_mimeType input ∈ document_mime_types → 0 < upi_sizeBytes input <= 26214400 → is_sha256_hex (upi_contentSha256 input) = true →
  db_now E < pg_of_js (app_now E + 900000) → kyc_document_upload_intents d !! id = None →
  (∀ j x, kyc_document_upload_intents d !! j = Some x → ui_storage_key x ≠ key) →
  ∃ d', createPostgresKycDocumentUploadIntent st hash E a id input d = (Ok (id, key, url, app_now E + 900000), d') ∧
    kyc_document_upload_intents d' = <[id := intent_row E a input key (app_now E + 900000)]> (kyc_document_upload_intents d) ∧
    kyc_documents d' = kyc_documents d ∧ customers d' = customers d.
Proof.
  intros [c Hc] Hs Hm Hz Hx Ht Hid Hk. unfold createPostgresKycDocumentUploadIntent. unfold mbind at 1, act_bind at 1.
  unfold transaction at 1, mbind at 1, tx_bind at 1, select_by_id, gets, require. rewrite Hc. cbn beta iota.
  unfold mbind at 1, act_bind at 1, act_lift. rewrite Hs. cbv zeta. change (15 * 60 * 1000) with 900000.
  eexists. split.
  - apply transaction_ok. eapply (tx_bind_run _ _ _ tt).
    { apply insert_row_ok. split_and!; [|done| | |reflexivity].
      - repeat constructor; cbn; [by apply bool_decide_eq_true|lia|done|by apply Z.ltb_lt].
      - repeat constructor. cbn. apply negb_true_iff, any_false. intros j x Hj. apply bool_decide_eq_false. by eapply Hk.
      - repeat constructor. cbn. apply bool_decide_eq_true. by exists c. }
    eapply tx_bind_run; [apply modify_run|]. reflexivity.
  - done.
Qed.

(** The object store took what was sent to the signed address, and serves it under
    its key. *)
Definition stored (put : string → string → bytes → Act world Z) (st st' : object_store) (url key : string) (f : File) : Prop :=
  (∀ d, put url (file_type f) (file_bytes f) (d, st) = (Ok 200, (d, st'))) ∧
  fetched st' key = Ok (mk_object_response true (Some (file_type f)) (file_bytes f)).

(** Handled by the server, what the form sends is recorded. *)
Lemma upload_run put st st' u hash E1 E2 id1 id2 customerId documentType f d key url :
  is_Some (customers d !! customerId) → kyc_document_upload_intents d !! id1 = None → kyc_documents d !! id2 = None →
  (∀ j x, kyc_document_upload_intents d !! j = Some x → ui_storage_key x ≠ key) →
  (∀ j x, kyc_documents d !! j = Some x → kd_storage_key x ≠ key) →
  storageCreateUploadUrl st hash (upload_prefix customerId +:+ safe_filename (trim (file_name f))) (file_type f) = Ok (key, url) →
  stored put st st' url key f → db_now E1 < pg_of_js (app_now E1 + 900000) → app_now E2 < app_now E1 + 900000 →
  file_type f ∈ document_mime_types → 0 < file_size f <= 26214400 →
  ∃ d1 d2 i,
    createPostgresKycDocumentUploadIntent st hash E1 (user_actor u) id1 (trimmed (intent_request customerId documentType f)) d =
      (Ok (id1, key, url, app_now E1 + 900000), d1) ∧
    finalizePostgresKycDocumentUpload st' E2 (user_actor u) id2 id1 d1 = (Ok (id2, KycSubmitted), d2) ∧
    kyc_documents d2 = <[id2 := document_row E2 (user_actor u) i]> (kyc_documents d) ∧
    (ui_customer_id i, ui_document_type i, ui_original_filename i, ui_mime_type i, ui_size_bytes i, ui_content_sha256 i, ui_storage_key i) =
    (customerId, documentType, trim (file_name f), file_type f, file_size f, sha256_hex (file_bytes f), key).
Proof.
  intros Hc Hid1 Hid2 Hk1 Hk2 Hs [Hput Hget] Ht1 Ht2 Hm Hz. set (a := user_actor u).
  destruct (create_intent_run st hash E1 a id1 (trimmed (intent_request customerId documentType f)) key url d) as (d1 & Hrun & Hi & Hd & Hcu); try done.
  { apply file_sha256_is_hex. }
  set (i := intent_row E1 a (trimmed (intent_request customerId documentType f)) key (app_now E1 + 900000)) in *.
  destruct (finalize_run st' E2 a id2 id1 d1 i (mk_object_response true (Some (file_type f)) (file_bytes f))) as [d2 Hf].
  { split; try done; [by rewrite Hi, lookup_insert_eq|subst i; cbn; by rewrite js_of_pg_of_js|by apply media_type_sent| |cbn; lia|by rewrite Hd|by rewrite Hd|by rewrite Hcu].
    split; [|done]. symmetry. apply file_sha256_hex. }
  exists d1, d2, i. split; [done|]. split; [done|]. apply finalize_ok in Hf as (i' & o & Hz' & _ & Hv & _). injection Hv as _ Hv.
  destruct Hz' as [Hrow _ _ _ _ _ _ _ _ _ _ _]. rewrite Hi, lookup_insert_eq in Hrow. injection Hrow as <-.
  rewrite Hv, Hd. split; [done|]. unfold i, intent_row, trimmed, intent_request.
  cbn [ui_customer_id ui_document_type ui_original_filename ui_mime_type ui_size_bytes ui_content_sha256 ui_storage_key upi_customerId upi_documentType upi_originalFilename upi_mimeType upi_sizeBytes upi_contentSha256].
  by rewrite file_sha256_hex.
Qed.

(** C40. A file that the form and the router accept is recorded. For a customer on
    record, with a store that signs the upload and keeps what is put there, and a
    confirmation inside the quarter of an hour: if the form does not refuse the
    file, the caller is a compliance officer or an administrator and the trimmed
    name has 1 to 255 characters, the submission completes, and the server has a
    submitted document of that customer with the file's trimmed name, type and
    size, whose digest is that of the file's bytes, recorded by the caller. If the
    form does not refuse it but the caller has another role or is nobody, or the
    name is blank or longer, the submission fails, nothing is recorded and nothing
    is put in the store. A file the form refuses sends nothing, and it refuses
    exactly the types and sizes the server's table would. *)
Theorem uploaded_file_is_recorded put st st' ctx hash E1 E2 id1 id2 customerId documentType f d key url :
  zod_uuid (uuid_text customerId) = true → zod_uuid (uuid_text id1) = true →
  is_Some (customers d !! customerId) → kyc_document_upload_intents d !! id1 = None → kyc_documents d !! id2 = None →
  (∀ j x, kyc_document_upload_intents d !! j = Some x → ui_storage_key x ≠ key) →
  (∀ j x, kyc_documents d !! j = Some x → kd_storage_key x ≠ key) →
  storageCreateUploadUrl st hash (upload_prefix customerId +:+ safe_filename (trim (file_name f))) (file_type f) = Ok (key, url) →
  stored put st st' url key f →
  db_now E1 < pg_of_js (app_now E1 + 900000) → app_now E2 < app_now E1 + 900000 →
  let run := onSubmit (createIntent ctx hash E1 id1) put (finalize ctx E2 id2) customerId documentType (Some f) (d, st) in
  (file_refusal (Some f) = None ↔ file_type f ∈ document_mime_types ∧ 0 < file_size f <= 26214400) ∧
  (∀ message, file_refusal (Some f) = Some message → run = (Refused message, (d, st))) ∧
  (file_refusal (Some f) = None → ¬ (may_upload ctx ∧ name_fits (file_name f)) → ∃ cause, run = (Failed cause, (d, st))) ∧
  (∀ u, file_refusal (Some f) = None → cx_user ctx = Some u → pu_role u ∈ [RoleAdmin; RoleComplianceOfficer] → name_fits (file_name f) →
    run.1 = Completed ∧ run.2.2 = st' ∧ ∃ i,
      kyc_documents run.2.1 = <[id2 := document_row E2 (user_actor u) i]> (kyc_documents d) ∧
      (ui_customer_id i, ui_document_type i, ui_original_filename i, ui_mime_type i, ui_size_bytes i, ui_content_sha256 i, ui_storage_key i) =
      (customerId, documentType, trim (file_name f), file_type f, file_size f, sha256_hex (file_bytes f), key)).
Proof.
  intros Hz1 Hz2 Hc Hid1 Hid2 Hk1 Hk2 Hs [Hput Hget] Ht1 Ht2. cbv zeta. split; [apply refusal_exact|]. unfold onSubmit.
  destruct (file_refusal (Some f)) as [message|] eqn:Hr; [split_and!; [by intros m [= ->]|done..]|]. apply refusal_exact in Hr as [Hm Hz].
  pose proof (file_sha256_is_hex f) as Hh. split; [done|]. split.
  { intros _ Hn. destruct (intent_refused ctx hash E1 id1 (intent_request customerId documentType f) (d, st)) as [e He]; try done.
    exists e. unfold send. unfold mbind at 1, act_bind at 1. by rewrite He. }
  intros u _ Hu Hro Hname. assert (may_upload ctx) as Hup by (by exists u).
  destruct (upload_run put st st' u hash E1 E2 id1 id2 customerId documentType f d key url) as (d1 & d2 & i & Hrun & Hf & Hd & Hi); try done.
  assert (send (createIntent ctx hash E1 id1) put (finalize ctx E2 id2) customerId documentType f (d, st) = (Ok tt, (d2, st'))) as ->.
  { unfold send. unfold mbind at 1, act_bind at 1. erewrite intent_served by done. cbn [fst snd]. rewrite Hrun. cbn [fst snd].
    unfold mbind at 1, act_bind at 1. rewrite Hput. rewrite act_throw_if_bind. cbn [fst snd]. erewrite finalize_served by done. cbn [fst snd]. by rewrite Hf. }
  cbn [fst snd]. split; [done|]. split; [done|]. by exists i.
Qed.
End routed.

(** Witness of [uploaded_file_is_recorded]: a scan of three bytes. *)
Definition scan_file : File := mk_file " my id (1).pdf" "application/pdf" scan.
Definition empty_store : object_store :=
  mk_object_store (Ok tt) (λ k _, Ok ("https://put/" +:+ k)) (λ k, Ok ("https://get/" +:+ k)) (λ _, Throw (JsError "fetch failed")).
Definition scan_kept : object_store :=
  mk_object_store (Ok tt) (λ k _, Ok ("https://put/" +:+ k)) (λ k, Ok ("https://get/" +:+ k))
    (λ _, Ok (mk_object_response true (Some "application/pdf") scan)).
Definition put_kept (url type : string) (bs : bytes) : Act world Z := λ w, (Ok 200, (w.1, scan_kept)).
Definition clerk_context (role : operating_role) : trpc_context :=
  mk_trpc_context (Some (mk_platform_user (mk_identity "clerk-1" None None "keycloak" (Platform RoleAuditor) 0) role)) None.
Definition demo_zod : ZodParser := reference_zod (λ _ _, true).
Definition any_text (_ : string) : bool := true.
Definition scan_run (role : operating_role) : upload_outcome * world :=
  onSubmit (createIntent (Z0 := demo_zod) any_text any_text Some (λ _, None) 0 (λ _, "refused") (clerk_context role) "1a2b3c4d" (kyc_env 1) 2) put_kept
    (finalize (Z0 := demo_zod) any_text any_text Some (λ _, None) 0 (λ _, "refused") (clerk_context role) (kyc_env 2) 3) 1%positive DocIdentityDocument
    (Some scan_file) (kyc0, empty_store).
Lemma uploaded_file_is_recorded_witness :
  ((scan_run RoleComplianceOfficer).1 = Completed ∧
    ∃ i, kyc_documents (scan_run RoleComplianceOfficer).2.1 = {[3%positive := document_row (kyc_env 2) kyc_clerk i]} ∧
      ui_original_filename i = "my id (1).pdf") ∧
  ∃ cause, scan_run RoleTreasuryOperator = (Failed cause, (kyc0, empty_store)).
Proof.
  assert (∀ role, _) as T by (intros role; exact (uploaded_file_is_recorded (Z0 := demo_zod) any_text any_text Some (λ _, None) 0 (λ _, "refused")
    put_kept empty_store scan_kept (clerk_context role) "1a2b3c4d" (kyc_env 1) (kyc_env 2) 2 3 1 DocIdentityDocument scan_file kyc0
    "kyc-document-intake/00000000-0000-0000-0000-000000000001/my_id__1__1a2b3c4d.pdf"
    "https://put/kyc-document-intake/00000000-0000-0000-0000-000000000001/my_id__1__1a2b3c4d.pdf" eq_refl eq_refl (mk_is_Some _ _ eq_refl) eq_refl eq_refl
    (λ j x Hx, ltac:(discriminate Hx)) (λ j x Hx, ltac:(discriminate Hx)) ltac:(vm_compute; reflexivity) ltac:(split; [reflexivity|vm_compute; reflexivity])
    ltac:(vm_compute; reflexivity) ltac:(vm_compute; reflexivity))).
  split.
  - destruct (T RoleComplianceOfficer) as (_ & _ & _ & H).
    destruct (H _ eq_refl eq_refl ltac:(right; left) ltac:(vm_compute; done)) as (H1 & _ & i & Hi & He).
    split; [exact H1|]. exists i. split; [exact Hi|]. injection He as _ _ -> _ _ _ _. vm_compute. reflexivity.
  - destruct (T RoleTreasuryOperator) as (_ & _ & H & _). apply H; [reflexivity|]. intros [(u & Hu & Hr) _]. injection Hu as <-.
    cbn [pu_role] in Hr. apply list_elem_of_In in Hr. cbn in Hr. destruct Hr as [Hr|[Hr|[]]]; discriminate Hr.
Defined.
